(* ===== verification/_CoqProject ===== *)
-Q . S2P
Prelude.v
GoStrings.v
GoPath.v
AppendLog.v
Float64.v
ByteSizes.v
RecordPool.v
EvictHeap.v
Wire.v
HttpNet.v
CacheWire.v
Settings.v
GoCacheStore.v
GoCacheOpen.v
LocalStore.v
LocalServe.v
ManifestPaths.v
Manifests.v
LocalManifests.v
Proxy.v
ProxyServe.v
Shim.v
App.v
GoCacheRestore.v
ClientFiles.v
Timestamps.v
GocacheStats.v
NativeRestore.v
SaveSessions.v
HttpServer.v
SessionsLog.v
StatusPage.v
HttpSession.v
Admin.v
HttpCache.v
NativeSave.v
Server.v
GithubActions.v
ProxyStats.v
JobEnd.v
HashDiff.v
Cli.v
ShimServe.v
Relay.v
