(* ===== verification/Prelude.v ===== *)
(** * A verification library for gocacheprog

    gocacheprog keeps the build cache of the go command on a server and on the
    machines that build.  This library models the parts that decide what is stored,
    served, evicted and answered, and proves that they do it right.

    ** The program

    - Two stores.  The object store (src/internal/gocache/store.go) keeps the files of
      whole GOCACHE directories by relative path; manifests list which of them a
      commit, a change or a build type used; a build restores the objects of its
      manifests, and saves new ones.  The action cache (src/internal/local/store.go)
      keeps the results of single actions: an index from action ids to
      content-addressed outputs that several actions share.
    - Both put small bodies into a record pool (src/internal/recordpool), page files of
      slots of one size, and larger ones into files; both stop at a disk budget by
      evicting, the object store through a heap of priorities.
    - Two wire formats: streams and batches of file items (gocache/store.go), and
      responses of action items (src/internal/cache/store.go).
    - A server carries both over HTTP (src/internal/http), for clients that save and
      restore whole directories and for those that get and put actions.
    - A proxy (src/internal/local/proxy.go) answers the go command from an action cache
      on disk and asks an upstream in batches for what it has not.  One go command talks
      to it directly (local/app.go), or many through a daemon (local/shim.go).
    - A job of GitHub Actions (src/internal/local/github_actions.go) sets one of these up
      in its first step and ends it in its last; the command line (src/cli) chooses.

    ** The files

    - Prelude: bytes, errors, results, Go's sorting; the tactics [go_destruct],
      [go_case], [go_cases], [go_bool] and the hint database [gocache].
    - GoStrings, GoPath: Go's strings, strconv, bufio.Scanner and path/filepath on byte
      lists; [cleanRelativePath] keeps a path under the directory it is joined to.
    - RecordPool: recordpool.go.  [wf] is the invariant of pages, slots, free stack and
      files; [models] relates a pool to the map of its live records, and putting,
      freeing and restarting refine that map.
    - EvictHeap: eviction_heap.go and [moreEvictable]; a heap that drains in order.
    - Wire, CacheWire: the two formats; what is written is read back, a stream that is
      cut is an error, declared lengths are the lengths sent.
    - GoCacheStore, GoCacheOpen: the object store.  [holds] is its invariant: index,
      disk usage, heap, pool and files account for the same objects.  Saving refines a
      map of contents, eviction stops at the budget, a store that is closed and opened
      holds what it held.
    - ManifestPaths, Manifests: where manifests and upload sessions lie, that no two
      keys share a file, and that updates lose no line.
    - GoCacheRestore: restoring, clearing and inspecting; a saved path is restored.
    - LocalStore, LocalServe: the action cache.  [holds] says that reference counts,
      sizes, places and bytes of the shared outputs are those of the index; a put is
      read back, eviction ends under its target, the integrity check equals a
      reference check over the stored bytes, closing and opening lose nothing.
    - LocalManifests: its manifests and preloading; used actions are preloaded.
    - Proxy, ProxyServe: the proxy as a state machine.  An event is one atomic action
      of one goroutine; a run is any interleaving.  Every lookup is answered once and
      none waits for ever; hits and puts name files with the right bytes; what is put
      goes upstream in order.
    - Shim: the daemon around one proxy; every session gets its own answers.
    - App: the direct mode.
    - Relay: the helpers that relay the requests of many go commands to one daemon, with
      their connections; each go command gets its own answers.
    - ClientFiles: the GOCACHE directory of a build: which files are collected for
      saving, the list of restored paths, the marker of the job's start.
    - Settings: settings.go; limits by build type, kept in a file, and the trimming of
      a preload to its budget.
    - NativeRestore: a restore from end to end, from the query of the client over the
      handler and its stream to the files of the directory.
    - SaveSessions: the server's side of a save, in one request or in the chunks of an
      upload session.
    - HttpNet, HttpServer, HttpSession: the network as a function from a state and a
      request to a state and a response, with the client's retries; the handler's
      authorization, client sessions and combined disk budget, around any route; the handshake of
      a client, the headers that name its session, and the report that ends it.
    - NativeSave: a save from end to end, the client's upload in chunks against the
      handler; what a job made, within the limits, is stored and listed.
    - HttpCache: the action cache over HTTP, client and handlers, as an upstream of the
      proxy: what is put and accepted is got, what was used is preloaded as far as the
      budget of a preload goes.
    - Timestamps, GocacheStats: the time stamps of a checkout; the statistics file of a
      local build directory and eviction by age.
    - SessionsLog, AppendLog: the log of sessions that a server keeps in a file and reads
      at its start; what it says of a session comes back.
    - StatusPage, Admin: what people see of a server and do with it, behind a password:
      the page, its forms, the archive; and with the token: where objects went, clearing
      a scope, the integrity check.
    - Server: the whole server, every route of the handler over one state that holds the
      stores, the sessions, the settings and the uploads.
    - GithubActions: a CI job, local/github_actions.go: its connection string and scope,
      its first step in four modes and its last in four, with $GITHUB_ENV between them.
    - Float64, ByteSizes, ProxyStats, JobEnd: binary64 numbers as exact rationals with
      rounding to nearest, sizes and rates as text, the statistics of a proxy, and the
      last step of direct mode, which sums what every run of the helper wrote down.
    - Cli, ShimServe: cli.go; the mode a command line chooses with what it needs, the
      native mode, and the life of the daemon, a state machine around [Shim]: it
      serves, is stopped, waits for its sessions, and reports to the one who stopped it.
    - HashDiff: cmd/gocachehashdiff; the comparison of two logs is exact.

    ** How the code is modelled

    Stores, pools and proxies are records; an operation is a function from the state
    and its arguments to the state and a [result].  What the environment does is an
    argument: the clock, the faults of the file system at each call, the order in which
    Go ranges over a map, the schedule, the answers of the upstream.  A directory is a
    map from paths to contents.  Operations under one mutex are atomic; where the code
    leaves the lock (the body of a put, a round trip to the upstream) the phases are
    definitions of their own.  The encodings of JSON and zstd are interfaces ([JSON],
    [Zstd]) with their round-trip laws, instantiated by concrete codecs in the
    witnesses.  64-bit counters and sizes are unbounded integers; the 32-bit lengths of
    the wire formats are kept at their width.

    Floats appear where the code reports: a binary64 number is a reduced fraction, each
    operation rounds the exact result to nearest, ties to even; formats of floats are
    interfaces with the law that reading gives back what was written.

    Loops that the code ends by a condition on its state run on fuel: eviction on the
    size of the index (every round removes an entry), streams on the length of their
    data (every round consumes some), trimming on the length of the string, decimal
    digits on the binary logarithm.  The theorems show the results do not depend on more
    fuel, or that the fuel is never used up.  The proxy and the daemon have no fuel: a
    decreasing amount of work shows that they settle.

    ** Reading the theorems

    The theorems marked C1, C2, ... are the claims, in the order of their importance;
    each has, where it has hypotheses, a witness of the same name that applies it to a
    concrete input.  What a theorem assumes of limits, of faults and of outputs that are
    stored already is said in its comment.  The other lemmas carry them.  A few lemmas at the ends of files show
    behaviours outside the assumptions, by computing on concrete stores.

    ** Not modelled

    Logging, the HTML template of the status page, the text of times and durations, and
    the percentiles of latencies, which come from a library.  Parsing of flags, signals,
    and the binding of TCP and unix sockets with TLS (local/server.go), which are input
    and output around the components above.  Durations only matter where the code
    compares or sums them; the pauses between attempts are left out.  A request to the
    server is one step; requests that overlap in time are not interleaved.  The mode and
    the time stamp of a stored object file are not kept. *)
From Stdlib Require Export ZArith Ascii String Lia.
From stdpp Require Export gmap strings fin_maps sorting numbers list.

#[export] Set Default Goal Selector "!".
#[export] Set Warnings "-clear-no-such-hyp,-unused-intro-pattern".
Open Scope Z_scope.

(** ** Bytes *)

(** Go's [[]byte]: a list of 8-bit characters. *)
Abbreviation byte := ascii.
Abbreviation bytes := (list ascii).

Definition blen (b : bytes) : Z := Z.of_nat (length b).

(** ** Results and errors *)

(** The error values the code tells apart: [os.IsNotExist], [ENOSPC], the
    sentinel [ErrShortRead], [io.EOF], a Go runtime panic, and every error
    that is only ever formatted.  Wrapping an error with [%w] keeps what
    [errors.Is] sees of it, so it is the identity here. *)
Inductive goerr :=
  | ENotExist
  | ENoSpace
  | EShortRead
  | EEOF
  | EPanic (msg : string)
  | EMsg (msg : string).

#[export] Instance goerr_eq_dec : EqDecision goerr.
Proof. solve_decision. Defined.

Inductive result (A : Type) :=
  | Ok (a : A)
  | Err (e : goerr).
Arguments Ok {A} a.
Arguments Err {A} e.

#[export] Instance result_eq_dec `{EqDecision A} : EqDecision (result A).
Proof. solve_decision. Defined.

Declare Scope go_scope.
Delimit Scope go_scope with go.

Notation "'let?' x ':=' c 'in' k" :=
  (match c with Ok x => k | Err e => Err e end)
  (at level 10, x pattern, c at level 100, k at level 200) : go_scope.

(** [os.IsNotExist(err)]. *)
Definition isNotExist (e : goerr) : bool :=
  match e with ENotExist => true | _ => false end.

(** ** Fixed-width integers *)

(** Conversions [uint32(x)] and [int64(x)]: truncation to the width. *)
Definition u32 (x : Z) : Z := x mod 2 ^ 32.
Definition i64 (x : Z) : Z := (x + 2 ^ 63) mod 2 ^ 64 - 2 ^ 63.

Lemma u32_id x : 0 <= x < 2 ^ 32 -> u32 x = x.
Proof. intros. unfold u32. by apply Z.mod_small. Qed.

Lemma u32_bound x : 0 <= u32 x < 2 ^ 32.
Proof. unfold u32. by apply Z.mod_pos_bound. Qed.

Lemma i64_id x : - 2 ^ 63 <= x < 2 ^ 63 -> i64 x = x.
Proof. intros. unfold i64. rewrite Z.mod_small; lia. Qed.

(** ** Ranging over a map *)

(** An order in which Go may range over a map with string keys. *)
Definition range_of {A} (m : gmap bytes A) (order : list bytes) : Prop :=
  NoDup order /\ forall p, p ∈ order <-> is_Some (m !! p).

Lemma size_delete_lt `{Countable K} {A} (m : gmap K A) k x :
  m !! k = Some x -> size m = S (size (delete k m)).
Proof. intros Hk. rewrite map_size_delete_Some by eauto. assert (size m <> 0%nat); [|lia].
  apply map_size_non_empty_iff. intros ->. done. Qed.

(** ** Sums over finite maps *)

(** [for k, v := range m { total += f(v) }]. *)
Definition map_sum `{Countable K} {V} (f : V -> Z) (m : gmap K V) : Z :=
  map_fold (fun _ v acc => f v + acc) 0 m.

Section map_sum.
Context `{Countable K} {V : Type}.
Implicit Types (f : V -> Z) (m : gmap K V).

Lemma map_sum_empty f : map_sum f (∅ : gmap K V) = 0.
Proof. unfold map_sum. by rewrite map_fold_empty. Qed.

Lemma map_sum_insert_None f m k v :
  m !! k = None -> map_sum f (<[k:=v]> m) = f v + map_sum f m.
Proof.
  intros Hk. unfold map_sum.
  rewrite map_fold_insert_L; [done | intros; lia | done].
Qed.

Lemma map_sum_delete f m k v :
  m !! k = Some v -> map_sum f (delete k m) = map_sum f m - f v.
Proof.
  intros Hk. rewrite <-(insert_delete_id m k v) at 2 by done.
  rewrite map_sum_insert_None; [lia | by rewrite lookup_delete_eq].
Qed.

Lemma map_sum_insert_Some f m k v w :
  m !! k = Some v -> map_sum f (<[k:=w]> m) = map_sum f m - f v + f w.
Proof.
  intros Hk. rewrite <-insert_delete_eq.
  rewrite map_sum_insert_None by (by rewrite lookup_delete_eq).
  rewrite (map_sum_delete f m k v) by done. lia.
Qed.

Lemma map_sum_nonneg f m :
  (forall k v, m !! k = Some v -> 0 <= f v) -> 0 <= map_sum f m.
Proof.
  induction m as [|k v m Hk IH] using map_ind; intros Hf.
  - by rewrite map_sum_empty.
  - rewrite map_sum_insert_None by done.
    assert (0 <= f v) by (apply (Hf k); by rewrite lookup_insert_eq).
    assert (0 <= map_sum f m); [|lia].
    apply IH. intros k' v' Hk'. apply (Hf k').
    rewrite lookup_insert_ne; [done | congruence].
Qed.

Lemma map_sum_elem f m k v :
  (forall k v, m !! k = Some v -> 0 <= f v) ->
  m !! k = Some v -> f v <= map_sum f m.
Proof.
  intros Hf Hk. rewrite <-(insert_delete_id m k v) by done.
  rewrite map_sum_insert_None by (by rewrite lookup_delete_eq).
  assert (0 <= map_sum f (delete k m)); [|lia].
  apply map_sum_nonneg. intros k' v' [_ ?]%lookup_delete_Some. eauto.
Qed.
End map_sum.

(** ** First-seen deduplication *)

(** The loop the stores repeat: append every element that is not in [seen],
    recording it.  [unseen seen l] is what the loop appends. *)
Fixpoint unseen `{Countable A} (seen : gset A) (l : list A) : list A :=
  match l with
  | [] => []
  | x :: l' =>
      if decide (x ∈ seen) then unseen seen l'
      else x :: unseen ({[x]} ∪ seen) l'
  end.

Section unseen.
Context `{Countable A}.
Implicit Types (l : list A) (seen : gset A).

Lemma elem_of_unseen seen l x : x ∈ unseen seen l <-> x ∈ l /\ x ∉ seen.
Proof.
  revert seen. induction l as [|y l IH]; intros seen; simpl.
  - set_solver.
  - case_decide.
    + rewrite IH. set_solver.
    + rewrite elem_of_cons, IH. destruct (decide (x = y)); set_solver.
Qed.

Lemma NoDup_unseen seen l : NoDup (unseen seen l).
Proof.
  revert seen. induction l as [|y l IH]; intros seen; simpl; [constructor|].
  case_decide; [done|]. constructor; [|done].
  rewrite elem_of_unseen. set_solver.
Qed.

Lemma unseen_sublist seen l : unseen seen l `sublist_of` l.
Proof.
  revert seen. induction l as [|y l IH]; intros seen; simpl; [done|].
  case_decide; by constructor.
Qed.

Lemma unseen_app seen l k :
  unseen seen (l ++ k) = unseen seen l ++ unseen (list_to_set l ∪ seen) k.
Proof.
  revert seen. induction l as [|y l IH]; intros seen; simpl.
  - f_equal. set_solver.
  - case_decide.
    + rewrite IH. do 2 f_equal. set_solver.
    + simpl. rewrite IH. do 3 f_equal. set_solver.
Qed.

Lemma unseen_id l : NoDup l -> unseen ∅ l = l.
Proof.
  intros Hl. assert (Hd : forall x, x ∈ l -> x ∉ (∅ : gset A)) by set_solver.
  revert Hd. generalize (∅ : gset A) as seen.
  induction Hl as [|x l Hx Hl IH]; intros seen Hd; simpl; [done|].
  rewrite decide_False by (apply Hd; set_solver). f_equal.
  apply IH. set_solver.
Qed.

Lemma length_unseen seen l : (length (unseen seen l) <= length l)%nat.
Proof. apply sublist_length, unseen_sublist. Qed.
End unseen.

(** ** Sorting *)

(** [sort.SliceStable]: stable insertion by a strict order [less].  An element
    is inserted before the first element it is strictly less than... after all
    elements that are not greater, which is what stability asks. *)
Fixpoint insert_sorted {A} (less : A -> A -> bool) (x : A) (l : list A) : list A :=
  match l with
  | [] => [x]
  | y :: l' => if less y x then y :: insert_sorted less x l' else x :: l
  end.

Definition stable_sort {A} (less : A -> A -> bool) (l : list A) : list A :=
  foldr (insert_sorted less) [] l.

Section stable_sort.
Context {A : Type} (less : A -> A -> bool).

Lemma insert_sorted_perm x l : insert_sorted less x l ≡ₚ x :: l.
Proof.
  induction l as [|y l IH]; simpl; [done|].
  destruct (less y x); [|done]. rewrite IH. apply perm_swap.
Qed.

Lemma stable_sort_perm l : stable_sort less l ≡ₚ l.
Proof.
  induction l as [|x l IH]; simpl; [done|].
  by rewrite insert_sorted_perm, IH.
Qed.
End stable_sort.

(** A list is ordered by [less] when no later element is strictly less than an
    earlier one: what [sort.Slice] guarantees for a strict weak order. *)
Definition ordered_by {A} (less : A -> A -> bool) (l : list A) : Prop :=
  forall i j x y, (i < j)%nat -> l !! i = Some x -> l !! j = Some y ->
  less y x = false.

(** A strict weak order given as a Go [Less] function. *)
Class StrictWeak {A} (less : A -> A -> bool) : Prop := {
  sw_irrefl x : less x x = false;
  sw_trans x y z : less x y = true -> less y z = true -> less x z = true;
  sw_incomp x y z : less x y = false -> less y z = false -> less x z = false;
}.

Section ordered.
Context {A : Type} (less : A -> A -> bool).

Lemma ordered_by_nil : ordered_by less [].
Proof. intros i j x y ? Hi. done. Qed.

Lemma ordered_by_cons x l :
  ordered_by less (x :: l) <->
  Forall (fun y => less y x = false) l /\ ordered_by less l.
Proof.
  split.
  - intros Ho. split.
    + apply Forall_lookup. intros i y Hy. by apply (Ho 0%nat (S i) x y); [lia|..].
    + intros i j a b Hij Ha Hb. by apply (Ho (S i) (S j) a b); [lia|..].
  - intros [Hx Ho] [|i] [|j] a b Hij Ha Hb; simplify_eq/=; try lia.
    + rewrite Forall_lookup in Hx. eauto.
    + by apply (Ho i j a b); [lia|..].
Qed.

Lemma ordered_by_app l k :
  ordered_by less (l ++ k) ->
  forall x y, x ∈ l -> y ∈ k -> less y x = false.
Proof.
  intros Ho x y [i Hi]%list_elem_of_lookup [j Hj]%list_elem_of_lookup.
  apply (Ho i (length l + j)%nat).
  - apply lookup_lt_Some in Hi. lia.
  - by apply lookup_app_l_Some.
  - rewrite lookup_app_r by lia. by rewrite Nat.add_comm, Nat.add_sub.
Qed.

Context `{!StrictWeak less}.

Lemma sw_asym x y : less x y = true -> less y x = false.
Proof.
  intros Hxy. destruct (less y x) eqn:Hyx; [|done].
  rewrite <-(sw_irrefl x). symmetry. by eapply sw_trans.
Qed.

Lemma insert_sorted_ordered x l :
  ordered_by less l -> ordered_by less (insert_sorted less x l).
Proof.
  induction l as [|y l IH]; simpl; intros Hl.
  - apply ordered_by_cons. split; [constructor | apply ordered_by_nil].
  - apply ordered_by_cons in Hl as [Hy Hl].
    destruct (less y x) eqn:Hyx; apply ordered_by_cons; split.
    + rewrite insert_sorted_perm. constructor; [by apply sw_asym | done].
    + by apply IH.
    + constructor; [done|].
      rewrite Forall_forall in Hy |- *. intros z Hz.
      by eapply sw_incomp; [apply Hy|].
    + by apply ordered_by_cons.
Qed.

Lemma stable_sort_ordered l : ordered_by less (stable_sort less l).
Proof.
  induction l as [|x l IH]; simpl; [apply ordered_by_nil|].
  by apply insert_sorted_ordered.
Qed.
End ordered.

(** [sort.Slice] leaves the order of incomparable elements open: the code may
    rely on a permutation that is ordered, and on nothing else. *)
Class SliceSort := {
  sort_slice : forall {A}, (A -> A -> bool) -> list A -> list A;
  sort_slice_perm : forall {A} (less : A -> A -> bool) l, sort_slice less l ≡ₚ l;
  sort_slice_ordered : forall {A} (less : A -> A -> bool) l,
    StrictWeak less -> ordered_by less (sort_slice less l);
}.

(** One admissible [sort.Slice]: the stable sort. *)
Definition stable_slice_sort : SliceSort := {|
  sort_slice := @stable_sort;
  sort_slice_perm := @stable_sort_perm;
  sort_slice_ordered := fun A less l H => @stable_sort_ordered A less H l;
|}.

(** ** Filtering all or nothing *)

Lemma filter_all {A} (P : A -> Prop) `{!forall x, Decision (P x)} (l : list A) :
  (forall x, x ∈ l -> P x) -> filter P l = l.
Proof.
  induction l as [|x l IH]; intros Hl; [done|].
  rewrite filter_cons_True by (apply Hl; set_solver). f_equal. apply IH. set_solver.
Qed.

Lemma filter_none {A} (P : A -> Prop) `{!forall x, Decision (P x)} (l : list A) :
  (forall x, x ∈ l -> ~ P x) -> filter P l = [].
Proof.
  induction l as [|x l IH]; intros Hl; [done|].
  rewrite filter_cons_False by (apply Hl; set_solver). apply IH. set_solver.
Qed.

(** ** Hints and tactics *)

Create HintDb gocache.
#[export] Hint Resolve NoDup_unseen stable_sort_ordered ordered_by_nil : gocache.

(** Split the hypotheses that are conjunctions or existentials, and simplify. *)
Ltac go_destruct :=
  repeat match goal with
    | H : _ /\ _ |- _ => destruct H
    | H : exists _, _ |- _ => destruct H
    | H : Some _ = Some _ |- _ => injection H as H; subst
    | H : Ok _ = Ok _ |- _ => injection H as H; subst
    | H : Ok _ = Err _ |- _ => discriminate H
    | H : Err _ = Ok _ |- _ => discriminate H
    | H : (_, _) = (_, _) |- _ => injection H as H; subst
    end.

(** Case on the scrutinee of a match or an [if] of the goal, keeping the
    equation. *)
Ltac go_case :=
  match goal with
  | |- context [match ?x with _ => _ end] =>
      lazymatch x with
      | context [match _ with _ => _ end] => fail
      | _ => let E := fresh "E" in destruct x eqn:E
      end
  end.

(** Case on every match of a goal and its hypotheses, dropping the branches that
    contradict themselves. *)
Ltac go_cases := repeat (case_match; simplify_eq/=; try done).

(** Turn boolean comparisons in the context into propositions. *)
Ltac go_bool :=
  repeat match goal with
    | H : (_ && _)%bool = true |- _ => apply andb_true_iff in H as [? ?]
    | H : (_ || _)%bool = false |- _ => apply orb_false_iff in H as [? ?]
    | H : (_ <? _) = true |- _ => apply Z.ltb_lt in H
    | H : (_ <? _) = false |- _ => apply Z.ltb_ge in H
    | H : (_ <=? _) = true |- _ => apply Z.leb_le in H
    | H : (_ <=? _) = false |- _ => apply Z.leb_gt in H
    | H : (_ =? _) = true |- _ => apply Z.eqb_eq in H
    | H : (_ =? _) = false |- _ => apply Z.eqb_neq in H
    | H : bool_decide _ = true |- _ => apply bool_decide_eq_true in H
    | H : bool_decide _ = false |- _ => apply bool_decide_eq_false in H
    | H : negb _ = true |- _ => apply negb_true_iff in H
    | H : negb _ = false |- _ => apply negb_false_iff in H
    end.
