(* ===== verification/GoStrings.v ===== *)
(** The parts of Go's [strings], [strconv], [bufio] and [path/filepath] that
    the sources use, on Unix, as functions on byte lists.  A Go string and a
    [[]byte] are both [bytes] here. *)
From S2P Require Import Prelude.

Notation "# s" := (list_ascii_of_string s%string)
  (at level 1, s at level 0, format "# s") : go_scope.
Open Scope go_scope.
#[global] Arguments list_ascii_of_string : simpl never.

(** ** strings *)

Fixpoint HasPrefix (s p : bytes) {struct p} : bool :=
  match p, s with
  | [], _ => true
  | x :: p', y :: s' => bool_decide (x = y) && HasPrefix s' p'
  | _ :: _, [] => false
  end.

Definition TrimPrefix (s p : bytes) : bytes :=
  if HasPrefix s p then drop (length p) s else s.

Definition HasSuffix (s p : bytes) : bool := HasPrefix (reverse s) (reverse p).

Definition TrimSuffix (s p : bytes) : bytes :=
  if HasSuffix s p then take (length s - length p) s else s.

(** [strings.Index]: the first position where [p] occurs. *)
Fixpoint Index (s p : bytes) : option nat :=
  if HasPrefix s p then Some 0%nat
  else match s with
       | [] => None
       | _ :: s' => S <$> Index s' p
       end.

Definition Contains (s p : bytes) : bool :=
  match Index s p with Some _ => true | None => false end.

(** [strings.Cut]. *)
Definition Cut (s sep : bytes) : bytes * bytes * bool :=
  match Index s sep with
  | Some i => (take i s, drop (i + length sep) s, true)
  | None => (s, [], false)
  end.

(** [strings.Join]. *)
Fixpoint Join (l : list bytes) (sep : bytes) : bytes :=
  match l with
  | [] => []
  | [x] => x
  | x :: l' => x ++ sep ++ Join l' sep
  end.

(** The runes [unicode.IsSpace] accepts, in UTF-8. *)
Definition ascii_space (c : ascii) : bool :=
  let n := nat_of_ascii c in
  ((n =? 32) || ((9 <=? n) && (n <=? 13)))%nat%bool.

Definition wide_spaces : list bytes :=
  map (map ascii_of_nat)
    ([[194; 133]; [194; 160]; [225; 154; 128]] ++
     map (fun k => [226; 128; k]) (seq 128 11) ++
     [[226; 128; 168]; [226; 128; 169]; [226; 128; 175]; [226; 129; 159];
      [227; 128; 128]])%nat.

(** Drop one leading space rune; [rev] tells that [s] is read backwards. *)
Definition drop_space (spaces : list bytes) (s : bytes) : option bytes :=
  match s with
  | [] => None
  | c :: s' =>
      if ascii_space c then Some s'
      else match list_find (fun p => HasPrefix s p = true) spaces with
           | Some (_, p) => Some (drop (length p) s)
           | None => None
           end
  end.

(** Every step drops a byte, so the length of the string is enough fuel. *)
Fixpoint trim_left (spaces : list bytes) (fuel : nat) (s : bytes) : bytes :=
  match fuel with
  | O => s
  | S fuel' =>
      match drop_space spaces s with
      | Some s' => trim_left spaces fuel' s'
      | None => s
      end
  end.

Definition TrimSpace (s : bytes) : bytes :=
  let l := trim_left wide_spaces (length s) s in
  reverse (trim_left (map reverse wide_spaces) (length l) (reverse l)).

(** The byte order Go's [<] and [sort.Strings] use. *)
Fixpoint bytes_lt (a b : bytes) : bool :=
  match a, b with
  | _, [] => false
  | [], _ :: _ => true
  | x :: a', y :: b' =>
      let m := nat_of_ascii x in let n := nat_of_ascii y in
      (m <? n)%nat || ((m =? n)%nat && bytes_lt a' b')
  end.

Lemma HasPrefix_app s p : HasPrefix (p ++ s) p = true.
Proof. induction p as [|c p IH]; simpl; [done|]. by rewrite bool_decide_eq_true_2. Qed.

Lemma HasPrefix_spec s p : HasPrefix s p = true <-> exists t, s = p ++ t.
Proof.
  split; [|intros [t ->]; apply HasPrefix_app].
  revert s. induction p as [|c p IH]; intros s; simpl; [by exists s|].
  destruct s as [|d s]; [done|]. intros H. go_bool. subst.
  destruct (IH s) as [t ->]; [done|]. by exists t.
Qed.

#[export] Instance bytes_lt_strict : StrictWeak bytes_lt.
Proof.
  split.
  - induction x as [|c x IH]; simpl; [done|].
    rewrite Nat.ltb_irrefl, Nat.eqb_refl. done.
  - induction x as [|c x IH]; intros [|d y] [|e z]; simpl; try done.
    rewrite !orb_true_iff, !andb_true_iff, !Nat.ltb_lt, !Nat.eqb_eq.
    intros [?|[? ?]] [?|[? ?]]; try (left; lia). right. split; [lia|eauto].
  - induction x as [|c x IH]; intros [|d y] [|e z]; simpl; try done.
    rewrite !orb_false_iff, !andb_false_iff, !Nat.ltb_ge, !Nat.eqb_neq.
    intros [? [?|?]] [? [?|?]]; split; try lia; try (left; lia).
    destruct (decide (nat_of_ascii c = nat_of_ascii e)); [right; eauto | by left].
Qed.

(** ** strconv *)

Definition is_digit (c : ascii) : bool :=
  let n := nat_of_ascii c in ((48 <=? n) && (n <=? 57))%nat%bool.
Definition digit_val (c : ascii) : Z := Z.of_nat (nat_of_ascii c) - 48.
Definition digit_char (d : Z) : ascii := ascii_of_nat (Z.to_nat d + 48).

(** [%d] of a non-negative integer: at most [log2 n + 1] digits. *)
Fixpoint digits (fuel : nat) (n : Z) (acc : bytes) : bytes :=
  match fuel with
  | O => acc
  | S f =>
      let acc' := digit_char (n mod 10) :: acc in
      if n / 10 =? 0 then acc' else digits f (n / 10) acc'
  end.

Definition itoa (n : Z) : bytes := digits (S (Z.to_nat (Z.log2 n))) n [].

Definition digits_val (acc : Z) (s : bytes) : Z :=
  foldl (fun a c => 10 * a + digit_val c) acc s.

(** The value of a run of decimal digits. *)
Definition parse_digits (s : bytes) : option Z :=
  if bool_decide (s = []) then None
  else if forallb is_digit s then Some (digits_val 0 s) else None.

Lemma digit_char_ok d :
  0 <= d < 10 -> is_digit (digit_char d) = true /\ digit_val (digit_char d) = d.
Proof.
  intros Hd. unfold is_digit, digit_val, digit_char.
  rewrite nat_ascii_embedding by lia.
  split; [|lia]. apply andb_true_iff. rewrite !Nat.leb_le. lia.
Qed.

Lemma digits_forall f n acc :
  0 <= n -> forallb is_digit acc = true -> forallb is_digit (digits f n acc) = true.
Proof.
  revert n acc. induction f as [|f IH]; intros n acc Hn Ha; simpl; [done|].
  assert (Hd : is_digit (digit_char (n mod 10)) = true).
  { apply digit_char_ok. by apply Z.mod_pos_bound. }
  destruct (n / 10 =? 0); [simpl; by rewrite Hd|].
  apply IH; [by apply Z.div_pos|]. simpl. by rewrite Hd.
Qed.

Lemma digits_val_nonneg acc s : 0 <= acc -> forallb is_digit s = true -> 0 <= digits_val acc s.
Proof.
  revert acc. induction s as [|c s IH]; intros acc Ha; simpl; [done|].
  rewrite andb_true_iff. intros [Hc Hs]. unfold digits_val. simpl. apply IH; [|done].
  unfold is_digit in Hc. unfold digit_val.
  apply andb_true_iff in Hc as [Hc _]. apply Nat.leb_le in Hc. lia.
Qed.

Lemma digits_value f n acc :
  0 <= n < 2 ^ Z.of_nat f -> digits_val 0 (digits f n acc) = digits_val n acc.
Proof.
  revert n acc. induction f as [|f IH]; intros n acc Hn.
  - simpl. f_equal. change (2 ^ Z.of_nat 0) with 1 in Hn. lia.
  - simpl. assert (Hm := Z.mod_pos_bound n 10 ltac:(lia)).
    assert (Hdm := Z.div_mod n 10 ltac:(lia)).
    destruct (digit_char_ok (n mod 10) Hm) as [_ Hv].
    destruct (n / 10 =? 0) eqn:E; go_bool.
    + unfold digits_val. simpl. rewrite Hv. f_equal. lia.
    + rewrite Nat2Z.inj_succ, Z.pow_succ_r in Hn by lia.
      rewrite IH by (split; [apply Z.div_pos; lia | apply Z.div_lt_upper_bound; lia]).
      unfold digits_val. simpl. rewrite Hv. f_equal. lia.
Qed.

Lemma digits_nonempty f n acc : (0 < f)%nat -> digits f n acc <> [].
Proof.
  intros Hf. assert (Hg : forall f n acc, acc <> [] -> digits f n acc <> []).
  { clear. induction f as [|f IH]; intros n acc Ha; simpl; [done|].
    destruct (n / 10 =? 0); [done|]. by apply IH. }
  destruct f as [|f]; [lia|]. simpl. destruct (n / 10 =? 0); [done|]. by apply Hg.
Qed.

Lemma parse_itoa n : 0 <= n -> parse_digits (itoa n) = Some n.
Proof.
  intros Hn. unfold parse_digits, itoa.
  rewrite bool_decide_eq_false_2 by (apply digits_nonempty; lia).
  rewrite digits_forall by done. rewrite digits_value; [done|].
  split; [done|]. rewrite Nat2Z.inj_succ, Z2Nat.id by apply Z.log2_nonneg.
  destruct (decide (n = 0)) as [->|]; [done|]. apply Z.log2_spec. lia.
Qed.

Lemma itoa_digits n : 0 <= n -> forallb is_digit (itoa n) = true /\ itoa n <> [].
Proof.
  intros Hn. split; [by apply digits_forall|]. apply digits_nonempty. lia.
Qed.

(** ** Integers and surrounding space *)

(** [strconv.FormatInt] and [strconv.ParseInt], base 10, 64 bits. *)
Definition FormatInt (n : Z) : bytes := if n <? 0 then #"-" ++ itoa (- n) else itoa n.

Definition ParseInt (s : bytes) : result Z :=
  let '(neg, ds) := match s with
                    | c :: ds => if bool_decide (c = "-"%char) then (true, ds)
                                 else if bool_decide (c = "+"%char) then (false, ds) else (false, s)
                    | [] => (false, s)
                    end in
  match parse_digits ds with
  | None => Err (EMsg "invalid syntax")
  | Some n =>
      let n := if neg : bool then - n else n in
      if (- 2 ^ 63 <=? n) && (n <? 2 ^ 63) then Ok n else Err (EMsg "value out of range")
  end.

Definition graphic (c : ascii) : bool := negb (ascii_space c) && (nat_of_ascii c <? 128)%nat.

(** The wide spaces begin and end with a byte that is not graphic. *)
Definition wide (p : bytes) : bool := match p with x :: _ => negb (graphic x) | [] => false end.

Lemma drop_graphic spaces c s :
  forallb wide spaces = true ->
  graphic c = true -> drop_space spaces (c :: s) = None.
Proof.
  intros Hsp Hc. unfold drop_space.
  destruct (ascii_space c) eqn:E; [unfold graphic in Hc; by rewrite E in Hc|].
  destruct (list_find _ spaces) as [[i p]|] eqn:El; [|done].
  apply list_find_Some in El as (Hi & Hp & _). apply list_elem_of_lookup_2 in Hi.
  rewrite forallb_forall in Hsp. apply list_elem_of_In, Hsp in Hi. destruct p as [|x p]; [done|].
  simpl in Hp. apply andb_true_iff in Hp as [Hp _]. apply bool_decide_eq_true in Hp. subst x.
  simpl in Hi. by rewrite Hc in Hi.
Qed.

Lemma trim_graphic spaces n s :
  forallb wide spaces = true ->
  forallb graphic s = true -> trim_left spaces n s = s.
Proof.
  intros Hsp Hs. destruct n as [|n]; [done|]. destruct s as [|c s]; [done|].
  simpl in Hs. apply andb_true_iff in Hs as [Hc _]. cbn [trim_left]. by rewrite drop_graphic.
Qed.

Lemma TrimSpace_graphic s : forallb graphic s = true -> TrimSpace s = s.
Proof.
  intros Hs. unfold TrimSpace.
  rewrite (trim_graphic wide_spaces (length s) s); [|by vm_compute|done]. cbv zeta.
  rewrite trim_graphic; [apply reverse_involutive|vm_compute; reflexivity|].
  rewrite forallb_forall in Hs |- *. intros c Hc. apply Hs.
  by apply list_elem_of_In, elem_of_reverse, list_elem_of_In.
Qed.

Lemma digit_graphic c : is_digit c = true -> graphic c = true.
Proof.
  unfold is_digit, graphic, ascii_space. rewrite !andb_true_iff, negb_true_iff, orb_false_iff, !Nat.leb_le.
  intros [H1 H2]. rewrite Nat.eqb_neq, andb_false_iff, !Nat.leb_gt, Nat.ltb_lt. lia.
Qed.

Lemma in_range n :
  - 2 ^ 63 <= n < 2 ^ 63 ->
  (if (- 2 ^ 63 <=? n) && (n <? 2 ^ 63) then Ok n else Err (EMsg "value out of range")) = Ok n.
Proof.
  intros [H1 H2]. apply Z.leb_le in H1. apply Z.ltb_lt in H2. by rewrite H1, H2.
Qed.

Lemma ParseInt_FormatInt n : - 2 ^ 63 <= n < 2 ^ 63 -> ParseInt (FormatInt n) = Ok n.
Proof.
  intros Hn. unfold FormatInt. destruct (n <? 0) eqn:E; go_bool.
  - assert (Hp : parse_digits (itoa (- n)) = Some (- n)) by (apply parse_itoa; lia).
    change (#"-" ++ itoa (- n)) with ("-"%char :: itoa (- n)). generalize dependent (itoa (- n)).
    intros ds Hp. unfold ParseInt. rewrite bool_decide_eq_true_2 by done. cbv iota beta.
    rewrite Hp, Z.opp_involutive. by apply in_range.
  - destruct (itoa_digits n) as [Hd Hne]; [done|]. assert (Hp := parse_itoa n E).
    destruct (itoa n) as [|c ds] eqn:Ei; [done|]. unfold ParseInt.
    simpl in Hd. apply andb_true_iff in Hd as [Hc _].
    rewrite !bool_decide_eq_false_2 by (intros ->; done). rewrite Hp. by apply in_range.
Qed.

Lemma FormatInt_trimmed n : TrimSpace (FormatInt n) = FormatInt n.
Proof.
  assert (Hd : forall m, 0 <= m -> forallb graphic (itoa m) = true).
  { intros m Hm. destruct (itoa_digits m Hm) as [H _]. rewrite forallb_forall in H |- *.
    intros c Hc. by apply digit_graphic, H. }
  apply TrimSpace_graphic. unfold FormatInt. destruct (n <? 0) eqn:E; go_bool; [|by apply Hd].
  change (#"-" ++ itoa (- n)) with ("-"%char :: itoa (- n)). cbn [forallb]. rewrite Hd by lia. done.
Qed.

(** ** Runs of digits, and suffixes *)

(** The longest run of digits, and what follows it. *)
Fixpoint span_digits (s : bytes) : bytes * bytes :=
  match s with
  | c :: s' => if is_digit c then let '(d, r) := span_digits s' in (c :: d, r) else ([], s)
  | [] => ([], [])
  end.

Lemma span_digits_app d r :
  forallb is_digit d = true -> match r with c :: _ => is_digit c = false | [] => True end ->
  span_digits (d ++ r) = (d, r).
Proof.
  intros Hd Hr. induction d as [|c d IH]; simpl in *.
  - destruct r as [|c r]; simpl; [done|]. by rewrite Hr.
  - apply andb_true_iff in Hd as [-> Hd]. by rewrite IH.
Qed.

Lemma HasSuffix_app s t : HasSuffix (s ++ t) t = true.
Proof. unfold HasSuffix. rewrite reverse_app. apply HasPrefix_app. Qed.

(** ** bufio.Scanner with ScanLines *)

Definition newline : ascii := ascii_of_nat 10.
Definition carriage : ascii := ascii_of_nat 13.

(** Cut at every newline; the last piece is what follows the last newline. *)
Fixpoint split_on (sep : ascii) (s : bytes) : list bytes :=
  match s with
  | [] => [[]]
  | c :: s' =>
      if bool_decide (c = sep) then [] :: split_on sep s'
      else match split_on sep s' with
           | l :: ls => (c :: l) :: ls
           | [] => [[c]]
           end
  end.

Definition dropCR (l : bytes) : bytes :=
  match last l with
  | Some c => if bool_decide (c = carriage) then take (length l - 1) l else l
  | None => l
  end.

(** The raw lines: a final line is a token only when it is not empty. *)
Definition raw_lines (s : bytes) : list bytes :=
  let ls := split_on newline s in
  match last ls with
  | Some [] => take (length ls - 1) ls
  | _ => ls
  end.

(** [scanner.Buffer(_, max)]: the tokens up to the first line that does not
    fit, and whether there was one ([bufio.ErrTooLong]). *)
Fixpoint scan_tokens (max : Z) (ls : list bytes) : list bytes * bool :=
  match ls with
  | [] => ([], false)
  | l :: ls' =>
      if blen l <? max then
        let '(ts, e) := scan_tokens max ls' in (dropCR l :: ts, e)
      else ([], true)
  end.

Definition ScanLines (max : Z) (s : bytes) : list bytes * bool :=
  scan_tokens max (raw_lines s).

(** Both stores use a 10 MB token limit. *)
Definition scannerMax : Z := 10 * 1024 * 1024.
