(* ===== verification/GoPath.v ===== *)
(** Go's [path/filepath] on Unix and the stores' [cleanRelativePath]: the
    lexical cleaning of paths, and the proof that a cleaned relative path stays
    under the directory it is joined to. *)
From S2P Require Import Prelude.
From S2P Require Import GoStrings.

Definition slash : ascii := "/"%char.

Definition IsAbs (p : bytes) : bool := HasPrefix p #"/".

(** ** Components *)

Definition comps (p : bytes) : list bytes := split_on slash p.
Definition uncomps (l : list bytes) : bytes := Join l #"/".

(** A component that [Clean] keeps as it is. *)
Definition proper (c : bytes) : Prop :=
  c <> [] /\ c <> #"." /\ c <> #".." /\ slash ∉ c.

Lemma proper_decide c :
  bool_decide (c <> [] /\ c <> #"." /\ c <> #".." /\ slash ∉ c) = true -> proper c.
Proof. by intros ?%bool_decide_eq_true. Qed.

(** The stack discipline of [filepath.Clean]: the elements kept so far,
    innermost first. *)
Fixpoint clean_comps (rooted : bool) (stack : list bytes) (l : list bytes) : list bytes :=
  match l with
  | [] => reverse stack
  | c :: l' =>
      if bool_decide (c = []) || bool_decide (c = #".") then clean_comps rooted stack l'
      else if bool_decide (c = #"..") then
        match stack with
        | top :: rest =>
            if bool_decide (top = #"..") then clean_comps rooted (c :: stack) l'
            else clean_comps rooted rest l'
        | [] => if rooted then clean_comps rooted [] l'
                else clean_comps rooted [c] l'
        end
      else clean_comps rooted (c :: stack) l'
  end.

Definition Clean (p : bytes) : bytes :=
  let rooted := IsAbs p in
  let cs := clean_comps rooted [] (comps p) in
  if rooted then slash :: uncomps cs
  else match cs with [] => #"." | _ => uncomps cs end.

(** [filepath.Join]: the elements from the first non-empty one on. *)
Fixpoint JoinPath (l : list bytes) : bytes :=
  match l with
  | [] => []
  | [] :: l' => JoinPath l'
  | l => Clean (uncomps l)
  end.

(** [filepath.Base] and [filepath.Dir] of a cleaned path. *)
Definition Base (p : bytes) : bytes :=
  match last (comps p) with Some c => c | None => #"." end.

(** ** Lemmas on components *)

Lemma split_on_ne sep s : split_on sep s <> [].
Proof. destruct s as [|c s]; simpl; [done|]. repeat case_match; done. Qed.

Lemma split_on_no_sep sep s : sep ∉ s -> split_on sep s = [s].
Proof.
  induction s as [|c s IH]; simpl; [done|].
  rewrite not_elem_of_cons. intros [Hc Hs].
  rewrite bool_decide_eq_false_2 by congruence. by rewrite IH.
Qed.

Lemma split_on_app sep s t :
  sep ∉ s -> split_on sep (s ++ sep :: t) = s :: split_on sep t.
Proof.
  induction s as [|c s IH]; simpl.
  - intros _. by rewrite bool_decide_eq_true_2.
  - rewrite not_elem_of_cons. intros [Hc Hs].
    rewrite bool_decide_eq_false_2 by congruence. by rewrite IH.
Qed.

Lemma split_on_free sep s : Forall (fun l => sep ∉ l) (split_on sep s).
Proof.
  induction s as [|c s IH]; simpl; [repeat constructor; set_solver|].
  case_bool_decide as Hc.
  - constructor; [set_solver | done].
  - destruct (split_on sep s) as [|l ls]; [repeat constructor; set_solver|].
    apply Forall_cons in IH as [Hl Hls]. constructor; [|done].
    rewrite not_elem_of_cons. split; [congruence | done].
Qed.

Lemma comps_uncomps l :
  l <> [] -> Forall (fun c => slash ∉ c) l -> comps (uncomps l) = l.
Proof.
  unfold comps, uncomps. induction l as [|c [|d l] IH]; intros Hne Hf; [done|..].
  - apply Forall_cons in Hf as [Hc _]. by apply split_on_no_sep.
  - apply Forall_cons in Hf as [Hc Hf].
    change (Join (c :: d :: l) #"/") with (c ++ slash :: Join (d :: l) #"/").
    rewrite split_on_app by done. by rewrite IH.
Qed.

Lemma comps_cons_slash p : comps (slash :: p) = [] :: comps p.
Proof. done. Qed.

Lemma comps_app_slash p q : comps (p ++ slash :: q) = comps p ++ comps q.
Proof.
  unfold comps. induction p as [|c p IH]; simpl; [done|].
  rewrite IH. case_bool_decide; [done|].
  destruct (split_on slash p) eqn:E; [by apply split_on_ne in E | done].
Qed.

Lemma uncomps_app l k :
  l <> [] -> k <> [] -> uncomps (l ++ k) = uncomps l ++ slash :: uncomps k.
Proof.
  unfold uncomps. intros Hl Hk. induction l as [|c [|d l] IH]; [done|..].
  - destruct k; done.
  - change (Join ((c :: d :: l) ++ k) #"/")
      with (c ++ slash :: Join ((d :: l) ++ k) #"/").
    rewrite IH by done. simpl. by rewrite <-!app_assoc.
Qed.

Lemma uncomps_nonempty l : Forall proper l -> l <> [] -> uncomps l <> [].
Proof.
  intros Hl Hne. destruct l as [|c [|d l]]; [done|..];
    apply Forall_cons in Hl as [(Hc & _) _]; unfold uncomps; simpl; destruct c; done.
Qed.

Lemma clean_comps_proper rooted stack l :
  Forall proper l -> clean_comps rooted stack l = reverse stack ++ l.
Proof.
  revert stack. induction l as [|c l IH]; intros stack Hl; simpl.
  - by rewrite app_nil_r.
  - apply Forall_cons in Hl as [(H0 & H1 & H2 & _) Hl].
    rewrite !bool_decide_eq_false_2 by done. simpl.
    rewrite IH by done. by rewrite reverse_cons, <-app_assoc.
Qed.

Lemma clean_comps_app rooted stack l k :
  Forall proper k ->
  clean_comps rooted stack (l ++ k) = clean_comps rooted stack l ++ k.
Proof.
  revert stack. induction l as [|c l IH]; intros stack Hk; simpl.
  - by rewrite clean_comps_proper.
  - repeat case_match; by apply IH.
Qed.

(** What a rooted cleaning keeps is proper; an unrooted one keeps a run of
    [..] and then proper components. *)
Lemma clean_comps_rooted stack l :
  Forall proper stack -> Forall (fun c => slash ∉ c) l ->
  Forall proper (clean_comps true stack l).
Proof.
  revert stack. induction l as [|c l IH]; intros stack Hs Hf; simpl.
  - by apply Forall_reverse.
  - apply Forall_cons in Hf as [Hc Hf].
    destruct (bool_decide (c = []) || bool_decide (c = #".")) eqn:E1; [by apply IH|].
    apply orb_false_iff in E1 as [E1 E2]. go_bool.
    case_bool_decide as E3.
    + destruct stack as [|top rest]; [by apply IH|].
      apply Forall_cons in Hs as [Ht Hs].
      rewrite bool_decide_eq_false_2 by apply Ht. by apply IH.
    + apply IH; [|done]. constructor; [|done]. by repeat split.
Qed.

Lemma clean_comps_unrooted stack l :
  (exists n k, stack = k ++ replicate n #".." /\ Forall proper k) ->
  Forall (fun c => slash ∉ c) l ->
  exists n k, clean_comps false stack l = replicate n #".." ++ k /\ Forall proper k.
Proof.
  revert stack. induction l as [|c l IH]; intros stack (n & k & -> & Hk) Hf; simpl.
  - exists n, (reverse k). rewrite reverse_app, reverse_replicate.
    split; [done | by apply Forall_reverse].
  - apply Forall_cons in Hf as [Hc Hf].
    destruct (bool_decide (c = []) || bool_decide (c = #".")) eqn:E1;
      [apply IH; eauto|].
    apply orb_false_iff in E1 as [E1 E2]. go_bool.
    case_bool_decide as E3.
    + subst c. destruct k as [|top rest]; simpl.
      * destruct n as [|n]; simpl.
        -- apply IH; [|done]. exists 1%nat, []. by split.
        -- apply IH; [|done]. exists (S (S n)), []. by split.
      * apply Forall_cons in Hk as [Ht Hk].
        rewrite bool_decide_eq_false_2 by apply Ht. apply IH; eauto.
    + apply IH; [|done]. exists n, (c :: k). split; [done|].
      constructor; [by repeat split | done].
Qed.

(** ** Clean paths *)

(** An absolute directory other than the root, as [toAbsPath] returns it. *)
Definition abs_dir (d : bytes) : Prop :=
  exists l, l <> [] /\ Forall proper l /\ d = slash :: uncomps l.

(** A relative path whose components are all proper. *)
Definition rel_clean (p : bytes) : Prop :=
  exists l, l <> [] /\ Forall proper l /\ p = uncomps l.

Lemma proper_slash_free l : Forall proper l -> Forall (fun c => slash ∉ c) l.
Proof. intros H. eapply Forall_impl; [exact H|]. by intros c (_ & _ & _ & ?). Qed.

Lemma IsAbs_uncomps l : Forall proper l -> IsAbs (uncomps l) = false.
Proof.
  intros Hl. unfold IsAbs. destruct l as [|c l]; [done|].
  apply Forall_cons in Hl as [(Hc & _ & _ & Hs) _].
  destruct c as [|x c]; [done|]. apply not_elem_of_cons in Hs as [Hx _].
  unfold uncomps. destruct l; simpl; rewrite bool_decide_eq_false_2; done.
Qed.

Lemma Clean_abs l :
  Forall proper l -> Clean (slash :: uncomps l) = slash :: uncomps l.
Proof.
  intros Hl. unfold Clean. change (IsAbs (slash :: uncomps l)) with true. cbn iota.
  rewrite comps_cons_slash. simpl.
  destruct (decide (l = [])) as [->|Hne]; [done|].
  rewrite comps_uncomps by (try done; by apply proper_slash_free).
  by rewrite clean_comps_proper.
Qed.

Lemma rel_clean_not_abs p : rel_clean p -> IsAbs p = false.
Proof. intros (l & _ & Hl & ->). by apply IsAbs_uncomps. Qed.

Lemma rel_clean_Clean p : rel_clean p -> Clean p = p.
Proof.
  intros (l & Hne & Hl & ->). unfold Clean. rewrite IsAbs_uncomps by done.
  rewrite comps_uncomps by (try done; by apply proper_slash_free).
  rewrite clean_comps_proper by done. simpl. by destruct l.
Qed.

(** Joining a proper directory name and a clean relative path to an absolute
    directory is plain concatenation: the result is under that directory. *)
Lemma JoinPath_under d c p :
  abs_dir d -> proper c -> rel_clean p ->
  JoinPath [d; c; p] = d ++ slash :: c ++ slash :: p.
Proof.
  intros (l & Hne & Hl & ->) Hc (k & Hke & Hk & ->).
  assert (Hlk : Forall proper (l ++ c :: k)) by (apply Forall_app; auto).
  assert (Heq : uncomps (l ++ c :: k) = uncomps l ++ slash :: c ++ slash :: uncomps k).
  { rewrite uncomps_app by done. change (c :: k) with ([c] ++ k).
    by rewrite (uncomps_app [c] k). }
  change (slash :: uncomps l) with ([slash] ++ uncomps l).
  rewrite <-app_assoc, <-Heq. simpl. rewrite <-(Clean_abs _ Hlk).
  rewrite Heq. done.
Qed.

Lemma JoinPath_inj d c p q :
  abs_dir d -> proper c -> rel_clean p -> rel_clean q ->
  JoinPath [d; c; p] = JoinPath [d; c; q] -> p = q.
Proof.
  intros Hd Hc Hp Hq. rewrite !JoinPath_under by done. intros H.
  apply app_inv_head in H. injection H as H. apply app_inv_head in H.
  by injection H.
Qed.

(** The same for any number of proper components. *)
Lemma JoinPath_proper d l :
  abs_dir d -> l <> [] -> Forall proper l -> JoinPath (d :: l) = d ++ slash :: uncomps l.
Proof.
  intros (k & Hne & Hk & ->) Hl Hf.
  assert (Hkl : Forall proper (k ++ l)) by (by apply Forall_app).
  assert (E : JoinPath ((slash :: uncomps k) :: l) = Clean (uncomps ((slash :: uncomps k) :: l)))
    by done.
  rewrite E. clear E.
  assert (E : uncomps ((slash :: uncomps k) :: l) = slash :: uncomps (k ++ l)).
  { rewrite uncomps_app by done. by destruct l. }
  rewrite E, Clean_abs by done. by rewrite uncomps_app.
Qed.

(** ** cleanRelativePath *)

(** The stores' guard on paths taken from a client, a manifest or a walk. *)
Definition cleanRelativePath (path : bytes) : result bytes :=
  let path := TrimSpace path in
  if bool_decide (path = []) then Err (EMsg "empty path")
  else if IsAbs path then Err (EMsg "absolute path is not allowed")
  else
    let cleaned := Clean path in
    if bool_decide (cleaned = #".") || bool_decide (cleaned = []) then
      Err (EMsg "invalid path")
    else if bool_decide (cleaned = #"..") || HasPrefix cleaned #"../" then
      Err (EMsg "path escapes cache root")
    else Ok cleaned.

(** [toAbsPath]: [cwd] is what [os.Getwd] returns. *)
Definition toAbsPath (cwd : result bytes) (path : bytes) : result bytes :=
  if bool_decide (path = []) then Err (EMsg "empty path")
  else if IsAbs path then Ok (Clean path)
  else let? cwd := cwd in Ok (Clean (JoinPath [cwd; path])).

Lemma Clean_unrooted p :
  IsAbs p = false ->
  exists n k, Forall proper k /\
    Clean p = match replicate n #".." ++ k with [] => #"." | l => uncomps l end.
Proof.
  intros Hp. unfold Clean. rewrite Hp.
  destruct (clean_comps_unrooted [] (comps p)) as (n & k & E & Hk).
  { by exists 0%nat, []. }
  { apply split_on_free. }
  exists n, k. split; [done|]. rewrite E. by destruct (replicate n #".." ++ k).
Qed.

(** A run of [..] followed by components is refused by the escape guard. *)
Lemma dotdots_escape n k :
  uncomps (replicate (S n) #".." ++ k) = #".." \/
  HasPrefix (uncomps (replicate (S n) #".." ++ k)) #"../" = true.
Proof.
  simpl. destruct (replicate n #".." ++ k) as [|c l] eqn:E; [by left|].
  right. done.
Qed.

Lemma cleanRelativePath_ok p q : cleanRelativePath p = Ok q -> rel_clean q.
Proof.
  unfold cleanRelativePath. generalize (TrimSpace p). clear p. intros p.
  case_bool_decide; [done|]. destruct (IsAbs p) eqn:Ha; [done|].
  destruct (Clean_unrooted p Ha) as (n & k & Hk & ->).
  destruct n as [|n].
  - simpl. destruct k as [|c k]; [done|].
    destruct (_ || _); [done|]. destruct (_ || _); [done|].
    intros [= <-]. by exists (c :: k).
  - assert (E : match replicate (S n) #".." ++ k with
                | [] => #"." | l => uncomps l end
                = uncomps (replicate (S n) #".." ++ k)) by done.
    rewrite E. clear E. generalize (dotdots_escape n k).
    generalize (uncomps (replicate (S n) #".." ++ k)). intros c Hc.
    destruct (_ || _); [done|].
    destruct Hc as [->|E].
    + done.
    + by rewrite E, orb_true_r.
Qed.

Lemma rel_clean_cleanRelativePath q :
  rel_clean q -> TrimSpace q = q -> cleanRelativePath q = Ok q.
Proof.
  intros Hq Ht. unfold cleanRelativePath. rewrite Ht.
  assert (Hne : q <> []).
  { destruct Hq as (l & ? & ? & ->). by apply uncomps_nonempty. }
  rewrite bool_decide_eq_false_2 by done.
  rewrite rel_clean_not_abs, rel_clean_Clean by done.
  destruct Hq as (l & Hl & Hf & ->). destruct l as [|c l]; [done|].
  assert (Hc := proper_slash_free _ Hf).
  assert (Hcs := comps_uncomps (c :: l) Hl Hc).
  apply Forall_cons in Hf as [(H1 & H2 & H3 & _) _].
  rewrite !(bool_decide_eq_false_2 _); [| |done|].
  - destruct (HasPrefix _ #"../") eqn:E; [|done].
    apply HasPrefix_spec in E as [t E]. rewrite E in Hcs.
    change (#"../" ++ t) with (#".." ++ slash :: t) in Hcs.
    rewrite comps_app_slash in Hcs. by injection Hcs as <- _.
  - intros E. rewrite E in Hcs. by injection Hcs as <- _.
  - intros E. rewrite E in Hcs. by injection Hcs as <- _.
Qed.

#[export] Hint Resolve cleanRelativePath_ok : gocache.
