(* ===== verification/AppendLog.v ===== *)
(** Files that grow by a line at a time: the run records of a job in direct mode
    ([AppendQuietRunStats] of src/internal/local/github_actions.go) and the log of the
    sessions ([appendJSONLLine] of src/internal/http/sessions_jsonl.go). *)
From S2P Require Import Prelude.
From S2P Require Import GoStrings.
From S2P Require Import GoPath.

(** The faults of appending to a file: opening it, and writing, after some bytes. *)
Record AppendFaults := mkAppendFaults { af_open : option goerr; af_write : option (nat * goerr) }.
Definition noAppendFaults : AppendFaults := mkAppendFaults None None.

(** [os.OpenFile] with O_APPEND and O_CREATE, one write, and closing; a file that is not
    there is [None]. *)
Definition appendFile (af : AppendFaults) (file : option bytes) (data : bytes) : option bytes * result unit :=
  match af_open af with
  | Some e => (file, Err e)
  | None =>
      let old := default [] file in
      match af_write af with
      | Some (n, e) => (Some (old ++ take n data), Err e)
      | None => (Some (old ++ data), Ok tt)
      end
  end.

(** The file of some lines. *)
Definition linesOf (bs : list bytes) : bytes := concat (map (fun b => b ++ [newline]) bs).

Lemma linesOf_app bs cs : linesOf (bs ++ cs) = linesOf bs ++ linesOf cs.
Proof. unfold linesOf. by rewrite map_app, concat_app. Qed.

Lemma linesOf_snoc bs b : linesOf (bs ++ [b]) = linesOf bs ++ b ++ [newline].
Proof. rewrite linesOf_app. unfold linesOf at 2. cbn. by rewrite app_nil_r. Qed.

(** Cutting what ends in a newline. *)
Lemma split_on_snoc x y : split_on newline (x ++ newline :: y) = split_on newline x ++ split_on newline y.
Proof.
  induction x as [|c x IH]; cbn [app split_on]; [by rewrite bool_decide_eq_true_2|].
  rewrite IH. case_bool_decide; [done|].
  assert (Hne : split_on newline x <> []) by (destruct x as [|d x]; cbn; repeat case_match; done).
  by destruct (split_on newline x) as [|l ls].
Qed.

Lemma split_linesOf bs : Forall (fun b => newline ∉ b) bs -> split_on newline (linesOf bs) = bs ++ [[]].
Proof.
  induction 1 as [|b bs Hb _ IH]; [done|]. unfold linesOf in *. cbn [map concat app].
  rewrite <-app_assoc. cbn [app]. by rewrite split_on_app, IH.
Qed.

(** The lines at the end of a file. *)
Lemma raw_lines_app x bs : Forall (fun b => newline ∉ b) bs ->
  raw_lines (x ++ newline :: linesOf bs) = split_on newline x ++ bs.
Proof.
  intros Hb. unfold raw_lines. rewrite split_on_snoc, split_linesOf, app_assoc by done.
  rewrite last_snoc, length_app. cbn [length]. rewrite Nat.add_sub. by rewrite take_app_length.
Qed.

Lemma raw_lines_all bs : Forall (fun b => newline ∉ b) bs -> raw_lines (linesOf bs) = bs.
Proof.
  intros Hb. unfold raw_lines. rewrite split_linesOf by done.
  rewrite last_snoc, length_app. cbn [length]. rewrite Nat.add_sub. by rewrite take_app_length.
Qed.

(** A text that is shorter than the limit has no line that is too long. *)
Lemma split_shorter x l : l ∈ split_on newline x -> blen l <= blen x.
Proof.
  revert l. induction x as [|c x IH]; cbn [split_on]; intros l.
  - intros ->%list_elem_of_singleton. done.
  - unfold blen in *. cbn [length]. case_bool_decide.
    + intros [->|Hl]%elem_of_cons; cbn [length]; [lia|]. specialize (IH l Hl). lia.
    + destruct (split_on newline x) as [|l' ls].
      * intros ->%list_elem_of_singleton. cbn [length]. lia.
      * intros [->|Hl]%elem_of_cons; [|specialize (IH l ltac:(by apply elem_of_cons; right)); lia].
        specialize (IH l' ltac:(by apply elem_of_cons; left)). cbn [length]. lia.
Qed.

Lemma scan_all max ls : Forall (fun l => blen l < max) ls -> scan_tokens max ls = (map dropCR ls, false).
Proof.
  induction 1 as [|l ls Hl _ IH]; [done|]. cbn [scan_tokens map]. by rewrite (proj2 (Z.ltb_lt _ _) Hl), IH.
Qed.

Lemma raw_lines_in x l : l ∈ raw_lines x -> l ∈ split_on newline x.
Proof.
  unfold raw_lines. destruct (last _) as [[|]|]; try done. intros Hl. by apply list_elem_of_lookup in Hl as [i [Hi _]%lookup_take_Some];
    apply list_elem_of_lookup; exists i.
Qed.

Lemma ScanLines_short max x : blen x < max -> ScanLines max x = (map dropCR (raw_lines x), false).
Proof.
  intros Hx. apply scan_all, Forall_forall. intros l Hl%raw_lines_in%split_shorter. lia.
Qed.
