(* ===== verification/Float64.v ===== *)
(** What the statistics use of binary64: rounding a rational to the nearest float with
    ties to even, the four operations the code has, rounding to an integer, and the
    decimal text with one digit of [strconv.FormatFloat(x, 'f', 1, 64)].  The standard
    library and the language fix all of it.  The values of the program are finite and far
    below the largest float, so infinities are not represented. *)
From Stdlib Require Export QArith Qabs Lqa.
From S2P Require Import Prelude.
From S2P Require Import GoStrings.
Open Scope Z_scope.

(** ** Floats *)

(** The float [fl_mant * 2 ^ fl_exp]. *)
Record float64 := mkFloat { fl_mant : Z; fl_exp : Z }.

(** The part of [2 ^ e] above the line of a fraction; below it is [pos2 (- e)]. *)
Definition pos2 (e : Z) : Z := 2 ^ Z.max 0 e.

(** The quotient rounded to the nearest integer, ties to even. *)
Definition round_div (n d : Z) : Z :=
  let k := n / d in
  let r := n mod d in
  if 2 * r <? d then k else if d <? 2 * r then k + 1 else if Z.even k then k else k + 1.

(** The integer part of the binary logarithm of [|n| / d]. *)
Definition ilog (n d : Z) : Z :=
  let k := Z.log2 (Z.abs n) - Z.log2 d in
  if Z.abs n * pos2 (- k) <? d * pos2 k then k - 1 else k.

(** The float nearest to [n / d]: 53 bits, and no exponent below that of the subnormals. *)
Definition rn (n d : Z) : float64 :=
  if n =? 0 then mkFloat 0 0
  else let e := Z.max (-1074) (ilog n d - 52) in mkFloat (round_div (n * pos2 (- e)) (d * pos2 e)) e.

Definition num (x : float64) : Z := fl_mant x * pos2 (fl_exp x).
Definition den (x : float64) : Z := pos2 (- fl_exp x).

(** [float64(n)], and the operations; a divisor is not zero in the code. *)
Definition of_int (n : Z) : float64 := rn n 1.
Definition fadd (x y : float64) : float64 := rn (num x * den y + num y * den x) (den x * den y).
Definition fmul (x y : float64) : float64 := rn (num x * num y) (den x * den y).
Definition fdiv (x y : float64) : float64 := rn (num x * den y * Z.sgn (num y)) (den x * Z.abs (num y)).

(** [int64(x)] of a value in range, and [math.Round]: half away from zero. *)
Definition trunc (x : float64) : Z := Z.quot (num x) (den x).
Definition mathRound (x : float64) : float64 :=
  of_int (Z.sgn (num x) * ((2 * Z.abs (num x) + den x) / (2 * den x))).

(** [strconv.FormatFloat(x, 'f', 1, 64)]: the exact value to one decimal, ties to even. *)
Definition tenths (x : float64) : Z := round_div (10 * num x) (den x).
Definition showTenths (neg : bool) (t : Z) : bytes :=
  (if neg then #"-" else []) ++ itoa (t / 10) ++ #"." ++ itoa (t mod 10).
Definition FormatFloat1 (x : float64) : bytes := showTenths (num x <? 0) (Z.abs (tenths x)).

Example third : rn 1 3 = mkFloat 6004799503160661 (-54).
Proof. reflexivity. Qed.
Example tenth : FormatFloat1 (rn 1 4) = #"0.2" /\ FormatFloat1 (rn 3 4) = #"0.8" /\ FormatFloat1 (rn (-5) 100) = #"-0.1".
Proof. vm_compute. done. Qed.
Example above_53_bits : num (of_int (2 ^ 53 + 1)) = 2 ^ 53 /\ num (of_int (2 ^ 53 + 3)) = 2 ^ 53 + 4.
Proof. vm_compute. done. Qed.
Example subnormal : fl_exp (rn 1 (2 ^ 1074)) = -1074 /\ fl_mant (rn 1 (2 ^ 1074)) = 1.
Proof. vm_compute. done. Qed.

(** ** Powers of two *)

Lemma pos2_pos e : 0 < pos2 e.
Proof. apply Z.pow_pos_nonneg; lia. Qed.
#[export] Hint Resolve pos2_pos : core.

Lemma pos2_ge e : 0 <= e -> pos2 e = 2 ^ e.
Proof. intros H. unfold pos2. by rewrite Z.max_r. Qed.

Lemma pos2_le e : e <= 0 -> pos2 e = 1.
Proof. intros H. unfold pos2. by rewrite Z.max_l. Qed.

(** [2 ^ (e + c) = 2 ^ e * 2 ^ c] as fractions. *)
Lemma pos2_add e c : 0 <= c -> pos2 (e + c) * pos2 (- e) = pos2 e * 2 ^ c * pos2 (- (e + c)).
Proof.
  intros Hc. destruct (Z.le_gt_cases 0 e).
  - rewrite (pos2_ge (e + c)), (pos2_ge e), (pos2_le (- e)), (pos2_le (- (e + c))), Z.pow_add_r by lia. lia.
  - destruct (Z.le_gt_cases 0 (e + c)).
    + rewrite (pos2_ge (e + c)), (pos2_le e), (pos2_ge (- e)), (pos2_le (- (e + c))) by lia.
      rewrite <-Z.pow_add_r by lia. replace (e + c + - e) with c by lia. lia.
    + rewrite (pos2_le (e + c)), (pos2_le e), !pos2_ge by lia. rewrite !Z.mul_1_l, <-Z.pow_add_r by lia. f_equal. lia.
Qed.

Lemma den_pos x : 0 < den x.
Proof. apply pos2_pos. Qed.
#[export] Hint Resolve den_pos : core.

(** ** Rounded quotients *)

Lemma round_div_close n d : 0 < d -> 2 * Z.abs (round_div n d * d - n) <= d.
Proof.
  intros Hd. unfold round_div. assert (Hdm := Z.div_mod n d ltac:(lia)). assert (Hm := Z.mod_pos_bound n d Hd).
  destruct (2 * (n mod d) <? d) eqn:E1; [go_bool; nia|].
  destruct (d <? 2 * (n mod d)) eqn:E2; [go_bool; nia|]. go_bool. destruct (Z.even _); nia.
Qed.

Lemma round_div_exact k d : 0 < d -> round_div (k * d) d = k.
Proof.
  intros Hd. unfold round_div. rewrite Z.div_mul, Z_mod_mult by lia. by rewrite (proj2 (Z.ltb_lt _ _)) by lia.
Qed.

Lemma round_div_scale n d c : 0 < d -> 0 < c -> round_div (n * c) (d * c) = round_div n d.
Proof.
  intros Hd Hc. unfold round_div. rewrite Z.div_mul_cancel_r, Z.mul_mod_distr_r by lia.
  assert (E1 : (2 * (n mod d * c) <? d * c) = (2 * (n mod d) <? d)) by (apply Bool.eq_iff_eq_true; rewrite !Z.ltb_lt; nia).
  assert (E2 : (d * c <? 2 * (n mod d * c)) = (d <? 2 * (n mod d))) by (apply Bool.eq_iff_eq_true; rewrite !Z.ltb_lt; nia).
  by rewrite E1, E2.
Qed.

Lemma round_div_mono n n' d : 0 < d -> n <= n' -> round_div n d <= round_div n' d.
Proof.
  intros Hd Hn. unfold round_div. assert (Hdm := Z.div_mod n d ltac:(lia)). assert (Hm := Z.mod_pos_bound n d Hd).
  assert (Hdm' := Z.div_mod n' d ltac:(lia)). assert (Hm' := Z.mod_pos_bound n' d Hd).
  assert (Hk : n / d <= n' / d) by (by apply Z.div_le_mono).
  destruct (Z.eq_dec (n / d) (n' / d)) as [E|E].
  - rewrite <-E in *. assert (n mod d <= n' mod d) by nia.
    repeat case_match; go_bool; lia.
  - repeat case_match; lia.
Qed.

(** ** The logarithm *)

Lemma ilog_spec n d : n <> 0 -> 0 < d ->
  d * pos2 (ilog n d) <= Z.abs n * pos2 (- ilog n d) < 2 * (d * pos2 (ilog n d)).
Proof.
  intros Hn Hd. unfold ilog. set (k := Z.log2 (Z.abs n) - Z.log2 d).
  destruct (Z.log2_spec (Z.abs n)) as [H1 H2]; [lia|]. destruct (Z.log2_spec d Hd) as [H3 H4].
  assert (Ha := Z.log2_nonneg (Z.abs n)). assert (Hb := Z.log2_nonneg d).
  set (a := Z.log2 (Z.abs n)) in *. set (b := Z.log2 d) in *.
  rewrite Z.pow_succ_r in H2, H4 by done.
  (* 2 ^ a * 2 ^ k' = 2 ^ b * 2 ^ k with the powers on their sides *)
  assert (E : 2 ^ a * pos2 (- k) = 2 ^ b * pos2 k).
  { destruct (Z.le_gt_cases 0 k).
    - rewrite pos2_le, pos2_ge by lia. rewrite Z.mul_1_r, <-Z.pow_add_r by lia. f_equal. lia.
    - rewrite (pos2_ge (- k)), (pos2_le k) by lia. rewrite Z.mul_1_r, <-Z.pow_add_r by lia. f_equal. lia. }
  assert (Hp := pos2_pos k). assert (Hq := pos2_pos (- k)).
  destruct (Z.ltb_spec (Z.abs n * pos2 (- k)) (d * pos2 k)) as [Hlt|Hge].
  - assert (E1 := pos2_add (k - 1) 1 ltac:(lia)). replace (k - 1 + 1) with k in E1 by lia. change (2 ^ 1) with 2 in E1.
    assert (Hp1 := pos2_pos (k - 1)). assert (Hq1 := pos2_pos (- (k - 1))).
    split.
    + apply (Zmult_le_reg_r _ _ (pos2 k)); [lia|].
      assert (d * pos2 (k - 1) * pos2 k <= 2 * 2 ^ b * pos2 (k - 1) * pos2 k) by nia.
      assert (2 ^ b * pos2 k <= Z.abs n * pos2 (- k)) by nia.
      assert (2 * pos2 (k - 1) * (2 ^ b * pos2 k) <= 2 * pos2 (k - 1) * (Z.abs n * pos2 (- k))) by nia.
      replace (Z.abs n * pos2 (- (k - 1)) * pos2 k) with (Z.abs n * (pos2 k * pos2 (- (k - 1)))) by ring.
      rewrite E1. nia.
    + apply (Zmult_lt_reg_r _ _ (pos2 k)); [lia|].
      replace (Z.abs n * pos2 (- (k - 1)) * pos2 k) with (Z.abs n * (pos2 k * pos2 (- (k - 1)))) by ring.
      rewrite E1. nia.
  - split; [lia|]. nia.
Qed.

(** A fraction of small integers is not subnormal. *)
Lemma ilog_normal n d : 0 < d < 2 ^ 1000 -> -1022 <= ilog n d.
Proof.
  intros [Hd Hd']. unfold ilog. assert (Z.log2 d < 1000) by (by apply Z.log2_lt_pow2).
  assert (Hn := Z.log2_nonneg (Z.abs n)). case_match; lia.
Qed.

(** The nearest float depends on the value of the fraction only. *)
Lemma ilog_unique n d k : n <> 0 -> 0 < d -> d * pos2 k <= Z.abs n * pos2 (- k) < 2 * (d * pos2 k) -> ilog n d = k.
Proof.
  intros Hn Hd Hk. assert (Hi := ilog_spec n d Hn Hd). set (e := ilog n d) in *. clearbody e.
  assert (Hlt : forall e k, d * pos2 k <= Z.abs n * pos2 (- k) -> Z.abs n * pos2 (- e) < 2 * (d * pos2 e) -> k <= e).
  { clear e k Hk Hi. intros e k H1 H2. apply Z.nlt_ge. intros Hlt. assert (E := pos2_add e (k - e) ltac:(lia)).
    replace (e + (k - e)) with k in E by lia. assert (P1 := pos2_pos e). assert (P2 := pos2_pos (- e)). assert (P3 := pos2_pos (- k)).
    assert (Hc : 2 <= 2 ^ (k - e)) by (change 2 with (2 ^ 1) at 1; apply Z.pow_le_mono_r; lia).
    assert (d * (pos2 k * pos2 (- e)) <= Z.abs n * pos2 (- k) * pos2 (- e)) by nia.
    assert (Z.abs n * pos2 (- e) * pos2 (- k) < 2 * (d * pos2 e) * pos2 (- k)) by nia.
    rewrite E in *. assert (0 < d * pos2 e * pos2 (- k)) by nia. nia. }
  apply Z.le_antisymm; apply Hlt; lia.
Qed.

Lemma ilog_scale n d c : n <> 0 -> 0 < d -> 0 < c -> ilog (n * c) (d * c) = ilog n d.
Proof.
  intros Hn Hd Hc. apply ilog_unique; [nia|nia|]. assert (Hi := ilog_spec n d Hn Hd). rewrite Z.abs_mul, (Z.abs_eq c) by lia. nia.
Qed.

Lemma rn_scale n d c : 0 < d -> 0 < c -> rn (n * c) (d * c) = rn n d.
Proof.
  intros Hd Hc. unfold rn. destruct (Z.eqb_spec n 0) as [->|Hn]; [done|]. rewrite (proj2 (Z.eqb_neq _ _)) by nia.
  rewrite ilog_scale by done. cbv zeta. f_equal. set (e := Z.max _ _). assert (P := pos2_pos e).
  rewrite <-(round_div_scale (n * pos2 (- e)) (d * pos2 e) c) by nia. f_equal; ring.
Qed.

Lemma rn_ratio n d n' d' : 0 < d -> 0 < d' -> n * d' = n' * d -> rn n d = rn n' d'.
Proof. intros Hd Hd' E. rewrite <-(rn_scale n d d'), <-(rn_scale n' d' d) by done. f_equal; lia. Qed.

(** The mantissa has 53 bits, or is the next power of two. *)
Lemma rn_mant n d : 0 < d -> Z.abs (fl_mant (rn n d)) <= 2 ^ 53 /\ -1074 <= fl_exp (rn n d).
Proof.
  intros Hd. unfold rn. destruct (Z.eqb_spec n 0); [cbn; lia|]. cbv zeta. cbn [fl_mant fl_exp]. set (e := Z.max _ _). split; [|lia].
  assert (Hi := ilog_spec n d ltac:(done) Hd). set (l := ilog n d) in *. assert (He : l - 52 <= e) by lia. clearbody e l.
  assert (P1 := pos2_pos e). assert (P2 := pos2_pos (- e)). assert (P3 := pos2_pos (- l)). assert (P4 := pos2_pos l).
  assert (Hb : Z.abs n * pos2 (- e) <= 2 ^ 53 * (d * pos2 e)).
  { apply (Zmult_le_reg_r _ _ (pos2 (- l))); [lia|]. destruct (Z.le_gt_cases e l) as [Hle|Hgt].
    - assert (E := pos2_add e (l - e) ltac:(lia)). replace (e + (l - e)) with l in E by lia.
      assert (Hc : 2 ^ (l - e) <= 2 ^ 52) by (apply Z.pow_le_mono_r; lia).
      transitivity (2 * d * (pos2 l * pos2 (- e))); [nia|]. rewrite E. assert (0 <= d * pos2 e * pos2 (- l)) by nia. nia.
    - assert (E := pos2_add l (e - l) ltac:(lia)). replace (l + (e - l)) with e in E by lia.
      assert (Hc : 1 <= 2 ^ (e - l)) by (assert (H := Z.pow_pos_nonneg 2 (e - l) ltac:(lia) ltac:(lia)); lia).
      transitivity (2 * d * (pos2 l * pos2 (- e))); [nia|]. assert (pos2 l * pos2 (- e) <= pos2 e * pos2 (- l)) by (rewrite E; nia). nia. }
  assert (Hc := round_div_close (n * pos2 (- e)) (d * pos2 e) ltac:(nia)). set (k := round_div _ _) in *.
  assert (0 < d * pos2 e) by nia. set (D := d * pos2 e) in *. set (N := n * pos2 (- e)) in *.
  assert (Z.abs N = Z.abs n * pos2 (- e)) by (unfold N; rewrite Z.abs_mul, (Z.abs_eq (pos2 _)) by lia; done). nia.
Qed.

(** ** How near the nearest float is *)

(** Relative error [2 ^ -53], in integers. *)
Lemma rn_close n d : 0 < d -> -1022 <= ilog n d ->
  2 ^ 53 * Z.abs (num (rn n d) * d - n * den (rn n d)) <= Z.abs n * den (rn n d).
Proof.
  intros Hd Hn. unfold rn. destruct (Z.eqb_spec n 0) as [->|Hn0].
  { change (num (mkFloat 0 0)) with 0. change (den (mkFloat 0 0)) with 1. lia. }
  rewrite Z.max_r by lia. unfold num, den. cbn [fl_mant fl_exp]. set (il := ilog n d) in *. set (e := il - 52).
  destruct (ilog_spec n d Hn0 Hd) as [Hlo _]. fold il in Hlo.
  assert (Hp := pos2_pos e). assert (Hq := pos2_pos (- e)).
  assert (Hc := round_div_close (n * pos2 (- e)) (d * pos2 e) ltac:(nia)).
  replace (round_div (n * pos2 (- e)) (d * pos2 e) * pos2 e * d - n * pos2 (- e))
    with (round_div (n * pos2 (- e)) (d * pos2 e) * (d * pos2 e) - n * pos2 (- e)) by ring.
  set (z := Z.abs (_ - _)) in *.
  assert (E := pos2_add e 52 ltac:(lia)). replace (e + 52) with il in E by (unfold e; lia).
  assert (Hi := pos2_pos il). assert (Hi' := pos2_pos (- il)).
  assert (Hk : 2 ^ 52 * (d * pos2 e) <= Z.abs n * pos2 (- e)).
  { apply (Zmult_le_reg_r _ _ (pos2 (- il))); [lia|].
    replace (2 ^ 52 * (d * pos2 e) * pos2 (- il)) with (d * (pos2 e * 2 ^ 52 * pos2 (- il))) by ring.
    rewrite <-E. nia. }
  change (2 ^ 53) with (2 * 2 ^ 52). nia.
Qed.

(** A value of 53 bits is not rounded. *)
Lemma rn_exact n d m z : 0 < d -> Z.abs m <= 2 ^ 53 -> -1074 <= z -> n * pos2 (- z) = m * pos2 z * d ->
  num (rn n d) * d = n * den (rn n d).
Proof.
  assert (Hstrict : forall m z, 0 < d -> Z.abs m < 2 ^ 53 -> -1074 <= z -> n * pos2 (- z) = m * pos2 z * d ->
    num (rn n d) * d = n * den (rn n d)).
  { clear m z. intros m z Hd Hm Hz E. unfold rn. destruct (Z.eqb_spec n 0) as [->|Hn0]; [reflexivity|].
    destruct (ilog_spec n d Hn0 Hd) as [Hlo _]. set (il := ilog n d) in *.
    assert (Hz1 := pos2_pos z). assert (Hz2 := pos2_pos (- z)).
    assert (Hil : il < 53 + z).
    { apply Z.nle_gt. intros Hle. assert (Ea := pos2_add z (il - z) ltac:(lia)). replace (z + (il - z)) with il in Ea by lia.
      assert (H1 := pos2_pos il). assert (H2 := pos2_pos (- il)).
      assert (Hpow : 2 ^ 53 <= 2 ^ (il - z)) by (apply Z.pow_le_mono_r; lia).
      assert (Habs : Z.abs n * pos2 (- z) = Z.abs m * pos2 z * d).
      { apply (f_equal Z.abs) in E. rewrite !Z.abs_mul in E.
        by rewrite (Z.abs_eq (pos2 (- z))), (Z.abs_eq (pos2 z)), (Z.abs_eq d) in E by lia. }
      assert (Hx : d * (pos2 z * 2 ^ (il - z) * pos2 (- il)) <= Z.abs m * (d * pos2 z * pos2 (- il))) by (rewrite <-Ea; nia).
      assert (0 < d * pos2 z * pos2 (- il)) by nia. nia. }
    set (e := Z.max (-1074) (il - 52)). assert (He : e <= z) by lia.
    assert (Ea := pos2_add e (z - e) ltac:(lia)). replace (e + (z - e)) with z in Ea by lia.
    assert (Hp := pos2_pos e). assert (Hq := pos2_pos (- e)).
    assert (En : n * pos2 (- e) = m * 2 ^ (z - e) * (d * pos2 e)).
    { apply (Z.mul_reg_r _ _ (pos2 (- z))); [lia|].
      replace (n * pos2 (- e) * pos2 (- z)) with (n * pos2 (- z) * pos2 (- e)) by ring. rewrite E.
      replace (m * pos2 z * d * pos2 (- e)) with (m * d * (pos2 z * pos2 (- e))) by ring. rewrite Ea. ring. }
    unfold num, den. cbn [fl_mant fl_exp]. rewrite En, round_div_exact by nia. rewrite <-Z.mul_assoc, (Z.mul_comm _ d), <-En. done. }
  intros Hd Hm Hz E. destruct (Z.eq_dec (Z.abs m) (2 ^ 53)) as [Em|]; [|apply (Hstrict m z); lia || done].
  apply (Hstrict (m / 2) (z + 1)); [done| |lia|].
  - assert (m = 2 ^ 53 \/ m = - 2 ^ 53) as [->| ->] by lia; reflexivity.
  - assert (Ea := pos2_add z 1 ltac:(lia)). change (2 ^ 1) with 2 in Ea. assert (Hp := pos2_pos (- z)).
    assert (E2 : m = m / 2 * 2) by (assert (m = 2 ^ 53 \/ m = - 2 ^ 53) as [->| ->] by lia; reflexivity).
    apply (Z.mul_reg_r _ _ (pos2 (- z))); [lia|].
    replace (n * pos2 (- (z + 1)) * pos2 (- z)) with (n * pos2 (- z) * pos2 (- (z + 1))) by ring. rewrite E, E2 at 1.
    replace (m / 2 * pos2 (z + 1) * d * pos2 (- z)) with (m / 2 * d * (pos2 (z + 1) * pos2 (- z))) by ring. rewrite Ea. ring.
Qed.

Lemma of_int_exact n : Z.abs n <= 2 ^ 53 -> num (of_int n) = n * den (of_int n).
Proof. intros Hn. unfold of_int. rewrite <-(rn_exact n 1 n 0); [ring|lia|done|lia|change (n * 1 = n * 1 * 1); ring]. Qed.

(** ** Values *)

(** The value of a float, and of a fraction. *)
Definition frac (n d : Z) : Q := Qmake n (Z.to_pos d).
Definition fval (x : float64) : Q := frac (num x) (den x).

(** Half a unit in the last place: [2 ^ -53]. *)
Definition eps : Q := Qmake 1 9007199254740992.

Lemma frac_mul a b c d : 0 < b -> 0 < d -> (frac a b * frac c d == frac (a * c) (b * d))%Q.
Proof. intros Hb Hd. unfold frac, Qeq. cbn [Qnum Qden Qmult]. rewrite Z2Pos.inj_mul by done. lia. Qed.

Lemma frac_add a b c d : 0 < b -> 0 < d -> (frac a b + frac c d == frac (a * d + c * b) (b * d))%Q.
Proof.
  intros Hb Hd. unfold frac, Qeq. cbn [Qnum Qden Qplus]. rewrite Z2Pos.inj_mul, !Pos2Z.inj_mul, !Z2Pos.id by done. ring.
Qed.

Lemma frac_le a b c d : 0 < b -> 0 < d -> (frac a b <= frac c d)%Q <-> a * d <= c * b.
Proof. intros Hb Hd. unfold frac, Qle. cbn [Qnum Qden]. by rewrite !Z2Pos.id. Qed.

Lemma frac_eq a b c d : 0 < b -> 0 < d -> (frac a b == frac c d)%Q <-> a * d = c * b.
Proof. intros Hb Hd. unfold frac, Qeq. cbn [Qnum Qden]. by rewrite !Z2Pos.id. Qed.

Lemma frac_abs a b : (Qabs (frac a b) == frac (Z.abs a) b)%Q.
Proof. reflexivity. Qed.

Lemma frac_opp a b : (- frac a b == frac (- a) b)%Q.
Proof. reflexivity. Qed.

(** The nearest float is within [eps], relatively. *)
Lemma rn_error n d : 0 < d -> -1022 <= ilog n d -> (Qabs (fval (rn n d) - frac n d) <= Qabs (frac n d) * eps)%Q.
Proof.
  intros Hd Hn. assert (Hc := rn_close n d Hd Hn). unfold fval, Qminus, eps. assert (Hp := den_pos (rn n d)).
  change (Qmake 1 9007199254740992) with (frac 1 (2 ^ 53)). rewrite frac_opp, frac_add, !frac_abs, frac_mul by lia.
  apply frac_le; [nia|lia|]. replace (num (rn n d) * d + - n * den (rn n d)) with (num (rn n d) * d - n * den (rn n d)) by ring.
  nia.
Qed.

Lemma rn_value n d m z : 0 < d -> Z.abs m <= 2 ^ 53 -> -1074 <= z -> n * pos2 (- z) = m * pos2 z * d -> (fval (rn n d) == frac n d)%Q.
Proof. intros Hd Hm Hz E. apply frac_eq; [done..|]. by eapply rn_exact. Qed.

Lemma of_int_value n : Z.abs n <= 2 ^ 53 -> (fval (of_int n) == inject_Z n)%Q.
Proof. intros Hn. change (inject_Z n) with (frac n 1). apply (rn_value n 1 n 0); [lia|done|lia|]. change (n * 1 = n * 1 * 1). ring. Qed.

(** How fine a rounded fraction can be. *)
Lemma den_rn n d : 0 < d -> den (rn n d) <= 2 ^ 53 * d.
Proof.
  intros Hd. unfold rn. destruct (Z.eqb_spec n 0); [change (den (mkFloat 0 0)) with 1; lia|].
  unfold den. cbn [fl_exp]. assert (Hl : - Z.log2 d - 1 <= ilog n d).
  { unfold ilog. assert (Ha := Z.log2_nonneg (Z.abs n)). case_match; lia. }
  destruct (Z.log2_spec d Hd) as [Hd1 _]. assert (Hb := Z.log2_nonneg d).
  transitivity (2 ^ (53 + Z.log2 d)).
  - apply Z.pow_le_mono_r; lia.
  - rewrite Z.pow_add_r by lia. nia.
Qed.

(** ** The operations *)

Section operations.
Context (x y : float64) (Hx : den x < 2 ^ 400) (Hy : den y < 2 ^ 400).

Lemma dens_small : 0 < den x * den y < 2 ^ 1000.
Proof.
  assert (H1 := den_pos x). assert (H2 := den_pos y). split; [nia|].
  apply (Z.lt_le_trans _ (2 ^ 400 * 2 ^ 400)); [nia|]. rewrite <-Z.pow_add_r by lia. apply Z.pow_le_mono_r; lia.
Qed.

Lemma fadd_error : (Qabs (fval (fadd x y) - (fval x + fval y)) <= Qabs (fval x + fval y) * eps)%Q.
Proof.
  unfold fval at 2 3 4 5. rewrite frac_add by done. apply rn_error; [apply dens_small|]. apply ilog_normal, dens_small.
Qed.

Lemma fmul_error : (Qabs (fval (fmul x y) - fval x * fval y) <= Qabs (fval x * fval y) * eps)%Q.
Proof.
  unfold fval at 2 3 4 5. rewrite frac_mul by done. apply rn_error; [apply dens_small|]. apply ilog_normal, dens_small.
Qed.

Lemma fdiv_error : 0 < num y < 2 ^ 400 -> (Qabs (fval (fdiv x y) - fval x / fval y) <= Qabs (fval x / fval y) * eps)%Q.
Proof.
  intros Hn. assert (H1 := den_pos x). assert (H2 := den_pos y).
  assert (E : (fval x / fval y == frac (num x * den y) (den x * num y))%Q).
  { unfold fval at 2. unfold frac. rewrite <-(Z2Pos.id (num y)) by lia. unfold Qdiv, Qinv. cbn [Qnum Qden].
    unfold fval, frac, Qeq. cbn [Qnum Qden Qmult]. rewrite Z2Pos.inj_mul, !Z2Pos.id by lia. done. }
  rewrite E. unfold fdiv. rewrite Z.sgn_pos, Z.abs_eq, Z.mul_1_r by lia.
  apply rn_error; [nia|]. apply ilog_normal. split; [nia|].
  apply (Z.lt_le_trans _ (2 ^ 400 * 2 ^ 400)); [nia|]. rewrite <-Z.pow_add_r by lia. apply Z.pow_le_mono_r; lia.
Qed.
End operations.

(** ** To the nearest tenth *)

Lemma tenths_close x : (Qabs (inject_Z (tenths x) - 10 * fval x) <= Qmake 1 2)%Q.
Proof.
  assert (Hd := den_pos x). assert (Hc := round_div_close (10 * num x) (den x) Hd). fold (tenths x) in Hc.
  unfold fval. change 10%Q with (frac 10 1). change (inject_Z (tenths x)) with (frac (tenths x) 1). change (Qmake 1 2) with (frac 1 2).
  unfold Qminus. rewrite frac_mul, frac_opp, frac_add, frac_abs by lia. apply frac_le; [lia|lia|].
  rewrite !Z.mul_1_l. replace (tenths x * den x + - (10 * num x) * 1) with (tenths x * den x - 10 * num x) by ring. lia.
Qed.

(** ** To an integer *)

Lemma fval_nonneg x : (0 <= fval x)%Q -> 0 <= num x.
Proof. intros H. apply (proj1 (frac_le 0 1 (num x) (den x) ltac:(lia) (den_pos x))) in H. lia. Qed.

Lemma fval_below x n : (fval x < inject_Z n)%Q -> num x < n * den x.
Proof.
  intros H. apply Z.nle_gt. intros Hle. apply (Qlt_not_le _ _ H). apply (proj2 (frac_le n 1 _ _ ltac:(lia) (den_pos x))). lia.
Qed.

Lemma trunc_close x : (0 <= fval x)%Q -> (inject_Z (trunc x) <= fval x /\ fval x < inject_Z (trunc x) + 1)%Q.
Proof.
  intros Hx. apply fval_nonneg in Hx. assert (Hd := den_pos x). unfold trunc. rewrite Z.quot_div_nonneg by lia.
  assert (Hdm := Z.div_mod (num x) (den x) ltac:(lia)). assert (Hm := Z.mod_pos_bound (num x) (den x) Hd).
  split.
  - apply (proj2 (frac_le _ 1 (num x) (den x) ltac:(lia) Hd)). nia.
  - apply Qnot_le_lt. intros Hle. rewrite <-(inject_Z_plus _ 1) in Hle.
    apply (proj1 (frac_le _ 1 (num x) (den x) ltac:(lia) Hd)) in Hle. nia.
Qed.
