(* ===== verification/ByteSizes.v ===== *)
(** Sizes, rates and shares as text: [byteSize] of src/internal/http/client.go, its
    counterparts [parseByteSize] and [formatByteSize] of src/internal/local/github_actions.go,
    [humanBytes], [percent] and [percentInt] of src/internal/local/proxy.go, and
    [humanBytesBinary] of src/internal/local/native_cache.go.  All of them go through
    binary64 (Float64.v). *)
From S2P Require Import Prelude.
From S2P Require Import GoStrings.
From S2P Require Import Float64.
Open Scope Z_scope.

(** ** Writing *)

(** [byteSize]: the unit by the size, the number with one decimal, and no [.0]. *)
Definition byteSize (n : Z) : bytes :=
  let value := of_int n in
  let '(value, unit) :=
    if 2 ^ 60 <=? n then (fdiv value (of_int (2 ^ 60)), #"EB")
    else if 2 ^ 50 <=? n then (fdiv value (of_int (2 ^ 50)), #"PB")
    else if 2 ^ 40 <=? n then (fdiv value (of_int (2 ^ 40)), #"TB")
    else if 2 ^ 30 <=? n then (fdiv value (of_int (2 ^ 30)), #"GB")
    else if 2 ^ 20 <=? n then (fdiv value (of_int (2 ^ 20)), #"MB")
    else if 2 ^ 10 <=? n then (fdiv value (of_int (2 ^ 10)), #"KB")
    else (value, #"B") in
  TrimSuffix (FormatFloat1 value) #".0" ++ unit.

(** The suffixes with the exponents of their factors, largest first. *)
Definition byteSizeUnits : list (bytes * Z) :=
  [(#"EB", 60); (#"PB", 50); (#"TB", 40); (#"GB", 30); (#"MB", 20); (#"KB", 10)].

Fixpoint formatUnits (units : list (bytes * Z)) (n : Z) : bytes :=
  match units with
  | [] => FormatInt n ++ #"B"
  | (suffix, k) :: units =>
      if 2 ^ k <=? n then TrimSuffix (FormatFloat1 (fdiv (of_int n) (of_int (2 ^ k)))) #".0" ++ suffix
      else formatUnits units n
  end.

Definition formatByteSize (n : Z) : bytes := formatUnits byteSizeUnits n.

(** [percent]; [percentInt] is the same of [int]s. *)
Definition percent (n d : Z) : bytes :=
  if d =? 0 then #"0.0%" else FormatFloat1 (fdiv (fmul (of_int 100) (of_int n)) (of_int d)) ++ #"%".
Definition percentInt (n d : Z) : bytes :=
  if d =? 0 then #"0.0%" else FormatFloat1 (fdiv (fmul (of_int 100) (of_int n)) (of_int d)) ++ #"%".

(** [humanBytes]: thousands, at most to the last unit. *)
Definition atLeast (x : float64) (n : Z) : bool := n * den x <=? num x.

Fixpoint thousands (v : float64) (unit : bytes) (units : list bytes) : bytes :=
  match units with
  | [] => FormatFloat1 v ++ unit
  | next :: units => if atLeast v 1000 then thousands (fdiv v (of_int 1000)) next units else FormatFloat1 v ++ unit
  end.

Definition humanBytes (n : Z) : bytes :=
  if n <? 1000 then FormatInt n ++ #"B" else thousands (of_int n) #"B" [ #"KB"; #"MB"; #"GB"; #"TB"].

(** [humanBytesBinary]: the loop divides by 1024, and its counter chooses the letter; an
    index out of range panics. *)
Fixpoint binaryUnit (fuel : nat) (n div : Z) (exp : nat) : Z * nat :=
  match fuel with
  | O => (div, exp)
  | S fuel => if 1024 <=? n then binaryUnit fuel (n / 1024) (div * 1024) (S exp) else (div, exp)
  end.

Definition humanBytesBinary (v : Z) : result bytes :=
  if v <? 1024 then Ok (FormatInt v ++ #" B")
  else
    let '(div, exp) := binaryUnit 7 (v / 1024) 1024 0 in
    match (#"KMGTPE") !! exp with
    | Some c => Ok (FormatFloat1 (fdiv (of_int v) (of_int div)) ++ #" " ++ [c] ++ #"iB")
    | None => Err (EPanic "index out of range")
    end.

(** [time.Duration.Seconds]. *)
Definition Seconds (d : Z) : float64 :=
  fadd (of_int (Z.quot d 1000000000)) (fdiv (of_int (Z.rem d 1000000000)) (of_int 1000000000)).

Definition humanBytesPerSecondBinary (n d : Z) : result bytes :=
  if (n <=? 0) || (d <=? 0) then Ok (#"0 B/s")
  else match humanBytesBinary (trunc (fdiv (of_int n) (Seconds d))) with
       | Ok s => Ok (s ++ #"/s")
       | Err e => Err e
       end.

(** ** Reading *)

Definition is_char (c : ascii) (s : bytes) : option bytes :=
  match s with x :: t => if bool_decide (x = c) then Some t else None | [] => None end.

(** A sign, if there is one. *)
Definition span_sign (s : bytes) : bool * bytes :=
  match is_char "-"%char s with
  | Some t => (true, t)
  | None => match is_char "+"%char s with Some t => (false, t) | None => (false, s) end
  end.

(** The exponent of a number, if it is all that is left. *)
Definition parseExponent (s : bytes) : option Z :=
  match s with
  | [] => Some 0
  | c :: t =>
      if bool_decide (c = "e"%char \/ c = "E"%char) then
        let '(neg, t) := span_sign t in
        match parse_digits t with Some n => Some (if neg : bool then - n else n) | None => None end
      else None
  end.

(** A decimal number [m * 10 ^ k]: a sign, digits with or without a point, an exponent. *)
Definition parseDecimal (s : bytes) : option (Z * Z) :=
  let '(neg, s) := span_sign s in
  let '(whole, s) := span_digits s in
  let '(part, s) := match is_char "."%char s with Some t => span_digits t | None => ([], s) end in
  if bool_decide (whole ++ part = []) then None
  else match parseExponent s with
       | Some e => Some ((if neg : bool then -1 else 1) * digits_val 0 (whole ++ part), e - Z.of_nat (length part))
       | None => None
       end.

(** The nearest float. *)
Definition decimalFloat (m k : Z) : float64 := if 0 <=? k then rn (m * 10 ^ k) 1 else rn m (10 ^ (- k)).

(** What [strconv.ParseFloat] makes of the texts that are no decimal numbers -- infinities,
    NaN, hexadecimal -- times a factor, as an [int64], and what [int64(x)] is out of
    range: the language leaves that to the machine. *)
Class FloatHost := {
  otherNumber : bytes -> Z -> result Z;
  outOfRange : float64 -> Z;
}.

Section reading.
Context `{FloatHost}.

Definition toInt64 (x : float64) : Z := if (- 2 ^ 63 <=? trunc x) && (trunc x <? 2 ^ 63) then trunc x else outOfRange x.

(** [int64(value * float64(factor))] for the float that a text stands for. *)
Definition scaledNumber (s : bytes) (factor : Z) : result Z :=
  match parseDecimal s with
  | None => otherNumber s factor
  | Some (m, k) =>
      let value := decimalFloat m k in
      if 2 ^ 1024 * den value <=? Z.abs (num value) then Err (EMsg "value out of range")
      else Ok (toInt64 (fmul value (of_int factor)))
  end.

Fixpoint parseUnits (units : list (bytes * Z)) (s : bytes) : result Z :=
  match units with
  | [] => if HasSuffix s #"B" then scaledNumber (TrimSuffix s #"B") 1 else Err (EMsg "unrecognized unit")
  | (suffix, k) :: units =>
      if HasSuffix s suffix then scaledNumber (TrimSuffix s suffix) (2 ^ k) else parseUnits units s
  end.

Definition parseByteSize (s : bytes) : result Z := parseUnits byteSizeUnits s.
End reading.

(** A host, for examples. *)
Definition amd64 : FloatHost := {| otherNumber _ _ := Err (EMsg "invalid syntax"); outOfRange _ := - 2 ^ 63 |}.

Example written : map byteSize [0; 1023; 1024; 1536; 1048575; 1048576; 5 * 2 ^ 29; 2 ^ 63 - 1] =
  [ #"0B"; #"1023B"; #"1KB"; #"1.5KB"; #"1024KB"; #"1MB"; #"2.5GB"; #"8EB"].
Proof. vm_compute. reflexivity. Qed.
Example read : map (@parseByteSize amd64) [ #"1.5KB"; #"1024KB"; #"17B"; #"2.5e1MB"; #"12"; #"xKB"] =
  [Ok 1536; Ok 1048576; Ok 17; Ok 26214400; Err (EMsg "unrecognized unit"); Err (EMsg "invalid syntax")].
Proof. vm_compute. reflexivity. Qed.
Example shares : map (fun '(n, d) => percent n d) [(0, 0); (1, 3); (2, 3); (5, 5); (1, 2000)] =
  [ #"0.0%"; #"33.3%"; #"66.7%"; #"100.0%"; #"0.1%"].
Proof. vm_compute. reflexivity. Qed.
Example people : map humanBytes [999; 1000; 1500000; 2 * 10 ^ 15] = [ #"999B"; #"1.0KB"; #"1.5MB"; #"2000.0TB"].
Proof. vm_compute. reflexivity. Qed.
Example rates : humanBytesPerSecondBinary 3145728 1500000000 = Ok #"2.0 MiB/s" /\ humanBytesBinary (2 ^ 63 - 1) = Ok #"8.0 EiB".
Proof. vm_compute. done. Qed.

(** ** Texts *)

Lemma TrimSuffix_app s p : TrimSuffix (s ++ p) p = s.
Proof.
  unfold TrimSuffix. rewrite HasSuffix_app, length_app.
  replace (length s + length p - length p)%nat with (length s) by lia. by rewrite take_app_length.
Qed.

Lemma TrimSuffix_none s p : HasSuffix s p = false -> TrimSuffix s p = s.
Proof. intros E. unfold TrimSuffix. by rewrite E. Qed.

(** Two suffixes of two characters. *)
Lemma HasSuffix_pair s c x p q : HasSuffix (s ++ [c; x]) [p; q] = bool_decide (x = q) && bool_decide (c = p).
Proof.
  unfold HasSuffix. rewrite reverse_app. change (reverse [c; x]) with [x; c]. change (reverse [p; q]) with [q; p].
  cbn [app HasPrefix]. rewrite andb_true_r, (bool_decide_ext (q = x) (x = q)), (bool_decide_ext (p = c) (c = p)); done.
Qed.

Lemma span_sign_digits s : (forall c t, s = c :: t -> is_digit c = true) -> span_sign s = (false, s).
Proof.
  intros Hs. unfold span_sign, is_char. destruct s as [|c t]; [done|]. specialize (Hs c t eq_refl).
  case_bool_decide as E1; [by subst|]. case_bool_decide as E2; [by subst|done].
Qed.

Lemma itoa_head n r : 0 <= n -> forall c t, itoa n ++ r = c :: t -> is_digit c = true.
Proof.
  intros Hn c t E. destruct (itoa_digits n Hn) as [Hd Hne]. destruct (itoa n) as [|x l]; [done|].
  injection E as <- _. simpl in Hd. by apply andb_true_iff in Hd as [Hd _].
Qed.

Lemma itoa_digit d : 0 <= d < 10 -> itoa d = [digit_char d].
Proof.
  intros Hd. assert (d = 0 \/ d = 1 \/ d = 2 \/ d = 3 \/ d = 4 \/ d = 5 \/ d = 6 \/ d = 7 \/ d = 8 \/ d = 9) as Hc by lia.
  by repeat destruct Hc as [-> | Hc]; subst.
Qed.

Lemma digits_val_app a s r : digits_val a (s ++ r) = digits_val (digits_val a s) r.
Proof. unfold digits_val. apply foldl_app. Qed.

Lemma itoa_value n : 0 <= n -> digits_val 0 (itoa n) = n.
Proof.
  intros Hn. assert (Hp := parse_itoa n Hn). unfold parse_digits in Hp.
  destruct (bool_decide _); [done|]. destruct (forallb _ _); [by injection Hp|done].
Qed.

Lemma parseDecimal_whole n : 0 <= n -> parseDecimal (itoa n) = Some (n, 0).
Proof.
  intros Hn. destruct (itoa_digits n Hn) as [Hd Hne]. unfold parseDecimal.
  rewrite <-(app_nil_r (itoa n)). rewrite span_sign_digits by (by apply itoa_head). rewrite span_digits_app by done.
  cbn [is_char]. rewrite app_nil_r, bool_decide_eq_false_2 by done. cbn [parseExponent length]. by rewrite itoa_value, Z.mul_1_l.
Qed.

Lemma parseDecimal_tenths n d : 0 <= n -> 0 <= d < 10 -> parseDecimal (itoa n ++ #"." ++ itoa d) = Some (10 * n + d, -1).
Proof.
  intros Hn Hd. destruct (itoa_digits n Hn) as [Hn1 Hn2]. destruct (digit_char_ok d Hd) as [Hd1 Hd2]. unfold parseDecimal.
  rewrite span_sign_digits by (by apply itoa_head). rewrite span_digits_app by done.
  change (is_char "."%char (#"." ++ itoa d)) with (Some (itoa d)). rewrite itoa_digit by done.
  cbn [span_digits]. rewrite Hd1. cbn [span_digits]. rewrite bool_decide_eq_false_2 by (by destruct (itoa n)).
  cbn [parseExponent length]. rewrite digits_val_app, itoa_value by done. unfold digits_val. cbn [foldl]. rewrite Hd2. f_equal. f_equal; lia.
Qed.

(** ** What is written *)

(** The text depends on the value only. *)
Lemma tenths_value x n d : 0 < d -> num x * d = n * den x -> tenths x = round_div (10 * n) d.
Proof.
  intros Hd E. unfold tenths. assert (Hx := den_pos x).
  transitivity (round_div (10 * num x * d) (den x * d)); [by rewrite round_div_scale|].
  rewrite <-(round_div_scale (10 * n) d (den x)) by done. f_equal; lia.
Qed.

Lemma sign_value x n d : 0 < d -> num x * d = n * den x -> (num x <? 0) = (n <? 0).
Proof. intros Hd E. assert (Hx := den_pos x). apply Bool.eq_iff_eq_true. rewrite !Z.ltb_lt. nia. Qed.

Lemma FormatFloat1_value x n d : 0 < d -> num x * d = n * den x ->
  FormatFloat1 x = showTenths (n <? 0) (Z.abs (round_div (10 * n) d)).
Proof. intros Hd E. unfold FormatFloat1. by rewrite (tenths_value x n d), (sign_value x n d). Qed.

Definition trimmedTenths (t : Z) : bytes := if t mod 10 =? 0 then itoa (t / 10) else itoa (t / 10) ++ #"." ++ itoa (t mod 10).

Lemma trimmed neg t : 0 <= t -> TrimSuffix (showTenths neg t) #".0" = (if neg then #"-" else []) ++ trimmedTenths t.
Proof.
  intros Ht. unfold showTenths, trimmedTenths. assert (Hm := Z.mod_pos_bound t 10 ltac:(lia)).
  destruct (Z.eqb_spec (t mod 10) 0) as [E|E].
  - rewrite E. change (itoa 0) with #"0". rewrite app_assoc. apply (TrimSuffix_app _ #".0").
  - apply TrimSuffix_none. rewrite (itoa_digit (t mod 10)), app_assoc by done.
    rewrite (HasSuffix_pair _ "."%char (digit_char (t mod 10)) "."%char "0"%char : HasSuffix (_ ++ (#"." ++ [digit_char (t mod 10)])) #".0" = _). rewrite bool_decide_eq_false_2; [done|]. intros Ec. destruct (digit_char_ok _ Hm) as [_ Hv]. rewrite Ec in Hv.
    change (0 = t mod 10) in Hv. congruence.
Qed.

(** Sizes without a unit, as far as floats hold every integer. *)
Lemma whole_text n : Z.abs n <= 2 ^ 53 -> TrimSuffix (FormatFloat1 (of_int n)) #".0" = FormatInt n.
Proof.
  intros Hn. rewrite (FormatFloat1_value _ n 1) by (lia || by rewrite of_int_exact, Z.mul_1_r).
  rewrite <-(Z.mul_1_r (10 * n)), round_div_exact, trimmed by lia. unfold trimmedTenths, FormatInt.
  rewrite Z.abs_mul, (Z.abs_eq 10) by lia. rewrite (Z.mul_comm 10), Z_mod_mult, Z.div_mul by lia.
  destruct (Z.ltb_spec n 0); cbn [Z.eqb]; [by rewrite Z.abs_neq by lia|by rewrite Z.abs_eq by lia].
Qed.

(** ** Sizes with a unit *)

(** The quotient that is written is exact. *)
Lemma quotient_exact n k : Z.abs n <= 2 ^ 53 -> 0 <= k <= 60 ->
  num (fdiv (of_int n) (of_int (2 ^ k))) * 2 ^ k = n * den (fdiv (of_int n) (of_int (2 ^ k))).
Proof.
  intros Hn Hk. assert (Hu : num (of_int (2 ^ k)) = 2 ^ k * den (of_int (2 ^ k))).
  { unfold of_int. rewrite <-(rn_exact (2 ^ k) 1 1 k); [ring|lia|done|lia|]. rewrite pos2_le, pos2_ge by lia. ring. }
  assert (Ha := of_int_exact n Hn). assert (Hp : 0 < 2 ^ k) by (apply Z.pow_pos_nonneg; lia).
  assert (Hd1 := den_pos (of_int n)). assert (Hd2 := den_pos (of_int (2 ^ k))).
  set (a := of_int n) in *. set (b := of_int (2 ^ k)) in *. unfold fdiv. rewrite Hu, Ha.
  rewrite Z.sgn_pos, Z.abs_eq, Z.mul_1_r by nia. set (x := rn _ _).
  assert (E : num x * (den a * (2 ^ k * den b)) = n * den a * den b * den x).
  { apply (rn_exact _ _ n (- k)); [nia|done|lia|]. rewrite Z.opp_involutive, (pos2_ge k), (pos2_le (- k)) by lia. ring. }
  apply (Z.mul_reg_r _ _ (den a * den b)); [nia|]. lia.
Qed.

(** The tenths of a unit that a size is written as. *)
Definition tenthsOf (n k : Z) : Z := round_div (10 * n) (2 ^ k).

Lemma unit_text n k : 0 <= n <= 2 ^ 53 -> 0 <= k <= 60 ->
  TrimSuffix (FormatFloat1 (fdiv (of_int n) (of_int (2 ^ k)))) #".0" = trimmedTenths (tenthsOf n k) /\ 0 <= tenthsOf n k.
Proof.
  intros Hn Hk. assert (Hp : 0 < 2 ^ k) by (apply Z.pow_pos_nonneg; lia).
  assert (Ht : 0 <= tenthsOf n k).
  { unfold tenthsOf. rewrite <-(round_div_exact 0 (2 ^ k)) by done. apply round_div_mono; lia. }
  split; [|done]. rewrite (FormatFloat1_value _ n (2 ^ k)) by (done || apply quotient_exact; lia).
  fold (tenthsOf n k). rewrite (proj2 (Z.ltb_ge n 0)), Z.abs_eq, trimmed by lia. done.
Qed.

Lemma trimmedTenths_read t : 0 <= t -> exists m k, parseDecimal (trimmedTenths t) = Some (m, k) /\
  (m, k) = (if t mod 10 =? 0 then (t / 10, 0) else (t, -1)).
Proof.
  intros Ht. unfold trimmedTenths. assert (Hm := Z.mod_pos_bound t 10 ltac:(lia)). assert (Hd : 0 <= t / 10) by (apply Z.div_pos; lia).
  destruct (t mod 10 =? 0); [exists (t / 10), 0; by rewrite parseDecimal_whole|].
  exists (10 * (t / 10) + t mod 10), (-1). rewrite parseDecimal_tenths by done. rewrite <-Z.div_mod by lia. done.
Qed.

(** The text ends in a digit, so that its unit is the one that is written. *)
Lemma ends_in_digit s : (exists l c, s = l ++ [c] /\ is_digit c = true) -> HasSuffix (s ++ #"B") #"KB" = false /\
  HasSuffix (s ++ #"B") #"MB" = false /\ HasSuffix (s ++ #"B") #"GB" = false /\ HasSuffix (s ++ #"B") #"TB" = false /\
  HasSuffix (s ++ #"B") #"PB" = false /\ HasSuffix (s ++ #"B") #"EB" = false.
Proof.
  intros (l & c & -> & Hc). rewrite <-!app_assoc.
  assert (Hs : forall p, is_digit p = false -> HasSuffix (l ++ [c; "B"%char]) [p; "B"%char] = false).
  { intros p Hp. rewrite HasSuffix_pair, (bool_decide_eq_false_2 (c = p)); [by rewrite andb_false_r|]. congruence. }
  split_and!; by apply Hs.
Qed.

Lemma unit_suffix s c p : HasSuffix (s ++ [c; "B"%char]) [p; "B"%char] = bool_decide (c = p).
Proof. rewrite HasSuffix_pair. by rewrite bool_decide_eq_true_2. Qed.

Section reading_back.
Context `{FloatHost}.

(** A number of tenths, read and scaled: off by less than one, and two roundings. *)
Lemma decimal_close t m e : 0 <= t <= 2 ^ 14 -> (m, e) = (if t mod 10 =? 0 then (t / 10, 0) else (t, -1)) ->
  (Qabs (fval (decimalFloat m e) - inject_Z t * Qmake 1 10) <= inject_Z t * Qmake 1 10 * eps)%Q /\ den (decimalFloat m e) <= 2 ^ 53 * 10.
Proof.
  intros Ht Hme. assert (Ht0 : (0 <= inject_Z t)%Q) by (change 0%Q with (inject_Z 0); rewrite <-Zle_Qle; lia).
  destruct (Z.eqb_spec (t mod 10) 0) as [E0|E0]; injection Hme as -> ->; unfold decimalFloat; cbn [Z.leb Z.compare Z.opp].
  - change (10 ^ 0) with 1. rewrite Z.mul_1_r. split; [|assert (Hd := den_rn (t / 10) 1 ltac:(lia)); lia].
    assert (E : t = t / 10 * 10) by (rewrite (Z.div_mod t 10) at 1 by lia; lia).
    assert (Hv : (fval (rn (t / 10) 1) == inject_Z (t / 10))%Q) by (apply (of_int_value (t / 10)); lia).
    assert (Et : (inject_Z t = inject_Z (t / 10) * 10)%Q) by (change 10%Q with (inject_Z 10); by rewrite <-inject_Z_mult, <-E).
    assert (Hz : (fval (rn (t / 10) 1) - inject_Z t * Qmake 1 10 == 0)%Q) by (rewrite Hv, Et; field).
    rewrite Hz. change (Qabs 0) with 0%Q. unfold eps. lra.
  - change (10 ^ 1) with 10. split; [|apply den_rn; lia].
    assert (Hc := rn_error t 10 ltac:(lia) ltac:(apply ilog_normal; lia)).
    assert (Ef : (frac t 10 == inject_Z t * Qmake 1 10)%Q) by (unfold frac, inject_Z, Qeq; cbn; lia).
    rewrite Ef in Hc. rewrite (Qabs_pos (inject_Z t * Qmake 1 10)) in Hc by lra. exact Hc.
Qed.

Lemma scaled_close t k : 0 <= t <= 2 ^ 14 -> 0 <= k <= 50 ->
  exists r, scaledNumber (trimmedTenths t) (2 ^ k) = Ok r /\
    (Qabs (inject_Z r - inject_Z t * Qmake 1 10 * inject_Z (2 ^ k)) <= 1 + inject_Z t * Qmake 1 10 * inject_Z (2 ^ k) * (3 * eps))%Q.
Proof.
  intros Ht Hk. destruct (trimmedTenths_read t ltac:(lia)) as (m & e & Hread & Hme). unfold scaledNumber. rewrite Hread.
  destruct (decimal_close t m e Ht Hme) as [Hw Hdw]. set (w := decimalFloat m e) in *.
  assert (Ht0 : (0 <= inject_Z t)%Q) by (change 0%Q with (inject_Z 0); rewrite <-Zle_Qle; lia).
  assert (Ht1 : (inject_Z t <= 16384)%Q) by (change 16384%Q with (inject_Z 16384); rewrite <-Zle_Qle; lia).
  assert (Hp : 1 <= 2 ^ k <= 2 ^ 50) by (split; [change 1 with (2 ^ 0)|]; apply Z.pow_le_mono_r; lia).
  assert (Hu : (fval (of_int (2 ^ k)) == inject_Z (2 ^ k))%Q) by (apply of_int_value; lia).
  set (T := (inject_Z t * Qmake 1 10)%Q) in *. set (U := inject_Z (2 ^ k)) in *.
  assert (HU : (1 <= U /\ U <= inject_Z (2 ^ 50))%Q) by (unfold U; change 1%Q with (inject_Z 1); rewrite <-!Zle_Qle; lia).
  assert (HT : (0 <= T /\ T <= 1639)%Q) by (unfold T; lra).
  apply Qabs_Qle_condition in Hw. unfold eps in Hw.
  assert (Hw0 : (0 <= fval w /\ fval w < inject_Z (2 ^ 12))%Q) by (change (inject_Z (2 ^ 12)) with 4096%Q; lra).
  destruct (Z.leb_spec (2 ^ 1024 * den w) (Z.abs (num w))) as [Hbig|_].
  { exfalso. destruct Hw0 as [Hw0 Hw1]. apply fval_below in Hw1. apply fval_nonneg in Hw0. assert (Hd := den_pos w).
    assert (2 ^ 12 <= 2 ^ 1024) by (by apply Z.pow_le_mono_r). nia. }
  assert (Hpow : 2 ^ 57 <= 2 ^ 400) by (by apply Z.pow_le_mono_r).
  assert (Hm := fmul_error w (of_int (2 ^ k)) ltac:(lia) ltac:(assert (Hd := den_rn (2 ^ k) 1 ltac:(lia)); unfold of_int; lia)).
  rewrite Hu in Hm. fold U in Hm. set (x := fmul w (of_int (2 ^ k))) in *.
  assert (HV : (0 <= T * U /\ T * U <= 1639 * inject_Z (2 ^ 50))%Q).
  { split; [apply Qmult_le_0_compat; lra|]. apply Qle_trans with (1639 * U)%Q; [apply Qmult_le_compat_r; lra|].
    change (inject_Z (2 ^ 50)) with 1125899906842624%Q in *. lra. }
  assert (HP : (T * U - T * U * eps <= fval w * U /\ fval w * U <= T * U + T * U * eps)%Q).
  { destruct Hw as [Hwl Hwu]. unfold eps. split.
    - apply Qle_trans with ((T - T * Qmake 1 9007199254740992) * U)%Q; [lra|]. apply Qmult_le_compat_r; lra.
    - apply Qle_trans with ((T + T * Qmake 1 9007199254740992) * U)%Q; [|lra]. apply Qmult_le_compat_r; lra. }
  unfold eps in HP, Hm |- *. change (inject_Z (2 ^ 50)) with 1125899906842624%Q in HV.
  rewrite (Qabs_pos (fval w * U)) in Hm by lra. apply Qabs_Qle_condition in Hm.
  destruct (trunc_close x ltac:(lra)) as [Ht2 Ht3].
  assert (Hlo : 0 <= trunc x).
  { apply Z.lt_succ_r. rewrite Zlt_Qlt. unfold Z.succ. rewrite inject_Z_plus. change (inject_Z 0) with 0%Q. change (inject_Z 1) with 1%Q. lra. }
  assert (Hhi : trunc x < 2 ^ 63) by (rewrite Zlt_Qlt; change (inject_Z (2 ^ 63)) with 9223372036854775808%Q; lra).
  exists (trunc x). split.
  - unfold toInt64. rewrite (proj2 (Z.leb_le _ _)), (proj2 (Z.ltb_lt _ _)) by lia. done.
  - apply Qabs_Qle_condition. split; lra.
Qed.
End reading_back.

(** ** Back and forth *)

(** The unit of a size: none below a kilobyte. *)
Lemma byteSize_unit n k p : In (k, p) [(40, "T"%char); (30, "G"%char); (20, "M"%char); (10, "K"%char)] -> 2 ^ k <= n < 2 ^ (k + 10) ->
  byteSize n = TrimSuffix (FormatFloat1 (fdiv (of_int n) (of_int (2 ^ k)))) #".0" ++ [p; "B"%char].
Proof.
  intros Hin Hn. assert (H1 : forall a b, a <= b -> 0 <= a -> 2 ^ a <= 2 ^ b) by (intros; by apply Z.pow_le_mono_r).
  unfold byteSize. destruct Hin as [[= <- <-]|[[= <- <-]|[[= <- <-]|[[= <- <-]|[]]]]]; simpl Z.add in Hn;
  repeat (match goal with |- context [if ?a <=? ?b then _ else _] => destruct (Z.leb_spec a b); [try lia; try reflexivity|] end); lia || reflexivity.
Qed.

Lemma byteSize_small n : 0 <= n < 2 ^ 10 -> byteSize n = FormatInt n ++ #"B".
Proof.
  intros Hn. unfold byteSize.
  repeat (match goal with |- context [if ?a <=? ?b then _ else _] => destruct (Z.leb_spec a b); [lia|] end).
  by rewrite whole_text by lia.
Qed.

(** The last step of a job and the client write sizes alike: [formatByteSize] is
    [byteSize], for every size that is not negative, and for the negative ones that a
    float holds. *)
Lemma formatByteSize_is_byteSize n (Hn : - 2 ^ 53 <= n) : formatByteSize n = byteSize n.
Proof.
  unfold formatByteSize, byteSize, byteSizeUnits. cbn [formatUnits].
  repeat (match goal with |- context [if ?a <=? ?b then _ else _] => destruct (Z.leb_spec a b); [reflexivity|] end).
  by rewrite whole_text by lia.
Qed.

Section claims.
Context `{FloatHost}.

(** Reading what was written without a unit. *)
Lemma small_read n : 0 <= n < 2 ^ 10 -> parseByteSize (FormatInt n ++ #"B") = Ok n.
Proof.
  intros Hn. unfold FormatInt. rewrite (proj2 (Z.ltb_ge n 0)) by lia.
  assert (Hlast : exists l c, itoa n = l ++ [c] /\ is_digit c = true).
  { destruct (itoa_digits n ltac:(lia)) as [Hd Hne]. destruct (exists_last Hne) as (l & c & E). exists l, c. split; [done|].
    rewrite E, forallb_app in Hd. apply andb_true_iff in Hd as [_ Hd]. simpl in Hd. by rewrite andb_true_r in Hd. }
  destruct (ends_in_digit _ Hlast) as (E1 & E2 & E3 & E4 & E5 & E6).
  unfold parseByteSize, byteSizeUnits. cbn [parseUnits]. rewrite E1, E2, E3, E4, E5, E6, HasSuffix_app, TrimSuffix_app.
  unfold scaledNumber. rewrite parseDecimal_whole by lia. unfold decimalFloat. cbn [Z.leb Z.compare]. change (10 ^ 0) with 1. rewrite Z.mul_1_r.
  assert (En := of_int_exact n ltac:(lia)). fold (of_int n). assert (Hd := den_pos (of_int n)).
  assert (Hbig : 2 ^ 10 < 2 ^ 1024) by (by apply Z.pow_lt_mono_r).
  rewrite (proj2 (Z.leb_gt _ _)) by (rewrite En, Z.abs_eq by nia; nia). f_equal.
  assert (Em : num (fmul (of_int n) (of_int 1)) = n * den (fmul (of_int n) (of_int 1))).
  { unfold fmul. change (num (of_int 1)) with (den (of_int 1)). assert (Hd1 := den_pos (of_int 1)).
    set (x := rn _ _). assert (E : num x * (den (of_int n) * den (of_int 1)) = num (of_int n) * den (of_int 1) * den x).
    { apply (rn_exact _ _ n 0); [nia|lia|lia|]. rewrite En. change (pos2 (-0)) with 1. change (pos2 0) with 1. ring. }
    rewrite En in E. apply (Z.mul_reg_r _ _ (den (of_int n) * den (of_int 1))); [nia|]. lia. }
  unfold toInt64, trunc. rewrite Em, Z.quot_mul by (assert (Hx := den_pos (fmul (of_int n) (of_int 1))); lia).
  by rewrite (proj2 (Z.leb_le _ _)), (proj2 (Z.ltb_lt _ _)) by lia.
Qed.

(** Reading what was written with one. *)
Lemma unit_read n k : 10 <= k <= 40 -> 2 ^ k <= n < 2 ^ (k + 10) -> exists r,
  scaledNumber (TrimSuffix (FormatFloat1 (fdiv (of_int n) (of_int (2 ^ k)))) #".0") (2 ^ k) = Ok r /\ 20 * Z.abs (r - n) <= 2 ^ k + 30.
Proof.
  intros Hk Hn. assert (Hp : 0 < 2 ^ k) by (apply Z.pow_pos_nonneg; lia).
  assert (Hmax : 2 ^ (k + 10) <= 2 ^ 50) by (apply Z.pow_le_mono_r; lia).
  destruct (unit_text n k ltac:(lia) ltac:(lia)) as [-> Ht0].
  assert (Hc := round_div_close (10 * n) (2 ^ k) Hp). fold (tenthsOf n k) in Hc.
  assert (Ht1 : tenthsOf n k <= 2 ^ 14) by (rewrite Z.pow_add_r in Hn by lia; change (2 ^ 10) with 1024 in Hn; nia).
  destruct (scaled_close (tenthsOf n k) k ltac:(lia) ltac:(lia)) as (r & Hr & Hclose). exists r. split; [exact Hr|].
  apply Qabs_Qle_condition in Hclose. unfold eps in Hclose. set (t := tenthsOf n k) in *.
  assert (Hq : (inject_Z t * Qmake 1 10 * inject_Z (2 ^ k) == inject_Z (t * 2 ^ k) * Qmake 1 10)%Q) by (rewrite inject_Z_mult; ring).
  rewrite Hq in Hclose. assert (Hlo : 20 * n - 2 ^ k <= 2 * (t * 2 ^ k) <= 20 * n + 2 ^ k) by lia.
  assert (Hb : 2 * (t * 2 ^ k) <= 21 * 2 ^ 50) by nia.
  rewrite Zle_Qle in Hb. rewrite inject_Z_mult in Hb. change (inject_Z (21 * 2 ^ 50)) with 23643898043695104%Q in Hb. change (inject_Z 2) with 2%Q in Hb.
  assert (Hr1 : 10 * r <= t * 2 ^ k + 14 /\ t * 2 ^ k <= 10 * r + 14).
  { rewrite !Zle_Qle. rewrite !inject_Z_plus, !(inject_Z_mult 10). change (inject_Z 14) with 14%Q.
    change (inject_Z 10) with 10%Q. split; lra. }
  lia.
Qed.

(** What a unit a size is written in is worth: nothing below a kilobyte. *)
Definition unitOf (n : Z) : Z :=
  if n <? 2 ^ 10 then 0 else if n <? 2 ^ 20 then 2 ^ 10 else if n <? 2 ^ 30 then 2 ^ 20 else if n <? 2 ^ 40 then 2 ^ 30 else 2 ^ 40.

(** A size that is read back from its text is the size, to a twentieth of the unit it
    was written in and a byte and a half. *)
Lemma read_back_close n (Hn : 0 <= n < 2 ^ 50) :
  exists r, parseByteSize (byteSize n) = Ok r /\ 0 <= r /\ 20 * Z.abs (r - n) <= unitOf n + 30.
Proof.
  destruct (Z.lt_ge_cases n (2 ^ 10)) as [Hs|Hl].
  - exists n. rewrite byteSize_small, small_read, Z.sub_diag by lia. split; [done|]. split; [lia|].
    unfold unitOf. by rewrite (proj2 (Z.ltb_lt _ _)).
  - assert (Hk : exists k p, In (k, p) [(40, "T"%char); (30, "G"%char); (20, "M"%char); (10, "K"%char)] /\ 10 <= k <= 40 /\ 2 ^ k <= n < 2 ^ (k + 10)).
    { destruct (Z.lt_ge_cases n (2 ^ 20)); [exists 10, "K"%char|destruct (Z.lt_ge_cases n (2 ^ 30)); [exists 20, "M"%char|
        destruct (Z.lt_ge_cases n (2 ^ 40)); [exists 30, "G"%char|exists 40, "T"%char]]]; (split; [simpl; tauto|]; simpl Z.add; lia). }
    destruct Hk as (k & p & Hin & Hk & Hnk). destruct (unit_read n k Hk Hnk) as (r & Hr & Hclose). exists r.
    assert (Hun : unitOf n = 2 ^ k).
    { unfold unitOf.
      destruct Hin as [[= <- <-]|[[= <- <-]|[[= <- <-]|[[= <- <-]|[]]]]]; simpl Z.add in Hnk;
        repeat (match goal with |- context [if ?a <? ?b then _ else _] => destruct (Z.ltb_spec a b); [try lia; try reflexivity|] end); lia || reflexivity. }
    split.
    + rewrite (byteSize_unit n k p Hin Hnk). unfold parseByteSize, byteSizeUnits. cbn [parseUnits].
      change (#"EB") with [ "E"%char; "B"%char ]. change (#"PB") with [ "P"%char; "B"%char ]. change (#"TB") with [ "T"%char; "B"%char ]. change (#"GB") with [ "G"%char; "B"%char ]. change (#"MB") with [ "M"%char; "B"%char ].
      change (#"KB") with [ "K"%char; "B"%char ].
      rewrite !unit_suffix.
      destruct Hin as [[= <- <-]|[[= <- <-]|[[= <- <-]|[[= <- <-]|[]]]]];
        repeat (rewrite bool_decide_eq_false_2 by done); rewrite bool_decide_eq_true_2, (TrimSuffix_app _ [_; _]) by done; exact Hr.
    + rewrite Hun. lia.
Qed.
End claims.

(** A share is written to the nearest tenth of a percent, and between 0 and 100. *)
Lemma percent_close n d (Hn : 0 <= n <= d) (Hd : 0 < d < 2 ^ 40) :
  exists t, percent n d = showTenths false t ++ #"%" /\ 0 <= t <= 1000 /\ 2 * Z.abs (t * d - 1000 * n) <= d.
Proof.
  unfold percent. rewrite (proj2 (Z.eqb_neq d 0)) by lia.
  set (m := fmul (of_int 100) (of_int n)). set (x := fdiv m (of_int d)).
  assert (Hpow : 2 ^ 62 <= 2 ^ 400) by (by apply Z.pow_le_mono_r).
  assert (Hden : forall z, den (of_int z) < 2 ^ 400) by (intros z; assert (H := den_rn z 1 ltac:(lia)); unfold of_int; lia).
  assert (Hm := fmul_error (of_int 100) (of_int n) (Hden _) (Hden _)). fold m in Hm.
  rewrite (of_int_value 100), (of_int_value n) in Hm by lia.
  assert (HD := of_int_value d ltac:(lia)). assert (Hnd := of_int_exact d ltac:(lia)). assert (Hdp := den_pos (of_int d)).
  assert (Hmden : den m < 2 ^ 400).
  { apply (Z.le_lt_trans _ (2 ^ 53 * (den (of_int 100) * den (of_int n)))); [apply den_rn; assert (H1 := den_pos (of_int 100)); assert (H2 := den_pos (of_int n)); nia|].
    assert (H1 := den_rn 100 1 ltac:(lia)). assert (H2 := den_rn n 1 ltac:(lia)). fold (of_int 100) in H1. fold (of_int n) in H2.
    assert (0 < den (of_int 100)) by apply den_pos. assert (2 ^ 160 <= 2 ^ 400) by (by apply Z.pow_le_mono_r). nia. }
  assert (Hx := fdiv_error m (of_int d) Hmden ltac:(assert (Hd2 := den_rn d 1 ltac:(lia)); fold (of_int d) in Hd2;
    assert (2 ^ 160 <= 2 ^ 400) by (by apply Z.pow_le_mono_r); nia)).
  fold x in Hx. rewrite HD in Hx.
  assert (Ht := tenths_close x). set (t := tenths x) in *.
  assert (HN : (0 <= inject_Z n)%Q) by (change 0%Q with (inject_Z 0); rewrite <-Zle_Qle; lia).
  assert (HN1 : (inject_Z n <= inject_Z d)%Q) by (rewrite <-Zle_Qle; lia).
  assert (HDp : (1 <= inject_Z d /\ inject_Z d <= 1099511627776)%Q).
  { change 1%Q with (inject_Z 1). change 1099511627776%Q with (inject_Z (2 ^ 40)). rewrite <-!Zle_Qle. lia. }
  change (inject_Z 100) with 100%Q in Hm. rewrite (Qabs_pos (100 * inject_Z n)) in Hm by lra.
  set (N := inject_Z n) in *. set (D := inject_Z d) in *. set (M := fval m) in *. set (X := fval x) in *.
  apply Qabs_Qle_condition in Hm. unfold eps in Hm. assert (Hqd : (M / D * D == M)%Q) by (field; lra).
  assert (Hq0 : (0 <= M / D)%Q) by (apply Qle_shift_div_l; lra). rewrite (Qabs_pos (M / D)) in Hx by done.
  apply Qabs_Qle_condition in Hx. apply Qabs_Qle_condition in Ht. set (q := (M / D)%Q) in *. unfold eps in Hx.
  assert (Hxd : (q * D - q * D * Qmake 1 9007199254740992 <= X * D /\ X * D <= q * D + q * D * Qmake 1 9007199254740992)%Q).
  { split; [apply Qle_trans with ((q - q * Qmake 1 9007199254740992) * D)%Q|apply Qle_trans with ((q + q * Qmake 1 9007199254740992) * D)%Q];
      (lra || (apply Qmult_le_compat_r; lra)). }
  rewrite Hqd in Hxd.
  assert (Htd : (10 * (X * D) - D * Qmake 1 2 <= inject_Z t * D /\ inject_Z t * D <= 10 * (X * D) + D * Qmake 1 2)%Q).
  { split; [apply Qle_trans with ((10 * X - Qmake 1 2) * D)%Q|apply Qle_trans with ((10 * X + Qmake 1 2) * D)%Q];
      (lra || (apply Qmult_le_compat_r; lra)). }
  assert (Hfin : 4 * (t * d) <= 4000 * n + 2 * d + 1 /\ 4000 * n <= 4 * (t * d) + 2 * d + 1).
  { rewrite !Zle_Qle, !inject_Z_plus, !(inject_Z_mult 4), (inject_Z_mult 4000), (inject_Z_mult 2), inject_Z_mult. fold N D.
    change (inject_Z 4) with 4%Q. change (inject_Z 4000) with 4000%Q. change (inject_Z 2) with 2%Q. change (inject_Z 1) with 1%Q.
    split; lra. }
  assert (Hclose : 2 * Z.abs (t * d - 1000 * n) <= d) by lia. exists t.
  assert (Hsign : (num x <? 0) = false) by (apply Z.ltb_ge, fval_nonneg; fold X; nra).
  assert (Htn : 0 <= t) by nia. split; [|split; [nia|done]].
  unfold FormatFloat1. fold t. by rewrite Hsign, Z.abs_eq.
Qed.

(** ** Examples *)



(** Outside the lemmas: the largest size reads back as the smallest integer, because a
    float rounds it up to [2 ^ 63]; and floats lose the digits of very negative sizes. *)
Example largest_size : byteSize (2 ^ 63 - 1) = #"8EB" /\ @parseByteSize amd64 #"8EB" = Ok (- 2 ^ 63).
Proof. vm_compute. done. Qed.
Example very_negative : byteSize (- 2 ^ 53 - 1) <> formatByteSize (- 2 ^ 53 - 1).
Proof. vm_compute. discriminate. Qed.
