(* ===== verification/RecordPool.v ===== *)
(** src/internal/recordpool/recordpool.go: many small records of one size packed
    into fixed-length page files.  The directory of the pool is the map [disk]
    from file names to contents; a page holds the name of the file its handle is
    open on.  The free stack is listed top first.  Every exported operation runs
    under the pool's mutex, so an operation is one atomic function.  Faults of
    the file system are arguments; closing and removing a file, whose errors the
    code only logs, succeed. *)
From S2P Require Import Prelude.
From S2P Require Import GoStrings.

(** ** Data *)

Record Loc := mkLoc { Page : Z; Slot : Z }.

#[export] Instance Loc_eq_dec : EqDecision Loc.
Proof. solve_decision. Defined.

#[export] Instance Loc_countable : Countable Loc.
Proof.
  apply (inj_countable' (fun l => (Page l, Slot l)) (fun p => mkLoc p.1 p.2)).
  by intros [].
Defined.

Definition zeroLoc : Loc := mkLoc 0 0.

Definition IsZero (l : Loc) : bool := Page l =? 0.

Definition DefaultMaxRecordBytes : Z := 4096.
Definition DefaultPageBytes : Z := 8 * 2 ^ 20.

Record page := mkPage { pg_file : bytes; pg_free : list Z }.

Record class := mkClass {
  recordSize : Z;
  capacity : Z;
  pages : gmap Z page;
  nextPage : Z;
}.

Record Pool := mkPool {
  maxRecordBytes : Z;
  pageBytes : Z;
  breakeven : Z;
  writeSeq : Z;
  classes : gmap Z class;
  counts : gmap Z Z;
  disk : gmap bytes bytes;
}.

Definition set_pages (c : class) (m : gmap Z page) : class :=
  mkClass (recordSize c) (capacity c) m (nextPage c).
Definition set_nextPage (c : class) (n : Z) : class :=
  mkClass (recordSize c) (capacity c) (pages c) n.
Definition set_classes (p : Pool) (m : gmap Z class) : Pool :=
  mkPool (maxRecordBytes p) (pageBytes p) (breakeven p) (writeSeq p) m (counts p) (disk p).
Definition set_counts (p : Pool) (m : gmap Z Z) : Pool :=
  mkPool (maxRecordBytes p) (pageBytes p) (breakeven p) (writeSeq p) (classes p) m (disk p).
Definition set_disk (p : Pool) (d : gmap bytes bytes) : Pool :=
  mkPool (maxRecordBytes p) (pageBytes p) (breakeven p) (writeSeq p) (classes p) (counts p) d.
Definition bump_writeSeq (p : Pool) : Pool :=
  mkPool (maxRecordBytes p) (pageBytes p) (breakeven p) ((writeSeq p + 1) mod 2 ^ 64)
    (classes p) (counts p) (disk p).

(** [New]: the options set the two limits. *)
Definition New (maxRecord pageSize : Z) (d : gmap bytes bytes) : Pool :=
  mkPool maxRecord pageSize (Z.quot pageSize 4096) 0 ∅ ∅ d.

(** ** Page file names *)

Definition pageFileName (size pageNum : Z) : bytes :=
  #"records." ++ itoa size ++ #".p" ++ itoa pageNum ++ #".bin".

(** [pageNameRe]: [records], a size, [p], a page number, [bin].  The two runs
    of digits are delimited by a dot, so the match is unique. *)
Definition pageNameRe (name : bytes) : option (bytes * bytes) :=
  if HasPrefix name #"records." then
    let '(size, rest) := span_digits (drop 8 name) in
    if bool_decide (size = []) || negb (HasPrefix rest #".p") then None
    else
      let '(num, rest) := span_digits (drop 2 rest) in
      if bool_decide (num = []) || negb (bool_decide (rest = #".bin")) then None
      else Some (size, num)
  else None.

(** [strconv.ParseInt(s, 10, 64)] and [ParseUint(s, 10, 32)] on digits. *)
Definition parseBelow (bound : Z) (s : bytes) : option Z :=
  match parse_digits s with
  | Some n => if n <? bound then Some n else None
  | None => None
  end.

(** ** Reconciliation *)

(** One entry of the directory, [openErr] what opening it returns. *)
Definition discoverEntry (p : Pool) (name : bytes) (isDir : bool)
    (openErr : option goerr) : result Pool :=
  if isDir then Ok p
  else match pageNameRe name with
  | None => Ok p
  | Some (m1, m2) =>
    match parseBelow (2 ^ 63) m1 with
    | None => Ok p
    | Some size =>
      if size <=? 0 then Ok p
      else match parseBelow (2 ^ 32) m2 with
      | None => Ok p
      | Some pageNum =>
        match openErr with
        | Some e => Err e
        | None =>
          let c := match classes p !! size with
                   | Some c => c
                   | None => mkClass size (u32 (Z.quot (pageBytes p) size)) ∅ 0
                   end in
          let c := set_pages c (<[pageNum := mkPage name []]> (pages c)) in
          let c := if nextPage c <? pageNum then set_nextPage c pageNum else c in
          Ok (set_classes p (<[size := c]> (classes p)))
        end
      end
    end
  end.

Fixpoint discoverEntries (p : Pool) (l : list (bytes * bool * option goerr)) : result Pool :=
  match l with
  | [] => Ok p
  | (name, isDir, openErr) :: l' =>
      let? p := discoverEntry p name isDir openErr in discoverEntries p l'
  end.

(** [entries] is what [os.ReadDir] returns, with the outcome of opening each. *)
Definition DiscoverPages (p : Pool)
    (entries : result (list (bytes * bool * option goerr))) : result Pool :=
  match entries with
  | Err e => if isNotExist e then Ok p else Err e
  | Ok l => discoverEntries p l
  end.

Definition Valid (p : Pool) (size : Z) (l : Loc) : bool :=
  if IsZero l then true
  else match classes p !! size with
  | None => false
  | Some c =>
      match pages c !! Page l with
      | None => false
      | Some _ => Slot l <? capacity c
      end
  end.

Definition NoteOccupied (p : Pool) (size : Z) (l : Loc) : Pool :=
  if IsZero l then p
  else match classes p !! size with
  | None => p
  | Some c =>
      match pages c !! Page l with
      | None => p
      | Some pg =>
          let pg := mkPage (pg_file pg) (Slot l :: pg_free pg) in
          set_classes p (<[size := set_pages c (<[Page l := pg]> (pages c))]> (classes p))
      end
  end.

Definition NoteUnpromoted (p : Pool) (size : Z) : Pool :=
  match classes p !! size with
  | Some _ => p
  | None => set_counts p (<[size := default 0 (counts p !! size) + 1]> (counts p))
  end.

(** The slots [0 .. cap-1] in increasing order. *)
Definition slots (cap : Z) : list Z := seqZ 0 cap.

(** The slots not noted, pushed in increasing order: the largest is on top. *)
Definition finishPage (cap : Z) (pg : page) : page :=
  mkPage (pg_file pg) (reverse (filter (fun s => s ∉ pg_free pg) (slots cap))).

Definition finishClass (c : class) : class :=
  set_pages c (finishPage (capacity c) <$> pages c).

Definition FinishReconcile (p : Pool) : Pool :=
  set_classes p (finishClass <$> classes p).

(** ** File offsets *)

(** [f.WriteAt(body, off)] on the contents of a file, growing it with zeros. *)
Definition writeAt (f body : bytes) (off : Z) : bytes :=
  let n := Z.to_nat off in
  take n (f ++ replicate (n - length f) zero) ++ body ++ drop (n + length body) f.

(** [f.ReadAt(buf, off)] with [len(buf) = size]. *)
Definition readAt (f : bytes) (size off : Z) : result bytes :=
  if off + size <=? blen f then Ok (take (Z.to_nat size) (drop (Z.to_nat off) f))
  else Err EEOF.

(** ** Pages *)

(** The points where [createPageLocked] can fail. *)
Inductive pageFault :=
  | FMkdir | FOpenTmp | FWriteTmp | FCloseTmp | FRename | FReopen.

#[export] Instance pageFault_eq_dec : EqDecision pageFault.
Proof. solve_decision. Defined.

Record putFaults := mkPutFaults {
  pf_page : option (pageFault * goerr);
  pf_write : option (nat * goerr);  (* the bytes written before the error *)
}.

Definition noFaults : putFaults := mkPutFaults None None.

(** [writeZeroes]: chunks of at most 1 MB until [n] bytes are written; [f] is
    what the file holds, the number of chunks left is the fuel. *)
Fixpoint writeZeroes_loop (fuel : nat) (n written : Z) (f : bytes) : bytes :=
  match fuel with
  | O => f
  | S fuel' =>
      if written <? n then
        let chunk := Z.min (Z.min n (2 ^ 20)) (n - written) in
        writeZeroes_loop fuel' n (written + chunk) (f ++ replicate (Z.to_nat chunk) zero)
      else f
  end.

Definition writeZeroes (n : Z) : bytes :=
  writeZeroes_loop (S (Z.to_nat (n / 2 ^ 20))) n 0 [].

Definition tmpPageName (path pid : bytes) (seqNo : Z) : bytes :=
  path ++ #".tmp." ++ pid ++ #"." ++ itoa seqNo.

Definition createPageLocked (p : Pool) (pid : bytes) (c : class) (pageNum : Z)
    (flt : option (pageFault * goerr)) : Pool * result page :=
  match flt with
  | Some (FMkdir, e) => (p, Err e)
  | _ =>
    let path := pageFileName (recordSize c) pageNum in
    let p := bump_writeSeq p in
    let tmp := tmpPageName path pid (writeSeq p) in
    if bool_decide (is_Some (disk p !! tmp)) then (p, Err (EMsg "create pool page"))
    else match flt with
    | Some (FOpenTmp, e) => (p, Err e)
    | Some (FWriteTmp, e) => (p, Err e)
    | Some (FCloseTmp, e) => (p, Err e)
    | Some (FRename, e) => (p, Err e)
    | _ =>
      let content := writeZeroes (capacity c * recordSize c) in
      let p := set_disk p (<[path := content]> (disk p)) in
      match flt with
      | Some (_, e) => (p, Err e)
      | None => (p, Ok (mkPage path (reverse (slots (capacity c)))))
      end
    end
  end.

(** The scan of [allocateLocked] over the pages from [pn] on; the number of
    pages left is the fuel. *)
Fixpoint scanPages (c : class) (fuel : nat) (pn : Z) : option (Z * page * Z * list Z) :=
  match fuel with
  | O => None
  | S fuel' =>
      if pn <=? nextPage c then
        match pages c !! pn with
        | Some pg =>
            match pg_free pg with
            | slot :: rest => Some (pn, pg, slot, rest)
            | [] => scanPages c fuel' (pn + 1)
            end
        | None => scanPages c fuel' (pn + 1)
        end
      else None
  end.

Definition allocateLocked (p : Pool) (pid : bytes) (c : class)
    (flt : option (pageFault * goerr)) : Pool * class * result (Z * Z) :=
  match scanPages c (Z.to_nat (nextPage c)) 1 with
  | Some (pn, pg, slot, rest) =>
      (p, set_pages c (<[pn := mkPage (pg_file pg) rest]> (pages c)), Ok (pn, slot))
  | None =>
      let n := u32 (nextPage c + 1) in
      match createPageLocked p pid (set_nextPage c n) n flt with
      | (p, Err e) => (p, c, Err e)
      | (p, Ok pg) =>
          match pg_free pg with
          | [] => (p, mkClass (recordSize c) (capacity c) (<[n := pg]> (pages c)) n,
                   Err (EPanic "index out of range"))
          | slot :: rest =>
              (p, mkClass (recordSize c) (capacity c)
                    (<[n := mkPage (pg_file pg) rest]> (pages c)) n, Ok (n, slot))
          end
      end
  end.

(** Push the slot; delete the page once every slot of it is free. *)
Definition freeLocked (p : Pool) (c : class) (pageNum slot : Z) : Pool * class :=
  match pages c !! pageNum with
  | None => (p, c)
  | Some pg =>
      let free := slot :: pg_free pg in
      if Z.of_nat (length free) <? capacity c then
        (p, set_pages c (<[pageNum := mkPage (pg_file pg) free]> (pages c)))
      else
        (set_disk p (delete (pageFileName (recordSize c) pageNum) (disk p)),
         set_pages c (delete pageNum (pages c)))
  end.

(** ** Operations *)

Definition put_class (p : Pool) (size : Z) (c : class) : Pool :=
  set_classes p (<[size := c]> (classes p)).

(** The second half of [Put]: a slot of the promoted class [c], and the write. *)
Definition putInClass (p : Pool) (pid : bytes) (size : Z) (c : class) (body : bytes)
    (flt : putFaults) : Pool * result (option Loc) :=
  match allocateLocked p pid c (pf_page flt) with
  | (p, c, Err e) => (put_class p size c, Err e)
  | (p, c, Ok (pn, slot)) =>
    match pages c !! pn with
    | None => (put_class p size c, Err (EPanic "nil page"))
    | Some pg =>
      let old := default [] (disk p !! pg_file pg) in
      match pf_write flt with
      | Some (n, e) =>
          let p := set_disk p (<[pg_file pg := writeAt old (take n body) (slot * size)]> (disk p)) in
          let '(p, c) := freeLocked p c pn slot in
          (put_class p size c, Err e)
      | None =>
          let p := set_disk p (<[pg_file pg := writeAt old body (slot * size)]> (disk p)) in
          (put_class p size c, Ok (Some (mkLoc pn slot)))
      end
    end
  end.

(** [Put]: [Ok None] is the code's [ok == false]. *)
Definition Put (p : Pool) (pid : bytes) (size : Z) (body : bytes) (flt : putFaults)
    : Pool * result (option Loc) :=
  if (size <=? 0) || (maxRecordBytes p <? size) || negb (blen body =? size) then (p, Ok None)
  else match classes p !! size with
  | Some c => putInClass p pid size c body flt
  | None =>
      let n := default 0 (counts p !! size) + 1 in
      let p := set_counts p (<[size := n]> (counts p)) in
      if n <? breakeven p then (p, Ok None)
      else
        let c := mkClass size (u32 (Z.quot (pageBytes p) size)) ∅ 0 in
        let p := set_counts (put_class p size c) (delete size (counts p)) in
        putInClass p pid size c body flt
  end.

Definition Read (p : Pool) (size : Z) (l : Loc) : result bytes :=
  match classes p !! size with
  | None => Err (EMsg "unknown class")
  | Some c =>
      match pages c !! Page l with
      | None => Err (EMsg "unknown page")
      | Some pg => readAt (default [] (disk p !! pg_file pg)) size (Slot l * size)
      end
  end.

Definition Free (p : Pool) (size : Z) (l : Loc) : Pool :=
  match classes p !! size with
  | None => p
  | Some c =>
      let '(p, c) := freeLocked p c (Page l) (Slot l) in put_class p size c
  end.

(** Every index entry of the caller, in turn: a pool-backed one is noted. *)
Definition noteAll (p : Pool) (ks : list (Z * Loc)) : Pool :=
  foldl (fun p k => NoteOccupied p k.1 k.2) p ks.

(** ** File contents *)

Lemma writeZeroes_loop_spec fuel n written f :
  0 <= written <= n -> n - written <= Z.of_nat fuel * 2 ^ 20 ->
  writeZeroes_loop fuel n written f = f ++ replicate (Z.to_nat (n - written)) zero.
Proof.
  revert written f. induction fuel as [|fuel IH]; intros written f Hw Hf; simpl.
  - replace (n - written) with 0 by lia. by rewrite app_nil_r.
  - destruct (written <? n) eqn:E; go_bool.
    + rewrite IH by lia. rewrite <-app_assoc. f_equal.
      rewrite <-replicate_add. f_equal. lia.
    + replace (n - written) with 0 by lia. by rewrite app_nil_r.
Qed.

Lemma writeZeroes_spec n : 0 <= n -> writeZeroes n = replicate (Z.to_nat n) zero.
Proof.
  intros Hn. unfold writeZeroes.
  rewrite writeZeroes_loop_spec; [by rewrite Z.sub_0_r|lia|].
  assert (Hd := Z.div_mod n (2 ^ 20) ltac:(lia)).
  assert (Hm := Z.mod_pos_bound n (2 ^ 20) ltac:(lia)).
  assert (0 <= n / 2 ^ 20) by (apply Z.div_pos; lia). lia.
Qed.

Lemma blen_app a b : blen (a ++ b) = blen a + blen b.
Proof. unfold blen. rewrite length_app. lia. Qed.

Lemma writeAt_length f b off :
  0 <= off -> off + blen b <= blen f -> blen (writeAt f b off) = blen f.
Proof.
  unfold writeAt, blen. intros Ho Hb.
  rewrite !length_app, length_take, length_drop, length_app, length_replicate. lia.
Qed.

(** Reading back what was written, and what was written elsewhere. *)
Lemma readAt_writeAt f b off :
  0 <= off -> off + blen b <= blen f -> readAt (writeAt f b off) (blen b) off = Ok b.
Proof.
  intros Ho Hb. unfold readAt. rewrite writeAt_length by done.
  rewrite (proj2 (Z.leb_le _ _)) by done. f_equal.
  unfold writeAt, blen in *. replace (Z.to_nat off - length f)%nat with 0%nat by lia.
  simpl. rewrite app_nil_r.
  rewrite drop_app_length' by (rewrite length_take; lia).
  by rewrite take_app_length' by lia.
Qed.

Lemma readAt_writeAt_ne f b off size off' :
  0 <= off -> off + blen b <= blen f -> 0 <= off' -> 0 <= size ->
  off' + size <= off \/ off + blen b <= off' ->
  readAt (writeAt f b off) size off' = readAt f size off'.
Proof.
  intros Ho Hb Ho' Hs Hd. unfold readAt. rewrite writeAt_length by done.
  case_match; [|done]. go_bool. f_equal. apply list_eq. intros i.
  destruct (decide (i < Z.to_nat size)%nat) as [Hi|Hi].
  - rewrite !lookup_take_lt, !lookup_drop by done.
    unfold writeAt, blen in *. replace (Z.to_nat off - length f)%nat with 0%nat by lia.
    simpl. rewrite app_nil_r. destruct Hd as [Hd|Hd].
    + rewrite lookup_app_l by (rewrite length_take; lia). by rewrite lookup_take_lt by lia.
    + rewrite lookup_app_r by (rewrite length_take; lia).
      rewrite length_take, lookup_app_r by lia. rewrite lookup_drop. f_equal. lia.
  - by rewrite !lookup_take_ge by lia.
Qed.

(** ** Page names *)

Lemma pageNameRe_pageFileName size n :
  0 <= size -> 0 <= n -> pageNameRe (pageFileName size n) = Some (itoa size, itoa n).
Proof.
  intros Hs Hn. destruct (itoa_digits size Hs) as [Ds Es].
  destruct (itoa_digits n Hn) as [Dn En]. unfold pageNameRe, pageFileName.
  rewrite HasPrefix_app.
  change (drop 8 (#"records." ++ ?x)) with x.
  rewrite span_digits_app by done.
  rewrite bool_decide_eq_false_2 by done. rewrite HasPrefix_app. simpl negb. cbn iota.
  change (drop 2 (#".p" ++ ?x)) with x.
  rewrite span_digits_app by done. by rewrite bool_decide_eq_false_2 by done.
Qed.

Lemma parseBelow_itoa bound n : 0 <= n < bound -> parseBelow bound (itoa n) = Some n.
Proof.
  intros Hn. unfold parseBelow. rewrite parse_itoa by lia.
  by rewrite (proj2 (Z.ltb_lt _ _)) by lia.
Qed.

Lemma pageFileName_inj s n s' n' :
  0 <= s -> 0 <= n -> 0 <= s' -> 0 <= n' ->
  pageFileName s n = pageFileName s' n' -> s = s' /\ n = n'.
Proof.
  intros Hs Hn Hs' Hn' E.
  assert (H := pageNameRe_pageFileName s n Hs Hn).
  rewrite E, pageNameRe_pageFileName in H by done. injection H as H1 H2.
  split; apply (inj Some); [rewrite <-(parse_itoa s), <-(parse_itoa s') by done|
    rewrite <-(parse_itoa n), <-(parse_itoa n') by done]; congruence.
Qed.

(** ** Invariant *)

Definition capOf (p : Pool) (s : Z) : Z := u32 (Z.quot (pageBytes p) s).

Definition getPage (p : Pool) (s n : Z) : option page :=
  match classes p !! s with Some c => pages c !! n | None => None end.

(** What every page directory of this pool holds. *)
Definition disk_ok (p : Pool) : Prop :=
  forall name f m1 m2 s n,
    disk p !! name = Some f -> pageNameRe name = Some (m1, m2) ->
    parseBelow (2 ^ 63) m1 = Some s -> 0 < s -> parseBelow (2 ^ 32) m2 = Some n ->
    name = pageFileName s n /\ capOf p s * s <= blen f.

Definition class_ok (p : Pool) (s : Z) (c : class) : Prop :=
  recordSize c = s /\ 0 < s < 2 ^ 63 /\ capacity c = capOf p s /\ 0 <= nextPage c < 2 ^ 32.

Definition page_ok (p : Pool) (s : Z) (c : class) (n : Z) (pg : page) : Prop :=
  0 <= n <= nextPage c /\ pg_file pg = pageFileName s n /\
  exists f, disk p !! pg_file pg = Some f /\ capOf p s * s <= blen f.

Record shape (p : Pool) : Prop := {
  sh_conf : 0 < maxRecordBytes p <= pageBytes p /\ pageBytes p < 2 ^ 32;
  sh_class s c : classes p !! s = Some c -> class_ok p s c;
  sh_page s c n pg :
    classes p !! s = Some c -> pages c !! n = Some pg -> page_ok p s c n pg;
  sh_disk : disk_ok p;
}.

(** A free stack: distinct slots of the page. *)
Definition stack_ok (cap : Z) (l : list Z) : Prop :=
  NoDup l /\ Forall (fun s => 0 <= s < cap) l.

Record wf (p : Pool) : Prop := {
  wf_shape : shape p;
  wf_free s n pg : getPage p s n = Some pg -> stack_ok (capOf p s) (pg_free pg);
}.

(** A slot that is in use: the location resolves and is not free. *)
Definition live (p : Pool) (s : Z) (l : Loc) : Prop :=
  exists pg, getPage p s (Page l) = Some pg /\ Page l <> 0 /\
             0 <= Slot l < capOf p s /\ Slot l ∉ pg_free pg.

(** The abstract pool: a finite map from the locations handed out to the
    records stored there. *)
Definition models (p : Pool) (m : gmap (Z * Loc) bytes) : Prop :=
  (forall s l b, m !! (s, l) = Some b -> live p s l /\ Read p s l = Ok b) /\
  (forall s l, live p s l -> is_Some (m !! (s, l))).

(** ** Elementary steps *)

Lemma capOf_bound p s :
  shape p -> 0 < s -> 0 <= capOf p s < 2 ^ 32 /\ capOf p s = pageBytes p / s.
Proof.
  intros [[? ?] _ _ _] Hs. unfold capOf.
  rewrite Z.quot_div_nonneg by lia.
  assert (0 <= pageBytes p / s <= pageBytes p).
  { split; [apply Z.div_pos; lia|]. apply Z.div_le_upper_bound; nia. }
  rewrite u32_id; lia.
Qed.

Lemma getPage_Some p s n pg :
  getPage p s n = Some pg <-> exists c, classes p !! s = Some c /\ pages c !! n = Some pg.
Proof.
  unfold getPage. destruct (classes p !! s) as [c|]; split.
  - eauto.
  - intros (? & [= ->] & ?). done.
  - done.
  - by intros (? & ? & ?).
Qed.

Lemma getPage_put_class p s c s' n :
  getPage (put_class p s c) s' n = if decide (s' = s) then pages c !! n else getPage p s' n.
Proof.
  unfold getPage, put_class, set_classes. simpl. case_decide.
  - subst. by rewrite lookup_insert_eq.
  - by rewrite lookup_insert_ne by done.
Qed.

Lemma Read_getPage p s l :
  Read p s l =
  match classes p !! s, getPage p s (Page l) with
  | None, _ => Err (EMsg "unknown class")
  | _, None => Err (EMsg "unknown page")
  | _, Some pg => readAt (default [] (disk p !! pg_file pg)) s (Slot l * s)
  end.
Proof. unfold Read, getPage. destruct (classes p !! s); done. Qed.

Lemma shape_put_class p s c :
  shape p -> class_ok p s c ->
  (forall n pg, pages c !! n = Some pg -> page_ok p s c n pg) ->
  shape (put_class p s c).
Proof.
  intros [Hc Hcl Hp Hd] Hcs Hps. split; [done|..|done].
  - intros s' c'. simpl. intros [[-> <-]|[? ?]]%lookup_insert_Some; [done|]. by apply Hcl.
  - intros s' c' n pg. simpl.
    intros [[-> <-]|[? ?]]%lookup_insert_Some ?; [by apply Hps | by eapply Hp].
Qed.

Lemma shape_write p s n f :
  shape p -> 0 < s -> 0 <= n -> capOf p s * s <= blen f ->
  shape (set_disk p (<[pageFileName s n := f]> (disk p))).
Proof.
  intros [Hc Hcl Hp Hd] Hs Hn Hf. split; [done|done|..].
  - intros s' c' n' pg Hc' Hpg. destruct (Hp _ _ _ _ Hc' Hpg) as (Hb & Hn' & f' & Hf' & Hl).
    split; [done|]. split; [done|]. simpl.
    destruct (decide (pg_file pg = pageFileName s n)) as [E|E].
    + rewrite E, lookup_insert_eq. exists f. split; [done|].
      rewrite Hn' in E. destruct (Hcl _ _ Hc') as (_ & ? & _).
      apply pageFileName_inj in E as [-> ->]; [done|lia..].
    + rewrite lookup_insert_ne by done. by exists f'.
  - intros name g m1 m2 s' n'. simpl.
    intros [[<- <-]|[? ?]]%lookup_insert_Some; [|by eapply Hd].
    rewrite pageNameRe_pageFileName by lia. intros [= <- <-].
    unfold parseBelow. rewrite !parse_itoa by lia.
    intros H1 Hs' H2. repeat case_match; simplify_eq. done.
Qed.

Lemma shape_remove p s n :
  shape p -> getPage p s n = None -> 0 < s -> 0 <= n ->
  shape (set_disk p (delete (pageFileName s n) (disk p))).
Proof.
  intros [Hc Hcl Hp Hd] Hg Hs Hn. split; [done|done|..].
  - intros s' c' n' pg Hc' Hpg. destruct (Hp _ _ _ _ Hc' Hpg) as (Hb & Hn' & f' & Hf' & Hl).
    split; [done|]. split; [done|]. simpl. exists f'. split; [|done].
    rewrite lookup_delete_ne; [done|]. rewrite Hn'. intros E.
    destruct (Hcl _ _ Hc') as (_ & ? & _).
    apply pageFileName_inj in E as [-> ->]; [|lia..].
    assert (getPage p s' n' = Some pg) by (apply getPage_Some; eauto). congruence.
  - intros name g m1 m2 s' n'. simpl. intros [_ ?]%lookup_delete_Some. by eapply Hd.
Qed.

(** Replacing the free stack of one page. *)
Definition set_free (p : Pool) (s n : Z) (free : list Z) : Pool :=
  match classes p !! s with
  | Some c =>
      match pages c !! n with
      | Some pg => put_class p s (set_pages c (<[n := mkPage (pg_file pg) free]> (pages c)))
      | None => p
      end
  | None => p
  end.

Lemma getPage_set_free p s n free s' n' :
  getPage (set_free p s n free) s' n' =
  if decide (s' = s /\ n' = n)
  then (fun pg => mkPage (pg_file pg) free) <$> getPage p s n else getPage p s' n'.
Proof.
  unfold set_free. destruct (classes p !! s) as [c|] eqn:Hc.
  - destruct (pages c !! n) as [pg|] eqn:Hpg.
    + rewrite getPage_put_class. assert (getPage p s n = Some pg) as Hg.
      { apply getPage_Some. eauto. }
      case_decide as Hs; case_decide as Hb; try naive_solver.
      * destruct Hb as [-> ->]. simpl. by rewrite lookup_insert_eq, Hg.
      * subst. simpl. rewrite lookup_insert_ne by naive_solver.
        unfold getPage. by rewrite Hc.
    + case_decide as Hb; [|done]. destruct Hb as [-> ->].
      unfold getPage. by rewrite Hc, Hpg.
  - case_decide as Hb; [|done]. destruct Hb as [-> ->]. unfold getPage. by rewrite Hc.
Qed.

Lemma shape_set_free p s n free : shape p -> shape (set_free p s n free).
Proof.
  intros Hp. unfold set_free. repeat (case_match; [|done]).
  apply shape_put_class; [done|exact (sh_class _ Hp s c H)|].
  intros n' pg'. simpl. intros [[<- <-]|[? Hpg]]%lookup_insert_Some.
  - exact (sh_page _ Hp s c n _ H H0).
  - exact (sh_page _ Hp s c n' _ H Hpg).
Qed.

Lemma disk_set_free p s n free : disk (set_free p s n free) = disk p.
Proof. unfold set_free. by repeat case_match. Qed.

Lemma capOf_set_free p s n free s' : capOf (set_free p s n free) s' = capOf p s'.
Proof. unfold set_free. by repeat case_match. Qed.

Lemma wf_set_free p s n free :
  wf p -> stack_ok (capOf p s) free -> wf (set_free p s n free).
Proof.
  intros [Hp Hf] Ho. split; [by apply shape_set_free|].
  intros s' n' pg. rewrite getPage_set_free, capOf_set_free.
  case_decide as Hd; [|by apply Hf]. destruct Hd as [-> ->].
  destruct (getPage p s n); simpl; [|done]. by intros [= <-].
Qed.

(** A location other than one of page [n] of size [s] is not concerned. *)
Lemma live_set_free p s n free s' l :
  live (set_free p s n free) s' l <->
  if decide (s' = s /\ Page l = n)
  then is_Some (getPage p s n) /\ n <> 0 /\ 0 <= Slot l < capOf p s /\ Slot l ∉ free
  else live p s' l.
Proof.
  unfold live. rewrite capOf_set_free, getPage_set_free.
  case_decide as Hd; [|done]. destruct Hd as [-> <-]. split.
  - intros (pg & Hg & ? & ? & Hf). destruct (getPage p s (Page l)); [|done].
    injection Hg as <-. eauto.
  - intros ([pg ->] & ? & ? & ?). simpl. by eexists.
Qed.

Lemma classes_set_free p s n free s' :
  is_Some (classes (set_free p s n free) !! s') <-> is_Some (classes p !! s').
Proof.
  unfold set_free. destruct (classes p !! s) eqn:E; [|done]. case_match; [|done].
  unfold put_class. simpl. destruct (decide (s' = s)) as [->|].
  - rewrite lookup_insert_eq, E. done.
  - by rewrite lookup_insert_ne.
Qed.

(** Adding an empty-handed page under a fresh number. *)
Definition add_page (p : Pool) (s n : Z) (c : class) (pg : page) : Pool :=
  put_class p s (mkClass (recordSize c) (capacity c) (<[n := pg]> (pages c)) n).

Lemma getPage_add_page p s n c pg s' n' :
  classes p !! s = Some c ->
  getPage (add_page p s n c pg) s' n' =
  if decide (s' = s /\ n' = n) then Some pg else getPage p s' n'.
Proof.
  intros Hc. unfold add_page. rewrite getPage_put_class. simpl.
  case_decide as Hs; case_decide as Hb; try naive_solver.
  - destruct Hb as [-> ->]. by rewrite lookup_insert_eq.
  - subst. rewrite lookup_insert_ne by naive_solver. unfold getPage. by rewrite Hc.
Qed.

Lemma shape_add_page p s n c f free :
  shape p -> classes p !! s = Some c -> nextPage c < n < 2 ^ 32 ->
  disk p !! pageFileName s n = Some f -> capOf p s * s <= blen f ->
  shape (add_page p s n c (mkPage (pageFileName s n) free)).
Proof.
  intros Hp Hc Hn Hf Hl. destruct (sh_class _ Hp _ _ Hc) as (H1 & H2 & H3 & H4).
  apply shape_put_class; [done| |].
  - unfold class_ok. simpl. repeat split; lia || done.
  - intros n' pg. simpl. intros [[<- <-]|[? Hpg]]%lookup_insert_Some.
    + unfold page_ok. simpl. repeat split; eauto; lia.
    + destruct (sh_page _ Hp _ _ _ _ Hc Hpg) as (? & ? & ?).
      unfold page_ok. simpl. split_and!; try done; lia.
Qed.

(** Deleting a page. *)
Lemma getPage_del_page p s n c s' n' :
  classes p !! s = Some c ->
  getPage (put_class p s (set_pages c (delete n (pages c)))) s' n' =
  if decide (s' = s /\ n' = n) then None else getPage p s' n'.
Proof.
  intros Hc. rewrite getPage_put_class. simpl.
  case_decide as Hs; case_decide as Hb; try naive_solver.
  - destruct Hb as [-> ->]. by rewrite lookup_delete_eq.
  - subst. rewrite lookup_delete_ne by naive_solver. unfold getPage. by rewrite Hc.
Qed.

Lemma shape_del_page p s n c :
  shape p -> classes p !! s = Some c ->
  shape (put_class p s (set_pages c (delete n (pages c)))).
Proof.
  intros Hp Hc. apply shape_put_class; [done|exact (sh_class _ Hp s c Hc)|].
  intros n' pg. simpl. intros [_ Hpg]%lookup_delete_Some. exact (sh_page _ Hp s c n' _ Hc Hpg).
Qed.

(** The bytes of a live location lie in its page's file. *)
Lemma live_file p s l :
  shape p -> live p s l ->
  exists pg f, getPage p s (Page l) = Some pg /\ pg_file pg = pageFileName s (Page l) /\
    disk p !! pageFileName s (Page l) = Some f /\
    0 < s < 2 ^ 63 /\ 0 < Page l < 2 ^ 32 /\ 0 <= Slot l * s /\ Slot l * s + s <= blen f /\
    Read p s l = readAt f s (Slot l * s).
Proof.
  intros Hp (pg & Hg & Hn & Hs & _). pose proof Hg as Hg'.
  apply getPage_Some in Hg' as (c & Hc & Hpg).
  destruct (sh_class _ Hp _ _ Hc) as (H1 & H2 & H3 & H4).
  destruct (sh_page _ Hp _ _ _ _ Hc Hpg) as (H5 & H6 & f & H7 & H8).
  exists pg, f. rewrite Read_getPage, Hc, Hg. rewrite H6 in *. rewrite H7.
  repeat split; try done; try lia; nia.
Qed.

Lemma live_readable p s l :
  shape p -> live p s l -> exists b, Read p s l = Ok b /\ blen b = s.
Proof.
  intros Hp Hl. destruct (live_file p s l Hp Hl) as (pg & f & _ & _ & _ & ? & _ & ? & ? & ->).
  unfold readAt. rewrite (proj2 (Z.leb_le _ _)) by done. eexists. split; [done|].
  unfold blen in *. rewrite length_take, length_drop. lia.
Qed.

(** Reading depends on the page's file only. *)
Lemma Read_file p p' s l pg :
  getPage p s (Page l) = Some pg -> getPage p' s (Page l) = Some pg ->
  disk p !! pg_file pg = disk p' !! pg_file pg -> Read p s l = Read p' s l.
Proof.
  intros Hg Hg' Hd. rewrite !Read_getPage, Hg, Hg', Hd.
  apply getPage_Some in Hg as (c & -> & _). by apply getPage_Some in Hg' as (c' & -> & _).
Qed.

Lemma Read_set_free p s n free s' l : Read (set_free p s n free) s' l = Read p s' l.
Proof.
  rewrite !Read_getPage, getPage_set_free, disk_set_free.
  assert (H := classes_set_free p s n free s').
  destruct (classes (set_free p s n free) !! s') eqn:E1, (classes p !! s') eqn:E2; try done.
  - case_decide as Hd; [|done]. destruct Hd as [-> ->]. by destruct (getPage p s n).
  - exfalso. apply (is_Some_None (A:=class)), H. eauto.
  - exfalso. apply (is_Some_None (A:=class)), H. eauto.
Qed.

(** Two live locations are different stretches of bytes. *)
Lemma slot_disjoint a b s : 0 < s -> a <> b -> a * s + s <= b * s \/ b * s + s <= a * s.
Proof. intros. destruct (decide (a < b)); [left|right]; nia. Qed.

(** Pools that agree on everything but the counters. *)
Definition core (p : Pool) := (maxRecordBytes p, pageBytes p, classes p, disk p).

Lemma core_shape p q : core p = core q -> shape p -> shape q.
Proof. destruct p, q. intros [= -> -> -> ->] [????]. by split. Qed.

Lemma core_wf p q : core p = core q -> wf p -> wf q.
Proof.
  intros E [Hp Hf]. split; [by eapply core_shape|].
  destruct p, q. injection E as -> -> -> ->. exact Hf.
Qed.

Lemma core_live p q s l : core p = core q -> live p s l -> live q s l.
Proof. destruct p, q. by intros [= -> -> -> ->]. Qed.

Lemma core_Read p q s l : core p = core q -> Read p s l = Read q s l.
Proof. destruct p, q. by intros [= -> -> -> ->]. Qed.

(** ** Views *)

(** Two pools with the same records at the same locations. *)
Definition view_eq (p q : Pool) : Prop :=
  forall s l, (live p s l <-> live q s l) /\ (live p s l -> Read p s l = Read q s l).

#[export] Instance view_eq_equiv : Equivalence view_eq.
Proof.
  split.
  - intros p s l. done.
  - intros p q H s l. destruct (H s l) as [Hl Hr]. split; [done|].
    intros Hq. symmetry. apply Hr. tauto.
  - intros p q r H H' s l. destruct (H s l) as [Hl Hr], (H' s l) as [Hl' Hr'].
    split; [tauto|]. intros Hp. rewrite Hr by done. apply Hr'. tauto.
Qed.

#[export] Instance models_proper : Proper (view_eq ==> eq ==> iff) models.
Proof.
  intros p q H m _ <-. unfold models.
  enough (Hi : forall p q, view_eq p q ->
    (forall s l b, m !! (s, l) = Some b -> live p s l /\ Read p s l = Ok b) /\
    (forall s l, live p s l -> is_Some (m !! (s, l))) ->
    (forall s l b, m !! (s, l) = Some b -> live q s l /\ Read q s l = Ok b) /\
    (forall s l, live q s l -> is_Some (m !! (s, l)))).
  { split; apply Hi; [done|by symmetry]. }
  clear. intros p q H [H1 H2]. split.
  - intros s l b Hb. destruct (H1 s l b Hb) as [Hl Hr], (H s l) as [H3 H4].
    split; [tauto|]. by rewrite <-H4.
  - intros s l Hl. apply H2. apply H, Hl.
Qed.

Lemma core_view p q : core p = core q -> view_eq p q.
Proof.
  intros E s l. split; [split; by apply core_live|]. intros _. by apply core_Read.
Qed.

(** [q] has the records of [p] and one more, at [k]. *)
Definition view_plus (p q : Pool) (k : Z * Loc) : Prop :=
  ~ live p k.1 k.2 /\
  forall s l, (live q s l <-> (s, l) = k \/ live p s l) /\
              (live p s l -> Read q s l = Read p s l).

Lemma view_plus_eq p p' q k : view_plus p q k -> view_plus p' q k -> view_eq p p'.
Proof.
  intros [Hn H] [Hn' H'] s l. destruct (H s l) as [Hl Hr], (H' s l) as [Hl' Hr'].
  assert ((s, l) = k -> ~ live p s l) by (by intros <-).
  assert ((s, l) = k -> ~ live p' s l) by (by intros <-).
  assert (Hi : live p s l <-> live p' s l) by tauto.
  split; [done|]. intros Hp. rewrite <-Hr by done. apply Hr'. tauto.
Qed.

Lemma models_insert p q s l b m :
  models p m -> view_plus p q (s, l) -> Read q s l = Ok b ->
  m !! (s, l) = None /\ models q (<[(s, l) := b]> m).
Proof.
  intros [H1 H2] [Hn H] Hb. simpl in Hn.
  assert (Hm : m !! (s, l) = None).
  { destruct (m !! (s, l)) eqn:E; [|done]. by apply H1 in E as [? _]. }
  split; [done|]. split.
  - intros s' l' b'. intros [[[= -> ->] ->]|[Hne Hb']]%lookup_insert_Some.
    + split; [apply H; by left|done].
    + destruct (H1 _ _ _ Hb') as [Hl Hr]. split; [apply H; by right|].
      by rewrite (proj2 (H s' l')).
  - intros s' l' Hl. apply H in Hl as [[= -> ->]|Hl].
    + rewrite lookup_insert_eq. eauto.
    + apply H2 in Hl. by apply lookup_insert_is_Some'; right.
Qed.

Lemma models_delete p q k m :
  models q m -> view_plus p q k -> models p (delete k m).
Proof.
  intros [H1 H2] [Hn H]. split.
  - intros s l b [Hne Hb]%lookup_delete_Some. destruct (H1 _ _ _ Hb) as [Hl Hr].
    apply H in Hl as [E|Hl]; [congruence|]. split; [done|].
    by rewrite <-(proj2 (H s l)).
  - intros s l Hl. assert (live q s l) as Hq by (apply H; by right).
    apply H2 in Hq. destruct k as [s' l']. rewrite lookup_delete_ne; [done|].
    intros [= -> ->]. done.
Qed.

(** Writing inside the bytes of one location. *)
Lemma write_slot p s l b :
  wf p -> live p s l -> blen b <= s ->
  exists f, disk p !! pageFileName s (Page l) = Some f /\
  let q := set_disk p (<[pageFileName s (Page l) := writeAt f b (Slot l * s)]> (disk p)) in
  wf q /\ (forall s' l', live q s' l' <-> live p s' l') /\
  (forall s' l', live p s' l' -> (s', l') <> (s, l) -> Read q s' l' = Read p s' l') /\
  (blen b = s -> Read q s l = Ok b).
Proof.
  intros Hw Hl Hb. destruct Hw as [Hp Hf].
  destruct (live_file p s l Hp Hl) as (pg & f & Hg & Hfn & Hd & Hs & Hn & Ho & Hle & Hr).
  exists f. split; [done|]. intros q.
  assert (Hcap : capOf p s * s <= blen f).
  { apply getPage_Some in Hg as (c & Hc & Hpg).
    destruct (sh_page _ Hp _ _ _ _ Hc Hpg) as (_ & E & f' & Hf' & ?).
    rewrite E, Hd in Hf'. by injection Hf' as <-. }
  assert (Hq : shape q).
  { apply shape_write; [done|lia..|]. by rewrite writeAt_length by lia. }
  split; [by split|]. split; [done|]. split.
  - intros s' l' Hl' Hne.
    destruct (live_file p s' l' Hp Hl') as (pg' & f' & Hg' & Hfn' & Hd' & Hs' & Hn' & Ho' & Hle' & Hr').
    destruct (live_file q s' l' Hq Hl') as (pg2 & f2 & Hg2 & _ & Hd2 & _ & _ & _ & _ & Hr2).
    rewrite Hr', Hr2. simpl in Hd2.
    destruct (decide (pageFileName s' (Page l') = pageFileName s (Page l))) as [E|E].
    + rewrite E, lookup_insert_eq in Hd2. injection Hd2 as <-.
      apply pageFileName_inj in E as [-> EP]; [|lia..].
      assert (f' = f) as -> by congruence.
      apply readAt_writeAt_ne; [lia..|].
      assert (Slot l' <> Slot l).
      { intros ES. apply Hne. f_equal. destruct l, l'. simpl in *. congruence. }
      destruct (slot_disjoint (Slot l') (Slot l) s); [lia|done|by left|right; lia].
    + rewrite lookup_insert_ne in Hd2 by congruence.
      assert (f' = f2) as -> by congruence. done.
  - intros <-. destruct (live_file q (blen b) l Hq Hl) as (pg2 & f2 & _ & _ & Hd2 & _ & _ & _ & _ & ->).
    simpl in Hd2. rewrite lookup_insert_eq in Hd2. injection Hd2 as <-.
    by apply readAt_writeAt.
Qed.

(** ** Free *)

(** A stack of [cap] distinct slots of a page of [cap] slots has them all. *)
Lemma stack_full cap l s :
  stack_ok cap l -> cap <= Z.of_nat (length l) -> 0 <= s < cap -> s ∈ l.
Proof.
  intros [Hnd Hr] Hl Hs. assert (Hin : l ⊆+ slots cap).
  { apply NoDup_submseteq; [done|]. intros x Hx. unfold slots. apply elem_of_seqZ.
    rewrite Forall_forall in Hr. specialize (Hr _ Hx). lia. }
  assert (l ≡ₚ slots cap) as ->.
  { apply submseteq_length_Permutation; [done|]. unfold slots. rewrite length_seqZ. lia. }
  unfold slots. apply elem_of_seqZ. lia.
Qed.

Lemma stack_push cap l s :
  stack_ok cap l -> 0 <= s < cap -> s ∉ l -> stack_ok cap (s :: l).
Proof. intros [Hnd Hr] Hs Hn. by split; constructor. Qed.

(** The page keeps records: only its stack grows. *)
Lemma set_free_push_view p s l pg :
  wf p -> live p s l -> getPage p s (Page l) = Some pg ->
  let q := set_free p s (Page l) (Slot l :: pg_free pg) in
  wf q /\ view_plus q p (s, l).
Proof.
  intros Hw Hl Hg q. assert (Hl0 := Hl). destruct Hl0 as (pg0 & Hg0 & Hn & Hs & Hf).
  assert (pg0 = pg) as -> by congruence. clear Hg0.
  split; [apply wf_set_free; [done|]; apply stack_push; [by eapply wf_free|done..]|]. split.
  - simpl. unfold q. rewrite live_set_free, decide_True by done. set_solver.
  - intros s' l'. unfold q. rewrite live_set_free, Read_set_free. split; [|done].
    case_decide as Hd; [destruct Hd as [-> Hd]|split; [auto|]].
    + split.
      * intros Hl'. destruct (decide (l' = l)) as [->|Hne]; [by left|right].
        destruct Hl' as (pg' & Hg' & ? & ? & Hf'). rewrite Hd in *.
        assert (pg' = pg) as -> by congruence. do 3 (split; [by eauto|]).
        apply not_elem_of_cons. split; [|done]. intros ES. apply Hne.
        destruct l, l'. simpl in *. congruence.
      * intros [[= ->]|(_ & _ & ? & Hf')]; [done|].
        apply not_elem_of_cons in Hf' as [_ ?]. exists pg. rewrite Hd. done.
    + intros [[= -> ->]|?]; [tauto|done].
Qed.

(** The page is empty: it goes away with its file. *)
Definition drop_page (p : Pool) (s n : Z) (c : class) : Pool :=
  set_disk (put_class p s (set_pages c (delete n (pages c))))
    (delete (pageFileName s n) (disk p)).

Lemma getPage_drop_page p s n c s' n' :
  classes p !! s = Some c ->
  getPage (drop_page p s n c) s' n' =
  if decide (s' = s /\ n' = n) then None else getPage p s' n'.
Proof. intros Hc. by apply getPage_del_page. Qed.

Lemma wf_drop_page p s n c :
  wf p -> classes p !! s = Some c -> 0 <= n -> wf (drop_page p s n c).
Proof.
  intros [Hp Hf] Hc Hn. destruct (sh_class _ Hp _ _ Hc) as (_ & ? & _). split.
  - apply (shape_remove (put_class p s (set_pages c (delete n (pages c))))); [|..|lia|done].
    + by apply shape_del_page.
    + rewrite getPage_del_page by done. by rewrite decide_True.
  - intros s' n' pg'. rewrite getPage_drop_page by done. case_decide; [done|]. apply Hf.
Qed.

Lemma drop_page_view p s l c pg :
  wf p -> live p s l -> classes p !! s = Some c -> getPage p s (Page l) = Some pg ->
  (forall x, 0 <= x < capOf p s -> x ∈ Slot l :: pg_free pg) ->
  view_plus (drop_page p s (Page l) c) p (s, l).
Proof.
  intros [Hp _] Hl Hc Hg Hfull.
  assert (Hlq : forall s' l', live (drop_page p s (Page l) c) s' l' <->
    live p s' l' /\ ~ (s' = s /\ Page l' = Page l)).
  { intros s' l'. unfold live. rewrite getPage_drop_page by done.
    change (capOf (drop_page p s (Page l) c) s') with (capOf p s'). case_decide; naive_solver. }
  split; [simpl; rewrite Hlq; tauto|]. intros s' l'. rewrite Hlq. split.
  - split.
    + intros Hl'. destruct (decide (s' = s /\ Page l' = Page l)) as [[-> EP]|]; [|auto].
      left. destruct Hl' as (pg' & Hg' & _ & Hs' & Hf').
      rewrite EP in Hg'. assert (pg' = pg) as -> by congruence.
      specialize (Hfull _ Hs'). apply elem_of_cons in Hfull as [ES|]; [|done].
      destruct l, l'. simpl in *. congruence.
    + by intros [[= -> ->]|[? _]].
  - intros [(pg' & Hg' & ?) Hne].
    apply (Read_file _ _ _ _ pg'); [done|by rewrite getPage_drop_page, decide_False|].
    apply getPage_Some in Hg' as (c' & Hc' & Hpg').
    destruct (sh_page _ Hp _ _ _ _ Hc' Hpg') as (? & -> & _).
    destruct (sh_class _ Hp _ _ Hc') as (_ & ? & _).
    destruct (sh_class _ Hp _ _ Hc) as (_ & ? & _).
    apply getPage_Some in Hg as (c2 & Hc2 & Hpg2).
    destruct (sh_page _ Hp _ _ _ _ Hc2 Hpg2) as (? & _).
    simpl. rewrite lookup_delete_ne; [done|]. intros E2. apply Hne.
    apply pageFileName_inj in E2 as [-> ->]; [done|lia..].
Qed.

Lemma Free_view p s l :
  wf p -> live p s l -> wf (Free p s l) /\ view_plus (Free p s l) p (s, l).
Proof.
  intros Hw Hl. assert (Hp := wf_shape _ Hw).
  assert (Hl0 := Hl). destruct Hl0 as (pg & Hg & Hn & Hs & Hf).
  assert (Hg' := Hg). apply getPage_Some in Hg' as (c & Hc & Hpg).
  destruct (sh_class _ Hp _ _ Hc) as (H1 & H2 & H3 & H4).
  unfold Free, freeLocked. rewrite Hc, Hpg, H1, H3.
  destruct (_ <? _) eqn:E; go_bool.
  - replace (put_class p s _) with (set_free p s (Page l) (Slot l :: pg_free pg))
      by (unfold set_free; by rewrite Hc, Hpg).
    by apply set_free_push_view.
  - change (put_class (set_disk p _) s _) with (drop_page p s (Page l) c).
    destruct (sh_page _ Hp _ _ _ _ Hc Hpg) as (H5 & _).
    split; [apply wf_drop_page; [done..|lia]|].
    apply (drop_page_view _ _ _ _ pg); try done. intros x Hx.
    eapply stack_full; [|done..]. apply stack_push; [by eapply wf_free|done..].
Qed.

(** ** Allocation *)

Lemma scanPages_Some c fuel pn n pg slot rest :
  scanPages c fuel pn = Some (n, pg, slot, rest) ->
  pn <= n <= nextPage c /\ pages c !! n = Some pg /\ pg_free pg = slot :: rest /\
  forall k pg', pn <= k < n -> pages c !! k = Some pg' -> pg_free pg' = [].
Proof.
  revert pn. induction fuel as [|fuel IH]; intros pn; simpl; [done|].
  destruct (pn <=? nextPage c) eqn:Hle; [go_bool|done].
  assert (Hrec : scanPages c fuel (pn + 1) = Some (n, pg, slot, rest) ->
    (forall pg', pages c !! pn = Some pg' -> pg_free pg' = []) ->
    pn <= n <= nextPage c /\ pages c !! n = Some pg /\ pg_free pg = slot :: rest /\
    forall k pg', pn <= k < n -> pages c !! k = Some pg' -> pg_free pg' = []).
  { intros (H1 & H2 & H3 & H4)%IH He. split; [lia|]. do 2 (split; [done|]).
    intros k pg' Hk. destruct (decide (k = pn)) as [->|]; [by apply He|].
    apply H4. lia. }
  destruct (pages c !! pn) as [pg0|] eqn:Hpg.
  - destruct (pg_free pg0) as [|s0 r0] eqn:Hfr.
    + intros H. apply Hrec; [done|]. congruence.
    + intros [= <- <- <- <-]. split_and!; try done; lia.
  - intros H. by apply Hrec.
Qed.

Lemma scanPages_None c fuel pn :
  scanPages c fuel pn = None -> nextPage c < pn + Z.of_nat fuel ->
  forall k pg, pn <= k <= nextPage c -> pages c !! k = Some pg -> pg_free pg = [].
Proof.
  revert pn. induction fuel as [|fuel IH]; intros pn; simpl; [lia|].
  destruct (pn <=? nextPage c) eqn:Hle; go_bool; [|lia].
  intros H Hf k pg Hk Hpg. destruct (decide (k = pn)) as [->|].
  - rewrite Hpg in H. by destruct (pg_free pg).
  - apply (IH (pn + 1)) with k; try done; try lia.
    destruct (pages c !! pn) as [pg0|]; [destruct (pg_free pg0)|]; done.
Qed.

(** What an allocation may do: hand out a fresh location of a well-formed
    pool, or fail and leave every record where it is. *)
Definition alloc_post (p q : Pool) (s : Z) (r : result (Z * Z)) : Prop :=
  wf q /\
  match r with
  | Ok (n, slot) => view_plus p q (s, mkLoc n slot) /\ live q s (mkLoc n slot)
  | Err _ => view_eq p q
  end.

Lemma pop_view p s n pg slot rest :
  wf p -> getPage p s n = Some pg -> n <> 0 -> pg_free pg = slot :: rest ->
  alloc_post p (set_free p s n rest) s (Ok (n, slot)).
Proof.
  intros Hw Hg Hn Hfr. assert (Hst := wf_free _ Hw _ _ _ Hg). rewrite Hfr in Hst.
  destruct Hst as [[Hni Hnd]%NoDup_cons [Hs Hr]%Forall_cons].
  split; [by apply wf_set_free|].
  assert (Hlq : live (set_free p s n rest) s (mkLoc n slot)).
  { apply live_set_free. rewrite decide_True by done. simpl. rewrite Hg. eauto. }
  split; [|done]. split.
  - intros (pg' & Hg' & _ & _ & Hf). simpl in *.
    assert (pg' = pg) as -> by congruence. rewrite Hfr in Hf. set_solver.
  - intros s' l'. rewrite Read_set_free. split; [|done]. split.
    + intros Hl'. destruct (decide ((s', l') = (s, mkLoc n slot))); [by left|right].
      apply live_set_free in Hl'. case_decide as Hd; [|done]. destruct Hd as [-> EP].
      destruct Hl' as (_ & ? & ? & ?). exists pg. rewrite EP, Hfr. split_and!; try done.
      all: try lia. apply not_elem_of_cons. split; [|done]. destruct l'. simpl in *. congruence.
    + intros [[= -> ->]|Hl']; [done|]. apply live_set_free. case_decide as Hd; [|done].
      destruct Hd as [-> EP]. destruct Hl' as (pg' & Hg' & ? & ? & Hf).
      rewrite EP in *. assert (pg' = pg) as -> by congruence.
      rewrite Hfr in Hf. apply not_elem_of_cons in Hf as [_ ?]. eauto.
Qed.

Lemma slots_ok cap : stack_ok cap (reverse (slots cap)).
Proof.
  unfold slots. split.
  - rewrite reverse_Permutation. apply NoDup_seqZ.
  - apply Forall_forall. intros x. rewrite elem_of_reverse, elem_of_seqZ. lia.
Qed.

(** A freshly created page has every slot free, so it holds no record. *)
Lemma add_page_view p s n c f :
  wf p -> classes p !! s = Some c -> nextPage c < n < 2 ^ 32 -> 0 < n ->
  disk p !! pageFileName s n = Some f -> capOf p s * s <= blen f ->
  let q := add_page p s n c (mkPage (pageFileName s n) (reverse (slots (capOf p s)))) in
  wf q /\ view_eq p q /\ getPage q s n = Some (mkPage (pageFileName s n) (reverse (slots (capOf p s)))).
Proof.
  intros [Hp Hf] Hc Hn Hn0 Hd Hl q.
  assert (Hq : forall s' n', getPage q s' n' = if decide (s' = s /\ n' = n)
    then Some (mkPage (pageFileName s n) (reverse (slots (capOf p s)))) else getPage p s' n').
  { intros. by apply getPage_add_page. }
  assert (Hno : getPage p s n = None).
  { destruct (getPage p s n) eqn:E; [|done]. apply getPage_Some in E as (c' & Hc' & Hpg).
    assert (c' = c) as -> by congruence.
    destruct (sh_page _ Hp _ _ _ _ Hc Hpg) as [? _]. lia. }
  split; [split|split].
  - by eapply shape_add_page.
  - intros s' n' pg. rewrite Hq. case_decide as Hd'; [|apply Hf].
    destruct Hd' as [-> ->]. intros [= <-]. apply slots_ok.
  - intros s' l'. unfold live at 1 2. rewrite Hq.
    change (capOf q s') with (capOf p s'). case_decide as Hd'.
    + destruct Hd' as [-> EP]. rewrite EP, Hno. split; [split|].
      * by intros (? & ? & _).
      * intros (pg & [= <-] & _ & Hs & Hni). simpl in Hni. exfalso. apply Hni.
        unfold slots. rewrite elem_of_reverse, elem_of_seqZ. lia.
      * intros (? & ? & _). congruence.
    + split; [done|]. intros (pg & Hg & _).
      apply (Read_file _ _ _ _ pg); [done| |done]. rewrite Hq. by rewrite decide_False.
  - rewrite Hq. by rewrite decide_True.
Qed.

(** A page file that no page of the pool is open on. *)
Lemma write_new_view p s n f :
  wf p -> getPage p s n = None -> 0 < s -> 0 <= n -> capOf p s * s <= blen f ->
  let q := set_disk p (<[pageFileName s n := f]> (disk p)) in wf q /\ view_eq p q.
Proof.
  intros [Hp Hf] Hg Hs Hn Hl q. split; [split; [by apply shape_write|done]|].
  intros s' l'. split; [done|]. intros (pg & Hg' & _).
  apply (Read_file _ _ _ _ pg); [done..|]. simpl.
  assert (Hg2 := Hg'). apply getPage_Some in Hg2 as (c' & Hc' & Hpg').
  destruct (sh_page _ Hp _ _ _ _ Hc' Hpg') as (? & -> & _).
  destruct (sh_class _ Hp _ _ Hc') as (_ & ? & _).
  rewrite lookup_insert_ne; [done|]. intros E.
  apply pageFileName_inj in E as [-> ->]; [congruence|lia..].
Qed.

Lemma put_class_core p q s c :
  core q = core p -> classes p !! s = Some c -> core (put_class q s c) = core p.
Proof.
  destruct p, q. intros [= -> -> -> ->] Hc. unfold core. simpl in *.
  by rewrite insert_id.
Qed.

(** Splitting [createPageLocked]: it fails without touching the disk, leaves
    the zeroed page file behind, or returns the page. *)
Lemma createPageLocked_cases p pid c n flt :
  let path := pageFileName (recordSize c) n in
  let q := set_disk (bump_writeSeq p)
             (<[path := writeZeroes (capacity c * recordSize c)]> (disk p)) in
  (exists q' e, createPageLocked p pid c n flt = (q', Err e) /\ core q' = core p) \/
  (exists e, createPageLocked p pid c n flt = (q, Err e)) \/
  createPageLocked p pid c n flt = (q, Ok (mkPage path (reverse (slots (capacity c))))).
Proof.
  intros path q. unfold createPageLocked.
  destruct flt as [[[] e]|]; try destruct (bool_decide _);
    eauto; left; eexists _, _; by split.
Qed.

(** [p'] is [p] with the zeroed file of the page on disk. *)
Lemma create_disk p s c n :
  wf p -> classes p !! s = Some c -> n = nextPage c + 1 ->
  let q := set_disk (bump_writeSeq p)
             (<[pageFileName (recordSize c) n := writeZeroes (capacity c * recordSize c)]> (disk p)) in
  wf q /\ view_eq p q /\ exists f, disk q !! pageFileName s n = Some f /\ capOf q s * s <= blen f.
Proof.
  intros Hw Hc ->. assert (Hp := wf_shape _ Hw).
  destruct (sh_class _ Hp _ _ Hc) as (-> & Hs & -> & Hn). intros q.
  assert (0 <= capOf p s) by (unfold capOf; apply u32_bound).
  assert (Hf : blen (writeZeroes (capOf p s * s)) = capOf p s * s).
  { rewrite writeZeroes_spec by nia. unfold blen. rewrite length_replicate. nia. }
  destruct (write_new_view (bump_writeSeq p) s (nextPage c + 1)
    (writeZeroes (capOf p s * s))) as [Hwq Hv].
  - by eapply core_wf; [|exact Hw].
  - destruct (getPage _ s _) eqn:E; [|done]. apply getPage_Some in E as (c' & Hc' & Hpg).
    simpl in Hc'. assert (c' = c) as -> by congruence.
    destruct (sh_page _ Hp _ _ _ _ Hc Hpg) as [? _]. lia.
  - lia.
  - lia.
  - change (capOf (bump_writeSeq p) s) with (capOf p s). lia.
  - split; [exact Hwq|]. split; [etransitivity; [|exact Hv]; by apply core_view|].
    eexists. split; [apply lookup_insert_eq|]. change (capOf q s) with (capOf p s). lia.
Qed.

Lemma alloc_post_view p p' q s r :
  view_eq p p' -> alloc_post p' q s r -> alloc_post p q s r.
Proof.
  intros Hv [Hw Hr]. split; [done|]. destruct r as [[n slot]|]; [|by rewrite Hv].
  destruct Hr as [[Hn Hr] Hl]. split; [|done]. split.
  - intros Hp. apply Hn. by apply Hv.
  - intros s' l'. destruct (Hr s' l') as [H1 H2], (Hv s' l') as [H3 H4].
    split; [tauto|]. intros Hl'. rewrite H4 by done. apply H2. tauto.
Qed.

(** Creating a page and taking its top slot. *)
Lemma add_page_pop p s n c f slot rest :
  wf p -> classes p !! s = Some c -> nextPage c < n < 2 ^ 32 -> 0 < n ->
  disk p !! pageFileName s n = Some f -> capOf p s * s <= blen f ->
  reverse (slots (capOf p s)) = slot :: rest ->
  alloc_post p (add_page p s n c (mkPage (pageFileName s n) rest)) s (Ok (n, slot)).
Proof.
  intros Hw Hc Hn Hn0 Hf Hl Hrev.
  destruct (add_page_view p s n c f Hw Hc Hn Hn0 Hf Hl) as (Hwq & Hv & Hg).
  rewrite Hrev in *. set (q := add_page p s n c _) in *.
  replace (add_page p s n c _) with (set_free q s n rest); last first.
  { unfold set_free, q, add_page, put_class, set_classes, set_pages. simpl.
    rewrite lookup_insert_eq. simpl. rewrite lookup_insert_eq. simpl.
    by rewrite !insert_insert_eq. }
  eapply alloc_post_view; [exact Hv|]. by apply (pop_view _ _ _ _ _ _ Hwq Hg); [lia|].
Qed.

Lemma allocateLocked_spec p pid s c flt p1 c1 r :
  wf p -> classes p !! s = Some c -> 0 < capOf p s -> nextPage c < 2 ^ 32 - 1 ->
  allocateLocked p pid c flt = (p1, c1, r) ->
  alloc_post p (put_class p1 s c1) s r.
Proof.
  intros Hw Hc Hcap Hnp. assert (Hp := wf_shape _ Hw).
  destruct (sh_class _ Hp _ _ Hc) as (H1 & H2 & H3 & H4). unfold allocateLocked.
  destruct (scanPages c _ 1) as [[[[n pg] slot] rest]|] eqn:Hscan.
  - apply scanPages_Some in Hscan as (Hn & Hpg & Hfr & _). intros [= <- <- <-].
    replace (put_class p s _) with (set_free p s n rest)
      by (unfold set_free; by rewrite Hc, Hpg).
    apply (pop_view _ _ _ pg); [done|apply getPage_Some; eauto|lia|done].
  - rewrite u32_id by lia.
    destruct (create_disk p s c _ Hw Hc eq_refl) as (Hwq & Hv & f & Hdf & Hlf).
    destruct (createPageLocked_cases p pid (set_nextPage c (nextPage c + 1)) (nextPage c + 1) flt)
      as [(q' & msg & -> & Hq')|[(msg & ->)| ->]]; simpl.
    + intros [= <- <- <-]. assert (E := put_class_core p q' s c Hq' Hc).
      split; [by eapply core_wf; [symmetry|]|by apply core_view].
    + intros [= <- <- <-]. set (q := set_disk _ _) in *.
      assert (E := put_class_core q q s c eq_refl Hc).
      split; [by eapply core_wf; [symmetry|]|].
      etransitivity; [exact Hv|]. by apply core_view.
    + rewrite H3. destruct (reverse (slots (capOf p s))) as [|slot rest] eqn:Hrev.
      { exfalso. apply (f_equal length) in Hrev. unfold slots in Hrev.
        rewrite length_reverse, length_seqZ in Hrev. simpl in Hrev. lia. }
      intros [= <- <- <-]. eapply alloc_post_view; [exact Hv|]. 
      assert (A := add_page_pop _ s (nextPage c + 1) c f slot rest Hwq Hc
        ltac:(lia) ltac:(lia) Hdf Hlf Hrev).
      unfold add_page in A. rewrite H1, H3 in *. exact A.
Qed.

(** ** Put *)

Lemma Free_put_class q s c l :
  Free (put_class q s c) s l =
  let '(q', c') := freeLocked q c (Page l) (Slot l) in put_class q' s c'.
Proof.
  unfold Free, put_class. simpl. rewrite lookup_insert_eq. unfold freeLocked.
  destruct (pages c !! Page l); simpl; [destruct (_ <? _)|];
    unfold set_classes; simpl; by rewrite insert_insert_eq.
Qed.

(** Writing the bytes of the new location keeps the view. *)
Lemma view_plus_same p q q' k :
  view_plus p q k -> (forall s l, live q' s l <-> live q s l) ->
  (forall s l, live q s l -> (s, l) <> k -> Read q' s l = Read q s l) ->
  view_plus p q' k.
Proof.
  intros [Hn Hv] Hl Hr. split; [done|]. intros s l. rewrite Hl, <-(proj1 (Hv s l)).
  split; [done|]. intros Hl'. rewrite <-(proj2 (Hv s l)) by done.
  apply Hr; [apply Hv; by right|]. by intros <-.
Qed.

(** A location of the pool is never handed out twice: what [Put] returns was
    not in use, and every other record keeps its place and its bytes. *)
Lemma putInClass_spec p pid s c b flt m q r :
  wf p -> models p m -> classes p !! s = Some c -> 0 < capOf p s ->
  nextPage c < 2 ^ 32 - 1 -> blen b = s ->
  putInClass p pid s c b flt = (q, r) ->
  wf q /\
  match r with
  | Ok (Some l) => IsZero l = false /\ m !! (s, l) = None /\ models q (<[(s, l) := b]> m)
  | Ok None => False
  | Err _ => models q m
  end.
Proof.
  intros Hw Hm Hc Hcap Hnp Hb. unfold putInClass.
  destruct (allocateLocked p pid c (pf_page flt)) as [[p1 c1] [[n slot]|e]] eqn:Ha;
    apply (allocateLocked_spec p pid s) in Ha as [Hw1 Hr]; try done.
  2: { intros [= <- <-]. split; [done|]. by rewrite <-Hr. }
  destruct Hr as [Hv Hl]. set (q0 := put_class p1 s c1) in *.
  destruct (live_file q0 s _ (wf_shape _ Hw1) Hl) as (pg & f & Hg & Hfn & Hd & _ & Hn & _).
  simpl in Hfn, Hd, Hn. assert (Hpg : pages c1 !! n = Some pg).
  { unfold q0 in Hg. rewrite getPage_put_class, decide_True in Hg by done. done. }
  rewrite Hpg, Hfn, Hd. simpl default.
  destruct (pf_write flt) as [[k e]|].
  - assert (Hk : blen (take k b) <= s) by (unfold blen in *; rewrite length_take; lia).
    destruct (write_slot q0 s _ (take k b) Hw1 Hl Hk) as (f' & Hf' & Hwq & Hlq & Hrq & _).
    simpl in Hf', Hwq, Hlq, Hrq. rewrite Hd in Hf'. injection Hf' as <-.
    set (p2 := set_disk p1 _). assert (E := Free_put_class p2 s c1 (mkLoc n slot)).
    simpl in E. destruct (freeLocked p2 c1 n slot) as [p3 c3]. intros [= <- <-].
    rewrite <-E. destruct (Free_view (put_class p2 s c1) s (mkLoc n slot) Hwq) as [Hwf Hvf];
      [by apply Hlq|].
    split; [done|]. rewrite <-(view_plus_eq p _ _ _ (view_plus_same _ _ _ _ Hv Hlq Hrq) Hvf).
    done.
  - destruct (write_slot q0 s _ b Hw1 Hl ltac:(lia)) as (f' & Hf' & Hwq & Hlq & Hrq & Hbq).
    simpl in Hf', Hwq, Hlq, Hrq. rewrite Hd in Hf'. injection Hf' as <-.
    intros [= <- <-]. split; [exact Hwq|]. split; [unfold IsZero; simpl; lia|].
    apply (models_insert p); [done|exact (view_plus_same _ _ _ _ Hv Hlq Hrq)|by apply Hbq].
Qed.

(** No temp file of this process is lying around. *)
Definition no_stale_temp (p : Pool) (pid : bytes) : Prop :=
  forall s n k, disk p !! tmpPageName (pageFileName s n) pid k = None.

Lemma allocateLocked_ok p pid s c p1 c1 r :
  wf p -> classes p !! s = Some c -> 0 < capOf p s -> nextPage c < 2 ^ 32 - 1 ->
  no_stale_temp p pid ->
  allocateLocked p pid c None = (p1, c1, r) -> exists n slot, r = Ok (n, slot).
Proof.
  intros Hw Hc Hcap Hnp Ht. destruct (sh_class _ (wf_shape _ Hw) _ _ Hc) as (H1 & H2 & H3 & H4).
  unfold allocateLocked. destruct (scanPages c _ 1) as [[[[n pg] slot] rest]|].
  - intros [= <- <- <-]. eauto.
  - unfold createPageLocked. simpl. rewrite Ht.
    rewrite bool_decide_eq_false_2 by (by intros [? ?]). simpl.
    destruct (reverse (slots (capacity c))) eqn:Hrev.
    + exfalso. apply (f_equal length) in Hrev. unfold slots in Hrev.
      rewrite length_reverse, length_seqZ in Hrev. simpl in Hrev. lia.
    + intros [= <- <- <-]. eauto.
Qed.

Lemma putInClass_ok p pid s c b :
  wf p -> classes p !! s = Some c -> 0 < capOf p s -> nextPage c < 2 ^ 32 - 1 ->
  no_stale_temp p pid ->
  exists l, snd (putInClass p pid s c b noFaults) = Ok (Some l).
Proof.
  intros Hw Hc Hcap Hnp Ht. unfold putInClass. simpl.
  destruct (allocateLocked p pid c None) as [[p1 c1] r] eqn:Ha.
  destruct (allocateLocked_ok _ _ _ _ _ _ _ Hw Hc Hcap Hnp Ht Ha) as (n & slot & ->).
  apply (allocateLocked_spec p pid s) in Ha as (_ & _ & pg & Hg & _); try done.
  rewrite getPage_put_class, decide_True in Hg by done. simpl in Hg. rewrite Hg. simpl. eauto.
Qed.

(** Promotion: the class is created without any page. *)
Lemma promote_wf p s :
  wf p -> classes p !! s = None -> 0 < s < 2 ^ 63 ->
  let c := mkClass s (u32 (Z.quot (pageBytes p) s)) ∅ 0 in
  let q := put_class p s c in wf q /\ view_eq p q.
Proof.
  intros [Hp Hf] Hc Hs c q.
  assert (Hg : forall s' n, getPage q s' n = getPage p s' n).
  { intros. unfold q. rewrite getPage_put_class. case_decide; [|done]. subst. unfold getPage.
    by rewrite Hc. }
  split; [split|].
  - apply shape_put_class; [done| |].
    + unfold class_ok. simpl. repeat split; lia.
    + by intros n pg ?.
  - intros s' n pg. rewrite Hg. apply Hf.
  - intros s' l. unfold live. rewrite !Hg. split; [done|]. intros (pg & Hpg & _).
    apply (Read_file _ _ _ _ pg); [done|by rewrite Hg|done].
Qed.

Lemma capOf_pos p s : wf p -> 0 < s <= maxRecordBytes p -> 0 < capOf p s.
Proof.
  intros Hw Hs. assert (Hp := wf_shape _ Hw).
  destruct (capOf_bound p s Hp) as [_ ->]; [lia|].
  destruct (sh_conf _ Hp) as [? _]. apply Z.div_str_pos. lia.
Qed.

(** The class numbers left before the page counter would wrap. *)
Definition pages_left (p : Pool) (s : Z) : Prop :=
  forall c, classes p !! s = Some c -> nextPage c < 2 ^ 32 - 1.

Lemma Put_spec p pid s b flt m q r
    (Hw : wf p) (Hm : models p m) (Hleft : pages_left p s)
    (Hput : Put p pid s b flt = (q, r)) :
  wf q /\
  match r with
  | Ok (Some l) => IsZero l = false /\ m !! (s, l) = None /\ models q (<[(s, l) := b]> m)
  | _ => models q m
  end.
Proof.
  unfold Put in Hput. destruct (_ || _) eqn:Hg.
  { by injection Hput as <- <-. }
  go_bool. assert (Hcap := capOf_pos p s Hw ltac:(lia)).
  destruct (sh_conf _ (wf_shape _ Hw)) as [Hc1 Hc2].
  assert (Hcase : forall p' c r', wf p' -> models p' m -> classes p' !! s = Some c ->
    0 < capOf p' s -> nextPage c < 2 ^ 32 - 1 -> putInClass p' pid s c b flt = (q, r') ->
    wf q /\ match r' with
            | Ok (Some l) => IsZero l = false /\ m !! (s, l) = None /\ models q (<[(s, l) := b]> m)
            | _ => models q m end).
  { intros p' c r' Hw' Hm' Hc Hcap' Hn Hp'.
    destruct (putInClass_spec _ _ _ _ _ _ _ _ _ Hw' Hm' Hc Hcap' Hn H0 Hp') as [? Hr].
    split; [done|]. by destruct r' as [[l|]|]. }
  destruct (classes p !! s) as [c|] eqn:Hc.
  - eapply (Hcase p c); eauto.
  - destruct (promote_wf p s Hw Hc ltac:(lia)) as [Hwq Hv].
    destruct (_ <? breakeven _).
    + injection Hput as <- <-. split; [by eapply core_wf; [|exact Hw]|].
      by rewrite <-(core_view p).
    + eapply Hcase; [| | | | |exact Hput]; simpl.
      * by eapply core_wf; [|exact Hwq].
      * rewrite Hv in Hm. by rewrite <-core_view; [exact Hm|].
      * by rewrite lookup_insert_eq.
      * exact Hcap.
      * done.
Qed.

(** [Put] implements insertion at a fresh location.  When it reports a
    location, that location held no record, the pool now models the old records
    plus the new body there, and the caller can tell it from a plain file; when
    it reports [ok == false] or any error (a failed mkdir, temp file, write,
    close, rename or reopen, or a short slot write) every record is where it was
    with the bytes it had. *)
Theorem Put_refines p pid s b flt m q r
    (Hw : wf p) (Hm : models p m) (Hleft : pages_left p s)
    (Hput : Put p pid s b flt = (q, r)) :
  wf q /\
  match r with
  | Ok (Some l) => IsZero l = false /\ m !! (s, l) = None /\ models q (<[(s, l) := b]> m)
  | _ => models q m
  end.
Proof. by eapply Put_spec. Qed.

Lemma Free_spec p s l m
    (Hw : wf p) (Hm : models p m) (Hin : is_Some (m !! (s, l))) :
  wf (Free p s l) /\ models (Free p s l) (delete (s, l) m).
Proof.
  destruct Hin as [b Hb]. destruct (proj1 Hm _ _ _ Hb) as [Hl _].
  destruct (Free_view p s l Hw Hl) as [Hwf Hv]. split; [done|].
  by eapply models_delete.
Qed.

(** [Free] implements deletion: the freed record disappears, every other
    record keeps its location and its bytes -- also when the page becomes empty
    and its file is removed. *)
Theorem Free_refines p s l m
    (Hw : wf p) (Hm : models p m) (Hin : is_Some (m !! (s, l))) :
  wf (Free p s l) /\ models (Free p s l) (delete (s, l) m).
Proof. by apply Free_spec. Qed.

(** ** Reconciliation *)

Lemma wf_New maxRecord pageSize d :
  0 < maxRecord <= pageSize -> pageSize < 2 ^ 32 -> disk_ok (New maxRecord pageSize d) ->
  wf (New maxRecord pageSize d).
Proof.
  intros H1 H2 H3. by split; [split|].
Qed.

Lemma models_New maxRecord pageSize d : models (New maxRecord pageSize d) ∅.
Proof.
  split; [done|]. intros s l (pg & Hg & _). unfold getPage in Hg. simpl in Hg.
  by rewrite lookup_empty in Hg.
Qed.

(** What the discovery of the files [seen] has built. *)
Record discovered (p0 p : Pool) (seen : list bytes) : Prop := {
  dc_max : maxRecordBytes p = maxRecordBytes p0;
  dc_bytes : pageBytes p = pageBytes p0;
  dc_disk : disk p = disk p0;
  dc_shape : shape p;
  dc_free s n pg : getPage p s n = Some pg -> pg_free pg = [];
  dc_pages s n : 0 < s < 2 ^ 63 -> 0 <= n < 2 ^ 32 ->
    (is_Some (getPage p s n) <-> pageFileName s n ∈ seen);
}.

Lemma parseBelow_bound bound m s : parseBelow bound m = Some s -> 0 <= s < bound.
Proof.
  unfold parseBelow, parse_digits. repeat case_match; intros; simplify_eq. go_bool.
  split; [|done]. apply digits_val_nonneg; done.
Qed.

Lemma discover_skip p0 p seen name :
  discovered p0 p seen ->
  (forall s n, 0 < s < 2 ^ 63 -> 0 <= n < 2 ^ 32 -> name <> pageFileName s n) ->
  discovered p0 p (name :: seen).
Proof.
  intros [] Hne. split; try done. intros s n Hs Hn.
  rewrite elem_of_cons, dc_pages0 by done. assert (H := Hne s n Hs Hn). naive_solver.
Qed.

(** The class the code looks up or creates, with the new page. *)
Definition discoverClass (p : Pool) (s n : Z) (name : bytes) : class :=
  let c := match classes p !! s with
           | Some c => c
           | None => mkClass s (u32 (Z.quot (pageBytes p) s)) ∅ 0
           end in
  let c := set_pages c (<[n := mkPage name []]> (pages c)) in
  if nextPage c <? n then set_nextPage c n else c.

Lemma discoverClass_spec p s n name f :
  shape p -> 0 < s < 2 ^ 63 -> 0 <= n < 2 ^ 32 -> name = pageFileName s n ->
  disk p !! name = Some f -> capOf p s * s <= blen f ->
  let q := put_class p s (discoverClass p s n name) in
  shape q /\
  forall s' n', getPage q s' n' =
    if decide (s' = s /\ n' = n) then Some (mkPage name []) else getPage p s' n'.
Proof.
  intros Hp Hs Hn -> Hf Hl q. unfold q, discoverClass.
  set (c0 := match classes p !! s with Some c => c | None => _ end).
  assert (Hc0 : class_ok p s c0).
  { unfold c0. destruct (classes p !! s) as [c|] eqn:Hc; [by apply (sh_class _ Hp)|].
    unfold class_ok. simpl. repeat split; lia. }
  assert (Hp0 : forall k pg, pages c0 !! k = Some pg -> page_ok p s c0 k pg).
  { intros k pg. unfold c0. destruct (classes p !! s) as [c|] eqn:Hc; [by apply (sh_page _ Hp)|].
    simpl. by rewrite lookup_empty. }
  assert (Hg0 : forall k, getPage p s k = pages c0 !! k).
  { intros k. unfold getPage, c0. by destruct (classes p !! s). }
  clearbody c0. destruct Hc0 as (H1 & H2 & H3 & H4).
  set (c1 := if _ <? _ then _ else _).
  assert (E : pages c1 = <[n := mkPage (pageFileName s n) []]> (pages c0) /\
    recordSize c1 = recordSize c0 /\ capacity c1 = capacity c0 /\
    nextPage c1 = Z.max (nextPage c0) n).
  { unfold c1. destruct (_ <? _) eqn:E; go_bool; simpl in *; clear c1;
      repeat split; try done; lia. }
  clearbody c1. destruct E as (E1 & E2 & E3 & E4). split.
  - apply shape_put_class; [done| |].
    + unfold class_ok. rewrite E2, E3, E4. repeat split; lia.
    + intros k pg. rewrite E1. unfold page_ok. rewrite E4.
      intros [[<- <-]|[? Hk]]%lookup_insert_Some.
      * simpl. repeat split; eauto; lia.
      * destruct (Hp0 _ _ Hk) as (? & ? & ?). repeat split; try done; lia.
  - intros s' n'. rewrite getPage_put_class, E1.
    case_decide as Hd; case_decide as Hb; try naive_solver.
    + destruct Hb as [-> ->]. by rewrite lookup_insert_eq.
    + subst. rewrite lookup_insert_ne by naive_solver. by rewrite Hg0.
Qed.

Lemma discoverEntry_spec p0 p seen name :
  discovered p0 p seen -> is_Some (disk p !! name) ->
  exists p', discoverEntry p name false None = Ok p' /\ discovered p0 p' (name :: seen).
Proof.
  intros Hd [f Hf]. unfold discoverEntry.
  assert (Hskip : (forall m1 m2 s n, pageNameRe name = Some (m1, m2) ->
      parseBelow (2 ^ 63) m1 = Some s -> parseBelow (2 ^ 32) m2 = Some n -> 0 < s -> False) ->
    exists p', Ok p = Ok p' /\ discovered p0 p' (name :: seen)).
  { intros Hno. exists p. split; [done|]. apply discover_skip; [done|].
    intros s n Hs Hn ->. eapply Hno; [apply pageNameRe_pageFileName; lia| | |].
    - apply parseBelow_itoa. lia.
    - apply parseBelow_itoa. lia.
    - lia. }
  destruct (pageNameRe name) as [[m1 m2]|] eqn:Hre; [|apply Hskip; naive_solver].
  destruct (parseBelow (2 ^ 63) m1) as [s|] eqn:Hs; [|apply Hskip; naive_solver].
  destruct (s <=? 0) eqn:Hs0; go_bool; [apply Hskip; intros; simplify_eq; lia|].
  destruct (parseBelow (2 ^ 32) m2) as [n|] eqn:Hn; [|apply Hskip; naive_solver].
  clear Hskip. destruct (sh_disk _ (dc_shape _ _ _ Hd) _ _ _ _ _ _ Hf Hre Hs Hs0 Hn) as [E Hl].
  apply parseBelow_bound in Hs, Hn.
  destruct (discoverClass_spec p s n name f (dc_shape _ _ _ Hd) ltac:(lia) Hn E Hf Hl) as [Hsh Hg].
  eexists. split; [done|].
  change (discovered p0 (put_class p s (discoverClass p s n name)) (name :: seen)).
  destruct Hd. split; try done.
  - intros s' n' pg. rewrite Hg. case_decide; [by intros [= <-]|]. apply dc_free0.
  - intros s' n' Hs' Hn'. rewrite Hg, elem_of_cons. case_decide as Hb.
    + destruct Hb as [-> ->]. split; [by left|eauto].
    + rewrite dc_pages0 by done. split; [by right|]. intros [E'|]; [|done].
      rewrite E in E'. apply pageFileName_inj in E' as [-> ->]; [naive_solver|lia..].
Qed.

Lemma discoverEntries_spec p0 names p seen :
  discovered p0 p seen -> (forall x, x ∈ names -> is_Some (disk p !! x)) ->
  exists p', discoverEntries p (map (fun x => (x, false, None)) names) = Ok p' /\
             discovered p0 p' (reverse names ++ seen).
Proof.
  revert p seen. induction names as [|x names IH]; intros p seen Hd Hx; [by eauto|].
  cbn [map discoverEntries].
  destruct (discoverEntry_spec p0 p seen x Hd) as (p1 & -> & Hd1); [apply Hx; by left|].
  destruct (IH p1 (x :: seen) Hd1) as (p' & -> & Hd').
  { intros y Hy. rewrite (dc_disk _ _ _ Hd1), <-(dc_disk _ _ _ Hd). apply Hx. by right. }
  exists p'. split; [done|]. by rewrite reverse_cons, <-app_assoc.
Qed.

(** After noting the locations [ks] in a discovered pool, the scratch list of a
    page holds the slots noted in it. *)
Record noted (p0 p : Pool) (ks : list (Z * Loc)) : Prop := {
  nt_bytes : pageBytes p = pageBytes p0;
  nt_disk : disk p = disk p0;
  nt_shape : shape p;
  nt_pages s n : is_Some (getPage p s n) <-> is_Some (getPage p0 s n);
  nt_free s n pg x :
    getPage p s n = Some pg -> n <> 0 -> (x ∈ pg_free pg <-> (s, mkLoc n x) ∈ ks);
}.

Lemma NoteOccupied_set_free p s l pg :
  getPage p s (Page l) = Some pg -> Page l <> 0 ->
  NoteOccupied p s l = set_free p s (Page l) (Slot l :: pg_free pg).
Proof.
  intros Hg Hn. unfold NoteOccupied, IsZero, set_free.
  apply getPage_Some in Hg as (c & Hc & Hpg). rewrite Hc, Hpg.
  destruct (Page l =? 0) eqn:E; [|done]. go_bool. done.
Qed.

Lemma NoteOccupied_spec p0 p ks s l :
  noted p0 p ks -> is_Some (getPage p0 s (Page l)) -> Page l <> 0 ->
  noted p0 (NoteOccupied p s l) (ks ++ [(s, l)]).
Proof.
  intros [Hb Hd Hs Hp Hf] Hg Hn. apply Hp in Hg as [pg Hg].
  rewrite (NoteOccupied_set_free _ _ _ pg) by done. split.
  - by rewrite <-Hb; unfold set_free; repeat case_match.
  - by rewrite disk_set_free.
  - by apply shape_set_free.
  - intros s' n'. rewrite <-Hp, getPage_set_free. case_decide as Hc; [|done].
    destruct Hc as [-> ->]. by rewrite fmap_is_Some.
  - intros s' n' pg' x. rewrite getPage_set_free, elem_of_app, list_elem_of_singleton.
    case_decide as Hc.
    + destruct Hc as [-> ->]. rewrite Hg. intros [= <-] _. simpl. rewrite elem_of_cons.
      rewrite (Hf s (Page l) pg) by done. destruct l as [n y]. simpl. naive_solver.
    + intros Hg' Hn'. rewrite (Hf _ _ _ _ Hg' Hn'). destruct l as [n y]. simpl in *.
      naive_solver.
Qed.

Lemma noteAll_spec p0 p ks ks0 :
  noted p0 p ks0 ->
  (forall s l, (s, l) ∈ ks -> is_Some (getPage p0 s (Page l)) /\ Page l <> 0) ->
  noted p0 (noteAll p ks) (ks0 ++ ks).
Proof.
  revert p ks0. induction ks as [|[s l] ks IH]; intros p ks0 Hn Hk.
  - by rewrite app_nil_r.
  - change (noteAll p ((s, l) :: ks)) with (noteAll (NoteOccupied p s l) ks).
    replace (ks0 ++ (s, l) :: ks) with ((ks0 ++ [(s, l)]) ++ ks) by (by rewrite <-app_assoc).
    destruct (Hk s l) as [? ?]; [by left|].
    apply IH; [by apply NoteOccupied_spec|]. intros s' l' ?. apply Hk. by right.
Qed.

Lemma getPage_Finish p s n :
  shape p -> getPage (FinishReconcile p) s n = finishPage (capOf p s) <$> getPage p s n.
Proof.
  intros Hp. unfold getPage, FinishReconcile. simpl. rewrite lookup_fmap.
  destruct (classes p !! s) as [c|] eqn:Hc; [|done]. simpl. rewrite lookup_fmap.
  destruct (sh_class _ Hp _ _ Hc) as (_ & _ & -> & _). done.
Qed.

Lemma shape_Finish p : shape p -> shape (FinishReconcile p).
Proof.
  intros [Hc Hcl Hp Hd]. split; [done|..|done].
  - intros s c. simpl. rewrite lookup_fmap.
    destruct (classes p !! s) as [c'|] eqn:E; [|done]. intros [= <-]. exact (Hcl _ _ E).
  - intros s c n pg. simpl. rewrite lookup_fmap.
    destruct (classes p !! s) as [c'|] eqn:E; [|done]. intros [= <-]. simpl.
    rewrite lookup_fmap. destruct (pages c' !! n) as [pg'|] eqn:E'; [|done].
    intros [= <-]. exact (Hp _ _ _ _ E E').
Qed.

Lemma Finish_spec p0 p ks :
  noted p0 p ks ->
  wf (FinishReconcile p) /\
  forall s l, live (FinishReconcile p) s l <->
    is_Some (getPage p0 s (Page l)) /\ Page l <> 0 /\ 0 <= Slot l < capOf p s /\ (s, l) ∈ ks.
Proof.
  intros [Hb Hd Hs Hp Hf]. split; [split; [by apply shape_Finish|]|].
  - intros s n pg. rewrite getPage_Finish by done.
    destruct (getPage p s n) as [pg'|]; [|done]. intros [= <-]. simpl.
    change (capOf (FinishReconcile p) s) with (capOf p s). split.
    + rewrite reverse_Permutation. apply NoDup_filter, NoDup_seqZ.
    + apply Forall_forall. intros x. rewrite elem_of_reverse, list_elem_of_filter.
      unfold slots. rewrite elem_of_seqZ. lia.
  - intros s l. unfold live. change (capOf (FinishReconcile p) s) with (capOf p s).
    rewrite getPage_Finish, <-Hp by done. split.
    + intros (pg & Hg & Hn & Hsl & Hni). destruct (getPage p s (Page l)) as [pg'|] eqn:Hg'; [|done].
      injection Hg as <-. split; [eauto|]. do 2 (split; [done|]).
      simpl in Hni. rewrite elem_of_reverse, list_elem_of_filter in Hni.
      destruct (decide (Slot l ∈ pg_free pg')) as [Hi|Hi].
      * apply (Hf _ _ _ _ Hg' Hn) in Hi. by destruct l.
      * exfalso. apply Hni. split; [done|]. unfold slots. apply elem_of_seqZ. lia.
    + intros ([pg Hg] & Hn & Hsl & Hk). rewrite Hg. eexists. split; [done|].
      do 2 (split; [done|]). simpl. rewrite elem_of_reverse, list_elem_of_filter.
      intros [Hni _]. apply Hni. apply (Hf _ _ _ _ Hg Hn). by destruct l.
Qed.

Lemma restart_spec p m names ks
    (Hw : wf p) (Hm : models p m)
    (Hnames : forall x, x ∈ names <-> is_Some (disk p !! x))
    (Hks : forall k, k ∈ ks <-> is_Some (m !! k)) :
  let fresh := New (maxRecordBytes p) (pageBytes p) (disk p) in
  exists p1,
    DiscoverPages fresh (Ok (map (fun x => (x, false, None)) names)) = Ok p1 /\
    (forall s l, (s, l) ∈ ks -> Valid p1 s l = true) /\
    wf (FinishReconcile (noteAll p1 ks)) /\
    models (FinishReconcile (noteAll p1 ks)) m.
Proof.
  intros fresh. assert (Hp := wf_shape _ Hw). destruct (sh_conf _ Hp) as [Hc1 Hc2].
  assert (Hwf0 : wf fresh) by (apply wf_New; [done..|apply (sh_disk _ Hp)]).
  destruct (discoverEntries_spec fresh names fresh []) as (p1 & E1 & D1).
  { split; try done; [apply Hwf0|]. intros s n _ _. unfold getPage. simpl.
    rewrite lookup_empty. split; [by intros [? ?]|]. intros H. by apply not_elem_of_nil in H. }
  { intros x Hx. by apply Hnames. }
  exists p1. split; [done|]. rewrite app_nil_r in D1. destruct D1 as [_ Db Dd Ds Df Dp].
  assert (Hlive : forall s l, (s, l) ∈ ks <-> live p s l).
  { intros s l. rewrite Hks. split; [|apply Hm]. intros [b Hb]. by apply Hm in Hb as [? _]. }
  assert (Hpage : forall s l, live p s l -> is_Some (getPage p1 s (Page l)) /\ Page l <> 0 /\
    0 <= Slot l < capOf p1 s).
  { intros s l Hl. destruct (live_file p s l Hp Hl) as (pg & f & Hg & Hfn & Hd & Hs & Hn & _).
    destruct Hl as (? & _ & ? & Hsl & _). unfold capOf in *. rewrite Db. split; [|done].
    apply Dp; [done|lia|]. rewrite elem_of_reverse. apply Hnames. eauto. }
  assert (Hnt : noted p1 (noteAll p1 ks) ks).
  { apply (noteAll_spec p1 p1 ks []).
    - split; try done. intros s n pg x Hg _. rewrite (Df _ _ _ Hg). split; set_solver.
    - intros s l Hk. apply Hlive in Hk. by destruct (Hpage s l Hk) as (? & ? & _). }
  destruct (Finish_spec p1 (noteAll p1 ks) ks Hnt) as [Hwf Hlq].
  set (q := FinishReconcile _) in *. split; [|split; [done|]].
  - intros s l Hk. apply Hlive in Hk. destruct (Hpage s l Hk) as ([pg Hg] & Hn & Hsl).
    unfold Valid, IsZero. apply Z.eqb_neq in Hn as ->.
    apply getPage_Some in Hg as (c & Hc & Hpg). rewrite Hc, Hpg.
    destruct (sh_class _ Ds _ _ Hc) as (_ & _ & -> & _). apply Z.ltb_lt. lia.
  - assert (Hv : view_eq p q); [|by rewrite <-Hv].
    assert (Hll : forall s l, live p s l <-> live q s l).
    { intros s l. rewrite Hlq, Hlive.
      replace (capOf (noteAll p1 ks) s) with (capOf p1 s)
        by (unfold capOf; by rewrite (nt_bytes _ _ _ Hnt)).
      assert (H := Hpage s l). tauto. }
    intros s l. split; [done|]. intros Hl.
    destruct (live_file p s l Hp Hl) as (_ & f & _ & _ & Hd & _ & _ & _ & _ & ->).
    destruct (live_file q s l (wf_shape _ Hwf) (proj1 (Hll s l) Hl))
      as (_ & f' & _ & _ & Hd' & _ & _ & _ & _ & ->).
    change (disk q) with (disk (noteAll p1 ks)) in Hd'.
    rewrite (nt_disk _ _ _ Hnt), Dd in Hd'. simpl in Hd'. congruence.
Qed.

(** C40: restarting loses nothing.  A fresh pool over the files of a well-formed
    one, discovered from the directory listing and reconciled with exactly the
    locations of the caller's index, finds every one of them valid, is well
    formed, and models the same map as before the restart: every record at its
    location with its bytes, and every slot the index does not name free. *)
Theorem restart_refines p m names ks
    (Hw : wf p) (Hm : models p m)
    (Hnames : forall x, x ∈ names <-> is_Some (disk p !! x))
    (Hks : forall k, k ∈ ks <-> is_Some (m !! k)) :
  let fresh := New (maxRecordBytes p) (pageBytes p) (disk p) in
  exists p1,
    DiscoverPages fresh (Ok (map (fun x => (x, false, None)) names)) = Ok p1 /\
    (forall s l, (s, l) ∈ ks -> Valid p1 s l = true) /\
    wf (FinishReconcile (noteAll p1 ks)) /\
    models (FinishReconcile (noteAll p1 ks)) m.
Proof. by apply restart_spec. Qed.

(** Reconciling depends on the records of the pool only. *)
Lemma NoteOccupied_core p q s l :
  core p = core q -> core (NoteOccupied p s l) = core (NoteOccupied q s l).
Proof.
  destruct p, q. unfold core. simpl. intros [= -> -> -> ->]. unfold NoteOccupied.
  destruct (IsZero l); [done|]. simpl. destruct (_ !! s) as [c|]; [|done].
  by destruct (pages c !! Page l).
Qed.

Lemma NoteUnpromoted_core p s : core (NoteUnpromoted p s) = core p.
Proof. unfold NoteUnpromoted. by destruct (_ !! s). Qed.

Lemma Valid_core p q s l : core p = core q -> Valid p s l = Valid q s l.
Proof. destruct p, q. unfold core. simpl. by intros [= -> -> -> ->]. Qed.

Lemma FinishReconcile_core p q :
  core p = core q -> core (FinishReconcile p) = core (FinishReconcile q).
Proof. destruct p, q. unfold core. simpl. by intros [= -> -> -> ->]. Qed.

(** Noting a slot does not change which locations are valid. *)
Lemma Valid_NoteOccupied p s l s' l' : Valid (NoteOccupied p s l) s' l' = Valid p s' l'.
Proof.
  unfold NoteOccupied. destruct (IsZero l); [done|].
  destruct (classes p !! s) as [c|] eqn:Hc; [|done].
  destruct (pages c !! Page l) as [pg|] eqn:Hpg; [|done].
  unfold Valid. destruct (IsZero l'); [done|]. simpl.
  destruct (decide (s' = s)) as [->|]; [|by rewrite lookup_insert_ne].
  rewrite lookup_insert_eq, Hc. simpl.
  destruct (decide (Page l' = Page l)) as [->|]; [|by rewrite lookup_insert_ne].
  by rewrite lookup_insert_eq, Hpg.
Qed.

(** ** Promotion and density *)

Fixpoint puts (p : Pool) (pid : bytes) (s : Z) (bs : list bytes)
    : Pool * list (result (option Loc)) :=
  match bs with
  | [] => (p, [])
  | b :: bs =>
      let '(p, r) := Put p pid s b noFaults in
      let '(p, rs) := puts p pid s bs in (p, r :: rs)
  end.

Lemma puts_below p pid s bs n :
  0 < s <= maxRecordBytes p -> classes p !! s = None -> default 0 (counts p !! s) = n ->
  Forall (fun b => blen b = s) bs -> n + Z.of_nat (length bs) < breakeven p ->
  exists q, puts p pid s bs = (q, replicate (length bs) (Ok None)) /\ core q = core p /\
    default 0 (counts q !! s) = n + Z.of_nat (length bs) /\ breakeven q = breakeven p.
Proof.
  revert p n. induction bs as [|b bs IH]; intros p n Hs Hc Hn Hb Hlt.
  - exists p. simpl. split_and!; try done. lia.
  - apply Forall_cons in Hb as [Hb Hbs]. cbn [puts length replicate] in *.
    unfold Put. rewrite (proj2 (Z.leb_gt s 0)), (proj2 (Z.ltb_ge _ s)), (proj2 (Z.eqb_eq _ s)) by lia.
    simpl. rewrite Hc. rewrite (proj2 (Z.ltb_lt _ _)) by lia.
    destruct (IH (set_counts p (<[s := default 0 (counts p !! s) + 1]> (counts p))) (n + 1))
      as (q & Hq & Hcore & Hcnt & Hbe); simpl; try done; try lia.
    { rewrite lookup_insert_eq. simpl. lia. }
    rewrite Hq. exists q. split_and!; try done; lia.
Qed.

(** Promotion happens exactly at the break-even count.  While fewer than
    [breakeven] records of an unpromoted size have been offered, [Put] declines
    every one of them and the pool's directory is untouched; the record that
    brings the count to [breakeven] is stored in the pool. *)
Theorem Put_promotes_at_breakeven p pid s bs b
    (Hw : wf p) (Hs : 0 < s <= maxRecordBytes p)
    (Hc : classes p !! s = None) (Hn : counts p !! s = None)
    (Hbs : Forall (fun b => blen b = s) bs) (Hb : blen b = s)
    (Hlen : Z.of_nat (length bs) + 1 = breakeven p) (Ht : no_stale_temp p pid) :
  exists q, puts p pid s bs = (q, replicate (length bs) (Ok None)) /\ disk q = disk p /\
    exists l, snd (Put q pid s b noFaults) = Ok (Some l).
Proof.
  destruct (puts_below p pid s bs 0) as (q & Hq & Hcore & Hcnt & Hbe);
    [done|done|by rewrite Hn|done|lia|].
  exists q. split; [done|].
  assert (Hwq : wf q) by (by eapply core_wf; [symmetry|]).
  assert (Hd : maxRecordBytes q = maxRecordBytes p /\ disk q = disk p /\ classes q = classes p).
  { destruct p, q. by injection Hcore as -> -> -> ->. }
  destruct Hd as (Hmax & Hdisk & Hcl). split; [done|]. unfold Put.
  rewrite (proj2 (Z.leb_gt s 0)), (proj2 (Z.ltb_ge _ s)), (proj2 (Z.eqb_eq _ s)) by lia.
  simpl. rewrite Hcl, Hc. rewrite (proj2 (Z.ltb_ge _ _)) by lia.
  assert (Hs2 : 0 < s < 2 ^ 63).
  { destruct (sh_conf _ (wf_shape _ Hw)). lia. }
  destruct (promote_wf q s Hwq) as [Hwp _]; [by rewrite Hcl|done|].
  apply putInClass_ok.
  - eapply core_wf; [|exact Hwp]. unfold core. simpl. by rewrite Hcl.
  - simpl. by rewrite lookup_insert_eq.
  - change (0 < capOf q s). apply capOf_pos; [done|]. lia.
  - simpl. lia.
  - intros s' n k. simpl. rewrite Hdisk. apply Ht.
Qed.

(** Pages stay dense.  A record goes to the oldest page that has a free
    slot: every page of a smaller number is full.  A page is added only when
    every page of the class is full. *)
Theorem allocateLocked_dense p pid c flt p1 c1 n slot
    (Ha : allocateLocked p pid c flt = (p1, c1, Ok (n, slot)))
    (Hn : 0 <= nextPage c < 2 ^ 32 - 1) :
  (forall k pg, 1 <= k < n -> pages c !! k = Some pg -> pg_free pg = []) /\
  (n = nextPage c + 1 /\ nextPage c1 = n \/
   exists pg, pages c !! n = Some pg /\ slot ∈ pg_free pg /\ disk p1 = disk p).
Proof.
  unfold allocateLocked in Ha.
  destruct (scanPages c _ 1) as [[[[k pg] sl] rest]|] eqn:Hscan.
  - apply scanPages_Some in Hscan as (Hk & Hpg & Hfr & Hold).
    injection Ha as <- <- <- <-. split; [done|]. right.
    exists pg. rewrite Hfr. split_and!; try done. by left.
  - rewrite u32_id in Ha by lia.
    destruct (createPageLocked _ _ _ _ _) as [q [pg|e]]; [|done].
    destruct (pg_free pg) as [|x r]; [done|]. injection Ha as <- <- <- <-. split.
    + intros k pg' Hk. apply (scanPages_None _ _ _ Hscan); lia.
    + by left.
Qed.

(** A size that has a class stays promoted, also after its last page was
    removed: the next record of that size goes into the pool at once, however
    few records of that size there are.  (With a page number and a temp name
    left, and no fault of the file system.) *)
Theorem Put_promoted_stores p pid s c b
    (Hw : wf p) (Hs : 0 < s <= maxRecordBytes p) (Hc : classes p !! s = Some c)
    (Hn : nextPage c < 2 ^ 32 - 1) (Hb : blen b = s) (Ht : no_stale_temp p pid) :
  exists l, snd (Put p pid s b noFaults) = Ok (Some l).
Proof.
  unfold Put.
  rewrite (proj2 (Z.leb_gt s 0)), (proj2 (Z.ltb_ge _ s)), (proj2 (Z.eqb_eq _ s)) by lia.
  simpl. rewrite Hc. by apply putInClass_ok; [..|apply capOf_pos| |].
Qed.

(** Page file names round trip: the discovery regexp and integer parsers
    give back the record size and page number that [pageFileName] printed, so
    different pages have different files. *)
Theorem pageFileName_roundtrip s n
    (Hs : 0 < s < 2 ^ 63) (Hn : 0 <= n < 2 ^ 32) :
  exists m1 m2, pageNameRe (pageFileName s n) = Some (m1, m2) /\
    parseBelow (2 ^ 63) m1 = Some s /\ parseBelow (2 ^ 32) m2 = Some n.
Proof.
  exists (itoa s), (itoa n). rewrite pageNameRe_pageFileName by lia.
  by rewrite !parseBelow_itoa by lia.
Qed.

(** ** Witnesses *)

Definition smallPool : Pool := New 8 16 ∅.
Definition blockPool : Pool := New 4096 8192 ∅.

Lemma wf_empty maxRecord pageSize :
  0 < maxRecord <= pageSize -> pageSize < 2 ^ 32 -> wf (New maxRecord pageSize ∅).
Proof. intros. by apply wf_New. Qed.

Lemma pages_left_empty maxRecord pageSize s : pages_left (New maxRecord pageSize ∅) s.
Proof. by intros c Hc. Qed.

(** A pool has pages left when none of its classes is full. *)
Lemma pages_left_decide p :
  bool_decide (map_Forall (fun _ c => nextPage c < 2 ^ 32 - 1) (classes p)) = true -> forall n, pages_left p n.
Proof. intros H%bool_decide_eq_true n c Hc. exact (H n c Hc). Qed.

Lemma no_stale_empty maxRecord pageSize pid : no_stale_temp (New maxRecord pageSize ∅) pid.
Proof. by intros s n k. Qed.

(** A pool that holds one record. *)
Lemma one_record b :
  blen b = 4 -> exists q l, wf q /\ models q {[ (4, l) := b ]} /\ IsZero l = false.
Proof.
  intros Hb. destruct (promote_wf smallPool 4) as [Hw Hv]; [by apply wf_empty|done|lia|].
  assert (Hm := proj1 (models_proper _ _ Hv ∅ ∅ eq_refl) (models_New 8 16 ∅)).
  destruct (putInClass_ok _ [] 4 (mkClass 4 4 ∅ 0) b Hw) as [l Hl]; [done..|].
  destruct (putInClass _ _ _ _ _ _) as [q r] eqn:E in Hl. simpl in Hl. subst r.
  apply (putInClass_spec _ _ _ _ _ _ ∅) in E as (Hwq & Hz & _ & Hmq); try done.
  by exists q, l.
Qed.

Lemma Put_refines_witness :
  exists q, Put smallPool #"7" 4 #"abcd" noFaults = (q, Ok (Some (mkLoc 1 3))) /\
    wf q /\ models q {[ (4, mkLoc 1 3) := #"abcd" ]}.
Proof.
  eexists. split; [vm_compute; reflexivity|].
  destruct (Put_refines smallPool #"7" 4 #"abcd" noFaults ∅
    (fst (Put smallPool #"7" 4 #"abcd" noFaults)) (Ok (Some (mkLoc 1 3)))) as (H1 & H2 & H3 & H4).
  - by apply wf_empty.
  - apply models_New.
  - apply pages_left_empty.
  - vm_compute. reflexivity.
  - by split.
Defined.

Lemma Free_refines_witness :
  exists q l, models q {[ (4, l) := #"abcd" ]} /\
    wf (Free q 4 l) /\ models (Free q 4 l) (delete (4, l) {[ (4, l) := #"abcd" ]}).
Proof.
  destruct (one_record #"abcd" eq_refl) as (q & l & Hw & Hm & _). exists q, l. split; [done|].
  apply (Free_refines q 4 l {[ (4, l) := #"abcd" ]}); [done..|].
  rewrite lookup_singleton_eq. by eexists.
Defined.

Lemma restart_refines_witness :
  exists q l, models q {[ (4, l) := #"abcd" ]} /\
    exists q', DiscoverPages (New (maxRecordBytes q) (pageBytes q) (disk q))
        (Ok (map (fun x => (x, false, None)) (map fst (map_to_list (disk q))))) = Ok q' /\
      models (FinishReconcile (noteAll q' [(4, l)])) {[ (4, l) := #"abcd" ]}.
Proof.
  destruct (one_record #"abcd" eq_refl) as (q & l & Hw & Hm & _). exists q, l. split; [done|].
  destruct (restart_refines q {[ (4, l) := #"abcd" ]} (map fst (map_to_list (disk q))) [(4, l)])
    as (q' & Hq & _ & _ & Hm'); try done.
  - intros x. rewrite list_elem_of_fmap. split.
    + intros ([k v] & -> & Hin%elem_of_map_to_list). eauto.
    + intros [v Hv]. exists (x, v). split; [done|]. by apply elem_of_map_to_list.
  - intros k. rewrite list_elem_of_singleton. split.
    + intros ->. rewrite lookup_singleton_eq. eauto.
    + intros [v Hv]. by apply lookup_singleton_Some in Hv as [<- _].
  - exists q'. by split.
Defined.

Lemma Put_promotes_at_breakeven_witness :
  exists q, puts blockPool #"7" 5 [ #"aaaaa" ] = (q, [Ok None]) /\ disk q = ∅ /\
    exists l, snd (Put q #"7" 5 #"bbbbb" noFaults) = Ok (Some l).
Proof.
  apply (Put_promotes_at_breakeven blockPool #"7" 5 [ #"aaaaa" ] #"bbbbb"); try done.
  by repeat constructor.
Defined.

(** A class whose only page is full. *)
Definition fullClass : class := mkClass 4 4 {[ 1 := mkPage #"records.4.p1.bin" [] ]} 1.

Lemma allocateLocked_dense_witness :
  snd (allocateLocked smallPool [] fullClass None) = Ok (2, 3) /\
  forall k pg, 1 <= k < 2 -> pages fullClass !! k = Some pg -> pg_free pg = [].
Proof.
  split; [vm_compute; reflexivity|].
  destruct (allocateLocked_dense smallPool [] fullClass None
    (fst (fst (allocateLocked smallPool [] fullClass None)))
    (snd (fst (allocateLocked smallPool [] fullClass None))) 2 3) as [H _].
  - vm_compute. reflexivity.
  - simpl. lia.
  - exact H.
Defined.

Lemma Put_promoted_stores_witness :
  exists l, snd (Put (put_class smallPool 4 (mkClass 4 4 ∅ 0)) #"7" 4 #"abcd" noFaults) = Ok (Some l).
Proof.
  apply (Put_promoted_stores _ _ 4 (mkClass 4 4 ∅ 0)); try done.
  apply (promote_wf smallPool 4); [by apply wf_empty|done|lia].
Defined.

Lemma pageFileName_roundtrip_witness :
  exists m1 m2, pageNameRe (pageFileName 100 2) = Some (m1, m2) /\
    parseBelow (2 ^ 63) m1 = Some 100 /\ parseBelow (2 ^ 32) m2 = Some 2.
Proof. apply (pageFileName_roundtrip 100 2); lia. Defined.
