(* ===== verification/EvictHeap.v ===== *)
(** src/internal/gocache/eviction_heap.go and [moreEvictable] of
    src/internal/gocache/store.go: the eviction priority, and the binary heap of
    Go's [container/heap] over it.  The theorems show that the priority is a
    strict weak order, that pushing and popping keep the heap order and the
    entries, and that a pop returns an entry than which none is more evictable. *)
From S2P Require Import Prelude.
From S2P Require Import GoStrings.

(** ** container/heap on a slice *)

Section heap.
Context {A : Type} (less : A -> A -> bool).

Definition swap (l : list A) (i j : nat) : list A :=
  match l !! i, l !! j with
  | Some a, Some b => <[i := b]> (<[j := a]> l)
  | _, _ => l
  end.

(** [h.Less(i, j)]; an index out of range never occurs (see [up] and [down]). *)
Definition Less (l : list A) (i j : nat) : bool :=
  match l !! i, l !! j with Some a, Some b => less a b | _, _ => false end.

(** The parent of a node: Go's [(j - 1) / 2], which is 0 at the root. *)
Definition parent (j : nat) : nat := ((j - 1) / 2)%nat.

(** [heap.up]: [j] at least halves in every round. *)
Fixpoint up (fuel : nat) (l : list A) (j : nat) : list A :=
  match fuel with
  | O => l
  | S fuel' =>
      let i := parent j in
      if ((i =? j)%nat || negb (Less l j i)) then l
      else up fuel' (swap l i j) i
  end.

(** [heap.down] on the first [n] elements: [i] grows in every round. *)
Fixpoint down (fuel : nat) (l : list A) (i n : nat) : list A :=
  match fuel with
  | O => l
  | S fuel' =>
      let j1 := (2 * i + 1)%nat in
      if (n <=? j1)%nat then l
      else
        let j2 := (j1 + 1)%nat in
        let j := if ((j2 <? n)%nat && Less l j2 j1) then j2 else j1 in
        if negb (Less l j i) then l else down fuel' (swap l i j) j n
  end.

Definition heapPush (l : list A) (x : A) : list A :=
  let l := l ++ [x] in up (length l) l (length l - 1).

(** [heap.Pop]: the popped element and the rest; [None] stands for the index
    panic on an empty heap. *)
Definition heapPop (l : list A) : option (A * list A) :=
  let n := (length l - 1)%nat in
  let l := down (length l) (swap l 0 n) 0 n in
  match last l with
  | Some x => Some (x, take n l)
  | None => None
  end.

(** Every element is at most as good as its parent, for the first [n]. *)
Definition heap_ordered (l : list A) : Prop :=
  forall j, (0 < j)%nat -> Less l j (parent j) = false.

End heap.

(** ** evictionHeap *)

(** [moreEvictable] with the two modification times of the index entries, in
    microseconds, and the bucket in nanoseconds. *)
Definition moreEvictable (modA sizeA modB sizeB bucket : Z) : bool :=
  if bucket <=? 0 then modA <? modB
  else
    let bucketMicro := Z.quot bucket 1000 in
    let bucketA := Z.quot modA bucketMicro in
    let bucketB := Z.quot modB bucketMicro in
    if negb (bucketA =? bucketB) then bucketA <? bucketB
    else sizeB <? sizeA.

(** A bucket under a microsecond would divide by zero. *)
Definition bucket_ok (bucket : Z) : Prop := bucket <= 0 \/ 1000 <= bucket.

Record evictionHeapEntry := mkHeapEntry {
  eh_path : bytes;
  eh_size : Z;
  eh_modTimeMicro : Z;
}.

#[export] Instance evictionHeapEntry_eq_dec : EqDecision evictionHeapEntry.
Proof. solve_decision. Defined.

Record evictionHeap := mkEvictionHeap {
  items : list evictionHeapEntry;
  bucket : Z;
}.

Definition newEvictionHeap (bucket : Z) : evictionHeap := mkEvictionHeap [] bucket.

Definition heapLess (bucket : Z) (a b : evictionHeapEntry) : bool :=
  moreEvictable (eh_modTimeMicro a) (eh_size a) (eh_modTimeMicro b) (eh_size b) bucket.

Definition push (h : evictionHeap) (path : bytes) (size modTimeMicro : Z) : evictionHeap :=
  mkEvictionHeap
    (heapPush (heapLess (bucket h)) (items h) (mkHeapEntry path size modTimeMicro))
    (bucket h).

Definition pop (h : evictionHeap) : option (evictionHeapEntry * evictionHeap) :=
  if bool_decide (items h = []) then None
  else match heapPop (heapLess (bucket h)) (items h) with
  | Some (e, l) => Some (e, mkEvictionHeap l (bucket h))
  | None => None
  end.

(** ** Permutation *)

Lemma insert_perm {A} (l : list A) i a b :
  l !! i = Some b -> a :: l ≡ₚ b :: <[i := a]> l.
Proof.
  revert i. induction l as [|c l IH]; intros [|i] Hi; simplify_eq/=.
  - apply perm_swap.
  - rewrite perm_swap, (IH i) by done. apply perm_swap.
Qed.

Lemma swap_perm {A} (l : list A) i j : swap l i j ≡ₚ l.
Proof.
  unfold swap. destruct (l !! i) as [a|] eqn:Hi, (l !! j) as [b|] eqn:Hj; try done.
  apply (Permutation_cons_inv (a := a)).
  assert (Hi' : <[j := a]> l !! i = Some a).
  { destruct (decide (i = j)) as [->|]; [|by rewrite list_lookup_insert_ne].
    apply list_lookup_insert_eq. by eapply lookup_lt_Some. }
  rewrite <-(insert_perm _ _ b _ Hi'). symmetry. by apply insert_perm.
Qed.

Lemma length_swap {A} (l : list A) i j : length (swap l i j) = length l.
Proof. by rewrite swap_perm. Qed.

Lemma up_perm {A} less fuel (l : list A) j : up less fuel l j ≡ₚ l.
Proof.
  revert l j. induction fuel as [|fuel IH]; intros l j; simpl; [done|].
  destruct (_ || _); [done|]. by rewrite IH, swap_perm.
Qed.

Lemma down_perm {A} less fuel (l : list A) i n : down less fuel l i n ≡ₚ l.
Proof.
  revert l i. induction fuel as [|fuel IH]; intros l i; simpl; [done|].
  destruct (_ <=? _)%nat; [done|]. destruct (negb _); [done|]. by rewrite IH, swap_perm.
Qed.

(** ** Heap order *)

Lemma swap_lookup {A} (l : list A) i j k :
  (i < length l)%nat -> (j < length l)%nat ->
  swap l i j !! k =
  if decide (k = i) then l !! j else if decide (k = j) then l !! i else l !! k.
Proof.
  intros Hi Hj. unfold swap.
  destruct (lookup_lt_is_Some_2 l i Hi) as [a Ha], (lookup_lt_is_Some_2 l j Hj) as [b Hb].
  rewrite Ha, Hb. case_decide as H1; [subst; rewrite list_lookup_insert_eq|].
  - done.
  - by rewrite length_insert.
  - rewrite list_lookup_insert_ne by done. case_decide; subst.
    + by rewrite list_lookup_insert_eq.
    + by rewrite list_lookup_insert_ne.
Qed.

Section order.
Context `{Inhabited A} (less : A -> A -> bool) `{!StrictWeak less}.
Implicit Types l : list A.

(** [Less] on total lookups. *)
Definition lt_at l (i j : nat) : bool := less (l !!! i) (l !!! j).

Lemma Less_at l i j :
  (i < length l)%nat -> (j < length l)%nat -> Less less l i j = lt_at l i j.
Proof.
  intros Hi Hj. unfold Less, lt_at. by rewrite !list_lookup_lookup_total_lt.
Qed.

Lemma swap_total l i j k :
  (i < length l)%nat -> (j < length l)%nat ->
  swap l i j !!! k =
  if decide (k = i) then l !!! j else if decide (k = j) then l !!! i else l !!! k.
Proof.
  intros Hi Hj. rewrite !list_lookup_total_alt, swap_lookup by done. by repeat case_decide.
Qed.

(** Heap order of the first [n] elements. *)
Definition ordered_to l (n : nat) : Prop :=
  forall k, (0 < k < n)%nat -> lt_at l k (parent k) = false.

Lemma parent_lt k : (0 < k)%nat -> (parent k < k)%nat.
Proof. intros Hk. unfold parent. apply Nat.Div0.div_lt_upper_bound. lia. Qed.

Lemma parent_cases k i : (0 < k)%nat -> parent k = i <-> (k = 2 * i + 1 \/ k = 2 * i + 2)%nat.
Proof.
  intros Hk. unfold parent. assert (Hd := Nat.div_mod_eq (k - 1) 2).
  assert (Hm := Nat.mod_upper_bound (k - 1) 2). lia.
Qed.

(** The order holds except between [j] and its parent. *)
Definition ok_up l (j : nat) : Prop :=
  (forall k, (0 < k < length l)%nat -> k <> j -> lt_at l k (parent k) = false) /\
  (forall k, (0 < k < length l)%nat -> parent k = j -> (0 < j)%nat -> lt_at l k (parent j) = false).

Lemma ok_up_swap l j :
  ok_up l j -> (0 < j < length l)%nat -> lt_at l j (parent j) = true ->
  ok_up (swap l (parent j) j) (parent j).
Proof.
  intros [H1 H2] Hj Hlt. assert (Hp := parent_lt j ltac:(lia)). set (i := parent j) in *.
  unfold ok_up. rewrite length_swap. unfold lt_at in *.
  split; intros k Hk; rewrite !swap_total by lia.
  - intros Hki. rewrite (decide_False (P := k = i)) by done.
    assert (Hpk := parent_lt k ltac:(lia)).
    destruct (decide (k = j)) as [->|Hkj].
    + rewrite decide_True by done. by apply (sw_asym less).
    + destruct (decide (parent k = i)) as [E|].
      * specialize (H1 k Hk Hkj). rewrite E in H1.
        destruct (less (l !!! k) (l !!! j)) eqn:E'; [|done].
        rewrite <-H1. symmetry. by eapply sw_trans.
      * destruct (decide (parent k = j)) as [E|]; [|by apply H1].
        apply H2; [done..|lia].
  - intros Hki Hi. assert (Hpi := parent_lt i Hi).
    rewrite (decide_False (P := k = i)) by (intros ->; lia).
    rewrite (decide_False (P := parent i = i)), (decide_False (P := parent i = j)) by lia.
    assert (Hi1 : less (l !!! i) (l !!! parent i) = false) by (apply H1; lia).
    destruct (decide (k = j)) as [->|Hkj]; [done|].
    specialize (H1 k Hk Hkj). rewrite Hki in H1. by eapply sw_incomp.
Qed.

Lemma up_ordered fuel l j :
  (j < fuel)%nat -> (j < length l)%nat -> ok_up l j -> ordered_to (up less fuel l j) (length l).
Proof.
  revert l j. induction fuel as [|fuel IH]; intros l j Hf Hj Hok; [lia|]. simpl.
  destruct (decide (j = 0%nat)) as [->|Hj0].
  { simpl. intros k Hk. apply Hok; lia. }
  assert (Hp := parent_lt j ltac:(lia)).
  rewrite (proj2 (Nat.eqb_neq _ _)) by lia. rewrite Less_at by lia. simpl.
  destruct (lt_at l j (parent j)) eqn:E; simpl.
  - rewrite <-(length_swap l (parent j) j). apply IH; [lia|rewrite length_swap; lia|].
    apply ok_up_swap; [done|lia|done].
  - intros k Hk. destruct (decide (k = j)) as [->|]; [done|]. by apply Hok.
Qed.

(** The order of the first [n] elements holds except below [i]. *)
Definition ok_down l (i n : nat) : Prop :=
  (forall k, (0 < k < n)%nat -> parent k <> i -> lt_at l k (parent k) = false) /\
  (forall k, (0 < k < n)%nat -> parent k = i -> (0 < i)%nat -> lt_at l k (parent i) = false).

Lemma ok_down_swap l i j n :
  ok_down l i n -> (n <= length l)%nat -> (0 < j < n)%nat -> parent j = i ->
  lt_at l j i = true ->
  (forall k, (0 < k < n)%nat -> parent k = i -> lt_at l k j = false) ->
  ok_down (swap l i j) j n.
Proof.
  intros [H1 H2] Hn Hj Hpj Hlt Hmin. assert (Hp := parent_lt j ltac:(lia)). unfold lt_at in *.
  split; intros k Hk; unfold lt_at; rewrite !swap_total by lia;
    assert (Hpk := parent_lt k ltac:(lia)).
  - intros Hkj. rewrite (decide_False (P := parent k = j)) by done.
    destruct (decide (k = i)) as [->|Hki].
    + rewrite decide_False by lia. apply H2; [lia..|done|lia].
    + destruct (decide (k = j)) as [->|].
      * rewrite decide_True by done. by apply (sw_asym less).
      * destruct (decide (parent k = i)); [by apply Hmin|by apply H1].
  - intros Hkj Hj0. rewrite Hpj.
    rewrite (decide_False (P := k = i)), (decide_False (P := k = j)) by lia.
    rewrite (decide_True (P := i = i)) by done. rewrite <-Hkj. apply H1; lia.
Qed.

Lemma down_ordered fuel l i n :
  (n <= fuel + i)%nat -> (n <= length l)%nat -> ok_down l i n ->
  ordered_to (down less fuel l i n) n.
Proof.
  revert l i. induction fuel as [|fuel IH]; intros l i Hf Hn Hok; simpl.
  { intros k Hk. assert (Hpk := parent_lt k ltac:(lia)). apply Hok; lia. }
  replace (i + (i + 0) + 1)%nat with (2 * i + 1)%nat by lia.
  set (j1 := (2 * i + 1)%nat). destruct (Nat.leb_spec n j1) as [Hj1|Hj1].
  { intros k Hk. apply Hok; [done|]. rewrite parent_cases by lia. lia. }
  set (j := if ((j1 + 1 <? n)%nat && Less less l (j1 + 1) j1) then (j1 + 1)%nat else j1).
  assert (Hj : (0 < j < n)%nat /\ parent j = i /\
    forall k, (0 < k < n)%nat -> parent k = i -> lt_at l k j = false).
  { assert (Hc : forall k, (0 < k < n)%nat -> parent k = i -> k = j1 \/ k = (j1 + 1)%nat).
    { intros k Hk Hpk. apply parent_cases in Hpk; lia. }
    unfold j. destruct (Nat.ltb_spec (j1 + 1) n) as [Hj2|Hj2]; cbn [andb].
    - rewrite Less_at by lia. destruct (lt_at l (j1 + 1) j1) eqn:E.
      + split; [lia|]. split; [apply parent_cases; lia|].
        intros k Hk Hpk. destruct (Hc k Hk Hpk) as [->| ->]; [by apply (sw_asym less)|apply (sw_irrefl (less := less))].
      + split; [lia|]. split; [apply parent_cases; lia|].
        intros k Hk Hpk. destruct (Hc k Hk Hpk) as [->| ->]; [apply (sw_irrefl (less := less))|done].
    - split; [lia|]. split; [apply parent_cases; lia|].
      intros k Hk Hpk. destruct (Hc k Hk Hpk) as [->| ->]; [apply (sw_irrefl (less := less))|lia]. }
  clearbody j. destruct Hj as (Hj & Hpj & Hmin). assert (Hp := parent_lt j ltac:(lia)).
  rewrite Less_at by lia. destruct (lt_at l j i) eqn:E; simpl.
  - apply IH; [lia|rewrite length_swap; lia|]. by apply ok_down_swap.
  - intros k Hk. destruct (decide (parent k = i)) as [Hki|Hki]; [|by apply Hok].
    rewrite Hki. apply (sw_incomp (less := less) _ (l !!! j)); [by apply Hmin|exact E].
Qed.

Lemma down_beyond fuel l i n k :
  (n <= length l)%nat -> (n <= k)%nat ->
  down less fuel l i n !! k = l !! k.
Proof.
  revert l i. induction fuel as [|fuel IH]; intros l i Hn Hk; simpl; [done|].
  replace (i + (i + 0) + 1)%nat with (2 * i + 1)%nat by lia.
  destruct (Nat.leb_spec n (2 * i + 1)) as [|Hj1]; [done|].
  set (j := if ((2 * i + 1 + 1 <? n)%nat && Less less l (2 * i + 1 + 1) (2 * i + 1))
            then (2 * i + 1 + 1)%nat else (2 * i + 1)%nat).
  assert (Hj : (j < n)%nat).
  { unfold j. destruct (Nat.ltb_spec (2 * i + 1 + 1) n); cbn [andb]; [destruct (Less _ _ _ _)|]; lia. }
  destruct (negb _); [done|]. rewrite IH by (rewrite ?length_swap; lia).
  rewrite swap_lookup by lia. by rewrite !decide_False by lia.
Qed.

(** The root is minimal. *)
Lemma ordered_root l n k :
  ordered_to l n -> (k < n)%nat -> less (l !!! k) (l !!! 0%nat) = false.
Proof.
  intros Ho. induction k as [k IH] using lt_wf_ind. intros Hk.
  destruct (decide (k = 0%nat)) as [->|Hk0]; [apply sw_irrefl|].
  assert (Hp := parent_lt k ltac:(lia)).
  apply (sw_incomp _ (l !!! parent k)); [apply Ho; lia|apply IH; lia].
Qed.

Lemma heapPush_ordered l x :
  ordered_to l (length l) -> ordered_to (heapPush less l x) (length (heapPush less l x)).
Proof.
  intros Ho. unfold heapPush. rewrite (Permutation_length (up_perm less _ _ _)).
  apply up_ordered; rewrite ?length_app; simpl; try lia.
  replace (length l + 1 - 1)%nat with (length l) by lia.
  assert (Hl : forall k, (k < length l)%nat -> (l ++ [x]) !!! k = l !!! k).
  { intros k Hk. by rewrite lookup_total_app_l. }
  split; intros k; rewrite length_app; simpl; intros Hk.
  - intros Hkl. assert (Hp := parent_lt k ltac:(lia)).
    unfold lt_at. rewrite !Hl by lia. apply Ho. lia.
  - assert (Hp := parent_lt k ltac:(lia)). lia.
Qed.

Lemma heapPop_spec l :
  ordered_to l (length l) -> l <> [] ->
  exists x l', heapPop less l = Some (x, l') /\ l ≡ₚ x :: l' /\
    ordered_to l' (length l') /\ forall y, y ∈ l -> less y x = false.
Proof.
  intros Ho Hne. unfold heapPop. set (n := (length l - 1)%nat).
  assert (Hlen : length l = S n) by (unfold n; destruct l; [done|simpl; lia]).
  set (l1 := swap l 0 n). set (l2 := down less (length l) l1 0 n).
  assert (Hp2 : l2 ≡ₚ l) by (unfold l2; by rewrite down_perm; apply swap_perm).
  assert (Hl1 : length l1 = S n) by (unfold l1; by rewrite length_swap).
  assert (Hl2 : length l2 = S n) by (rewrite Hp2; done).
  assert (Hlast : l2 !! n = Some (l !!! 0%nat)).
  { unfold l2. rewrite down_beyond by lia. unfold l1. rewrite swap_lookup by lia.
    rewrite <-list_lookup_lookup_total_lt by lia. case_decide as E; [by rewrite E|].
    by rewrite decide_True. }
  rewrite last_lookup, Hl2. simpl. rewrite Hlast. exists (l !!! 0%nat), (take n l2).
  split; [done|]. split; [|split].
  - etransitivity; [symmetry; exact Hp2|]. rewrite <-(take_drop n l2) at 1.
    rewrite (drop_S _ _ _ Hlast), drop_ge by lia. by rewrite Permutation_app_comm.
  - rewrite length_take, Hl2, Nat.min_l by lia.
    assert (Ho2 : ordered_to l2 n).
    { apply down_ordered; [lia..|]. split; [|lia]. intros k Hk Hpk.
      assert (Hpl := parent_lt k ltac:(lia)). unfold lt_at, l1. rewrite !swap_total by lia.
      rewrite !decide_False by lia. apply Ho. lia. }
    intros k Hk. assert (Hpl := parent_lt k ltac:(lia)). specialize (Ho2 k Hk).
    unfold lt_at in *. by rewrite !list_lookup_total_alt, !lookup_take_lt,
      <-!list_lookup_total_alt by lia.
  - intros y [k Hk]%list_elem_of_lookup. apply list_lookup_total_correct in Hk as Hy.
    rewrite <-Hy. apply (ordered_root l (length l)); [done|]. by eapply lookup_lt_Some.
Qed.
End order.

(** ** The eviction priority *)

#[export] Instance evictionHeapEntry_inhabited : Inhabited evictionHeapEntry :=
  populate (mkHeapEntry [] 0 0).

#[export] Instance heapLess_strict b : StrictWeak (heapLess b).
Proof.
  split; intros; unfold heapLess, moreEvictable in *; destruct (b <=? 0);
    repeat match goal with
    | |- context [?x =? ?y] => destruct (Z.eqb_spec x y)
    | H : context [?x =? ?y] |- _ => destruct (Z.eqb_spec x y)
    end; simpl in *; go_bool;
    rewrite ?Z.ltb_lt, ?Z.ltb_ge; lia.
Qed.

(** ** evictionHeap keeps its entries in heap order *)

Definition heap_wf (h : evictionHeap) : Prop :=
  ordered_to (heapLess (bucket h)) (items h) (length (items h)).

Lemma heap_wf_new b : heap_wf (newEvictionHeap b).
Proof. intros k Hk. simpl in Hk. lia. Qed.

Lemma push_items h p s m : items (push h p s m) ≡ₚ mkHeapEntry p s m :: items h.
Proof.
  unfold push, heapPush. simpl. rewrite (up_perm (heapLess (bucket h))).
  by rewrite Permutation_app_comm.
Qed.

Lemma heap_wf_push h p s m : heap_wf h -> heap_wf (push h p s m).
Proof. intros Hw. by apply heapPush_ordered; [apply _|]. Qed.

Lemma pop_None h : pop h = None -> heap_wf h -> items h = [].
Proof.
  unfold pop. case_bool_decide as He; [done|]. intros H Hw.
  destruct (heapPop_spec (heapLess (bucket h)) (items h) Hw He) as (x & l & E & _).
  by rewrite E in H.
Qed.

Lemma pop_Some h e h' :
  pop h = Some (e, h') -> heap_wf h ->
  items h ≡ₚ e :: items h' /\ heap_wf h' /\ bucket h' = bucket h /\
  forall y, y ∈ items h -> heapLess (bucket h) y e = false.
Proof.
  unfold pop. case_bool_decide as He; [done|]. intros H Hw.
  destruct (heapPop_spec (heapLess (bucket h)) (items h) Hw He) as (x & l & E & Hp & Ho & Hm).
  rewrite E in H. by injection H as <- <-.
Qed.

Lemma pop_total h : heap_wf h -> items h <> [] -> is_Some (pop h).
Proof.
  intros Hw He. destruct (pop h) eqn:E; [by eexists|]. by apply pop_None in E.
Qed.

#[export] Hint Resolve heap_wf_new heap_wf_push : gocache.

(** Popping everything; the number of entries is enough fuel. *)
Fixpoint drain (fuel : nat) (h : evictionHeap) : list evictionHeapEntry :=
  match fuel with
  | O => []
  | S fuel' => match pop h with Some (e, h') => e :: drain fuel' h' | None => [] end
  end.

Lemma drain_spec fuel h :
  heap_wf h -> (length (items h) <= fuel)%nat ->
  drain fuel h ≡ₚ items h /\ ordered_by (heapLess (bucket h)) (drain fuel h).
Proof.
  revert h. induction fuel as [|fuel IH]; intros h Hw Hl; simpl.
  { destruct (items h); [|simpl in Hl; lia]. auto with gocache. }
  destruct (pop h) as [[e h']|] eqn:E.
  - apply pop_Some in E as (Hp & Hw' & Hb & Hm); [|done].
    assert (Hl' : length (items h) = S (length (items h'))) by (by rewrite Hp).
    destruct (IH h' Hw') as [Hp' Ho']; [lia|]. split; [by rewrite Hp, Hp'|].
    apply ordered_by_cons. rewrite <-Hb. split; [|done].
    rewrite Hp', Hb. apply Forall_forall. intros y Hy. apply Hm. rewrite Hp. by right.
  - apply pop_None in E; [|done]. rewrite E. auto with gocache.
Qed.

(** The entries pushed in turn. *)
Definition pushAll (h : evictionHeap) (l : list evictionHeapEntry) : evictionHeap :=
  foldl (fun h e => push h (eh_path e) (eh_size e) (eh_modTimeMicro e)) h l.

Lemma pushAll_spec h l :
  heap_wf h -> heap_wf (pushAll h l) /\ items (pushAll h l) ≡ₚ items h ++ l /\
  bucket (pushAll h l) = bucket h.
Proof.
  revert h. induction l as [|e l IH]; intros h Hw; simpl; [by rewrite app_nil_r|].
  destruct (IH (push h (eh_path e) (eh_size e) (eh_modTimeMicro e))) as (H1 & H2 & H3);
    [auto with gocache|].
  split; [done|]. split; [|done]. rewrite H2, push_items. destruct e. simpl.
  by rewrite Permutation_middle.
Qed.

(** The eviction heap yields its entries in eviction order.  Whatever was
    pushed, popping until the heap is empty gives every entry exactly once, and
    no entry comes out before one that [moreEvictable] ranks before it: oldest
    modification bucket first and, within a bucket, largest first. *)
Theorem heap_drains_in_order bkt l (Hb : bucket_ok bkt) :
  let out := drain (length l) (pushAll (newEvictionHeap bkt) l) in
  out ≡ₚ l /\ ordered_by (heapLess bkt) out.
Proof.
  intros out. destruct (pushAll_spec (newEvictionHeap bkt) l) as (Hw & Hp & He);
    [auto with gocache|]. simpl in Hp, He.
  destruct (drain_spec (length l) _ Hw) as [H1 H2]; [by rewrite Hp|].
  rewrite He in H2. split; [|done]. by rewrite <-Hp.
Qed.

Lemma heap_drains_in_order_witness :
  let l := [mkHeapEntry #"new" 9 7200000001; mkHeapEntry #"small" 1 5;
            mkHeapEntry #"large" 8 3000000000] in
  bucket_ok (3600 * 10 ^ 9) /\
  drain 3 (pushAll (newEvictionHeap (3600 * 10 ^ 9)) l) =
    [mkHeapEntry #"large" 8 3000000000; mkHeapEntry #"small" 1 5;
     mkHeapEntry #"new" 9 7200000001] /\
  ordered_by (heapLess (3600 * 10 ^ 9))
    (drain 3 (pushAll (newEvictionHeap (3600 * 10 ^ 9)) l)).
Proof.
  intros l. assert (Hb : bucket_ok (3600 * 10 ^ 9)) by (right; lia).
  split; [done|]. split; [vm_compute; reflexivity|].
  apply (heap_drains_in_order (3600 * 10 ^ 9) l Hb).
Defined.
