(* ===== verification/Wire.v ===== *)
(** The wire formats of src/internal/gocache/store.go: file items with their body
    readers, the length-prefixed item stream ([StreamWriter], [ReadStream]) and
    the batch format ([Batch.WriteTo], [Batch.ReaderFrom]).  A reader is the bytes
    it will deliver and the error, if any, it ends with; JSON and zstd are
    interfaces with their round-trip laws. *)
From S2P Require Import Prelude.
From S2P Require Import GoStrings.

(** ** Readers *)

(** What an [io.Reader] will deliver: bytes, then EOF or an error. *)
Record stream := mkStream { st_data : bytes; st_err : option goerr }.

#[export] Instance stream_eq_dec : EqDecision stream.
Proof. solve_decision. Defined.

Definition fromBytes (b : bytes) : stream := mkStream b None.

Definition ReadAll (rd : stream) : result bytes :=
  match st_err rd with Some e => Err e | None => Ok (st_data rd) end.

(** [io.ReadFull] of [n] bytes: the bytes and the rest of the reader. *)
Definition ReadFull (rd : stream) (n : Z) : result (bytes * stream) :=
  if n <=? blen (st_data rd) then
    Ok (take (Z.to_nat n) (st_data rd), mkStream (drop (Z.to_nat n) (st_data rd)) (st_err rd))
  else match st_err rd with
  | Some e => Err e
  | None => if bool_decide (st_data rd = []) then Err EEOF else Err (EMsg "unexpected EOF")
  end.

(** [io.LimitReader(rd, n)]: an error behind the limit is not seen. *)
Definition LimitReader (rd : stream) (n : Z) : stream :=
  if n <=? blen (st_data rd) then fromBytes (take (Z.to_nat n) (st_data rd)) else rd.

(** The bytes a (possibly nil) reader delivers before EOF. *)
Definition delivers (rd : option stream) (b : bytes) : Prop :=
  match rd with Some rd => ReadAll rd = Ok b | None => b = [] end.

Definition ErrShortRead : goerr := EShortRead.

(** [readItemBody]: [read] sees at most [wireSize] bytes; what it leaves is
    drained, so only its result matters, not how much of the body it read.  The
    state is what the callback has made of the world, also when it fails. *)
Definition readItemBody {S} (rd : stream) (wireSize : Z)
    (read : stream -> S -> S * option goerr) (s : S) : S * result (stream * Z) :=
  let cr := LimitReader rd wireSize in
  match read cr s with
  | (s, Some e) => (s, Err e)
  | (s, None) =>
      match st_err cr with
      | Some e => (s, Err e)
      | None =>
          let n := blen (st_data cr) in
          if negb (n =? wireSize) then (s, Err ErrShortRead)
          else (s, Ok (mkStream (drop (Z.to_nat n) (st_data rd)) (st_err rd), n))
      end
  end.

(** ** Big-endian int32 headers *)

Definition byte_of (x : Z) : ascii := ascii_of_nat (Z.to_nat (x mod 256)).
Definition of_byte (c : ascii) : Z := Z.of_nat (nat_of_ascii c).

Definition putInt32 (n : Z) : bytes :=
  let m := n mod 2 ^ 32 in
  [byte_of (Z.shiftr m 24); byte_of (Z.shiftr m 16); byte_of (Z.shiftr m 8); byte_of m].

Definition getInt32 (b : bytes) : Z :=
  let m := foldl (fun a c => Z.lor (Z.shiftl a 8) (of_byte c)) 0 b in
  if m <? 2 ^ 31 then m else m - 2 ^ 32.

Definition MaxInt32 : Z := 2 ^ 31 - 1.

Definition checkedJSONLength (jsonData : bytes) : result Z :=
  if MaxInt32 <? blen jsonData then Err (EMsg "response header too large")
  else Ok (blen jsonData).

(** ** External codecs *)

(** klauspost/compress: the one-shot encoder and decoder and the streaming
    reader the code uses, with the documented round trip; no error of the
    decoder is one of the file system. *)
Class Zstd := {
  EncodeZstd : bytes -> bytes;
  DecodeZstd : bytes -> result bytes;
  zstdReader : stream -> result stream;
  DecodeZstd_Encode b : DecodeZstd (EncodeZstd b) = Ok b;
  DecodeZstd_exists b : DecodeZstd b <> Err ENotExist;
  zstdReader_Encode b : zstdReader (fromBytes (EncodeZstd b)) = Ok (fromBytes b);
}.

(** encoding/json on a type: values with text that is not valid UTF-8 do not
    round trip, [json_ok] is the part that does.  The text of an object is
    never empty. *)
Class JSON (A : Type) := {
  Marshal : A -> result bytes;
  Unmarshal : bytes -> result A;
  json_ok : A -> Prop;
  Unmarshal_Marshal a : json_ok a -> exists b, Marshal a = Ok b /\ b <> [] /\ Unmarshal b = Ok a;
}.

(** ** File items *)

(** The exported fields of [FileItem], those that JSON carries.  A modification
    time is a number: of microseconds in a store, of nanoseconds in a build directory. *)
Record FileMeta := mkFileMeta {
  fi_Path : bytes;
  fi_Size : Z;
  fi_ModTime : option Z;
  fi_Mode : Z;
  fi_IsCompressed : bool;
  fi_WireSize : Z;
  fi_DiskPath : bytes;
}.

#[export] Instance FileMeta_eq_dec : EqDecision FileMeta.
Proof. solve_decision. Defined.

(** An item with its body source: [fi_body] is what calling [bodyReader] gives
    after [PrepareBodyReader] ([None] is a nil [bodyReader]). *)
Record FileItem := mkFileItem {
  fi_meta : FileMeta;
  fi_body : option (result stream);
}.

Definition SetBodyReader (fi : FileItem) (rd : result stream) : FileItem :=
  mkFileItem (fi_meta fi) (Some rd).

(** [PrepareBodyReader]: an item without reader reads its [DiskPath], [open]
    being what opening that path gives. *)
Definition PrepareBodyReader (fi : FileItem) (open : bytes -> result stream) : FileItem :=
  match fi_body fi with
  | Some _ => fi
  | None =>
      if bool_decide (fi_DiskPath (fi_meta fi) = []) then fi
      else mkFileItem (fi_meta fi) (Some (open (fi_DiskPath (fi_meta fi))))
  end.

Definition FileMode (fi : FileMeta) : Z := fi_Mode fi.

(** A reader, or Go's nil reader of an empty item. *)
Definition bodyOf (fi : FileItem) : result (option stream) :=
  if (fi_Size (fi_meta fi) =? 0) && (fi_WireSize (fi_meta fi) =? 0) then Ok None
  else match fi_body fi with
  | None => Err (EMsg "no body reader for item")
  | Some (Err e) => Err e
  | Some (Ok rd) => Ok (Some rd)
  end.

Definition WireBodyReader (fi : FileItem) : result (option stream) := bodyOf fi.

Section codecs.
Context `{Zstd}.

Definition UncompressedBodyReader (fi : FileItem) : result (option stream) :=
  match bodyOf fi with
  | Ok (Some rd) =>
      if fi_IsCompressed (fi_meta fi) then
        match zstdReader rd with Ok rd => Ok (Some rd) | Err e => Err e end
      else Ok (Some rd)
  | r => r
  end.

Definition CompressedBodyReader (fi : FileItem) : result (option stream) :=
  match bodyOf fi with
  | Ok (Some rd) =>
      if fi_IsCompressed (fi_meta fi) then Ok (Some rd)
      else match ReadAll rd with
           | Err e => Err e
           | Ok data => Ok (Some (fromBytes (EncodeZstd data)))
           end
  | r => r
  end.
End codecs.

(** The number of bytes an item has on the wire. *)
Definition wireLen (m : FileMeta) : Z :=
  if fi_WireSize m =? 0 then fi_Size m else fi_WireSize m.

(** [FileItem.WriteTo]: the bytes written. *)
Definition WriteTo (fi : FileItem) : result bytes :=
  let m := fi_meta fi in
  if (fi_Size m =? 0) && (fi_WireSize m =? 0) then Ok []
  else match WireBodyReader fi with
  | Err e => Err e
  | Ok None => Ok []
  | Ok (Some rd) =>
      let wireSize := wireLen m in
      if wireSize <? 0 then Err (EPanic "makeslice: len out of range")
      else match ReadFull rd wireSize with
      | Err e => Err e
      | Ok (buf, _) => Ok buf
      end
  end.

(** ** The item stream *)

Section stream_format.
Context `{JSON FileMeta}.

(** [StreamWriter.WriteItem]: the bytes it puts on the wire. *)
Definition WriteItem (fi : FileItem) : result bytes :=
  match Marshal (fi_meta fi) with
  | Err e => Err e
  | Ok jsonData =>
      match checkedJSONLength jsonData with
      | Err e => Err e
      | Ok n =>
          match WriteTo fi with
          | Err e => Err e
          | Ok body => Ok (putInt32 n ++ jsonData ++ body)
          end
      end
  end.

(** [StreamWriter.Close]. *)
Definition CloseStream : bytes := putInt32 0.

(** One round of [ReadStream]'s loop: the rest of the stream unless it ended, and
    the bytes consumed. *)
Definition readStreamItem {S} (rd : stream)
    (read : FileMeta -> option stream -> S -> S * option goerr) (s : S)
    : S * result (option stream * Z) :=
  match ReadFull rd 4 with
  | Err EEOF => (s, Ok (None, 0))
  | Err e => (s, Err e)
  | Ok (head, rd) =>
    let jsonLength := getInt32 head in
    if jsonLength =? 0 then (s, Ok (None, 4))
    else if jsonLength <? 0 then (s, Err (EMsg "negative item header length"))
    else match ReadFull rd jsonLength with
    | Err e => (s, Err e)
    | Ok (jsonData, rd) =>
      match Unmarshal jsonData with
      | Err e => (s, Err e)
      | Ok item =>
        let wireSize := wireLen item in
        if 0 <? wireSize then
          match readItemBody rd wireSize (fun cr => read item (Some cr)) s with
          | (s, Err e) => (s, Err e)
          | (s, Ok (rd, n)) => (s, Ok (Some rd, 4 + jsonLength + n))
          end
        else match read item None s with
        | (s, Some e) => (s, Err e)
        | (s, None) => (s, Ok (Some rd, 4 + jsonLength))
        end
      end
    end
  end.

(** [ReadStream]: every round consumes at least five bytes, so the length of
    the data is enough fuel. *)
Fixpoint readStreamLoop {S} (fuel : nat) (rd : stream)
    (read : FileMeta -> option stream -> S -> S * option goerr) (s : S) (total : Z)
    : S * result Z :=
  match fuel with
  | O => (s, Err (EMsg "out of fuel"))
  | S fuel' =>
      match readStreamItem rd read s with
      | (s, Err e) => (s, Err e)
      | (s, Ok (None, n)) => (s, Ok (total + n))
      | (s, Ok (Some rd, n)) => readStreamLoop fuel' rd read s (total + n)
      end
  end.

Definition ReadStream {S} (rd : stream)
    (read : FileMeta -> option stream -> S -> S * option goerr) (s : S) : S * result Z :=
  readStreamLoop (Datatypes.S (length (st_data rd))) rd read s 0.
End stream_format.

(** ** Batches *)

Section batch_format.
Context `{JSON (list FileMeta)}.

Fixpoint writeBodies (items : list FileItem) : result bytes :=
  match items with
  | [] => Ok []
  | item :: items' =>
      match WriteTo item with
      | Err e => Err e
      | Ok b => let? bs := writeBodies items' in Ok (b ++ bs)
      end
  end.

(** [Batch.WriteTo]. *)
Definition BatchWriteTo (items : list FileItem) : result bytes :=
  match Marshal (map fi_meta items) with
  | Err e => Err e
  | Ok jsonData =>
      match checkedJSONLength jsonData with
      | Err e => Err e
      | Ok n => let? bs := writeBodies items in Ok (putInt32 n ++ jsonData ++ bs)
      end
  end.

Fixpoint readBodies {S} (items : list FileMeta) (rd : stream)
    (read : FileMeta -> option stream -> S -> S * option goerr) (s : S) (total : Z)
    : S * result Z :=
  match items with
  | [] => (s, Ok total)
  | item :: items' =>
      if fi_WireSize item =? 0 then
        match read item None s with
        | (s, Some e) => (s, Err e)
        | (s, None) => readBodies items' rd read s total
        end
      else match readItemBody rd (fi_WireSize item) (fun cr => read item (Some cr)) s with
      | (s, Err e) => (s, Err e)
      | (s, Ok (rd, n)) => readBodies items' rd read s (total + n)
      end
  end.

(** [Batch.ReaderFrom]. *)
Definition BatchReaderFrom {S} (rd : stream)
    (read : FileMeta -> option stream -> S -> S * option goerr) (s : S) : S * result Z :=
  match ReadFull rd 4 with
  | Err e => (s, Err e)
  | Ok (head, rd) =>
      let jsonLength := getInt32 head in
      if jsonLength <? 0 then (s, Err (EPanic "makeslice: len out of range"))
      else match ReadFull rd jsonLength with
      | Err e => (s, Err e)
      | Ok (jsonData, rd) =>
          match Unmarshal jsonData with
          | Err e => (s, Err e)
          | Ok items => readBodies items rd read s (4 + jsonLength)
          end
      end
  end.

(** [Batch.ContentLength]. *)
Definition BatchContentLength (items : list FileItem) : result Z :=
  match Marshal (map fi_meta items) with
  | Err e => Err e
  | Ok jsonData =>
      Ok (foldl (fun total m => total + (if fi_WireSize m =? 0 then fi_Size m else fi_WireSize m))
            (4 + blen jsonData) (map fi_meta items))
  end.
End batch_format.

(** ** Headers *)

Lemma of_byte_of x : of_byte (byte_of x) = x mod 256.
Proof.
  unfold of_byte, byte_of. assert (H := Z.mod_pos_bound x 256 ltac:(lia)).
  rewrite nat_ascii_embedding; lia.
Qed.

Lemma length_putInt32 n : length (putInt32 n) = 4%nat.
Proof. done. Qed.

(** A byte has no bit from 8 on. *)
Lemma small_bits b i : 0 <= b < 256 -> 8 <= i -> Z.testbit b i = false.
Proof.
  intros Hb Hi. destruct (decide (b = 0)) as [->|]; [apply Z.bits_0|].
  apply Z.bits_above_log2; [lia|]. apply Z.log2_lt_pow2; [lia|].
  apply Z.lt_le_trans with (2 ^ 8); [lia|]. apply Z.pow_le_mono_r; lia.
Qed.

Lemma lor_shift8 a b : 0 <= b < 256 -> Z.lor (Z.shiftl a 8) b = a * 256 + b.
Proof.
  intros Hb. rewrite Z.shiftl_mul_pow2 by lia. change (2 ^ 8) with 256.
  rewrite <-Z.lxor_lor, <-Z.add_nocarry_lxor; [done|..]; apply Z.bits_inj'; intros i Hi;
    rewrite Z.land_spec, Z.bits_0; replace (a * 256) with (a * 2 ^ 8) by lia;
    (destruct (decide (i < 8)); [by rewrite Z.mul_pow2_bits_low by lia|]);
    by rewrite (small_bits b i), andb_false_r by lia.
Qed.

(** Headers round trip over the whole range of the type, negative lengths
    included: what [binary.Read] sees is what [binary.Write] wrote. *)
Lemma getInt32_putInt32 n (Hn : - 2 ^ 31 <= n < 2 ^ 31) : getInt32 (putInt32 n) = n.
Proof.
  unfold getInt32, putInt32. cbn [foldl]. rewrite !of_byte_of, !Z.shiftr_div_pow2 by lia.
  set (m := n mod 2 ^ 32).
  assert (Hm : 0 <= m < 2 ^ 32) by (apply Z.mod_pos_bound; lia).
  rewrite !lor_shift8 by (apply Z.mod_pos_bound; lia).
  replace (_ * 256 + m mod 256) with m; last first.
  { change (2 ^ 24) with (256 * 256 * 256). change (2 ^ 16) with (256 * 256).
    change (2 ^ 8) with 256. rewrite <-!Z.div_div by lia.
    assert (H0 := Z.div_mod m 256 ltac:(lia)).
    assert (H1 := Z.div_mod (m / 256) 256 ltac:(lia)).
    assert (H2 := Z.div_mod (m / 256 / 256) 256 ltac:(lia)).
    assert (H3 : m / 256 / 256 / 256 < 256) by (repeat apply Z.div_lt_upper_bound; lia).
    assert (H4 : 0 <= m / 256 / 256 / 256) by (repeat apply Z.div_pos; lia).
    rewrite (Z.mod_small (m / 256 / 256 / 256)) by lia. lia. }
  subst m. destruct (decide (0 <= n)).
  - rewrite Z.mod_small by lia. rewrite (proj2 (Z.ltb_lt _ _)) by lia. done.
  - replace (n mod 2 ^ 32) with (n + 2 ^ 32).
    + rewrite (proj2 (Z.ltb_ge _ _)) by lia. lia.
    + rewrite <-(Z.mod_small (n + 2 ^ 32) (2 ^ 32)) by lia.
      replace (n + 2 ^ 32) with (n + 1 * 2 ^ 32) by lia. by rewrite Z.mod_add by lia.
Qed.

(** ** Reading what is there *)

Lemma blen_nonneg b : 0 <= blen b.
Proof. unfold blen. lia. Qed.

Lemma blen_app' a b : blen (a ++ b) = blen a + blen b.
Proof. unfold blen. rewrite length_app. lia. Qed.

Lemma to_nat_blen b : Z.to_nat (blen b) = length b.
Proof. unfold blen. lia. Qed.

Lemma ReadFull_app a b e n :
  blen a = n -> ReadFull (mkStream (a ++ b) e) n = Ok (a, mkStream b e).
Proof.
  intros <-. unfold ReadFull. simpl. rewrite blen_app'. assert (H := blen_nonneg b).
  rewrite (proj2 (Z.leb_le _ _)) by lia. rewrite to_nat_blen.
  by rewrite take_app_length, drop_app_length.
Qed.

Lemma ReadFull_short rd n x :
  ReadFull rd n = Ok x -> n <= blen (st_data rd).
Proof.
  unfold ReadFull. destruct (n <=? _) eqn:E; [by intros _; go_bool|].
  destruct (st_err rd); [done|]. by case_bool_decide.
Qed.

Lemma readItemBody_app {S} b rest e w (read : stream -> S -> S * option goerr) s :
  blen b = w ->
  readItemBody (mkStream (b ++ rest) e) w read s =
  match read (fromBytes b) s with
  | (s, Some err) => (s, Err err)
  | (s, None) => (s, Ok (mkStream rest e, w))
  end.
Proof.
  intros <-. unfold readItemBody, LimitReader. simpl. rewrite blen_app'.
  assert (H := blen_nonneg rest). rewrite (proj2 (Z.leb_le _ _)) by lia.
  rewrite to_nat_blen, take_app_length. destruct (read _ s) as [s' [err|]]; [done|].
  simpl. rewrite Z.eqb_refl, to_nat_blen. simpl. by rewrite drop_app_length.
Qed.

(** A body that is shorter than its declared wire size is never accepted:
    whatever the callback makes of the bytes that are there, [readItemBody] fails
    (with the callback's own error, the reader's, or [ErrShortRead]), so no item
    behind it is read from a shifted offset. *)
Theorem readItemBody_short {S} rd w (read : stream -> S -> S * option goerr) s
    (Hshort : blen (st_data rd) < w) :
  exists e, snd (readItemBody rd w read s) = Err e /\
    (st_err rd = None -> snd (read rd s) = None -> e = ErrShortRead).
Proof.
  unfold readItemBody, LimitReader. rewrite (proj2 (Z.leb_gt _ _)) by done.
  destruct (read rd s) as [s' [e|]]; [by exists e|].
  destruct (st_err rd) as [e|] eqn:He; [by eexists|].
  rewrite (proj2 (Z.eqb_neq _ _)) by lia. by eexists.
Qed.

(** A callback that keeps what it reads. *)
Definition keepBody (rd : stream) (s : bytes) : bytes * option goerr :=
  (s ++ st_data rd, st_err rd).

Lemma readItemBody_short_witness :
  exists e, snd (readItemBody (fromBytes #"abc") 5 keepBody []) = Err e /\
    (st_err (fromBytes #"abc") = None -> snd (keepBody (fromBytes #"abc") []) = None ->
     e = ErrShortRead).
Proof.
  apply (readItemBody_short (fromBytes #"abc") 5 keepBody []). vm_compute. reflexivity.
Defined.

(** ** The item stream *)

(** An item that can be sent: JSON can carry it and its sizes are not negative. *)
Definition sendable `{JSON FileMeta} (fi : FileItem) : Prop :=
  json_ok (fi_meta fi) /\ 0 <= fi_Size (fi_meta fi) /\ 0 <= fi_WireSize (fi_meta fi).

Lemma WriteTo_length fi b :
  0 <= fi_Size (fi_meta fi) -> 0 <= fi_WireSize (fi_meta fi) ->
  WriteTo fi = Ok b -> blen b = wireLen (fi_meta fi).
Proof.
  intros Hs Hw. unfold WriteTo, WireBodyReader, bodyOf, wireLen.
  destruct (_ && _) eqn:E0; [intros [= <-]; go_bool; by rewrite H, H0|].
  destruct (fi_body fi) as [[rd|e]|]; try done.
  set (w := if _ =? 0 then _ else _). destruct (w <? 0) eqn:Hneg; [done|]. go_bool.
  unfold ReadFull. destruct (w <=? _) eqn:El; go_bool; [|by repeat case_match].
  intros [= <-]. unfold blen in *. rewrite length_take. lia.
Qed.

(** The frames of a list of items. *)
Fixpoint writeItems `{JSON FileMeta} (items : list FileItem) : result bytes :=
  match items with
  | [] => Ok []
  | fi :: items' =>
      match WriteItem fi with
      | Err e => Err e
      | Ok b => let? bs := writeItems items' in Ok (b ++ bs)
      end
  end.

(** What the receiving callback is called with. *)
Definition received (fi : FileItem) : option stream :=
  if 0 <? wireLen (fi_meta fi) then
    match WriteTo fi with Ok b => Some (fromBytes b) | Err _ => None end
  else None.

Fixpoint deliver {S} (items : list FileItem)
    (read : FileMeta -> option stream -> S -> S * option goerr) (s : S) : S * option goerr :=
  match items with
  | [] => (s, None)
  | fi :: items' =>
      match read (fi_meta fi) (received fi) s with
      | (s, Some e) => (s, Some e)
      | (s, None) => deliver items' read s
      end
  end.

(** The three parts of a frame. *)
Lemma WriteItem_parts `{JSON FileMeta} fi f :
  sendable fi -> WriteItem fi = Ok f ->
  exists j b, f = putInt32 (blen j) ++ j ++ b /\ 0 < blen j <= MaxInt32 /\
    Unmarshal j = Ok (fi_meta fi) /\ WriteTo fi = Ok b /\ blen b = wireLen (fi_meta fi).
Proof.
  intros (Hj & Hs & Hw). destruct (Unmarshal_Marshal _ Hj) as (j & Ej & Hne & Hu).
  unfold WriteItem. rewrite Ej. unfold checkedJSONLength.
  destruct (MaxInt32 <? blen j) eqn:Hl; [done|]. go_bool.
  destruct (WriteTo fi) as [b|] eqn:Eb; [|done]. intros [= <-]. exists j, b.
  split_and!; try done; [|by apply WriteTo_length]. destruct j; [done|].
  unfold blen. simpl. lia.
Qed.

Lemma readStreamItem_frame `{JSON FileMeta} {S} fi f rest e
    (read : FileMeta -> option stream -> S -> S * option goerr) s :
  sendable fi -> WriteItem fi = Ok f ->
  readStreamItem (mkStream (f ++ rest) e) read s =
  match read (fi_meta fi) (received fi) s with
  | (s, Some err) => (s, Err err)
  | (s, None) => (s, Ok (Some (mkStream rest e), blen f))
  end.
Proof.
  intros Hok Hf. destruct (WriteItem_parts fi f Hok Hf) as (j & b & -> & Hj & Hu & Hb & Hl).
  unfold readStreamItem. rewrite <-!app_assoc, ReadFull_app by done.
  rewrite getInt32_putInt32 by (unfold MaxInt32 in Hj; lia).
  rewrite (proj2 (Z.eqb_neq _ _)), (proj2 (Z.ltb_ge _ _)) by lia.
  rewrite ReadFull_app by done. rewrite Hu. unfold received. rewrite Hb.
  assert (Hw := blen_nonneg b). rewrite !blen_app'. change (blen (putInt32 _)) with 4.
  destruct (0 <? wireLen (fi_meta fi)) eqn:E; go_bool.
  - rewrite readItemBody_app by done. destruct (read _ _ s) as [s' [err|]]; [done|].
    do 3 f_equal. lia.
  - assert (b = []) as -> by (destruct b; [done|unfold blen in *; simpl in *; lia]).
    destruct (read _ _ s) as [s' [err|]]; [done|]. simpl. do 3 f_equal. unfold blen. simpl. lia.
Qed.

Lemma WriteItem_nonempty `{JSON FileMeta} fi f :
  sendable fi -> WriteItem fi = Ok f -> (4 < length f)%nat.
Proof.
  intros Hok Hf. destruct (WriteItem_parts fi f Hok Hf) as (j & b & -> & Hj & _).
  unfold blen in Hj. rewrite !length_app, length_putInt32. lia.
Qed.

Lemma writeItems_length `{JSON FileMeta} items out :
  Forall sendable items -> writeItems items = Ok out -> (length items <= length out)%nat.
Proof.
  intros Hok. revert out. induction Hok as [|fi items Hfi Hok IH]; intros out; simpl; [lia|].
  destruct (WriteItem fi) as [f|] eqn:Ef; [|done].
  destruct (writeItems items) as [o|]; [|done]. intros [= <-].
  assert (Hl := WriteItem_nonempty fi f Hfi Ef). specialize (IH o eq_refl). rewrite length_app. lia.
Qed.

Lemma readStreamLoop_items `{JSON FileMeta} {S} items out rest e fuel
    (read : FileMeta -> option stream -> S -> S * option goerr) s total :
  Forall sendable items -> writeItems items = Ok out ->
  (length out + length rest < fuel)%nat ->
  readStreamLoop fuel (mkStream (out ++ rest) e) read s total =
  match deliver items read s with
  | (s, Some err) => (s, Err err)
  | (s, None) => readStreamLoop (fuel - length items) (mkStream rest e) read s (total + blen out)
  end.
Proof.
  revert out fuel s total. induction items as [|fi items IH];
    intros out fuel s total Hok; simpl.
  { intros [= <-] _. simpl. rewrite Nat.sub_0_r. f_equal. unfold blen. simpl. lia. }
  apply Forall_cons in Hok as [Hfi Hok].
  destruct (WriteItem fi) as [f|] eqn:Ef; [|done].
  destruct (writeItems items) as [out'|] eqn:Eo; [|done]. intros [= <-] Hfuel.
  assert (Hlen := WriteItem_nonempty fi f Hfi Ef). rewrite length_app in Hfuel.
  destruct fuel as [|fuel]; [lia|]. simpl.
  rewrite <-app_assoc, (readStreamItem_frame fi f) by done.
  destruct (read _ _ s) as [s' [err|]]; [done|].
  rewrite (IH out' fuel s') by (done || lia). destruct (deliver items read s') as [s'' [err|]]; [done|].
  rewrite blen_app'. f_equal. lia.
Qed.

(** [ReadStream] of frames and the end marker. *)
Lemma ReadStream_frames `{JSON FileMeta} {S} items out rest e
    (read : FileMeta -> option stream -> S -> S * option goerr) s :
  Forall sendable items -> writeItems items = Ok out ->
  ReadStream (mkStream (out ++ CloseStream ++ rest) e) read s =
  match deliver items read s with
  | (s, Some err) => (s, Err err)
  | (s, None) => (s, Ok (blen out + 4))
  end.
Proof.
  intros Hok Hout.
  unfold ReadStream. simpl st_data.
  rewrite (readStreamLoop_items items out) by
    (done || (rewrite !length_app; simpl; lia)).
  destruct (deliver items read s) as [s' [err|]]; [done|].
  assert (Hn := writeItems_length items out Hok Hout).
  rewrite !length_app.
  destruct (Datatypes.S _ - length items)%nat as [|fuel] eqn:Ef; [simpl in Ef; lia|].
  cbn [readStreamLoop]. unfold readStreamItem, CloseStream. rewrite ReadFull_app by done.
  rewrite getInt32_putInt32 by lia. simpl. by rewrite Z.add_0_l.
Qed.

(** What a [StreamWriter] sends is what [ReadStream] delivers.  For items
    JSON can carry, with their bodies written by [WriteItem] and the stream
    closed, the callback sees every item's metadata and exactly its body, in
    order and once each; bytes behind the end marker are not read, and the count
    is the length of what was sent.  A callback error ends the read with it, in the
    state the callback has reached. *)
Theorem ReadStream_WriteItems `{JSON FileMeta} {S} items out rest e
    (read : FileMeta -> option stream -> S -> S * option goerr) s
    (Hok : Forall sendable items) (Hout : writeItems items = Ok out) :
  ReadStream (mkStream (out ++ CloseStream ++ rest) e) read s =
  match deliver items read s with
  | (s, Some err) => (s, Err err)
  | (s, None) => (s, Ok (blen out + 4))
  end.
Proof. by apply ReadStream_frames. Qed.

(** A callback that keeps each item with its body, failing on a bad body. *)
Definition collect (m : FileMeta) (body : option stream) (s : list (FileMeta * bytes))
    : list (FileMeta * bytes) * option goerr :=
  match body with
  | None => (s ++ [(m, [])], None)
  | Some rd =>
      match ReadAll rd with
      | Err e => (s, Some e)
      | Ok b => (s ++ [(m, b)], None)
      end
  end.

(** The item as the sender has it. *)
Definition sent (fi : FileItem) : FileMeta * bytes :=
  (fi_meta fi, match WriteTo fi with Ok b => b | Err _ => [] end).

Lemma collect_received `{JSON FileMeta} fi f l :
  sendable fi -> WriteItem fi = Ok f ->
  collect (fi_meta fi) (received fi) l = (l ++ [sent fi], None).
Proof.
  intros Hok Hf. destruct (WriteItem_parts fi f Hok Hf) as (j & b & _ & _ & _ & Hb & Hl).
  unfold received, sent. rewrite Hb. destruct (0 <? _) eqn:E; [done|]. go_bool.
  destruct b; [done|]. unfold blen in Hl. simpl in Hl. lia.
Qed.

(** Cutting a reader short of what is asked for. *)
Lemma ReadFull_prefix a b p q e n :
  a ++ b = p ++ q -> blen a = n ->
  (exists p', p = a ++ p' /\ b = p' ++ q /\ ReadFull (mkStream p e) n = Ok (a, mkStream p' e)) \/
  (blen p < n /\ ReadFull (mkStream p e) n =
     Err (match e with Some x => x | None =>
            if bool_decide (p = []) then EEOF else EMsg "unexpected EOF" end)).
Proof.
  intros Hpq Hn. destruct (decide (n <= blen p)) as [Hle|Hgt].
  - left. apply app_eq_inv in Hpq as [(k & -> & ->)|(k & -> & ->)].
    + assert (k = []) as ->.
      { destruct k; [done|]. unfold blen in *. rewrite length_app in Hn. simpl in Hn. lia. }
      exists []. rewrite !app_nil_r in *. split; [done|]. split; [done|].
      rewrite <-(app_nil_r p) at 1. by apply ReadFull_app.
    + exists k. split; [done|]. split; [done|]. by apply ReadFull_app.
  - right. split; [lia|]. unfold ReadFull. simpl.
    rewrite (proj2 (Z.leb_gt _ _)) by lia. destruct e; [done|]. by case_bool_decide.
Qed.

(** A proper cut of a frame makes the round fail, or end the stream if nothing
    at all is left of it. *)
Lemma readStreamItem_cut `{JSON FileMeta} fi f rest p q e l :
  sendable fi -> WriteItem fi = Ok f -> f ++ rest = p ++ q -> blen p < blen f ->
  (exists l' err, readStreamItem (mkStream p e) collect l = (l', Err err)) \/
  readStreamItem (mkStream p e) collect l = (l, Ok (None, 0)).
Proof.
  intros Hok Hf Hpq Hlt.
  destruct (WriteItem_parts fi f Hok Hf) as (j & b & -> & Hj & Hu & Hb & Hl).
  rewrite !blen_app' in Hlt. rewrite <-!app_assoc in Hpq. unfold readStreamItem.
  destruct (ReadFull_prefix _ _ _ _ e 4 Hpq eq_refl) as [(p1 & -> & Hpq1 & ->)|[_ ->]].
  2: { destruct e as [[]|]; eauto. case_bool_decide; eauto. }
  rewrite getInt32_putInt32 by (unfold MaxInt32 in Hj; lia).
  rewrite (proj2 (Z.eqb_neq _ _)), (proj2 (Z.ltb_ge _ _)) by lia.
  destruct (ReadFull_prefix _ _ _ _ e (blen j) Hpq1 eq_refl) as [(p2 & -> & Hpq2 & ->)|[_ ->]];
    [|eauto].
  rewrite Hu. rewrite !blen_app' in Hlt. change (blen (putInt32 _)) with 4 in Hlt.
  assert (Hshort : blen p2 < wireLen (fi_meta fi)) by lia.
  assert (Hp2 := blen_nonneg p2). rewrite (proj2 (Z.ltb_lt 0 _)) by lia. left.
  unfold readItemBody, LimitReader. simpl. rewrite (proj2 (Z.leb_gt _ _)) by done.
  unfold collect, ReadAll. simpl. destruct e as [err|]; [eauto|]. simpl.
  rewrite (proj2 (Z.eqb_neq _ _)) by lia. eauto.
Qed.

Lemma readStreamLoop_prefix `{JSON FileMeta} items out p q e fuel l total r n :
  Forall sendable items -> writeItems items = Ok out ->
  out ++ CloseStream = p ++ q ->
  readStreamLoop fuel (mkStream p e) collect l total = (r, Ok n) ->
  exists k, r = l ++ map sent (take k items).
Proof.
  revert out p fuel l total. induction items as [|fi items IH];
    intros out p fuel l total Hok; simpl; (destruct fuel as [|fuel]; [done|]); simpl.
  - intros [= <-] Hpq. simpl in Hpq. unfold readStreamItem.
    destruct (ReadFull_prefix (putInt32 0) [] p q e 4) as [(p1 & -> & _ & ->)|[_ ->]].
    + by rewrite app_nil_r.
    + done.
    + rewrite getInt32_putInt32 by lia. simpl. intros [= <- <-]. exists 0%nat.
      by rewrite app_nil_r.
    + intros Hr. exists 0%nat. rewrite app_nil_r.
      destruct e as [[]|]; simplify_eq; try done. case_bool_decide; by simplify_eq.
  - apply Forall_cons in Hok as [Hfi Hok].
    destruct (WriteItem fi) as [f|] eqn:Ef; [|done].
    destruct (writeItems items) as [out'|] eqn:Eo; [|done]. intros [= <-].
    rewrite <-app_assoc. intros Hpq. destruct (decide (blen p < blen f)) as [Hlt|Hge].
    + destruct (readStreamItem_cut fi f _ p q e l Hfi Ef Hpq Hlt) as [(l' & err & ->)| ->]; [done|].
      intros [= <- <-]. exists 0%nat. by rewrite app_nil_r.
    + assert (Hp : exists p', p = f ++ p' /\ out' ++ CloseStream = p' ++ q).
      { apply app_eq_inv in Hpq as [(k & -> & E)|(k & -> & E)]; [|by eexists].
        rewrite blen_app' in Hge. exists []. assert (k = []) as ->.
        { destruct k; [done|]. unfold blen in Hge. simpl in Hge. lia. }
        rewrite !app_nil_r. by rewrite E. }
      destruct Hp as (p' & -> & Hpq').
      rewrite (readStreamItem_frame fi f), (collect_received fi f) by done.
      intros Hr. destruct (IH out' p' fuel _ _ Hok eq_refl Hpq' Hr) as [k ->].
      exists (Datatypes.S k). by rewrite <-app_assoc.
Qed.

(** A stream that is cut anywhere, ending in EOF or in any read error, never
    delivers a damaged item: when [ReadStream] succeeds on it, the items kept are
    the first ones that were sent, each with its whole body. *)
Theorem ReadStream_truncated `{JSON FileMeta} items out p q e r n
    (Hok : Forall sendable items) (Hout : writeItems items = Ok out)
    (Hcut : out ++ CloseStream = p ++ q)
    (Hread : ReadStream (mkStream p e) collect [] = (r, Ok n)) :
  exists k, r = map sent (take k items).
Proof. by eapply (readStreamLoop_prefix items) in Hread. Qed.

(** ** Batches *)

(** In a batch the reader looks at [WireSize] alone: an item with a body must
    declare it. *)
Definition declared (fi : FileItem) : Prop :=
  0 <= fi_Size (fi_meta fi) /\ 0 <= fi_WireSize (fi_meta fi) /\
  (fi_WireSize (fi_meta fi) = 0 -> fi_Size (fi_meta fi) = 0).

Lemma wireLen_declared fi : declared fi -> wireLen (fi_meta fi) = fi_WireSize (fi_meta fi).
Proof.
  intros (_ & _ & H). unfold wireLen. destruct (_ =? 0) eqn:E; [|done]. go_bool.
  rewrite H, E; done.
Qed.

Lemma readBodies_spec {S} items out rest e
    (read : FileMeta -> option stream -> S -> S * option goerr) s total :
  Forall declared items -> writeBodies items = Ok out ->
  readBodies (map fi_meta items) (mkStream (out ++ rest) e) read s total =
  match deliver items read s with
  | (s, Some err) => (s, Err err)
  | (s, None) => (s, Ok (total + blen out))
  end.
Proof.
  revert out s total. induction items as [|fi items IH]; intros out s total Hok; simpl.
  { intros [= <-]. do 2 f_equal. unfold blen. simpl. lia. }
  apply Forall_cons in Hok as [Hfi Hok].
  destruct (WriteTo fi) as [b|] eqn:Eb; [|done].
  destruct (writeBodies items) as [out'|] eqn:Eo; [|done]. intros [= <-].
  assert (Hl := wireLen_declared fi Hfi). destruct Hfi as (H1 & H2 & H3).
  assert (Hb := WriteTo_length fi b H1 H2 Eb).
  unfold received. rewrite Hl, Eb in *. rewrite <-app_assoc, blen_app'.
  destruct (Z.eqb_spec (fi_WireSize (fi_meta fi)) 0) as [E|E].
  - rewrite E in *. simpl. assert (b = []) as ->.
    { destruct b; [done|]. unfold blen in Hb. simpl in Hb. lia. }
    destruct (read _ _ s) as [s' [err|]]; [done|]. by apply IH.
  - rewrite (proj2 (Z.ltb_lt _ _)), readItemBody_app by lia.
    destruct (read _ _ s) as [s' [err|]]; [done|]. rewrite (IH out') by done.
    destruct (deliver _ _ _) as [? [?|]]; [done|]. do 2 f_equal. lia.
Qed.

(** [Batch.ReaderFrom] inverts [Batch.WriteTo] when every item with a body
    declares its wire size: the callback gets each item with exactly its body, in
    order, and the count is the number of bytes written, which is also what
    [ContentLength] announced. *)
Theorem Batch_roundtrip `{JSON (list FileMeta)} {S} items out rest e
    (read : FileMeta -> option stream -> S -> S * option goerr) s
    (Hj : json_ok (map fi_meta items)) (Hok : Forall declared items)
    (Hout : BatchWriteTo items = Ok out) :
  BatchReaderFrom (mkStream (out ++ rest) e) read s =
  match deliver items read s with
  | (s, Some err) => (s, Err err)
  | (s, None) => (s, Ok (blen out))
  end /\ BatchContentLength items = Ok (blen out).
Proof.
  destruct (Unmarshal_Marshal _ Hj) as (j & Ej & Hne & Hu).
  unfold BatchWriteTo in Hout. unfold BatchContentLength. rewrite Ej in *.
  unfold checkedJSONLength in Hout. destruct (MaxInt32 <? blen j) eqn:Hl; [done|]. go_bool.
  destruct (writeBodies items) as [bs|] eqn:Eb; [|done].
  assert (out = putInt32 (blen j) ++ j ++ bs) as -> by congruence.
  assert (Hn := blen_nonneg j). unfold MaxInt32 in Hl. split.
  - unfold BatchReaderFrom. rewrite <-!app_assoc, ReadFull_app by done.
    rewrite getInt32_putInt32 by lia. rewrite (proj2 (Z.ltb_ge _ _)), ReadFull_app by done.
    rewrite Hu, (readBodies_spec items bs) by done. destruct (deliver _ _ _) as [? [?|]]; [done|].
    rewrite !blen_app'. change (blen (putInt32 _)) with 4. do 2 f_equal. lia.
  - f_equal. rewrite !blen_app'. change (blen (putInt32 _)) with 4.
    rewrite Z.add_assoc. generalize (4 + blen j) as t. clear -Hok Eb.
    revert bs Eb. induction Hok as [|fi items Hfi Hok IH]; intros bs; simpl.
    + intros [= <-] t. unfold blen. simpl. lia.
    + destruct (WriteTo fi) as [b|] eqn:E; [|done].
      destruct (writeBodies items) as [bs'|]; [|done]. intros [= <-] t.
      rewrite (IH bs' eq_refl), blen_app'. destruct Hfi as (H1 & H2 & _).
      rewrite (WriteTo_length fi b) by done. unfold wireLen. lia.
Qed.

(** ** Concrete codecs, for examples *)

(** A codec of finitely many values: the text of a value is its position. *)
Program Definition tableJSON {A} `{EqDecision A} (l : list A) : JSON A := {|
  Marshal := fun a => match list_find (eq a) l with
               | Some (i, _) => Ok (itoa (Z.of_nat i))
               | None => Err (EMsg "unsupported value")
               end;
  Unmarshal := fun b => match parse_digits b with
                 | Some n => match l !! Z.to_nat n with
                             | Some a => Ok a | None => Err (EMsg "invalid character") end
                 | None => Err (EMsg "invalid character")
                 end;
  json_ok := fun a => a ∈ l;
|}.
Next Obligation.
  intros A ? l a Ha. simpl.
  destruct (list_find (eq a) l) as [[i x]|] eqn:E.
  - apply list_find_Some in E as (Hi & <- & _). eexists. split; [done|].
    split; [apply itoa_digits; lia|]. rewrite parse_itoa by lia. by rewrite Nat2Z.id, Hi.
  - apply list_find_None in E. rewrite Forall_forall in E. by destruct (E a Ha).
Qed.

(** A "compression" that prepends a magic byte. *)
Program Definition magicZstd : Zstd := {|
  EncodeZstd := fun b => "Z"%char :: b;
  DecodeZstd := fun b => match b with _ :: b => Ok b | [] => Err (EMsg "magic number mismatch") end;
  zstdReader := fun rd => match st_data rd with
                   | _ :: b => Ok (mkStream b (st_err rd))
                   | [] => Err (EMsg "magic number mismatch")
                   end;
|}.
Solve Obligations with (try done; by intros []).

Definition exampleItem : FileItem :=
  mkFileItem (mkFileMeta #"aa/x-a" 3 None 420 false 0 []) (Some (Ok (fromBytes #"abcd"))).
Definition emptyItem : FileItem := mkFileItem (mkFileMeta #"bb/y-d" 0 None 420 false 0 []) None.
Definition exampleJSON : JSON FileMeta := tableJSON [fi_meta exampleItem; fi_meta emptyItem].

Lemma example_sendable : Forall (@sendable exampleJSON) [exampleItem; emptyItem].
Proof. repeat constructor; simpl; lia || set_solver. Qed.

Lemma ReadStream_WriteItems_witness :
  exists out, @writeItems exampleJSON [exampleItem; emptyItem] = Ok out /\
    @ReadStream exampleJSON _ (fromBytes (out ++ CloseStream ++ #"rest")) collect [] =
      ([(fi_meta exampleItem, #"abc"); (fi_meta emptyItem, [])], Ok (blen out + 4)).
Proof.
  eexists. split; [vm_compute; reflexivity|].
  unfold fromBytes. erewrite (ReadStream_WriteItems (H := exampleJSON) [exampleItem; emptyItem]).
  - vm_compute. reflexivity.
  - apply example_sendable.
  - vm_compute. reflexivity.
Defined.

(** The bytes of the two frames. *)
Definition exampleWire : bytes :=
  match @writeItems exampleJSON [exampleItem; emptyItem] with Ok b => b | Err _ => [] end.

Lemma ReadStream_truncated_witness :
  exists r n, @ReadStream exampleJSON _ (fromBytes (take 8 exampleWire)) collect [] = (r, Ok n) /\
    r = map sent (take 1 [exampleItem; emptyItem]) /\
    exists k, r = map sent (take k [exampleItem; emptyItem]).
Proof.
  eexists _, _. split; [vm_compute; reflexivity|]. split; [vm_compute; reflexivity|].
  eapply (ReadStream_truncated (H := exampleJSON) [exampleItem; emptyItem] exampleWire
    (take 8 exampleWire) (drop 8 exampleWire ++ CloseStream) None).
  - apply example_sendable.
  - vm_compute. reflexivity.
  - vm_compute. reflexivity.
  - vm_compute. reflexivity.
Defined.

Definition declaredItem : FileItem :=
  mkFileItem (mkFileMeta #"aa/x-a" 3 None 420 false 3 []) (Some (Ok (fromBytes #"abcd"))).
Definition batchJSON : JSON (list FileMeta) :=
  tableJSON [[fi_meta declaredItem; fi_meta emptyItem]].

Definition batchWire : bytes :=
  match @BatchWriteTo batchJSON [declaredItem; emptyItem] with Ok b => b | Err _ => [] end.

Lemma Batch_roundtrip_witness :
  @BatchReaderFrom batchJSON _ (fromBytes (batchWire ++ [])) collect [] =
    ([(fi_meta declaredItem, #"abc"); (fi_meta emptyItem, [])], Ok (blen batchWire)) /\
  @BatchContentLength batchJSON [declaredItem; emptyItem] = Ok (blen batchWire).
Proof.
  unfold fromBytes. destruct (Batch_roundtrip (H := batchJSON) [declaredItem; emptyItem]
    batchWire [] None collect []) as [E1 E2].
  - simpl. set_solver.
  - repeat constructor; simpl; lia.
  - vm_compute. reflexivity.
  - rewrite E1. split; [vm_compute; reflexivity|exact E2].
Defined.
