(* ===== verification/HttpNet.v ===== *)
(** What the client of src/internal/http/client.go knows of the network: requests and
    responses, the one repetition of a request that a gateway failed, and the reading of
    a status.  A network is any function from a state and a request to a state and a
    response, or an error. *)
From S2P Require Import Prelude.
From S2P Require Import GoStrings.
From S2P Require Import Wire.

(** ** Queries *)

(** The values of a query: net/url carries them whole. *)
Abbreviation Query := (gmap bytes bytes).

Definition setText (k v : bytes) (q : Query) : Query := if bool_decide (v = []) then q else <[k := v]> q.
Definition setLimit (k : bytes) (n : Z) (q : Query) : Query := if 0 <? n then <[k := FormatInt n]> q else q.

(** [url.Values.Get]. *)
Definition getParam (q : Query) (k : bytes) : bytes := default [] (q !! k).

Lemma get_setText k k' v q :
  getParam (setText k v q) k' = if bool_decide (k = k' /\ v <> []) then v else getParam q k'.
Proof.
  unfold setText, getParam. case_bool_decide as Hv; case_bool_decide as Hk; try tauto.
  - destruct Hk as [-> _]. by rewrite lookup_insert_eq.
  - rewrite lookup_insert_ne; [done|]. intros ->. by apply Hk.
Qed.

Lemma get_setLimit k k' n q :
  getParam (setLimit k n q) k' = if bool_decide (k = k' /\ 0 < n) then FormatInt n else getParam q k'.
Proof.
  unfold setLimit, getParam. destruct (0 <? n) eqn:E; go_bool; case_bool_decide as Hk; try lia.
  - destruct Hk as [-> _]. by rewrite lookup_insert_eq.
  - rewrite lookup_insert_ne; [done|]. intros ->. by apply Hk.
  - done.
Qed.

Lemma same_key (k : bytes) (P : Prop) `{Decision P} : bool_decide (k = k /\ P) = bool_decide P.
Proof. apply bool_decide_ext. tauto. Qed.

Lemma other_key (k k' : bytes) (P : Prop) `{Decision P} : k <> k' -> bool_decide (k = k' /\ P) = false.
Proof. intros Hk. apply bool_decide_eq_false_2. tauto. Qed.

(** ** Requests and responses *)

(** A request; [c_replayable] says that its body can be read again. *)
Record Call := mkCall {
  c_path : bytes;
  c_query : Query;
  c_body : bytes;
  c_replayable : bool;
}.

Record Response := mkResponse {
  re_status : Z;
  re_header : gmap bytes bytes;
  re_body : stream;
}.

Definition getHeader (r : Response) (k : bytes) : bytes := default [] (re_header r !! k).

(** [checkStatus]; the text of the error is not kept. *)
Definition checkStatus (r : Response) (expected : Z) : result unit :=
  if re_status r =? expected then Ok tt else Err (EMsg "status").

Definition isGatewayError (r : Response) : bool := (re_status r =? 502) || (re_status r =? 504).

(** ** Sending *)

Section sending.
Context {W : Type} (net : W -> Call -> W * result Response).

(** [roundTrip]: a request that a gateway failed is sent once more. *)
Definition roundTrip (w : W) (c : Call) : W * result Response :=
  match net w c with
  | (w, Err e) => (w, Err e)
  | (w, Ok res) =>
      if negb (isGatewayError res) then (w, Ok res)
      else if negb (c_replayable c) then (w, Ok res)
      else match ReadAll (re_body res) with
      | Err e => (w, Err e)
      | Ok b =>
          match net w c with
          | (w, Err e) => (w, Err e)
          | (w, Ok retryRes) =>
              if isGatewayError retryRes then (w, Ok (mkResponse (re_status res) (re_header res) (fromBytes b)))
              else (w, Ok retryRes)
          end
      end
  end.

(** A request that is answered by no gateway is sent once. *)
Lemma roundTrip_answered w c w' res :
  net w c = (w', Ok res) -> isGatewayError res = false -> roundTrip w c = (w', Ok res).
Proof. intros E Hg. unfold roundTrip. by rewrite E, Hg. Qed.

Lemma roundTrip_failed w c w' e : net w c = (w', Err e) -> roundTrip w c = (w', Err e).
Proof. intros E. unfold roundTrip. by rewrite E. Qed.
End sending.
