(* ===== verification/CacheWire.v ===== *)
(** The response format of src/internal/cache/store.go, which the object cache
    speaks between shim, proxy and server: items with their body readers, and
    [Response.WriteTo], [ReaderFrom], [ContentLength] and [ReaderNaive].  Readers
    and codecs are those of the item stream. *)
From S2P Require Import Prelude.
From S2P Require Import GoStrings.
From S2P Require Import Wire.

(** ** Items *)

(** The exported fields of [ResponseItem]; a time is a number of microseconds. *)
Record ResponseMeta := mkResponseMeta {
  ri_ActionID : bytes;
  ri_Miss : bool;
  ri_OutputID : bytes;
  ri_Size : Z;
  ri_Time : option Z;
  ri_IsCompressed : bool;
  ri_WireSize : Z;
  ri_DiskPath : bytes;
}.

#[export] Instance ResponseMeta_eq_dec : EqDecision ResponseMeta.
Proof. solve_decision. Defined.

Record ResponseItem := mkResponseItem {
  ri_meta : ResponseMeta;
  ri_body : option (result stream);
}.

Definition ItemSetBodyReader (ri : ResponseItem) (rd : result stream) : ResponseItem :=
  mkResponseItem (ri_meta ri) (Some rd).

(** [PrepareBodyReader]: [readFile] and [open] of the [DiskPath], whichever its
    wire size asks for, give the same bytes. *)
Definition ItemPrepareBodyReader (ri : ResponseItem) (open : bytes -> result stream) : ResponseItem :=
  match ri_body ri with
  | Some _ => ri
  | None =>
      if bool_decide (ri_DiskPath (ri_meta ri) = []) then ri
      else mkResponseItem (ri_meta ri) (Some (open (ri_DiskPath (ri_meta ri))))
  end.

Definition noBody (m : ResponseMeta) : bool := (ri_Size m =? 0) && (ri_WireSize m =? 0).

(** [WireBodyReader]: a reader, or Go's nil reader of an empty item. *)
Definition ItemWireBodyReader (ri : ResponseItem) : result (option stream) :=
  if noBody (ri_meta ri) then Ok None
  else match ri_body ri with
  | None => Err (EMsg "no body reader for item")
  | Some (Err e) => Err e
  | Some (Ok rd) => Ok (Some rd)
  end.

Section item_codecs.
Context `{Zstd}.

Definition ItemUncompressedBodyReader (ri : ResponseItem) : result (option stream) :=
  match ItemWireBodyReader ri with
  | Ok (Some rd) =>
      if ri_IsCompressed (ri_meta ri) then
        match zstdReader rd with Ok rd => Ok (Some rd) | Err e => Err e end
      else Ok (Some rd)
  | r => r
  end.

(** [CompressedBodyReader] also updates the item with its compressed size. *)
Definition ItemCompressedBodyReader (ri : ResponseItem) : ResponseItem * result (option stream) :=
  match ItemWireBodyReader ri with
  | Ok (Some rd) =>
      if ri_IsCompressed (ri_meta ri) then (ri, Ok (Some rd))
      else match ReadAll rd with
           | Err e => (ri, Err e)
           | Ok data =>
               let buf := EncodeZstd data in
               let m := ri_meta ri in
               (mkResponseItem (mkResponseMeta (ri_ActionID m) (ri_Miss m) (ri_OutputID m) (ri_Size m)
                  (ri_Time m) true (blen buf) (ri_DiskPath m)) (ri_body ri),
                Ok (Some (fromBytes buf)))
           end
  | r => (ri, r)
  end.
End item_codecs.

(** [ResponseItem.WriteTo]: exactly [WireSize] bytes of the body. *)
Definition ItemWriteTo (ri : ResponseItem) : result bytes :=
  match ItemWireBodyReader ri with
  | Err e => Err e
  | Ok None => Ok []
  | Ok (Some rd) =>
      let wireSize := ri_WireSize (ri_meta ri) in
      if wireSize <? 0 then Err (EPanic "makeslice: len out of range")
      else match ReadFull rd wireSize with
      | Err e => Err e
      | Ok (buf, _) => Ok buf
      end
  end.

(** ** Responses *)

Section response_format.
Context `{JSON (list ResponseMeta)}.

Fixpoint writeItemBodies (items : list ResponseItem) : result bytes :=
  match items with
  | [] => Ok []
  | item :: items' =>
      match ItemWriteTo item with
      | Err e => Err e
      | Ok b => let? bs := writeItemBodies items' in Ok (b ++ bs)
      end
  end.

(** [Response.WriteTo]. *)
Definition ResponseWriteTo (items : list ResponseItem) : result bytes :=
  match Marshal (map ri_meta items) with
  | Err e => Err e
  | Ok jsonData =>
      match checkedJSONLength jsonData with
      | Err e => Err e
      | Ok n => let? bs := writeItemBodies items in Ok (putInt32 n ++ jsonData ++ bs)
      end
  end.

Fixpoint readItemBodies {S} (items : list ResponseMeta) (rd : stream)
    (read : ResponseMeta -> option stream -> S -> S * option goerr) (s : S) (total : Z)
    : S * result Z :=
  match items with
  | [] => (s, Ok total)
  | item :: items' =>
      if ri_WireSize item =? 0 then
        match read item None s with
        | (s, Some e) => (s, Err e)
        | (s, None) => readItemBodies items' rd read s total
        end
      else match readItemBody rd (ri_WireSize item) (fun cr => read item (Some cr)) s with
      | (s, Err e) => (s, Err e)
      | (s, Ok (rd, n)) => readItemBodies items' rd read s (total + n)
      end
  end.

(** [Response.ReaderFrom]. *)
Definition ResponseReaderFrom {S} (rd : stream)
    (read : ResponseMeta -> option stream -> S -> S * option goerr) (s : S) : S * result Z :=
  match ReadFull rd 4 with
  | Err e => (s, Err e)
  | Ok (head, rd) =>
      let jsonLength := getInt32 head in
      if jsonLength <? 0 then (s, Err (EPanic "makeslice: len out of range"))
      else match ReadFull rd jsonLength with
      | Err e => (s, Err e)
      | Ok (jsonData, rd) =>
          match Unmarshal jsonData with
          | Err e => (s, Err e)
          | Ok items => readItemBodies items rd read s (4 + jsonLength)
          end
      end
  end.

(** [Response.ContentLength]. *)
Definition ResponseContentLength (items : list ResponseItem) : result Z :=
  match Marshal (map ri_meta items) with
  | Err e => Err e
  | Ok jsonData =>
      Ok (foldl (fun total m => total + (if negb (ri_WireSize m =? 0) then ri_WireSize m else ri_Size m))
            (4 + blen jsonData) (map ri_meta items))
  end.

(** [Response.ReaderNaive]: the whole response in memory, its length checked. *)
Definition ResponseReaderNaive (items : list ResponseItem) : result stream :=
  match ResponseContentLength items with
  | Err e => Err e
  | Ok cl =>
      match ResponseWriteTo items with
      | Err e => Err e
      | Ok out => if negb (blen out =? cl) then Err (EMsg "unexpected content length")
                  else Ok (fromBytes out)
      end
  end.
End response_format.

(** ** The length of a response *)

(** What [ContentLength] counts and [WriteTo] does not write: the sizes of the
    items that declare no wire size. *)
Definition unsent (m : ResponseMeta) : Z := if ri_WireSize m =? 0 then ri_Size m else 0.

Definition total_unsent (items : list ResponseItem) : Z :=
  foldr (fun ri acc => unsent (ri_meta ri) + acc) 0 items.

Lemma ItemWriteTo_length ri b :
  ItemWriteTo ri = Ok b -> blen b = ri_WireSize (ri_meta ri) \/ (b = [] /\ ri_WireSize (ri_meta ri) = 0).
Proof.
  unfold ItemWriteTo, ItemWireBodyReader, noBody. destruct (_ && _) eqn:E0.
  { intros [= <-]. go_bool. by right. }
  destruct (ri_body ri) as [[rd|e]|]; [|done..].
  destruct (_ <? 0) eqn:Hneg; [done|]. go_bool. unfold ReadFull.
  destruct (_ <=? blen (st_data rd)) eqn:El; go_bool; [|by repeat case_match].
  intros [= <-]. left. unfold blen in *. rewrite length_take. lia.
Qed.

Lemma writeItemBodies_length items bs t :
  writeItemBodies items = Ok bs ->
  foldl (fun total m => total + (if negb (ri_WireSize m =? 0) then ri_WireSize m else ri_Size m)) t
    (map ri_meta items) = t + blen bs + total_unsent items.
Proof.
  revert bs t. induction items as [|ri items IH]; intros bs t; simpl.
  { intros [= <-]. unfold blen. simpl. lia. }
  destruct (ItemWriteTo ri) as [b|] eqn:Eb; [|done].
  destruct (writeItemBodies items) as [bs'|]; [|done]. intros [= <-].
  rewrite (IH bs') by done. rewrite blen_app'. unfold unsent.
  apply ItemWriteTo_length in Eb as [Eb|[-> Eb]].
  - destruct (Z.eqb_spec (ri_WireSize (ri_meta ri)) 0); simpl; lia.
  - rewrite Eb. simpl. change (blen []) with 0. lia.
Qed.

Lemma ResponseContentLength_parts `{JSON (list ResponseMeta)} items out :
  ResponseWriteTo items = Ok out ->
  ResponseContentLength items = Ok (blen out + total_unsent items).
Proof.
  unfold ResponseWriteTo, ResponseContentLength. destruct (Marshal _) as [j|]; [|done].
  unfold checkedJSONLength. destruct (_ <? _); [done|].
  destruct (writeItemBodies items) as [bs|] eqn:Eb; [|done]. intros Ho.
  assert (out = putInt32 (blen j) ++ j ++ bs) as -> by congruence.
  rewrite (writeItemBodies_length items bs) by done. rewrite !blen_app'.
  change (blen (putInt32 _)) with 4. f_equal. lia.
Qed.

(** The announced length of a response is the number of bytes that
    [WriteTo] writes plus the sizes of the items that declare no wire size: it is
    exact when every item with a body declares one, and then only does
    [ReaderNaive] accept the response. *)
Theorem ContentLength_exact `{JSON (list ResponseMeta)} items out
    (Hout : ResponseWriteTo items = Ok out) :
  ResponseContentLength items = Ok (blen out + total_unsent items) /\
  (ResponseReaderNaive items = Ok (fromBytes out) <-> total_unsent items = 0).
Proof.
  assert (Hl := ResponseContentLength_parts items out Hout). split; [done|].
  unfold ResponseReaderNaive. rewrite Hl, Hout.
  destruct (Z.eqb_spec (blen out) (blen out + total_unsent items)); simpl.
  - split; [lia|done].
  - split; [done|lia].
Qed.

(** ** The round trip *)

(** The body an item arrives with. *)
Definition receivedItem (ri : ResponseItem) : option stream :=
  if ri_WireSize (ri_meta ri) =? 0 then None
  else match ItemWriteTo ri with Ok b => Some (fromBytes b) | Err _ => None end.

Fixpoint deliverItems {S} (items : list ResponseItem)
    (read : ResponseMeta -> option stream -> S -> S * option goerr) (s : S) : S * option goerr :=
  match items with
  | [] => (s, None)
  | ri :: items' =>
      match read (ri_meta ri) (receivedItem ri) s with
      | (s, Some e) => (s, Some e)
      | (s, None) => deliverItems items' read s
      end
  end.

Lemma readItemBodies_spec {S} items out rest e
    (read : ResponseMeta -> option stream -> S -> S * option goerr) s total :
  writeItemBodies items = Ok out ->
  readItemBodies (map ri_meta items) (mkStream (out ++ rest) e) read s total =
  match deliverItems items read s with
  | (s, Some err) => (s, Err err)
  | (s, None) => (s, Ok (total + blen out))
  end.
Proof.
  revert out s total. induction items as [|ri items IH]; intros out s total; simpl.
  { intros [= <-]. do 2 f_equal. unfold blen. simpl. lia. }
  destruct (ItemWriteTo ri) as [b|] eqn:Eb; [|done].
  destruct (writeItemBodies items) as [out'|] eqn:Eo; [|done]. intros [= <-].
  assert (Hb : blen b = ri_WireSize (ri_meta ri)).
  { apply ItemWriteTo_length in Eb as [?|[-> ->]]; done. }
  unfold receivedItem. rewrite Eb, <-app_assoc, blen_app'.
  destruct (Z.eqb_spec (ri_WireSize (ri_meta ri)) 0) as [E|E].
  - assert (b = []) as ->.
    { destruct b; [done|]. rewrite E in Hb. unfold blen in Hb. simpl in Hb. lia. }
    destruct (read _ _ s) as [s' [err|]]; [done|]. by apply IH.
  - rewrite readItemBody_app by done.
    destruct (read _ _ s) as [s' [err|]]; [done|]. rewrite (IH out') by done.
    destruct (deliverItems _ _ _) as [? [?|]]; [done|]. do 2 f_equal. lia.
Qed.

(** [ReaderFrom] inverts [WriteTo] for every response that could be
    written: the callback gets each item's metadata and, when it declares a wire
    size, exactly its body, in order; what follows the response on the stream is
    left unread. *)
Theorem Response_roundtrip `{JSON (list ResponseMeta)} {S} items out rest e
    (read : ResponseMeta -> option stream -> S -> S * option goerr) s
    (Hj : json_ok (map ri_meta items)) (Hout : ResponseWriteTo items = Ok out) :
  ResponseReaderFrom (mkStream (out ++ rest) e) read s =
  match deliverItems items read s with
  | (s, Some err) => (s, Err err)
  | (s, None) => (s, Ok (blen out))
  end.
Proof.
  destruct (Unmarshal_Marshal _ Hj) as (j & Ej & Hne & Hu).
  unfold ResponseWriteTo in Hout. rewrite Ej in *.
  unfold checkedJSONLength in Hout. destruct (MaxInt32 <? blen j) eqn:Hl; [done|]. go_bool.
  destruct (writeItemBodies items) as [bs|] eqn:Eb; [|done].
  assert (out = putInt32 (blen j) ++ j ++ bs) as -> by congruence.
  assert (Hn := blen_nonneg j). unfold MaxInt32 in Hl.
  unfold ResponseReaderFrom. rewrite <-!app_assoc, ReadFull_app by done.
  rewrite getInt32_putInt32 by lia. rewrite (proj2 (Z.ltb_ge _ _)), ReadFull_app by done.
  rewrite Hu, (readItemBodies_spec items bs) by done. destruct (deliverItems _ _ _) as [? [?|]]; [done|].
  rewrite !blen_app'. change (blen (putInt32 _)) with 4. do 2 f_equal. lia.
Qed.

(** ** Witnesses *)

Definition exampleHit : ResponseItem :=
  mkResponseItem (mkResponseMeta #"a1" false #"o1" 3 None false 3 []) (Some (Ok (fromBytes #"abcd"))).
Definition exampleMiss : ResponseItem :=
  mkResponseItem (mkResponseMeta #"a2" true [] 0 None false 0 []) None.

Definition responseJSON : JSON (list ResponseMeta) := tableJSON [[ri_meta exampleHit; ri_meta exampleMiss]].

Definition responseWire : bytes :=
  match @ResponseWriteTo responseJSON [exampleHit; exampleMiss] with Ok b => b | Err _ => [] end.

Definition collectItems (m : ResponseMeta) (body : option stream) (s : list (ResponseMeta * bytes))
    : list (ResponseMeta * bytes) * option goerr :=
  (s ++ [(m, match body with Some rd => st_data rd | None => [] end)], None).

Lemma Response_roundtrip_witness :
  @ResponseReaderFrom responseJSON _ (mkStream (responseWire ++ #"tail") None) collectItems [] =
    ([(ri_meta exampleHit, #"abc"); (ri_meta exampleMiss, [])], Ok (blen responseWire)).
Proof.
  rewrite (Response_roundtrip (H := responseJSON) [exampleHit; exampleMiss] responseWire #"tail" None collectItems []).
  - vm_compute. reflexivity.
  - simpl. set_solver.
  - vm_compute. reflexivity.
Defined.

Lemma ContentLength_exact_witness :
  @ResponseContentLength responseJSON [exampleHit; exampleMiss] = Ok (blen responseWire + 0).
Proof.
  destruct (ContentLength_exact (H := responseJSON) [exampleHit; exampleMiss] responseWire) as [E _].
  - vm_compute. reflexivity.
  - exact E.
Defined.
