(* ===== verification/Settings.v ===== *)
(** The server's settings of src/internal/http/settings.go: limits by build type that
    are changed over HTTP and kept in a file, and the trimming of a preload to its
    budget. *)
From S2P Require Import Prelude.
From S2P Require Import GoStrings.
From S2P Require Import Wire.
From S2P Require Import CacheWire.

(** ** Settings *)

Record serverSettings := mkSettings {
  MaxPreloadTotalBytesByBuildType : gmap bytes Z;
  MaxFileBytesByBuildType : gmap bytes Z;
}.

#[export] Instance serverSettings_eq_dec : EqDecision serverSettings.
Proof. solve_decision. Defined.

(** The handler's settings, and the file they are kept in. *)
Record Handler := mkHandler {
  settingsPath : bytes;
  settings : serverSettings;
  settingsFile : option bytes;
}.

Definition set_settings (h : Handler) (s : serverSettings) : Handler := mkHandler (settingsPath h) s (settingsFile h).

(** The two maps. *)
Inductive setting := MaxPreloadTotalBytes | MaxFileBytes.

Definition mapOf (k : setting) (s : serverSettings) : gmap bytes Z :=
  match k with
  | MaxPreloadTotalBytes => MaxPreloadTotalBytesByBuildType s
  | MaxFileBytes => MaxFileBytesByBuildType s
  end.

Definition with_map (k : setting) (m : gmap bytes Z) (s : serverSettings) : serverSettings :=
  match k with
  | MaxPreloadTotalBytes => mkSettings m (MaxFileBytesByBuildType s)
  | MaxFileBytes => mkSettings (MaxPreloadTotalBytesByBuildType s) m
  end.

(** A Go map answers zero for a missing key. *)
Definition maxBytesFor (k : setting) (h : Handler) (buildType : bytes) : Z :=
  default 0 (mapOf k (settings h) !! buildType).

Definition maxPreloadTotalBytesFor : Handler -> bytes -> Z := maxBytesFor MaxPreloadTotalBytes.
Definition maxFileBytesFor : Handler -> bytes -> Z := maxBytesFor MaxFileBytes.

(** [maxPreloadTotalBytesSnapshot], [maxFileBytesSnapshot]: a copy of the map. *)
Definition snapshot (k : setting) (h : Handler) : gmap bytes Z := mapOf k (settings h).

Section settings.
Context `{JSON serverSettings}.

(** [loadSettings], [readErr] what reading a file that is there meets. *)
Definition loadSettings (h : Handler) (readErr : option goerr) : Handler :=
  if bool_decide (settingsPath h = []) then h
  else match settingsFile h, readErr with
  | None, _ | _, Some _ => h
  | Some data, None => match Unmarshal data with Ok s => set_settings h s | Err _ => h end
  end.

(** [writeFileAtomic]: a failure leaves the file as it was. *)
Definition writeFileAtomic (h : Handler) (data : bytes) (flt : option goerr) : Handler * result unit :=
  match flt with
  | Some e => (h, Err e)
  | None => (mkHandler (settingsPath h) (settings h) (Some data), Ok tt)
  end.

Definition setBuildTypeInt64 (k : setting) (h : Handler) (buildType : bytes) (n : Z) (flt : option goerr)
    : Handler * result unit :=
  let m := mapOf k (settings h) in
  let m := if n <=? 0 then delete buildType m else <[buildType := n]> m in
  let h := set_settings h (with_map k m (settings h)) in
  if bool_decide (settingsPath h = []) then (h, Ok tt)
  else match Marshal (settings h) with
  | Err e => (h, Err e)
  | Ok data => writeFileAtomic h data flt
  end.

(** ** Requests *)

Inductive Method := GET | POST | OtherMethod.

Inductive reply :=
  | Values (m : gmap bytes Z)
  | NoContent
  | StatusError (code : Z).

(** [buildTypeInt64Settings] with the query's [build-type] and [bytes]. *)
Definition buildTypeInt64Settings (k : setting) (h : Handler) (m : Method) (buildType raw : bytes)
    (flt : option goerr) : Handler * reply :=
  match m with
  | GET => (h, Values (snapshot k h))
  | POST =>
      let buildType := TrimSpace buildType in
      if bool_decide (buildType = []) then (h, StatusError 400)
      else
        let raw := TrimSpace raw in
        match (if bool_decide (raw = []) then Ok 0 else ParseInt raw) with
        | Err _ => (h, StatusError 400)
        | Ok n =>
            match setBuildTypeInt64 k h buildType n flt with
            | (h, Err _) => (h, StatusError 500)
            | (h, Ok _) => (h, NoContent)
            end
        end
  | OtherMethod => (h, StatusError 405)
  end.
End settings.

(** ** Trimming *)

Definition preloadTrimBucket : Z := 3600 * 1000000.

Definition sizeOf (m : ResponseMeta) : Z := if 0 <? ri_WireSize m then ri_WireSize m else ri_Size m.

Definition bucketOf (m : ResponseMeta) : Z :=
  match ri_Time m with Some t => Z.quot t preloadTrimBucket | None => 0 end.

Definition trimsBefore (a b : ResponseMeta) : bool :=
  if bucketOf a =? bucketOf b then sizeOf b <? sizeOf a else bucketOf a <? bucketOf b.

Definition totalSize (items : list ResponseItem) : Z := foldl (fun t i => t + sizeOf (ri_meta i)) 0 items.

(** The indices to drop, from the front of the order. *)
Fixpoint dropLoop (items : list ResponseItem) (limitBytes total : Z) (order : list nat) (dropped : gset nat) : gset nat :=
  match order with
  | [] => dropped
  | idx :: order =>
      if total <=? limitBytes then dropped
      else match items !! idx with
           | Some item => dropLoop items limitBytes (total - sizeOf (ri_meta item)) order ({[idx]} ∪ dropped)
           | None => dropped
           end
  end.

Fixpoint survivorsFrom (i : nat) (dropped : gset nat) (items : list ResponseItem) : list ResponseItem :=
  match items with
  | [] => []
  | item :: items =>
      if decide (i ∈ dropped) then survivorsFrom (S i) dropped items
      else item :: survivorsFrom (S i) dropped items
  end.

Definition nth_meta (items : list ResponseItem) (i : nat) : ResponseMeta :=
  match items !! i with
  | Some item => ri_meta item
  | None => mkResponseMeta [] false [] 0 None false 0 []
  end.

Definition trimToPreloadBudget `{SliceSort} (items : list ResponseItem) (limitBytes : Z) : list ResponseItem :=
  if (limitBytes <=? 0) || bool_decide (length items = 0%nat) then items
  else
    let total := totalSize items in
    if total <=? limitBytes then items
    else
      let order := sort_slice (fun a b => trimsBefore (nth_meta items a) (nth_meta items b)) (seq 0 (length items)) in
      survivorsFrom 0 (dropLoop items limitBytes total order ∅) items.

(** ** Settings are kept *)

Section kept.
Context `{JSON serverSettings}.

(** The settings after a change, which is made in memory whatever the file does. *)
Lemma setBuildTypeInt64_settings k h buildType n flt :
  settings (fst (setBuildTypeInt64 k h buildType n flt)) =
  with_map k (if n <=? 0 then delete buildType (mapOf k (settings h)) else <[buildType := n]> (mapOf k (settings h)))
    (settings h).
Proof.
  unfold setBuildTypeInt64. case_bool_decide; [done|]. simpl.
  destruct (Marshal _); [|done]. by destruct flt.
Qed.

Lemma mapOf_with k m s : mapOf k (with_map k m s) = m.
Proof. by destruct k. Qed.

Lemma mapOf_other k k' m s : k <> k' -> mapOf k' (with_map k m s) = mapOf k' s.
Proof. by destruct k, k'. Qed.

(** A setting that was changed is the setting the server has, and keeps.  After a
    change the build type has the new value, zero when it was not positive, every other
    build type and the other setting are as they were; and when the change was
    reported to be saved, a server that starts from the file has exactly the same
    settings. *)
Theorem settings_are_kept k h buildType n flt h' fresh
    (Hset : setBuildTypeInt64 k h buildType n flt = (h', Ok tt))
    (Hpath : settingsPath h <> [])
    (Hjson : json_ok (settings h')) :
  maxBytesFor k h' buildType = Z.max 0 n /\
  (forall b, b <> buildType -> maxBytesFor k h' b = maxBytesFor k h b) /\
  (forall k' b, k' <> k -> maxBytesFor k' h' b = maxBytesFor k' h b) /\
  settings (loadSettings (mkHandler (settingsPath h) fresh (settingsFile h')) None) = settings h'.
Proof.
  assert (Hs := setBuildTypeInt64_settings k h buildType n flt). rewrite Hset in Hs. simpl in Hs.
  unfold maxBytesFor. split_and!.
  - rewrite Hs, mapOf_with. destruct (n <=? 0) eqn:E; go_bool.
    + rewrite lookup_delete_eq. simpl. lia.
    + rewrite lookup_insert_eq. simpl. lia.
  - intros b Hb. rewrite Hs, mapOf_with. destruct (n <=? 0); [by rewrite lookup_delete_ne|by rewrite lookup_insert_ne].
  - intros k' b Hk. by rewrite Hs, mapOf_other.
  - unfold setBuildTypeInt64 in Hset. simpl in Hset. rewrite bool_decide_eq_false_2 in Hset by done.
    unfold loadSettings. simpl. rewrite bool_decide_eq_false_2 by done.
    destruct (Marshal _) as [data|] eqn:Em; [|done]. destruct flt; [done|]. injection Hset as <-.
    simpl in *. destruct (Unmarshal_Marshal _ Hjson) as (d & Ed & _ & Hu).
    rewrite Ed in Em. injection Em as <-. by rewrite Hu.
Qed.
End kept.

(** ** What trimming leaves *)

Lemma totalSize_cons i l : totalSize (i :: l) = sizeOf (ri_meta i) + totalSize l.
Proof.
  unfold totalSize. cbn [foldl]. generalize 0 as t. induction l as [|j l IH]; intros t; simpl; [lia|].
  rewrite <-IH. f_equal. lia.
Qed.

Lemma totalSize_app l k : totalSize (l ++ k) = totalSize l + totalSize k.
Proof. induction l as [|i l IH]; [done|]. cbn [app]. rewrite !totalSize_cons, IH. lia. Qed.

Lemma totalSize_perm l k : l ≡ₚ k -> totalSize l = totalSize k.
Proof. induction 1; rewrite ?totalSize_cons; try lia. Qed.

#[export] Instance trimsBefore_strict : StrictWeak trimsBefore.
Proof.
  split; intros *; unfold trimsBefore;
    repeat match goal with |- context [?a =? ?b] => destruct (Z.eqb_spec a b) end;
    rewrite ?Z.ltb_lt, ?Z.ltb_ge; lia.
Qed.

#[export] Instance on_strict {A B} (f : A -> B) (less : B -> B -> bool) :
  StrictWeak less -> StrictWeak (fun a b => less (f a) (f b)).
Proof. intros [H1 H2 H3]. split; eauto. Qed.

Lemma ordered_by_map {A B} (f : A -> B) (less : B -> B -> bool) l :
  ordered_by (fun a b => less (f a) (f b)) l -> ordered_by less (map f l).
Proof.
  intros Ho i j x y Hij Hx Hy. change (map f l) with (f <$> l) in Hx, Hy. rewrite list_lookup_fmap in Hx, Hy.
  apply fmap_Some in Hx as (a & Ha & ->). apply fmap_Some in Hy as (b & Hb & ->). by eapply (Ho i j).
Qed.

(** The items at a list of indices. *)
Definition at_indices (items : list ResponseItem) (l : list nat) : list ResponseItem :=
  omap (fun i => items !! i) l.

Lemma survivorsFrom_filter items i D :
  survivorsFrom i D items =
  omap (fun j => items !! (j - i)%nat) (filter (fun j => j ∉ D) (seq i (length items))).
Proof.
  revert i. induction items as [|item items IH]; intros i; [done|]. cbn [survivorsFrom length seq].
  assert (E : omap (fun j => (item :: items) !! (j - i)%nat) (filter (fun j => j ∉ D) (seq (S i) (length items))) =
    survivorsFrom (S i) D items).
  { rewrite IH. apply list_omap_ext, Forall_Forall2_diag, Forall_forall.
    intros j [_ Hj]%list_elem_of_filter. apply elem_of_seq in Hj.
    by replace (j - i)%nat with (S (j - S i)) by lia. }
  rewrite filter_cons. destruct (decide (i ∈ D)) as [Hi|Hi].
  - rewrite decide_False by (intros H; by apply H). by rewrite E.
  - rewrite decide_True by done. cbn [omap list_omap]. rewrite Nat.sub_diag. cbn [lookup list_lookup]. by rewrite <-E.
Qed.

Lemma dropLoop_spec items limit total order dropped :
  Forall (fun i => (i < length items)%nat) order ->
  exists d k, order = d ++ k /\ dropLoop items limit total order dropped = list_to_set d ∪ dropped /\
    (total - totalSize (at_indices items d) <= limit \/ k = []) /\
    forall front i x, d = front ++ [i] -> items !! i = Some x ->
      limit < total - totalSize (at_indices items d) + sizeOf (ri_meta x).
Proof.
  revert total dropped. induction order as [|i order IH]; intros total dropped Hf; simpl.
  { exists [], []. split; [done|]. split; [set_solver|]. split; [by right|]. by intros [|??]. }
  apply Forall_cons in Hf as [Hi Hf]. destruct (total <=? limit) eqn:E; go_bool.
  { exists [], (i :: order). split; [done|]. split; [set_solver|]. split; [left; unfold totalSize; simpl; lia|].
    by intros [|??]. }
  apply lookup_lt_is_Some in Hi as [x Hx]. rewrite Hx.
  destruct (IH (total - sizeOf (ri_meta x)) ({[i]} ∪ dropped) Hf) as (d & k & -> & Hd & Hle & Hlast).
  assert (Ht : totalSize (at_indices items (i :: d)) = sizeOf (ri_meta x) + totalSize (at_indices items d)).
  { unfold at_indices. cbn [omap list_omap]. by rewrite Hx, totalSize_cons. }
  exists (i :: d), k. split; [done|]. split; [rewrite Hd; set_solver|]. rewrite Ht.
  split; [destruct Hle; [left; lia|by right]|].
  intros front j y Hfront Hy. destruct d as [|i' d'].
  - destruct front as [|? [|??]]; simplify_eq/=. unfold totalSize. simpl. lia.
  - destruct front as [|i0 front]; [done|]. injection Hfront as -> Hfront.
    specialize (Hlast front j y Hfront Hy). lia.
Qed.

Lemma all_indices items : at_indices items (seq 0 (length items)) = items.
Proof.
  assert (H := survivorsFrom_filter items 0 ∅). rewrite filter_all in H by set_solver.
  transitivity (survivorsFrom 0 ∅ items).
  - rewrite H. apply list_omap_ext, Forall_Forall2_diag, Forall_forall. intros j _. by rewrite Nat.sub_0_r.
  - clear H. generalize 0%nat. induction items as [|x items IH]; intros n; [done|].
    cbn [survivorsFrom]. rewrite decide_False by set_solver. by rewrite IH.
Qed.

Lemma at_indices_app items l k : at_indices items (l ++ k) = at_indices items l ++ at_indices items k.
Proof. apply omap_app. Qed.

Lemma at_indices_perm items l k : l ≡ₚ k -> at_indices items l ≡ₚ at_indices items k.
Proof. intros H. unfold at_indices. by rewrite H. Qed.

Lemma at_indices_metas items l :
  Forall (fun i => (i < length items)%nat) l -> map ri_meta (at_indices items l) = map (nth_meta items) l.
Proof.
  unfold at_indices. induction 1 as [|i l Hi Hl IH]; [done|]. cbn [omap list_omap map]. unfold nth_meta at 1.
  apply lookup_lt_is_Some in Hi as [x Hx]. rewrite Hx. cbn [map]. by rewrite IH.
Qed.

Lemma survivors_sublist items i D : survivorsFrom i D items `sublist_of` items.
Proof.
  revert i. induction items as [|x items IH]; intros i; [done|]. cbn [survivorsFrom].
  destruct (decide _); [by apply sublist_cons|by apply sublist_skip].
Qed.

Lemma survivors_kept items d k :
  d ++ k ≡ₚ seq 0 (length items) -> at_indices items k ≡ₚ survivorsFrom 0 (list_to_set d ∪ ∅) items.
Proof.
  intros Hp. set (D := list_to_set d ∪ ∅ : gset nat).
  assert (Hn : NoDup (d ++ k)) by (rewrite Hp; apply NoDup_seq).
  apply NoDup_app in Hn as (_ & Hdk & _).
  replace (survivorsFrom 0 D items) with (at_indices items (filter (fun j => j ∉ D) (seq 0 (length items)))).
  - apply at_indices_perm. rewrite <-Hp, filter_app. rewrite filter_none.
    2: { intros j Hj Hn3. apply Hn3. set_solver. }
    cbn [app]. rewrite filter_all; [done|]. intros j Hj Hd. apply (Hdk j); [|done]. set_solver.
  - rewrite survivorsFrom_filter. apply list_omap_ext, Forall_Forall2_diag, Forall_forall.
    intros j _. by rewrite Nat.sub_0_r.
Qed.

(** What is left of the items are some of them, in their order; all of them when there
    is no budget or they fit it. *)
Lemma trim_sublist `{SliceSort} items limit : trimToPreloadBudget items limit `sublist_of` items.
Proof. unfold trimToPreloadBudget. destruct (_ || _); [done|]. destruct (_ <=? _); [done|]. apply survivors_sublist. Qed.

Lemma trim_fits `{SliceSort} items limit :
  limit <= 0 \/ totalSize items <= limit -> trimToPreloadBudget items limit = items.
Proof.
  intros Hl. unfold trimToPreloadBudget. destruct (limit <=? 0) eqn:E; [done|]. go_bool. cbn [orb].
  case_bool_decide; [done|]. by rewrite (proj2 (Z.leb_le _ _)) by lia.
Qed.

(** C39: a preload is trimmed to its budget and no further.  With a positive budget
    the items that survive keep their order and sum up to at most the budget; those
    that were dropped come first in an ordering of all items by time bucket, the
    oldest first, and by size, the largest first, and with the last of them the
    budget would still be exceeded.  Without a budget nothing is dropped.  So a large
    item that was used lately outlives small old ones, which is more than the comment at
    the call in preload.go says (largest first). *)
Theorem trimToPreloadBudget_spec `{SliceSort} items limit :
  let r := trimToPreloadBudget items limit in
  (limit <= 0 -> r = items) /\
  (0 < limit -> r `sublist_of` items /\ totalSize r <= limit /\
    exists dropped kept, kept ≡ₚ r /\ (dropped ++ kept ≡ₚ items) /\
      ordered_by trimsBefore (map ri_meta (dropped ++ kept)) /\
      forall front x, dropped = front ++ [x] -> limit < totalSize r + sizeOf (ri_meta x)).
Proof.
  intros r. subst r. unfold trimToPreloadBudget. split.
  { intros Hl. by rewrite (proj2 (Z.leb_le _ _)). }
  intros Hl. rewrite (proj2 (Z.leb_gt _ _)) by done. cbn [orb].
  set (less := fun a b : nat => _). set (order := sort_slice less _).
  assert (Hp : order ≡ₚ seq 0 (length items)) by apply sort_slice_perm.
  assert (Ho : ordered_by trimsBefore (map ri_meta (at_indices items order))).
  { rewrite at_indices_metas; [apply ordered_by_map, sort_slice_ordered, _|].
    rewrite Hp. apply Forall_forall. intros i Hi%elem_of_seq. lia. }
  assert (Hall : at_indices items order ≡ₚ items).
  { rewrite <-(all_indices items) at 2. by apply at_indices_perm. }
  assert (Hsame : totalSize items <= limit ->
    items `sublist_of` items /\ totalSize items <= limit /\ exists dropped kept : list ResponseItem,
      kept ≡ₚ items /\ (dropped ++ kept ≡ₚ items) /\ ordered_by trimsBefore (map ri_meta (dropped ++ kept)) /\
      forall front x, dropped = front ++ [x] -> limit < totalSize items + sizeOf (ri_meta x)).
  { intros Ht. split; [done|]. split; [done|]. exists [], (at_indices items order).
    split; [done|]. split; [done|]. split; [done|]. by intros [|??]. }
  case_bool_decide as Hn; [apply Hsame; destruct items; [unfold totalSize; simpl; lia|done]|].
  destruct (totalSize items <=? limit) eqn:E; go_bool; [by apply Hsame|]. clear Hsame.
  destruct (dropLoop_spec items limit (totalSize items) order ∅) as (d & k & Ed & -> & Hle & Hlast).
  { rewrite Hp. apply Forall_forall. intros i Hi%elem_of_seq. lia. }
  rewrite Ed in Hall, Ho, Hp. rewrite at_indices_app in Hall, Ho.
  assert (Hk := survivors_kept items d k Hp).
  assert (Ht := totalSize_perm _ _ Hall). rewrite totalSize_app in Ht. apply totalSize_perm in Hk as Ht2.
  split; [apply survivors_sublist|]. split.
  { destruct Hle as [|Hle]; [lia|]. subst k. rewrite <-Ht2. unfold totalSize. simpl. lia. }
  exists (at_indices items d), (at_indices items k). split; [done|]. split; [done|]. split; [done|].
  intros front x Hx. destruct d as [|i d _] using rev_ind; [by destruct front|].
  assert (Hi : i ∈ seq 0 (length items)) by (rewrite <-Hp; set_solver). apply elem_of_seq in Hi as [_ Hi].
  apply lookup_lt_is_Some in Hi as [y Hy]. rewrite at_indices_app in Hx.
  unfold at_indices at 2 in Hx. cbn [omap list_omap] in Hx. rewrite Hy in Hx.
  apply app_inj_tail in Hx as [_ ->]. specialize (Hlast d i x eq_refl Hy). lia.
Qed.

(** ** Witness *)

Definition ciSettings : serverSettings := mkSettings {[ #"ci" := 100]} {[ #"lint" := 7]}.

Definition ciHandler : Handler := mkHandler #"/srv/settings.json" (mkSettings ∅ {[ #"lint" := 7]}) None.

Definition settingsJSON : JSON serverSettings := tableJSON [ciSettings].

Lemma settings_are_kept_witness :
  let h := fst (@setBuildTypeInt64 settingsJSON MaxPreloadTotalBytes ciHandler #"ci" 100 None) in
  maxPreloadTotalBytesFor h #"ci" = 100 /\ maxFileBytesFor h #"lint" = 7 /\
  settings (@loadSettings settingsJSON (mkHandler #"/srv/settings.json" (mkSettings ∅ ∅) (settingsFile h)) None) = ciSettings.
Proof.
  intros h. destruct (settings_are_kept (H := settingsJSON) MaxPreloadTotalBytes ciHandler #"ci" 100 None h (mkSettings ∅ ∅))
    as (E1 & _ & E2 & E3).
  - vm_compute. reflexivity.
  - vm_compute. discriminate.
  - simpl. apply list_elem_of_singleton. vm_compute. reflexivity.
  - split; [exact E1|]. split; [|exact E3]. unfold maxFileBytesFor. rewrite E2 by discriminate. vm_compute. reflexivity.
Defined.
