(* ===== verification/GoCacheStore.v ===== *)
(** The object store of src/internal/gocache/store.go: index, disk accounting,
    record pool, eviction heap and object files.  Requests take [s.mu] around
    their index updates; [putOne] is its three phases (look up, write the body,
    commit) run in sequence, and the phases are definitions of their own so that
    interleavings can be stated.  Faults of the file system and the clock are
    arguments; failures that the code only logs do not occur. *)
From S2P Require Import Prelude.
From S2P Require Import GoStrings.
From S2P Require Import GoPath.
From S2P Require Import RecordPool.
From S2P Require Import EvictHeap.
From S2P Require Import Wire.

(** ** Data *)

Record indexEntry := mkEntry {
  ie_Size : Z;
  ie_Mode : Z;
  ie_WireSize : Z;
  ie_Compressed : Z;
  ie_ModTimeMicro : Z;
  ie_PoolPage : Z;
  ie_PoolSlot : Z;
}.

#[export] Instance indexEntry_eq_dec : EqDecision indexEntry.
Proof. solve_decision. Defined.

(** The options of [NewStore]. *)
Record Config := mkConfig {
  cf_dir : bytes;
  cf_compress : bool;
  cf_maxDiskBytes : Z;
  cf_maxFileBytes : Z;
  cf_manifestMaxAge : Z;
  cf_evictionBucket : Z;
}.

(** The mutable part; [objects] are the files under [dir/objects] by path, the
    pool directory is in [pool]. *)
Record Store := mkStore {
  index : gmap bytes indexEntry;
  dirty : bool;
  ready : bool;
  currentDiskBytes : Z;
  evictionScheduled : bool;
  pool : Pool;
  evictHeap : evictionHeap;
  objects : gmap bytes bytes;
  hits : Z;
  puts : Z;
  putsExist : Z;
  errors : Z;
}.

Definition set_index (s : Store) (i : gmap bytes indexEntry) (d : Z) : Store :=
  mkStore i true (ready s) d (evictionScheduled s) (pool s) (evictHeap s) (objects s)
    (hits s) (puts s) (putsExist s) (errors s).
Definition set_pool (s : Store) (p : Pool) : Store :=
  mkStore (index s) (dirty s) (ready s) (currentDiskBytes s) (evictionScheduled s) p
    (evictHeap s) (objects s) (hits s) (puts s) (putsExist s) (errors s).
Definition set_heap (s : Store) (h : evictionHeap) : Store :=
  mkStore (index s) (dirty s) (ready s) (currentDiskBytes s) (evictionScheduled s) (pool s)
    h (objects s) (hits s) (puts s) (putsExist s) (errors s).
Definition set_objects (s : Store) (o : gmap bytes bytes) : Store :=
  mkStore (index s) (dirty s) (ready s) (currentDiskBytes s) (evictionScheduled s) (pool s)
    (evictHeap s) o (hits s) (puts s) (putsExist s) (errors s).
Definition set_scheduled (s : Store) (b : bool) : Store :=
  mkStore (index s) (dirty s) (ready s) (currentDiskBytes s) b (pool s)
    (evictHeap s) (objects s) (hits s) (puts s) (putsExist s) (errors s).
Definition add_counters (s : Store) (h p pe e : Z) : Store :=
  mkStore (index s) (dirty s) (ready s) (currentDiskBytes s) (evictionScheduled s) (pool s)
    (evictHeap s) (objects s) (hits s + h) (puts s + p) (putsExist s + pe) (errors s + e).

(** ** Helpers *)

Definition entryStoredSize (ie : indexEntry) : Z :=
  if 0 <? ie_WireSize ie then ie_WireSize ie else ie_Size ie.

Definition entryLoc (ie : indexEntry) : Loc := mkLoc (ie_PoolPage ie) (ie_PoolSlot ie).

Definition objectPath (cf : Config) (relPath : bytes) : bytes :=
  JoinPath [cf_dir cf; #"objects"; relPath].

Definition objectExistsLocked (cf : Config) (s : Store) (relPath : bytes) : bool :=
  match index s !! relPath with
  | None => false
  | Some ie =>
      if negb (ie_PoolPage ie =? 0) then true
      else bool_decide (is_Some (objects s !! objectPath cf relPath))
  end.

(** ** Writing files *)

Inductive writeFault := WMkdir | WCreate | WCopy | WClose | WRename.

#[export] Instance writeFault_eq_dec : EqDecision writeFault.
Proof. solve_decision. Defined.

(** [writeAtomic]: temp file, then rename; a failure leaves the files alone.
    The result is the number of bytes the copy read. *)
Definition writeAtomic (files : gmap bytes bytes) (path : bytes) (rd : option stream)
    (flt : option (writeFault * goerr)) : gmap bytes bytes * result Z :=
  match flt with
  | Some (WMkdir, e) | Some (WCreate, e) => (files, Err e)
  | _ =>
    match rd with
    | Some (mkStream _ (Some e)) => (files, Err e)
    | _ =>
      match flt with
      | Some (_, e) => (files, Err e)
      | None =>
          let data := match rd with Some rd => st_data rd | None => [] end in
          (<[path := data]> files, Ok (blen data))
      end
    end
  end.

(** ** Eviction *)

(** [removeObjectLocked]; removing a file that is not there is not an error. *)
Definition removeObjectLocked (cf : Config) (s : Store) (relPath : bytes) (ie : indexEntry) : Store :=
  if negb (ie_PoolPage ie =? 0) then
    set_pool s (Free (pool s) (entryStoredSize ie) (entryLoc ie))
  else set_objects s (delete (objectPath cf relPath) (objects s)).

(** The loop of [evictOneLocked]: each round pops the heap. *)
Fixpoint evictOneLoop (fuel : nat) (cf : Config) (s : Store) : Store * bool :=
  match fuel with
  | O => (s, false)
  | S fuel' =>
      match pop (evictHeap s) with
      | None => (s, false)
      | Some (e, h) =>
          let s := set_heap s h in
          match index s !! eh_path e with
          | None => evictOneLoop fuel' cf s
          | Some ie =>
              if negb (ie_ModTimeMicro ie =? eh_modTimeMicro e) ||
                 negb (entryStoredSize ie =? eh_size e)
              then evictOneLoop fuel' cf s
              else
                let s := set_index s (delete (eh_path e) (index s))
                           (currentDiskBytes s - entryStoredSize ie) in
                (removeObjectLocked cf s (eh_path e) ie, true)
          end
      end
  end.

Definition evictOneLocked (cf : Config) (s : Store) : Store * bool :=
  evictOneLoop (S (length (items (evictHeap s)))) cf s.

Definition EvictOne := evictOneLocked.

Definition DiskBytes (s : Store) : Z := currentDiskBytes s.

Definition evictionMarginFraction : Z := 10.

(** Every round removes an index entry: the size of the index is enough fuel. *)
Fixpoint evictLoop (fuel : nat) (cf : Config) (target : Z) (s : Store) : Store :=
  match fuel with
  | O => s
  | S fuel' =>
      if currentDiskBytes s <=? target then s
      else match evictOneLocked cf s with
           | (s, true) => evictLoop fuel' cf target s
           | (s, false) => s
           end
  end.

Definition evictIfNeededLocked (cf : Config) (s : Store) : Store :=
  if (cf_maxDiskBytes cf <=? 0) || (currentDiskBytes s <=? cf_maxDiskBytes cf) then s
  else
    let target := cf_maxDiskBytes cf - Z.quot (cf_maxDiskBytes cf) evictionMarginFraction in
    evictLoop (S (size (index s))) cf target s.

Definition EvictNow := evictIfNeededLocked.

Definition diskFullEvictFraction : Z := 10.

(** At most [n] evictions. *)
Fixpoint evictN (n : nat) (cf : Config) (s : Store) : Store :=
  match n with
  | O => s
  | S n' => match evictOneLocked cf s with
            | (s, true) => evictN n' cf s
            | (s, false) => s
            end
  end.

Definition evictOnDiskFullLocked (cf : Config) (s : Store) : Store :=
  let n := Z.quot (Z.of_nat (size (index s))) diskFullEvictFraction in
  evictN (Z.to_nat (if n =? 0 then 1 else n)) cf s.

(** [handleWriteErr] returns its error unchanged. *)
Definition handleWriteErr (cf : Config) (s : Store) (e : goerr) : Store :=
  if bool_decide (e = ENoSpace) then evictOnDiskFullLocked cf s else s.

(** Only the flag: the goroutine runs [evictionTimer] after the delay. *)
Definition scheduleEvictionLocked (cf : Config) (s : Store) : Store :=
  if evictionScheduled s then s
  else if (cf_manifestMaxAge cf <=? 0) &&
          ((cf_maxDiskBytes cf <=? 0) || (currentDiskBytes s <=? cf_maxDiskBytes cf)) then s
  else set_scheduled s true.

Definition evictionTimer (cf : Config) (s : Store) : Store :=
  evictIfNeededLocked cf (set_scheduled s false).

(** ** Saving *)

Definition MinCompressionSize : Z := 200.

Record putArgs := mkPutArgs {
  pa_now : Z;                                   (* time.Now in microseconds *)
  pa_pid : bytes;
  pa_pool : putFaults;
  pa_write : option (writeFault * goerr);
  pa_chtimes : option goerr;
}.

Section put.
Context `{Zstd} (cf : Config).

Definition compressNowBodyReader (item : FileItem) (ie : indexEntry)
    : result (indexEntry * option stream) :=
  match CompressedBodyReader item with
  | Err e => Err e
  | Ok None => Err (EPanic "nil reader")
  | Ok (Some rd) =>
      match ReadAll rd with
      | Err e => Err e
      | Ok compressed =>
          Ok (mkEntry (ie_Size ie) (ie_Mode ie) (blen compressed) 1 (ie_ModTimeMicro ie)
                (ie_PoolPage ie) (ie_PoolSlot ie), Some (fromBytes compressed))
      end
  end.

Definition bodyReaderForPut (item : FileItem) (compress : bool) (ie : indexEntry)
    : result (indexEntry * option stream) :=
  let m := fi_meta item in
  let plain := match UncompressedBodyReader item with
               | Err e => Err e | Ok rd => Ok (ie, rd) end in
  if fi_IsCompressed m && compress then
    match WireBodyReader item with
    | Err e => Err e
    | Ok rd =>
        Ok (mkEntry (ie_Size ie) (ie_Mode ie) (fi_WireSize m) 1 (ie_ModTimeMicro ie)
              (ie_PoolPage ie) (ie_PoolSlot ie), rd)
    end
  else if fi_IsCompressed m && negb compress then plain
  else if negb (fi_IsCompressed m) && compress && (MinCompressionSize <=? fi_Size m) then
    compressNowBodyReader item ie
  else plain.

(** The plain-file half of [storePutBody]. *)
Definition storePlain (s : Store) (item : FileItem) (ie : indexEntry) (rd : option stream)
    (counted : bool) (a : putArgs) : Store * result indexEntry :=
  let path := objectPath cf (fi_Path (fi_meta item)) in
  match writeAtomic (objects s) path rd (pa_write a) with
  | (o, Err e) => (handleWriteErr cf (set_objects s o) e, Err e)
  | (o, Ok n) =>
      let s := set_objects s o in
      if counted && negb (n =? entryStoredSize ie) then
        (set_objects s (delete path (objects s)), Err (EMsg "save body length does not match"))
      else match pa_chtimes a with
           | Some e => (s, Err e)
           | None => (s, Ok ie)
           end
  end.

Definition storePutBody (s : Store) (item : FileItem) (ie : indexEntry) (rd : option stream)
    (a : putArgs) : Store * result indexEntry :=
  let recordSize := entryStoredSize ie in
  if (0 <? recordSize) && (recordSize <=? maxRecordBytes (pool s)) then
    match rd with
    | None => (s, Err (EPanic "nil reader"))
    | Some rd =>
      match ReadAll rd with
      | Err e => (s, Err e)
      | Ok body =>
        if negb (blen body =? recordSize) then (s, Err (EMsg "save body length does not match"))
        else match Put (pool s) (pa_pid a) recordSize body (pa_pool a) with
        | (p, Err e) => (handleWriteErr cf (set_pool s p) e, Err e)
        | (p, Ok (Some l)) =>
            (set_pool s p, Ok (mkEntry (ie_Size ie) (ie_Mode ie) (ie_WireSize ie) (ie_Compressed ie)
                                 (ie_ModTimeMicro ie) (Page l) (Slot l)))
        | (p, Ok None) => storePlain (set_pool s p) item ie (Some (fromBytes body)) false a
        end
      end
    end
  else storePlain s item ie rd true a.

Definition releaseSupersededLocked (s : Store) (relPath : bytes) (existing ie : indexEntry) : Store :=
  if negb (ie_PoolPage existing =? 0) then
    set_pool s (Free (pool s) (entryStoredSize existing) (entryLoc existing))
  else if negb (ie_PoolPage ie =? 0) then
    set_objects s (delete (objectPath cf relPath) (objects s))
  else s.

(** The last phase, under [s.mu]. *)
Definition putCommit (s : Store) (path : bytes) (existing : option indexEntry) (ie : indexEntry) : Store :=
  let s := match existing with
           | Some ex =>
               let s := set_index s (index s) (currentDiskBytes s - entryStoredSize ex) in
               releaseSupersededLocked s path ex ie
           | None => s
           end in
  let s := set_index s (<[path := ie]> (index s)) (currentDiskBytes s + entryStoredSize ie) in
  let s := match existing with
           | Some _ => s
           | None => set_heap s (push (evictHeap s) path (entryStoredSize ie) (ie_ModTimeMicro ie))
           end in
  scheduleEvictionLocked cf s.

(** The first phase: the entry to be, given what the index held. *)
Definition newEntry (item : FileItem) (existing : option indexEntry) (now : Z) : indexEntry :=
  mkEntry (fi_Size (fi_meta item)) (fi_Mode (fi_meta item)) 0 0
    (match existing with Some ex => ie_ModTimeMicro ex | None => now end) 0 0.

(** The phases between the lookup and the commit. *)
Definition putBody (s : Store) (item : FileItem) (existing : option indexEntry) (a : putArgs)
    : Store * result indexEntry :=
  match bodyReaderForPut item (cf_compress cf) (newEntry item existing (pa_now a)) with
  | Err e => (add_counters s 0 0 0 1, Err e)
  | Ok (ie, rd) =>
      match storePutBody s item ie rd a with
      | (s, Err e) => (add_counters s 0 0 0 1, Err e)
      | (s, Ok ie) => (s, Ok ie)
      end
  end.

Definition putOne (s : Store) (item : FileItem) (a : putArgs) : Store * result unit :=
  let path := fi_Path (fi_meta item) in
  if bool_decide (path = []) then (s, Err (EMsg "empty path"))
  else if (0 <? cf_maxFileBytes cf) && (cf_maxFileBytes cf <? fi_Size (fi_meta item)) then (s, Ok tt)
  else
    let existing := index s !! path in
    let s := add_counters s 0 1 (match existing with Some _ => 1 | None => 0 end) 0 in
    match putBody s item existing a with
    | (s, Err e) => (s, Err e)
    | (s, Ok ie) => (putCommit s path existing ie, Ok tt)
    end.

Definition SaveItem := putOne.
End put.

(** ** Reading *)

(** [responseItem]: the item and, through its body reader, the stored bytes. *)
Definition responseItem (cf : Config) (s : Store) (relPath : bytes) (ie : indexEntry) : FileItem :=
  let wire := if ie_WireSize ie =? 0 then ie_Size ie else ie_WireSize ie in
  let mt := if ie_ModTimeMicro ie =? 0 then None else Some (ie_ModTimeMicro ie) in
  let pooled := negb (ie_PoolPage ie =? 0) in
  let meta := mkFileMeta relPath (ie_Size ie) mt (ie_Mode ie) (ie_Compressed ie =? 1) wire
                (if pooled then [] else objectPath cf relPath) in
  if pooled then
    SetBodyReader (mkFileItem meta None)
      (let? b := Read (pool s) (entryStoredSize ie) (entryLoc ie) in Ok (fromBytes b))
  else mkFileItem meta None.

(** What [os.Open] of a path under the store gives. *)
Definition openObject (s : Store) (path : bytes) : result stream :=
  match objects s !! path with
  | Some b => Ok (fromBytes b)
  | None => Err ENotExist
  end.

Definition removeBrokenEntry (cf : Config) (s : Store) (relPath : bytes) (ie : indexEntry) : Store :=
  let s := match index s !! relPath with
           | Some current =>
               set_index s (delete relPath (index s)) (currentDiskBytes s - entryStoredSize current)
           | None => s
           end in
  removeObjectLocked cf s relPath ie.

(** [ExistingPaths]: pool-backed entries first, then the plain ones that are on
    disk, each group in the order asked. *)
Definition ExistingPaths (cf : Config) (s : Store) (paths : list bytes) : list bytes :=
  let inPool p := match index s !! p with
                  | Some ie => negb (ie_PoolPage ie =? 0) | None => false end in
  let plain p := match index s !! p with
                 | Some ie => ie_PoolPage ie =? 0 | None => false end in
  filter (fun p => inPool p = true) paths ++
  filter (fun p => bool_decide (is_Some (objects s !! objectPath cf p)) = true)
    (filter (fun p => plain p = true) paths).

(** ** The abstract store *)

(** What the store promises: a finite map from paths to entries with the bytes
    stored for them. *)
Abbreviation Contents := (gmap bytes (indexEntry * bytes)).

Definition pooled (ie : indexEntry) : bool := negb (ie_PoolPage ie =? 0).
Definition poolKey (ie : indexEntry) : Z * Loc := (entryStoredSize ie, entryLoc ie).

(** The pool's records are exactly the bodies of the pool-backed entries, one
    location per entry. *)
Record owned (a : Contents) (m : gmap (Z * Loc) bytes) : Prop := {
  ow_in p ie b : a !! p = Some (ie, b) -> pooled ie = true -> m !! poolKey ie = Some b;
  ow_inj p p' ie ie' b b' : a !! p = Some (ie, b) -> a !! p' = Some (ie', b') ->
    pooled ie = true -> pooled ie' = true -> poolKey ie = poolKey ie' -> p = p';
  ow_out k b : m !! k = Some b ->
    exists p ie, a !! p = Some (ie, b) /\ pooled ie = true /\ poolKey ie = k;
}.

(** The configuration: an absolute directory and a legal bucket. *)
Definition cfg_ok (cf : Config) : Prop := abs_dir (cf_dir cf) /\ bucket_ok (cf_evictionBucket cf).

(** The store holds [a]: index and accounting, sizes, object files, pool. *)
Record holds (cf : Config) (s : Store) (a : Contents) : Prop := {
  hd_index : index s = fst <$> a;
  hd_bytes : currentDiskBytes s = map_sum entryStoredSize (index s);
  hd_size p ie b : a !! p = Some (ie, b) -> blen b = entryStoredSize ie;
  hd_path p : is_Some (a !! p) -> rel_clean p;
  hd_plain p ie b : a !! p = Some (ie, b) -> pooled ie = false ->
    objects s !! objectPath cf p = Some b;
  hd_wf : wf (pool s);
  hd_pool : exists m, models (pool s) m /\ owned a m;
}.

Definition heapItem (p : bytes) (ie : indexEntry) : evictionHeapEntry :=
  mkHeapEntry p (entryStoredSize ie) (ie_ModTimeMicro ie).

(** The heap knows every entry of the index (and perhaps stale ones). *)
Record covers (cf : Config) (s : Store) : Prop := {
  cv_wf : heap_wf (evictHeap s);
  cv_bucket : bucket (evictHeap s) = cf_evictionBucket cf;
  cv_items p ie : index s !! p = Some ie -> heapItem p ie ∈ items (evictHeap s);
}.

(** The invariant of the store between requests. *)
Definition repr (cf : Config) (s : Store) (a : Contents) : Prop := holds cf s a /\ covers cf s.

Definition heap_before (cf : Config) (p : bytes) (ie : indexEntry) (p' : bytes) (ie' : indexEntry) : bool :=
  heapLess (cf_evictionBucket cf) (heapItem p ie) (heapItem p' ie').

(** ** Ownership of pool locations *)

Lemma owned_delete a m p ie b :
  owned a m -> a !! p = Some (ie, b) ->
  owned (delete p a) (if pooled ie then delete (poolKey ie) m else m).
Proof.
  intros [Hi Hj Ho] Hp. split.
  - intros p' ie' b' [Hne Hp']%lookup_delete_Some Hpl.
    destruct (pooled ie) eqn:E; [|by apply (Hi p')].
    rewrite lookup_delete_ne; [by apply (Hi p')|]. intros Hk. apply Hne. by eapply Hj.
  - intros p1 p2 ie1 ie2 b1 b2 [_ ?]%lookup_delete_Some [_ ?]%lookup_delete_Some. by eapply Hj.
  - intros k b' Hk. assert (Hk' : m !! k = Some b' /\ (pooled ie = true -> poolKey ie <> k)).
    { destruct (pooled ie); [|done]. apply lookup_delete_Some in Hk as [? ?]. done. }
    destruct Hk' as [Hk' Hne]. destruct (Ho k b' Hk') as (p' & ie' & Hp' & Hpl & <-).
    exists p', ie'. split; [|done]. rewrite lookup_delete_ne; [done|].
    intros ->. assert (ie' = ie) as -> by congruence. by destruct (Hne Hpl).
Qed.

Lemma owned_insert a m p ie b :
  owned a m -> a !! p = None -> (pooled ie = true -> m !! poolKey ie = None) ->
  owned (<[p := (ie, b)]> a) (if pooled ie then <[poolKey ie := b]> m else m).
Proof.
  intros [Hi Hj Ho] Hp Hm. split.
  - intros p' ie' b' [[<- [= <- <-]]|[Hne Hp']]%lookup_insert_Some Hpl.
    + rewrite Hpl. by rewrite lookup_insert_eq.
    + specialize (Hi _ _ _ Hp' Hpl). destruct (pooled ie); [|done].
      rewrite lookup_insert_ne; [done|]. intros E. rewrite E in Hm. rewrite Hm in Hi by done. done.
  - assert (Hfresh : forall p' ie' b', a !! p' = Some (ie', b') -> pooled ie' = true ->
      pooled ie = true -> poolKey ie <> poolKey ie').
    { intros p' ie' b' Hp' Hpl' Hpl E. specialize (Hi _ _ _ Hp' Hpl').
      rewrite <-E, Hm in Hi; done. }
    intros p1 p2 ie1 ie2 b1 b2 [[<- [= <- <-]]|[_ H1]]%lookup_insert_Some
      [[<- [= <- <-]]|[_ H2]]%lookup_insert_Some Hp1 Hp2 E; [done|..|by eapply Hj].
    + by destruct (Hfresh _ _ _ H2 Hp2 Hp1 E).
    + by destruct (Hfresh _ _ _ H1 Hp1 Hp2 (eq_sym E)).
  - intros k b' Hk. assert (Hcase : (k = poolKey ie /\ b' = b /\ pooled ie = true) \/ m !! k = Some b').
    { destruct (pooled ie); [|by right].
      apply lookup_insert_Some in Hk as [[<- <-]|[_ ?]]; [by left|by right]. }
    destruct Hcase as [(-> & -> & Hpl)|Hk'].
    + exists p, ie. by rewrite lookup_insert_eq.
    + destruct (Ho k b' Hk') as (p' & ie' & Hp' & ? & ?). exists p', ie'.
      rewrite lookup_insert_ne; [done|]. intros ->. congruence.
Qed.

(** ** Removing an entry *)

Lemma lookup_index cf s a p : holds cf s a -> index s !! p = fst <$> a !! p.
Proof. intros Hh. by rewrite (hd_index _ _ _ Hh), lookup_fmap. Qed.

Lemma objectPath_inj cf p q :
  abs_dir (cf_dir cf) -> rel_clean p -> rel_clean q -> objectPath cf p = objectPath cf q -> p = q.
Proof.
  intros Hd. apply JoinPath_inj; [done|]. apply proper_decide. vm_compute. reflexivity.
Qed.

(** What [removeObjectLocked] does to the storage, the index aside. *)
Lemma removeObject_storage cf s a p ie b :
  cfg_ok cf -> holds cf s a -> a !! p = Some (ie, b) ->
  let s' := removeObjectLocked cf s p ie in
  (forall p' ie' b', delete p a !! p' = Some (ie', b') -> pooled ie' = false ->
     objects s' !! objectPath cf p' = Some b') /\
  wf (pool s') /\ exists m, models (pool s') m /\ owned (delete p a) m.
Proof.
  intros [Hd _] Hh Hp. destruct (hd_pool _ _ _ Hh) as (m & Hm & Ho).
  assert (Ho' := owned_delete _ _ _ _ _ Ho Hp). unfold removeObjectLocked.
  fold (pooled ie). destruct (pooled ie) eqn:Hpl; simpl.
  - destruct (Free_spec (pool s) (entryStoredSize ie) (entryLoc ie) m) as [Hw' Hm'].
    + apply (hd_wf _ _ _ Hh).
    + done.
    + change (_, entryLoc ie) with (poolKey ie). rewrite (ow_in _ _ Ho _ _ _ Hp Hpl). eauto.
    + split; [|eauto]. intros p' ie' b' [_ Hp']%lookup_delete_Some. by apply (hd_plain _ _ _ Hh).
  - split; [|split; [apply (hd_wf _ _ _ Hh)|eauto]].
    intros p' ie' b' [Hne Hp']%lookup_delete_Some Hpl'.
    rewrite lookup_delete_ne; [by eapply (hd_plain _ _ _ Hh)|].
    intros E. apply Hne. eapply objectPath_inj; [done|..|exact E]; eapply (hd_path _ _ _ Hh); eauto.
Qed.

Lemma holds_remove cf s a p ie b :
  cfg_ok cf -> holds cf s a -> a !! p = Some (ie, b) ->
  holds cf (removeObjectLocked cf
    (set_index s (delete p (index s)) (currentDiskBytes s - entryStoredSize ie)) p ie) (delete p a).
Proof.
  intros Hc Hh Hp. destruct (removeObject_storage cf s a p ie b Hc Hh Hp) as (Hpl & Hw & Hm).
  assert (Hi : index s !! p = Some ie) by (by rewrite (lookup_index cf s a), Hp).
  assert (Hfr : forall s' i d, index (removeObjectLocked cf (set_index s' i d) p ie) = i /\
    currentDiskBytes (removeObjectLocked cf (set_index s' i d) p ie) = d /\
    objects (removeObjectLocked cf (set_index s' i d) p ie) = objects (removeObjectLocked cf s' p ie) /\
    pool (removeObjectLocked cf (set_index s' i d) p ie) = pool (removeObjectLocked cf s' p ie)).
  { intros. unfold removeObjectLocked. by destruct (negb _). }
  destruct (Hfr s (delete p (index s)) (currentDiskBytes s - entryStoredSize ie))
    as (E1 & E2 & E3 & E4).
  split.
  - by rewrite E1, (hd_index _ _ _ Hh), fmap_delete.
  - rewrite E2, E1, (hd_bytes _ _ _ Hh). by rewrite (map_sum_delete _ _ _ ie).
  - intros p' ie' b' [_ ?]%lookup_delete_Some. by eapply (hd_size _ _ _ Hh).
  - intros p' [x [_ ?]%lookup_delete_Some]. eapply (hd_path _ _ _ Hh); eauto.
  - intros p' ie' b' Hp' Hpl'. rewrite E3. by eapply Hpl.
  - by rewrite E4.
  - rewrite E4. destruct Hm as (m & ? & ?). eauto.
Qed.

(** Taking an entry out with its storage keeps the invariant; the heap may know
    more than the index. *)
Lemma repr_remove cf s a p ie b :
  cfg_ok cf -> repr cf s a -> a !! p = Some (ie, b) ->
  let s' := removeObjectLocked cf
    (set_index s (delete p (index s)) (currentDiskBytes s - entryStoredSize ie)) p ie in
  repr cf s' (delete p a) /\ currentDiskBytes s' = currentDiskBytes s - entryStoredSize ie.
Proof.
  intros Hc [Hh [Hw Hb Hi]] Hp. simpl.
  assert (F : forall s', index (removeObjectLocked cf s' p ie) = index s' /\
    evictHeap (removeObjectLocked cf s' p ie) = evictHeap s' /\
    currentDiskBytes (removeObjectLocked cf s' p ie) = currentDiskBytes s').
  { intros s'. unfold removeObjectLocked. by destruct (negb _). }
  set (s1 := set_index _ _ _). destruct (F s1) as (F1 & F2 & F3).
  split; [split; [by apply (holds_remove cf s a p ie b)|]|done].
  split; rewrite ?F2; [done|done|]. intros q ieq. rewrite F1. simpl.
  intros [_ Hq]%lookup_delete_Some. by apply Hi.
Qed.

Lemma holds_set_heap cf s a h : holds cf s a -> holds cf (set_heap s h) a.
Proof. by intros []. Qed.

(** ** Eviction *)

Lemma heapItem_eq p ie e :
  eh_path e = p -> ie_ModTimeMicro ie = eh_modTimeMicro e -> entryStoredSize ie = eh_size e ->
  e = heapItem p ie.
Proof. intros <- H1 H2. destruct e. unfold heapItem. simpl in *. by rewrite H1, H2. Qed.

(** The outcome of one eviction. *)
Definition evicted_one (cf : Config) (s s' : Store) (a : Contents) (ok : bool) : Prop :=
  if ok then
    exists p ie b, a !! p = Some (ie, b) /\ repr cf s' (delete p a) /\
      currentDiskBytes s' = currentDiskBytes s - entryStoredSize ie /\
      forall p' ie' b', a !! p' = Some (ie', b') -> heap_before cf p' ie' p ie = false
  else a = ∅ /\ repr cf s' a /\ currentDiskBytes s' = currentDiskBytes s.

Lemma evictOneLoop_spec fuel cf s a :
  cfg_ok cf -> repr cf s a -> (length (items (evictHeap s)) < fuel)%nat ->
  evicted_one cf s (fst (evictOneLoop fuel cf s)) a (snd (evictOneLoop fuel cf s)).
Proof.
  intros Hc. revert s. induction fuel as [|fuel IH]; intros s [Hh [Hw Hb Hi]] Hf; [lia|]. simpl.
  destruct (pop (evictHeap s)) as [[e h]|] eqn:Epop.
  2: { apply pop_None in Epop; [|done]. simpl. split; [|by split].
    apply map_empty. intros p. destruct (a !! p) as [[ie b]|] eqn:E; [|done].
    assert (Hp := Hi p ie). rewrite (lookup_index cf s a), E, Epop in Hp by done.
    specialize (Hp eq_refl). by apply not_elem_of_nil in Hp. }
  apply pop_Some in Epop as (Hperm & Hw' & Hb' & Hmin); [|done].
  assert (Hrest : forall p ie, index s !! p = Some ie -> heapItem p ie <> e ->
    heapItem p ie ∈ items h).
  { intros p ie Hp Hne. specialize (Hi p ie Hp). rewrite Hperm, elem_of_cons in Hi.
    by destruct Hi. }
  assert (Hlen : (length (items h) < fuel)%nat).
  { apply Permutation_length in Hperm. simpl in Hperm. lia. }
  assert (Hstale : (forall ie, index s !! eh_path e = Some ie -> heapItem (eh_path e) ie <> e) ->
    evicted_one cf s (fst (evictOneLoop fuel cf (set_heap s h))) a
      (snd (evictOneLoop fuel cf (set_heap s h)))).
  { intros Hs. apply (IH (set_heap s h)); [|done]. split; [by apply holds_set_heap|].
    split; simpl; [done|congruence|]. intros p ie Hp. apply Hrest; [done|]. intros <-.
    by apply (Hs ie). }
  destruct (index s !! eh_path e) as [ie|] eqn:Eidx; [|by apply Hstale].
  destruct (_ || _) eqn:Em.
  { apply Hstale. intros ie' [= <-] E. rewrite <-E in Em. simpl in Em.
    by rewrite !Z.eqb_refl in Em. }
  clear Hstale. go_bool. rewrite (lookup_index cf s a) in Eidx by done.
  destruct (a !! eh_path e) as [[ie' b]|] eqn:Ea; [|done]. injection Eidx as ->.
  assert (Ee := heapItem_eq (eh_path e) ie e eq_refl H H0).
  exists (eh_path e), ie, b. split; [done|].
  change (set_index (set_heap s h) ?i ?d) with (set_heap (set_index s i d) h).
  set (s1 := set_index s _ _).
  assert (E2 : removeObjectLocked cf (set_heap s1 h) (eh_path e) ie =
    set_heap (removeObjectLocked cf s1 (eh_path e) ie) h).
  { unfold removeObjectLocked. by destruct (negb _). }
  assert (Hr := holds_remove cf s a (eh_path e) ie b Hc Hh Ea). fold s1 in Hr.
  assert (Hfr : index (removeObjectLocked cf s1 (eh_path e) ie) = delete (eh_path e) (index s) /\
    currentDiskBytes (removeObjectLocked cf s1 (eh_path e) ie) =
      currentDiskBytes s - entryStoredSize ie).
  { unfold removeObjectLocked. by destruct (negb _). }
  simpl fst. rewrite E2. split; [|split].
  - split; [by apply holds_set_heap|]. split; simpl; [done|congruence|].
    intros p ie2. rewrite (proj1 Hfr). intros [Hne Hp]%lookup_delete_Some.
    apply Hrest; [done|]. intros E. rewrite Ee in E. injection E as E. by apply Hne.
  - simpl. apply Hfr.
  - intros p' ie2 b' Hp'. unfold heap_before. rewrite <-Ee, <-Hb. apply Hmin, Hi.
    by rewrite (lookup_index cf s a), Hp'.
Qed.

Lemma evictOneLocked_spec cf s a :
  cfg_ok cf -> repr cf s a ->
  evicted_one cf s (fst (evictOneLocked cf s)) a (snd (evictOneLocked cf s)).
Proof. intros Hc Hr. apply evictOneLoop_spec; [done..|lia]. Qed.

(** [a'] is what is left of [a] after evictions: no survivor is more evictable
    than anything that is gone. *)
Definition evicted_to (cf : Config) (a a' : Contents) : Prop :=
  a' ⊆ a /\
  forall p ie b p' ie' b', a !! p = Some (ie, b) -> a' !! p = None ->
    a' !! p' = Some (ie', b') -> heap_before cf p' ie' p ie = false.

Lemma evicted_to_refl cf a : evicted_to cf a a.
Proof. split; [done|]. intros. congruence. Qed.

Lemma evicted_to_step cf a a' p ie b :
  a !! p = Some (ie, b) ->
  (forall p' ie' b', a !! p' = Some (ie', b') -> heap_before cf p' ie' p ie = false) ->
  evicted_to cf (delete p a) a' -> evicted_to cf a a'.
Proof.
  intros Hp Hmin [Hs He]. assert (Hs' : a' ⊆ a).
  { etransitivity; [exact Hs|]. apply delete_subseteq. }
  split; [done|]. intros q ieq bq q' ieq' bq' Hq Hn Hq'.
  destruct (decide (q = p)) as [->|Hne].
  - assert (ieq = ie) as -> by congruence. eapply Hmin. by eapply lookup_weaken.
  - eapply He; [|done..]. by rewrite lookup_delete_ne.
Qed.

Lemma repr_size cf s a : repr cf s a -> size (index s) = size a.
Proof. intros [Hh _]. by rewrite (hd_index _ _ _ Hh), map_size_fmap. Qed.

Lemma repr_cur cf s a :
  repr cf s a -> currentDiskBytes s = map_sum entryStoredSize (fst <$> a).
Proof. intros [Hh _]. by rewrite (hd_bytes _ _ _ Hh), (hd_index _ _ _ Hh). Qed.

(** The loop stops at the target, and not before it has to. *)
Lemma evictLoop_spec fuel cf target s a :
  cfg_ok cf -> 0 <= target -> repr cf s a -> (size a < fuel)%nat ->
  exists a', repr cf (evictLoop fuel cf target s) a' /\ evicted_to cf a a' /\
    currentDiskBytes (evictLoop fuel cf target s) <= target /\
    (a' = a \/ exists p ie b, a !! p = Some (ie, b) /\ a' !! p = None /\
       target < currentDiskBytes (evictLoop fuel cf target s) + entryStoredSize ie).
Proof.
  intros Hc Ht. revert s a. induction fuel as [|fuel IH]; intros s a Hr Hf; [lia|]. simpl.
  destruct (_ <=? target) eqn:El; go_bool.
  { exists a. split; [done|]. split; [apply evicted_to_refl|]. split; [done|by left]. }
  assert (He := evictOneLocked_spec cf s a Hc Hr).
  destruct (evictOneLocked cf s) as [s' []]; simpl in He.
  - destruct He as (p & ie & b & Hp & Hr' & Hcur & Hmin).
    assert (Hsz := size_delete_lt a p _ Hp).
    destruct (IH s' (delete p a) Hr') as (a' & H1 & H2 & H3 & H4); [lia|].
    exists a'. split; [done|]. split; [by eapply evicted_to_step|]. split; [done|]. right.
    destruct H4 as [->|(q & ieq & bq & Hq & Hn & Hlt)].
    + exists p, ie, b. split; [done|]. split; [by rewrite lookup_delete_eq|].
      rewrite (repr_cur _ _ _ H1), <-(repr_cur _ _ _ Hr'). lia.
    + apply lookup_delete_Some in Hq as [_ Hq]. eauto 10.
  - destruct He as (-> & Hr' & Hcur). exists ∅. split; [done|]. split; [apply evicted_to_refl|].
    split; [|by left]. destruct Hr' as [Hh _]. rewrite (hd_bytes _ _ _ Hh), (hd_index _ _ _ Hh).
    by rewrite fmap_empty, map_sum_empty.
Qed.

(** One eviction.  [EvictOne] reports false exactly when the store is empty;
    otherwise it removes one entry with its bytes -- a pool slot or an object
    file -- takes its size off the accounting, and no entry of the store ranks
    before the one it took.  Stale heap entries only cost extra rounds. *)
Theorem EvictOne_spec cf s a (Hc : cfg_ok cf) (Hr : repr cf s a) :
  match EvictOne cf s with
  | (s', true) =>
      exists p ie b, a !! p = Some (ie, b) /\ repr cf s' (delete p a) /\
        currentDiskBytes s' = currentDiskBytes s - entryStoredSize ie /\
        forall p' ie' b', a !! p' = Some (ie', b') -> heap_before cf p' ie' p ie = false
  | (s', false) => a = ∅ /\ repr cf s' a
  end.
Proof.
  assert (H := evictOneLocked_spec cf s a Hc Hr). unfold EvictOne.
  destruct (evictOneLocked cf s) as [s' []]; simpl in H; [done|]. by destruct H as (? & ? & _).
Qed.

Lemma target_bounds cf :
  0 < cf_maxDiskBytes cf ->
  0 <= cf_maxDiskBytes cf - Z.quot (cf_maxDiskBytes cf) evictionMarginFraction <= cf_maxDiskBytes cf.
Proof.
  intros H. unfold evictionMarginFraction. rewrite Z.quot_div_nonneg by lia.
  assert (0 <= cf_maxDiskBytes cf / 10) by (apply Z.div_pos; lia).
  assert (cf_maxDiskBytes cf / 10 <= cf_maxDiskBytes cf) by (apply Z.div_le_upper_bound; lia). lia.
Qed.

Lemma evictIfNeeded_spec cf s a :
  cfg_ok cf -> repr cf s a ->
  let s' := evictIfNeededLocked cf s in
  exists a', repr cf s' a' /\ evicted_to cf a a' /\
    (0 < cf_maxDiskBytes cf -> currentDiskBytes s' <= cf_maxDiskBytes cf) /\
    (a' = a \/ exists p ie b, a !! p = Some (ie, b) /\ a' !! p = None /\
       cf_maxDiskBytes cf - Z.quot (cf_maxDiskBytes cf) evictionMarginFraction <
         currentDiskBytes s' + entryStoredSize ie /\ cf_maxDiskBytes cf < currentDiskBytes s).
Proof.
  intros Hc Hr. unfold evictIfNeededLocked. destruct (_ || _) eqn:E.
  - exists a. split; [done|]. split; [apply evicted_to_refl|]. split; [|by left].
    intros Hm. apply orb_true_iff in E as [E|E]; go_bool; lia.
  - go_bool. assert (Hb := target_bounds cf ltac:(lia)).
    destruct (evictLoop_spec (S (size (index s))) cf _ s a Hc (proj1 Hb) Hr)
      as (a' & H1 & H2 & H3 & H4); [rewrite (repr_size _ _ _ Hr); lia|].
    exists a'. split; [done|]. split; [done|]. split; [lia|].
    destruct H4 as [->|(p & ie & b & ? & ? & ?)]; [by left|right]. by exists p, ie, b.
Qed.

(** The eviction pass.  When the accounted bytes are over the budget it
    evicts, in eviction order (no survivor ranks before anything evicted), until
    they are within the budget less the margin, and not one entry more than it
    takes; otherwise it does nothing.  It always ends, and the store it leaves
    satisfies the invariant with exactly the survivors. *)
Theorem EvictNow_within_budget cf s a (Hc : cfg_ok cf) (Hr : repr cf s a) :
  let s' := EvictNow cf s in
  exists a', repr cf s' a' /\ evicted_to cf a a' /\
    (0 < cf_maxDiskBytes cf -> DiskBytes s' <= cf_maxDiskBytes cf) /\
    (a' = a \/ exists p ie b, a !! p = Some (ie, b) /\ a' !! p = None /\
       cf_maxDiskBytes cf - Z.quot (cf_maxDiskBytes cf) evictionMarginFraction <
         DiskBytes s' + entryStoredSize ie /\ cf_maxDiskBytes cf < DiskBytes s).
Proof. by apply evictIfNeeded_spec. Qed.

Lemma evictN_spec n cf s a :
  cfg_ok cf -> repr cf s a -> exists a', repr cf (evictN n cf s) a' /\ evicted_to cf a a' /\
    size a' = (size a - n)%nat.
Proof.
  intros Hc. revert s a. induction n as [|n IH]; intros s a Hr; simpl.
  { exists a. split; [done|]. split; [apply evicted_to_refl|lia]. }
  assert (He := evictOneLocked_spec cf s a Hc Hr).
  destruct (evictOneLocked cf s) as [s' []]; simpl in He.
  - destruct He as (p & ie & b & Hp & Hr' & _ & Hmin). assert (Hsz := size_delete_lt a p _ Hp).
    destruct (IH s' _ Hr') as (a' & H1 & H2 & H3). exists a'. split; [done|].
    split; [by eapply evicted_to_step|lia].
  - destruct He as (-> & Hr' & _). exists ∅. split; [done|]. split; [apply evicted_to_refl|].
    rewrite map_size_empty. lia.
Qed.

(** A full disk: [max 1 (n / 10)] of the [n] entries go. *)
Lemma handleWriteErr_spec cf s a e :
  cfg_ok cf -> repr cf s a ->
  exists a', repr cf (handleWriteErr cf s e) a' /\ evicted_to cf a a' /\ (e <> ENoSpace -> a' = a).
Proof.
  intros Hc Hr. unfold handleWriteErr. case_bool_decide as E.
  - destruct (evictN_spec (Z.to_nat (if Z.quot (Z.of_nat (size (index s))) diskFullEvictFraction =? 0
      then 1 else Z.quot (Z.of_nat (size (index s))) diskFullEvictFraction)) cf s a Hc Hr)
      as (a' & H1 & H2 & _). exists a'. done.
  - exists a. split; [done|]. split; [apply evicted_to_refl|done].
Qed.

(** ** Saving: the body *)

Definition with_loc (ie : indexEntry) (l : Loc) : indexEntry :=
  mkEntry (ie_Size ie) (ie_Mode ie) (ie_WireSize ie) (ie_Compressed ie)
    (ie_ModTimeMicro ie) (Page l) (Slot l).

Lemma with_loc_stored ie l : entryStoredSize (with_loc ie l) = entryStoredSize ie.
Proof. done. Qed.

(** A reader that delivers as much as the entry says. *)
Definition whole (rd : option stream) (ie : indexEntry) : Prop :=
  forall b, delivers rd b -> blen b = entryStoredSize ie.

(** The body is stored, the index not yet changed: in a fresh pool slot, or in
    the object file. *)
Definition staged (cf : Config) (s s1 : Store) (path : bytes) (ie ie' : indexEntry) (b : bytes) : Prop :=
  exists p1 o1, s1 = set_objects (set_pool s p1) o1 /\ wf p1 /\
  ((exists l, ie' = with_loc ie l /\ IsZero l = false /\ o1 = objects s /\
      forall m, models (pool s) m ->
        m !! (entryStoredSize ie, l) = None /\ models p1 (<[(entryStoredSize ie, l) := b]> m)) \/
   (ie' = ie /\ o1 = <[objectPath cf path := b]> (objects s) /\
      forall m, models (pool s) m -> models p1 m)).

(** Replacing the file of a path that is not a plain entry, or by the same
    bytes, keeps what the store holds. *)
Lemma holds_set_objects cf s a o :
  holds cf s a ->
  (forall p ie b, a !! p = Some (ie, b) -> pooled ie = false ->
     objects s !! objectPath cf p = Some b -> o !! objectPath cf p = Some b) ->
  holds cf (set_objects s o) a.
Proof.
  intros Hh Ho. destruct Hh. split; try done. intros p ie b Hp Hpl. simpl. eauto.
Qed.

Lemma holds_set_pool cf s a p :
  holds cf s a -> wf p -> (forall m, models (pool s) m -> models p m) ->
  holds cf (set_pool s p) a.
Proof.
  intros Hh Hw Hm. destruct Hh as [? ? ? ? ? ? (m & H1 & H2)]. split; try done. simpl. eauto.
Qed.

Lemma writeAtomic_spec files path rd flt o r :
  writeAtomic files path rd flt = (o, r) ->
  match r with
  | Err _ => o = files
  | Ok n => exists b, delivers rd b /\ o = <[path := b]> files /\ n = blen b
  end.
Proof.
  unfold writeAtomic, delivers, ReadAll.
  destruct flt as [[[] e]|], rd as [[d [e'|]]|]; intros [= <- <-]; simpl; eauto.
Qed.

(** What a failed save must not touch: the file of a plain entry. *)
Definition resave_safe (cf : Config) (a : Contents) (path : bytes) (rd : option stream)
    (ie : indexEntry) (args : putArgs) : Prop :=
  forall ex b, a !! path = Some (ex, b) -> pooled ex = false ->
  pa_chtimes args = None /\ whole rd ie.

Definition save_failed (cf : Config) (s1 : Store) (a : Contents) (e : goerr) : Prop :=
  exists a', repr cf s1 a' /\ evicted_to cf a a' /\ (e <> ENoSpace -> a' = a).

Lemma save_failed_refl cf s a e : repr cf s a -> save_failed cf s a e.
Proof. intros. exists a. split; [done|]. split; [apply evicted_to_refl|done]. Qed.

Lemma repr_set_objects cf s a o :
  repr cf s a ->
  (forall p ie b, a !! p = Some (ie, b) -> pooled ie = false ->
     objects s !! objectPath cf p = Some b -> o !! objectPath cf p = Some b) ->
  repr cf (set_objects s o) a.
Proof. intros [Hh Hc] Ho. split; [by apply holds_set_objects|by destruct Hc]. Qed.

Lemma repr_set_pool cf s a p :
  repr cf s a -> wf p -> (forall m, models (pool s) m -> models p m) -> repr cf (set_pool s p) a.
Proof. intros [Hh Hc] Hw Hm. split; [by apply holds_set_pool|by destruct Hc]. Qed.

(** Changing the file of one path leaves the files of the other plain entries
    alone. *)
Lemma other_object (cf : Config) (a : Contents) (path p : bytes) (ie : indexEntry) (b : bytes) (o o' : gmap bytes bytes) :
  cfg_ok cf -> rel_clean path -> (forall p, is_Some (a !! p) -> rel_clean p) ->
  (forall ex b, a !! path = Some (ex, b) -> pooled ex = true) ->
  (forall k, k <> objectPath cf path -> o' !! k = o !! k) ->
  a !! p = Some (ie, b) -> pooled ie = false ->
  o !! objectPath cf p = Some b -> o' !! objectPath cf p = Some b.
Proof.
  intros [Hd _] Hpath Hcl Hpl Ho Hp Hplain Hob. rewrite Ho; [done|]. intros E.
  apply objectPath_inj in E as ->; [|done|eauto|done].
  rewrite (Hpl _ _ Hp) in Hplain. done.
Qed.

Lemma storePlain_spec cf s a item ie rd counted args s1 r :
  cfg_ok cf -> repr cf s a -> rel_clean (fi_Path (fi_meta item)) ->
  resave_safe cf a (fi_Path (fi_meta item)) rd ie args ->
  (counted = false -> whole rd ie) ->
  storePlain cf s item ie rd counted args = (s1, r) ->
  match r with
  | Err e => save_failed cf s1 a e
  | Ok ie' => exists b, delivers rd b /\ blen b = entryStoredSize ie /\
      staged cf s s1 (fi_Path (fi_meta item)) ie ie' b
  end.
Proof.
  intros Hc Hr Hpath Hsafe Hcnt. unfold storePlain. set (path := fi_Path (fi_meta item)) in *.
  destruct (writeAtomic _ _ _ _) as [o [n|e]] eqn:Ew; apply writeAtomic_spec in Ew.
  2: { intros [= <- <-]. subst o. destruct (handleWriteErr_spec cf (set_objects s (objects s)) a e)
      as (a' & H1 & H2 & H3); [done|by apply repr_set_objects|]. by exists a'. }
  destruct Ew as (b & Hb & -> & ->).
  assert (Hother : forall o', (forall k, k <> objectPath cf path ->
      o' !! k = <[objectPath cf path := b]> (objects s) !! k) ->
    ~ (pa_chtimes args = None /\ whole rd ie) -> repr cf (set_objects s o') a).
  { intros o' Ho' Hn. apply repr_set_objects; [done|]. intros p ie' b' Hp Hpl Hob.
    apply (other_object cf a path p ie' b' (objects s)); try done;
      [apply (hd_path _ _ _ (proj1 Hr))| |].
    - intros ex bex Hex. destruct (pooled ex) eqn:E; [done|]. by destruct (Hn (Hsafe _ _ Hex E)).
    - intros k Hk. rewrite Ho' by done. by rewrite lookup_insert_ne. }
  destruct (counted && negb (blen b =? entryStoredSize ie)) eqn:Ecut.
  { intros [= <- <-]. go_bool. apply save_failed_refl. apply (Hother (delete _ _)).
    - intros k Hk. by rewrite lookup_delete_ne.
    - intros [_ Hwh]. by specialize (Hwh b Hb). }
  destruct (pa_chtimes args) as [e|] eqn:Ech; intros [= <- <-].
  { apply save_failed_refl. apply Hother; [done|]. by intros [? _]. }
  exists b. split; [done|]. split.
  - destruct counted; [go_bool; simpl in Ecut; by apply negb_false_iff, Z.eqb_eq in Ecut|].
    by apply Hcnt.
  - exists (pool s), (<[objectPath cf path := b]> (objects s)). split; [by destruct s|].
    split; [apply (hd_wf _ _ _ (proj1 Hr))|]. right. done.
Qed.

Lemma storePutBody_spec cf s a item ie rd args s1 r :
  cfg_ok cf -> repr cf s a -> rel_clean (fi_Path (fi_meta item)) ->
  (forall n, pages_left (pool s) n) ->
  resave_safe cf a (fi_Path (fi_meta item)) rd ie args ->
  storePutBody cf s item ie rd args = (s1, r) ->
  match r with
  | Err e => save_failed cf s1 a e
  | Ok ie' => exists b, delivers rd b /\ blen b = entryStoredSize ie /\
      staged cf s s1 (fi_Path (fi_meta item)) ie ie' b
  end.
Proof.
  intros Hc Hr Hpath Hleft Hsafe. unfold storePutBody.
  destruct (_ && _) eqn:Eel; [|by apply storePlain_spec].
  destruct rd as [rd|]; [|intros [= <- <-]; by apply save_failed_refl].
  destruct (ReadAll rd) as [b|e] eqn:Erd; [|intros [= <- <-]; by apply save_failed_refl].
  destruct (negb _) eqn:El; [intros [= <- <-]; by apply save_failed_refl|]. go_bool.
  destruct (Put (pool s) _ _ _ _) as [p1 r1] eqn:Eput.
  assert (Hspec : forall m, models (pool s) m -> wf p1 /\
    match r1 with
    | Ok (Some l) => IsZero l = false /\ m !! (entryStoredSize ie, l) = None /\
        models p1 (<[(entryStoredSize ie, l) := b]> m)
    | _ => models p1 m
    end).
  { intros m Hm. eapply Put_spec; [apply (hd_wf _ _ _ (proj1 Hr))|exact Hm|apply Hleft|exact Eput]. }
  destruct (hd_pool _ _ _ (proj1 Hr)) as (m0 & Hm0 & _).
  assert (Hwp : wf p1) by apply (Hspec m0 Hm0).
  destruct r1 as [[l|]|e].
  - intros [= <- <-]. exists b. split; [done|]. split; [done|].
    exists p1, (objects s). split; [by destruct s|]. split; [done|]. left. exists l.
    split; [done|]. split; [apply (Hspec m0 Hm0)|]. split; [done|]. intros m Hm. apply (Hspec m Hm).
  - intros Hst. assert (Hr1 : repr cf (set_pool s p1) a).
    { apply repr_set_pool; [done..|]. intros m Hm. apply (Hspec m Hm). }
    eapply storePlain_spec in Hst; [|done..| |].
    + destruct r as [ie'|e]; [|done]. destruct Hst as (b' & Hb' & Hl & p2 & o2 & -> & Hw2 & H2).
      exists b'. unfold delivers in Hb'. simpl in Hb'. injection Hb' as <-.
      split; [done|]. split; [done|]. exists p2, o2. split; [done|]. split; [done|].
      destruct H2 as [(l & -> & Hz & -> & Hm2)|(-> & -> & Hm2)]; [left; exists l|right].
      * split; [done|]. split; [done|]. split; [done|]. intros m Hm. apply Hm2, (Hspec m Hm).
      * split; [done|]. split; [done|]. intros m Hm. apply Hm2, (Hspec m Hm).
    + intros ex bex Hex Hpl. destruct (Hsafe ex bex Hex Hpl) as [? _]. split; [done|].
      intros b' Hb'. unfold delivers in Hb'. simpl in Hb'. by injection Hb' as <-.
    + intros _ b' Hb'. unfold delivers in Hb'. simpl in Hb'. by injection Hb' as <-.
  - intros [= <- <-].
    destruct (handleWriteErr_spec cf (set_pool s p1) a e) as (a' & H1 & H2 & H3); [done| |].
    + apply repr_set_pool; [done..|]. intros m Hm. apply (Hspec m Hm).
    + by exists a'.
Qed.

(** ** Saving: the commit *)

(** The pool's map without the record of the superseded entry. *)
Definition without (a : Contents) (path : bytes) (m : gmap (Z * Loc) bytes) : gmap (Z * Loc) bytes :=
  match a !! path with
  | Some (ex, _) => if pooled ex then delete (poolKey ex) m else m
  | None => m
  end.

Definition with_record (ie : indexEntry) (b : bytes) (m : gmap (Z * Loc) bytes) : gmap (Z * Loc) bytes :=
  if pooled ie then <[poolKey ie := b]> m else m.

Lemma owned_resave a m path ie b :
  owned a m -> (pooled ie = true -> m !! poolKey ie = None) ->
  owned (<[path := (ie, b)]> a) (with_record ie b (without a path m)).
Proof.
  intros Ho Hf. assert (Ho0 : owned (delete path a) (without a path m)).
  { unfold without. destruct (a !! path) as [[ex bex]|] eqn:E; [by eapply owned_delete|].
    by rewrite delete_id. }
  rewrite <-insert_delete_eq. apply owned_insert; [done|apply lookup_delete_eq|].
  intros Hpl. unfold without. specialize (Hf Hpl).
  destruct (a !! path) as [[ex bex]|]; [|done]. destruct (pooled ex); [|done].
  by apply lookup_delete_None; right.
Qed.

(** What staging a body means for the pool. *)
Lemma staged_pool cf s s1 path ie ie' b m :
  staged cf s s1 path ie ie' b -> pooled ie = false -> models (pool s) m ->
  wf (pool s1) /\ models (pool s1) (with_record ie' b m) /\
  (pooled ie' = true -> m !! poolKey ie' = None).
Proof.
  intros (p1 & o1 & -> & Hw1 & Hst) Hie Hm. simpl. split; [done|]. unfold with_record.
  destruct Hst as [(l & -> & Hz & _ & Hst)|(-> & _ & Hst)].
  - assert (Hpl : pooled (with_loc ie l) = true) by (unfold pooled, IsZero in *; simpl; by rewrite Hz).
    assert (Hk : poolKey (with_loc ie l) = (entryStoredSize ie, l)) by (by destruct l).
    rewrite Hpl, Hk. destruct (Hst m Hm). by split.
  - rewrite Hie. split; [by apply Hst|done].
Qed.

Definition release (cf : Config) (s1 : Store) (path : bytes) (existing : option indexEntry)
    (ie' : indexEntry) : Store :=
  match existing with
  | Some ex => releaseSupersededLocked cf s1 path ex ie'
  | None => s1
  end.

Lemma release_pool cf s a s1 path ie ie' b :
  holds cf s a -> pooled ie = false -> staged cf s s1 path ie ie' b ->
  let s2 := release cf s1 path (fst <$> a !! path) ie' in
  wf (pool s2) /\ exists m, models (pool s2) m /\ owned (<[path := (ie', b)]> a) m.
Proof.
  intros Hh Hie Hst. destruct (hd_pool _ _ _ Hh) as (m & Hm & Ho).
  destruct (staged_pool _ _ _ _ _ _ _ m Hst Hie Hm) as (Hw1 & Hm1 & Hf).
  assert (Hres := owned_resave a m path ie' b Ho Hf).
  assert (Hplain : without a path m = m ->
    wf (pool s1) /\ exists m', models (pool s1) m' /\ owned (<[path := (ie', b)]> a) m').
  { intros E. rewrite E in Hres. eauto. }
  unfold release, without in *. destruct (a !! path) as [[ex bex]|] eqn:Ea; simpl; [|by apply Hplain].
  unfold releaseSupersededLocked. fold (pooled ex) (pooled ie').
  destruct (pooled ex) eqn:Epl; [|by destruct (pooled ie'); apply Hplain].
  assert (Hex : m !! poolKey ex = Some bex) by (by apply (ow_in _ _ Ho path)).
  assert (Hne : pooled ie' = true -> poolKey ex <> poolKey ie').
  { intros Hpl E. rewrite E, Hf in Hex by done. done. }
  destruct (Free_spec (pool s1) (entryStoredSize ex) (entryLoc ex) (with_record ie' b m))
    as [Hw2 Hm2]; [done|done| |].
  - change (_, entryLoc ex) with (poolKey ex). unfold with_record. destruct (pooled ie'); [|eauto].
    rewrite lookup_insert_ne by (apply not_eq_sym; auto). eauto.
  - split; [done|]. eexists. split; [exact Hm2|].
    change (_, entryLoc ex) with (poolKey ex). unfold with_record in *.
    destruct (pooled ie'); [|done]. by rewrite delete_insert_ne by auto.
Qed.

Lemma release_objects cf s a s1 path ie ie' b p iep bp :
  cfg_ok cf -> holds cf s a -> rel_clean path -> pooled ie = false ->
  staged cf s s1 path ie ie' b ->
  <[path := (ie', b)]> a !! p = Some (iep, bp) -> pooled iep = false ->
  objects (release cf s1 path (fst <$> a !! path) ie') !! objectPath cf p = Some bp.
Proof.
  intros [Hd _] Hh Hpath Hie (p1 & o1 & -> & _ & Hst) Hp Hpl.
  assert (Hobj : forall q ieq bq, a !! q = Some (ieq, bq) -> pooled ieq = false -> q <> path ->
    objects s !! objectPath cf q = Some bq /\ objectPath cf q <> objectPath cf path).
  { intros q ieq bq Hq Hplq Hne. split; [by eapply (hd_plain _ _ _ Hh)|]. intros E. apply Hne.
    eapply objectPath_inj; [done| |done|exact E]. eapply (hd_path _ _ _ Hh). eauto. }
  assert (Hrel : objects (release cf (set_objects (set_pool s p1) o1) path (fst <$> a !! path) ie') =
    if pooled ie' then
      match a !! path with
      | Some (ex, _) => if pooled ex then o1 else delete (objectPath cf path) o1
      | None => o1
      end
    else o1).
  { unfold release, releaseSupersededLocked. destruct (a !! path) as [[ex bex]|]; simpl.
    - fold (pooled ex) (pooled ie'). by destruct (pooled ex), (pooled ie').
    - by destruct (pooled ie'). }
  rewrite Hrel. destruct Hst as [(l & -> & Hz & -> & _)|(-> & -> & _)].
  - assert (Hpl' : pooled (with_loc ie l) = true) by (unfold pooled, IsZero in *; simpl; by rewrite Hz).
    rewrite Hpl'. apply lookup_insert_Some in Hp as [[<- [= <- <-]]|[Hne Hp]]; [congruence|].
    destruct (Hobj p iep bp Hp Hpl) as [Ho1 Ho2]; [done|].
    destruct (a !! path) as [[ex bex]|]; [destruct (pooled ex)|]; try done.
    by rewrite lookup_delete_ne.
  - rewrite Hie. apply lookup_insert_Some in Hp as [[<- [= <- <-]]|[Hne Hp]].
    + apply lookup_insert_eq.
    + destruct (Hobj p iep bp Hp Hpl) as [Ho1 Ho2]; [done|]. by rewrite lookup_insert_ne.
Qed.

(** The fields of a committed store. *)
Lemma putCommit_fields cf s1 path existing ie' :
  let s2 := putCommit cf s1 path existing ie' in
  index s2 = <[path := ie']> (index s1) /\
  currentDiskBytes s2 = currentDiskBytes s1 + entryStoredSize ie' -
    match existing with Some ex => entryStoredSize ex | None => 0 end /\
  pool s2 = pool (release cf s1 path existing ie') /\
  objects s2 = objects (release cf s1 path existing ie') /\
  evictHeap s2 = match existing with
                 | Some _ => evictHeap s1
                 | None => push (evictHeap s1) path (entryStoredSize ie') (ie_ModTimeMicro ie')
                 end.
Proof.
  unfold putCommit, release, releaseSupersededLocked, scheduleEvictionLocked.
  destruct existing as [ex|]; simpl; [fold (pooled ex) (pooled ie'); destruct (pooled ex), (pooled ie')|];
    simpl; repeat case_match; simpl; split_and!; try done; lia.
Qed.

Lemma putCommit_spec cf s a s1 path ie ie' b :
  cfg_ok cf -> repr cf s a -> rel_clean path -> pooled ie = false ->
  staged cf s s1 path ie ie' b -> blen b = entryStoredSize ie' ->
  (forall ex bex, a !! path = Some (ex, bex) ->
     entryStoredSize ie' = entryStoredSize ex /\ ie_ModTimeMicro ie' = ie_ModTimeMicro ex) ->
  repr cf (putCommit cf s1 path (index s !! path) ie') (<[path := (ie', b)]> a).
Proof.
  intros Hc [Hh Hcv] Hpath Hie Hst Hlen Hsame.
  assert (Hidx := lookup_index cf s a path Hh). rewrite Hidx.
  destruct (putCommit_fields cf s1 path (fst <$> a !! path) ie') as (F1 & F2 & F3 & F4 & F5).
  assert (Hs1 : index s1 = index s /\ currentDiskBytes s1 = currentDiskBytes s /\
    evictHeap s1 = evictHeap s).
  { by destruct Hst as (p1 & o1 & -> & _). }
  destruct Hs1 as (I1 & I2 & I3).
  destruct (release_pool cf s a s1 path ie ie' b Hh Hie Hst) as [Hw2 Hm2].
  split; [split|split].
  - by rewrite F1, I1, (hd_index _ _ _ Hh), fmap_insert.
  - rewrite F2, F1, I1, I2, (hd_bytes _ _ _ Hh).
    destruct (a !! path) as [[ex bex]|] eqn:Ea; simpl in Hidx |- *.
    + rewrite (map_sum_insert_Some _ _ _ ex) by done. lia.
    + rewrite map_sum_insert_None by done. lia.
  - intros p iep bp [[<- [= <- <-]]|[? ?]]%lookup_insert_Some; [done|by eapply (hd_size _ _ _ Hh)].
  - intros p [x [[<- _]|[_ ?]]%lookup_insert_Some]; [done|]. eapply (hd_path _ _ _ Hh). eauto.
  - intros p iep bp Hp Hpl. rewrite F4. exact (release_objects cf s a s1 path ie ie' b p iep bp Hc Hh Hpath Hie Hst Hp Hpl).
  - by rewrite F3.
  - by rewrite F3.
  - rewrite F5, I3. destruct (fst <$> _); [|apply heap_wf_push]; apply (cv_wf _ _ Hcv).
  - rewrite F5, I3, <-(cv_bucket _ _ Hcv). by destruct (fst <$> _).
  - intros p iep. rewrite F1, I1, F5, I3.
    intros [[<- <-]|[Hne Hp]]%lookup_insert_Some.
    + destruct (a !! path) as [[ex bex]|] eqn:Ea.
      * destruct (Hsame ex bex eq_refl) as [E1 E2]. simpl. unfold heapItem. rewrite E1, E2.
        apply (cv_items _ _ Hcv). by rewrite Hidx.
      * change (fst <$> None) with (@None indexEntry). cbn iota. rewrite push_items. by left.
    + apply (cv_items _ _ Hcv) in Hp. destruct (fst <$> _); [done|]. rewrite push_items. by right.
Qed.

(** ** putOne *)

Lemma bodyReaderForPut_entry `{Zstd} item c ie ie0 rd :
  bodyReaderForPut item c ie = Ok (ie0, rd) ->
  ie_PoolPage ie0 = ie_PoolPage ie /\ ie_ModTimeMicro ie0 = ie_ModTimeMicro ie /\
  ie_Size ie0 = ie_Size ie /\ ie_Mode ie0 = ie_Mode ie.
Proof.
  unfold bodyReaderForPut, compressNowBodyReader. repeat case_match; intros; simplify_eq; done.
Qed.

(** The entry and reader of a save, before it is decided where the body goes. *)
Definition saving `{Zstd} (cf : Config) (s : Store) (item : FileItem) (args : putArgs)
    (ie : indexEntry) (rd : option stream) : Prop :=
  bodyReaderForPut item (cf_compress cf)
    (newEntry item (index s !! fi_Path (fi_meta item)) (pa_now args)) = Ok (ie, rd).

(** A re-save of a path carries the bytes already stored for it, so its stored
    size is the same: the content addressing the code relies on. *)
Definition content_addressed `{Zstd} (cf : Config) (s : Store) (item : FileItem) (args : putArgs) : Prop :=
  forall ex ie rd, index s !! fi_Path (fi_meta item) = Some ex ->
    saving cf s item args ie rd -> entryStoredSize ie = entryStoredSize ex.

(** A save of a path that is stored as a plain file delivers its whole body, and
    setting the time of the file works. *)
Definition plain_resave_whole `{Zstd} (cf : Config) (s : Store) (item : FileItem) (args : putArgs) : Prop :=
  forall ex ie rd, index s !! fi_Path (fi_meta item) = Some ex -> pooled ex = false ->
    saving cf s item args ie rd -> pa_chtimes args = None /\ whole rd ie.

Definition oversized (cf : Config) (item : FileItem) : bool :=
  (0 <? cf_maxFileBytes cf) && (cf_maxFileBytes cf <? fi_Size (fi_meta item)).

Lemma repr_add_counters cf s a h p pe e : repr cf s a -> repr cf (add_counters s h p pe e) a.
Proof. intros [[] []]. by split. Qed.

Lemma putOne_spec `{Zstd} cf s a item args s' r :
  cfg_ok cf -> repr cf s a -> rel_clean (fi_Path (fi_meta item)) ->
  (forall n, pages_left (pool s) n) ->
  content_addressed cf s item args -> plain_resave_whole cf s item args ->
  putOne cf s item args = (s', r) ->
  match r with
  | Ok _ =>
      (oversized cf item = true /\ s' = s) \/
      exists ie0 rd ie b, saving cf s item args ie0 rd /\ delivers rd b /\
        blen b = entryStoredSize ie0 /\ (ie = ie0 \/ exists l, IsZero l = false /\ ie = with_loc ie0 l) /\
        repr cf s' (<[fi_Path (fi_meta item) := (ie, b)]> a)
  | Err e => save_failed cf s' a e
  end.
Proof.
  intros Hc Hr Hpath Hleft Hca Hwhole. unfold putOne.
  set (path := fi_Path (fi_meta item)) in *.
  case_bool_decide as He.
  { intros [= <- <-]. by apply save_failed_refl. }
  fold (oversized cf item). destruct (oversized cf item) eqn:Eo.
  { intros [= <- <-]. by left. }
  set (s0 := add_counters s 0 1 _ 0).
  assert (Hr0 : repr cf s0 a) by (by apply repr_add_counters).
  unfold putBody. destruct (bodyReaderForPut _ _ _) as [[ie0 rd]|e] eqn:Eb.
  2: { intros [= <- <-]. by apply save_failed_refl, repr_add_counters. }
  assert (Hs : saving cf s item args ie0 rd) by done.
  destruct (bodyReaderForPut_entry _ _ _ _ _ Eb) as (Hp0 & Hmt & _).
  assert (Hpl0 : pooled ie0 = false) by (unfold pooled; by rewrite Hp0).
  assert (Hidx := lookup_index cf s a path (proj1 Hr)).
  destruct (storePutBody cf s0 item ie0 rd args) as [s1 r1] eqn:Est.
  apply (storePutBody_spec cf s0 a) in Est; [|done..|].
  2: { intros ex bex Hex Hplx. apply (Hwhole ex ie0 rd); [|done..].
       fold path in Hex |- *. by rewrite Hidx, Hex. }
  destruct r1 as [ie'|e].
  2: { intros [= <- <-]. destruct Est as (a' & H1 & H2 & H3). exists a'.
       split; [by apply repr_add_counters|done]. }
  intros [= <- <-]. destruct Est as (b & Hb & Hl & Hst). right.
  assert (Hie' : ie' = ie0 \/ exists l, IsZero l = false /\ ie' = with_loc ie0 l).
  { destruct Hst as (_ & _ & _ & _ & [(l & -> & Hz & _)|(-> & _)]); [right|left]; eauto. }
  assert (Hsz : entryStoredSize ie' = entryStoredSize ie0 /\ ie_ModTimeMicro ie' = ie_ModTimeMicro ie0).
  { by destruct Hie' as [->|(l & _ & ->)]. }
  exists ie0, rd, ie', b. split; [done|]. split; [done|]. split; [done|]. split; [done|].
  change (index s !! path) with (index s0 !! path).
  eapply (putCommit_spec cf s0 a); [done|done|done|exact Hpl0|exact Hst|lia|].
  intros ex bex Hex. assert (Hix : index s !! path = Some ex) by (by rewrite Hidx, Hex).
  destruct Hsz as [-> ->]. split; [by apply (Hca ex ie0 rd)|].
  rewrite Hmt. simpl. fold path. by rewrite Hix.
Qed.

(** [putOne] implements insertion into the abstract store.  On success the
    store holds the old contents plus the path with the delivered body, of exactly
    the recorded size, in a pool slot or an object file, whatever the path
    occupied before released; an item over the size limit is skipped.  On any error
    -- reader, length, pool, file -- the store still satisfies the invariant and
    has lost nothing, except that a full disk makes room by evicting in order. *)
Theorem putOne_refines `{Zstd} cf s a item args s' r
    (Hc : cfg_ok cf) (Hr : repr cf s a) (Hpath : rel_clean (fi_Path (fi_meta item)))
    (Hleft : forall n, pages_left (pool s) n)
    (Hca : content_addressed cf s item args) (Hwhole : plain_resave_whole cf s item args)
    (Hput : putOne cf s item args = (s', r)) :
  match r with
  | Ok _ =>
      (oversized cf item = true /\ s' = s) \/
      exists ie0 rd ie b, saving cf s item args ie0 rd /\ delivers rd b /\
        blen b = entryStoredSize ie0 /\ (ie = ie0 \/ exists l, IsZero l = false /\ ie = with_loc ie0 l) /\
        repr cf s' (<[fi_Path (fi_meta item) := (ie, b)]> a)
  | Err e => save_failed cf s' a e
  end.
Proof. by eapply putOne_spec. Qed.

(** ** Serving *)

Lemma objectPath_nonempty cf p : abs_dir (cf_dir cf) -> rel_clean p -> objectPath cf p <> [].
Proof.
  intros Hd Hp. unfold objectPath.
  rewrite JoinPath_under; [|done|apply proper_decide; vm_compute; reflexivity|done].
  destruct Hd as (l & _ & _ & ->). done.
Qed.

(** The served item: its reader gives the stored bytes. *)
Lemma responseItem_body cf s a p ie b :
  cfg_ok cf -> repr cf s a -> a !! p = Some (ie, b) ->
  fi_body (PrepareBodyReader (responseItem cf s p ie) (openObject s)) = Some (Ok (fromBytes b)).
Proof.
  intros [Hd _] [Hh _] Hp. unfold responseItem. fold (pooled ie).
  destruct (pooled ie) eqn:Hpl.
  - destruct (hd_pool _ _ _ Hh) as (m & Hm & Ho).
    assert (Hk := ow_in _ _ Ho _ _ _ Hp Hpl). apply Hm in Hk as [_ Hk].
    unfold PrepareBodyReader. simpl. by rewrite Hk.
  - unfold PrepareBodyReader. simpl. rewrite bool_decide_eq_false_2.
    + simpl. unfold openObject. by rewrite (hd_plain _ _ _ Hh p ie b).
    + apply objectPath_nonempty; [done|]. apply (hd_path _ _ _ Hh). eauto.
Qed.

(** Its metadata. *)
Definition responseMeta (cf : Config) (p : bytes) (ie : indexEntry) : FileMeta :=
  mkFileMeta p (ie_Size ie) (if ie_ModTimeMicro ie =? 0 then None else Some (ie_ModTimeMicro ie))
    (ie_Mode ie) (ie_Compressed ie =? 1)
    (if ie_WireSize ie =? 0 then ie_Size ie else ie_WireSize ie)
    (if pooled ie then [] else objectPath cf p).

Lemma responseItem_meta cf s p ie : fi_meta (responseItem cf s p ie) = responseMeta cf p ie.
Proof. unfold responseItem, responseMeta, pooled. by destruct (negb _). Qed.

Lemma PrepareBodyReader_meta fi o : fi_meta (PrepareBodyReader fi o) = fi_meta fi.
Proof. unfold PrepareBodyReader. by repeat case_match. Qed.

Lemma served_body cf s a p ie b :
  cfg_ok cf -> repr cf s a -> a !! p = Some (ie, b) -> 0 <= ie_WireSize ie ->
  WriteTo (PrepareBodyReader (responseItem cf s p ie) (openObject s)) = Ok b.
Proof.
  intros Hc Hr Hp Hw.
  assert (Hb := responseItem_body cf s a p ie b Hc Hr Hp).
  assert (Hsz := hd_size _ _ _ (proj1 Hr) _ _ _ Hp).
  unfold WriteTo, WireBodyReader, bodyOf, wireLen.
  rewrite Hb, PrepareBodyReader_meta, responseItem_meta. simpl.
  set (w := if ie_WireSize ie =? 0 then ie_Size ie else ie_WireSize ie).
  assert (Ew : w = blen b /\ (w = 0 -> ie_Size ie = 0)).
  { unfold w. rewrite Hsz. unfold entryStoredSize.
    destruct (Z.eqb_spec (ie_WireSize ie) 0) as [E|E]; [by rewrite E|].
    rewrite (proj2 (Z.ltb_lt _ _)) by lia. lia. }
  destruct Ew as [Ew Ez]. clearbody w.
  destruct (Z.eqb_spec w 0) as [E|E].
  - rewrite (Ez E). simpl. destruct b; [done|]. unfold blen in Ew. simpl in Ew. lia.
  - rewrite andb_false_r, Ew. assert (Hn := blen_nonneg b).
    rewrite (proj2 (Z.ltb_ge _ _)) by lia.
    assert (Hrf := ReadFull_app b [] None (blen b) eq_refl). rewrite app_nil_r in Hrf.
    unfold fromBytes. by rewrite Hrf.
Qed.

(** An entry is served with exactly its stored bytes: what [WriteTo] puts on
    the wire for a restored item is the whole stored body, never a short read or
    the bytes of another record. *)
Theorem served_body_is_stored cf s a p ie b
    (Hc : cfg_ok cf) (Hr : repr cf s a) (Hp : a !! p = Some (ie, b))
    (Hw : 0 <= ie_WireSize ie) :
  WriteTo (PrepareBodyReader (responseItem cf s p ie) (openObject s)) = Ok b.
Proof. by eapply served_body. Qed.

Lemma delivers_fromBytes rd b : delivers (Some rd) b -> rd = fromBytes b.
Proof.
  unfold delivers, ReadAll. destruct rd as [d [e|]]; simpl; [done|]. by intros [= <-].
Qed.

Lemma delivers_inj rd b c : delivers rd b -> delivers rd c -> b = c.
Proof. destruct rd as [rd|]; unfold delivers; congruence. Qed.

Lemma delivers_nil_reader b : delivers None b -> b = [].
Proof. done. Qed.

(** The body a save stores, read back through the entry it makes, is the
    uncompressed body the item came with. *)
Lemma saving_uncompressed `{Zstd} cf s item args ie0 rd b c p (mt : option Z) mode loc :
  saving cf s item args ie0 rd -> delivers rd b -> blen b = entryStoredSize ie0 ->
  0 <= fi_Size (fi_meta item) -> 0 <= fi_WireSize (fi_meta item) ->
  (exists rd0, UncompressedBodyReader item = Ok rd0 /\ delivers rd0 c) ->
  let served := mkFileItem (mkFileMeta p (ie_Size ie0) mt mode (ie_Compressed ie0 =? 1)
                  (if ie_WireSize ie0 =? 0 then ie_Size ie0 else ie_WireSize ie0) loc)
                  (Some (Ok (fromBytes b))) in
  exists rd', UncompressedBodyReader served = Ok rd' /\ delivers rd' c.
Proof.
  intros Hs Hb Hl Hsz Hwz (rd0 & Hu & Hc) served. subst served.
  assert (Hplain : ie_Compressed ie0 = 0 -> ie_WireSize ie0 = 0 -> b = c ->
    exists rd', UncompressedBodyReader (mkFileItem (mkFileMeta p (ie_Size ie0) mt mode (ie_Compressed ie0 =? 1)
       (if ie_WireSize ie0 =? 0 then ie_Size ie0 else ie_WireSize ie0) loc)
       (Some (Ok (fromBytes b)))) = Ok rd' /\ delivers rd' c).
  { intros E1 E2 ->. unfold UncompressedBodyReader, bodyOf. simpl. rewrite E1, E2. simpl.
    unfold entryStoredSize in Hl. rewrite E2 in Hl. simpl in Hl.
    destruct (Z.eqb_spec (ie_Size ie0) 0) as [E|E]; simpl;
      [|by exists (Some (fromBytes c))].
    exists None. split; [done|]. destruct c; [done|]. unfold blen in Hl. simpl in Hl. lia. }
  unfold saving, bodyReaderForPut in Hs. destruct (fi_IsCompressed (fi_meta item)) eqn:Ecomp, (cf_compress cf); simpl in Hs.
  - (* kept compressed *)
    unfold UncompressedBodyReader, WireBodyReader in *. rewrite Ecomp in Hu.
    destruct (bodyOf item) as [[rd1|]|] eqn:Ebody; [|..|done]; injection Hs as <- <-; simpl.
    + apply delivers_fromBytes in Hb as ->.
      destruct (zstdReader (fromBytes b)) as [zrd|] eqn:Ez; [|done]. injection Hu as <-.
      exists (Some zrd). split; [|done]. unfold bodyOf. simpl.
      unfold bodyOf in Ebody.
      destruct ((fi_Size (fi_meta item) =? 0) && (fi_WireSize (fi_meta item) =? 0)) eqn:E0; [done|].
      destruct (Z.eqb_spec (fi_WireSize (fi_meta item)) 0) as [E|E].
      * rewrite andb_true_r in E0. rewrite E0. simpl. by rewrite Ez.
      * rewrite (proj2 (Z.eqb_neq _ _) E), andb_false_r. by rewrite Ez.
    + apply delivers_nil_reader in Hb as ->. injection Hu as <-. apply delivers_nil_reader in Hc as ->.
      exists None. split; [|done]. unfold bodyOf in *. simpl.
      destruct ((fi_Size (fi_meta item) =? 0) && (fi_WireSize (fi_meta item) =? 0)) eqn:E0;
        [|by destruct (fi_body item) as [[]|]]. go_bool. rewrite H0, H1. done.
  - rewrite Hu in Hs. injection Hs as <- <-. apply Hplain; [done..|].
    by eapply delivers_inj.
  - destruct (MinCompressionSize <=? _) eqn:Emin.
    + unfold compressNowBodyReader, CompressedBodyReader in Hs.
      unfold UncompressedBodyReader in Hu. rewrite Ecomp in *. go_bool.
      destruct (bodyOf item) as [[rd1|]|] eqn:Ebody; try done. injection Hu as <-.
      destruct (ReadAll rd1) as [data|] eqn:Erd; [|done]. simpl in Hs. injection Hs as <- <-.
      assert (data = c) as -> by (unfold delivers in Hc; congruence).
      unfold delivers in Hb. simpl in Hb. injection Hb as <-. simpl.
      exists (Some (fromBytes c)). split; [|done]. unfold UncompressedBodyReader, bodyOf. simpl.
      rewrite (proj2 (Z.eqb_neq (fi_Size (fi_meta item)) 0)) by (unfold MinCompressionSize in *; lia).
      simpl. by rewrite zstdReader_Encode.
    + rewrite Hu in Hs. injection Hs as <- <-. apply Hplain; [done..|].
      by eapply delivers_inj.
  - rewrite Hu in Hs. injection Hs as <- <-. apply Hplain; [done..|].
    by eapply delivers_inj.
Qed.

(** C7: save, then restore.  After a save that ended well, the item served for the path
    decompresses to the uncompressed body the saved item carried, whichever of the
    four ways it was stored: kept compressed, decompressed, compressed by the server,
    or as it came; in the pool or in a file -- unless the item is over the limit for
    one file: then the save ends well too and has stored nothing.  The path is a
    clean relative one, the pool has page numbers left, a save of a path that the
    store already has is of the same stored size as before ([content_addressed]), and
    when that is kept in a file of its own, the body is delivered whole and the
    file's time can be set ([plain_resave_whole]). *)
Theorem save_restore_roundtrip `{Zstd} cf s a item args s' c
    (Hc : cfg_ok cf) (Hr : repr cf s a) (Hpath : rel_clean (fi_Path (fi_meta item)))
    (Hleft : forall n, pages_left (pool s) n)
    (Hca : content_addressed cf s item args) (Hwhole : plain_resave_whole cf s item args)
    (Hsize : 0 <= fi_Size (fi_meta item)) (Hwire : 0 <= fi_WireSize (fi_meta item))
    (Hbody : exists rd0, UncompressedBodyReader item = Ok rd0 /\ delivers rd0 c)
    (Hput : putOne cf s item args = (s', Ok tt)) :
  if oversized cf item then s' = s
  else exists ie, index s' !! fi_Path (fi_meta item) = Some ie /\
    exists rd', UncompressedBodyReader
      (PrepareBodyReader (responseItem cf s' (fi_Path (fi_meta item)) ie) (openObject s')) = Ok rd' /\
    delivers rd' c.
Proof.
  destruct (oversized cf item) eqn:Hover.
  { unfold putOne in Hput. case_bool_decide; [done|]. fold (oversized cf item) in Hput. rewrite Hover in Hput. congruence. }
  set (path := fi_Path (fi_meta item)) in *.
  apply (putOne_spec cf s a) in Hput as [[E _]|(ie0 & rd & ie & b & Hs & Hb & Hl & Hie & Hr')];
    [congruence| |done..].
  fold path in Hr'. exists ie. split.
  { rewrite (lookup_index cf s' _ path (proj1 Hr')), lookup_insert_eq. done. }
  assert (Hbody' := responseItem_body cf s' _ path ie b Hc Hr' (lookup_insert_eq _ _ _)).
  assert (Hmeta : fi_meta (PrepareBodyReader (responseItem cf s' path ie) (openObject s')) =
    responseMeta cf path ie) by (by rewrite PrepareBodyReader_meta, responseItem_meta).
  destruct (PrepareBodyReader _ _) as [m body]. simpl in Hbody', Hmeta. subst.
  assert (E : ie_Size ie = ie_Size ie0 /\ ie_Compressed ie = ie_Compressed ie0 /\
    ie_WireSize ie = ie_WireSize ie0) by (by destruct Hie as [->|(l & _ & ->)]).
  destruct E as (E1 & E2 & E3). unfold responseMeta. rewrite E1, E2, E3.
  by eapply saving_uncompressed.
Qed.

(** ** Behaviours outside the assumptions *)

(** A save over a plain object that fails on the length of its body destroys
    the stored object.  The new body has already replaced the file when the count
    is compared, and the file is then removed; the index keeps the entry, which
    now has no bytes. *)
Theorem truncated_resave_loses_object `{Zstd} cf s a item args ie rd b ex b0
    (Hc : cfg_ok cf) (Hr : repr cf s a) (Hpath : fi_Path (fi_meta item) <> [])
    (Hover : oversized cf item = false)
    (Hex : a !! fi_Path (fi_meta item) = Some (ex, b0)) (Hpl : pooled ex = false)
    (Hs : saving cf s item args ie rd) (Hbig : maxRecordBytes (pool s) < entryStoredSize ie)
    (Hb : delivers rd b) (Hshort : blen b <> entryStoredSize ie) (Hw : pa_write args = None) :
  exists s' e, putOne cf s item args = (s', Err e) /\
    index s' !! fi_Path (fi_meta item) = Some ex /\
    objects s' !! objectPath cf (fi_Path (fi_meta item)) = None.
Proof.
  set (path := fi_Path (fi_meta item)) in *.
  assert (Hi : index s !! path = Some ex) by (by rewrite (lookup_index cf s a path (proj1 Hr)), Hex).
  unfold putOne. fold path. rewrite bool_decide_eq_false_2 by done.
  fold (oversized cf item). rewrite Hover. unfold putBody. unfold saving in Hs. fold path in Hs.
  rewrite Hs. unfold storePutBody. simpl pool.
  rewrite (proj2 (Z.leb_gt _ _)) by done. rewrite andb_false_r.
  unfold storePlain. rewrite Hw. fold path.
  assert (Ew : forall o, writeAtomic o (objectPath cf path) rd None =
    (<[objectPath cf path := b]> o, Ok (blen b))).
  { intros o. unfold writeAtomic. destruct rd as [rd|].
    - by rewrite (delivers_fromBytes rd b Hb).
    - by rewrite (delivers_nil_reader b Hb). }
  rewrite Ew. rewrite (proj2 (Z.eqb_neq _ _) Hshort). simpl.
  eexists _, _. split; [done|]. simpl. split; [done|apply lookup_delete_eq].
Qed.

Definition exampleConfig : Config := mkConfig #"/srv/cache" false 1000 0 0 0.
Definition exampleArgs : putArgs := mkPutArgs 5 #"7" noFaults None None.

(** An empty store over a pool. *)
Definition emptyStore (p : Pool) : Store :=
  mkStore ∅ false true 0 false p (newEvictionHeap 0) ∅ 0 0 0 0.

Definition plainItem (path body : bytes) : FileItem :=
  mkFileItem (mkFileMeta path (blen body) None 420 false 0 []) (Some (Ok (fromBytes body))).

Section examples.
Let Z0 := magicZstd.
Local Existing Instance Z0.

(** The result of a sequence of saves. *)
Definition saves (s : Store) (l : list (bytes * bytes)) : Store :=
  foldl (fun s pb => fst (putOne exampleConfig s (plainItem pb.1 pb.2) exampleArgs)) s l.

(** [SaveItem] does not clean the item's path (only [Save] does), and
    [objectPath] resolves [..]: an item sent on a save stream with a path that
    climbs out of the store writes its body to any file of the server. *)
Theorem SaveItem_escapes_store :
  let s := fst (SaveItem exampleConfig (emptyStore blockPool)
                  (plainItem #"../../../etc/cron.d/job" #"* * * * *") exampleArgs) in
  objects s !! #"/etc/cron.d/job" = Some #"* * * * *" /\
  cleanRelativePath #"../../../etc/cron.d/job" = Err (EMsg "path escapes cache root").
Proof. vm_compute. by split. Qed.

(** A re-save whose stored size differs (another compression of the same
    content is enough) leaves a heap entry that no longer matches the index and
    pushes none, so the entry can never be evicted: [EvictOne] reports that
    nothing is left while the store still accounts for its bytes. *)
Theorem resave_of_other_size_is_unevictable :
  let s := saves (emptyStore blockPool) [(#"aa/x", #"abc"); (#"aa/x", #"abcd")] in
  DiskBytes s = 4 /\ size (index s) = 1%nat /\ snd (EvictOne exampleConfig s) = false.
Proof. vm_compute. done. Qed.

(** Two requests that re-save the same path: both look the entry up, both write
    their body, then both commit. *)
Definition interleaved_resaves (s : Store) (path body : bytes) : Store :=
  let item := plainItem path body in
  let existing := index s !! path in
  match putBody exampleConfig s item existing exampleArgs with
  | (s, Ok ie1) =>
      match putBody exampleConfig s item existing exampleArgs with
      | (s, Ok ie2) =>
          putCommit exampleConfig (putCommit exampleConfig s path existing ie1) path existing ie2
      | (s, Err _) => s
      end
  | (s, Err _) => s
  end.

(** What a restore sends for a path. *)
Definition servedBytes (s : Store) (path : bytes) : option (result bytes) :=
  (fun ie => WriteTo (PrepareBodyReader (responseItem exampleConfig s path ie) (openObject s)))
    <$> index s !! path.

(** [putOne] releases [s.mu] between reading the existing entry and replacing
    it, so two concurrent re-saves of one pool-backed path both free its old
    slot.  The slot is then handed out twice: two other objects saved next share
    it, and the first one is served with the second one's bytes. *)
Theorem concurrent_resave_aliases_records :
  let s := saves (emptyStore smallPool) [(#"aa/x", #"same")] in
  let s := interleaved_resaves s #"aa/x" #"same" in
  let s := saves s [(#"bb/y", #"yyyy"); (#"cc/z", #"zzzz")] in
  (poolKey <$> index s !! #"bb/y") = (poolKey <$> index s !! #"cc/z") /\
  servedBytes s #"bb/y" = Some (Ok #"zzzz") /\ servedBytes s #"cc/z" = Some (Ok #"zzzz").
Proof. intros s s0 s1. apply (bool_decide_eq_true_1 _). vm_compute. reflexivity. Qed.
End examples.

(** ** Witnesses *)

(** A budget of two bytes. *)
Definition tightConfig : Config := mkConfig #"/srv/cache" false 2 0 0 0.

Lemma example_cfg_ok : cfg_ok tightConfig.
Proof.
  split; [|by left]. exists [ #"srv"; #"cache" ]. split; [done|].
  split; [|done]. repeat constructor; apply proper_decide; vm_compute; reflexivity.
Qed.

Lemma example_rel_clean : rel_clean #"aa/x".
Proof.
  exists [ #"aa"; #"x" ]. split; [done|]. split; [|done].
  repeat constructor; apply proper_decide; vm_compute; reflexivity.
Qed.

Lemma repr_empty cf p :
  wf p -> models p ∅ -> cf_evictionBucket cf = 0 -> repr cf (emptyStore p) ∅.
Proof.
  intros Hw Hm Hb. split; split; simpl; try done.
  - by intros p' [x Hx].
  - exists ∅. split; [done|]. by split.
Qed.

Lemma repr_small cf : cf_evictionBucket cf = 0 -> repr cf (emptyStore smallPool) ∅.
Proof. intros Hb. apply repr_empty; [by apply wf_empty|apply models_New|done]. Qed.

(** The entry of a plain nine-byte object. *)
Definition nineEntry : indexEntry := mkEntry 9 420 0 0 5 0 0.

Definition tightStore : Store :=
  fst (putOne (H := magicZstd) tightConfig (emptyStore smallPool)
         (plainItem #"aa/x" #"ninebytes") exampleArgs).

Lemma tight_repr : repr tightConfig tightStore {[ #"aa/x" := (nineEntry, #"ninebytes") ]}.
Proof.
  assert (E9 : index tightStore !! #"aa/x" = Some nineEntry) by (vm_compute; reflexivity).
  destruct (putOne_spec (H := magicZstd) tightConfig (emptyStore smallPool) ∅
    (plainItem #"aa/x" #"ninebytes") exampleArgs tightStore (Ok tt))
    as [[Ho _]|(ie0 & rd & ie & b & Hs & Hb & Hl & Hie & Hr)]; try done.
  - apply example_cfg_ok.
  - by apply repr_small.
  - apply example_rel_clean.
  - unfold saving in Hs. simpl in Hs. injection Hs as <- <-.
    unfold delivers in Hb. simpl in Hb. injection Hb as <-.
    assert (Hi := lookup_index _ _ _ #"aa/x" (proj1 Hr)).
    change (fi_Path (fi_meta (plainItem #"aa/x" #"ninebytes"))) with #"aa/x" in *.
    rewrite E9, lookup_insert_eq in Hi. injection Hi as <-. exact Hr.
Qed.

Lemma EvictOne_spec_witness :
  exists s', EvictOne tightConfig tightStore = (s', true) /\
    exists p ie b, ({[ #"aa/x" := (nineEntry, #"ninebytes") ]} : Contents) !! p = Some (ie, b) /\
      repr tightConfig s' (delete p {[ #"aa/x" := (nineEntry, #"ninebytes") ]}).
Proof.
  assert (H := EvictOne_spec tightConfig tightStore _ example_cfg_ok tight_repr).
  assert (E : snd (EvictOne tightConfig tightStore) = true) by (vm_compute; reflexivity).
  destruct (EvictOne tightConfig tightStore) as [s' ok]. simpl in E. subst ok.
  exists s'. split; [done|]. destruct H as (p & ie & b & ? & ? & _). by exists p, ie, b.
Defined.

Lemma EvictNow_within_budget_witness :
  DiskBytes tightStore = 9 /\ DiskBytes (EvictNow tightConfig tightStore) <= 2.
Proof.
  split; [vm_compute; reflexivity|].
  destruct (EvictNow_within_budget tightConfig tightStore _ example_cfg_ok tight_repr)
    as (a' & _ & _ & H & _).
  apply H. vm_compute. reflexivity.
Defined.

Lemma putOne_refines_witness :
  exists ie b, repr tightConfig tightStore (<[ #"aa/x" := (ie, b)]> ∅).
Proof.
  destruct (putOne_refines (H := magicZstd) tightConfig (emptyStore smallPool) ∅
    (plainItem #"aa/x" #"ninebytes") exampleArgs tightStore (Ok tt))
    as [[Ho _]|(ie0 & rd & ie & b & Hs & Hb & Hl & Hie & Hr)]; try done.
  - apply example_cfg_ok.
  - by apply repr_small.
  - apply example_rel_clean.
  - by exists ie, b.
Defined.

Lemma served_body_is_stored_witness :
  WriteTo (PrepareBodyReader (responseItem tightConfig tightStore #"aa/x" nineEntry)
    (openObject tightStore)) = Ok #"ninebytes".
Proof.
  apply (served_body_is_stored tightConfig tightStore _ #"aa/x" nineEntry #"ninebytes"
    example_cfg_ok tight_repr).
  - by rewrite lookup_singleton_eq.
  - simpl. lia.
Defined.

Lemma save_restore_roundtrip_witness :
  exists ie, index tightStore !! #"aa/x" = Some ie /\
    exists rd', UncompressedBodyReader (H := magicZstd)
      (PrepareBodyReader (responseItem tightConfig tightStore #"aa/x" ie) (openObject tightStore)) = Ok rd' /\
    delivers rd' #"ninebytes".
Proof.
  apply (save_restore_roundtrip (H := magicZstd) tightConfig (emptyStore smallPool) ∅
    (plainItem #"aa/x" #"ninebytes") exampleArgs tightStore #"ninebytes"); try done.
  - apply example_cfg_ok.
  - by apply repr_small.
  - apply example_rel_clean.
  - by exists (Some (fromBytes #"ninebytes")).
Defined.

Lemma truncated_resave_loses_object_witness :
  let item := mkFileItem (mkFileMeta #"aa/x" 9 None 420 false 0 []) (Some (Ok (fromBytes #"short"))) in
  exists s' e, putOne (H := magicZstd) tightConfig tightStore item exampleArgs = (s', Err e) /\
    index s' !! #"aa/x" = Some nineEntry /\
    objects s' !! objectPath tightConfig #"aa/x" = None.
Proof.
  intros item.
  apply (truncated_resave_loses_object (H := magicZstd) tightConfig tightStore
    {[ #"aa/x" := (nineEntry, #"ninebytes") ]} item exampleArgs nineEntry
    (Some (fromBytes #"short")) #"short" nineEntry #"ninebytes"); try done.
  - apply example_cfg_ok.
  - apply tight_repr.
Defined.
