(* ===== verification/GoCacheOpen.v ===== *)
(** Opening and closing the object store of src/internal/gocache/store.go:
    [NewStore] with [reconcilePoolLocked], and [Close].  The JSON text of the index
    is a codec; the orders in which Go ranges over the index map are arguments.
    The main theorem is durability: closing a store and opening it again, over the
    same files, gives a store that holds the same contents. *)
From S2P Require Import Prelude.
From S2P Require Import GoStrings.
From S2P Require Import GoPath.
From S2P Require Import RecordPool.
From S2P Require Import EvictHeap.
From S2P Require Import Wire.
From S2P Require Import GoCacheStore.

(** ** Opening *)

(** What the store leaves on disk. *)
Record Disk := mkDisk {
  dk_index : option bytes;             (* the index file, if there is one *)
  dk_records : gmap bytes bytes;       (* the pool directory *)
  dk_objects : gmap bytes bytes;       (* the object files *)
}.

(** One round of [reconcilePoolLocked]: the pool, the index and [dirty]. *)
Definition reconcileStep (st : Pool * gmap bytes indexEntry * bool) (relPath : bytes)
    : Pool * gmap bytes indexEntry * bool :=
  let '(p, idx, d) := st in
  match idx !! relPath with
  | None => st
  | Some ie =>
      let size := entryStoredSize ie in
      let l := entryLoc ie in
      if negb (Valid p size l) then (p, delete relPath idx, true)
      else if IsZero l then (NoteUnpromoted p size, idx, d)
      else (NoteOccupied p size l, idx, d)
  end.

(** [reconcilePoolLocked]; [order] is the order of the range over the index. *)
Definition reconcilePoolLocked (p : Pool) (idx : gmap bytes indexEntry)
    (entries : result (list (bytes * bool * option goerr))) (order : list bytes)
    : result (Pool * gmap bytes indexEntry * bool) :=
  match DiscoverPages p entries with
  | Err e => Err e
  | Ok p =>
      let '(p, idx, d) := foldl reconcileStep (p, idx, false) order in
      Ok (FinishReconcile p, idx, d)
  end.

(** One round of [NewStore]'s accounting loop: the index, the object files, the
    bytes and [dirty]. *)
Definition accountStep (cf : Config)
    (st : gmap bytes indexEntry * gmap bytes bytes * Z * bool) (path : bytes)
    : gmap bytes indexEntry * gmap bytes bytes * Z * bool :=
  let '(idx, o, n, d) := st in
  match idx !! path with
  | None => st
  | Some ie =>
      if negb (ie_PoolPage ie =? 0) then (idx, o, n + entryStoredSize ie, d)
      else if negb (bool_decide (is_Some (o !! objectPath cf path))) then (delete path idx, o, n, true)
      else if (0 <? cf_maxFileBytes cf) && (cf_maxFileBytes cf <? ie_Size ie) then
        (delete path idx, delete (objectPath cf path) o, n, true)
      else (idx, o, n + entryStoredSize ie, d)
  end.

(** The heap, filled in the order of the range. *)
Definition fillHeap (h : evictionHeap) (idx : gmap bytes indexEntry) (order : list bytes) : evictionHeap :=
  foldl (fun h path => match idx !! path with
                       | Some ie => push h path (entryStoredSize ie) (ie_ModTimeMicro ie)
                       | None => h
                       end) h order.

Section open.
Context `{JSON (gmap bytes indexEntry)}.

(** [NewStore] after [toAbsPath]: [entries] is the listing of the pool directory
    with the outcomes of opening its files, [o1], [o2], [o3] the range orders. *)
Definition NewStore (cf : Config) (dk : Disk)
    (entries : result (list (bytes * bool * option goerr))) (o1 o2 o3 : list bytes) : result Store :=
  let? idx := match dk_index dk with None => Ok ∅ | Some data => Unmarshal data end in
  let? (p, idx, d1) :=
    reconcilePoolLocked (New DefaultMaxRecordBytes DefaultPageBytes (dk_records dk)) idx entries o1 in
  let '(idx, o, n, d2) := foldl (accountStep cf) (idx, dk_objects dk, 0, d1) o2 in
  let h := fillHeap (newEvictionHeap (cf_evictionBucket cf)) idx o3 in
  let s := evictIfNeededLocked cf (mkStore idx d2 false n false p h o 0 0 0 0) in
  Ok (mkStore (index s) (dirty s) true (currentDiskBytes s) (evictionScheduled s) (pool s)
        (evictHeap s) (objects s) (hits s) (puts s) (putsExist s) (errors s)).

(** [Close]: the index file is written when something changed; [old] is the one
    on disk. *)
Definition Close (s : Store) (old : option bytes) : result Disk :=
  if negb (ready s) || negb (dirty s) then Ok (mkDisk old (disk (pool s)) (objects s))
  else
    let? data := Marshal (index s) in
    Ok (mkDisk (Some data) (disk (pool s)) (objects s)).
End open.

(** ** Reconciling the pool *)

(** The locations noted for the paths of an order. *)
Definition notedKeys (idx : gmap bytes indexEntry) (order : list bytes) : list (Z * Loc) :=
  omap (fun p => ie ← idx !! p; if pooled ie then Some (poolKey ie) else None) order.

Lemma reconcile_fold p q idx d order :
  core p = core q ->
  (forall path ie, idx !! path = Some ie -> Valid p (entryStoredSize ie) (entryLoc ie) = true) ->
  exists p', foldl reconcileStep (p, idx, d) order = (p', idx, d) /\
             core p' = core (noteAll q (notedKeys idx order)).
Proof.
  revert p q. induction order as [|path order IH]; intros p q Hcore Hv; [by exists p|].
  cbn [foldl notedKeys omap list_omap]. unfold reconcileStep at 2.
  fold (notedKeys idx order).
  destruct (idx !! path) as [ie|] eqn:Hp; simpl; [|by apply IH].
  rewrite (Hv _ _ Hp). simpl. unfold pooled. change (IsZero (entryLoc ie)) with (ie_PoolPage ie =? 0).
  destruct (ie_PoolPage ie =? 0); simpl.
  - apply IH; [by rewrite NoteUnpromoted_core|]. intros path' ie' Hp'.
    rewrite (Valid_core _ p) by apply NoteUnpromoted_core. eauto.
  - apply IH; [by apply NoteOccupied_core|]. intros path' ie' Hp'.
    rewrite Valid_NoteOccupied. eauto.
Qed.

Lemma notedKeys_spec idx order k :
  (forall p, p ∈ order <-> is_Some (idx !! p)) ->
  k ∈ notedKeys idx order <-> exists p ie, idx !! p = Some ie /\ pooled ie = true /\ poolKey ie = k.
Proof.
  intros Ho. unfold notedKeys. rewrite list_elem_of_omap. split.
  - intros (p & _ & Hp). destruct (idx !! p) as [ie|] eqn:E; [|done]. simpl in Hp.
    destruct (pooled ie) eqn:Hpl; [|done]. injection Hp as <-. eauto.
  - intros (p & ie & Hp & Hpl & <-). exists p. split; [apply Ho; eauto|]. rewrite Hp. simpl.
    by rewrite Hpl.
Qed.

(** ** Accounting *)

(** An entry [NewStore] drops: a plain object over the file size limit. *)
Definition dropped (cf : Config) (ie : indexEntry) : bool :=
  negb (pooled ie) && ((0 <? cf_maxFileBytes cf) && (cf_maxFileBytes cf <? ie_Size ie)).

Definition kept_of (cf : Config) (l : list bytes) (x : bytes * indexEntry) : Prop :=
  ~ (x.1 ∈ l /\ dropped cf x.2 = true).

#[export] Instance kept_of_dec cf l x : Decision (kept_of cf l x).
Proof. unfold kept_of. apply _. Defined.

Definition among (l : list bytes) (x : bytes * indexEntry) : Prop := x.1 ∈ l.

#[export] Instance among_dec l x : Decision (among l x).
Proof. unfold among. apply _. Defined.

(** Filters that agree on the entries of the map. *)
Lemma filter_kept_skip (cf : Config) (path : bytes) (l : list bytes) (idx : gmap bytes indexEntry) :
  (forall ie, idx !! path = Some ie -> dropped cf ie = false) ->
  filter (kept_of cf (path :: l)) idx = filter (kept_of cf l) idx.
Proof.
  intros Hd. apply map_filter_ext. intros p ie Hp. unfold kept_of. simpl.
  rewrite elem_of_cons. destruct (decide (p = path)) as [->|]; [|naive_solver].
  specialize (Hd _ Hp). rewrite Hd. naive_solver.
Qed.

Lemma filter_kept_drop (cf : Config) (path : bytes) (l : list bytes) (idx : gmap bytes indexEntry) ie :
  idx !! path = Some ie -> dropped cf ie = true ->
  filter (kept_of cf (path :: l)) idx = filter (kept_of cf l) (delete path idx).
Proof.
  intros Hp Hd. apply map_eq. intros q. apply option_eq. intros x.
  rewrite !map_lookup_filter_Some, lookup_delete_Some. unfold kept_of. simpl.
  rewrite elem_of_cons. split.
  - intros [Hq Hk]. split; [|naive_solver]. split; [|done]. intros <-. naive_solver.
  - intros [[Hne Hq] Hk]. split; [done|]. naive_solver.
Qed.

Lemma sum_among_cons (path : bytes) (l : list bytes) (idx : gmap bytes indexEntry) ie :
  path ∉ l -> idx !! path = Some ie ->
  map_sum entryStoredSize (filter (among (path :: l)) idx) =
  entryStoredSize ie + map_sum entryStoredSize (filter (among l) idx).
Proof.
  intros Hn Hp. rewrite <-map_sum_insert_None with (k := path).
  - f_equal. apply map_eq. intros q. apply option_eq. intros x.
    rewrite lookup_insert_Some, !map_lookup_filter_Some. unfold among. simpl.
    rewrite elem_of_cons. split.
    + intros [Hq [->|Hl]]; [left; split; [done|congruence]|right].
      split; [|done]. intros <-. done.
    + intros [[<- <-]|[Hne [Hq Hl]]]; [split; [done|by left]|split; [done|by right]].
  - apply map_lookup_filter_None. right. intros x _. unfold among. by simpl.
Qed.

Lemma sum_among_skip (path : bytes) (l : list bytes) (idx : gmap bytes indexEntry) :
  idx !! path = None -> filter (among (path :: l)) idx = filter (among l) idx.
Proof.
  intros Hp. apply map_filter_ext. intros q x Hq. unfold among. simpl.
  rewrite elem_of_cons. split; [intros [->|]; [congruence|done]|by right].
Qed.

(** Every plain entry has its object file. *)
Definition plain_stored (cf : Config) (idx : gmap bytes indexEntry) (o : gmap bytes bytes) : Prop :=
  forall p ie, idx !! p = Some ie -> pooled ie = false -> is_Some (o !! objectPath cf p).

Lemma account_fold (cf : Config) (l : list bytes) idx o n d :
  cfg_ok cf -> (forall p, is_Some (idx !! p) -> rel_clean p) -> NoDup l -> plain_stored cf idx o ->
  exists o' d', foldl (accountStep cf) (idx, o, n, d) l =
      (filter (kept_of cf l) idx, o',
       n + map_sum entryStoredSize (filter (among l) (filter (kept_of cf l) idx)), d') /\
    forall p ie, filter (kept_of cf l) idx !! p = Some ie -> o' !! objectPath cf p = o !! objectPath cf p.
Proof.
  intros Hc Hrel Hnd. revert idx o n d Hrel.
  induction Hnd as [|path l Hni Hnd IH]; intros idx o n d Hrel Hst.
  { exists o, d. simpl. rewrite map_filter_id; [|unfold kept_of; set_solver].
    split; [|done]. replace (filter (among []) idx) with (∅ : gmap bytes indexEntry).
    - rewrite map_sum_empty. by rewrite Z.add_0_r.
    - symmetry. apply map_empty_filter. intros p ie _. unfold among. simpl. set_solver. }
  cbn [foldl]. unfold accountStep at 2.
  destruct (idx !! path) as [ie|] eqn:Hp.
  2: { destruct (IH idx o n d Hrel Hst) as (o' & d' & E & Ho). exists o', d'.
       rewrite filter_kept_skip by (intros; congruence). rewrite E. split; [|done].
       rewrite (sum_among_skip path); [done|]. apply map_lookup_filter_None. by left. }
  fold (pooled ie).
  assert (Hkeep : dropped cf ie = false -> exists o' d',
    foldl (accountStep cf) (idx, o, n + entryStoredSize ie, d) l =
      (filter (kept_of cf (path :: l)) idx, o',
       n + map_sum entryStoredSize (filter (among (path :: l)) (filter (kept_of cf (path :: l)) idx)), d') /\
    forall p ie, filter (kept_of cf (path :: l)) idx !! p = Some ie ->
      o' !! objectPath cf p = o !! objectPath cf p).
  { intros Hd. destruct (IH idx o (n + entryStoredSize ie) d Hrel Hst) as (o' & d' & E & Ho).
    exists o', d'. rewrite filter_kept_skip by (intros; simplify_eq; done).
    rewrite E. split; [|done]. rewrite (sum_among_cons path l _ ie); [by rewrite Z.add_assoc|done|].
    apply map_lookup_filter_Some. split; [done|]. unfold kept_of. simpl. naive_solver. }
  unfold dropped in Hkeep. destruct (pooled ie) eqn:Hpl; simpl in Hkeep |- *; [by apply Hkeep|].
  rewrite (bool_decide_eq_true_2 (is_Some (o !! objectPath cf path))) by (by eapply Hst).
  simpl. destruct (_ && _) eqn:Hov; [|by apply Hkeep]. clear Hkeep.
  destruct (IH (delete path idx) (delete (objectPath cf path) o) n true) as (o' & d' & E & Ho).
  { intros p [x [_ ?]%lookup_delete_Some]. eauto. }
  { intros p ie' [Hne Hp']%lookup_delete_Some Hpl'. rewrite lookup_delete_ne; [by eapply Hst|].
    intros E. apply Hne. eapply objectPath_inj; [apply Hc|..|exact E]; eauto. }
  exists o', d'. assert (Hdr : dropped cf ie = true) by (unfold dropped; by rewrite Hpl, Hov).
  rewrite (filter_kept_drop cf path l idx ie Hp Hdr), E. split.
  - rewrite (sum_among_skip path); [done|]. apply map_lookup_filter_None. left. apply lookup_delete_eq.
  - intros p ie' Hp'. rewrite (Ho p ie' Hp'). apply map_lookup_filter_Some in Hp' as [[Hne Hp']%lookup_delete_Some _].
    rewrite lookup_delete_ne; [done|]. intros E'. apply Hne.
    eapply objectPath_inj; [apply Hc|..|exact E']; eauto.
Qed.

Lemma filter_kept_all (cf : Config) (l : list bytes) (idx : gmap bytes indexEntry) :
  (forall p, is_Some (idx !! p) -> p ∈ l) ->
  filter (among l) (filter (kept_of cf l) idx) = filter (kept_of cf l) idx /\
  filter (kept_of cf l) idx = filter (fun x => dropped cf x.2 = false) idx.
Proof.
  intros Hl. split.
  - apply map_filter_id. intros p ie [Hp _]%map_lookup_filter_Some. unfold among. simpl. eauto.
  - apply map_filter_ext. intros p ie Hp. unfold kept_of. simpl.
    assert (p ∈ l) by eauto. destruct (dropped cf ie); naive_solver.
Qed.

(** ** The heap *)

Lemma fillHeap_spec idx (order : list bytes) h :
  heap_wf h ->
  heap_wf (fillHeap h idx order) /\ bucket (fillHeap h idx order) = bucket h /\
  (forall x, x ∈ items h -> x ∈ items (fillHeap h idx order)) /\
  forall p ie, p ∈ order -> idx !! p = Some ie -> heapItem p ie ∈ items (fillHeap h idx order).
Proof.
  revert h. induction order as [|q order IH]; intros h Hw.
  { split_and!; try done. intros p ie Hp. by apply not_elem_of_nil in Hp. }
  change (fillHeap h idx (q :: order)) with
    (fillHeap (match idx !! q with
               | Some ie => push h q (entryStoredSize ie) (ie_ModTimeMicro ie)
               | None => h end) idx order).
  destruct (idx !! q) as [ieq|] eqn:Hq.
  - destruct (IH (push h q (entryStoredSize ieq) (ie_ModTimeMicro ieq))) as (H1 & H2 & H3 & H4);
      [auto with gocache|].
    split; [done|]. split; [done|]. split.
    + intros x Hx. apply H3. rewrite push_items. by right.
    + intros p ie [->|Hp]%elem_of_cons Hi; [|by apply H4].
      assert (ie = ieq) as -> by congruence. apply H3. rewrite push_items. by left.
  - destruct (IH h Hw) as (H1 & H2 & H3 & H4). split_and!; try done.
    intros p ie [->|Hp]%elem_of_cons Hi; [congruence|by apply H4].
Qed.

(** ** Durability *)

(** The contents that survive opening under a configuration. *)
Definition survivors (cf : Config) (a : Contents) : Contents :=
  filter (fun x => dropped cf x.2.1 = false) a.

Lemma survivors_index (cf : Config) (a : Contents) :
  filter (fun x => dropped cf x.2 = false) (fst <$> a) = fst <$> survivors cf a.
Proof.
  apply map_eq. intros p. apply option_eq. intros ie. unfold survivors.
  rewrite map_lookup_filter_Some, !lookup_fmap_Some. split.
  - intros [([ie' b] & <- & Hp) Hd]. exists (ie', b). split; [done|].
    by apply map_lookup_filter_Some.
  - intros ([ie' b] & <- & [Hp Hd]%map_lookup_filter_Some). split; [by exists (ie', b)|done].
Qed.

Lemma owned_survivors (cf : Config) (a : Contents) m : owned a m -> owned (survivors cf a) m.
Proof.
  intros [Hi Hj Ho]. split.
  - intros p ie b [Hp _]%map_lookup_filter_Some. by apply (Hi p).
  - intros p p' ie ie' b b' [Hp _]%map_lookup_filter_Some [Hp' _]%map_lookup_filter_Some. by eapply Hj.
  - intros k b Hk. destruct (Ho k b Hk) as (p & ie & Hp & Hpl & Hkey). exists p, ie.
    split; [|done]. apply map_lookup_filter_Some. split; [done|]. simpl. unfold dropped.
    by rewrite Hpl.
Qed.

(** The reconciled pool of a store that was closed. *)
Lemma reconcile_spec cf s a names order :
  holds cf s a -> maxRecordBytes (pool s) = DefaultMaxRecordBytes ->
  pageBytes (pool s) = DefaultPageBytes ->
  (forall x, x ∈ names <-> is_Some (disk (pool s) !! x)) -> range_of (index s) order ->
  exists p, reconcilePoolLocked (New DefaultMaxRecordBytes DefaultPageBytes (disk (pool s)))
      (index s) (Ok (map (fun x => (x, false, None)) names)) order = Ok (p, index s, false) /\
    wf p /\ exists m, models p m /\ owned a m.
Proof.
  intros Hh Hmax Hpb Hnames [_ Ho]. destruct (hd_pool _ _ _ Hh) as (m & Hm & Hown).
  assert (Hkeys : forall k, k ∈ notedKeys (index s) order <-> is_Some (m !! k)).
  { intros k. rewrite notedKeys_spec by done. split.
    - intros (p & ie & Hp & Hpl & <-). rewrite (lookup_index cf s a) in Hp by done.
      destruct (a !! p) as [[ie' b]|] eqn:E; [|done]. injection Hp as ->.
      rewrite (ow_in _ _ Hown _ _ _ E Hpl). eauto.
    - intros [b Hb]. destruct (ow_out _ _ Hown _ _ Hb) as (p & ie & Hp & Hpl & Hk).
      exists p, ie. by rewrite (lookup_index cf s a), Hp. }
  destruct (restart_spec (pool s) m names (notedKeys (index s) order) (hd_wf _ _ _ Hh) Hm Hnames Hkeys)
    as (p1 & Hd & Hv & Hw & Hmod).
  rewrite Hmax, Hpb in Hd.
  destruct (reconcile_fold p1 p1 (index s) false order eq_refl) as (p' & E & Hcore).
  { intros path ie Hp. destruct (pooled ie) eqn:Hpl.
    - apply Hv. apply notedKeys_spec; [done|]. eauto.
    - unfold Valid, IsZero, pooled in *. simpl. by destruct (ie_PoolPage ie =? 0). }
  unfold reconcilePoolLocked. rewrite Hd, E. eexists. split; [done|].
  assert (Hc2 := FinishReconcile_core _ _ (eq_sym Hcore)).
  split; [by eapply core_wf|]. exists m. split; [|done].
  by rewrite <-(core_view _ _ Hc2).
Qed.

(** The index file that [Close] relies on when nothing changed. *)
Definition index_saved `{JSON (gmap bytes indexEntry)} (s : Store) (old : option bytes) : Prop :=
  dirty s = false -> exists data, old = Some data /\ Unmarshal data = Ok (index s).

Lemma Close_spec `{JSON (gmap bytes indexEntry)} s old dk :
  ready s = true -> json_ok (index s) -> index_saved s old -> Close s old = Ok dk ->
  exists data, dk = mkDisk (Some data) (disk (pool s)) (objects s) /\ Unmarshal data = Ok (index s).
Proof.
  intros Hr Hj Hs. unfold Close. rewrite Hr. simpl. destruct (dirty s) eqn:Hd; simpl.
  - destruct (Unmarshal_Marshal _ Hj) as (data & -> & _ & Hu). intros [= <-]. eauto.
  - intros [= <-]. destruct (Hs Hd) as (data & -> & Hu). eauto.
Qed.

(** The opened store before its eviction pass. *)
Lemma opened_repr cf s a p o' d o3 :
  cfg_ok cf -> holds cf s a -> wf p -> (exists m, models p m /\ owned a m) ->
  (forall q ie, (fst <$> survivors cf a) !! q = Some ie ->
     o' !! objectPath cf q = objects s !! objectPath cf q) ->
  range_of (fst <$> survivors cf a) o3 ->
  repr cf (mkStore (fst <$> survivors cf a) d false
             (map_sum entryStoredSize (fst <$> survivors cf a)) false p
             (fillHeap (newEvictionHeap (cf_evictionBucket cf)) (fst <$> survivors cf a) o3)
             o' 0 0 0 0) (survivors cf a).
Proof.
  intros Hc Hh Hw (m & Hm & Hown) Ho [_ Hr3].
  destruct (fillHeap_spec (fst <$> survivors cf a) o3 (newEvictionHeap (cf_evictionBucket cf)))
    as (H1 & H2 & _ & H4); [auto with gocache|].
  split; [split|split]; simpl; try done.
  - intros q ie b [Hq _]%map_lookup_filter_Some. by eapply (hd_size _ _ _ Hh).
  - intros q [x [Hq _]%map_lookup_filter_Some]. eapply (hd_path _ _ _ Hh). eauto.
  - intros q ie b Hq Hpl. rewrite (Ho q ie) by (by rewrite lookup_fmap, Hq).
    apply map_lookup_filter_Some in Hq as [Hq _]. by eapply (hd_plain _ _ _ Hh).
  - exists m. split; [done|]. by apply owned_survivors.
  - intros q ie Hq. apply H4; [|done]. apply Hr3. eauto.
Qed.

(** C14: durability.  A store that is closed and opened again over the files it
    left -- with any order of ranging over the index -- holds what it held: every
    entry with its metadata and bytes, pool-backed or plain, the accounting equal
    to their sum.  What is missing was over the (possibly new) file size limit, or
    was evicted in eviction order because the (possibly new) budget asks for it. *)
Theorem NewStore_after_Close `{JSON (gmap bytes indexEntry)} cf s a old dk names o1 o2 o3
    (Hc : cfg_ok cf) (Hh : holds cf s a) (Hready : ready s = true)
    (Hj : json_ok (index s)) (Hold : index_saved s old) (Hclose : Close s old = Ok dk)
    (Hmax : maxRecordBytes (pool s) = DefaultMaxRecordBytes)
    (Hpb : pageBytes (pool s) = DefaultPageBytes)
    (Hnames : forall x, x ∈ names <-> is_Some (dk_records dk !! x))
    (Ho1 : range_of (index s) o1) (Ho2 : range_of (index s) o2)
    (Ho3 : range_of (fst <$> survivors cf a) o3) :
  exists s' a', NewStore cf dk (Ok (map (fun x => (x, false, None)) names)) o1 o2 o3 = Ok s' /\
    repr cf s' a' /\ evicted_to cf (survivors cf a) a' /\
    (0 < cf_maxDiskBytes cf -> DiskBytes s' <= cf_maxDiskBytes cf) /\
    (map_sum entryStoredSize (fst <$> survivors cf a) <= cf_maxDiskBytes cf -> a' = survivors cf a).
Proof.
  destruct (Close_spec s old dk Hready Hj Hold Hclose) as (data & -> & Hu). simpl in Hnames.
  destruct (reconcile_spec cf s a names o1 Hh Hmax Hpb Hnames Ho1) as (p & Hrec & Hwp & Hmod).
  unfold NewStore. cbn [dk_index dk_records dk_objects]. rewrite Hu, Hrec. cbn iota beta.
  destruct (account_fold cf o2 (index s) (objects s) 0 false Hc) as (o' & d' & E & Ho).
  { intros q [ie Hq]. rewrite (lookup_index cf s a) in Hq by done.
    eapply (hd_path _ _ _ Hh). destruct (a !! q); [eauto|done]. }
  { apply Ho2. }
  { intros q ie Hq Hpl. rewrite (lookup_index cf s a) in Hq by done.
    destruct (a !! q) as [[ie' b]|] eqn:Eq; [|done]. injection Hq as ->.
    eexists. by eapply (hd_plain _ _ _ Hh). }
  destruct (filter_kept_all cf o2 (index s)) as [F1 F2]; [intros q; apply Ho2|].
  rewrite F1, F2 in E. rewrite F2 in Ho.
  rewrite (hd_index _ _ _ Hh), survivors_index in E, Ho.
  rewrite (hd_index _ _ _ Hh), E. rewrite Z.add_0_l.
  set (s0 := mkStore _ d' _ _ _ _ _ _ _ _ _ _).
  assert (Hr0 : repr cf s0 (survivors cf a)) by (by apply (opened_repr cf s)).
  destruct (evictIfNeeded_spec cf s0 _ Hc Hr0) as (a' & Hr' & He & Hb & Hn).
  eexists _, a'. split; [done|]. split; [by destruct Hr' as [[] []]|]. split; [done|].
  split; [exact Hb|]. intros Hfit. destruct Hn as [->|(q & ie & b & _ & _ & _ & Hlt)]; [done|].
  simpl in Hlt. lia.
Qed.

(** A broken entry leaves with its storage: [removeBrokenEntry] takes the
    entry out of the index, its size off the accounting, and its slot or file off
    the disk, and every other entry keeps its bytes. *)
Theorem removeBrokenEntry_spec cf s a p ie b
    (Hc : cfg_ok cf) (Hr : repr cf s a) (Hp : a !! p = Some (ie, b)) :
  repr cf (removeBrokenEntry cf s p ie) (delete p a) /\
  DiskBytes (removeBrokenEntry cf s p ie) = DiskBytes s - entryStoredSize ie.
Proof.
  unfold removeBrokenEntry. rewrite (lookup_index cf s a), Hp by apply Hr.
  by apply (repr_remove cf s a p ie b).
Qed.

(** [ExistingPaths] answers exactly the asked paths the store holds, so a
    client that skips them loses nothing and one that sends the rest sends nothing
    twice. *)
Theorem ExistingPaths_spec cf s a paths p (Hr : repr cf s a) :
  p ∈ ExistingPaths cf s paths <-> p ∈ paths /\ is_Some (a !! p).
Proof.
  destruct Hr as [Hh _]. unfold ExistingPaths.
  rewrite elem_of_app, !list_elem_of_filter, (lookup_index cf s a) by done.
  destruct (a !! p) as [[ie b]|] eqn:Hp; simpl.
  - fold (pooled ie). destruct (pooled ie) eqn:Hpl.
    + split; [intros [[_ ?]|(_ & _ & ?)]; (split; [done|by eexists])|naive_solver].
    + assert (E : (ie_PoolPage ie =? 0) = true) by (by apply negb_false_iff).
      rewrite E, (hd_plain _ _ _ Hh p ie b) by done.
      rewrite bool_decide_eq_true_2 by eauto.
      split; [intros [[? _]|(_ & _ & ?)]; (done || (split; [done|by eexists]))|naive_solver].
  - split; [|by intros [_ [? ?]]]. intros [[? _]|(_ & ? & _)]; done.
Qed.

(** ** Witnesses *)

Abbreviation oneContents := ({[ #"aa/x" := (nineEntry, #"ninebytes") ]} : Contents).

(** A changed store with one plain object, over the default pool. *)
Definition oneStore : Store :=
  mkStore {[ #"aa/x" := nineEntry ]} true true 9 false
    (New DefaultMaxRecordBytes DefaultPageBytes ∅) (newEvictionHeap 0)
    {[ objectPath exampleConfig #"aa/x" := #"ninebytes" ]} 0 0 0 0.

Lemma example_config_ok : cfg_ok exampleConfig.
Proof.
  split; [|by left]. exists [ #"srv"; #"cache" ]. split; [done|].
  split; [|done]. repeat constructor; apply proper_decide; vm_compute; reflexivity.
Qed.

Lemma one_holds : holds exampleConfig oneStore oneContents.
Proof.
  split.
  - by rewrite map_fmap_singleton.
  - vm_compute. reflexivity.
  - intros p ie b [<- [= <- <-]]%lookup_singleton_Some. done.
  - intros p [x [<- _]%lookup_singleton_Some]. apply example_rel_clean.
  - intros p ie b [<- [= <- <-]]%lookup_singleton_Some _. apply lookup_singleton_eq.
  - by apply wf_empty.
  - exists ∅. split; [apply models_New|]. split.
    + by intros p ie b [<- [= <- <-]]%lookup_singleton_Some.
    + intros p p' ie ie' b b' [<- _]%lookup_singleton_Some [<- _]%lookup_singleton_Some. done.
    + done.
Qed.

Lemma range_of_one (ie : indexEntry) : range_of {[ #"aa/x" := ie ]} [ #"aa/x" ].
Proof.
  split; [apply NoDup_singleton|]. intros p. rewrite list_elem_of_singleton. split.
  - intros ->. rewrite lookup_singleton_eq. eauto.
  - by intros [x [<- _]%lookup_singleton_Some].
Qed.

Definition indexJSON : JSON (gmap bytes indexEntry) := tableJSON [index oneStore].

Lemma NewStore_after_Close_witness :
  exists dk s', Close (H := indexJSON) oneStore None = Ok dk /\
    NewStore (H := indexJSON) exampleConfig dk (Ok []) [ #"aa/x" ] [ #"aa/x" ] [ #"aa/x" ] = Ok s' /\
    repr exampleConfig s' oneContents.
Proof.
  assert (Hsv : survivors exampleConfig oneContents = oneContents) by (vm_compute; reflexivity).
  exists (mkDisk (Some (itoa 0)) ∅ (objects oneStore)).
  destruct (NewStore_after_Close (H := indexJSON) exampleConfig oneStore oneContents None
    (mkDisk (Some (itoa 0)) ∅ (objects oneStore)) [] [ #"aa/x" ] [ #"aa/x" ] [ #"aa/x" ])
    as (s' & a' & Hn & Hr & _ & _ & Ha).
  - apply example_config_ok.
  - apply one_holds.
  - reflexivity.
  - apply list_elem_of_singleton. reflexivity.
  - discriminate.
  - vm_compute. reflexivity.
  - reflexivity.
  - reflexivity.
  - intros x. cbn [dk_records]. rewrite lookup_empty.
    split; [intros Hx%elem_of_nil; destruct Hx|intros [? ?]; discriminate].
  - apply range_of_one.
  - apply range_of_one.
  - rewrite Hsv, map_fmap_singleton. apply range_of_one.
  - exists s'. split; [vm_compute; reflexivity|]. split; [exact Hn|]. rewrite <-Hsv, <-Ha; [done|].
    rewrite Hsv. vm_compute. discriminate.
Defined.

Lemma removeBrokenEntry_spec_witness :
  DiskBytes (removeBrokenEntry tightConfig tightStore #"aa/x" nineEntry) = 0 /\
  repr tightConfig (removeBrokenEntry tightConfig tightStore #"aa/x" nineEntry)
    (delete #"aa/x" {[ #"aa/x" := (nineEntry, #"ninebytes") ]}).
Proof.
  destruct (removeBrokenEntry_spec tightConfig tightStore _ #"aa/x" nineEntry #"ninebytes"
    example_cfg_ok tight_repr) as [H1 H2].
  - apply lookup_singleton_eq.
  - split; [rewrite H2; vm_compute; reflexivity|exact H1].
Defined.

Lemma ExistingPaths_spec_witness :
  ExistingPaths tightConfig tightStore [ #"bb/y"; #"aa/x" ] = [ #"aa/x" ] /\
  (#"aa/x" ∈ ExistingPaths tightConfig tightStore [ #"bb/y"; #"aa/x" ] <->
   #"aa/x" ∈ [ #"bb/y"; #"aa/x" ] /\
   is_Some (({[ #"aa/x" := (nineEntry, #"ninebytes") ]} : Contents) !! #"aa/x")).
Proof.
  split; [vm_compute; reflexivity|]. apply (ExistingPaths_spec tightConfig tightStore), tight_repr.
Defined.
