(* ===== verification/LocalStore.v ===== *)
(** The action cache of src/internal/local/store.go: an index from action ids to
    entries over content-addressed outputs that several actions may share.
    Getting, putting, reference counting, eviction, opening and closing, and the
    integrity check.  Requests run their phases as [dc.mu] delimits them; the
    clock, the faults of the file system and the order of Go's map ranges are
    arguments. *)
From S2P Require Import Prelude.
From S2P Require Import GoStrings.
From S2P Require Import GoPath.
From S2P Require Import RecordPool.
From S2P Require Import Wire.
From S2P Require Import CacheWire.

(** ** Data *)

Record indexEntry := mkEntry {
  ie_OutputID : bytes;
  ie_Size : Z;
  ie_TimeMicro : Z;
  ie_AccessTimeMicro : Z;
  ie_Compressed : Z;
  ie_WireSize : Z;
  ie_PoolPage : Z;
  ie_PoolSlot : Z;
}.

#[export] Instance indexEntry_eq_dec : EqDecision indexEntry.
Proof. solve_decision. Defined.

(** The options of [NewStore]. *)
Record Config := mkConfig {
  cf_dir : bytes;
  cf_compress : bool;
  cf_maxDiskBytes : Z;
  cf_maxFileBytes : Z;
  cf_manifestMaxAge : Z;
  cf_poolDisabled : bool;
}.

(** The fields of [Store] that account for the outputs, with the storage itself:
    the files under the cache directory and the record pool. *)
Record Outputs := mkOutputs {
  outputRefs : gmap bytes Z;
  outputSizes : gmap bytes Z;
  outputLocs : gmap bytes Loc;
  currentDiskBytes : Z;
  pool : Pool;
  files : gmap bytes bytes;
}.

Record Counters := mkCounters {
  hits : Z;
  misses : Z;
  puts : Z;
  putsExist : Z;
  putsCompleted : Z;
  errors : Z;
}.

Record Store := mkStore {
  index : gmap bytes indexEntry;
  outputs : Outputs;
  dirty : bool;
  ready : bool;
  evictionScheduled : bool;
  counters : Counters;
}.

Definition set_index (s : Store) (i : gmap bytes indexEntry) : Store :=
  mkStore i (outputs s) true (ready s) (evictionScheduled s) (counters s).
Definition set_outputs (s : Store) (o : Outputs) : Store :=
  mkStore (index s) o (dirty s) (ready s) (evictionScheduled s) (counters s).
Definition set_scheduled (s : Store) (b : bool) : Store :=
  mkStore (index s) (outputs s) (dirty s) (ready s) b (counters s).
Definition count (s : Store) (h m p pe pc e : Z) : Store :=
  let c := counters s in
  mkStore (index s) (outputs s) (dirty s) (ready s) (evictionScheduled s)
    (mkCounters (hits c + h) (misses c + m) (puts c + p) (putsExist c + pe) (putsCompleted c + pc)
       (errors c + e)).

Definition set_storage (o : Outputs) (p : Pool) (f : gmap bytes bytes) : Outputs :=
  mkOutputs (outputRefs o) (outputSizes o) (outputLocs o) (currentDiskBytes o) p f.

(** ** Files of outputs *)

(** [strings.ReplaceAll(outputID, "/", "_")]. *)
Definition outputName (outputID : bytes) : bytes :=
  map (fun c => if bool_decide (c = slash) then "_"%char else c) outputID.

Definition OutputFilename (cf : Config) (outputID : bytes) : bytes :=
  let name := outputName outputID in
  let prefix := if (2 <? length name)%nat then take 2 name else name in
  JoinPath [cf_dir cf; #"entries"; prefix; name].

Definition legacyOutputFilename (cf : Config) (outputID : bytes) : bytes :=
  JoinPath [cf_dir cf; outputName outputID].

Definition exists_file (fs : gmap bytes bytes) (path : bytes) : bool := bool_decide (is_Some (fs !! path)).

Definition outputPathForRead (cf : Config) (fs : gmap bytes bytes) (outputID : bytes) : bytes :=
  let path := OutputFilename cf outputID in
  if exists_file fs path then path
  else
    let legacy := legacyOutputFilename cf outputID in
    if exists_file fs legacy then legacy else path.

Definition entryStoredSize (ie : indexEntry) : Z :=
  if 0 <? ie_WireSize ie then ie_WireSize ie else ie_Size ie.

Definition entryLoc (ie : indexEntry) : Loc := mkLoc (ie_PoolPage ie) (ie_PoolSlot ie).

(** ** References *)

Definition refs (out : Outputs) (o : bytes) : Z := default 0 (outputRefs out !! o).

Definition addOutputRefLocked (out : Outputs) (o : bytes) (size : Z) (loc : Loc) : Outputs :=
  let out :=
    if refs out o =? 0 then
      mkOutputs (outputRefs out) (<[o := size]> (outputSizes out))
        (if IsZero loc then outputLocs out else <[o := loc]> (outputLocs out))
        (currentDiskBytes out + size) (pool out) (files out)
    else out in
  mkOutputs (<[o := refs out o + 1]> (outputRefs out)) (outputSizes out) (outputLocs out)
    (currentDiskBytes out) (pool out) (files out).

Definition releaseOutputRefLocked (cf : Config) (out : Outputs) (o : bytes) : Outputs :=
  let refCount := refs out o in
  if refCount <=? 1 then
    let size := default 0 (outputSizes out !! o) in
    match outputLocs out !! o with
    | Some loc =>
        mkOutputs (delete o (outputRefs out)) (delete o (outputSizes out)) (delete o (outputLocs out))
          (currentDiskBytes out - size) (Free (pool out) size loc) (files out)
    | None =>
        mkOutputs (delete o (outputRefs out)) (delete o (outputSizes out)) (outputLocs out)
          (currentDiskBytes out - size) (pool out)
          (delete (outputPathForRead cf (files out) o) (files out))
    end
  else
    mkOutputs (<[o := refCount - 1]> (outputRefs out)) (outputSizes out) (outputLocs out)
      (currentDiskBytes out) (pool out) (files out).

Definition replaceOutputRefLocked (cf : Config) (out : Outputs) (oldEntry newEntry : indexEntry)
    (newStoredSize : Z) (loc : Loc) : Outputs :=
  if bool_decide (ie_OutputID oldEntry = ie_OutputID newEntry) then
    let o := ie_OutputID oldEntry in
    let oldSize := default 0 (outputSizes out !! o) in
    mkOutputs (outputRefs out) (<[o := newStoredSize]> (outputSizes out)) (outputLocs out)
      (currentDiskBytes out + (newStoredSize - oldSize)) (pool out) (files out)
  else
    addOutputRefLocked (releaseOutputRefLocked cf out (ie_OutputID oldEntry))
      (ie_OutputID newEntry) newStoredSize loc.

(** ** Eviction *)

Definition lruTimeMicro (ie : indexEntry) : Z :=
  if negb (ie_AccessTimeMicro ie =? 0) then ie_AccessTimeMicro ie else ie_TimeMicro ie.

(** The scan for the least recently used entry, in the order of the range. *)
Definition lruStep (idx : gmap bytes indexEntry) (best : option (bytes * indexEntry)) (a : bytes)
    : option (bytes * indexEntry) :=
  match idx !! a with
  | None => best
  | Some ie =>
      match best with
      | None => Some (a, ie)
      | Some (_, be) => if lruTimeMicro ie <? lruTimeMicro be then Some (a, ie) else best
      end
  end.

Section evict.
Context (cf : Config) (range : gmap bytes indexEntry -> list bytes).

Definition evictOneLocked (s : Store) : Store * bool :=
  match foldl (lruStep (index s)) None (range (index s)) with
  | None => (s, false)
  | Some (a, ie) =>
      let s := set_index s (delete a (index s)) in
      (set_outputs s (releaseOutputRefLocked cf (outputs s) (ie_OutputID ie)), true)
  end.

Definition EvictOne := evictOneLocked.

Definition DiskBytes (s : Store) : Z := currentDiskBytes (outputs s).

Definition evictionMarginFraction : Z := 10.

(** Every round removes an index entry: the size of the index is enough fuel. *)
Fixpoint evictLoop (fuel : nat) (target : Z) (s : Store) : Store :=
  match fuel with
  | O => s
  | S fuel' =>
      if DiskBytes s <=? target then s
      else match evictOneLocked s with
           | (s, true) => evictLoop fuel' target s
           | (s, false) => s
           end
  end.

Definition evictIfNeededLocked (s : Store) : Store :=
  if (cf_maxDiskBytes cf <=? 0) || (DiskBytes s <=? cf_maxDiskBytes cf) then s
  else
    let target := cf_maxDiskBytes cf - Z.quot (cf_maxDiskBytes cf) evictionMarginFraction in
    evictLoop (S (size (index s))) target s.

Definition EvictNow := evictIfNeededLocked.

(** [scheduleEvictionLocked]: whether the timer is started. *)
Definition scheduleEvictionLocked (s : Store) : Store :=
  if evictionScheduled s then s
  else if (cf_manifestMaxAge cf <=? 0) &&
          ((cf_maxDiskBytes cf <=? 0) || (DiskBytes s <=? cf_maxDiskBytes cf)) then s
  else set_scheduled s true.

(** What the timer runs under the lock. *)
Definition evictionTimer (s : Store) : Store := evictIfNeededLocked (set_scheduled s false).
End evict.

(** ** Getting *)

(** [poolBodyReader]. *)
Definition poolBodyReader (out : Outputs) (ie : indexEntry) : result stream :=
  let? b := Read (pool out) (entryStoredSize ie) (entryLoc ie) in Ok (fromBytes b).

Definition responseItem (cf : Config) (out : Outputs) (actionID : bytes) (ie : indexEntry) : ResponseItem :=
  let meta disk := mkResponseMeta actionID false (ie_OutputID ie) (ie_Size ie) (Some (ie_TimeMicro ie))
                     (ie_Compressed ie =? 1) (ie_WireSize ie) disk in
  if negb (ie_PoolPage ie =? 0) then
    ItemSetBodyReader (mkResponseItem (meta []) None) (poolBodyReader out ie)
  else mkResponseItem (meta (outputPathForRead cf (files out) (ie_OutputID ie))) None.

Definition missItem (actionID : bytes) : ResponseItem :=
  mkResponseItem (mkResponseMeta actionID true [] 0 None false 0 []) None.

Definition touch (ie : indexEntry) (now : Z) : indexEntry :=
  mkEntry (ie_OutputID ie) (ie_Size ie) (ie_TimeMicro ie) now (ie_Compressed ie) (ie_WireSize ie)
    (ie_PoolPage ie) (ie_PoolSlot ie).

Definition getOne (cf : Config) (s : Store) (actionID : bytes) (now : Z) : Store * ResponseItem :=
  match index s !! actionID with
  | None => (count s 0 1 0 0 0 0, missItem actionID)
  | Some ie =>
      if (0 <? cf_maxFileBytes cf) && (cf_maxFileBytes cf <? ie_Size ie) then
        (count s 0 1 0 0 0 0, missItem actionID)
      else
        let ie := touch ie now in
        let s := set_index (count s 1 0 0 0 0 0) (<[actionID := ie]> (index s)) in
        (s, responseItem cf (outputs s) actionID ie)
  end.

(** [get]: the items of a request, in its order; every one has its time. *)
Fixpoint get (cf : Config) (s : Store) (req : list (bytes * Z)) : Store * list ResponseItem :=
  match req with
  | [] => (s, [])
  | (actionID, now) :: req =>
      let '(s, item) := getOne cf s actionID now in
      let '(s, items) := get cf s req in
      (s, item :: items)
  end.

Definition Get := get.

(** ** Putting *)

(** Where writing a file fails. *)
Inductive writeFault := WMkdir | WCreate | WCopy | WClose | WRename.

(** [writeAtomic]: temp file, then rename; a failure leaves the files alone. *)
Definition writeAtomic (fs : gmap bytes bytes) (path : bytes) (rd : option stream)
    (flt : option (writeFault * goerr)) : gmap bytes bytes * result Z :=
  match flt with
  | Some (WMkdir, e) | Some (WCreate, e) => (fs, Err e)
  | _ =>
    match rd with
    | Some (mkStream _ (Some e)) => (fs, Err e)
    | _ =>
      match flt with
      | Some (_, e) => (fs, Err e)
      | None =>
          let data := match rd with Some rd => st_data rd | None => [] end in
          (<[path := data]> fs, Ok (blen data))
      end
    end
  end.

(** What a put meets. *)
Record putArgs := mkPutArgs {
  pa_now : Z;
  pa_pid : bytes;
  pa_pool : putFaults;
  pa_write : option (writeFault * goerr);
}.

Definition MinCompressionSize : Z := 200.

Definition with_compressed (ie : indexEntry) (wireSize : Z) : indexEntry :=
  mkEntry (ie_OutputID ie) (ie_Size ie) (ie_TimeMicro ie) (ie_AccessTimeMicro ie) 1 wireSize
    (ie_PoolPage ie) (ie_PoolSlot ie).

Definition with_loc (ie : indexEntry) (l : Loc) : indexEntry :=
  mkEntry (ie_OutputID ie) (ie_Size ie) (ie_TimeMicro ie) (ie_AccessTimeMicro ie) (ie_Compressed ie)
    (ie_WireSize ie) (Page l) (Slot l).

(** One entry of the report: the action, the entry, the error, whether removed. *)
Abbreviation brokenEntry := (bytes * indexEntry * goerr * bool)%type.

Section put.
Context `{Zstd} (cf : Config).

Definition compressNowBodyReader (item : ResponseItem) (ie : indexEntry)
    : result (indexEntry * option stream) :=
  match snd (ItemCompressedBodyReader item) with
  | Err e => Err e
  | Ok None => Err (EPanic "nil reader")
  | Ok (Some rd) =>
      let? compressed := ReadAll rd in
      Ok (with_compressed ie (blen compressed), Some (fromBytes compressed))
  end.

Definition bodyReaderForPut (item : ResponseItem) (compress : bool) (ie : indexEntry)
    : result (indexEntry * option stream) :=
  let m := ri_meta item in
  let plain := let? rd := ItemUncompressedBodyReader item in Ok (ie, rd) in
  if ri_IsCompressed m then
    if negb compress then plain
    else let? rd := ItemWireBodyReader item in Ok (with_compressed ie (ri_WireSize m), rd)
  else if compress && (MinCompressionSize <=? ri_Size m) then compressNowBodyReader item ie
  else plain.

(** [storePoolEligibleBody]. *)
Definition storePoolEligibleBody (out : Outputs) (item : ResponseItem) (rd : option stream)
    (size : Z) (a : putArgs) : Outputs * result Loc :=
  match rd with
  | None => (out, Err (EPanic "nil reader"))
  | Some rd =>
    match ReadAll rd with
    | Err e => (out, Err e)
    | Ok body =>
      if negb (blen body =? size) then (out, Err (EMsg "put body length does not match"))
      else match Put (pool out) (pa_pid a) size body (pa_pool a) with
      | (p, Err e) => (set_storage out p (files out), Err e)
      | (p, Ok (Some l)) => (set_storage out p (files out), Ok l)
      | (p, Ok None) =>
          match writeAtomic (files out) (OutputFilename cf (ri_OutputID (ri_meta item)))
                  (Some (fromBytes body)) (pa_write a) with
          | (fs, Err e) => (set_storage out p fs, Err e)
          | (fs, Ok _) => (set_storage out p fs, Ok zeroLoc)
          end
      end
    end
  end.

Definition storePutBody (out : Outputs) (item : ResponseItem) (rd : option stream) (size : Z)
    (outputRefExists : bool) (existingOutputLoc : Loc) (a : putArgs) : Outputs * result Loc :=
  if outputRefExists then
    match rd with
    | Some (mkStream _ (Some e)) => (out, Err e)
    | _ => (out, Ok existingOutputLoc)
    end
  else if negb (cf_poolDisabled cf) && (0 <? size) && (size <=? maxRecordBytes (pool out)) then
    storePoolEligibleBody out item rd size a
  else
    let path := OutputFilename cf (ri_OutputID (ri_meta item)) in
    match writeAtomic (files out) path rd (pa_write a) with
    | (fs, Err e) => (set_storage out (pool out) fs, Err e)
    | (fs, Ok n) =>
        if negb (n =? size) then
          (set_storage out (pool out) (delete path fs), Err (EMsg "put body length does not match"))
        else (set_storage out (pool out) fs, Ok zeroLoc)
    end.

(** What the first phase of [putOne] reads under the lock. *)
Record putView := mkPutView {
  pv_existing : option indexEntry;
  pv_outputLoc : Loc;
  pv_outputRefExists : bool;
}.

Definition putLookup (s : Store) (item : ResponseItem) : putView :=
  let o := ri_OutputID (ri_meta item) in
  mkPutView (index s !! ri_ActionID (ri_meta item)) (default zeroLoc (outputLocs (outputs s) !! o))
    (bool_decide (is_Some (outputRefs (outputs s) !! o))).

Definition newEntry (item : ResponseItem) (now : Z) : indexEntry :=
  mkEntry (ri_OutputID (ri_meta item)) (ri_Size (ri_meta item)) now now 0 0 0 0.

(** The phase without the lock: the body goes to its place. *)
Definition putBody (s : Store) (item : ResponseItem) (v : putView) (a : putArgs)
    : Store * result indexEntry :=
  match bodyReaderForPut item (cf_compress cf) (newEntry item (pa_now a)) with
  | Err e => (count s 0 0 0 0 0 1, Err e)
  | Ok (ie, rd) =>
      match storePutBody (outputs s) item rd (entryStoredSize ie) (pv_outputRefExists v)
              (pv_outputLoc v) a with
      | (out, Err e) => (count (set_outputs s out) 0 0 0 0 0 1, Err e)
      | (out, Ok loc) => (set_outputs s out, Ok (with_loc ie loc))
      end
  end.

(** The last phase, under the lock. *)
Definition putCommit (s : Store) (actionID : bytes) (v : putView) (ie : indexEntry) : Store :=
  let size := entryStoredSize ie in
  let out := match pv_existing v with
             | Some ex => replaceOutputRefLocked cf (outputs s) ex ie size (entryLoc ie)
             | None => addOutputRefLocked (outputs s) (ie_OutputID ie) size (entryLoc ie)
             end in
  let s := set_index (set_outputs s out) (<[actionID := ie]> (index s)) in
  count (scheduleEvictionLocked cf s) 0 0 0 0 1 0.

Definition putOne (s : Store) (item : ResponseItem) (a : putArgs) : Store * result unit :=
  let m := ri_meta item in
  if (0 <? cf_maxFileBytes cf) && (cf_maxFileBytes cf <? ri_Size m) then (s, Ok tt)
  else if bool_decide (ri_OutputID m = []) then
    (count s 0 0 0 0 0 1, Err (EMsg "empty output id"))
  else
    let v := putLookup s item in
    let s := count s 0 0 1 (match pv_existing v with Some _ => 1 | None => 0 end) 0 0 in
    match putBody s item v a with
    | (s, Err e) => (s, Err e)
    | (s, Ok ie) => (putCommit s (ri_ActionID m) v ie, Ok tt)
    end.

(** [Put]: the items of a response, up to the first that fails. *)
Fixpoint PutAll (s : Store) (items : list (ResponseItem * putArgs)) : Store * result unit :=
  match items with
  | [] => (s, Ok tt)
  | (item, a) :: items =>
      match putOne s item a with
      | (s, Err e) => (s, Err e)
      | (s, Ok _) => PutAll s items
      end
  end.

(** ** The integrity check *)

Definition verifyOutput (out : Outputs) (ie : indexEntry) : result unit :=
  let item := responseItem cf out [] ie in
  let item := ItemPrepareBodyReader item
                (fun p => match files out !! p with Some b => Ok (fromBytes b) | None => Err ENotExist end) in
  match ItemUncompressedBodyReader item with
  | Err e => Err e
  | Ok None => if negb (ie_Size ie =? 0) then Err (EMsg "missing body for non-empty entry") else Ok tt
  | Ok (Some rd) =>
      let? b := ReadAll rd in
      if negb (blen b =? ie_Size ie) then Err (EMsg "size mismatch") else Ok tt
  end.

(** [removeIfUnchanged]. *)
Definition removeIfUnchanged (s : Store) (actionID : bytes) (expected : indexEntry) : Store * bool :=
  match index s !! actionID with
  | Some current =>
      if bool_decide (current = expected) then
        let s := set_index s (delete actionID (index s)) in
        (set_outputs s (releaseOutputRefLocked cf (outputs s) (ie_OutputID expected)), true)
      else (s, false)
  | None => (s, false)
  end.

(** The scan over the snapshot; [verified] remembers the verdict per output. *)
Fixpoint integrityLoop (s : Store) (dryRun : bool) (verified : gmap bytes (result unit))
    (snapshot : list (bytes * indexEntry)) : Store * list brokenEntry :=
  match snapshot with
  | [] => (s, [])
  | (actionID, ie) :: snapshot =>
      let o := ie_OutputID ie in
      let verdict := match verified !! o with
                     | Some r => r
                     | None => verifyOutput (outputs s) ie
                     end in
      let verified := <[o := verdict]> verified in
      match verdict with
      | Ok _ => integrityLoop s dryRun verified snapshot
      | Err e =>
          let '(s, removed) := if dryRun then (s, false) else removeIfUnchanged s actionID ie in
          let '(s, broken) := integrityLoop s dryRun verified snapshot in
          (s, (actionID, ie, e, removed) :: broken)
      end
  end.

(** [IntegrityCheck]: the number of entries checked and those found broken. *)
Definition IntegrityCheck (range : gmap bytes indexEntry -> list bytes) (s : Store) (dryRun : bool)
    : Store * (Z * list brokenEntry) :=
  let snapshot := omap (fun a => (fun ie => (a, ie)) <$> index s !! a) (range (index s)) in
  let '(s, broken) := integrityLoop s dryRun ∅ snapshot in
  (s, (Z.of_nat (length snapshot), broken)).
End put.

(** [removeBrokenActionEntry]. *)
Definition removeBrokenActionEntry (cf : Config) (s : Store) (actionID : bytes) (ie : indexEntry) : Store :=
  match index s !! actionID with
  | None => s
  | Some _ =>
      set_index (set_outputs s (releaseOutputRefLocked cf (outputs s) (ie_OutputID ie)))
        (delete actionID (index s))
  end.

Definition HasEntries (s : Store) : bool := (0 <? size (index s))%nat.

(** ** Opening and closing *)

(** What a restart finds: the index file, the files of outputs, the records. *)
Record Disk := mkDisk {
  dk_index : option bytes;
  dk_files : gmap bytes bytes;
  dk_records : gmap bytes bytes;
}.

(** One round of [rebuildStorageState]'s loop over the index. *)
Definition rebuildStep (cf : Config) (st : gmap bytes indexEntry * Outputs * gset bytes * bool) (a : bytes)
    : gmap bytes indexEntry * Outputs * gset bytes * bool :=
  let '(idx, out, seen, d) := st in
  match idx !! a with
  | None => st
  | Some ie =>
      let size := entryStoredSize ie in
      let loc := entryLoc ie in
      let o := ie_OutputID ie in
      if negb (Valid (pool out) size loc) then (delete a idx, out, seen, true)
      else
        let rf := <[o := refs out o + 1]> (outputRefs out) in
        if bool_decide (o ∈ seen) then
          (idx, mkOutputs rf (outputSizes out) (outputLocs out) (currentDiskBytes out) (pool out) (files out),
           seen, d)
        else if IsZero loc then
          let fileSize := match files out !! outputPathForRead cf (files out) o with
                          | Some b => blen b
                          | None => size
                          end in
          (idx, mkOutputs rf (<[o := fileSize]> (outputSizes out)) (outputLocs out)
                  (currentDiskBytes out + fileSize) (NoteUnpromoted (pool out) size) (files out),
           {[o]} ∪ seen, d)
        else
          (idx, mkOutputs rf (<[o := size]> (outputSizes out)) (<[o := loc]> (outputLocs out))
                  (currentDiskBytes out + size) (NoteOccupied (pool out) size loc) (files out),
           {[o]} ∪ seen, d)
  end.

Section open.
Context `{JSON (gmap bytes indexEntry)}.

(** [NewStore]: [names] is what reading the records directory gives, [range] the
    order of the map range. *)
Definition NewStore (cf : Config) (dk : Disk) (names : result (list (bytes * bool * option goerr)))
    (range : gmap bytes indexEntry -> list bytes) : result Store :=
  let? idx := match dk_index dk with
              | None => Ok ∅
              | Some d => Unmarshal d
              end in
  let tooBig (kv : bytes * indexEntry) := (0 <? cf_maxFileBytes cf) && (cf_maxFileBytes cf <? ie_Size kv.2) = true in
  let idx' := filter (fun kv => ~ tooBig kv) idx in
  let d := negb (bool_decide (idx' = idx)) in
  let? p := DiscoverPages (New DefaultMaxRecordBytes DefaultPageBytes (dk_records dk)) names in
  let out := mkOutputs ∅ ∅ ∅ 0 p (dk_files dk) in
  let '(idx', out, _, d) := foldl (rebuildStep cf) (idx', out, ∅, d) (range idx') in
  let out := set_storage out (FinishReconcile (pool out)) (files out) in
  Ok (mkStore idx' out d true false (mkCounters 0 0 0 0 0 0)).

(** [Close]: the index is written when it changed; [old] is the file before. *)
Definition Close (s : Store) (old : option bytes) : result Disk :=
  let disk i := mkDisk i (files (outputs s)) (disk (pool (outputs s))) in
  if negb (ready s) || negb (dirty s) then Ok (disk old)
  else let? d := Marshal (index s) in Ok (disk (Some d)).
End open.

(** ** Counting references *)

Definition uses (idx : gmap bytes indexEntry) (o : bytes) : nat :=
  size (filter (fun kv : bytes * indexEntry => ie_OutputID kv.2 = o) idx).

Definition one_if (b : bool) : nat := if b then 1%nat else 0%nat.

Lemma uses_insert_new (idx : gmap bytes indexEntry) a ie o :
  idx !! a = None -> uses (<[a := ie]> idx) o = (one_if (bool_decide (ie_OutputID ie = o)) + uses idx o)%nat.
Proof.
  intros Ha. unfold uses. case_bool_decide as Ho; simpl.
  - rewrite map_filter_insert_True by done. apply map_size_insert_None.
    apply map_lookup_filter_None. left. done.
  - rewrite map_filter_insert_False by done. by rewrite delete_id.
Qed.

Lemma uses_delete (idx : gmap bytes indexEntry) a ie o :
  idx !! a = Some ie -> uses idx o = (one_if (bool_decide (ie_OutputID ie = o)) + uses (delete a idx) o)%nat.
Proof.
  intros Ha. rewrite <-(insert_delete_id idx a ie) at 1 by done.
  apply uses_insert_new, lookup_delete_eq.
Qed.

Lemma uses_replace (idx : gmap bytes indexEntry) a ie ie' o :
  idx !! a = Some ie ->
  (one_if (bool_decide (ie_OutputID ie = o)) + uses (<[a := ie']> idx) o =
   one_if (bool_decide (ie_OutputID ie' = o)) + uses idx o)%nat.
Proof.
  intros Ha. rewrite (uses_delete idx a ie o Ha). rewrite <-insert_delete_eq.
  rewrite uses_insert_new by apply lookup_delete_eq. lia.
Qed.

Lemma uses_pos (idx : gmap bytes indexEntry) a ie : idx !! a = Some ie -> uses idx (ie_OutputID ie) <> 0%nat.
Proof. intros Ha. rewrite (uses_delete idx a ie _ Ha), bool_decide_eq_true_2 by done. simpl. lia. Qed.

(** ** File names *)

(** An output id as the clients send it: no underscore, which a slash is turned
    into, and no dot. *)
Definition good_id (o : bytes) : Prop := o <> [] /\ ("_"%char ∉ o) /\ ("."%char ∉ o).

Lemma elem_of_prefix_take {A} (x : A) n l : x ∈ take n l -> x ∈ l.
Proof. intros Hx. rewrite <-(take_drop n l), elem_of_app. by left. Qed.

Lemma outputName_slash o : slash ∉ outputName o.
Proof.
  unfold outputName. intros (c & Hc & _)%list_elem_of_fmap. case_bool_decide; [discriminate Hc|done].
Qed.

Lemma outputName_inj o o' : good_id o -> good_id o' -> outputName o = outputName o' -> o = o'.
Proof.
  intros (_ & Hu & _) (_ & Hu' & _). revert o' Hu'. unfold outputName.
  induction o as [|c o IH]; intros [|c' o'] Hu'; simpl; try done. intros [= Hc Ho].
  apply not_elem_of_cons in Hu as [Hc1 Hu], Hu' as [Hc1' Hu']. f_equal; [|by apply IH].
  repeat case_bool_decide; congruence.
Qed.

Lemma no_dot_proper c : c <> [] -> "."%char ∉ c -> slash ∉ c -> proper c.
Proof.
  intros Hne Hd Hs. split; [done|]. split; [|split; [|done]]; intros ->; apply Hd, list_elem_of_here.
Qed.

Lemma outputName_dot o : good_id o -> "."%char ∉ outputName o.
Proof.
  intros (_ & _ & Hd) (c & Hc & Hin)%list_elem_of_fmap. case_bool_decide; [discriminate Hc|].
  by rewrite Hc in Hd.
Qed.

Lemma OutputFilename_at cf o :
  abs_dir (cf_dir cf) -> good_id o ->
  OutputFilename cf o = cf_dir cf ++ slash :: uncomps [ #"entries"; take 2 (outputName o); outputName o] /\
  Forall proper [ #"entries"; take 2 (outputName o); outputName o].
Proof.
  intros Hd Ho. assert (Hs := outputName_slash o). assert (Hdot := outputName_dot o Ho).
  assert (Hne : outputName o <> []) by (destruct Ho as [? _]; by destruct o).
  assert (Hp : Forall proper [ #"entries"; take 2 (outputName o); outputName o]).
  { rewrite !Forall_cons. split; [apply proper_decide; vm_compute; reflexivity|].
    split; [|split; [by apply no_dot_proper|done]]. apply no_dot_proper.
    - by destruct (outputName o).
    - intros Hx. apply Hdot. by eapply elem_of_prefix_take.
    - intros Hx. apply Hs. by eapply elem_of_prefix_take. }
  split; [|done]. unfold OutputFilename.
  assert (E : (if (2 <? length (outputName o))%nat then take 2 (outputName o) else outputName o)
    = take 2 (outputName o)).
  { destruct (Nat.ltb_spec 2 (length (outputName o))); [done|]. by rewrite take_ge. }
  rewrite E. by apply JoinPath_proper.
Qed.

Lemma OutputFilename_inj cf o o' :
  abs_dir (cf_dir cf) -> good_id o -> good_id o' -> OutputFilename cf o = OutputFilename cf o' -> o = o'.
Proof.
  intros Hd Ho Ho'. destruct (OutputFilename_at cf o Hd Ho) as [-> H1].
  destruct (OutputFilename_at cf o' Hd Ho') as [-> H2].
  intros E. apply app_inv_head, (inj (cons slash)) in E. apply outputName_inj; [done..|].
  apply (f_equal comps) in E. rewrite !comps_uncomps in E by (done || by apply proper_slash_free).
  by injection E.
Qed.

(** ** The invariant of the outputs *)

(** What the outputs promise: [bl] gives the stored bytes of every output that
    some action refers to, [cnt] how many do; [extra] are records of the pool that
    nothing refers to yet. *)
Record pool_owned (bl : gmap bytes bytes) (locs : gmap bytes Loc) (extra m : gmap (Z * Loc) bytes) : Prop := {
  po_extra k b : extra !! k = Some b -> m !! k = Some b;
  po_in o b l : bl !! o = Some b -> locs !! o = Some l ->
    m !! (blen b, l) = Some b /\ extra !! (blen b, l) = None;
  po_inj o o' b b' l : bl !! o = Some b -> bl !! o' = Some b' ->
    locs !! o = Some l -> locs !! o' = Some l -> blen b = blen b' -> o = o';
  po_out k b : m !! k = Some b ->
    extra !! k = Some b \/ exists o l, bl !! o = Some b /\ locs !! o = Some l /\ k = (blen b, l);
}.

Record outs_ok (cf : Config) (out : Outputs) (cnt : bytes -> nat) (bl : gmap bytes bytes)
    (extra : gmap (Z * Loc) bytes) : Prop := {
  oo_refs o : outputRefs out !! o = if (cnt o =? 0)%nat then None else Some (Z.of_nat (cnt o));
  oo_blobs o : is_Some (bl !! o) <-> cnt o <> 0%nat;
  oo_sizes : outputSizes out = blen <$> bl;
  oo_bytes : currentDiskBytes out = map_sum blen bl;
  oo_id o : is_Some (bl !! o) -> good_id o;
  oo_plain o b : bl !! o = Some b -> outputLocs out !! o = None ->
    files out !! OutputFilename cf o = Some b;
  oo_locs o l : outputLocs out !! o = Some l -> IsZero l = false /\ is_Some (bl !! o);
  oo_wf : wf (pool out);
  oo_pool : exists m, models (pool out) m /\ pool_owned bl (outputLocs out) extra m;
}.

Definition cnt_set (cnt : bytes -> nat) (o : bytes) (n : nat) (o' : bytes) : nat :=
  if bool_decide (o' = o) then n else cnt o'.

Lemma cnt_set_eq cnt o n : cnt_set cnt o n o = n.
Proof. unfold cnt_set. by rewrite bool_decide_eq_true_2. Qed.

Lemma cnt_set_ne cnt o n o' : o' <> o -> cnt_set cnt o n o' = cnt o'.
Proof. intros. unfold cnt_set. by rewrite bool_decide_eq_false_2. Qed.

Lemma outs_ok_ext cf out cnt cnt' bl extra :
  (forall o, cnt o = cnt' o) -> outs_ok cf out cnt bl extra -> outs_ok cf out cnt' bl extra.
Proof.
  intros E []. split; try done; intros o; rewrite <-E; done.
Qed.

Lemma refs_eq cf out cnt bl extra o : outs_ok cf out cnt bl extra -> refs out o = Z.of_nat (cnt o).
Proof.
  intros Ho. unfold refs. rewrite (oo_refs _ _ _ _ _ Ho). by destruct (Nat.eqb_spec (cnt o) 0) as [->|].
Qed.

Lemma pool_owned_delete (bl : gmap bytes bytes) locs extra m o b :
  pool_owned bl locs extra m -> bl !! o = Some b ->
  match locs !! o with
  | Some l => pool_owned (delete o bl) (delete o locs) extra (delete (blen b, l) m)
  | None => pool_owned (delete o bl) locs extra m
  end.
Proof.
  intros [He Hi Hj Ho] Hb. destruct (locs !! o) as [l|] eqn:El.
  - destruct (Hi o b l Hb El) as [Hm Hx]. split.
    + intros k c Hc. rewrite lookup_delete_ne; [by apply He|]. intros <-. congruence.
    + intros o' b' l' [Hne Hb']%lookup_delete_Some [_ Hl']%lookup_delete_Some.
      destruct (Hi o' b' l' Hb' Hl') as [Hm' Hx']. split; [|done]. rewrite lookup_delete_ne; [done|].
      intros E. injection E as E ->. apply Hne. by eapply Hj.
    + intros o1 o2 b1 b2 l' [_ ?]%lookup_delete_Some [_ ?]%lookup_delete_Some
        [_ ?]%lookup_delete_Some [_ ?]%lookup_delete_Some ?. by eapply Hj.
    + intros k c [Hne Hk]%lookup_delete_Some. apply Ho in Hk as [?|(o' & l' & Hb' & Hl' & ->)]; [by left|].
      right. exists o', l'. assert (o <> o') by (intros <-; apply Hne; congruence).
      by rewrite !lookup_delete_ne.
  - split.
    + done.
    + intros o' b' l' [_ ?]%lookup_delete_Some ?. by apply (Hi o').
    + intros o1 o2 b1 b2 l' [_ ?]%lookup_delete_Some [_ ?]%lookup_delete_Some ???. by eapply Hj.
    + intros k c Hk. apply Ho in Hk as [?|(o' & l' & Hb' & Hl' & ->)]; [by left|].
      right. exists o', l'. rewrite lookup_delete_ne; [done|]. intros <-. congruence.
Qed.

Definition plus_blob (bl : gmap bytes bytes) (b : bytes) (l : Loc) (extra : gmap (Z * Loc) bytes) : Prop :=
  (IsZero l = true /\ extra = ∅) \/ (IsZero l = false /\ extra = {[(blen b, l) := b]}).

Lemma pool_owned_insert (bl : gmap bytes bytes) locs extra m o b l :
  pool_owned bl locs extra m -> bl !! o = None -> locs !! o = None -> plus_blob bl b l extra ->
  pool_owned (<[o := b]> bl) (if IsZero l then locs else <[o := l]> locs) ∅ m.
Proof.
  intros [He Hi Hj Ho] Hb Hl [[-> ->]|[-> ->]].
  - split; [done| | |].
    + intros o' b' l' [[<- <-]|[Hne Hb']]%lookup_insert_Some Hl'; [congruence|]. by apply (Hi o').
    + intros o1 o2 b1 b2 l' [[<- <-]|[? ?]]%lookup_insert_Some [[<- <-]|[? ?]]%lookup_insert_Some ???;
        [done|congruence|congruence|by eapply Hj].
    + intros k c Hk. right. apply Ho in Hk as [?|(o' & l' & Hb' & Hl' & ->)]; [done|].
      exists o', l'. rewrite lookup_insert_ne; [done|]. intros <-. congruence.
  - assert (Hkey : forall o' b', bl !! o' = Some b' -> locs !! o' = Some l -> blen b' = blen b -> False).
    { intros o' b' Hb' Hl' E. destruct (Hi o' b' l Hb' Hl') as [_ Hx]. rewrite E in Hx.
      by rewrite lookup_singleton_eq in Hx. }
    split; [done| | |].
    + intros o' b' l' [[<- <-]|[Hne Hb']]%lookup_insert_Some Hl'.
      * rewrite lookup_insert_eq in Hl'. injection Hl' as <-. split; [|done]. apply He, lookup_singleton_eq.
      * rewrite lookup_insert_ne in Hl' by done. split; [|done]. by apply (Hi o').
    + intros o1 o2 b1 b2 l' H1 H2 L1 L2 E. destruct (decide (o1 = o)) as [->|N1], (decide (o2 = o)) as [->|N2];
        [done|exfalso|exfalso|]; rewrite ?lookup_insert_eq, ?lookup_insert_ne in * by done; simplify_eq.
      * by eapply (Hkey o2).
      * by eapply (Hkey o1).
      * by eapply Hj.
    + intros k c Hk. right. apply Ho in Hk as [Hk|(o' & l' & Hb' & Hl' & ->)].
      * apply lookup_singleton_Some in Hk as [<- <-]. exists o, l. by rewrite !lookup_insert_eq.
      * exists o', l'. rewrite !lookup_insert_ne; [done| |]; intros <-; congruence.
Qed.

(** Dropping the last reference releases the storage of the output; dropping
    another only counts. *)
Lemma release_ok cf out cnt bl extra o :
  abs_dir (cf_dir cf) -> outs_ok cf out cnt bl extra -> cnt o <> 0%nat ->
  let out' := releaseOutputRefLocked cf out o in
  outs_ok cf out' (cnt_set cnt o (cnt o - 1)%nat) (if (cnt o =? 1)%nat then delete o bl else bl) extra /\
  (forall o', o' <> o \/ cnt o <> 1%nat -> outputLocs out' !! o' = outputLocs out !! o') /\
  (forall p, p <> OutputFilename cf o -> files out' !! p = files out !! p) /\
  (cnt o = 1%nat -> outputLocs out' !! o = None).
Proof.
  intros Hd Ho Hc. simpl. unfold releaseOutputRefLocked. rewrite (refs_eq _ _ _ _ _ o Ho).
  destruct Ho as [H1 H2 H3 H4 H5 H6 H7 H8 (m & Hm & Hp)].
  destruct (proj2 (H2 o) Hc) as [b Hb].
  destruct (Z.leb_spec (Z.of_nat (cnt o)) 1) as [Hle|Hgt].
  - assert (Hc1 : cnt o = 1%nat) by lia. rewrite Hc1 in *. simpl.
    assert (Hsz : outputSizes out !! o = Some (blen b)) by (by rewrite H3, lookup_fmap, Hb).
    assert (Hrefs : forall o', delete o (outputRefs out) !! o' =
      if (cnt_set cnt o 0 o' =? 0)%nat then None else Some (Z.of_nat (cnt_set cnt o 0 o'))).
    { intros o'. destruct (decide (o' = o)) as [->|Hne].
      - by rewrite lookup_delete_eq, cnt_set_eq.
      - rewrite lookup_delete_ne by done. by rewrite cnt_set_ne. }
    assert (Hblobs : forall o', is_Some (delete o bl !! o') <-> cnt_set cnt o 0 o' <> 0%nat).
    { intros o'. destruct (decide (o' = o)) as [->|Hne].
      - rewrite lookup_delete_eq, cnt_set_eq. split; [by intros [? ?]|done].
      - rewrite lookup_delete_ne by done. rewrite cnt_set_ne by done. apply H2. }
    assert (Hids : forall o', is_Some (delete o bl !! o') -> good_id o').
    { intros o' [x [_ Hx]%lookup_delete_Some]. apply H5. eauto. }
    assert (Hown := pool_owned_delete _ _ _ _ _ _ Hp Hb).
    rewrite Hsz. simpl. destruct (outputLocs out !! o) as [l|] eqn:El.
    + destruct (po_in _ _ _ _ Hp o b l Hb El) as [Hmk _].
      destruct (Free_spec (pool out) (blen b) l m H8 Hm) as [Hw' Hm']; [by eexists|].
      split; [split; simpl; try done|].
      * by rewrite H3, fmap_delete.
      * by rewrite H4, (map_sum_delete _ _ _ b).
      * intros o' b' [Hne Hb']%lookup_delete_Some. rewrite lookup_delete_ne by done. by apply H6.
      * intros o' l' [Hne Hl']%lookup_delete_Some. rewrite lookup_delete_ne by done. by apply H7.
      * eauto.
      * split; [|split; [done|intros _; apply lookup_delete_eq]].
        intros o' [Hne|?]; [by apply lookup_delete_ne|done].
    + assert (Hpath : outputPathForRead cf (files out) o = OutputFilename cf o).
      { unfold outputPathForRead, exists_file. rewrite (H6 o b Hb El).
        by rewrite bool_decide_eq_true_2. }
      rewrite Hpath. split; [split; simpl; try done|].
      * by rewrite H3, fmap_delete.
      * by rewrite H4, (map_sum_delete _ _ _ b).
      * intros o' b' [Hne Hb']%lookup_delete_Some Hl'. rewrite lookup_delete_ne; [by apply H6|].
        intros E. apply Hne. apply (OutputFilename_inj cf); [done|apply H5; by eexists|apply H5; by eexists|done].
      * intros o' l' Hl'. destruct (H7 o' l' Hl') as [? ?]. split; [done|].
        rewrite lookup_delete_ne; [done|]. intros <-. congruence.
      * eauto.
      * split; [done|]. split; [|done]. intros p Hne. by apply lookup_delete_ne.
  - assert (Hn1 : (cnt o =? 1)%nat = false) by (apply Nat.eqb_neq; lia). rewrite Hn1.
    split; [split; simpl; try done|split; [done|split; [done|lia]]].
    + intros o'. destruct (decide (o' = o)) as [->|Hne].
      * rewrite lookup_insert_eq, cnt_set_eq.
        rewrite (proj2 (Nat.eqb_neq _ _)) by lia. f_equal. lia.
      * rewrite lookup_insert_ne by done. by rewrite cnt_set_ne.
    + intros o'. destruct (decide (o' = o)) as [->|Hne].
      * rewrite cnt_set_eq, H2. lia.
      * by rewrite cnt_set_ne.
    + eauto.
Qed.

(** A new output takes over the record or file its body was written to. *)
Lemma add_new_ok cf out cnt bl extra o b l :
  outs_ok cf out cnt bl extra -> cnt o = 0%nat -> good_id o -> plus_blob bl b l extra ->
  (IsZero l = true -> files out !! OutputFilename cf o = Some b) ->
  outs_ok cf (addOutputRefLocked out o (blen b) l) (cnt_set cnt o 1%nat) (<[o := b]> bl) ∅ /\
  outputLocs (addOutputRefLocked out o (blen b) l) =
    (if IsZero l then outputLocs out else <[o := l]> (outputLocs out)).
Proof.
  intros Ho Hc Hid Hplus Hfile. unfold addOutputRefLocked.
  assert (Hrf : refs out o = 0) by (rewrite (refs_eq _ _ _ _ _ o Ho); lia). rewrite Hrf.
  destruct Ho as [H1 H2 H3 H4 H5 H6 H7 H8 (m & Hm & Hp)]. simpl. split; [|done].
  assert (Hbl : bl !! o = None).
  { destruct (bl !! o) eqn:E; [|done]. exfalso. apply (proj1 (H2 o)); [by rewrite E|done]. }
  assert (Hl0 : outputLocs out !! o = None).
  { destruct (outputLocs out !! o) as [l'|] eqn:E; [|done]. destruct (H7 o l' E) as [_ [? ?]]. congruence. }
  split; simpl; try done.
  - intros o'. destruct (decide (o' = o)) as [->|Hne].
    + rewrite lookup_insert_eq, cnt_set_eq. unfold refs in *. simpl. by rewrite Hrf.
    + rewrite lookup_insert_ne by done. by rewrite cnt_set_ne.
  - intros o'. destruct (decide (o' = o)) as [->|Hne].
    + rewrite lookup_insert_eq, cnt_set_eq. split; [done|eauto].
    + rewrite lookup_insert_ne by done. by rewrite cnt_set_ne.
  - by rewrite H3, fmap_insert.
  - rewrite H4, map_sum_insert_None by done. lia.
  - intros o' [x [[<- _]|[_ ?]]%lookup_insert_Some]; [done|]. apply H5. eauto.
  - intros o' b' [[<- <-]|[Hne Hb']]%lookup_insert_Some Hl'.
    + destruct (IsZero l) eqn:Ez; [by apply Hfile|]. by rewrite lookup_insert_eq in Hl'.
    + apply H6; [done|]. destruct (IsZero l); [done|]. by rewrite lookup_insert_ne in Hl'.
  - intros o' l' Hl'. destruct (decide (o' = o)) as [->|Hne].
    + rewrite lookup_insert_eq. destruct (IsZero l) eqn:Ez; [congruence|].
      rewrite lookup_insert_eq in Hl'. injection Hl' as <-. eauto.
    + rewrite lookup_insert_ne by done. apply H7. destruct (IsZero l); [done|].
      by rewrite lookup_insert_ne in Hl'.
  - exists m. split; [done|]. by apply (pool_owned_insert bl _ extra).
Qed.

(** Another reference to a stored output only counts. *)
Lemma add_more_ok cf out cnt bl extra o size l :
  outs_ok cf out cnt bl extra -> cnt o <> 0%nat ->
  outs_ok cf (addOutputRefLocked out o size l) (cnt_set cnt o (S (cnt o))) bl extra /\
  outputLocs (addOutputRefLocked out o size l) = outputLocs out.
Proof.
  intros Ho Hc. unfold addOutputRefLocked. rewrite !(refs_eq _ _ _ _ _ o Ho).
  rewrite (proj2 (Z.eqb_neq _ _)) by lia. rewrite (refs_eq _ _ _ _ _ o Ho).
  destruct Ho as [H1 H2 H3 H4 H5 H6 H7 H8 (m & Hm & Hp)]. split; [|done].
  split; simpl; try done.
  - intros o'. destruct (decide (o' = o)) as [->|Hne].
    + rewrite lookup_insert_eq, cnt_set_eq. simpl. f_equal. lia.
    + rewrite lookup_insert_ne by done. by rewrite cnt_set_ne.
  - intros o'. destruct (decide (o' = o)) as [->|Hne].
    + rewrite cnt_set_eq, H2. lia.
    + by rewrite cnt_set_ne.
  - eauto.
Qed.

(** ** The invariant of the store *)

(** The store holds [bl]: the outputs are accounted for by the references of the
    index, and every entry describes the stored bytes and place of its output. *)
Definition described (out : Outputs) (bl : gmap bytes bytes) (ie : indexEntry) : Prop :=
  exists b, bl !! ie_OutputID ie = Some b /\ blen b = entryStoredSize ie /\
    entryLoc ie = default zeroLoc (outputLocs out !! ie_OutputID ie).

Definition holds (cf : Config) (s : Store) (bl : gmap bytes bytes) : Prop :=
  outs_ok cf (outputs s) (uses (index s)) bl ∅ /\
  forall a ie, index s !! a = Some ie -> described (outputs s) bl ie.

(** The outputs that stay when one reference to [o] goes. *)
Definition without_use (cnt : bytes -> nat) (bl : gmap bytes bytes) (o : bytes) : gmap bytes bytes :=
  if (cnt o =? 1)%nat then delete o bl else bl.

Lemma without_use_other cnt bl o o' : o' <> o \/ cnt o <> 1%nat -> without_use cnt bl o !! o' = bl !! o'.
Proof.
  intros Hne. unfold without_use. destruct (Nat.eqb_spec (cnt o) 1); [|done].
  apply lookup_delete_ne. intros <-. by destruct Hne.
Qed.

Lemma uses_delete_cnt (idx : gmap bytes indexEntry) a ie o :
  idx !! a = Some ie -> uses (delete a idx) o = cnt_set (uses idx) (ie_OutputID ie) (uses idx (ie_OutputID ie) - 1)%nat o.
Proof.
  intros Ha. assert (H := uses_delete idx a ie). unfold cnt_set. case_bool_decide as E.
  - subst. rewrite (H (ie_OutputID ie) Ha). rewrite bool_decide_eq_true_2 by done. simpl. lia.
  - rewrite (H o Ha). rewrite bool_decide_eq_false_2 by congruence. done.
Qed.

(** What a release leaves of the entries that still refer to their output. *)
Lemma described_release cf out cnt bl extra o ie :
  abs_dir (cf_dir cf) -> outs_ok cf out cnt bl extra -> cnt o <> 0%nat ->
  described out bl ie -> (ie_OutputID ie <> o \/ cnt o <> 1%nat) ->
  described (releaseOutputRefLocked cf out o) (without_use cnt bl o) ie.
Proof.
  intros Hd Ho Hc (b & Hb & Hs & Hl) Hne.
  destruct (release_ok cf out cnt bl extra o Hd Ho Hc) as (_ & Hlocs & _ & _). exists b.
  rewrite without_use_other by done. by rewrite (Hlocs _ Hne).
Qed.

Definition all_described (out : Outputs) (bl : gmap bytes bytes) (idx : gmap bytes indexEntry) : Prop :=
  forall a ie, idx !! a = Some ie -> described out bl ie.

(** The outputs without the entry of action [a]. *)
Definition drop_out (cf : Config) (out : Outputs) (idx : gmap bytes indexEntry) (a : bytes) : Outputs :=
  match idx !! a with
  | Some ex => releaseOutputRefLocked cf out (ie_OutputID ex)
  | None => out
  end.

Definition drop_blobs (idx : gmap bytes indexEntry) (bl : gmap bytes bytes) (a : bytes) : gmap bytes bytes :=
  match idx !! a with
  | Some ex => without_use (uses idx) bl (ie_OutputID ex)
  | None => bl
  end.

Lemma drop_ok cf out idx bl extra a :
  abs_dir (cf_dir cf) -> outs_ok cf out (uses idx) bl extra -> all_described out bl idx ->
  outs_ok cf (drop_out cf out idx a) (uses (delete a idx)) (drop_blobs idx bl a) extra /\
  all_described (drop_out cf out idx a) (drop_blobs idx bl a) (delete a idx).
Proof.
  intros Hd Ho He. unfold drop_out, drop_blobs. destruct (idx !! a) as [ie|] eqn:Ha.
  2: by rewrite delete_id.
  assert (Hc := uses_pos _ _ _ Ha).
  destruct (release_ok cf out _ bl extra (ie_OutputID ie) Hd Ho Hc) as (Hok & _). split.
  - eapply outs_ok_ext; [|exact Hok]. intros o. symmetry. by apply uses_delete_cnt.
  - intros a' ie' [Hne Ha']%lookup_delete_Some.
    apply (described_release cf out _ bl extra); [done..|by eapply He|].
    destruct (decide (ie_OutputID ie' = ie_OutputID ie)) as [E|]; [right|by left].
    rewrite (uses_delete _ a ie _ Ha), bool_decide_eq_true_2 by done. simpl.
    assert (Hp := uses_pos (delete a idx) a' ie'). rewrite lookup_delete_ne in Hp by done.
    rewrite E in Hp. specialize (Hp Ha'). lia.
Qed.

(** What dropping the entry of [a] keeps of the other outputs. *)
Lemma drop_keeps cf out idx bl extra a o :
  abs_dir (cf_dir cf) -> outs_ok cf out (uses idx) bl extra -> good_id o ->
  (forall ex, idx !! a = Some ex -> ie_OutputID ex <> o) ->
  uses (delete a idx) o = uses idx o /\ drop_blobs idx bl a !! o = bl !! o /\
  outputLocs (drop_out cf out idx a) !! o = outputLocs out !! o /\
  files (drop_out cf out idx a) !! OutputFilename cf o = files out !! OutputFilename cf o.
Proof.
  intros Hd Ho Hid Hne. unfold drop_out, drop_blobs. destruct (idx !! a) as [ie|] eqn:Ha.
  2: by rewrite delete_id.
  specialize (Hne ie eq_refl). assert (Hc := uses_pos _ _ _ Ha).
  destruct (release_ok cf out _ bl extra (ie_OutputID ie) Hd Ho Hc) as (_ & Hl & Hf & _).
  split; [|split; [|split]].
  - rewrite (uses_delete _ a ie o Ha), bool_decide_eq_false_2 by done. done.
  - apply without_use_other. by left.
  - apply Hl. by left.
  - apply Hf. intros E. apply Hne. symmetry. apply (OutputFilename_inj cf); try done.
    apply (oo_id _ _ _ _ _ Ho). by apply (oo_blobs _ _ _ _ _ Ho).
Qed.

(** Removing an entry with its reference. *)
Lemma local_holds_remove cf s bl a ie :
  abs_dir (cf_dir cf) -> holds cf s bl -> index s !! a = Some ie ->
  let s' := set_outputs (set_index s (delete a (index s)))
              (releaseOutputRefLocked cf (outputs s) (ie_OutputID ie)) in
  holds cf s' (without_use (uses (index s)) bl (ie_OutputID ie)).
Proof.
  intros Hd [Ho He] Ha. simpl. destruct (drop_ok cf (outputs s) (index s) bl ∅ a Hd Ho He) as [H1 H2].
  unfold drop_out, drop_blobs in *. rewrite Ha in *. by split.
Qed.

Lemma holds_count cf s bl h m p pe pc e : holds cf s bl -> holds cf (count s h m p pe pc e) bl.
Proof. done. Qed.

(** ** Putting *)

Section putting.
Context `{Zstd}.

Lemma localWriteAtomic_spec fs path rd flt fs' r :
  writeAtomic fs path rd flt = (fs', r) ->
  match r with
  | Ok n => exists b, delivers rd b /\ n = blen b /\ fs' = <[path := b]> fs
  | Err _ => fs' = fs
  end.
Proof.
  unfold writeAtomic. destruct flt as [[[] e]|], rd as [[d [e'|]]|]; intros [= <- <-]; try done.
  - by exists d.
  - by exists [].
Qed.

(** Files other than those of the plain outputs do not matter. *)
Lemma outs_ok_files cf out cnt bl extra fs :
  outs_ok cf out cnt bl extra ->
  (forall o b, bl !! o = Some b -> files out !! OutputFilename cf o = Some b ->
     fs !! OutputFilename cf o = Some b) ->
  outs_ok cf (set_storage out (pool out) fs) cnt bl extra.
Proof. intros [] Hf. split; simpl; try done. eauto. Qed.

Lemma outs_ok_pool cf out cnt bl p :
  outs_ok cf out cnt bl ∅ -> wf p -> (forall m, models (pool out) m -> models p m) ->
  outs_ok cf (set_storage out p (files out)) cnt bl ∅.
Proof. intros [? ? ? ? ? ? ? ? (m & ? & ?)] Hw Hm. split; simpl; try done. exists m. auto. Qed.

Lemma pool_owned_stage (bl : gmap bytes bytes) locs m k b :
  pool_owned bl locs ∅ m -> m !! k = None -> pool_owned bl locs {[k := b]} (<[k := b]> m).
Proof.
  intros [He Hi Hj Ho] Hk. split.
  - intros k' b' [<- <-]%lookup_singleton_Some. apply lookup_insert_eq.
  - intros o b' l Hb Hl. destruct (Hi o b' l Hb Hl) as [Hm _].
    assert ((blen b', l) <> k) by (intros <-; congruence).
    by rewrite lookup_insert_ne, lookup_singleton_ne.
  - done.
  - intros k' b' [[<- <-]|[Hne Hm]]%lookup_insert_Some; [left; apply lookup_singleton_eq|].
    apply Ho in Hm as [?|?]; [done|by right].
Qed.

(** A file written for an output that is not stored touches no other output. *)
Lemma unstored_file cf out cnt bl extra o o' b :
  abs_dir (cf_dir cf) -> outs_ok cf out cnt bl extra -> good_id o -> cnt o = 0%nat ->
  bl !! o' = Some b -> OutputFilename cf o' <> OutputFilename cf o.
Proof.
  intros Hd Ho Hid Hc Hb E. assert (Hs : is_Some (bl !! o')) by eauto.
  apply OutputFilename_inj in E as ->; [|done|by apply (oo_id _ _ _ _ _ Ho)|done].
  by apply (oo_blobs _ _ _ _ _ Ho) in Hs.
Qed.

Definition stored_at (cf : Config) (out' : Outputs) (cnt : bytes -> nat) (bl : gmap bytes bytes)
    (o : bytes) (rd : option stream) (size : Z) (l : Loc) : Prop :=
  exists b extra, delivers rd b /\ blen b = size /\ outs_ok cf out' cnt bl extra /\
    plus_blob bl b l extra /\ (IsZero l = true -> l = zeroLoc /\ files out' !! OutputFilename cf o = Some b).

Lemma stored_plain cf out cnt bl o rd b :
  abs_dir (cf_dir cf) -> outs_ok cf out cnt bl ∅ -> good_id o -> cnt o = 0%nat -> delivers rd b ->
  stored_at cf (set_storage out (pool out) (<[OutputFilename cf o := b]> (files out))) cnt bl o rd (blen b) zeroLoc.
Proof.
  intros Hd Ho Hid Hc Hb. exists b, ∅. do 2 (split; [done|]). split; [|split; [by left|]].
  - apply outs_ok_files; [done|]. intros o' b' Hb' Hf.
    rewrite lookup_insert_ne; [done|]. intros E. by eapply (unstored_file cf out cnt bl ∅ o o').
  - intros _. split; [done|]. simpl. apply lookup_insert_eq.
Qed.

Lemma storePoolEligibleBody_spec cf out cnt bl item rd size args out' r :
  let o := ri_OutputID (ri_meta item) in
  abs_dir (cf_dir cf) -> outs_ok cf out cnt bl ∅ -> good_id o -> cnt o = 0%nat ->
  pages_left (pool out) size ->
  storePoolEligibleBody cf out item rd size args = (out', r) ->
  outputLocs out' = outputLocs out /\
  match r with
  | Err _ => outs_ok cf out' cnt bl ∅
  | Ok l => stored_at cf out' cnt bl o rd size l
  end.
Proof.
  intros o Hd Ho Hid Hc Hleft. unfold storePoolEligibleBody.
  destruct rd as [rd|]; [|by intros [= <- <-]].
  destruct (ReadAll rd) as [b|e] eqn:Erd; [|by intros [= <- <-]].
  destruct (negb _) eqn:El; [by intros [= <- <-]|]. go_bool.
  destruct (Put (pool out) _ _ _ _) as [p1 r1] eqn:Eput.
  destruct (oo_pool _ _ _ _ _ Ho) as (m & Hm & Hp).
  assert (Hspec : forall m, models (pool out) m -> _) by
    (intros m' Hm'; exact (Put_spec (pool out) _ _ _ _ m' p1 r1 (oo_wf _ _ _ _ _ Ho) Hm' Hleft Eput)).
  assert (Hw := proj1 (Hspec m Hm)).
  destruct r1 as [[l|]|e].
  - intros [= <- <-]. split; [done|]. destruct (Hspec m Hm) as (_ & Hz & Hn & Hm1).
    exists b, {[(blen b, l) := b]}. split; [done|]. split; [done|]. subst size.
    split; [|split; [by right|by rewrite Hz]].
    destruct Ho. split; simpl; try done. exists (<[(blen b, l) := b]> m). split; [done|].
    by apply pool_owned_stage.
  - assert (Hok : outs_ok cf (set_storage out p1 (files out)) cnt bl ∅).
    { apply outs_ok_pool; [done..|]. intros m' Hm'. apply (Hspec m' Hm'). }
    destruct (writeAtomic _ _ _ _) as [fs [n|e]] eqn:Ew; apply localWriteAtomic_spec in Ew.
    + destruct Ew as (b' & [= <-] & -> & ->). intros [= <- <-]. split; [done|]. subst size.
      by apply (stored_plain cf (set_storage out p1 (files out)) cnt bl o (Some rd) b).
    + subst fs. by intros [= <- <-].
  - intros [= <- <-]. split; [done|]. apply outs_ok_pool; [done..|]. intros m' Hm'. apply (Hspec m' Hm').
Qed.

Lemma localPutBody_spec cf out cnt bl item rd size args out' r :
  let o := ri_OutputID (ri_meta item) in
  abs_dir (cf_dir cf) -> outs_ok cf out cnt bl ∅ -> good_id o ->
  pages_left (pool out) size ->
  storePutBody cf out item rd size (negb (cnt o =? 0)%nat) (default zeroLoc (outputLocs out !! o)) args
    = (out', r) ->
  outputLocs out' = outputLocs out /\
  match r with
  | Err _ => outs_ok cf out' cnt bl ∅
  | Ok l => (cnt o <> 0%nat /\ out' = out /\ l = default zeroLoc (outputLocs out !! o)) \/
            (cnt o = 0%nat /\ stored_at cf out' cnt bl o rd size l)
  end.
Proof.
  intros o Hd Ho Hid Hleft. unfold storePutBody.
  destruct (Nat.eqb_spec (cnt o) 0) as [Hc|Hc]; simpl.
  2: { destruct rd as [[d [e|]]|]; intros [= <- <-]; auto. }
  destruct (_ && _).
  { intros Hst. apply (storePoolEligibleBody_spec cf out cnt bl) in Hst as [? Hr]; [|done..].
    split; [done|]. destruct r; [by right|done]. }
  destruct (writeAtomic _ _ _ _) as [fs [n|e]] eqn:Ew; apply localWriteAtomic_spec in Ew.
  2: { subst fs. intros [= <- <-]. split; [done|]. by apply outs_ok_files. }
  destruct Ew as (b & Hb & -> & ->). destruct (negb _) eqn:El; intros [= <- <-]; (split; [done|]).
  - apply outs_ok_files; [done|]. intros o' b' Hb' Hf.
    assert (Hne := unstored_file cf out cnt bl ∅ o o' b' Hd Ho Hid Hc Hb'). fold o.
    rewrite lookup_delete_ne, lookup_insert_ne by done. done.
  - right. go_bool. subst size. split; [done|]. by apply stored_plain.
Qed.

(** Where the body of a put ended up, for an output referred to or not. *)
Definition placed (cf : Config) (out : Outputs) (idx : gmap bytes indexEntry) (bl : gmap bytes bytes)
    (o b : bytes) (l : Loc) (extra : gmap (Z * Loc) bytes) : Prop :=
  outs_ok cf out (uses idx) bl extra /\ good_id o /\
  ((uses idx o <> 0%nat /\ extra = ∅ /\ bl !! o = Some b /\ l = default zeroLoc (outputLocs out !! o)) \/
   (uses idx o = 0%nat /\ plus_blob bl b l extra /\
    (IsZero l = true -> l = zeroLoc /\ files out !! OutputFilename cf o = Some b))).

Lemma drop_placed cf out idx bl o b l extra a :
  abs_dir (cf_dir cf) -> all_described out bl idx -> placed cf out idx bl o b l extra ->
  (forall ex, idx !! a = Some ex -> ie_OutputID ex <> o) ->
  placed cf (drop_out cf out idx a) (delete a idx) (drop_blobs idx bl a) o b l extra.
Proof.
  intros Hd He (Ho & Hid & Hp) Hne.
  destruct (drop_ok cf out idx bl extra a Hd Ho He) as [Hok _].
  destruct (drop_keeps cf out idx bl extra a o Hd Ho Hid Hne) as (Hu & Hb & Hl & Hf).
  split; [done|]. split; [done|]. rewrite Hu, Hb, Hl, Hf. done.
Qed.

(** Adding the entry of a placed body. *)
Lemma add_ok cf out idx bl o b l extra a ie :
  placed cf out idx bl o b l extra -> all_described out bl idx -> idx !! a = None ->
  ie_OutputID ie = o -> entryStoredSize ie = blen b -> entryLoc ie = l ->
  let out' := addOutputRefLocked out o (entryStoredSize ie) l in
  outs_ok cf out' (uses (<[a := ie]> idx)) (<[o := b]> bl) ∅ /\
  all_described out' (<[o := b]> bl) (<[a := ie]> idx).
Proof.
  intros (Ho & Hid & Hp) He Ha Hio Hs Hl out'.
  assert (Huse : forall o', uses (<[a := ie]> idx) o' = cnt_set (uses idx) o (S (uses idx o)) o').
  { intros o'. rewrite (uses_insert_new _ _ _ _ Ha), Hio. unfold cnt_set.
    case_bool_decide; case_bool_decide; simplify_eq; done. }
  destruct Hp as [(Hc & -> & Hb & Hlo)|(Hc & Hplus & Hz)].
  - destruct (add_more_ok cf out _ bl ∅ o (entryStoredSize ie) l Ho Hc) as [Hok Hlocs].
    rewrite (insert_id bl o b) by done. split.
    + eapply outs_ok_ext; [|exact Hok]. by intros o'.
    + intros a' ie' [[<- <-]|[Hne Ha']]%lookup_insert_Some.
      * exists b. rewrite Hio. unfold out'. rewrite Hlocs, Hl. done.
      * destruct (He a' ie' Ha') as (b' & ?). exists b'. unfold out'. by rewrite Hlocs.
  - unfold out' in *. rewrite Hs.
    destruct (add_new_ok cf out _ bl extra o b l Ho Hc Hid Hplus) as [Hok Hlocs]; [apply Hz|].
    split.
    + eapply outs_ok_ext; [|exact Hok]. intros o'. by rewrite Huse, Hc.
    + intros a' ie' [[<- <-]|[Hne Ha']]%lookup_insert_Some.
      * exists b. rewrite Hio, lookup_insert_eq, Hlocs, Hl. split; [done|]. split; [done|].
        destruct (IsZero l) eqn:Ez; [|by rewrite lookup_insert_eq].
        destruct (outputLocs out !! o) as [l'|] eqn:El; [|by destruct (Hz eq_refl) as [-> _]].
        destruct (oo_locs _ _ _ _ _ Ho o l' El) as [_ Hx]. by apply (oo_blobs _ _ _ _ _ Ho) in Hx.
      * destruct (He a' ie' Ha') as (b' & Hb' & Hr). exists b'. rewrite Hlocs.
        assert (Hno : ie_OutputID ie' <> o).
        { intros E. assert (is_Some (bl !! o)) as Hx by (rewrite <-E; eauto).
          by apply (oo_blobs _ _ _ _ _ Ho) in Hx. }
        rewrite lookup_insert_ne by done. split; [done|].
        destruct (IsZero l); [done|]. by rewrite lookup_insert_ne.
Qed.

(** The outputs held after [b] is put as [o] for action [a]. *)
Definition after_put (idx : gmap bytes indexEntry) (bl : gmap bytes bytes) (a o b : bytes) : gmap bytes bytes :=
  <[o := b]> (if bool_decide (ie_OutputID <$> idx !! a = Some o) then bl else drop_blobs idx bl a).

(** Rewriting the entry of an output with the size it has changes nothing. *)
Lemma same_size_ok cf out cnt bl o b :
  outs_ok cf out cnt bl ∅ -> bl !! o = Some b ->
  mkOutputs (outputRefs out) (<[o := blen b]> (outputSizes out)) (outputLocs out)
    (currentDiskBytes out + (blen b - default 0 (outputSizes out !! o))) (pool out) (files out) = out.
Proof.
  intros Ho Hb. assert (Hsz : outputSizes out !! o = Some (blen b)).
  { by rewrite (oo_sizes _ _ _ _ _ Ho), lookup_fmap, Hb. }
  rewrite Hsz, insert_id by done. destruct out; simpl. f_equal. lia.
Qed.

Lemma schedule_fields cf s :
  index (scheduleEvictionLocked cf s) = index s /\ outputs (scheduleEvictionLocked cf s) = outputs s.
Proof. unfold scheduleEvictionLocked. by repeat case_match. Qed.

Lemma putCommit_holds cf s bl item o b l extra ie :
  let a := ri_ActionID (ri_meta item) in
  abs_dir (cf_dir cf) -> placed cf (outputs s) (index s) bl o b l extra ->
  all_described (outputs s) bl (index s) ->
  ie_OutputID ie = o -> entryStoredSize ie = blen b -> entryLoc ie = l ->
  let s' := putCommit cf s a (putLookup s item) ie in
  index s' = <[a := ie]> (index s) /\ holds cf s' (after_put (index s) bl a o b).
Proof.
  intros a Hd Hp He Hio Hs Hl. unfold putCommit. simpl.
  set (out' := match index s !! ri_ActionID _ with Some _ => _ | None => _ end).
  destruct (schedule_fields cf (set_index (set_outputs s out') (<[a := ie]> (index s)))) as [Ei Eo].
  unfold holds. simpl. fold a. rewrite Ei, Eo. simpl. split; [done|].
  enough (outs_ok cf out' (uses (<[a := ie]> (index s))) (after_put (index s) bl a o b) ∅ /\
          all_described out' (after_put (index s) bl a o b) (<[a := ie]> (index s))) by done.
  unfold after_put, out', replaceOutputRefLocked. fold a. rewrite Hio.
  destruct (decide (ie_OutputID <$> index s !! a = Some o)) as [Hsame|Hother].
  - rewrite (bool_decide_eq_true_2 (_ <$> _ = _)) by done.
    destruct (index s !! a) as [ex|] eqn:Ha; [|done]. injection Hsame as Hex.
    rewrite Hex, bool_decide_eq_true_2 by done.
    destruct Hp as (Ho & _ & [(Hc & -> & Hb & Hlo)|(Hc & _)]).
    2: { exfalso. rewrite <-Hex in Hc. by apply (uses_pos _ _ _ Ha). }
    rewrite Hs, (same_size_ok cf _ _ bl o b Ho Hb), (insert_id bl) by done. split.
    + eapply outs_ok_ext; [|exact Ho]. intros o'. assert (E := uses_replace (index s) a ex ie o' Ha).
      rewrite Hex, Hio in E. lia.
    + intros a' ie' [[<- <-]|[_ Ha']]%lookup_insert_Some; [|by apply (He a')].
      exists b. rewrite Hio, Hl. done.
  - rewrite (bool_decide_eq_false_2 (_ <$> _ = _)) by done.
    assert (Hne : forall ex, index s !! a = Some ex -> ie_OutputID ex <> o).
    { intros ex Ha E. apply Hother. by rewrite Ha, <-E. }
    assert (Hdp := drop_placed cf (outputs s) (index s) bl o b l extra a Hd He Hp Hne).
    destruct (drop_ok cf (outputs s) (index s) bl extra a Hd (proj1 Hp) He) as [_ Hde].
    assert (Hadd := add_ok cf _ _ _ o b l extra a ie Hdp Hde (lookup_delete_eq _ _) Hio Hs Hl).
    rewrite insert_delete_eq in Hadd. revert Hadd. unfold drop_out.
    destruct (index s !! a) as [ex|] eqn:Ha; [|by rewrite Hl].
    rewrite bool_decide_eq_false_2 by (by apply Hne). by rewrite Hl.
Qed.

(** The entry and the reader a put of [item] starts from. *)
Definition putting (cf : Config) (item : ResponseItem) (args : putArgs) : result (indexEntry * option stream) :=
  bodyReaderForPut item (cf_compress cf) (newEntry item (pa_now args)).

Lemma putting_output cf item args ie rd :
  putting cf item args = Ok (ie, rd) -> ie_OutputID ie = ri_OutputID (ri_meta item).
Proof.
  unfold putting, bodyReaderForPut, compressNowBodyReader. intros E.
  repeat (case_match; simplify_eq/=; try done);
    repeat match type of E with context [match ?x with _ => _ end] => destruct x; simplify_eq/= end; done.
Qed.

(** The clients promise that an output id stands for its bytes: a body for an
    output that is stored has the stored size. *)
Definition content_addressed (cf : Config) (bl : gmap bytes bytes) (item : ResponseItem) (args : putArgs) : Prop :=
  forall ie rd b, putting cf item args = Ok (ie, rd) -> bl !! ri_OutputID (ri_meta item) = Some b ->
    entryStoredSize ie = blen b.

Definition oversized (cf : Config) (item : ResponseItem) : bool :=
  (0 <? cf_maxFileBytes cf) && (cf_maxFileBytes cf <? ri_Size (ri_meta item)).

Lemma entryStoredSize_with_loc ie l : entryStoredSize (with_loc ie l) = entryStoredSize ie.
Proof. done. Qed.

Lemma entryLoc_with_loc ie l : entryLoc (with_loc ie l) = l.
Proof. by destruct l. Qed.

Lemma local_putBody_spec cf s bl item args s1 r :
  let o := ri_OutputID (ri_meta item) in
  abs_dir (cf_dir cf) -> holds cf s bl -> good_id o -> content_addressed cf bl item args ->
  (forall n, pages_left (pool (outputs s)) n) ->
  putBody cf s item (putLookup s item) args = (s1, r) ->
  index s1 = index s /\
  match r with
  | Err _ => holds cf s1 bl
  | Ok ie => exists ie0 rd b extra, putting cf item args = Ok (ie0, rd) /\
      ie = with_loc ie0 (entryLoc ie) /\ entryStoredSize ie = blen b /\
      (bl !! o = Some b \/ bl !! o = None /\ delivers rd b) /\
      placed cf (outputs s1) (index s) bl o b (entryLoc ie) extra /\
      all_described (outputs s1) bl (index s)
  end.
Proof.
  intros o Hd [Ho He] Hid Hca Hleft. unfold putBody. unfold content_addressed in Hca.
  change (bodyReaderForPut item (cf_compress cf) (newEntry item (pa_now args))) with (putting cf item args).
  destruct (putting cf item args) as [[ie0 rd]|e] eqn:Ep.
  2: by intros [= <- <-].
  destruct (storePutBody _ _ _ _ _ _ _ _) as [out1 r1] eqn:Est. simpl in Est.
  assert (Hrefs : bool_decide (is_Some (outputRefs (outputs s) !! o)) = negb (uses (index s) o =? 0)%nat).
  { rewrite (oo_refs _ _ _ _ _ Ho). by destruct (_ =? 0)%nat. }
  fold o in Est. rewrite Hrefs in Est.
  apply (localPutBody_spec cf _ _ bl) in Est as [Hlocs Hr]; [|done..].
  assert (Hdesc : all_described out1 bl (index s)).
  { intros a' ie' Ha'. destruct (He a' ie' Ha') as (b & ?). exists b. by rewrite Hlocs. }
  destruct r1 as [l|e]; intros [= <- <-]; [|done].
  split; [done|]. rewrite entryLoc_with_loc, entryStoredSize_with_loc.
  destruct Hr as [(Hc & -> & ->)|(Hc & b & extra & Hdel & Hlen & Hok & Hplus & Hz)].
  - destruct (proj2 (oo_blobs _ _ _ _ _ Ho o) Hc) as [b Hb].
    exists ie0, rd, b, ∅. rewrite (Hca ie0 rd b eq_refl Hb).
    split; [done|]. split; [done|]. split; [done|]. split; [by left|]. split; [|done].
    split; [done|]. split; [done|]. by left.
  - exists ie0, rd, b, extra. split; [done|]. split; [done|]. split; [done|].
    split.
    { right. split; [|done]. destruct (bl !! o) eqn:Hb; [|done].
      exfalso. apply (proj1 (oo_blobs _ _ _ _ _ Ho o)); [by rewrite Hb|done]. }
    split; [|done]. split; [done|]. split; [done|]. by right.
Qed.

(** The action cache's contract for a put, on outputs that actions share. *)
Lemma local_putOne_spec cf s bl item args s' r :
  let m := ri_meta item in
  abs_dir (cf_dir cf) -> holds cf s bl -> good_id (ri_OutputID m) -> content_addressed cf bl item args ->
  (forall n, pages_left (pool (outputs s)) n) ->
  putOne cf s item args = (s', r) ->
  match r with
  | Err _ => index s' = index s /\ holds cf s' bl
  | Ok _ =>
      (oversized cf item = true /\ s' = s) \/
      (exists ie0 rd ie b, putting cf item args = Ok (ie0, rd) /\ ie = with_loc ie0 (entryLoc ie) /\
         (bl !! ri_OutputID m = Some b \/ bl !! ri_OutputID m = None /\ delivers rd b) /\
         index s' = <[ri_ActionID m := ie]> (index s) /\
         holds cf s' (after_put (index s) bl (ri_ActionID m) (ri_OutputID m) b))
  end.
Proof.
  intros m Hd Hh Hid Hca Hleft. unfold putOne. fold m.
  change ((0 <? cf_maxFileBytes cf) && (cf_maxFileBytes cf <? ri_Size m)) with (oversized cf item).
  destruct (oversized cf item) eqn:Eov; [intros [= <- <-]; by left|].
  rewrite bool_decide_eq_false_2 by apply Hid.
  set (s0 := count s _ _ _ _ _ _). simpl. fold m.
  destruct (putBody _ _ _ _ _) as [s1 [ie|e]] eqn:Eb;
    intros [= <- <-]; apply (local_putBody_spec cf s0 bl) in Eb as [Ei Hr]; try done.
  right. destruct Hr as (ie0 & rd & b & extra & Hp & Hie & Hsz & Hb & Hpl & Hde). rewrite <-Ei in Hpl, Hde.
  exists ie0, rd, ie, b. split; [done|]. split; [done|]. split; [done|].
  assert (Hout : ie_OutputID ie = ri_OutputID m).
  { rewrite Hie. simpl. by apply (putting_output cf item args ie0 rd). }
  destruct (putCommit_holds cf s1 bl item (ri_OutputID m) b _ extra ie Hd Hpl Hde Hout Hsz eq_refl) as [H1 H2].
  unfold putCommit in *. simpl in *. rewrite Ei in *. done.
Qed.
End putting.
