(* ===== verification/LocalServe.v ===== *)
(** What src/internal/local/store.go promises: eviction takes the least recently
    used entries and stops at the budget, a hit serves the stored bytes, a put is
    read back, the integrity check removes only what is broken, and a closed store
    opens with what it held. *)
From S2P Require Import Prelude.
From S2P Require Import GoStrings.
From S2P Require Import GoPath.
From S2P Require Import RecordPool.
From S2P Require Import Wire.
From S2P Require Import CacheWire.
From S2P Require Import LocalStore.

(** ** The least recently used entry *)

(** The scan so far: the best entry of those seen. *)
Definition best_of (idx : gmap bytes indexEntry) (seen : list bytes) (best : option (bytes * indexEntry)) : Prop :=
  match best with
  | None => forall a, a ∈ seen -> idx !! a = None
  | Some (a, ie) => idx !! a = Some ie /\
      forall a' ie', a' ∈ seen -> idx !! a' = Some ie' -> lruTimeMicro ie <= lruTimeMicro ie'
  end.

Lemma lruStep_best idx seen best a :
  best_of idx seen best -> best_of idx (seen ++ [a]) (lruStep idx best a).
Proof.
  intros Hb. unfold lruStep. destruct (idx !! a) as [ie|] eqn:Ha.
  - destruct best as [[a0 ie0]|]; simpl in *.
    + destruct Hb as [Ha0 Hmin]. destruct (Z.ltb_spec (lruTimeMicro ie) (lruTimeMicro ie0)); simpl.
      * split; [done|]. intros a' ie' [Hin| ->%list_elem_of_singleton]%elem_of_app E; [|simplify_eq; lia].
        specialize (Hmin a' ie' Hin E). lia.
      * split; [done|]. intros a' ie' [Hin| ->%list_elem_of_singleton]%elem_of_app E; [by eapply Hmin|].
        simplify_eq. lia.
    + split; [done|]. intros a' ie' [Hin| ->%list_elem_of_singleton]%elem_of_app E; [|simplify_eq; lia].
      by rewrite Hb in E.
  - destruct best as [[a0 ie0]|]; simpl in *.
    + destruct Hb as [Ha0 Hmin]. split; [done|].
      intros a' ie' [Hin| ->%list_elem_of_singleton]%elem_of_app E; [by eapply Hmin|congruence].
    + intros a' [Hin| ->%list_elem_of_singleton]%elem_of_app; [by apply Hb|done].
Qed.

Lemma lruScan_best idx l seen best :
  best_of idx seen best -> best_of idx (seen ++ l) (foldl (lruStep idx) best l).
Proof.
  revert seen best. induction l as [|a l IH]; intros seen best Hb; simpl; [by rewrite app_nil_r|].
  rewrite cons_middle, app_assoc. by apply IH, lruStep_best.
Qed.

Section eviction.
Context (cf : Config) (range : gmap bytes indexEntry -> list bytes).
Context (Hdir : abs_dir (cf_dir cf)) (Hrange : forall idx, range_of idx (range idx)).

(** [ie] has waited longest. *)
Definition oldest (idx : gmap bytes indexEntry) (ie : indexEntry) : Prop :=
  forall a' ie', idx !! a' = Some ie' -> lruTimeMicro ie <= lruTimeMicro ie'.

Lemma local_evictOne_ok s bl :
  holds cf s bl ->
  match evictOneLocked cf range s with
  | (s', false) => s' = s /\ index s = ∅
  | (s', true) => exists a ie, index s !! a = Some ie /\ oldest (index s) ie /\
      index s' = delete a (index s) /\
      holds cf s' (without_use (uses (index s)) bl (ie_OutputID ie))
  end.
Proof.
  intros Hh. unfold evictOneLocked.
  assert (Hb := lruScan_best (index s) (range (index s)) [] None).
  destruct (Hrange (index s)) as [_ Hin]. simpl in Hb.
  destruct (foldl _ _ _) as [[a ie]|]; simpl in Hb.
  - destruct Hb as [Ha Hmin]; [by intros ? ?%elem_of_nil|]. exists a, ie. split; [done|]. split.
    + intros a' ie' Ha'. apply (Hmin a' ie'); [|done]. apply Hin. eauto.
    + split; [done|]. by apply (local_holds_remove cf s bl a ie).
  - split; [done|]. apply map_eq. intros a. rewrite lookup_empty.
    destruct (index s !! a) as [ie|] eqn:Ha; [|done].
    rewrite <-Ha. apply Hb; [by intros ? ?%elem_of_nil|]. apply Hin. eauto.
Qed.

Lemma without_use_sub (cnt : bytes -> nat) (bl : gmap bytes bytes) (o : bytes) : without_use cnt bl o ⊆ bl.
Proof. unfold without_use. case_match; [apply delete_subseteq|done]. Qed.

(** Eviction from [s] to [s']: every entry that went is at least as old as every
    entry that stayed. *)
Record evicted (s s' : Store) : Prop := {
  ev_sub : index s' ⊆ index s;
  ev_lru a ie a' ie' : index s !! a = Some ie -> index s' !! a = None ->
    index s' !! a' = Some ie' -> lruTimeMicro ie <= lruTimeMicro ie';
}.

Lemma evicted_refl s : evicted s s.
Proof. split; [done|]. congruence. Qed.

Lemma evicted_step s s1 s2 a ie :
  index s !! a = Some ie -> oldest (index s) ie -> index s1 = delete a (index s) ->
  evicted s1 s2 -> evicted s s2.
Proof.
  intros Ha Hold Hi [Hsub Hlru]. rewrite Hi in *. split.
  - etrans; [exact Hsub|apply delete_subseteq].
  - intros b ib b' ib' Hb Hn Hb'. destruct (decide (b = a)) as [->|Hne].
    + rewrite Ha in Hb. injection Hb as <-. apply (Hold b').
      eapply lookup_weaken; [done|]. etrans; [exact Hsub|apply delete_subseteq].
    + apply (Hlru b ib b' ib'); [|done..]. by rewrite lookup_delete_ne.
Qed.

Lemma evictLoop_ok fuel target s bl :
  holds cf s bl -> (size (index s) < fuel)%nat ->
  let s' := evictLoop cf range fuel target s in
  exists bl', holds cf s' bl' /\ bl' ⊆ bl /\ evicted s s' /\
    (DiskBytes s' <= target \/ index s' = ∅) /\
    (DiskBytes s' <= target -> forall fuel', (fuel <= fuel')%nat -> evictLoop cf range fuel' target s = s').
Proof.
  revert s bl. induction fuel as [|fuel IH]; intros s bl Hh Hf; [lia|]. simpl.
  destruct (Z.leb_spec (DiskBytes s) target) as [Hle|Hgt].
  { exists bl. split; [done|]. split; [done|]. split; [apply evicted_refl|]. split; [by left|].
    intros _ [|fuel'] Hfu; [lia|]. simpl. by rewrite (proj2 (Z.leb_le _ _)). }
  assert (Hs := local_evictOne_ok s bl Hh).
  destruct (evictOneLocked cf range s) as [s1 [|]] eqn:E1.
  - destruct Hs as (a & ie & Ha & Hold & Hi & Hh1).
    destruct (IH s1 _ Hh1) as (bl' & Hh' & Hsub & Hev & Hend & Hfuel).
    { rewrite Hi. assert (Hsz := size_delete_lt (index s) a ie Ha). lia. }
    exists bl'. split; [done|]. split; [etrans; [exact Hsub|apply without_use_sub]|].
    split; [by eapply evicted_step|]. split; [done|].
    intros Hd [|fuel'] Hfu; [lia|]. simpl. rewrite (proj2 (Z.leb_gt _ _)) by done. rewrite E1.
    apply Hfuel; [done|lia].
  - destruct Hs as [-> Hemp]. exists bl. split; [done|]. split; [done|].
    split; [apply evicted_refl|]. split; [by right|]. intros Hd. lia.
Qed.

Lemma no_index_no_bytes s bl : holds cf s bl -> index s = ∅ -> DiskBytes s = 0.
Proof.
  intros [Ho _] Hi. unfold DiskBytes. rewrite (oo_bytes _ _ _ _ _ Ho).
  assert (bl = ∅) as ->; [|apply map_sum_empty].
  apply map_eq. intros o. rewrite lookup_empty. destruct (bl !! o) as [b|] eqn:Hb; [|done].
  exfalso. apply (proj1 (oo_blobs _ _ _ _ _ Ho o)); [by rewrite Hb|].
  unfold uses. rewrite Hi. done.
Qed.

Lemma target_of_budget M : 0 < M -> 0 <= M - Z.quot M evictionMarginFraction <= M.
Proof.
  intros HM. unfold evictionMarginFraction. rewrite Z.quot_div_nonneg by lia.
  assert (0 <= M / 10 <= M) by (split; [apply Z.div_pos; lia|apply Z.div_le_upper_bound; lia]). lia.
Qed.

Lemma EvictNow_ok s bl :
  holds cf s bl ->
  let s' := EvictNow cf range s in
  let target := cf_maxDiskBytes cf - Z.quot (cf_maxDiskBytes cf) evictionMarginFraction in
  exists bl', holds cf s' bl' /\ bl' ⊆ bl /\ evicted s s' /\
    (0 < cf_maxDiskBytes cf ->
       (DiskBytes s <= cf_maxDiskBytes cf -> s' = s) /\
       (cf_maxDiskBytes cf < DiskBytes s -> DiskBytes s' <= target /\
          forall fuel, (size (index s) < fuel)%nat -> evictLoop cf range fuel target s = s')).
Proof.
  intros Hh s' target. unfold s', EvictNow, evictIfNeededLocked.
  destruct (Z.leb_spec (cf_maxDiskBytes cf) 0); simpl.
  { exists bl. split; [done|]. split; [done|]. split; [apply evicted_refl|]. lia. }
  destruct (Z.leb_spec (DiskBytes s) (cf_maxDiskBytes cf)).
  { exists bl. split; [done|]. split; [done|]. split; [apply evicted_refl|]. split; [done|lia]. }
  fold target.
  destruct (evictLoop_ok (S (size (index s))) target s bl Hh) as (bl' & Hh' & Hsub & Hev & Hend & Hfuel); [lia|].
  exists bl'. split; [done|]. split; [done|]. split; [done|]. intros _. split; [lia|]. intros _.
  assert (Hle : DiskBytes (evictLoop cf range (S (size (index s))) target s) <= target).
  { destruct Hend as [?|Hemp]; [done|]. rewrite (no_index_no_bytes _ bl' Hh' Hemp).
    by apply target_of_budget. }
  split; [done|]. intros fuel Hf. apply Hfuel; [done|lia].
Qed.

(** An eviction that is due ends, with the same result for any larger bound on its
    rounds, at most at the budget less its tenth; what it removes is at least as
    old as anything it keeps, the outputs left are stored as before, and a store
    within its budget is untouched. *)
Theorem local_EvictNow_ends s bl (Hh : holds cf s bl) :
  let s' := EvictNow cf range s in
  let target := cf_maxDiskBytes cf - Z.quot (cf_maxDiskBytes cf) evictionMarginFraction in
  exists bl', holds cf s' bl' /\ bl' ⊆ bl /\ evicted s s' /\
    (0 < cf_maxDiskBytes cf ->
       (DiskBytes s <= cf_maxDiskBytes cf -> s' = s) /\
       (cf_maxDiskBytes cf < DiskBytes s -> DiskBytes s' <= target /\
          forall fuel, (size (index s) < fuel)%nat -> evictLoop cf range fuel target s = s')).
Proof. by apply EvictNow_ok. Qed.
End eviction.

(** ** Serving *)

Definition openFile (out : Outputs) (p : bytes) : result stream :=
  match files out !! p with Some b => Ok (fromBytes b) | None => Err ENotExist end.

(** The item a hit carries, its body opened the way the handlers do. *)
Definition served (cf : Config) (out : Outputs) (a : bytes) (ie : indexEntry) : ResponseItem :=
  ItemPrepareBodyReader (responseItem cf out a ie) (openFile out).

(** The same item, from the stored bytes alone. *)
Definition served_meta (cf : Config) (a : bytes) (ie : indexEntry) : ResponseMeta :=
  mkResponseMeta a false (ie_OutputID ie) (ie_Size ie) (Some (ie_TimeMicro ie)) (ie_Compressed ie =? 1)
    (ie_WireSize ie) (if negb (ie_PoolPage ie =? 0) then [] else OutputFilename cf (ie_OutputID ie)).

Lemma OutputFilename_nonempty cf o : abs_dir (cf_dir cf) -> good_id o -> OutputFilename cf o <> [].
Proof.
  intros Hd Ho. destruct (OutputFilename_at cf o Hd Ho) as [-> _].
  destruct Hd as (l & _ & _ & ->). done.
Qed.

Lemma served_described cf s bl a ie b :
  abs_dir (cf_dir cf) -> holds cf s bl -> described (outputs s) bl ie -> bl !! ie_OutputID ie = Some b ->
  served cf (outputs s) a ie = mkResponseItem (served_meta cf a ie) (Some (Ok (fromBytes b))).
Proof.
  intros Hd [Ho He] (b' & Hb' & Hs & Hl) Hb. rewrite Hb in Hb'. injection Hb' as <-.
  unfold served, responseItem, served_meta. destruct (outputLocs (outputs s) !! ie_OutputID ie) as [l|] eqn:El.
  - destruct (oo_locs _ _ _ _ _ Ho _ _ El) as [Hz _]. simpl in Hl.
    assert (Hpg : (ie_PoolPage ie =? 0) = false).
    { revert Hz. rewrite <-Hl. unfold IsZero. done. }
    rewrite Hpg. simpl. unfold ItemPrepareBodyReader, ItemSetBodyReader, poolBodyReader. simpl.
    destruct (oo_pool _ _ _ _ _ Ho) as (m & Hm & Hp).
    destruct (po_in _ _ _ _ Hp _ _ _ Hb El) as [Hk _]. apply Hm in Hk as [_ Hk].
    rewrite <-Hs, Hl. simpl in Hk. by rewrite Hk.
  - simpl in Hl. unfold entryLoc, zeroLoc in Hl. injection Hl as Hpg _. rewrite Hpg. simpl.
    assert (Hf := oo_plain _ _ _ _ _ Ho _ _ Hb El).
    assert (Hid : good_id (ie_OutputID ie)) by (apply (oo_id _ _ _ _ _ Ho); eauto).
    assert (Hpath : outputPathForRead cf (files (outputs s)) (ie_OutputID ie) = OutputFilename cf (ie_OutputID ie)).
    { unfold outputPathForRead, exists_file. by rewrite bool_decide_eq_true_2 by (rewrite Hf; eauto). }
    rewrite Hpath. unfold ItemPrepareBodyReader. simpl.
    rewrite bool_decide_eq_false_2 by (by apply OutputFilename_nonempty).
    unfold openFile. by rewrite Hf.
Qed.

Lemma served_stored cf s bl a ie b :
  abs_dir (cf_dir cf) -> holds cf s bl -> index s !! a = Some ie -> bl !! ie_OutputID ie = Some b ->
  served cf (outputs s) a ie = mkResponseItem (served_meta cf a ie) (Some (Ok (fromBytes b))).
Proof. intros Hd Hh Ha. apply served_described; [done..|]. by apply (proj2 Hh a). Qed.

(** What [Get] owes for one action. *)
Definition answer (cf : Config) (s : Store) (bl : gmap bytes bytes) (a : bytes) (item : ResponseItem) : Prop :=
  match index s !! a with
  | Some ie =>
      if (0 <? cf_maxFileBytes cf) && (cf_maxFileBytes cf <? ie_Size ie) then item = missItem a
      else exists b, bl !! ie_OutputID ie = Some b /\ item = responseItem cf (outputs s) a ie /\
             ItemPrepareBodyReader item (openFile (outputs s)) =
               mkResponseItem (served_meta cf a ie) (Some (Ok (fromBytes b)))
  | None => item = missItem a
  end.

Lemma holds_touch cf s bl a ie now :
  holds cf s bl -> index s !! a = Some ie -> holds cf (set_index s (<[a := touch ie now]> (index s))) bl.
Proof.
  intros [Ho He] Ha. split; simpl.
  - eapply outs_ok_ext; [|exact Ho]. intros o.
    assert (E := uses_replace (index s) a ie (touch ie now) o Ha). simpl in E. lia.
  - intros a' ie' [[<- <-]|[_ Ha']]%lookup_insert_Some; [by apply (He a ie)|by eapply He].
Qed.

Lemma getOne_ok cf s bl a now :
  abs_dir (cf_dir cf) -> holds cf s bl ->
  let '(s', item) := getOne cf s a now in
  answer cf s bl a item /\ holds cf s' bl /\ outputs s' = outputs s /\
  (forall a' item', answer cf s' bl a' item' -> answer cf s bl a' item') /\
  hits (counters s') + misses (counters s') = hits (counters s) + misses (counters s) + 1.
Proof.
  intros Hd Hh. unfold getOne, answer. destruct (index s !! a) as [ie|] eqn:Ha.
  2: { simpl. split_and!; try done. lia. }
  destruct (_ && _) eqn:Eb; simpl.
  { split_and!; try done. lia. }
  split.
  { destruct (proj2 Hh a ie Ha) as (b & Hb & _). exists b. split; [done|]. split; [done|].
    by apply (served_stored cf s bl a ie b). }
  split; [by apply (holds_touch cf s)|]. split; [done|]. split; [|lia].
  intros a' item'. destruct (decide (a' = a)) as [->|Hne].
  - rewrite lookup_insert_eq, Ha. simpl. rewrite Eb. done.
  - by rewrite lookup_insert_ne.
Qed.

Lemma get_ok cf s bl req :
  abs_dir (cf_dir cf) -> holds cf s bl ->
  let '(s', items) := get cf s req in
  Forall2 (fun q item => answer cf s bl q.1 item) req items /\ holds cf s' bl /\ outputs s' = outputs s /\
  hits (counters s') + misses (counters s') = hits (counters s) + misses (counters s) + Z.of_nat (length req).
Proof.
  intros Hd. revert s. induction req as [|[a now] req IH]; intros s Hh; simpl.
  { split_and!; try done. lia. }
  assert (H1 := getOne_ok cf s bl a now Hd Hh).
  destruct (getOne cf s a now) as [s1 item]. destruct H1 as (Ha & Hh1 & Ho1 & Hback & Hc1).
  specialize (IH s1 Hh1). destruct (get cf s1 req) as [s2 items]. destruct IH as (Hf & Hh2 & Ho2 & Hc2).
  split_and!; [|done|congruence|lia].
  constructor; [done|]. eapply Forall2_impl; [exact Hf|]. intros [a' t] item'. apply Hback.
Qed.

(** [Get] answers every action of the request, in its order: a stored action
    with an item whose body is exactly the stored bytes of its output and whose
    metadata is that of its entry, any other action with a miss.  Nothing stored
    changes, and every action counts as one hit or one miss. *)
Theorem Get_serves_stored cf s bl req
    (Hd : abs_dir (cf_dir cf)) (Hh : holds cf s bl) :
  let '(s', items) := Get cf s req in
  Forall2 (fun q item => answer cf s bl q.1 item) req items /\ holds cf s' bl /\ outputs s' = outputs s /\
  hits (counters s') + misses (counters s') = hits (counters s) + misses (counters s) + Z.of_nat (length req).
Proof. by apply get_ok. Qed.

(** ** Round trip *)

Section roundtrip.
Context `{Zstd}.

Lemma delivers_whole rd b : delivers (Some rd) b -> rd = fromBytes b.
Proof. unfold delivers, ReadAll. destruct rd as [d [e|]]; simpl; [done|]. by intros [= <-]. Qed.

(** An uncompressed body, read through the entry it was stored with. *)
Lemma plain_readable m b :
  ri_IsCompressed m = false -> ri_WireSize m = 0 -> blen b = ri_Size m ->
  exists rd, ItemUncompressedBodyReader (mkResponseItem m (Some (Ok (fromBytes b)))) = Ok rd /\ delivers rd b.
Proof.
  intros Hc Hw Hs. unfold ItemUncompressedBodyReader, ItemWireBodyReader, noBody. simpl. rewrite Hc, Hw.
  rewrite andb_true_r. destruct (Z.eqb_spec (ri_Size m) 0) as [E|E]; [|by exists (Some (fromBytes b))].
  exists None. split; [done|]. destruct b; [done|]. unfold blen in Hs. simpl in Hs. lia.
Qed.

Lemma compressed_readable m b zrd :
  ri_IsCompressed m = true -> noBody m = false -> zstdReader (fromBytes b) = Ok zrd ->
  ItemUncompressedBodyReader (mkResponseItem m (Some (Ok (fromBytes b)))) = Ok (Some zrd).
Proof.
  intros Hc Hn Hz. unfold ItemUncompressedBodyReader, ItemWireBodyReader. simpl. by rewrite Hn, Hc, Hz.
Qed.

(** The body a put stores, read back through the entry it makes, is the
    uncompressed body the item came with. *)
Lemma putting_readable cf item args ie0 rd b c m :
  putting cf item args = Ok (ie0, rd) -> delivers rd b -> blen b = entryStoredSize ie0 ->
  0 <= ri_Size (ri_meta item) -> 0 <= ri_WireSize (ri_meta item) ->
  (exists rd0, ItemUncompressedBodyReader item = Ok rd0 /\ delivers rd0 c) ->
  ri_Size m = ie_Size ie0 -> ri_IsCompressed m = (ie_Compressed ie0 =? 1) -> ri_WireSize m = ie_WireSize ie0 ->
  exists rd', ItemUncompressedBodyReader (mkResponseItem m (Some (Ok (fromBytes b)))) = Ok rd' /\ delivers rd' c.
Proof.
  intros Hs Hb Hl Hsz Hwz (rd0 & Hu & Hc) Em1 Em2 Em3.
  assert (Hplain : (ie0, rd) = (newEntry item (pa_now args), rd0) ->
    exists rd', ItemUncompressedBodyReader (mkResponseItem m (Some (Ok (fromBytes b)))) = Ok rd' /\ delivers rd' c).
  { intros [= -> ->]. assert (b = c) as ->.
    { destruct rd0; unfold delivers in *; congruence. }
    apply plain_readable; simpl in *; [by rewrite Em2|done|by rewrite Em1]. }
  unfold putting, bodyReaderForPut in Hs. destruct (ri_IsCompressed (ri_meta item)) eqn:Ecomp, (cf_compress cf); simpl in Hs.
  - (* kept compressed *)
    unfold ItemUncompressedBodyReader in Hu. rewrite Ecomp in Hu.
    destruct (ItemWireBodyReader item) as [[rd1|]|] eqn:Ebody; [|..|done]; injection Hs as <- <-; simpl in *.
    + apply (delivers_whole rd1 b) in Hb as ->.
      destruct (zstdReader (fromBytes b)) as [zrd|] eqn:Ez; [|done]. injection Hu as <-.
      exists (Some zrd). split; [|done]. apply compressed_readable; [done| |done].
      unfold ItemWireBodyReader in Ebody. unfold noBody in *. rewrite Em1, Em3. by case_match.
    + subst b. injection Hu as <-. simpl in Hc. subst c. exists None. split; [|done].
      unfold ItemUncompressedBodyReader, ItemWireBodyReader, noBody in *. simpl.
      rewrite Em1, Em3. repeat (case_match; simplify_eq; try done).
  - rewrite Hu in Hs. apply Hplain. by injection Hs as <- <-.
  - destruct (MinCompressionSize <=? _) eqn:Emin; [|rewrite Hu in Hs; apply Hplain; by injection Hs as <- <-].
    unfold compressNowBodyReader, ItemCompressedBodyReader in Hs.
    unfold ItemUncompressedBodyReader in Hu. rewrite Ecomp in *. go_bool.
    destruct (ItemWireBodyReader item) as [[rd1|]|] eqn:Ebody; try done. injection Hu as <-.
    destruct (ReadAll rd1) as [data|] eqn:Erd; [|done]. simpl in Hs. injection Hs as <- <-.
    assert (data = c) as -> by (unfold delivers in Hc; congruence).
    unfold delivers in Hb. simpl in *. injection Hb as <-.
    exists (Some (fromBytes c)). split; [|done]. apply compressed_readable; [done| |apply zstdReader_Encode].
    unfold noBody. rewrite Em1. rewrite (proj2 (Z.eqb_neq _ 0)) by (unfold MinCompressionSize in *; lia). done.
  - rewrite Hu in Hs. apply Hplain. by injection Hs as <- <-.
Qed.

(** The same output id, the same bytes, encoded the same way. *)
Definition same_content (cf : Config) (bl : gmap bytes bytes) (item : ResponseItem) (args : putArgs) : Prop :=
  forall ie rd b, putting cf item args = Ok (ie, rd) -> bl !! ri_OutputID (ri_meta item) = Some b ->
    delivers rd b /\ entryStoredSize ie = blen b.

(** C11: put, then get.  After a put that ended well, a get of the action is a hit with
    the output and the size of the put, and the item served decompresses to the
    uncompressed body the put carried: kept compressed, decompressed, compressed by
    the store or as it came, in the pool or in a file -- unless the item is over the
    size limit: then the put ends well too and has stored nothing.  An output that is
    already stored, for this action or another, is not written again: the put must be
    of the very bytes that are stored, in the same encoding ([same_content]; with
    another encoding the item served does not decode, [shared_output_other_encoding]). *)
Theorem local_put_get_roundtrip cf s bl item args s' c now
    (Hd : abs_dir (cf_dir cf)) (Hh : holds cf s bl) (Hid : good_id (ri_OutputID (ri_meta item)))
    (Hca : same_content cf bl item args) (Hleft : forall n, pages_left (pool (outputs s)) n)
    (Hsize : 0 <= ri_Size (ri_meta item)) (Hwire : 0 <= ri_WireSize (ri_meta item))
    (Hbody : exists rd0, ItemUncompressedBodyReader item = Ok rd0 /\ delivers rd0 c)
    (Hput : putOne cf s item args = (s', Ok tt)) :
  if oversized cf item then s' = s
  else
    let got := ItemPrepareBodyReader (snd (getOne cf s' (ri_ActionID (ri_meta item)) now)) (openFile (outputs s')) in
    ri_Miss (ri_meta got) = false /\ ri_ActionID (ri_meta got) = ri_ActionID (ri_meta item) /\
    ri_OutputID (ri_meta got) = ri_OutputID (ri_meta item) /\ ri_Size (ri_meta got) = ri_Size (ri_meta item) /\
    exists rd, ItemUncompressedBodyReader got = Ok rd /\ delivers rd c.
Proof.
  destruct (oversized cf item) eqn:Hover.
  { unfold putOne in Hput. fold (oversized cf item) in Hput. rewrite Hover in Hput. congruence. }
  set (a := ri_ActionID (ri_meta item)). apply (local_putOne_spec cf s bl) in Hput; try done.
  2: { intros ie rd b Hp Hb. apply (Hca ie rd b Hp Hb). }
  destruct Hput as [[? _]|(ie0 & rd & ie & b & Hp & Hie & Hb & Hi & Hh')]; [congruence|].
  assert (Ha : index s' !! a = Some ie) by (rewrite Hi; apply lookup_insert_eq).
  assert (Hout : ie_OutputID ie = ri_OutputID (ri_meta item)).
  { rewrite Hie. simpl. by apply (putting_output cf item args ie0 rd). }
  assert (Hstored : after_put (index s) bl a (ri_OutputID (ri_meta item)) b !! ie_OutputID ie = Some b).
  { rewrite Hout. apply lookup_insert_eq. }
  destruct (proj2 Hh' a ie Ha) as (b' & Hb' & Hlen & _).
  assert (Some b' = Some b) as [= ->] by (etrans; [symmetry; exact Hb'|exact Hstored]).
  assert (Hdel : delivers rd b) by (destruct Hb as [Hb|[_ ?]]; [by apply (Hca ie0 rd b Hp Hb)|done]).
  assert (Hg := served_stored cf s' _ a ie b Hd Hh' Ha Hstored). unfold served in Hg.
  assert (Hsz : ie_Size ie = ri_Size (ri_meta item)).
  { rewrite Hie. simpl. unfold putting in Hp. clear -Hp. unfold bodyReaderForPut, compressNowBodyReader in Hp.
    repeat (case_match; simplify_eq/=; try done);
      repeat match type of Hp with context [match ?x with _ => _ end] => destruct x; simplify_eq/= end; done. }
  cbv zeta. unfold getOne. rewrite Ha, Hsz. unfold oversized in Hover. rewrite Hover. simpl.
  change (responseItem cf (outputs s') a (touch ie now)) with (responseItem cf (outputs s') a ie).
  rewrite Hg. split_and!; [done..|]. apply (putting_readable cf item args ie0 rd b c); try done; try by rewrite Hie.
  rewrite <-(entryStoredSize_with_loc ie0 (entryLoc ie)), <-Hie. done.
Qed.
End roundtrip.

(** ** The integrity check *)

Section integrity.
Context `{Zstd} (cf : Config) (Hdir : abs_dir (cf_dir cf)).

(** Whether bytes are a body for an entry: they decode as it says, to its size. *)
Definition readable (ie : indexEntry) (b : bytes) : result unit :=
  match ItemUncompressedBodyReader (mkResponseItem (served_meta cf [] ie) (Some (Ok (fromBytes b)))) with
  | Err e => Err e
  | Ok None => if negb (ie_Size ie =? 0) then Err (EMsg "missing body for non-empty entry") else Ok tt
  | Ok (Some rd) =>
      let? b := ReadAll rd in
      if negb (blen b =? ie_Size ie) then Err (EMsg "size mismatch") else Ok tt
  end.

Definition verdict (bl : gmap bytes bytes) (ie : indexEntry) : result unit :=
  match bl !! ie_OutputID ie with Some b => readable ie b | None => Err ENotExist end.

(** The reference: each output is judged once, by the first entry met that has it,
    on the outputs as they are when the check starts. *)
Fixpoint judged (bl : gmap bytes bytes) (verified : gmap bytes (result unit)) (l : list (bytes * indexEntry))
    : list (bytes * indexEntry * result unit) :=
  match l with
  | [] => []
  | (a, ie) :: l =>
      let r := default (verdict bl ie) (verified !! ie_OutputID ie) in
      (a, ie, r) :: judged bl (<[ie_OutputID ie := r]> verified) l
  end.

Definition broken_of (removed : bool) (j : bytes * indexEntry * result unit) : option brokenEntry :=
  let '(a, ie, r) := j in
  match r with Ok _ => None | Err e => Some (a, ie, e, removed) end.

Lemma verifyOutput_stored s bl a ie :
  holds cf s bl -> index s !! a = Some ie -> verifyOutput cf (outputs s) ie = verdict bl ie.
Proof.
  intros Hh Ha. destruct (proj2 Hh a ie Ha) as (b & Hb & _).
  assert (Hg := served_described cf s bl [] ie b Hdir Hh (proj2 Hh a ie Ha) Hb).
  unfold verifyOutput, verdict. rewrite Hb. unfold readable, served, openFile in *. by rewrite Hg.
Qed.

(** The entries that the check removes. *)
Definition dropped_by (l : list (bytes * indexEntry * result unit)) (idx : gmap bytes indexEntry) : gmap bytes indexEntry :=
  foldl (fun idx j => match j.2 with Ok _ => idx | Err _ => delete j.1.1 idx end) idx l.

Lemma removeIfUnchanged_ok s bl a ie :
  holds cf s bl -> index s !! a = Some ie ->
  exists s', removeIfUnchanged cf s a ie = (s', true) /\ index s' = delete a (index s) /\
    holds cf s' (without_use (uses (index s)) bl (ie_OutputID ie)).
Proof.
  intros Hh Ha. unfold removeIfUnchanged. rewrite Ha, bool_decide_eq_true_2 by done.
  eexists. split; [done|]. split; [done|].
  exact (local_holds_remove cf s bl a ie Hdir Hh Ha).
Qed.

Lemma integrityLoop_ok l s bl bl0 verified dryRun :
  holds cf s bl -> NoDup l.*1 -> (forall a ie, (a, ie) ∈ l -> index s !! a = Some ie) ->
  (forall a ie, (a, ie) ∈ l -> verified !! ie_OutputID ie = None -> bl !! ie_OutputID ie = bl0 !! ie_OutputID ie) ->
  let '(s', broken) := integrityLoop cf s dryRun verified l in
  let j := judged bl0 verified l in
  broken = omap (broken_of (negb dryRun)) j /\
  if dryRun then s' = s
  else index s' = dropped_by j (index s) /\ exists bl', holds cf s' bl' /\ bl' ⊆ bl.
Proof.
  revert s bl verified. induction l as [|[a ie] l IH]; intros s bl verified Hh Hnd Hin Hbl; simpl.
  { split; [done|]. destruct dryRun; [done|]. split; [done|]. by exists bl. }
  apply NoDup_cons in Hnd as [Hna Hnd].
  assert (Ha : index s !! a = Some ie) by (apply Hin, list_elem_of_here).
  assert (Hin' : forall a' ie', (a', ie') ∈ l -> a' <> a /\ index s !! a' = Some ie').
  { intros a' ie' Hl. split; [|apply Hin; by apply list_elem_of_further].
    intros ->. apply Hna. apply list_elem_of_fmap. by exists (a, ie'). }
  set (r := match verified !! ie_OutputID ie with Some r => r | None => verifyOutput cf (outputs s) ie end).
  assert (Hr : r = default (verdict bl0 ie) (verified !! ie_OutputID ie)).
  { unfold r. destruct (verified !! ie_OutputID ie) eqn:Ev; [done|]. simpl.
    rewrite (verifyOutput_stored s bl a ie Hh Ha). unfold verdict.
    by rewrite (Hbl a ie (list_elem_of_here _ _) Ev). }
  rewrite <-Hr. clearbody r. clear Hr.
  assert (Hbl' : forall bl' : gmap bytes bytes, (forall o, o <> ie_OutputID ie -> bl' !! o = bl !! o) ->
    forall a' ie', (a', ie') ∈ l -> <[ie_OutputID ie := r]> verified !! ie_OutputID ie' = None ->
    bl' !! ie_OutputID ie' = bl0 !! ie_OutputID ie').
  { intros bl' Hsame a' ie' Hl [Hv Hne]%lookup_insert_None. rewrite Hsame by done.
    apply (Hbl a' ie'); [by apply list_elem_of_further|done]. }
  destruct r as [[]|e].
  - specialize (IH s bl (<[ie_OutputID ie := Ok tt]> verified) Hh Hnd).
    destruct (integrityLoop cf s dryRun _ l) as [s' broken]. apply IH; [intros; by apply Hin'|by apply Hbl'].
  - destruct dryRun; simpl.
    + specialize (IH s bl (<[ie_OutputID ie := Err e]> verified) Hh Hnd).
      destruct (integrityLoop cf s true _ l) as [s' broken]. simpl in IH.
      destruct IH as [-> ->]; [intros; by apply Hin'|by apply Hbl'|done].
    + destruct (removeIfUnchanged_ok s bl a ie Hh Ha) as (s1 & -> & Hi & Hh1).
      specialize (IH s1 _ (<[ie_OutputID ie := Err e]> verified) Hh1 Hnd). simpl.
      destruct (integrityLoop cf s1 false _ l) as [s' broken]. simpl in IH.
      destruct IH as (-> & Hs' & bl' & Hh' & Hsub).
      * intros a' ie' Hl. destruct (Hin' a' ie' Hl). rewrite Hi. by rewrite lookup_delete_ne.
      * apply Hbl'. intros o Hne. apply without_use_other. by left.
      * split; [done|]. rewrite <-Hi. split; [done|]. exists bl'. split; [done|].
        etrans; [exact Hsub|apply without_use_sub].
Qed.

Definition entries_in (idx : gmap bytes indexEntry) (order : list bytes) : list (bytes * indexEntry) :=
  omap (fun a => (fun ie => (a, ie)) <$> idx !! a) order.

Lemma entries_in_spec idx order :
  range_of idx order ->
  NoDup (entries_in idx order).*1 /\ (forall a ie, (a, ie) ∈ entries_in idx order <-> idx !! a = Some ie).
Proof.
  intros [Hnd Hin]. split.
  - clear Hin. unfold entries_in. induction order as [|a order IH]; simpl; [constructor|].
    apply NoDup_cons in Hnd as [Hna Hnd]. destruct (idx !! a) as [ie|]; simpl; [|by apply IH].
    constructor; [|by apply IH]. intros ([a' ie'] & E & Hl)%list_elem_of_fmap. simpl in E. subst a'.
    apply list_elem_of_omap in Hl as (a' & Ha' & E). destruct (idx !! a'); simplify_eq/=. done.
  - intros a ie. unfold entries_in. rewrite list_elem_of_omap. split.
    + intros (a' & _ & E). destruct (idx !! a') eqn:Ea; simplify_eq/=. done.
    + intros Ha. exists a. rewrite Ha. split; [|done]. apply Hin. eauto.
Qed.

(** The integrity check is the reference check.  Over a store that no request
    touches it reports, for any order of the index, exactly the entries whose
    output does not decode to the size of the first entry with that output; a dry
    run changes nothing, otherwise exactly the reported entries leave the index,
    with the storage that only they used, and the rest of the store stays held. *)
Theorem IntegrityCheck_is_reference s bl range dryRun
    (Hh : holds cf s bl) (Hrange : range_of (index s) (range (index s))) :
  let j := judged bl ∅ (entries_in (index s) (range (index s))) in
  let '(s', (checked, broken)) := IntegrityCheck cf range s dryRun in
  checked = Z.of_nat (length j) /\ broken = omap (broken_of (negb dryRun)) j /\
  if dryRun then s' = s
  else index s' = dropped_by j (index s) /\ exists bl', holds cf s' bl' /\ bl' ⊆ bl.
Proof.
  intros j. unfold IntegrityCheck. fold (entries_in (index s) (range (index s))).
  destruct (entries_in_spec _ _ Hrange) as [Hnd Hin].
  assert (Hl := integrityLoop_ok (entries_in (index s) (range (index s))) s bl bl ∅ dryRun Hh Hnd).
  destruct (integrityLoop _ _ _ _ _) as [s' broken].
  assert (Hlen : forall v l, length (judged bl v l) = length l).
  { intros v l. revert v. induction l as [|[a ie] l IH]; intros v; simpl; [done|]. by rewrite IH. }
  unfold j. rewrite Hlen. split; [done|]. apply Hl; [|done]. intros a ie. apply Hin.
Qed.
End integrity.

(** ** Durability *)

(** The outputs rebuilt so far: those of the entries [part] of the index. *)
Record rebuilt (bl : gmap bytes bytes) (L : gmap bytes Loc) (fs : gmap bytes bytes) (p1 : Pool)
    (part : gmap bytes indexEntry) (out : Outputs) (seen : gset bytes) (ks : list (Z * Loc)) : Prop := {
  rb_refs o : outputRefs out !! o = if (uses part o =? 0)%nat then None else Some (Z.of_nat (uses part o));
  rb_seen o : o ∈ seen <-> uses part o <> 0%nat;
  rb_sizes : outputSizes out = blen <$> filter (fun kv : bytes * bytes => kv.1 ∈ seen) bl;
  rb_bytes : currentDiskBytes out = map_sum blen (filter (fun kv : bytes * bytes => kv.1 ∈ seen) bl);
  rb_locs o : outputLocs out !! o = if bool_decide (o ∈ seen) then L !! o else None;
  rb_pool : core (pool out) = core (noteAll p1 ks);
  rb_keys k : k ∈ ks <-> exists o b l, o ∈ seen /\ bl !! o = Some b /\ L !! o = Some l /\ k = (blen b, l);
  rb_files : files out = fs;
}.

(** One more output joins those seen. *)
Lemma seen_insert (bl : gmap bytes bytes) (seen : gset bytes) o b :
  bl !! o = Some b ->
  filter (fun kv : bytes * bytes => kv.1 ∈ {[o]} ∪ seen) bl =
  <[o := b]> (filter (fun kv : bytes * bytes => kv.1 ∈ seen) bl).
Proof.
  intros Hb. apply map_eq. intros o'. apply option_eq. intros x.
  rewrite map_lookup_filter_Some, lookup_insert_Some, map_lookup_filter_Some. simpl.
  destruct (decide (o' = o)) as [->|]; [|set_solver].
  rewrite Hb. set_solver.
Qed.

Lemma seen_refs (part : gmap bytes indexEntry) a ie n :
  part !! a = None -> (if (uses part (ie_OutputID ie) =? 0)%nat then None else Some (Z.of_nat (uses part (ie_OutputID ie)))) = n ->
  forall o, (if (uses (<[a := ie]> part) o =? 0)%nat then None else Some (Z.of_nat (uses (<[a := ie]> part) o)))
    = if bool_decide (o = ie_OutputID ie) then Some (default 0 n + 1)
      else if (uses part o =? 0)%nat then None else Some (Z.of_nat (uses part o)).
Proof.
  intros Ha <- o. rewrite (uses_insert_new _ _ _ _ Ha). case_bool_decide as E.
  - subst. rewrite bool_decide_eq_true_2 by done. destruct (Nat.eqb_spec (uses part (ie_OutputID ie)) 0) as [->|]; simpl; [done|].
    f_equal. lia.
  - by rewrite bool_decide_eq_false_2 by congruence.
Qed.

Lemma if_bool_decide_ext {A} (P Q : Prop) `{Decision P, Decision Q} (x y : A) :
  (P <-> Q) -> (if bool_decide P then x else y) = (if bool_decide Q then x else y).
Proof. intros HPQ. by rewrite (bool_decide_ext P Q HPQ). Qed.

Lemma uses_seen (part : gmap bytes indexEntry) a ie o :
  part !! a = None ->
  uses (<[a := ie]> part) o <> 0%nat <-> o = ie_OutputID ie \/ uses part o <> 0%nat.
Proof.
  intros Ha. rewrite (uses_insert_new _ _ _ _ Ha). case_bool_decide; simpl; [split; [by left|lia]|].
  split; [by right|]. intros [?|?]; [congruence|done].
Qed.

(** A round over an entry that describes a stored output. *)
Lemma rebuildStep_ok cf bl L fs p1 idx part out seen ks a ie b :
  rebuilt bl L fs p1 part out seen ks ->
  idx !! a = Some ie -> part !! a = None -> bl !! ie_OutputID ie = Some b ->
  blen b = entryStoredSize ie -> entryLoc ie = default zeroLoc (L !! ie_OutputID ie) ->
  (forall l, L !! ie_OutputID ie = Some l -> IsZero l = false /\ Valid p1 (blen b) l = true) ->
  (L !! ie_OutputID ie = None -> fs !! OutputFilename cf (ie_OutputID ie) = Some b) ->
  (forall s l, Valid (noteAll p1 ks) s l = Valid p1 s l) ->
  exists out' seen' ks', rebuildStep cf (idx, out, seen, false) a = (idx, out', seen', false) /\
    rebuilt bl L fs p1 (<[a := ie]> part) out' seen' ks'.
Proof.
  intros [H1 H2 H3 H4 H5 H6 H7 H8] Ha Hp Hb Hs Hl HL Hfs Hval. unfold rebuildStep. rewrite Ha.
  set (o := ie_OutputID ie) in *. fold (entryLoc ie).
  assert (Hv : Valid (pool out) (entryStoredSize ie) (entryLoc ie) = true).
  { rewrite (Valid_core _ _ _ _ H6), Hval, Hl, <-Hs. destruct (L !! o) as [l|]; simpl; [by apply HL|].
    by unfold Valid. }
  rewrite Hv. simpl. unfold refs.
  assert (Hrf := seen_refs part a ie _ Hp eq_refl). fold o in Hrf. rewrite <-H1 in Hrf.
  assert (Hrefs : forall o', <[o := default 0 (outputRefs out !! o) + 1]> (outputRefs out) !! o' =
    if (uses (<[a := ie]> part) o' =? 0)%nat then None else Some (Z.of_nat (uses (<[a := ie]> part) o'))).
  { intros o'. rewrite Hrf. case_bool_decide as E; [subst; by rewrite lookup_insert_eq|].
    by rewrite lookup_insert_ne by congruence. }
  assert (Huse := fun o' => uses_seen part a ie o' Hp). fold o in Huse.
  case_bool_decide as Hseen.
  { eexists _, seen, ks. split; [done|]. split; simpl; try done.
    intros o'. rewrite Huse, <-H2. split; [by right|]. intros [->|?]; done. }
  assert (Hsz : forall x, x = blen b -> <[o := x]> (outputSizes out) =
    blen <$> filter (fun kv : bytes * bytes => kv.1 ∈ {[o]} ∪ seen) bl).
  { intros x ->. by rewrite (seen_insert bl seen o b Hb), fmap_insert, H3. }
  assert (Hby : currentDiskBytes out + blen b =
    map_sum blen (filter (fun kv : bytes * bytes => kv.1 ∈ {[o]} ∪ seen) bl)).
  { rewrite (seen_insert bl seen o b Hb), map_sum_insert_None, H4; [lia|].
    apply map_lookup_filter_None. right. intros x _. done. }
  assert (Hse : forall o', o' ∈ {[o]} ∪ seen <-> uses (<[a := ie]> part) o' <> 0%nat).
  { intros o'. rewrite Huse, <-H2. set_solver. }
  destruct (L !! o) as [l|] eqn:El; simpl in Hl.
  - destruct (HL l eq_refl) as [Hz _]. rewrite Hl, Hz.
    eexists _, ({[o]} ∪ seen), (ks ++ [(blen b, l)]). split; [done|].
    rewrite <-Hs. split; simpl; try done.
    + by apply Hsz.
    + intros o'. destruct (decide (o' = o)) as [->|Hne].
      * rewrite lookup_insert_eq, bool_decide_eq_true_2 by set_solver. done.
      * rewrite lookup_insert_ne, H5 by done. apply if_bool_decide_ext. set_solver.
    + unfold noteAll in *. rewrite foldl_app. simpl. by apply NoteOccupied_core.
    + intros k. rewrite elem_of_app, list_elem_of_singleton, H7. split.
      * intros [(o' & b' & l' & Hin & ?)| ->]; [exists o', b', l'; split; [set_solver|done]|].
        exists o, b, l. split; [set_solver|done].
      * intros (o' & b' & l' & Hin & Hb' & Hl' & ->). destruct (decide (o' = o)) as [->|Hne].
        { right. congruence. } left. exists o', b', l'. split; [set_solver|done].
  - rewrite Hl. unfold IsZero, zeroLoc. simpl.
    assert (Hf : files out !! OutputFilename cf o = Some b) by (rewrite H8; by apply Hfs).
    assert (Hpath : outputPathForRead cf (files out) o = OutputFilename cf o).
    { unfold outputPathForRead, exists_file. by rewrite bool_decide_eq_true_2 by (rewrite Hf; eauto). }
    rewrite Hpath, Hf. eexists _, ({[o]} ∪ seen), ks. split; [done|]. split; simpl; try done.
    + by apply Hsz.
    + intros o'. rewrite H5. destruct (decide (o' = o)) as [->|Hne].
      * rewrite El. by repeat case_bool_decide.
      * apply if_bool_decide_ext. set_solver.
    + by rewrite NoteUnpromoted_core.
    + intros k. rewrite H7. split.
      * intros (o' & b' & l' & Hin & ?). exists o', b', l'. split; [set_solver|done].
      * intros (o' & b' & l' & Hin & Hb' & Hl' & ->). exists o', b', l'. split; [|done].
        assert (o' <> o) by congruence. set_solver.
Qed.

Lemma Valid_noteAll ks p s l : Valid (noteAll p ks) s l = Valid p s l.
Proof.
  revert p. induction ks as [|[s' l'] ks IH]; intros p; simpl; [done|].
  change (Valid (noteAll (NoteOccupied p s' l') ks) s l = Valid p s l).
  by rewrite IH, Valid_NoteOccupied.
Qed.

(** The part of an index with the actions of a list. *)
Definition part_of (idx : gmap bytes indexEntry) (l : list bytes) : gmap bytes indexEntry :=
  filter (fun kv : bytes * indexEntry => kv.1 ∈ l) idx.

Lemma part_of_snoc idx l a ie :
  idx !! a = Some ie -> part_of idx (l ++ [a]) = <[a := ie]> (part_of idx l).
Proof.
  intros Ha. apply map_eq. intros k. apply option_eq. intros x. unfold part_of.
  rewrite map_lookup_filter_Some, lookup_insert_Some, map_lookup_filter_Some. simpl.
  rewrite elem_of_app, list_elem_of_singleton. destruct (decide (k = a)) as [->|]; [|naive_solver].
  rewrite Ha. naive_solver.
Qed.

Lemma part_of_fresh idx l a : a ∉ l -> part_of idx l !! a = None.
Proof. intros Ha. apply map_lookup_filter_None. right. intros x _. done. Qed.

Lemma part_of_all idx l : range_of idx l -> part_of idx l = idx.
Proof.
  intros [_ Hin]. apply map_eq. intros k. apply option_eq. intros x. unfold part_of.
  rewrite map_lookup_filter_Some. simpl. rewrite Hin. split; [tauto|]. intros Hk. split; [done|eauto].
Qed.

Section restart.
Context (cf : Config) (s : Store) (bl : gmap bytes bytes).
Context (Hdir : abs_dir (cf_dir cf)) (Hh : holds cf s bl).

(** The index is walked once; every entry counts its output, each output once. *)
Lemma rebuild_ok p1 l pre out seen ks :
  (forall o b l, bl !! o = Some b -> outputLocs (outputs s) !! o = Some l -> Valid p1 (blen b) l = true) ->
  NoDup (pre ++ l) -> (forall a, a ∈ l -> is_Some (index s !! a)) ->
  rebuilt bl (outputLocs (outputs s)) (files (outputs s)) p1 (part_of (index s) pre) out seen ks ->
  exists out' seen' ks',
    foldl (rebuildStep cf) (index s, out, seen, false) l = (index s, out', seen', false) /\
    rebuilt bl (outputLocs (outputs s)) (files (outputs s)) p1 (part_of (index s) (pre ++ l)) out' seen' ks'.
Proof.
  intros Hval. revert pre out seen ks. induction l as [|a l IH]; intros pre out seen ks Hnd Hin Hr; cbn [foldl].
  { rewrite app_nil_r. by exists out, seen, ks. }
  destruct (Hin a (list_elem_of_here _ _)) as [ie Ha].
  assert (Hfresh : a ∉ pre).
  { apply NoDup_app in Hnd as (_ & Hd & _). intros Hp. apply (Hd a Hp), list_elem_of_here. }
  destruct Hh as [Ho He]. destruct (He a ie Ha) as (b & Hb & Hs & Hl).
  destruct (rebuildStep_ok cf bl _ _ p1 (index s) _ out seen ks a ie b Hr Ha
    (part_of_fresh _ _ _ Hfresh) Hb Hs Hl) as (out1 & seen1 & ks1 & -> & Hr1).
  - intros l' Hl'. split; [by apply (oo_locs _ _ _ _ _ Ho) in Hl' as [? _]|by apply (Hval (ie_OutputID ie) b)].
  - intros Hn. by apply (oo_plain _ _ _ _ _ Ho).
  - intros s' l'. apply Valid_noteAll.
  - rewrite cons_middle, app_assoc. apply (IH (pre ++ [a]) out1 seen1 ks1).
    + by rewrite <-app_assoc.
    + intros a' Ha'. apply Hin. by apply list_elem_of_further.
    + by rewrite (part_of_snoc _ _ _ _ Ha).
Qed.

Lemma rebuilt_start p1 fs :
  rebuilt bl (outputLocs (outputs s)) fs p1 (part_of (index s) []) (mkOutputs ∅ ∅ ∅ 0 p1 fs) ∅ [].
Proof.
  clear Hdir Hh. assert (E : part_of (index s) [] = ∅).
  { apply map_eq. intros k. rewrite lookup_empty. apply part_of_fresh. set_solver. }
  assert (Hu : forall o, uses ∅ o = 0%nat) by done.
  rewrite E. split; simpl; try done.
  - rewrite map_empty_filter_2, fmap_empty; [done|]. intros o b _. set_solver.
  - rewrite map_empty_filter_2, map_sum_empty; [done|]. intros o b _. set_solver.
  - intros k. split; [by intros ?%elem_of_nil|]. intros (o & b & l & Hin & _). set_solver.
Qed.

(** Everything walked and the pool reconciled, the store is held as before. *)
Lemma rebuilt_holds p1 out seen ks m c :
  rebuilt bl (outputLocs (outputs s)) (files (outputs s)) p1 (index s) out seen ks ->
  models (pool (outputs s)) m -> pool_owned bl (outputLocs (outputs s)) ∅ m ->
  wf (FinishReconcile (noteAll p1 ks)) -> models (FinishReconcile (noteAll p1 ks)) m ->
  holds cf (mkStore (index s) (set_storage out (FinishReconcile (pool out)) (files out)) false true false c) bl /\
  outputLocs out = outputLocs (outputs s).
Proof.
  intros [H1 H2 H3 H4 H5 H6 H7 H8] Hm Hp Hw Hm'. destruct Hh as [Ho He].
  assert (Hall : forall o b, bl !! o = Some b -> o ∈ seen).
  { intros o b Hb. apply H2, (oo_blobs _ _ _ _ _ Ho). eauto. }
  assert (Hsub : filter (fun kv : bytes * bytes => kv.1 ∈ seen) bl = bl).
  { apply map_filter_id. intros o b Hb. by eapply Hall. }
  assert (Hlocs : outputLocs out = outputLocs (outputs s)).
  { apply map_eq. intros o. rewrite H5. case_bool_decide as Hin; [done|].
    destruct (outputLocs (outputs s) !! o) as [l|] eqn:El; [|done].
    destruct (oo_locs _ _ _ _ _ Ho o l El) as [_ [b Hb]]. by apply Hall in Hb. }
  rewrite Hsub in *. assert (Hc := FinishReconcile_core _ _ (eq_sym H6)).
  split; [|done]. split; simpl.
  - split; simpl; try done.
    + by apply (oo_blobs _ _ _ _ _ Ho).
    + by apply (oo_id _ _ _ _ _ Ho).
    + rewrite Hlocs, H8. by apply (oo_plain _ _ _ _ _ Ho).
    + rewrite Hlocs. by apply (oo_locs _ _ _ _ _ Ho).
    + by eapply core_wf.
    + exists m. rewrite Hlocs. split; [|done]. by rewrite <-(core_view _ _ Hc).
  - intros a ie Ha. destruct (He a ie Ha) as (b & ?). exists b. simpl. by rewrite Hlocs.
Qed.
End restart.

(** The index file that [Close] relies on when nothing changed. *)
Definition index_file `{JSON (gmap bytes indexEntry)} (s : Store) (old : option bytes) : Prop :=
  dirty s = false -> exists data, old = Some data /\ Unmarshal data = Ok (index s).

Lemma local_Close_spec `{JSON (gmap bytes indexEntry)} s old dk :
  ready s = true -> json_ok (index s) -> index_file s old -> Close s old = Ok dk ->
  exists data, dk = mkDisk (Some data) (files (outputs s)) (disk (pool (outputs s))) /\
    Unmarshal data = Ok (index s).
Proof.
  intros Hr Hj Hs. unfold Close. rewrite Hr. simpl. destruct (dirty s) eqn:Hd; simpl.
  - destruct (Unmarshal_Marshal _ Hj) as (data & -> & _ & Hu). intros [= <-]. eauto.
  - intros [= <-]. destruct (Hs Hd) as (data & -> & Hu). eauto.
Qed.

(** C33: durability.  A store that is closed and opened again over what it left on
    disk, none of its entries over the size limit, holds what it held: the same
    index, every output with its bytes and place, references and accounting
    recomputed to the same values, and the records of the pool all occupied. *)
Theorem local_NewStore_after_Close `{JSON (gmap bytes indexEntry)} cf s bl old dk names range
    (Hd : abs_dir (cf_dir cf)) (Hh : holds cf s bl) (Hready : ready s = true)
    (Hj : json_ok (index s)) (Hold : index_file s old) (Hclose : Close s old = Ok dk)
    (Hmax : maxRecordBytes (pool (outputs s)) = DefaultMaxRecordBytes)
    (Hpb : pageBytes (pool (outputs s)) = DefaultPageBytes)
    (Hnames : forall x, x ∈ names <-> is_Some (dk_records dk !! x))
    (Hrange : range_of (index s) (range (index s)))
    (Hfit : forall a ie, index s !! a = Some ie ->
       (0 <? cf_maxFileBytes cf) && (cf_maxFileBytes cf <? ie_Size ie) = false) :
  exists s', NewStore cf dk (Ok (map (fun x => (x, false, None)) names)) range = Ok s' /\
    holds cf s' bl /\ index s' = index s /\ dirty s' = false /\ DiskBytes s' = DiskBytes s /\
    outputLocs (outputs s') = outputLocs (outputs s).
Proof.
  destruct (local_Close_spec s old dk Hready Hj Hold Hclose) as (data & -> & Hu). simpl in Hnames.
  assert (Ho := proj1 Hh). destruct (oo_pool _ _ _ _ _ Ho) as (m & Hm & Hp).
  assert (Hw := oo_wf _ _ _ _ _ Ho).
  destruct (restart_spec (pool (outputs s)) m names (map_to_list m).*1 Hw Hm Hnames) as (p1 & Hdp & Hv & _).
  { intros k. split.
    - intros ([k' b] & -> & Hk%elem_of_map_to_list)%list_elem_of_fmap. eauto.
    - intros [b Hb]. apply list_elem_of_fmap. exists (k, b). split; [done|]. by apply elem_of_map_to_list. }
  assert (Hval : forall o b l, bl !! o = Some b -> outputLocs (outputs s) !! o = Some l -> Valid p1 (blen b) l = true).
  { intros o b l Hb Hl. apply Hv. destruct (po_in _ _ _ _ Hp o b l Hb Hl) as [Hk _].
    apply list_elem_of_fmap. exists ((blen b, l), b). split; [done|]. by apply elem_of_map_to_list. }
  destruct (rebuild_ok cf s bl Hh p1 (range (index s)) []
    (mkOutputs ∅ ∅ ∅ 0 p1 (files (outputs s))) ∅ [] Hval (proj1 Hrange)) as (out & seen & ks & Hf & Hr).
  { intros a. apply Hrange. }
  { apply rebuilt_start. }
  simpl in Hr. rewrite (part_of_all _ _ Hrange) in Hr.
  destruct (restart_spec (pool (outputs s)) m names ks Hw Hm Hnames) as (p2 & Hdp2 & _ & Hwf & Hmod).
  { intros k. rewrite (rb_keys _ _ _ _ _ _ _ _ Hr). split.
    - intros (o & b & l & _ & Hb & Hl & ->). destruct (po_in _ _ _ _ Hp o b l Hb Hl) as [-> _]. eauto.
    - intros [b Hb]. apply (po_out _ _ _ _ Hp) in Hb as [Hb|(o & l & Hb & Hl & ->)].
      { by rewrite lookup_empty in Hb. }
      exists o, b, l. split; [|done]. apply (rb_seen _ _ _ _ _ _ _ _ Hr), (oo_blobs _ _ _ _ _ Ho). eauto. }
  rewrite Hdp in Hdp2. injection Hdp2 as <-.
  destruct (rebuilt_holds cf s bl Hh p1 out seen ks m (mkCounters 0 0 0 0 0 0) Hr Hm Hp Hwf Hmod) as [Hres Hlocs].
  unfold NewStore. cbn [dk_index dk_records dk_files]. rewrite Hu. cbn iota beta.
  assert (Hkeep : filter (fun kv : bytes * indexEntry =>
    ~ (0 <? cf_maxFileBytes cf) && (cf_maxFileBytes cf <? ie_Size kv.2) = true) (index s) = index s).
  { apply map_filter_id. intros a ie Ha. simpl. by rewrite (Hfit a ie Ha). }
  rewrite Hkeep, bool_decide_eq_true_2 by done. rewrite Hmax, Hpb in Hdp. rewrite Hdp. cbn [negb]. rewrite Hf.
  eexists. split; [done|]. split; [done|]. split; [done|]. split; [done|]. split; [|done].
  unfold DiskBytes. rewrite (oo_bytes _ _ _ _ _ (proj1 Hres)). by rewrite (oo_bytes _ _ _ _ _ Ho).
Qed.

(** ** The contract of a put *)

(** A put, on outputs that actions share.  A failed put leaves the index and
    everything stored as it was, wherever the body, the file system or the pool
    failed; a put over the size limit is dropped; any other put makes the entry of
    its action and of no other, for the output's bytes -- the stored ones when some
    action has the output already, else those of the body -- and drops the output
    the action had before exactly when no other action has it. *)
Theorem local_putOne_refines `{Zstd} cf s bl item args s' r
    (Hd : abs_dir (cf_dir cf)) (Hh : holds cf s bl) (Hid : good_id (ri_OutputID (ri_meta item)))
    (Hca : content_addressed cf bl item args) (Hleft : forall n, pages_left (pool (outputs s)) n)
    (Hput : putOne cf s item args = (s', r)) :
  let m := ri_meta item in
  match r with
  | Err _ => index s' = index s /\ holds cf s' bl
  | Ok _ =>
      (oversized cf item = true /\ s' = s) \/
      (exists ie0 rd ie b, putting cf item args = Ok (ie0, rd) /\ ie = with_loc ie0 (entryLoc ie) /\
         (bl !! ri_OutputID m = Some b \/ bl !! ri_OutputID m = None /\ delivers rd b) /\
         index s' = <[ri_ActionID m := ie]> (index s) /\
         holds cf s' (after_put (index s) bl (ri_ActionID m) (ri_OutputID m) b))
  end.
Proof. by apply local_putOne_spec. Qed.

(** ** Behaviours outside the assumptions *)

Definition exampleConfig (compress : bool) : Config := mkConfig #"/srv/cache" compress 2 0 0 false.
Definition exampleArgs : putArgs := mkPutArgs 5 #"7" noFaults None.
Definition emptyStore : Store :=
  mkStore ∅ (mkOutputs ∅ ∅ ∅ 0 smallPool ∅) false true false (mkCounters 0 0 0 0 0 0).
Definition bodyItem (a o body : bytes) : ResponseItem :=
  mkResponseItem (mkResponseMeta a false o (blen body) None false 0 []) (Some (Ok (fromBytes body))).

(** What a hit reads, uncompressed. *)
Definition readBack `{Zstd} (cf : Config) (s : Store) (a : bytes) : result (option bytes) :=
  let? rd := ItemUncompressedBodyReader
               (ItemPrepareBodyReader (snd (getOne cf s a 6)) (openFile (outputs s))) in
  match rd with
  | None => Ok None
  | Some rd => let? b := ReadAll rd in Ok (Some b)
  end.

(** The encoding of an output is that of the put that stored it, the entry has the
    encoding of its own put: once the store compresses and did not before (or one
    client sends a compressed body and another a plain one), a second action for a
    stored output is a hit that is not served the bytes it was put with. *)
Lemma shared_output_other_encoding :
  let plain := bodyItem #"a1" #"out" #"ninebytes" in
  let packed := mkResponseItem (mkResponseMeta #"a2" false #"out" 9 None true 10 [])
                  (Some (Ok (fromBytes (EncodeZstd (Zstd := magicZstd) #"ninebytes")))) in
  let s := fst (putOne (H := magicZstd) (exampleConfig false) emptyStore plain exampleArgs) in
  let '(s', r) := putOne (H := magicZstd) (exampleConfig true) s packed exampleArgs in
  r = Ok tt /\ readBack (H := magicZstd) (exampleConfig true) s' #"a1" = Ok (Some #"ninebytes") /\
  readBack (H := magicZstd) (exampleConfig true) s' #"a2" <> Ok (Some #"ninebytes") /\
  ri_Miss (ri_meta (snd (getOne (exampleConfig true) s' #"a2" 6))) = false.
Proof. vm_compute. repeat split; done. Qed.

(** ** Witnesses *)

Lemma example_dir b : abs_dir (cf_dir (exampleConfig b)).
Proof.
  exists [ #"srv"; #"cache" ]. split; [done|]. split; [|done].
  repeat constructor; apply proper_decide; vm_compute; reflexivity.
Qed.

Lemma empty_holds b : holds (exampleConfig b) emptyStore ∅.
Proof.
  split; [|intros a ie Ha; change (index emptyStore) with (∅ : gmap bytes indexEntry) in Ha; by rewrite lookup_empty in Ha].
  split; simpl; try done.
  - intros o. split; [by intros [? ?]|done].
  - by intros o [x Hx].
  - exists ∅. split; [apply models_New|]. by split.
Qed.

Lemma example_id : good_id #"out".
Proof. split; [done|]. split; apply (bool_decide_unpack _); vm_compute; exact I. Qed.

Abbreviation nineItem := (bodyItem #"a1" #"out" #"ninebytes").

Definition nineStore : Store := fst (putOne (H := magicZstd) (exampleConfig false) emptyStore nineItem exampleArgs).
Definition nineEntry : indexEntry := mkEntry #"out" 9 5 5 0 0 0 0.

Lemma nine_same : same_content (H := magicZstd) (exampleConfig false) ∅ nineItem exampleArgs.
Proof. intros ie rd b _ Hb. by rewrite lookup_empty in Hb. Qed.

Lemma nine_put :
  putOne (H := magicZstd) (exampleConfig false) emptyStore nineItem exampleArgs = (nineStore, Ok tt).
Proof. vm_compute. reflexivity. Qed.

Lemma small_pages n : pages_left (pool (outputs emptyStore)) n.
Proof. apply pages_left_empty. Qed.

Lemma nine_addressed : content_addressed (H := magicZstd) (exampleConfig false) ∅ nineItem exampleArgs.
Proof. intros ie rd b _ Hb. by rewrite lookup_empty in Hb. Qed.

Lemma nine_stored : holds (exampleConfig false) nineStore {[ #"out" := #"ninebytes" ]}.
Proof.
  destruct (local_putOne_spec (H := magicZstd) (exampleConfig false) emptyStore ∅ nineItem exampleArgs nineStore (Ok tt)
    (example_dir false) (empty_holds false)
    example_id nine_addressed small_pages nine_put) as [[E _]|(ie0 & rd & ie & b & Hp & _ & Hb & _ & Hh)].
  - discriminate E.
  - vm_compute in Hp. injection Hp as <- <-. destruct Hb as [Hb|[_ Hb]]; [by rewrite lookup_empty in Hb|].
    vm_compute in Hb. injection Hb as <-. exact Hh.
Qed.

Lemma nine_range : range_of (index nineStore) [ #"a1" ].
Proof.
  assert (E : index nineStore = {[ #"a1" := nineEntry ]}) by (vm_compute; reflexivity). rewrite E.
  split; [apply NoDup_singleton|]. intros p. rewrite list_elem_of_singleton. split.
  - intros ->. rewrite lookup_singleton_eq. eauto.
  - by intros [x [<- _]%lookup_singleton_Some].
Qed.

(** The order of the keys a map is stored in is one Go may range in. *)
Lemma range_keys {A} (m : gmap bytes A) : range_of m (map_to_list m).*1.
Proof.
  split; [apply NoDup_fst_map_to_list|]. intros p. split.
  - intros ([k x] & -> & Hk%elem_of_map_to_list)%list_elem_of_fmap. eauto.
  - intros [x Hx]. apply list_elem_of_fmap. exists (p, x). split; [done|]. by apply elem_of_map_to_list.
Qed.

Lemma local_EvictNow_ends_witness :
  DiskBytes nineStore = 9 /\
  DiskBytes (EvictNow (exampleConfig false) (fun idx => (map_to_list idx).*1) nineStore) <= 2.
Proof.
  split; [vm_compute; reflexivity|].
  destruct (local_EvictNow_ends (exampleConfig false) (fun idx => (map_to_list idx).*1)
    (example_dir false) range_keys nineStore _ nine_stored) as (bl' & _ & _ & _ & H).
  destruct (H ltac:(reflexivity)) as [_ H2]. destruct H2 as [H3 _]; [vm_compute; reflexivity|].
  etrans; [exact H3|]. vm_compute. discriminate.
Defined.

Lemma Get_serves_stored_witness :
  let '(s', items) := Get (exampleConfig false) nineStore [(#"a1", 6); (#"zz", 7)] in
  Forall2 (fun q item => answer (exampleConfig false) nineStore {[ #"out" := #"ninebytes" ]} q.1 item)
    [(#"a1", 6); (#"zz", 7)] items /\ holds (exampleConfig false) s' {[ #"out" := #"ninebytes" ]} /\
  outputs s' = outputs nineStore /\
  hits (counters s') + misses (counters s') = hits (counters nineStore) + misses (counters nineStore) + 2.
Proof.
  exact (Get_serves_stored (exampleConfig false) nineStore _ [(#"a1", 6); (#"zz", 7)] (example_dir false) nine_stored).
Defined.

Lemma local_put_get_roundtrip_witness :
  let got := ItemPrepareBodyReader (snd (getOne (exampleConfig false) nineStore #"a1" 6)) (openFile (outputs nineStore)) in
  ri_Miss (ri_meta got) = false /\ ri_ActionID (ri_meta got) = #"a1" /\
  ri_OutputID (ri_meta got) = #"out" /\ ri_Size (ri_meta got) = 9 /\
  exists rd, ItemUncompressedBodyReader (H := magicZstd) got = Ok rd /\ delivers rd #"ninebytes".
Proof.
  apply (local_put_get_roundtrip (H := magicZstd) (exampleConfig false) emptyStore ∅ nineItem exampleArgs nineStore
    #"ninebytes" 6 (example_dir false) (empty_holds false) example_id nine_same small_pages).
  - vm_compute. discriminate.
  - vm_compute. discriminate.
  - exists (Some (fromBytes #"ninebytes")). split; vm_compute; reflexivity.
  - exact nine_put.
Defined.

Lemma IntegrityCheck_is_reference_witness :
  IntegrityCheck (H := magicZstd) (exampleConfig false) (fun _ => [ #"a1" ]) nineStore false = (nineStore, (1, [])) /\
  exists bl', holds (exampleConfig false) nineStore bl' /\ bl' ⊆ {[ #"out" := #"ninebytes" ]}.
Proof.
  assert (E : IntegrityCheck (H := magicZstd) (exampleConfig false) (fun _ => [ #"a1" ]) nineStore false =
    (nineStore, (1, []))) by (vm_compute; reflexivity).
  split; [exact E|].
  assert (H := IntegrityCheck_is_reference (H := magicZstd) (exampleConfig false) (example_dir false) nineStore _
    (fun _ => [ #"a1" ]) false nine_stored nine_range).
  rewrite E in H. cbv zeta in H. exact (proj2 (proj2 (proj2 H))).
Defined.

Lemma local_putOne_refines_witness :
  exists ie, index nineStore = <[ #"a1" := ie ]> (index emptyStore).
Proof.
  destruct (local_putOne_refines (H := magicZstd) (exampleConfig false) emptyStore ∅ nineItem exampleArgs nineStore (Ok tt)
    (example_dir false) (empty_holds false)
    example_id nine_addressed small_pages nine_put) as [[E _]|(ie0 & rd & ie & b & _ & _ & _ & Hi & _)].
  - discriminate E.
  - exists ie. exact Hi.
Defined.

(** A changed store with one output in a file, over the default pool. *)
Definition openedStore : Store :=
  mkStore {[ #"a1" := nineEntry ]}
    (mkOutputs {[ #"out" := 1 ]} {[ #"out" := 9 ]} ∅ 9 (New DefaultMaxRecordBytes DefaultPageBytes ∅)
       {[ OutputFilename (exampleConfig false) #"out" := #"ninebytes" ]})
    true true false (mkCounters 0 0 0 0 0 0).

Lemma opened_holds : holds (exampleConfig false) openedStore {[ #"out" := #"ninebytes" ]}.
Proof.
  assert (Hu : forall o, uses (index openedStore) o = if bool_decide (#"out" = o) then 1%nat else 0%nat).
  { intros o. change (index openedStore) with (<[ #"a1" := nineEntry ]> (∅ : gmap bytes indexEntry)).
    rewrite uses_insert_new by done. simpl. by case_bool_decide. }
  split; [split|].
  - intros o. rewrite Hu. case_bool_decide as E; simpl; [subst; apply lookup_singleton_eq|].
    by rewrite lookup_singleton_ne.
  - intros o. rewrite Hu. case_bool_decide as E; simpl.
    + subst. rewrite lookup_singleton_eq. split; [done|eauto].
    + rewrite lookup_singleton_ne by done. split; [by intros [? ?]|done].
  - rewrite map_fmap_singleton. reflexivity.
  - vm_compute. reflexivity.
  - intros o [x [<- _]%lookup_singleton_Some]. apply example_id.
  - intros o b [<- <-]%lookup_singleton_Some _. apply lookup_singleton_eq.
  - intros o l Hl. cbn [outputs outputLocs openedStore] in Hl. by rewrite lookup_empty in Hl.
  - apply wf_empty; [unfold DefaultMaxRecordBytes, DefaultPageBytes; lia|reflexivity].
  - exists ∅. split; [apply models_New|]. split.
    + done.
    + intros o b l _ Hl. cbn [outputs outputLocs openedStore] in Hl. by rewrite lookup_empty in Hl.
    + intros o o' b b' l _ _ Hl. cbn [outputs outputLocs openedStore] in Hl. by rewrite lookup_empty in Hl.
    + intros k b Hk. by rewrite lookup_empty in Hk.
  - intros a ie Ha. cbn [index openedStore] in Ha. apply lookup_singleton_Some in Ha as [<- <-].
    exists #"ninebytes". split; [apply lookup_singleton_eq|]. split; reflexivity.
Qed.

Definition localJSON : JSON (gmap bytes indexEntry) := tableJSON [index openedStore].

Lemma local_NewStore_after_Close_witness :
  exists dk s', Close (H := localJSON) openedStore None = Ok dk /\
    NewStore (H := localJSON) (exampleConfig false) dk (Ok []) (fun idx => (map_to_list idx).*1) = Ok s' /\
    holds (exampleConfig false) s' {[ #"out" := #"ninebytes" ]}.
Proof.
  exists (mkDisk (Some (itoa 0)) (files (outputs openedStore)) ∅).
  destruct (local_NewStore_after_Close (H := localJSON) (exampleConfig false) openedStore
    {[ #"out" := #"ninebytes" ]} None (mkDisk (Some (itoa 0)) (files (outputs openedStore)) ∅) []
    (fun idx => (map_to_list idx).*1)) as (s' & Hn & Hr & _).
  - apply example_dir.
  - apply opened_holds.
  - reflexivity.
  - apply list_elem_of_singleton. reflexivity.
  - discriminate.
  - vm_compute. reflexivity.
  - reflexivity.
  - reflexivity.
  - intros x. cbn [dk_records]. rewrite lookup_empty.
    split; [intros Hx%elem_of_nil; destruct Hx|intros [? ?]; discriminate].
  - apply range_keys.
  - reflexivity.
  - exists s'. split; [vm_compute; reflexivity|]. split; [exact Hn|exact Hr].
Defined.
