(* ===== verification/ManifestPaths.v ===== *)
(** Where the store of src/internal/gocache/store.go keeps its manifests and
    upload sessions: the checks on the keys of a request and the file names built
    from them.  The theorems say that different keys never share a file and that
    every file stays inside its own directory. *)
From S2P Require Import Prelude.
From S2P Require Import GoStrings.
From S2P Require Import GoPath.
From S2P Require Import GoCacheStore.

(** ** Keys *)

Definition is_alnum (c : ascii) : bool :=
  let n := nat_of_ascii c in
  (((48 <=? n) && (n <=? 57)) || ((65 <=? n) && (n <=? 90)) || ((97 <=? n) && (n <=? 122)))%nat%bool.

(** [^[A-Za-z0-9][A-Za-z0-9._-]*$]. *)
Definition key_char (c : ascii) : bool :=
  is_alnum c || bool_decide (c = "."%char) || bool_decide (c = "_"%char) || bool_decide (c = "-"%char).

Definition validScopedKeyName (s : bytes) : bool :=
  match s with
  | c :: s' => is_alnum c && forallb key_char s'
  | [] => false
  end.

Definition maxManifestKeyLen : Z := 100.
Definition manifestExt : bytes := #".zst".
Definition manifestPrefixLen : nat := 1.

(** ** net/url *)

Definition hexdigit (n : nat) : ascii :=
  if (n <? 10)%nat then ascii_of_nat (48 + n) else ascii_of_nat (55 + n).
Definition unhex (c : ascii) : nat :=
  let n := nat_of_ascii c in if (n <? 58)%nat then (n - 48)%nat else (n - 55)%nat.

Definition escape_char (c : ascii) : bytes :=
  if is_alnum c || bool_decide (c = "-"%char) || bool_decide (c = "_"%char)
     || bool_decide (c = "."%char) || bool_decide (c = "~"%char) then [c]
  else if bool_decide (c = " "%char) then ["+"%char]
  else ["%"%char; hexdigit (nat_of_ascii c / 16); hexdigit (nat_of_ascii c mod 16)].

(** [url.QueryEscape]. *)
Definition QueryEscape (s : bytes) : bytes := mjoin (map escape_char s).

(** Its inverse, for the proofs. *)
Fixpoint unescape (s : bytes) : bytes :=
  match s with
  | "%"%char :: a :: b :: s' => ascii_of_nat (unhex a * 16 + unhex b) :: unescape s'
  | "+"%char :: s' => " "%char :: unescape s'
  | c :: s' => c :: unescape s'
  | [] => []
  end.

(** ** Paths *)

Definition manifestScopeDir (buildType : bytes) : result bytes :=
  let buildType := TrimSpace buildType in
  if bool_decide (buildType = []) then Ok #"default"
  else if maxManifestKeyLen <? blen buildType then Err (EMsg "build-type too long")
  else if negb (validScopedKeyName buildType) then Err (EMsg "invalid build-type")
  else Ok (#"buildtype-" ++ buildType).

Definition commitManifestPath (cf : Config) (commit buildType : bytes) : result bytes :=
  let commit := TrimSpace commit in
  if maxManifestKeyLen <? blen commit then Err (EMsg "commit too long")
  else if negb (validScopedKeyName commit) then Err (EMsg "invalid commit")
  else
    let prefix := if (manifestPrefixLen <? length commit)%nat then take manifestPrefixLen commit
                  else commit in
    let? scopeDir := manifestScopeDir buildType in
    Ok (JoinPath [cf_dir cf; #"manifests"; scopeDir; prefix; commit ++ manifestExt]).

Definition changesManifestPath (cf : Config) (changesID buildType : bytes) : result bytes :=
  let changesID := TrimSpace changesID in
  if bool_decide (changesID = []) then Err (EMsg "invalid changes-id")
  else if maxManifestKeyLen <? blen changesID then Err (EMsg "changes-id too long")
  else
    let? scopeDir := manifestScopeDir buildType in
    Ok (JoinPath [cf_dir cf; #"manifests"; scopeDir; #"changes"; QueryEscape changesID ++ manifestExt]).

Definition uploadSessionPath (cf : Config) (uploadID : bytes) : result bytes :=
  let uploadID := TrimSpace uploadID in
  if bool_decide (uploadID = []) then Err (EMsg "invalid upload-id")
  else if maxManifestKeyLen <? blen uploadID then Err (EMsg "upload-id too long")
  else if negb (validScopedKeyName uploadID) then Err (EMsg "invalid upload-id")
  else
    let prefix := if (2 <? length uploadID)%nat then take 2 uploadID else uploadID in
    Ok (JoinPath [cf_dir cf; #"uploads"; prefix; uploadID]).

Definition resolveCommitManifestPath (cf : Config) (commit buildType : bytes) : result bytes :=
  if bool_decide (TrimSpace commit = []) then Err ENotExist
  else commitManifestPath cf commit buildType.

Definition resolveChangesManifestPath (cf : Config) (changesID buildType : bytes) : result bytes :=
  if bool_decide (TrimSpace changesID = []) then Err ENotExist
  else changesManifestPath cf changesID buildType.

(** ** filepath.Rel *)

Definition rel_comps (p : bytes) : list bytes := filter (fun c => c <> []) (comps p).

Fixpoint strip_common (b t : list bytes) : list bytes * list bytes :=
  match b, t with
  | x :: b', y :: t' => if bool_decide (x = y) then strip_common b' t' else (b, t)
  | _, _ => (b, t)
  end.

Definition Rel (basepath targpath : bytes) : result bytes :=
  let base := Clean basepath in
  let targ := Clean targpath in
  if bool_decide (targ = base) then Ok #"."
  else
    let base := if bool_decide (base = #".") then [] else base in
    if negb (Bool.eqb (IsAbs base) (IsAbs targ)) then Err (EMsg "can't make relative")
    else
      let '(b, t) := strip_common (rel_comps base) (rel_comps targ) in
      if bool_decide (head b = Some #"..") then Err (EMsg "can't make relative")
      else Ok (uncomps (replicate (length b) #".." ++ t)).

Definition isPRManifestPath (scopeRoot path : bytes) : bool :=
  match Rel scopeRoot path with
  | Err _ => false
  | Ok rel => bool_decide (fst (fst (Cut rel #"/")) = #"changes")
  end.

(** ** Lemmas *)

Lemma unescape_char c t : unescape (escape_char c ++ t) = c :: unescape t.
Proof. destruct c as [[] [] [] [] [] [] [] []]; reflexivity. Qed.

Lemma unescape_QueryEscape s : unescape (QueryEscape s) = s.
Proof.
  unfold QueryEscape. induction s as [|c s IH]; [done|].
  simpl. rewrite unescape_char. by f_equal.
Qed.

Lemma escape_char_free c : (slash ∉ escape_char c) /\ escape_char c <> [].
Proof.
  apply (bool_decide_eq_true_1 _).
  destruct c as [[] [] [] [] [] [] [] []]; vm_compute; reflexivity.
Qed.

Lemma QueryEscape_free s : slash ∉ QueryEscape s.
Proof.
  unfold QueryEscape. induction s as [|c s IH]; simpl; [set_solver|].
  rewrite elem_of_app. assert (H := proj1 (escape_char_free c)). tauto.
Qed.

Lemma key_char_slash c : key_char c = true -> c <> slash.
Proof. intros H ->. by vm_compute in H. Qed.

Lemma is_alnum_key c : is_alnum c = true -> key_char c = true.
Proof. unfold key_char. by intros ->. Qed.

Lemma is_alnum_dot c : is_alnum c = true -> c <> "."%char.
Proof. intros H ->. by vm_compute in H. Qed.

Lemma valid_key_chars s : validScopedKeyName s = true -> s <> [] /\ Forall (fun c => key_char c = true) s.
Proof.
  destruct s as [|c s]; simpl; [done|]. intros [Hc Hs]%andb_true_iff. split; [done|].
  constructor; [by apply is_alnum_key|]. apply Forall_forall. intros x Hx.
  rewrite forallb_forall in Hs. apply Hs. by apply list_elem_of_In.
Qed.

Lemma key_no_slash s : Forall (fun c => key_char c = true) s -> slash ∉ s.
Proof. rewrite Forall_forall. intros H Hs. by apply (key_char_slash slash (H _ Hs)). Qed.

(** A name that starts with a letter or digit and has no slash is proper. *)
Lemma alnum_proper c s : is_alnum c = true -> slash ∉ s -> proper (c :: s).
Proof.
  intros Hc Hs. assert (Hd := is_alnum_dot _ Hc).
  assert (c <> slash) by (by apply key_char_slash, is_alnum_key).
  split; [done|]. split; [intros [= -> _]; done|]. split; [intros [= -> _]; done|].
  rewrite not_elem_of_cons. done.
Qed.

Lemma valid_key_proper s t : validScopedKeyName s = true -> slash ∉ t -> proper (s ++ t).
Proof.
  intros Hs Ht. destruct (valid_key_chars s Hs) as [_ Hf].
  destruct s as [|c s]; [done|]. simpl in Hs. go_bool. apply alnum_proper; [done|].
  apply Forall_cons in Hf as [_ Hf]. rewrite elem_of_app.
  assert (H1 := key_no_slash _ Hf). tauto.
Qed.

(** A name that ends in the manifest extension is proper. *)
Lemma ext_proper s : slash ∉ s -> proper (s ++ manifestExt).
Proof.
  intros Hs. assert (He : slash ∉ manifestExt) by (apply (bool_decide_eq_true_1 _); vm_compute; reflexivity).
  assert (Hl : (4 <= length (s ++ manifestExt))%nat) by (rewrite length_app; vm_compute length at 2; lia).
  split; [intros E; rewrite E in Hl; simpl in Hl; lia|].
  split; [intros E; rewrite E in Hl; vm_compute in Hl; lia|].
  split; [intros E; rewrite E in Hl; vm_compute in Hl; lia|].
  rewrite elem_of_app. tauto.
Qed.

Lemma prefix_proper s n : validScopedKeyName s = true -> (0 < n)%nat -> proper (take n s).
Proof.
  intros Hs Hn. destruct (valid_key_chars s Hs) as [_ Hf].
  destruct s as [|c s], n as [|n]; [done|done|lia|]. simpl in *. go_bool.
  apply alnum_proper; [done|]. apply Forall_cons in Hf as [_ Hf].
  apply key_no_slash. by apply Forall_take.
Qed.

Lemma manifestScopeDir_ok b d :
  manifestScopeDir b = Ok d -> proper d /\ manifestScopeDir b = Ok d.
Proof.
  intros H. split; [|done]. revert H. unfold manifestScopeDir. case_bool_decide as Hb.
  - intros [= <-]. apply proper_decide. vm_compute. reflexivity.
  - destruct (_ <? _); [done|]. destruct (validScopedKeyName _) eqn:Hv; [|done]. simpl.
    intros [= <-]. apply (valid_key_chars _) in Hv as [_ Hf].
    apply key_no_slash in Hf.
    assert (Hn : slash ∉ #"buildtype-" ++ TrimSpace b).
    { rewrite elem_of_app. intros [H|H]; [|done]. revert H.
      apply (bool_decide_eq_true_1 (slash ∉ #"buildtype-")). vm_compute. reflexivity. }
    apply (alnum_proper "b"%char); [done|]. intros Hx. apply Hn. by apply list_elem_of_further.
Qed.

Lemma manifestScopeDir_inj b b' d :
  manifestScopeDir b = Ok d -> manifestScopeDir b' = Ok d -> TrimSpace b = TrimSpace b'.
Proof.
  unfold manifestScopeDir. intros H H'.
  case_bool_decide as Hb; case_bool_decide as Hb'; [congruence|..];
    repeat destruct (_ <? _); try done; repeat destruct (negb _); try done.
  - injection H as <-. discriminate H'.
  - injection H' as <-. discriminate H.
  - injection H as <-. injection H' as H'. done.
Qed.

(** A manifest path written as its components: directory, scope, shard, file. *)
Definition manifest_at (cf : Config) (p scope shard file : bytes) : Prop :=
  proper scope /\ proper shard /\ proper file /\
  p = cf_dir cf ++ slash :: uncomps [ #"manifests"; scope; shard; file].

Lemma proper_manifests : proper #"manifests".
Proof. apply proper_decide. vm_compute. reflexivity. Qed.

Lemma proper_changes : proper #"changes".
Proof. apply proper_decide. vm_compute. reflexivity. Qed.

Lemma manifest_at_intro cf scope shard file :
  abs_dir (cf_dir cf) -> proper scope -> proper shard -> proper file ->
  manifest_at cf (JoinPath [cf_dir cf; #"manifests"; scope; shard; file]) scope shard file.
Proof.
  intros. do 3 (split; [done|]). apply JoinPath_proper; [done..|].
  by rewrite !Forall_cons; auto using proper_manifests.
Qed.

Lemma manifest_at_inj cf p s1 h1 f1 s2 h2 f2 :
  manifest_at cf p s1 h1 f1 -> manifest_at cf p s2 h2 f2 -> s1 = s2 /\ h1 = h2 /\ f1 = f2.
Proof.
  intros (A1 & A2 & A3 & E) (B1 & B2 & B3 & E'). rewrite E in E'.
  apply app_inv_head, (inj (cons slash)) in E'. assert (Hm := proper_manifests).
  assert (H : [ #"manifests"; s1; h1; f1] = [ #"manifests"; s2; h2; f2]).
  { rewrite <-(comps_uncomps [ #"manifests"; s1; h1; f1]),
      <-(comps_uncomps [ #"manifests"; s2; h2; f2]); [|done|apply proper_slash_free; rewrite !Forall_cons; auto|done|
      apply proper_slash_free; rewrite !Forall_cons; auto].
    by rewrite E'. }
  by injection H.
Qed.

Lemma commitManifestPath_at cf c b p :
  abs_dir (cf_dir cf) -> commitManifestPath cf c b = Ok p ->
  exists d, manifestScopeDir b = Ok d /\ validScopedKeyName (TrimSpace c) = true /\
    manifest_at cf p d (take 1 (TrimSpace c)) (TrimSpace c ++ manifestExt).
Proof.
  intros Hd. unfold commitManifestPath. destruct (_ <? _); [done|].
  destruct (validScopedKeyName _) eqn:Hv; [|done]. simpl.
  destruct (manifestScopeDir b) as [d|] eqn:Hs; [|done]. intros [= <-].
  exists d. do 2 (split; [done|]).
  assert (E : (if (manifestPrefixLen <? length (TrimSpace c))%nat
               then take manifestPrefixLen (TrimSpace c) else TrimSpace c) = take 1 (TrimSpace c)).
  { destruct (Nat.ltb_spec manifestPrefixLen (length (TrimSpace c))) as [_|Hl]; [done|].
    rewrite take_ge; [done|]. exact Hl. }
  rewrite E. apply manifest_at_intro; [done| | |].
  - by apply manifestScopeDir_ok in Hs as [? _].
  - by apply prefix_proper; [|lia].
  - apply valid_key_proper; [done|]. apply (bool_decide_eq_true_1 _). vm_compute. reflexivity.
Qed.

Lemma changesManifestPath_at cf c b p :
  abs_dir (cf_dir cf) -> changesManifestPath cf c b = Ok p ->
  exists d, manifestScopeDir b = Ok d /\
    manifest_at cf p d #"changes" (QueryEscape (TrimSpace c) ++ manifestExt).
Proof.
  intros Hd. unfold changesManifestPath. case_bool_decide; [done|]. destruct (_ <? _); [done|].
  destruct (manifestScopeDir b) as [d|] eqn:Hs; [|done]. intros [= <-].
  exists d. split; [done|]. apply manifest_at_intro; [done| |apply proper_changes|].
  - by apply manifestScopeDir_ok in Hs as [? _].
  - apply ext_proper, QueryEscape_free.
Qed.

(** ** The keys of the manifests *)

(** What a request names: the manifest of a commit or of a change. *)
Inductive manifestKind := KCommit | KChanges.

Definition manifestPathOf (cf : Config) (k : manifestKind) (id buildType : bytes) : result bytes :=
  match k with
  | KCommit => commitManifestPath cf id buildType
  | KChanges => changesManifestPath cf id buildType
  end.

Definition scopeRoot (cf : Config) (scopeDir : bytes) : bytes :=
  JoinPath [cf_dir cf; #"manifests"; scopeDir].

Lemma take1_changes s : take 1 s <> #"changes".
Proof. destruct s as [|c [|d s]]; discriminate. Qed.

Lemma manifestPathOf_inj cf k k' id id' b b' p
    (Hd : abs_dir (cf_dir cf))
    (H : manifestPathOf cf k id b = Ok p) (H' : manifestPathOf cf k' id' b' = Ok p) :
  k = k' /\ TrimSpace id = TrimSpace id' /\ TrimSpace b = TrimSpace b'.
Proof.
  destruct k, k'; simpl in H, H'.
  - apply commitManifestPath_at in H as (d & Hs & _ & Ha); [|done].
    apply commitManifestPath_at in H' as (d' & Hs' & _ & Ha'); [|done].
    destruct (manifest_at_inj _ _ _ _ _ _ _ _ Ha Ha') as (-> & _ & E).
    apply app_inv_tail in E. split; [done|]. split; [done|]. by eapply manifestScopeDir_inj.
  - apply commitManifestPath_at in H as (d & Hs & _ & Ha); [|done].
    apply changesManifestPath_at in H' as (d' & Hs' & Ha'); [|done].
    destruct (manifest_at_inj _ _ _ _ _ _ _ _ Ha Ha') as (_ & E & _).
    by apply take1_changes in E.
  - apply changesManifestPath_at in H as (d & Hs & Ha); [|done].
    apply commitManifestPath_at in H' as (d' & Hs' & _ & Ha'); [|done].
    destruct (manifest_at_inj _ _ _ _ _ _ _ _ Ha Ha') as (_ & E & _). symmetry in E.
    by apply take1_changes in E.
  - apply changesManifestPath_at in H as (d & Hs & Ha); [|done].
    apply changesManifestPath_at in H' as (d' & Hs' & Ha'); [|done].
    destruct (manifest_at_inj _ _ _ _ _ _ _ _ Ha Ha') as (-> & _ & E).
    apply app_inv_tail in E. split; [done|]. split; [|by eapply manifestScopeDir_inj].
    rewrite <-(unescape_QueryEscape (TrimSpace id)), E. apply unescape_QueryEscape.
Qed.

(** Two manifests share a file exactly when their keys agree: the kind
    (commit or change), the trimmed id and the trimmed build type.  No id, however
    it is spelled, reaches the manifest of another commit, another change or another
    build type. *)
Theorem manifest_paths_distinct cf k k' id id' b b' p
    (Hd : abs_dir (cf_dir cf))
    (H : manifestPathOf cf k id b = Ok p) (H' : manifestPathOf cf k' id' b' = Ok p) :
  k = k' /\ TrimSpace id = TrimSpace id' /\ TrimSpace b = TrimSpace b'.
Proof. by eapply manifestPathOf_inj. Qed.

(** ** Telling the kinds apart *)

Lemma filter_proper l : Forall proper l -> filter (fun c : bytes => c <> []) l = l.
Proof.
  induction 1 as [|c l (Hc & _) Hl IH]; [done|]. rewrite filter_cons_True by done. by rewrite IH.
Qed.

Lemma rel_comps_abs l : Forall proper l -> l <> [] -> rel_comps (slash :: uncomps l) = l.
Proof.
  intros Hl Hne. unfold rel_comps. rewrite comps_cons_slash, filter_cons_False by tauto.
  rewrite comps_uncomps by (try done; by apply proper_slash_free). by apply filter_proper.
Qed.

Lemma strip_common_app l k : strip_common l (l ++ k) = ([], k).
Proof. induction l as [|c l IH]; simpl; [done|]. by rewrite bool_decide_eq_true_2. Qed.

Lemma Rel_under k l :
  Forall proper (k ++ l) -> k <> [] -> l <> [] ->
  Rel (slash :: uncomps k) (slash :: uncomps (k ++ l)) = Ok (uncomps l).
Proof.
  intros Hkl Hk Hl. unfold Rel. assert (Hf := Hkl). apply Forall_app in Hf as [Hfk Hfl].
  rewrite !Clean_abs by done. rewrite bool_decide_eq_false_2.
  2: { rewrite uncomps_app by done. intros E. injection E as E.
       apply (f_equal length) in E. rewrite length_app in E. simpl in E. lia. }
  rewrite bool_decide_eq_false_2 by done. change (IsAbs (slash :: ?x)) with true. simpl Bool.eqb.
  cbv beta iota delta [negb]. rewrite !rel_comps_abs; [|done|by destruct k|done|done].
  rewrite strip_common_app. by rewrite bool_decide_eq_false_2.
Qed.

Lemma Cut_uncomps c l :
  slash ∉ c -> l <> [] -> fst (fst (Cut (uncomps (c :: l)) #"/")) = c.
Proof.
  intros Hc Hl.
  assert (E0 : uncomps (c :: l) = c ++ slash :: uncomps l) by (by apply (uncomps_app [c] l)).
  rewrite E0. unfold Cut.
  assert (E : Index (c ++ slash :: uncomps l) #"/" = Some (length c)).
  { clear Hl E0. induction c as [|x c IH]; simpl; [by destruct (uncomps l)|].
    apply not_elem_of_cons in Hc as [Hx Hc]. rewrite bool_decide_eq_false_2 by done. simpl.
    by rewrite IH. }
  rewrite E. simpl. by rewrite take_app_length.
Qed.

Lemma isPRManifestPath_at cf p scope shard file :
  abs_dir (cf_dir cf) -> manifest_at cf p scope shard file ->
  isPRManifestPath (scopeRoot cf scope) p = bool_decide (shard = #"changes").
Proof.
  intros Hd (H1 & H2 & H3 & ->). unfold isPRManifestPath, scopeRoot.
  assert (Hm := proper_manifests).
  rewrite JoinPath_proper by (rewrite ?Forall_cons; auto).
  destruct Hd as (l & Hne & Hl & ->).
  assert (E : forall k, k <> [] -> (slash :: uncomps l) ++ slash :: uncomps k = slash :: uncomps (l ++ k)).
  { intros k Hk. rewrite uncomps_app by done. done. }
  rewrite !E by done.
  change [ #"manifests"; scope; shard; file] with ([ #"manifests"; scope] ++ [shard; file]).
  rewrite app_assoc, Rel_under.
  - rewrite Cut_uncomps; [done|by destruct H2 as (_ & _ & _ & ?)|done].
  - rewrite !Forall_app, !Forall_cons. auto.
  - by destruct l.
  - done.
Qed.

(** The ranking of fallback sources sees the kind of every manifest the store
    writes: [isPRManifestPath] holds of the manifests of changes and of no commit's,
    also for a commit that is called "changes". *)
Theorem isPRManifestPath_kind cf k id b p d
    (Hd : abs_dir (cf_dir cf)) (H : manifestPathOf cf k id b = Ok p)
    (Hs : manifestScopeDir b = Ok d) :
  isPRManifestPath (scopeRoot cf d) p = match k with KChanges => true | KCommit => false end.
Proof.
  destruct k; simpl in H.
  - apply commitManifestPath_at in H as (d' & Hs' & _ & Ha); [|done].
    assert (d' = d) as -> by congruence. rewrite (isPRManifestPath_at _ _ _ _ _ Hd Ha).
    apply bool_decide_eq_false_2, take1_changes.
  - apply changesManifestPath_at in H as (d' & Hs' & Ha); [|done].
    assert (d' = d) as -> by congruence. rewrite (isPRManifestPath_at _ _ _ _ _ Hd Ha).
    by apply bool_decide_eq_true_2.
Qed.

(** ** Witnesses *)

Lemma manifest_paths_distinct_witness :
  exists p, manifestPathOf exampleConfig KCommit #" abc1 " #"go-test" = Ok p /\
    manifestPathOf exampleConfig KCommit #"abc1" #"go-test " = Ok p /\
    TrimSpace #" abc1 " = TrimSpace #"abc1".
Proof.
  assert (Hd : abs_dir (cf_dir exampleConfig)).
  { exists [ #"srv"; #"cache" ]. split; [done|]. split; [|done].
    repeat constructor; apply proper_decide; vm_compute; reflexivity. }
  eexists. split; [vm_compute; reflexivity|]. split; [vm_compute; reflexivity|].
  eapply (manifest_paths_distinct exampleConfig KCommit KCommit #" abc1 " #"abc1" #"go-test" #"go-test ");
    [exact Hd|vm_compute; reflexivity|vm_compute; reflexivity].
Defined.

Lemma isPRManifestPath_kind_witness :
  isPRManifestPath (scopeRoot exampleConfig #"default")
    #"/srv/cache/manifests/default/changes/org%2Frepo%2317.zst" = true /\
  isPRManifestPath (scopeRoot exampleConfig #"default")
    #"/srv/cache/manifests/default/c/changes.zst" = false.
Proof.
  assert (Hd : abs_dir (cf_dir exampleConfig)).
  { exists [ #"srv"; #"cache" ]. split; [done|]. split; [|done].
    repeat constructor; apply proper_decide; vm_compute; reflexivity. }
  split.
  - apply (isPRManifestPath_kind exampleConfig KChanges #"org/repo#17" #""); vm_compute; done.
  - apply (isPRManifestPath_kind exampleConfig KCommit #"changes" #""); vm_compute; done.
Defined.
