(* ===== verification/Manifests.v ===== *)
(** The manifests of src/internal/gocache/store.go: files that list, per commit
    or change and build type, the object paths a build used.  Loading (with the
    self-healing of stale lines), merging, upload sessions, listing, liveness
    references and pruning.  Every operation takes the environment it meets: the
    clock and the faults of the file system. *)
From S2P Require Import Prelude.
From S2P Require Import GoStrings.
From S2P Require Import GoPath.
From S2P Require Import RecordPool.
From S2P Require Import EvictHeap.
From S2P Require Import Wire.
From S2P Require Import GoCacheStore.
From S2P Require Import ManifestPaths.

(** ** Data *)

Record Request := mkRequest {
  rq_Commit : bytes;
  rq_ChangesID : bytes;
  rq_BuildType : bytes;
  rq_BaseCommit : bytes;
  rq_ParentCommit : bytes;
  rq_MaxFileBytes : Z;
  rq_MaxPreloadTotalBytes : Z;
}.

(** The files under [manifests] and [uploads]: content and modification time. *)
Abbreviation Files := (gmap bytes (bytes * Z)).

Record Server := mkServer { sv_store : Store; sv_files : Files }.

(** Where writing a file fails: making its directory, writing (with the part
    already written, or nothing when the open failed), renaming it into place. *)
Inductive manifestFault :=
  | MFMkdir (e : goerr)
  | MFWrite (e : goerr) (part : option nat)
  | MFRename (e : goerr).

Record Env := mkEnv {
  env_now : Z;
  env_read : bytes -> option goerr;
  env_write : bytes -> option manifestFault;
  env_remove : bytes -> option goerr;
  env_walk : bytes -> option goerr;
}.

(** An environment without faults. *)
Definition calm (now : Z) : Env :=
  mkEnv now (fun _ => None) (fun _ => None) (fun _ => None) (fun _ => None).

(** ** The text of a manifest *)

(** [joinManifestBody]. *)
Definition joinManifestBody (paths : list bytes) : bytes :=
  let body := Join paths [newline] in
  if bool_decide (body = []) then body else body ++ [newline].

(** [unionManifestPaths]. *)
Definition unionManifestPaths (lists : list (list bytes)) : list bytes :=
  unseen ∅ (filter (fun p => p <> []) (map TrimSpace (mjoin lists))).

(** The scanning loop of [loadManifest]: the clean paths in first-seen order, and
    whether a line was blank, unclean or repeated. *)
Fixpoint loadLoop (seen : gset bytes) (lines : list bytes) : list bytes * bool :=
  match lines with
  | [] => ([], false)
  | l :: ls =>
      let raw := TrimSpace l in
      if bool_decide (raw = []) then (fst (loadLoop seen ls), true)
      else match cleanRelativePath raw with
           | Err _ => (fst (loadLoop seen ls), true)
           | Ok relPath =>
               if decide (relPath ∈ seen) then (fst (loadLoop seen ls), true)
               else let '(cs, changed) := loadLoop ({[relPath]} ∪ seen) ls in
                    (relPath :: cs, changed)
           end
  end.

(** [_, ok := s.index[p]]. *)
Definition indexed (s : Store) (p : bytes) : Prop := is_Some (index s !! p).

#[export] Instance indexed_dec s p : Decision (indexed s p).
Proof. unfold indexed. apply _. Defined.

(** [os.ReadFile]. *)
Definition readFile (env : Env) (fs : Files) (path : bytes) : result bytes :=
  match env_read env path with
  | Some e => Err e
  | None => match fs !! path with Some (b, _) => Ok b | None => Err ENotExist end
  end.

(** [os.Remove]. *)
Definition removeFile (env : Env) (fs : Files) (path : bytes) : result Files :=
  match env_remove env path with
  | Some e => Err e
  | None => match fs !! path with Some _ => Ok (delete path fs) | None => Err ENotExist end
  end.

Section manifests.
Context `{Zstd}.

(** The lines of a manifest (compressed) or of an upload session (plain). *)
Definition manifestLines (env : Env) (fs : Files) (path : bytes) : result (list bytes) :=
  let? data := readFile env fs path in
  let? data := (if HasSuffix path manifestExt then DecodeZstd data else Ok data) in
  match ScanLines scannerMax data with
  | (lines, false) => Ok lines
  | (_, true) => Err (EMsg "bufio.Scanner: token too long")
  end.

Definition loadManifest (env : Env) (s : Store) (fs : Files) (path : bytes)
    : result (list bytes * bool) :=
  let? lines := manifestLines env fs path in
  let '(candidates, changed) := loadLoop ∅ lines in
  let res := filter (indexed s) candidates in
  Ok (res, changed || negb (length res =? length candidates)%nat).

Definition readManifestPaths (env : Env) (fs : Files) (path : bytes) : result (list bytes) :=
  let? lines := manifestLines env fs path in
  Ok (unseen ∅ (omap (fun l => match cleanRelativePath l with Ok p => Some p | Err _ => None end) lines)).

(** What [writeManifest] puts into the file. *)
Definition manifestData (path body : bytes) : bytes :=
  if HasSuffix path manifestExt then EncodeZstd body else body.

Definition writeManifest (cf : Config) (env : Env) (sv : Server) (path body : bytes)
    : Server * result unit :=
  let data := manifestData path body in
  let tmp := path ++ #".tmp" in
  match env_write env path with
  | Some (MFMkdir e) => (sv, Err e)
  | Some (MFWrite e part) =>
      let fs := match part with
                | Some n => <[tmp := (take n data, env_now env)]> (sv_files sv)
                | None => sv_files sv
                end in
      (mkServer (handleWriteErr cf (sv_store sv) e) fs, Err e)
  | Some (MFRename e) =>
      (mkServer (sv_store sv) (<[tmp := (data, env_now env)]> (sv_files sv)), Err e)
  | None =>
      (mkServer (sv_store sv) (<[path := (data, env_now env)]> (delete tmp (sv_files sv))), Ok tt)
  end.

Definition mergeManifest (cf : Config) (env : Env) (sv : Server) (path : bytes) (paths : list bytes)
    : Server * result unit :=
  match loadManifest env (sv_store sv) (sv_files sv) path with
  | Err e =>
      if isNotExist e then
        writeManifest cf env sv path (joinManifestBody (unionManifestPaths [[]; paths]))
      else (sv, Err e)
  | Ok (existing, _) =>
      writeManifest cf env sv path (joinManifestBody (unionManifestPaths [existing; paths]))
  end.

(** One half of [MergeSavedPaths]: resolve the key's manifest and merge. *)
Definition mergeInto (cf : Config) (env : Env) (sv : Server) (k : manifestKind)
    (id buildType : bytes) (paths : list bytes) : Server * result unit :=
  if bool_decide (id = []) then (sv, Ok tt)
  else match manifestPathOf cf k id buildType with
       | Err e => (sv, Err e)
       | Ok path => mergeManifest cf env sv path paths
       end.

Definition MergeSavedPaths (cf : Config) (env : Env) (sv : Server) (req : Request) (paths : list bytes)
    : Server * result unit :=
  match mergeInto cf env sv KCommit (rq_Commit req) (rq_BuildType req) paths with
  | (sv, Err e) => (sv, Err e)
  | (sv, Ok _) => mergeInto cf env sv KChanges (rq_ChangesID req) (rq_BuildType req) paths
  end.

(** ** Upload sessions *)

(** What [AppendUploadPaths] writes. *)
Definition uploadLines (paths : list bytes) : bytes :=
  mjoin (map (fun p => p ++ [newline]) (filter (fun p => p <> []) (map TrimSpace paths))).

Definition AppendUploadPaths (cf : Config) (env : Env) (fs : Files) (uploadID : bytes) (paths : list bytes)
    : Files * result unit :=
  match uploadSessionPath cf uploadID with
  | Err e => (fs, Err e)
  | Ok path =>
      let old := match fs !! path with Some (b, _) => b | None => [] end in
      let text := uploadLines paths in
      match env_write env path with
      | Some (MFMkdir e) | Some (MFRename e) | Some (MFWrite e None) => (fs, Err e)
      | Some (MFWrite e (Some n)) => (<[path := (old ++ take n text, env_now env)]> fs, Err e)
      | None => (<[path := (old ++ text, env_now env)]> fs, Ok tt)
      end
  end.

Definition FinalizeUpload (cf : Config) (env : Env) (sv : Server) (req : Request) (uploadID : bytes)
    : Server * result unit :=
  match uploadSessionPath cf uploadID with
  | Err e => (sv, Err e)
  | Ok path =>
      match loadManifest env (sv_store sv) (sv_files sv) path with
      | Err e => (sv, if isNotExist e then Ok tt else Err e)
      | Ok (paths, _) =>
          match MergeSavedPaths cf env sv req paths with
          | (sv, Err e) => (sv, Err e)
          | (sv, Ok _) =>
              match removeFile env (sv_files sv) path with
              | Ok fs => (mkServer (sv_store sv) fs, Ok tt)
              | Err e => (sv, if isNotExist e then Ok tt else Err e)
              end
          end
      end
  end.

(** ** Listing and references *)

(** The order in which [filepath.WalkDir] meets files: by names, level by level. *)
Fixpoint walk_lt (a b : list bytes) : bool :=
  match a, b with
  | _, [] => false
  | [], _ :: _ => true
  | x :: a', y :: b' => bytes_lt x y || (bool_decide (x = y) && walk_lt a' b')
  end.

Definition under (root p : bytes) : bool := HasPrefix p (root ++ #"/").

Definition listManifestFiles (env : Env) (fs : Files) (root : bytes) : result (list bytes) :=
  match env_walk env root with
  | Some e => Err e
  | None =>
      Ok (filter (fun p => HasSuffix (Base p) #".tmp" = false)
            (stable_sort (fun p q => walk_lt (comps p) (comps q))
               (filter (fun p => under root p = true) (map fst (map_to_list fs)))))
  end.

(** Collect the paths of several manifests; one that has gone is skipped. *)
Fixpoint collectRefs (env : Env) (fs : Files) (files : list bytes) (refs : gset bytes)
    : result (gset bytes) :=
  match files with
  | [] => Ok refs
  | f :: files' =>
      match readManifestPaths env fs f with
      | Err e => if isNotExist e then collectRefs env fs files' refs else Err e
      | Ok ps => collectRefs env fs files' (refs ∪ list_to_set ps)
      end
  end.

Definition manifestRoot (cf : Config) : bytes := JoinPath [cf_dir cf; #"manifests"].

Definition scanManifestRefs (cf : Config) (env : Env) (fs : Files) (skip : gset bytes)
    : result (gset bytes) :=
  let? files := listManifestFiles env fs (manifestRoot cf) in
  collectRefs env fs (filter (fun f => f ∉ skip) files) ∅.

Definition blank (s : bytes) : bool := bool_decide (TrimSpace s = []).

(** One optional target of [targetManifestPaths]. *)
Definition target (cf : Config) (k : manifestKind) (id buildType : bytes) : result (list bytes) :=
  if blank id then Ok [] else let? p := manifestPathOf cf k id buildType in Ok [p].

Definition targetManifestPaths (cf : Config) (env : Env) (fs : Files) (req : Request)
    : result (list bytes) :=
  if negb (blank (rq_BuildType req)) && blank (rq_Commit req) && blank (rq_ChangesID req)
     && blank (rq_BaseCommit req) then
    let? scopeDir := manifestScopeDir (rq_BuildType req) in
    listManifestFiles env fs (scopeRoot cf scopeDir)
  else
    let? t1 := target cf KCommit (rq_Commit req) (rq_BuildType req) in
    let? t2 := target cf KChanges (rq_ChangesID req) (rq_BuildType req) in
    let? t3 := target cf KCommit (rq_BaseCommit req) (rq_BuildType req) in
    Ok (t1 ++ t2 ++ t3).

(** [collectStaleManifests]: a manifest that cannot be removed stays. *)
Definition staleStep (cf : Config) (env : Env) (fs : Files) (path : bytes) : Files :=
  match fs !! path with
  | None => fs
  | Some (_, mtime) =>
      if env_now env - cf_manifestMaxAge cf <? mtime then fs
      else match removeFile env fs path with Ok fs' => fs' | Err _ => fs end
  end.

Definition collectStaleManifests (cf : Config) (env : Env) (fs : Files) : Files :=
  if cf_manifestMaxAge cf <=? 0 then fs
  else match listManifestFiles env fs (manifestRoot cf) with
       | Err _ => fs
       | Ok files => foldl (staleStep cf env) fs files
       end.
End manifests.

(** ** Reading back what was written *)

(** A text that a line of a manifest can carry. *)
Record line_ok (p : bytes) : Prop := {
  ln_ne : p <> [];
  ln_trim : TrimSpace p = p;
  ln_line : newline ∉ p;
  ln_len : blen p < scannerMax;
}.

(** A path that a manifest line can carry: clean, without surrounding space or a
    newline, within the scanner's limit. *)
Record listable (p : bytes) : Prop := {
  ls_clean : rel_clean p;
  ls_trim : TrimSpace p = p;
  ls_line : newline ∉ p;
  ls_len : blen p < scannerMax;
}.

Lemma trim_left_suffix spaces n s : trim_left spaces n s `suffix_of` s.
Proof.
  revert s. induction n as [|n IH]; intros s; simpl; [done|].
  destruct (drop_space spaces s) as [s'|] eqn:E; [|done].
  etransitivity; [apply IH|]. unfold drop_space in E. destruct s as [|c s]; [done|].
  destruct (ascii_space c); [injection E as <-; by apply suffix_cons_r|].
  destruct (list_find _ _) as [[i q]|]; [|done]. injection E as <-. apply suffix_drop.
Qed.

Lemma suffix_same_length {A} (l k : list A) : l `suffix_of` k -> length k = length l -> l = k.
Proof.
  intros [x ->]. rewrite length_app. intros E. destruct x; [done|simpl in E; lia].
Qed.

Lemma TrimSpace_no_CR p : TrimSpace p = p -> dropCR p = p.
Proof.
  intros Ht. unfold dropCR. destruct (last p) as [c|] eqn:El; [|done].
  case_bool_decide as Hc; [|done]. subst c. exfalso.
  apply last_Some in El as [q ->]. unfold TrimSpace in Ht. apply (f_equal reverse) in Ht.
  rewrite reverse_involutive in Ht.
  assert (H1 := trim_left_suffix wide_spaces (length (q ++ [carriage])) (q ++ [carriage])).
  set (l := trim_left wide_spaces _ _) in *. clearbody l.
  generalize dependent (map reverse wide_spaces). intros spaces Ht.
  assert (H2 := trim_left_suffix spaces (length l) (reverse l)).
  rewrite Ht in H2. apply suffix_length in H1 as L1. apply suffix_length in H2 as L2.
  rewrite !length_reverse in L2. apply suffix_same_length in H1 as ->; [|lia]. clear L1 L2 H2.
  rewrite reverse_app in Ht. change (reverse [carriage] ++ reverse q) with (carriage :: reverse q) in Ht.
  rewrite length_app, Nat.add_1_r in Ht. simpl in Ht.
  assert (H3 := trim_left_suffix spaces (length q) (reverse q)).
  rewrite Ht in H3. apply suffix_length in H3. simpl in H3. lia.
Qed.

Lemma Join_lines l : l <> [] -> Join l [newline] ++ [newline] = mjoin (map (fun p => p ++ [newline]) l).
Proof.
  induction l as [|c [|d l] IH]; intros Hl; [done|simpl; by rewrite app_nil_r|].
  change (Join (c :: d :: l) [newline]) with (c ++ [newline] ++ Join (d :: l) [newline]).
  rewrite <-!app_assoc, IH by done. simpl. by rewrite <-!app_assoc.
Qed.

Lemma listable_nonempty p : listable p -> p <> [].
Proof. intros [(l & Hl & Hf & ->) _ _ _]. by apply uncomps_nonempty. Qed.

Lemma listable_line p : listable p -> line_ok p.
Proof. intros Hp. destruct Hp as [? ? ? ?] eqn:E. split; try done. by apply listable_nonempty. Qed.

Lemma joinManifestBody_lines l :
  Forall line_ok l -> joinManifestBody l = mjoin (map (fun p => p ++ [newline]) l).
Proof.
  intros Hl. unfold joinManifestBody. destruct l as [|c l]; [done|].
  rewrite <-Join_lines by done. rewrite bool_decide_eq_false_2; [done|].
  apply Forall_cons in Hl as [Hc _]. apply ln_ne in Hc.
  destruct l; simpl; destruct c; done.
Qed.

Lemma split_lines l :
  Forall (fun p => newline ∉ p) l ->
  split_on newline (mjoin (map (fun p => p ++ [newline]) l)) = l ++ [[]].
Proof.
  induction 1 as [|p l Hp Hl IH]; simpl; [done|].
  rewrite <-app_assoc. simpl. rewrite split_on_app by done. by rewrite IH.
Qed.

Lemma raw_lines_join l :
  Forall (fun p => newline ∉ p) l -> raw_lines (mjoin (map (fun p => p ++ [newline]) l)) = l.
Proof.
  intros Hl. unfold raw_lines. rewrite split_lines by done. rewrite last_snoc, length_app. simpl.
  rewrite Nat.add_sub. apply take_app_length.
Qed.

Lemma scan_tokens_lines l : Forall line_ok l -> scan_tokens scannerMax l = (l, false).
Proof.
  induction 1 as [|p l Hp Hl IH]; [done|]. cbn [scan_tokens].
  rewrite (proj2 (Z.ltb_lt _ _) (ln_len _ Hp)), IH. by rewrite (TrimSpace_no_CR _ (ln_trim _ Hp)).
Qed.

Lemma scan_lines l : Forall line_ok l -> ScanLines scannerMax (joinManifestBody l) = (l, false).
Proof.
  intros Hl. unfold ScanLines. rewrite joinManifestBody_lines by done.
  rewrite raw_lines_join by (eapply Forall_impl; [exact Hl|]; apply ln_line). by apply scan_tokens_lines.
Qed.

Lemma scan_join l : Forall listable l -> ScanLines scannerMax (joinManifestBody l) = (l, false).
Proof. intros Hl. apply scan_lines. eapply Forall_impl; [exact Hl|apply listable_line]. Qed.

Lemma loadLoop_clean seen l :
  Forall listable l -> NoDup l -> (forall p, p ∈ l -> p ∉ seen) -> loadLoop seen l = (l, false).
Proof.
  intros Hl. revert seen. induction Hl as [|p l Hp Hl IH]; intros seen Hnd Hs; simpl; [done|].
  apply NoDup_cons in Hnd as [Hn Hnd]. rewrite (ls_trim _ Hp).
  rewrite bool_decide_eq_false_2 by (by apply listable_nonempty).
  rewrite rel_clean_cleanRelativePath by apply Hp.
  rewrite decide_False by (apply Hs; set_solver). rewrite IH; [done|done|set_solver].
Qed.

(** The loop in general: the candidates are clean and distinct, and repeat no
    path seen before. *)
Lemma loadLoop_spec seen l :
  let cs := fst (loadLoop seen l) in
  NoDup cs /\ (forall p, p ∈ cs -> rel_clean p /\ p ∉ seen).
Proof.
  revert seen. induction l as [|x l IH]; intros seen; simpl; [split; [constructor|set_solver]|].
  case_bool_decide; [apply IH|]. destruct (cleanRelativePath _) as [q|] eqn:Eq; [|apply IH].
  case_decide as Hq; [apply IH|].
  specialize (IH ({[q]} ∪ seen)). destruct (loadLoop _ l) as [cs ch]. simpl in *.
  destruct IH as [Hn Hc]. split.
  - constructor; [|done]. intros Hin. apply Hc in Hin. set_solver.
  - intros p [->|Hp]%elem_of_cons; [split; [by eapply cleanRelativePath_ok|done]|].
    apply Hc in Hp. set_solver.
Qed.

(** ** Loading *)

Section loading.
Context `{Zstd}.

(** The manifest at [path] holds the lines [l], as [writeManifest] renders them. *)
Definition written (fs : Files) (path : bytes) (l : list bytes) : Prop :=
  exists mt, fs !! path = Some (manifestData path (joinManifestBody l), mt).

(** No fault of an environment pretends that a file is absent. *)
Definition env_ok (env : Env) : Prop :=
  forall path, env_read env path <> Some ENotExist /\ env_remove env path <> Some ENotExist.

Lemma calm_ok now : env_ok (calm now).
Proof. done. Qed.

(** The paths of the index can be listed in a manifest. *)
Definition index_listable (s : Store) : Prop := forall p, indexed s p -> listable p.

Lemma manifestLines_written env fs path l :
  env_read env path = None -> written fs path l -> Forall listable l ->
  manifestLines env fs path = Ok l.
Proof.
  intros He [mt Hf] Hl. unfold manifestLines, readFile. rewrite He, Hf. unfold manifestData.
  destruct (HasSuffix path manifestExt); [rewrite DecodeZstd_Encode|]; by rewrite scan_join.
Qed.

Lemma filter_length_id {A} (P : A -> Prop) `{!forall x, Decision (P x)} (l : list A) :
  (length (filter P l) =? length l)%nat = true <-> Forall P l.
Proof.
  rewrite Nat.eqb_eq. split.
  - intros E. rewrite Forall_forall. intros x Hx.
    destruct (decide (P x)) as [|Hn]; [done|].
    assert (Hlt := length_filter_lt P l x Hx Hn). lia.
  - induction 1 as [|x l Hx Hl IH]; [done|]. rewrite filter_cons_True by done. simpl. lia.
Qed.

Lemma load_written env s fs path l :
  env_read env path = None -> written fs path l -> Forall listable l -> NoDup l ->
  exists ch, loadManifest env s fs path = Ok (filter (indexed s) l, ch) /\
    (Forall (indexed s) l -> ch = false).
Proof.
  intros He Hw Hl Hnd. unfold loadManifest. rewrite (manifestLines_written env fs path l) by done.
  rewrite loadLoop_clean; [|done|done|set_solver]. simpl. eexists. split; [done|].
  intros Hf. by apply (filter_length_id (indexed s)) in Hf as ->.
Qed.

Lemma loadManifest_sound env s fs path l ch :
  loadManifest env s fs path = Ok (l, ch) ->
  NoDup l /\ forall p, p ∈ l -> indexed s p /\ rel_clean p.
Proof.
  unfold loadManifest. destruct (manifestLines env fs path) as [ls|]; [|done].
  assert (Hs := loadLoop_spec ∅ ls). destruct (loadLoop ∅ ls) as [cs c]. simpl in *.
  destruct Hs as [Hn Hc]. intros [= <- _]. split; [by apply NoDup_filter|].
  intros p [Hi Hp]%list_elem_of_filter. split; [done|]. by apply Hc.
Qed.

(** What a manifest means: the paths it loads, none when it cannot be read. *)
Definition contents (s : Store) (fs : Files) (path : bytes) : list bytes :=
  match loadManifest (calm 0) s fs path with Ok (l, _) => l | Err _ => [] end.

Lemma loadManifest_calm env s fs path :
  env_read env path = None -> loadManifest env s fs path = loadManifest (calm 0) s fs path.
Proof. intros He. unfold loadManifest, manifestLines, readFile. by rewrite He. Qed.

Lemma loadManifest_env env s fs path l ch :
  loadManifest env s fs path = Ok (l, ch) -> contents s fs path = l.
Proof.
  intros Hl. destruct (env_read env path) as [e|] eqn:He.
  - unfold loadManifest, manifestLines, readFile in Hl. by rewrite He in Hl.
  - unfold contents. rewrite <-(loadManifest_calm env) by done. by rewrite Hl.
Qed.

Lemma loadManifest_absent env s fs path e :
  env_ok env ->
  loadManifest env s fs path = Err e -> isNotExist e = true ->
  contents s fs path = [] /\ fs !! path = None.
Proof.
  intros Henv Hl He. destruct e; try done. clear He.
  destruct (env_read env path) as [e|] eqn:Er.
  { unfold loadManifest, manifestLines, readFile in Hl. rewrite Er in Hl. injection Hl as ->.
    by destruct (proj1 (Henv path)). }
  rewrite (loadManifest_calm env) in Hl by done. unfold contents. rewrite Hl. split; [done|].
  unfold loadManifest, manifestLines, readFile in Hl. simpl in Hl.
  destruct (fs !! path) as [[b mt]|]; [|done]. exfalso.
  destruct (HasSuffix path manifestExt).
  - destruct (DecodeZstd b) as [d|e] eqn:Ed.
    + destruct (ScanLines scannerMax d) as [ls []]; [done|]. by destruct (loadLoop ∅ ls).
    + injection Hl as ->. by apply DecodeZstd_exists in Ed.
  - destruct (ScanLines scannerMax b) as [ls []]; [done|]. by destruct (loadLoop ∅ ls).
Qed.

(** Membership depends on the index only through the path asked. *)
Lemma contents_index s s' fs path p :
  indexed s p -> indexed s' p -> p ∈ contents s fs path <-> p ∈ contents s' fs path.
Proof.
  intros H1 H2. unfold contents, loadManifest. destruct (manifestLines _ fs path) as [ls|]; [|done].
  destruct (loadLoop ∅ ls) as [cs c]. rewrite !list_elem_of_filter. tauto.
Qed.

Lemma contents_file s fs fs' path : fs !! path = fs' !! path -> contents s fs path = contents s fs' path.
Proof.
  intros E. unfold contents, loadManifest, manifestLines, readFile. simpl. by rewrite E.
Qed.

Lemma contents_indexed s fs path p : p ∈ contents s fs path -> indexed s p.
Proof.
  unfold contents. destruct (loadManifest _ s fs path) as [[l ch]|] eqn:E; [|set_solver].
  intros Hp. by apply (loadManifest_sound _ _ _ _ _ _ E).
Qed.

Lemma contents_written s fs path l :
  written fs path l -> Forall listable l -> NoDup l -> contents s fs path = filter (indexed s) l.
Proof.
  intros Hw Hl Hn. destruct (load_written (calm 0) s fs path l) as (ch & E & _); [done..|].
  unfold contents. by rewrite E.
Qed.
End loading.

(** ** Writing and merging *)

Section merging.
Context `{Zstd}.

Lemma tmp_ne (path : bytes) : path ++ #".tmp" <> path.
Proof. intros E. apply (f_equal length) in E. rewrite length_app in E. vm_compute (length #".tmp") in E. lia. Qed.

Lemma writeManifest_ok cf env sv path body sv' :
  writeManifest cf env sv path body = (sv', Ok tt) ->
  sv_store sv' = sv_store sv /\
  sv_files sv' = <[path := (manifestData path body, env_now env)]> (delete (path ++ #".tmp") (sv_files sv)).
Proof. unfold writeManifest. destruct (env_write env path) as [[]|]; intros; by simplify_eq. Qed.

Lemma writeManifest_others cf env sv path body sv' r q :
  writeManifest cf env sv path body = (sv', r) -> q <> path -> q <> path ++ #".tmp" ->
  sv_files sv' !! q = sv_files sv !! q.
Proof.
  unfold writeManifest. intros Hw Hq Ht.
  destruct (env_write env path) as [[e|e [n|]|e]|]; simplify_eq/=; try done;
    rewrite lookup_insert_ne by done; try done. by rewrite lookup_delete_ne.
Qed.

(** A failed write leaves the manifest as it was and the store consistent. *)
Lemma writeManifest_err cf env sv path body sv' e a :
  cfg_ok cf -> repr cf (sv_store sv) a ->
  writeManifest cf env sv path body = (sv', Err e) ->
  sv_files sv' !! path = sv_files sv !! path /\ save_failed cf (sv_store sv') a e.
Proof.
  intros Hc Hr. unfold writeManifest. assert (Ht := tmp_ne path).
  destruct (env_write env path) as [[e'|e' [n|]|e']|]; intros; simplify_eq/=;
    rewrite ?lookup_insert_ne by done; (split; [done|]);
    try (by apply save_failed_refl); unfold save_failed; by apply handleWriteErr_spec.
Qed.

(** Self-healing converges.  A manifest that was loaded, with its blank,
    unclean, repeated and no longer indexed lines dropped, and written back,
    loads as exactly those paths, with nothing left to heal; no other file has
    changed. *)
Theorem self_heal_converges cf env env' sv path l ch sv'
    (Hidx : index_listable (sv_store sv))
    (Hload : loadManifest env (sv_store sv) (sv_files sv) path = Ok (l, ch))
    (Hwrite : writeManifest cf env sv path (joinManifestBody l) = (sv', Ok tt))
    (Hread : env_read env' path = None) :
  loadManifest env' (sv_store sv') (sv_files sv') path = Ok (l, false) /\
  forall q, q <> path -> q <> path ++ #".tmp" -> sv_files sv' !! q = sv_files sv !! q.
Proof.
  split; [|intros q; by eapply writeManifest_others].
  apply writeManifest_ok in Hwrite as [-> Hf].
  apply loadManifest_sound in Hload as [Hn Hl].
  assert (Hin : Forall (indexed (sv_store sv)) l) by (apply Forall_forall; intros; by apply Hl).
  destruct (load_written env' (sv_store sv) (sv_files sv') path l) as (c & -> & Hc); [done|..].
  - exists (env_now env). rewrite Hf. apply lookup_insert_eq.
  - eapply Forall_impl; [exact Hin|apply Hidx].
  - done.
  - rewrite Hc by done. do 2 f_equal. clear -Hin.
    induction Hin as [|p l Hp Hl IH]; [done|]. rewrite filter_cons_True by done. by f_equal.
Qed.

Lemma union_two old new :
  Forall listable old -> Forall listable new ->
  unionManifestPaths [old; new] = unseen ∅ (old ++ new).
Proof.
  intros Ho Hn. unfold unionManifestPaths. simpl. rewrite app_nil_r. f_equal.
  assert (Hl : Forall listable (old ++ new)) by (by apply Forall_app). clear Ho Hn.
  induction Hl as [|p l Hp Hl IH]; [done|]. simpl. rewrite (ls_trim _ Hp).
  rewrite filter_cons_True by (by apply listable_nonempty). by f_equal.
Qed.

Lemma contents_listable s fs path : index_listable s -> Forall listable (contents s fs path).
Proof. intros Hi. apply Forall_forall. intros p Hp. by eapply Hi, contents_indexed. Qed.

Lemma contents_of_write s fs path mt l k :
  index_listable s -> Forall listable k ->
  fs !! path = Some (manifestData path (joinManifestBody (unionManifestPaths [l; k])), mt) ->
  Forall listable l ->
  forall p, indexed s p -> p ∈ contents s fs path <-> p ∈ l \/ p ∈ k.
Proof.
  intros Hi Hk Hf Hl p Hp. rewrite union_two in Hf by done.
  rewrite (contents_written s fs path (unseen ∅ (l ++ k))).
  - rewrite list_elem_of_filter, elem_of_unseen, elem_of_app. set_solver.
  - by exists mt.
  - apply Forall_forall. intros q [Hq _]%elem_of_unseen.
    rewrite Forall_forall in Hl, Hk. apply elem_of_app in Hq as [?|?]; auto.
  - apply NoDup_unseen.
Qed.

(** A merge that succeeds adds the paths and loses none; one that fails leaves
    the manifest alone. *)
Lemma mergeManifest_spec cf env sv path paths a sv' r :
  cfg_ok cf -> env_ok env -> repr cf (sv_store sv) a -> index_listable (sv_store sv) ->
  Forall listable paths ->
  mergeManifest cf env sv path paths = (sv', r) ->
  match r with
  | Ok _ =>
      sv_store sv' = sv_store sv /\
      (forall p, indexed (sv_store sv) p ->
        p ∈ contents (sv_store sv') (sv_files sv') path <->
        p ∈ contents (sv_store sv) (sv_files sv) path \/ p ∈ paths)
  | Err e => sv_files sv' !! path = sv_files sv !! path /\ save_failed cf (sv_store sv') a e
  end.
Proof.
  intros Hc He Hr Hi Hp. unfold mergeManifest.
  assert (Hok : forall l, Forall listable l ->
    (forall p, p ∈ l <-> p ∈ contents (sv_store sv) (sv_files sv) path) ->
    writeManifest cf env sv path (joinManifestBody (unionManifestPaths [l; paths])) = (sv', r) ->
    match r with
    | Ok _ => sv_store sv' = sv_store sv /\
        (forall p, indexed (sv_store sv) p ->
          p ∈ contents (sv_store sv') (sv_files sv') path <->
          p ∈ contents (sv_store sv) (sv_files sv) path \/ p ∈ paths)
    | Err e => sv_files sv' !! path = sv_files sv !! path /\ save_failed cf (sv_store sv') a e
    end).
  { intros l Hl Hsame Hw. destruct r as [[]|e]; [|by eapply writeManifest_err].
    apply writeManifest_ok in Hw as [-> Hf]. split; [done|]. intros p Hin.
    rewrite (contents_of_write _ _ path (env_now env) l paths); [by rewrite Hsame|done|done| |done|done].
    rewrite Hf. apply lookup_insert_eq. }
  destruct (loadManifest env (sv_store sv) (sv_files sv) path) as [[l ch]|e] eqn:El.
  - apply loadManifest_env in El. apply Hok; rewrite <-El; [by apply contents_listable|done].
  - destruct (isNotExist e) eqn:En.
    + apply loadManifest_absent in El as [E _]; [|done|done]. apply Hok; [constructor|]. by rewrite E.
    + intros [= <- <-]. split; [done|]. by apply save_failed_refl.
Qed.

(** ** Concurrent updates *)

(** The requests that update one manifest run one after another, under its lock
    ([lockManifestPath]): merges of saved paths, and the write-back of a restore. *)
Inductive update :=
  | UMerge (env : Env) (paths : list bytes)
  | UHeal (env : Env).

(** The locked part of a restore: load, and write back what was healed; a failure
    of the write is logged only. *)
Definition loadHealed (cf : Config) (env : Env) (sv : Server) (path : bytes)
    : Server * result (list bytes) :=
  match loadManifest env (sv_store sv) (sv_files sv) path with
  | Err e => (sv, Err e)
  | Ok (paths, changed) =>
      let sv := if changed then fst (writeManifest cf env sv path (joinManifestBody paths)) else sv in
      (sv, Ok paths)
  end.

(** Run the updates; with each merge that succeeded, its paths. *)
Fixpoint runUpdates (cf : Config) (sv : Server) (path : bytes) (us : list update)
    : Server * list (list bytes) :=
  match us with
  | [] => (sv, [])
  | UMerge env paths :: us =>
      let '(sv, r) := mergeManifest cf env sv path paths in
      let '(sv, merged) := runUpdates cf sv path us in
      (sv, match r with Ok _ => paths :: merged | Err _ => merged end)
  | UHeal env :: us => runUpdates cf (fst (loadHealed cf env sv path)) path us
  end.

Definition update_ok (u : update) : Prop :=
  match u with
  | UMerge env paths => env_ok env /\ Forall listable paths
  | UHeal env => env_ok env
  end.

Lemma repr_indexed cf s a p : repr cf s a -> indexed s p <-> is_Some (a !! p).
Proof.
  intros [Hh _]. unfold indexed. rewrite (lookup_index cf s a) by done. by rewrite fmap_is_Some.
Qed.

(** After a step the store holds part of what it held, and keeps the rest. *)
Lemma save_failed_shrinks cf s s' a e :
  repr cf s a -> save_failed cf s' a e ->
  exists a', repr cf s' a' /\ a' ⊆ a /\ forall p, indexed s' p -> indexed s p.
Proof.
  intros Hr (a' & Hr' & [Hs _] & _). exists a'. do 2 (split; [done|]). intros p.
  rewrite (repr_indexed cf s a), (repr_indexed cf s' a') by done. intros [x Hx].
  exists x. by eapply lookup_weaken.
Qed.

Lemma loadHealed_spec cf env sv path a sv' r :
  cfg_ok cf -> env_ok env -> repr cf (sv_store sv) a -> index_listable (sv_store sv) ->
  loadHealed cf env sv path = (sv', r) ->
  (exists a', repr cf (sv_store sv') a' /\ a' ⊆ a) /\
  (forall p, indexed (sv_store sv') p -> indexed (sv_store sv) p) /\
  (forall p, indexed (sv_store sv') p ->
     p ∈ contents (sv_store sv') (sv_files sv') path <-> p ∈ contents (sv_store sv) (sv_files sv) path) /\
  match r with
  | Ok l => l = contents (sv_store sv) (sv_files sv) path
  | Err e => sv' = sv
  end.
Proof.
  intros Hc He Hr Hi. unfold loadHealed.
  assert (Hrefl : exists a', repr cf (sv_store sv) a' /\ a' ⊆ a) by (exists a; by split).
  destruct (loadManifest _ _ _ _) as [[l ch]|e] eqn:El; [|intros [= <- <-]; by eauto].
  assert (Ec := loadManifest_env _ _ _ _ _ _ El). intros [= <- <-].
  destruct ch; [|by eauto]. rewrite Ec.
  destruct (writeManifest _ _ _ _ _) as [sv1 [[]|e]] eqn:Ew; simpl.
  - apply writeManifest_ok in Ew as [-> Hf]. split; [by eauto|]. split; [done|]. split; [|done].
    intros p Hp. apply loadManifest_sound in El as [Hn Hl].
    rewrite (contents_written _ _ path l); [rewrite list_elem_of_filter; naive_solver| |by rewrite <-Ec; apply contents_listable|done].
    exists (env_now env). rewrite Hf. apply lookup_insert_eq.
  - eapply writeManifest_err in Ew as [Hf Hs]; [|done..].
    destruct (save_failed_shrinks _ _ _ _ _ Hr Hs) as (a' & Hr' & Hsa & Hsub).
    split; [by eauto|]. split; [done|]. split; [|done]. intros p Hp.
    rewrite (contents_file _ _ (sv_files sv) path Hf), <-Ec. by apply contents_index; [|apply Hsub].
Qed.

Lemma runUpdates_spec cf sv path us a sv' merged :
  cfg_ok cf -> repr cf (sv_store sv) a -> index_listable (sv_store sv) -> Forall update_ok us ->
  runUpdates cf sv path us = (sv', merged) ->
  (forall p, indexed (sv_store sv') p -> indexed (sv_store sv) p /\
    (p ∈ contents (sv_store sv') (sv_files sv') path <->
     p ∈ contents (sv_store sv) (sv_files sv) path \/ p ∈ mjoin merged)).
Proof.
  intros Hc Hr Hi Hus. revert sv a merged Hr Hi.
  induction Hus as [|u us Hu Hus IH]; intros sv a merged Hr Hi; simpl.
  { intros [= <- <-] p Hp. set_solver. }
  destruct u as [env paths|env].
  - destruct Hu as [He Hp]. destruct (mergeManifest _ _ _ _ _) as [sv1 r] eqn:Em.
    assert (Hm := mergeManifest_spec cf env sv path paths a sv1 r Hc He Hr Hi Hp Em).
    destruct (runUpdates cf sv1 path us) as [sv2 m] eqn:Er. intros [= <- <-] p Hin.
    destruct r as [[]|e].
    + destruct Hm as [Es Hm]. destruct (IH sv1 a m) with (p := p) as [H1 H2]; [by rewrite Es..|done|done|].
      rewrite Es in H1. split; [done|]. simpl. rewrite H2, elem_of_app, (Hm p H1). tauto.
    + destruct Hm as [Hf Hs]. destruct (save_failed_shrinks _ _ _ _ _ Hr Hs) as (a' & Hr' & Hsa & Hsub).
      destruct (IH sv1 a' m) with (p := p) as [H1 H2]; [done|by intros q ?%Hsub; apply Hi|done|done|].
      split; [by apply Hsub|]. rewrite H2, (contents_file _ _ (sv_files sv) path Hf).
      rewrite (contents_index _ (sv_store sv)); [done|done|by apply Hsub].
  - intros Hrun p Hin. destruct (loadHealed cf env sv path) as [sv1 r] eqn:El.
    destruct (loadHealed_spec cf env sv path a sv1 r Hc Hu Hr Hi El) as ((a' & Hr' & _) & Hsub & Hsame & _).
    destruct (IH sv1 a' merged) with (p := p) as [H1 H2]; [done|by intros q ?%Hsub; apply Hi|done|done|].
    split; [by apply Hsub|]. by rewrite H2, Hsame.
Qed.

(** Updates of one manifest lose nothing.  Whatever merges and self-heals of
    concurrent requests run on a manifest, in any order, with any failures of the
    file system on the way, a path the store still indexes is loaded from it
    afterwards exactly when it was before or when a merge that succeeded added it. *)
Theorem manifest_updates_lose_nothing cf sv path us a sv' merged p
    (Hc : cfg_ok cf) (Hr : repr cf (sv_store sv) a) (Hi : index_listable (sv_store sv))
    (Hus : Forall update_ok us)
    (Hrun : runUpdates cf sv path us = (sv', merged))
    (Hp : indexed (sv_store sv') p) :
  p ∈ contents (sv_store sv') (sv_files sv') path <->
  p ∈ contents (sv_store sv) (sv_files sv) path \/ p ∈ mjoin merged.
Proof. by apply (runUpdates_spec cf sv path us a sv' merged). Qed.
End merging.

(** ** Upload sessions *)

Section uploads.
Context `{Zstd}.

Lemma loadLoop_unseen seen l : Forall listable l -> fst (loadLoop seen l) = unseen seen l.
Proof.
  intros Hl. revert seen. induction Hl as [|p l Hp Hl IH]; intros seen; simpl; [done|].
  rewrite (ls_trim _ Hp), bool_decide_eq_false_2 by (by apply listable_nonempty).
  rewrite rel_clean_cleanRelativePath by apply Hp. case_decide; [apply IH|].
  specialize (IH ({[p]} ∪ seen)). destruct (loadLoop _ l). simpl in *. by rewrite IH.
Qed.

Lemma uploadLines_listable l :
  Forall listable l -> uploadLines l = mjoin (map (fun p => p ++ [newline]) l).
Proof.
  intros Hl. unfold uploadLines. do 2 f_equal. induction Hl as [|p l Hp Hl IH]; [done|]. simpl.
  rewrite (ls_trim _ Hp), filter_cons_True by (by apply listable_nonempty). by f_equal.
Qed.

Lemma session_load env s fs path l mt :
  env_read env path = None -> HasSuffix path manifestExt = false -> Forall listable l ->
  fs !! path = Some (mjoin (map (fun p => p ++ [newline]) l), mt) ->
  exists ch, loadManifest env s fs path = Ok (filter (indexed s) (unseen ∅ l), ch).
Proof.
  intros He Hs Hl Hf. unfold loadManifest, manifestLines, readFile. rewrite He, Hf, Hs.
  unfold ScanLines. assert (Hln : Forall line_ok l) by (eapply Forall_impl; [exact Hl|apply listable_line]).
  rewrite raw_lines_join by (eapply Forall_impl; [exact Hln|]; apply ln_line).
  rewrite scan_tokens_lines by done. assert (Hu := loadLoop_unseen ∅ l Hl).
  destruct (loadLoop ∅ l) as [cs c]. simpl in *. subst. eauto.
Qed.

(** Successful appends of one session, in order. *)
Fixpoint appendAll (cf : Config) (fs : Files) (uploadID : bytes) (bs : list (Env * list bytes))
    : Files * bool :=
  match bs with
  | [] => (fs, true)
  | (env, b) :: bs =>
      match AppendUploadPaths cf env fs uploadID b with
      | (fs, Ok _) => appendAll cf fs uploadID bs
      | (fs, Err _) => (fs, false)
      end
  end.

Definition session_text (fs : Files) (path : bytes) : bytes :=
  match fs !! path with Some (b, _) => b | None => [] end.

Lemma appendAll_spec cf fs uploadID path bs fs' :
  uploadSessionPath cf uploadID = Ok path -> Forall (fun b => Forall listable b.2) bs ->
  appendAll cf fs uploadID bs = (fs', true) ->
  session_text fs' path = session_text fs path ++ mjoin (map (fun p => p ++ [newline]) (mjoin (map snd bs))) /\
  (forall q, q <> path -> fs' !! q = fs !! q) /\
  (bs <> [] -> is_Some (fs' !! path)).
Proof.
  intros Hpath Hbs. revert fs. induction Hbs as [|[env b] bs Hb Hbs IH]; intros fs; simpl.
  { intros [= <-]. by rewrite app_nil_r. }
  unfold AppendUploadPaths. rewrite Hpath.
  destruct (env_write env path) as [[e|e [n|]|e]|]; try done.
  rewrite uploadLines_listable by done. fold (session_text fs path). simpl in *. intros Ha.
  destruct (IH _ Ha) as (H1 & H2 & H3). split; [|split].
  - rewrite H1. unfold session_text at 1. rewrite lookup_insert_eq, <-app_assoc. f_equal.
    rewrite map_app. clear. induction (map _ b); simpl; [done|]. rewrite <-app_assoc. by f_equal.
  - intros q Hq. rewrite H2 by done. by apply lookup_insert_ne.
  - intros _. destruct bs; [|by apply H3]. injection Ha as <-. by rewrite lookup_insert_eq.
Qed.

Lemma mergeManifest_others cf env sv path paths sv' r q :
  mergeManifest cf env sv path paths = (sv', r) -> q <> path -> q <> path ++ #".tmp" ->
  sv_files sv' !! q = sv_files sv !! q.
Proof.
  unfold mergeManifest. destruct (loadManifest _ _ _ _) as [[l ch]|e].
  - apply writeManifest_others.
  - destruct (isNotExist e); [apply writeManifest_others|]. by intros [= <- _].
Qed.

Definition request_id (req : Request) (k : manifestKind) : bytes :=
  match k with KCommit => rq_Commit req | KChanges => rq_ChangesID req end.

(** Where the manifests of a configuration are. *)
Definition manifest_file (cf : Config) (p : bytes) : Prop :=
  exists d h f, manifest_at cf p d h f /\ HasSuffix p manifestExt = true.

Lemma manifestPathOf_at cf k id b p :
  abs_dir (cf_dir cf) -> manifestPathOf cf k id b = Ok p -> manifest_file cf p.
Proof.
  intros Hd Hp.
  assert (Hx : exists d h f, manifest_at cf p d h (f ++ manifestExt)).
  { destruct k; simpl in Hp.
    - apply commitManifestPath_at in Hp as (d & _ & _ & ?); [by eauto|done].
    - apply changesManifestPath_at in Hp as (d & _ & ?); [by eauto|done]. }
  destruct Hx as (d & h & f & Ha). exists d, h, (f ++ manifestExt). split; [done|].
  destruct Ha as (_ & _ & _ & ->).
  assert (E : uncomps [ #"manifests"; d; h; f ++ manifestExt] =
    uncomps [ #"manifests"; d; h] ++ slash :: (f ++ manifestExt)).
  { by apply (uncomps_app [ #"manifests"; d; h] [f ++ manifestExt]). }
  rewrite E. generalize (uncomps [ #"manifests"; d; h]). intros u.
  assert (E' : cf_dir cf ++ slash :: u ++ slash :: f ++ manifestExt =
    (cf_dir cf ++ slash :: u ++ slash :: f) ++ manifestExt).
  { rewrite <-app_assoc. simpl. by rewrite <-app_assoc. }
  rewrite E'. apply HasSuffix_app.
Qed.

Lemma tmp_not_ext x : HasSuffix (x ++ #".tmp") manifestExt = false.
Proof. unfold HasSuffix. rewrite reverse_app. done. Qed.

Lemma manifest_not_tmp cf p x : manifest_file cf p -> p <> x ++ #".tmp".
Proof. intros (d & h & f & _ & Hs) ->. by rewrite tmp_not_ext in Hs. Qed.

(** Outside the manifests and their temporaries. *)
Definition not_manifest (cf : Config) (q : bytes) : Prop :=
  forall p, manifest_file cf p -> q <> p /\ q <> p ++ #".tmp".

Lemma session_not_manifest cf id up :
  abs_dir (cf_dir cf) -> uploadSessionPath cf id = Ok up -> not_manifest cf up.
Proof.
  intros Hd Hu p (d & h & f & (_ & _ & _ & ->) & _).
  assert (Hx : exists u, up = cf_dir cf ++ slash :: #"uploads" ++ slash :: u).
  { revert Hu. unfold uploadSessionPath. case_bool_decide; [done|]. destruct (_ <? _); [done|].
    destruct (validScopedKeyName _) eqn:Hv; [|done]. cbn [negb].
    set (x := if (_ <? _)%nat then _ else _).
    assert (Hx : proper x).
    { unfold x. destruct (_ <? _)%nat; [by apply prefix_proper; [|lia]|].
      rewrite <-(app_nil_r (TrimSpace id)). apply valid_key_proper; [done|set_solver]. }
    assert (Hi : proper (TrimSpace id)).
    { rewrite <-(app_nil_r (TrimSpace id)). apply valid_key_proper; [done|set_solver]. }
    rewrite JoinPath_proper; [intros [= <-]; by eexists|done|done|].
    rewrite !Forall_cons. split; [apply proper_decide; vm_compute; reflexivity|auto]. }
  destruct Hx as [u ->]. rewrite <-app_assoc. split; intros E; apply app_inv_head in E; discriminate.
Qed.

Lemma MergeSavedPaths_spec cf env sv req paths a sv' :
  cfg_ok cf -> env_ok env -> repr cf (sv_store sv) a -> index_listable (sv_store sv) ->
  Forall listable paths ->
  MergeSavedPaths cf env sv req paths = (sv', Ok tt) ->
  sv_store sv' = sv_store sv /\
  (forall k mp p, request_id req k <> [] ->
     manifestPathOf cf k (request_id req k) (rq_BuildType req) = Ok mp ->
     indexed (sv_store sv) p ->
     p ∈ contents (sv_store sv') (sv_files sv') mp <->
     p ∈ contents (sv_store sv) (sv_files sv) mp \/ p ∈ paths) /\
  (forall q, not_manifest cf q -> sv_files sv' !! q = sv_files sv !! q).
Proof.
  intros Hc He Hr Hi Hp. destruct Hc as [Hd Hb]. assert (Hc : cfg_ok cf) by done.
  assert (Hone : forall k sv sv1, repr cf (sv_store sv) a -> index_listable (sv_store sv) ->
    mergeInto cf env sv k (request_id req k) (rq_BuildType req) paths = (sv1, Ok tt) ->
    sv_store sv1 = sv_store sv /\
    (forall mp p, request_id req k <> [] ->
       manifestPathOf cf k (request_id req k) (rq_BuildType req) = Ok mp ->
       indexed (sv_store sv) p ->
       p ∈ contents (sv_store sv1) (sv_files sv1) mp <->
       p ∈ contents (sv_store sv) (sv_files sv) mp \/ p ∈ paths) /\
    (forall q, not_manifest cf q -> sv_files sv1 !! q = sv_files sv !! q) /\
    (forall k' mp, k' <> k -> manifestPathOf cf k' (request_id req k') (rq_BuildType req) = Ok mp ->
       sv_files sv1 !! mp = sv_files sv !! mp)).
  { clear sv sv' Hr Hi. intros k sv sv1 Hr Hi. unfold mergeInto.
    case_bool_decide as He0; [intros [= <-]; done|].
    destruct (manifestPathOf _ _ _ _) as [mp|] eqn:Emp; [|done]. intros Hm.
    assert (Hf := manifestPathOf_at cf k _ _ mp Hd Emp).
    destruct (mergeManifest_spec cf env sv mp paths a sv1 (Ok tt) Hc He Hr Hi Hp Hm) as [Hs Hmm].
    split; [done|]. split; [|split].
    - intros mp' p _ [= <-] Hin. by apply Hmm.
    - intros q Hq. destruct (Hq mp Hf). by eapply mergeManifest_others.
    - intros k' mp' Hk Emp'. eapply mergeManifest_others; [done|..].
      + intros ->. by destruct (manifestPathOf_inj _ _ _ _ _ _ _ _ Hd Emp' Emp).
      + eapply manifest_not_tmp, manifestPathOf_at; done. }
  unfold MergeSavedPaths.
  destruct (mergeInto cf env sv KCommit _ _ _) as [sv1 [[]|]] eqn:E1; [|done]. intros E2.
  destruct (Hone KCommit sv sv1 Hr Hi E1) as (S1 & C1 & O1 & K1).
  destruct (Hone KChanges sv1 sv') as (S2 & C2 & O2 & K2); [by rewrite S1..|done|].
  rewrite S2, S1. split; [done|]. split.
  - intros k mp p Hne Emp Hin. destruct k.
    + rewrite <-(C1 mp p) by done. rewrite S1. by rewrite (contents_file _ _ _ mp (K2 KCommit mp ltac:(done) Emp)).
    + rewrite S1 in *. rewrite <-(contents_file _ _ _ mp (K1 KChanges mp ltac:(done) Emp)).
      rewrite <-S2 at 1. rewrite S2 in *. by apply C2.
  - intros q Hq. by rewrite O2, O1.
Qed.

(** An upload session publishes exactly what was appended to it.  After any
    number of appends to a new session and a successful finalize, the manifests of
    the request's commit and change list what they listed before and every appended
    path the store holds, and nothing else; the session file is gone. *)
Theorem upload_session_publishes cf env s fs req uploadID up bs fs1 a sv'
    (Hc : cfg_ok cf) (He : env_ok env) (Hread : env_read env up = None)
    (Hr : repr cf s a) (Hi : index_listable s)
    (Hup : uploadSessionPath cf uploadID = Ok up) (Hext : HasSuffix up manifestExt = false)
    (Hnew : fs !! up = None) (Hne : bs <> []) (Hbs : Forall (fun b => Forall listable b.2) bs)
    (Happ : appendAll cf fs uploadID bs = (fs1, true))
    (Hfin : FinalizeUpload cf env (mkServer s fs1) req uploadID = (sv', Ok tt)) :
  sv_store sv' = s /\ sv_files sv' !! up = None /\
  forall k mp p, request_id req k <> [] ->
    manifestPathOf cf k (request_id req k) (rq_BuildType req) = Ok mp -> indexed s p ->
    p ∈ contents s (sv_files sv') mp <-> p ∈ contents s fs mp \/ p ∈ mjoin (map snd bs).
Proof.
  destruct (appendAll_spec cf fs uploadID up bs fs1 Hup Hbs Happ) as (Htext & Hother & Hthere).
  assert (Hnm := session_not_manifest cf uploadID up (proj1 Hc) Hup).
  assert (Hl : Forall listable (mjoin (map snd bs))).
  { clear -Hbs. induction Hbs as [|[env b] bs Hb Hbs IH]; simpl; [done|]. by apply Forall_app. }
  destruct (Hthere Hne) as [[txt mt] Hf1]. unfold session_text in Htext. rewrite Hnew, Hf1 in Htext.
  simpl in Htext. subst txt. revert Hfin. unfold FinalizeUpload. rewrite Hup. simpl.
  destruct (session_load env s fs1 up (mjoin (map snd bs)) mt) as [ch ->]; [done..|].
  set (paths := filter _ _).
  assert (Hpl : Forall listable paths).
  { apply Forall_forall. intros p [Hp _]%list_elem_of_filter. by apply Hi. }
  destruct (MergeSavedPaths _ _ _ _ _) as [sv2 [[]|]] eqn:Em; [|done].
  destruct (MergeSavedPaths_spec cf env (mkServer s fs1) req paths a sv2 Hc He Hr Hi Hpl Em) as (Es & Hmm & Ho).
  simpl in *. intros Hrm.
  assert (Hsv : sv_store sv' = s /\ sv_files sv' = delete up (sv_files sv2)).
  { revert Hrm. unfold removeFile. destruct (env_remove env up) as [e|] eqn:Er.
    - assert (Hx := proj2 (He up)). rewrite Er in Hx. by destruct e.
    - rewrite (Ho up Hnm), Hf1. by intros [= <-]. }
  destruct Hsv as [-> Hfs]. split; [done|]. rewrite Hfs. split; [apply lookup_delete_eq|].
  intros k mp p Hk Hmp Hin.
  assert (Hne' : up <> mp).
  { intros ->. apply manifestPathOf_at in Hmp; [|apply Hc]. by destruct (Hnm mp Hmp). }
  rewrite (contents_file s _ (sv_files sv2) mp) by (by apply lookup_delete_ne).
  rewrite <-Es at 1. rewrite (Hmm k mp p Hk Hmp Hin).
  rewrite (contents_file s fs1 fs mp) by (apply Hother; done).
  unfold paths. rewrite list_elem_of_filter, elem_of_unseen. set_solver.
Qed.
End uploads.

(** ** Listing and pruning *)

Section listing.
Context `{Zstd}.

Lemma listManifestFiles_spec env fs root files q :
  listManifestFiles env fs root = Ok files ->
  q ∈ files <-> is_Some (fs !! q) /\ under root q = true /\ HasSuffix (Base q) #".tmp" = false.
Proof.
  unfold listManifestFiles. destruct (env_walk env root); [done|]. intros [= <-].
  rewrite list_elem_of_filter, stable_sort_perm, list_elem_of_filter, list_elem_of_fmap.
  split.
  - intros (Ht & Hu & [x [m Hm]] & Heq & Hx). simpl in Heq. subst x.
    apply elem_of_map_to_list in Hx. eauto.
  - intros ([x Hx] & Hu & Ht). split; [done|]. split; [done|]. exists (q, x). split; [done|].
    by apply elem_of_map_to_list.
Qed.

Definition stale (cf : Config) (env : Env) (m : option (bytes * Z)) : bool :=
  match m with
  | Some (_, mtime) => mtime <=? env_now env - cf_manifestMaxAge cf
  | None => false
  end.

Lemma staleStep_spec cf env fs path q :
  staleStep cf env fs path !! q =
  if bool_decide (q = path) && stale cf env (fs !! q) && bool_decide (env_remove env q = None)
  then None else fs !! q.
Proof.
  unfold staleStep, removeFile. case_bool_decide as Hq; simpl.
  - subst q. destruct (fs !! path) as [[b t]|] eqn:Ef; simpl; [|done].
    rewrite Z.ltb_antisym. destruct (t <=? _); simpl; [|done].
    destruct (env_remove env path); simpl; [done|]. rewrite ?Ef. apply lookup_delete_eq.
  - destruct (fs !! path) as [[b t]|] eqn:Ef; [|done]. destruct (_ <? _); [done|].
    destruct (env_remove env path); [done|]. rewrite ?Ef. by apply lookup_delete_ne.
Qed.

Lemma stale_fold cf env files fs q :
  foldl (staleStep cf env) fs files !! q =
  if bool_decide (q ∈ files) && stale cf env (fs !! q) && bool_decide (env_remove env q = None)
  then None else fs !! q.
Proof.
  revert fs. induction files as [|f files IH]; intros fs; simpl; [done|].
  rewrite IH, staleStep_spec. destruct (decide (q = f)) as [->|Hne].
  - rewrite (bool_decide_eq_true_2 (f = f)), (bool_decide_eq_true_2 (f ∈ f :: files)) by (done || set_solver).
    simpl. destruct (stale cf env (fs !! f)) eqn:Es; simpl.
    + destruct (bool_decide (env_remove env f = None)); simpl; [by rewrite andb_false_r|].
      by rewrite andb_false_r.
    + by rewrite Es, andb_false_r.
  - rewrite (bool_decide_eq_false_2 (q = f)) by done. simpl.
    rewrite (bool_decide_ext (q ∈ f :: files) (q ∈ files)); [done|]. set_solver.
Qed.

(** Pruning removes exactly the stale manifests.  When the manifests can be
    listed, a file is removed if and only if it lies under [manifests], is no
    temporary, was last written at or before the cutoff and can be removed; every
    other file is untouched.  Without a maximal age nothing is. *)
Theorem collectStaleManifests_spec cf env fs q (Hw : env_walk env (manifestRoot cf) = None) :
  collectStaleManifests cf env fs !! q =
  if (0 <? cf_manifestMaxAge cf) && under (manifestRoot cf) q && negb (HasSuffix (Base q) #".tmp")
     && stale cf env (fs !! q) && bool_decide (env_remove env q = None)
  then None else fs !! q.
Proof.
  unfold collectStaleManifests. rewrite Z.ltb_antisym.
  destruct (_ <=? 0); simpl; [done|].
  destruct (listManifestFiles env fs (manifestRoot cf)) as [files|] eqn:El.
  2: { unfold listManifestFiles in El. by rewrite Hw in El. }
  rewrite stale_fold. assert (Hm := listManifestFiles_spec _ _ _ _ q El).
  destruct (stale cf env (fs !! q)) eqn:Es; [|by rewrite !andb_false_r].
  rewrite !andb_true_r. f_equal. f_equal. case_bool_decide as Hq.
  - apply Hm in Hq as (_ & -> & ->). done.
  - destruct (under (manifestRoot cf) q) eqn:Eu; [|done].
    destruct (HasSuffix (Base q) #".tmp") eqn:Et; [done|]. exfalso. apply Hq, Hm.
    split; [|done]. unfold stale in Es. by destruct (fs !! q); [eauto|].
Qed.
End listing.

(** ** Witnesses *)

Section witnesses.
Let Z0 := magicZstd.
Local Existing Instance Z0.

Definition nineServer (fs : Files) : Server := mkServer tightStore fs.

Definition oldManifest : bytes := #"/srv/cache/manifests/default/a/abc1.zst".

(** A manifest with a stale line and a repeated one. *)
Definition messyFiles : Files :=
  {[ oldManifest := (manifestData oldManifest (#"aa/x" ++ [newline] ++ #"bb/gone" ++ [newline] ++ #" aa/x"), 3) ]}.

Lemma nine_listable : listable #"aa/x".
Proof.
  split; [apply example_rel_clean|vm_compute; reflexivity| |vm_compute; reflexivity].
  apply (bool_decide_eq_true_1 (newline ∉ #"aa/x")). vm_compute. reflexivity.
Qed.

Lemma nine_index_listable : index_listable tightStore.
Proof.
  intros p Hp. rewrite (repr_indexed tightConfig _ _ _ tight_repr) in Hp.
  destruct Hp as [x [<- _]%lookup_singleton_Some]. apply nine_listable.
Qed.

Lemma self_heal_converges_witness :
  exists sv', loadManifest (calm 7) tightStore messyFiles oldManifest = Ok ([ #"aa/x" ], true) /\
    writeManifest tightConfig (calm 7) (nineServer messyFiles) oldManifest (joinManifestBody [ #"aa/x" ]) = (sv', Ok tt) /\
    loadManifest (calm 8) (sv_store sv') (sv_files sv') oldManifest = Ok ([ #"aa/x" ], false).
Proof.
  eexists. split; [vm_compute; reflexivity|]. split; [reflexivity|].
  eapply (self_heal_converges tightConfig (calm 7) (calm 8) (nineServer messyFiles) oldManifest);
    [exact nine_index_listable|vm_compute; reflexivity|reflexivity|reflexivity].
Defined.

Definition exampleUpdates : list update :=
  [UMerge (mkEnv 5 (fun _ => None) (fun _ => Some (MFWrite (EMsg "quota") (Some 3%nat))) (fun _ => None) (fun _ => None)) [ #"aa/x" ];
   UHeal (calm 6); UMerge (calm 7) [ #"aa/x" ]].

Lemma manifest_updates_lose_nothing_witness :
  exists sv' merged, runUpdates tightConfig (nineServer ∅) oldManifest exampleUpdates = (sv', merged) /\
    merged = [[ #"aa/x" ]] /\ #"aa/x" ∈ contents (sv_store sv') (sv_files sv') oldManifest.
Proof.
  destruct (runUpdates tightConfig (nineServer ∅) oldManifest exampleUpdates) as [sv' merged] eqn:E.
  exists sv', merged. split; [done|].
  assert (Em : merged = [[ #"aa/x" ]]).
  { change merged with (snd (sv', merged)). rewrite <-E. vm_compute. reflexivity. }
  split; [done|].
  apply (manifest_updates_lose_nothing tightConfig (nineServer ∅) oldManifest exampleUpdates
    {[ #"aa/x" := (nineEntry, #"ninebytes") ]} sv' merged #"aa/x").
  - exact example_cfg_ok.
  - exact tight_repr.
  - exact nine_index_listable.
  - unfold exampleUpdates. rewrite !Forall_cons. assert (H := nine_listable). repeat split; try done; by constructor.
  - done.
  - change sv' with (fst (sv', merged)). rewrite <-E. vm_compute. eauto.
  - right. rewrite Em. apply (bool_decide_eq_true_1 (#"aa/x" ∈ mjoin [[ #"aa/x" ]])). vm_compute. reflexivity.
Defined.

Definition exampleRequest : Request := mkRequest #"abc1" #"org/repo#17" #"" #"" #"" 0 0.

Lemma upload_session_publishes_witness :
  exists fs1 sv', appendAll tightConfig ∅ #"up-1" [(calm 5, [ #"aa/x" ]); (calm 6, [])] = (fs1, true) /\
    FinalizeUpload tightConfig (calm 7) (mkServer tightStore fs1) exampleRequest #"up-1" = (sv', Ok tt) /\
    #"aa/x" ∈ contents tightStore (sv_files sv') oldManifest.
Proof.
  destruct (appendAll tightConfig ∅ #"up-1" [(calm 5, [ #"aa/x" ]); (calm 6, [])]) as [fs1 ok] eqn:Ea.
  assert (Eok : ok = true).
  { change ok with (snd (fs1, ok)). rewrite <-Ea. vm_compute. reflexivity. }
  subst ok. exists fs1.
  destruct (FinalizeUpload tightConfig (calm 7) (mkServer tightStore fs1) exampleRequest #"up-1") as [sv' r] eqn:Ef.
  assert (Er : r = Ok tt).
  { change r with (snd (sv', r)). rewrite <-Ef. change fs1 with (fst (fs1, true)). rewrite <-Ea. vm_compute. reflexivity. }
  subst r. exists sv'. split; [done|]. split; [done|].
  destruct (upload_session_publishes tightConfig (calm 7) tightStore ∅ exampleRequest #"up-1"
    #"/srv/cache/uploads/up/up-1" [(calm 5, [ #"aa/x" ]); (calm 6, [])] fs1
    {[ #"aa/x" := (nineEntry, #"ninebytes") ]} sv') as (_ & _ & Hx); [exact example_cfg_ok|done|done| | | | |done|done| |done|done|].
  - exact tight_repr.
  - exact nine_index_listable.
  - vm_compute. reflexivity.
  - vm_compute. reflexivity.
  - rewrite !Forall_cons. assert (H := nine_listable). repeat split; try done; by constructor.
  - apply (Hx KCommit oldManifest #"aa/x"); [done|vm_compute; reflexivity|vm_compute; eauto|].
    right. apply (bool_decide_eq_true_1 (#"aa/x" ∈ [ #"aa/x" ])). vm_compute. reflexivity.
Defined.

Lemma collectStaleManifests_spec_witness :
  collectStaleManifests (mkConfig #"/srv/cache" false 0 0 10 0) (calm 20) messyFiles !! oldManifest = None /\
  collectStaleManifests (mkConfig #"/srv/cache" false 0 0 10 0) (calm 12) messyFiles !! oldManifest = messyFiles !! oldManifest.
Proof.
  split; rewrite collectStaleManifests_spec by reflexivity; vm_compute; reflexivity.
Defined.
End witnesses.
