(* ===== verification/LocalManifests.v ===== *)
(** The manifests and the preloading of src/internal/local/store.go: which actions
    a commit or a change used, kept as text files under [manifests], and
    [Preload], which streams the stored entries that the manifests of a request
    select.  The environment (clock, faults) and the text of manifests are those of
    the other store. *)
From S2P Require Import Prelude.
From S2P Require Import GoStrings.
From S2P Require Import GoPath.
From S2P Require Import RecordPool.
From S2P Require Import Wire.
From S2P Require Import CacheWire.
From S2P Require Import ManifestPaths.
From S2P Require Import Manifests.
From S2P Require Import LocalStore.
From S2P Require Import LocalServe.

(** ** Where the manifests are *)

Definition manifestScopeDir (buildType : bytes) : result bytes :=
  let buildType := TrimSpace buildType in
  if bool_decide (buildType = []) then Ok #"default"
  else if maxManifestKeyLen <? blen buildType then Err (EMsg "build-type too long")
  else if negb (validScopedKeyName buildType) then Err (EMsg "invalid build-type")
  else Ok (#"buildtype-" ++ buildType).

Definition commitManifestPath (cf : Config) (commit buildType : bytes) : result bytes :=
  let commit := TrimSpace commit in
  if maxManifestKeyLen <? blen commit then Err (EMsg "commit too long")
  else if negb (validScopedKeyName commit) then Err (EMsg "invalid commit")
  else
    let prefix := if (2 <? length commit)%nat then take 2 commit else commit in
    let? scopeDir := manifestScopeDir buildType in
    Ok (JoinPath [cf_dir cf; #"manifests"; scopeDir; prefix; commit]).

Definition changesManifestPath (cf : Config) (changesID buildType : bytes) : result bytes :=
  let changesID := TrimSpace changesID in
  if bool_decide (changesID = []) then Err (EMsg "invalid changes-id")
  else if maxManifestKeyLen <? blen changesID then Err (EMsg "changes-id too long")
  else
    let escaped := QueryEscape changesID in
    let prefix := if (2 <? length escaped)%nat then take 2 escaped else escaped in
    let? scopeDir := manifestScopeDir buildType in
    Ok (JoinPath [cf_dir cf; #"manifests"; scopeDir; #"changes"; prefix; escaped]).

(** ** Loading *)

Definition loadManifest (env : Env) (fs : Files) (manifestPath : bytes) : result (list bytes) :=
  let? data := readFile env fs manifestPath in
  match ScanLines scannerMax data with
  | (lines, false) => Ok (filter (fun a => a <> []) (map TrimSpace lines))
  | (_, true) => Err (EMsg "bufio.Scanner: token too long")
  end.

Definition loadCommitManifest (cf : Config) (env : Env) (fs : Files) (commit buildType : bytes)
    : result (list bytes) :=
  if bool_decide (TrimSpace commit = []) then Err ENotExist
  else let? p := commitManifestPath cf commit buildType in loadManifest env fs p.

Definition loadChangesManifest (cf : Config) (env : Env) (fs : Files) (changesID buildType : bytes)
    : result (list bytes) :=
  if bool_decide (TrimSpace changesID = []) then Err ENotExist
  else let? p := changesManifestPath cf changesID buildType in loadManifest env fs p.

(** The zero [time.Time], in microseconds of the Unix epoch. *)
Definition zeroTime : Z := -62135596800000000.

(** The walk of [loadNewestManifest]: a later file wins only when it is newer. *)
Definition newestStep (fs : Files) (best : bytes * Z) (path : bytes) : bytes * Z :=
  match fs !! path with
  | Some (_, mtime) => if best.2 <? mtime then (path, mtime) else best
  | None => best
  end.

Definition loadNewestManifest (cf : Config) (env : Env) (fs : Files) (buildType : bytes)
    : result (list bytes) :=
  let? scopeDir := manifestScopeDir buildType in
  let scopeRoot := JoinPath [cf_dir cf; #"manifests"; scopeDir] in
  let? walked := listManifestFiles env fs scopeRoot in
  let newestPath := fst (foldl (newestStep fs) ([], zeroTime) walked) in
  if bool_decide (newestPath = []) then Ok [] else loadManifest env fs newestPath.

(** ** Writing *)

Definition writeManifest (env : Env) (fs : Files) (manifestPath body : bytes) : Files * result unit :=
  let tmp := manifestPath ++ #".tmp" in
  match env_write env manifestPath with
  | Some (MFMkdir e) => (fs, Err e)
  | Some (MFWrite e part) =>
      (match part with Some n => <[tmp := (take n body, env_now env)]> fs | None => fs end, Err e)
  | Some (MFRename e) => (<[tmp := (body, env_now env)]> fs, Err e)
  | None => (<[manifestPath := (body, env_now env)]> (delete tmp fs), Ok tt)
  end.

Definition mergeManifest (env : Env) (fs : Files) (manifestPath : bytes) (actionIDs : list bytes)
    : Files * result unit :=
  let merge existing := writeManifest env fs manifestPath
                          (joinManifestBody (unionManifestPaths [existing; actionIDs])) in
  match loadManifest env fs manifestPath with
  | Err e => if isNotExist e then merge [] else (fs, Err e)
  | Ok existing => merge existing
  end.

Definition PostCacheUsed (cf : Config) (env : Env) (fs : Files) (commit changesID buildType : bytes)
    (actionIDs : list bytes) (replaceChanges : bool) : Files * result unit :=
  let '(fs, r) :=
    if bool_decide (commit = []) then (fs, Ok tt)
    else match commitManifestPath cf commit buildType with
         | Err e => (fs, Err e)
         | Ok p => mergeManifest env fs p actionIDs
         end in
  match r with
  | Err e => (fs, Err e)
  | Ok _ =>
      if bool_decide (changesID = []) then (fs, Ok tt)
      else match changesManifestPath cf changesID buildType with
           | Err e => (fs, Err e)
           | Ok p =>
               if replaceChanges then writeManifest env fs p (joinManifestBody actionIDs)
               else mergeManifest env fs p actionIDs
           end
  end.

(** A manifest that cannot be removed stays. *)
Definition staleStep (cf : Config) (env : Env) (fs : Files) (path : bytes) : Files :=
  match fs !! path with
  | None => fs
  | Some (_, mtime) =>
      if env_now env - cf_manifestMaxAge cf <? mtime then fs
      else match removeFile env fs path with Ok fs' => fs' | Err _ => fs end
  end.

Definition collectStaleManifests (cf : Config) (env : Env) (fs : Files) : Files :=
  if cf_manifestMaxAge cf <=? 0 then fs
  else match listManifestFiles env fs (JoinPath [cf_dir cf; #"manifests"]) with
       | Err _ => fs
       | Ok walked => foldl (staleStep cf env) fs walked
       end.

(** ** Preloading *)

Record PreloadRequest := mkPreload {
  pl_Commit : bytes;
  pl_ParentCommit : bytes;
  pl_ChangesID : bytes;
  pl_BaseCommit : bytes;
  pl_BuildType : bytes;
  pl_MaxSize : Z;
}.

#[export] Instance PreloadRequest_eq_dec : EqDecision PreloadRequest.
Proof. solve_decision. Defined.

(** The candidates in their order: a manifest that is absent is passed over. *)
Fixpoint loadSources (l : list (bytes * result (list bytes))) : result (list bytes * list bytes) :=
  match l with
  | [] => Ok ([], [])
  | (name, r) :: l =>
      match r with
      | Err e => if isNotExist e then loadSources l else Err e
      | Ok actionIDs => let? rest := loadSources l in Ok (name :: rest.1, actionIDs ++ rest.2)
      end
  end.

Definition anyKey (req : PreloadRequest) : bool :=
  negb (bool_decide (pl_Commit req = []) && bool_decide (pl_ParentCommit req = []) &&
        bool_decide (pl_ChangesID req = []) && bool_decide (pl_BaseCommit req = [])).

(** [preloadFilterActionIDs]: the selected actions ([None]: all) and the sources. *)
Definition preloadFilterActionIDs (cf : Config) (env : Env) (fs : Files) (req : PreloadRequest)
    : result (option (gset bytes) * list bytes) :=
  if negb (anyKey req) then Ok (None, [ #"all" ])
  else
    let b := pl_BuildType req in
    let? found := loadSources [
      (#"commit", loadCommitManifest cf env fs (pl_Commit req) b);
      (#"parent", loadCommitManifest cf env fs (pl_ParentCommit req) b);
      (#"changes", loadChangesManifest cf env fs (pl_ChangesID req) b);
      (#"base", loadCommitManifest cf env fs (pl_BaseCommit req) b)] in
    match found with
    | ([], _) =>
        let? actionIDs := loadNewestManifest cf env fs b in
        if bool_decide (actionIDs = []) then Ok (Some ∅, [ #"none" ])
        else Ok (Some (list_to_set actionIDs), [ #"newest" ])
    | (sources, actionIDs) => Ok (Some (list_to_set actionIDs), sources)
    end.

Definition PreloadSources (cf : Config) (env : Env) (fs : Files) (req : PreloadRequest) : result (list bytes) :=
  let? found := preloadFilterActionIDs cf env fs req in Ok found.2.

(** What [Preload] does with one entry of its snapshot. *)
Definition wireSizeOf (ie : indexEntry) : Z := if ie_WireSize ie =? 0 then ie_Size ie else ie_WireSize ie.

Definition brokenPlain (cf : Config) (out : Outputs) (ie : indexEntry) : bool :=
  (ie_PoolPage ie =? 0) &&
  negb (bool_decide (blen <$> files out !! OutputFilename cf (ie_OutputID ie) = Some (entryStoredSize ie))).

Fixpoint preloadLoop (cf : Config) (sel : option (gset bytes)) (maxSize : Z) (s : Store)
    (snapshot : list (bytes * indexEntry)) : Store * list ResponseItem :=
  match snapshot with
  | [] => (s, [])
  | (k, v) :: snapshot =>
      let skip := match sel with Some ids => negb (bool_decide (k ∈ ids)) | None => false end in
      if skip || (maxSize <? wireSizeOf v) then preloadLoop cf sel maxSize s snapshot
      else if brokenPlain cf (outputs s) v then
        preloadLoop cf sel maxSize (removeBrokenActionEntry cf s k v) snapshot
      else
        let item := responseItem cf (outputs s) k v in
        let '(s, items) := preloadLoop cf sel maxSize s snapshot in
        (s, item :: items)
  end.

Definition maxPreload (req : PreloadRequest) : Z := if pl_MaxSize req =? 0 then 600000 else pl_MaxSize req.

Definition Preload (cf : Config) (env : Env) (fs : Files) (range : gmap bytes indexEntry -> list bytes)
    (s : Store) (req : PreloadRequest) : Store * result (list ResponseItem) :=
  match (if anyKey req then let? found := preloadFilterActionIDs cf env fs req in Ok found.1 else Ok None) with
  | Err e => (s, Err e)
  | Ok sel =>
      let '(s, items) := preloadLoop cf sel (maxPreload req) s (entries_in (index s) (range (index s))) in
      (s, Ok items)
  end.

(** ** The paths *)

Lemma scopeDir_same b : manifestScopeDir b = ManifestPaths.manifestScopeDir b.
Proof. reflexivity. Qed.

Lemma local_commit_at cf c b p :
  abs_dir (cf_dir cf) -> commitManifestPath cf c b = Ok p ->
  exists d, manifestScopeDir b = Ok d /\
    Forall proper [ #"manifests"; d; take 2 (TrimSpace c); TrimSpace c] /\
    p = cf_dir cf ++ slash :: uncomps [ #"manifests"; d; take 2 (TrimSpace c); TrimSpace c].
Proof.
  intros Hd. unfold commitManifestPath. destruct (_ <? _); [done|].
  destruct (validScopedKeyName _) eqn:Hv; [|done]. cbn [negb].
  destruct (manifestScopeDir b) as [d|] eqn:Hs; [|done].
  assert (E : (if (2 <? length (TrimSpace c))%nat then take 2 (TrimSpace c) else TrimSpace c)
    = take 2 (TrimSpace c)).
  { destruct (Nat.ltb_spec 2 (length (TrimSpace c))); [done|]. by rewrite take_ge. }
  rewrite E. assert (Hp : Forall proper [ #"manifests"; d; take 2 (TrimSpace c); TrimSpace c]).
  { rewrite !Forall_cons. split; [apply proper_manifests|].
    split; [by apply manifestScopeDir_ok in Hs as [? _]|].
    split; [by apply prefix_proper; [|lia]|]. split; [|done].
    assert (H := valid_key_proper (TrimSpace c) [] Hv). rewrite app_nil_r in H. apply H.
    by intros ?%elem_of_nil. }
  rewrite JoinPath_proper by done. intros [= <-]. by exists d.
Qed.

(** A name with a first letter that is not a dot. *)
Definition undotted (s : bytes) : Prop := head s <> Some "."%char.

Lemma undotted_proper s : s <> [] -> slash ∉ s -> undotted s -> proper s.
Proof.
  intros Hne Hs Hd. split; [done|]. split; [|split; [|done]]; intros ->; by apply Hd.
Qed.

Lemma QueryEscape_undotted s : undotted s -> undotted (QueryEscape s).
Proof.
  unfold undotted. destruct s as [|c s]; [done|]. simpl. intros Hc.
  assert (Hne : c <> "."%char) by congruence.
  intros E. apply Hne. clear Hc Hne. revert E. unfold QueryEscape. simpl.
  destruct c as [[] [] [] [] [] [] [] []]; first [reflexivity | intros E; discriminate E].
Qed.

Lemma QueryEscape_nonempty s : s <> [] -> QueryEscape s <> [].
Proof.
  destruct s as [|c s]; [done|]. intros _. unfold QueryEscape. simpl.
  destruct (escape_char_free c) as [_ Hne]. by destruct (escape_char c).
Qed.

Lemma local_changes_at cf c b p :
  abs_dir (cf_dir cf) -> undotted (TrimSpace c) -> changesManifestPath cf c b = Ok p ->
  exists d, manifestScopeDir b = Ok d /\
    let e := QueryEscape (TrimSpace c) in
    Forall proper [ #"manifests"; d; #"changes"; take 2 e; e] /\
    p = cf_dir cf ++ slash :: uncomps [ #"manifests"; d; #"changes"; take 2 e; e].
Proof.
  intros Hd Hu. unfold changesManifestPath. case_bool_decide as Hne; [done|]. destruct (_ <? _); [done|].
  destruct (manifestScopeDir b) as [d|] eqn:Hs; [|done].
  set (e := QueryEscape (TrimSpace c)).
  assert (E : (if (2 <? length e)%nat then take 2 e else e) = take 2 e).
  { destruct (Nat.ltb_spec 2 (length e)); [done|]. by rewrite take_ge. }
  assert (He : e <> []) by (by apply QueryEscape_nonempty).
  assert (Hsl : slash ∉ e) by apply QueryEscape_free.
  assert (Hud : undotted e) by (by apply QueryEscape_undotted).
  assert (Hp : Forall proper [ #"manifests"; d; #"changes"; take 2 e; e]).
  { rewrite !Forall_cons. split; [apply proper_manifests|].
    split; [by apply manifestScopeDir_ok in Hs as [? _]|]. split; [apply proper_changes|].
    split; [|split; [by apply undotted_proper|done]]. apply undotted_proper.
    - by destruct e.
    - intros Hx. apply Hsl. by eapply elem_of_prefix_take.
    - unfold undotted in *. by destruct e. }
  rewrite E, JoinPath_proper by done. intros [= <-]. by exists d.
Qed.

(** A path with a given number of components is not one with another number, nor
    its temporary file. *)
Lemma uncomps_snoc l c x : uncomps (l ++ [c]) ++ x = uncomps (l ++ [c ++ x]).
Proof.
  induction l as [|d l IH]; [done|]. destruct (l ++ [c]) as [|a l'] eqn:El; [by destruct l|].
  destruct (l ++ [c ++ x]) as [|a' l''] eqn:El'; [by destruct l|]. simpl app. rewrite El, El'.
  change (uncomps (d :: a :: l')) with (d ++ #"/" ++ uncomps (a :: l')).
  change (uncomps (d :: a' :: l'')) with (d ++ #"/" ++ uncomps (a' :: l'')).
  rewrite <-IH, <-!app_assoc. done.
Qed.

Lemma path_comps_inj (d : bytes) l k :
  Forall (fun c => slash ∉ c) l -> Forall (fun c => slash ∉ c) k -> l <> [] -> k <> [] ->
  d ++ slash :: uncomps l = d ++ slash :: uncomps k -> l = k.
Proof.
  intros Hl Hk Hl0 Hk0 E. apply app_inv_head, (inj (cons slash)) in E.
  rewrite <-(comps_uncomps l), <-(comps_uncomps k) by done. by rewrite E.
Qed.

Lemma slash_free_tmp c : slash ∉ c -> slash ∉ (c ++ #".tmp").
Proof.
  intros Hc. rewrite elem_of_app. intros [?|H]; [done|]. revert H.
  apply (bool_decide_eq_true_1 (slash ∉ #".tmp")). vm_compute. reflexivity.
Qed.

(** Commits and changes never share a file, not even a temporary one. *)
Lemma local_kinds_distinct cf c b p ch b' q :
  abs_dir (cf_dir cf) -> undotted (TrimSpace ch) ->
  commitManifestPath cf c b = Ok p -> changesManifestPath cf ch b' = Ok q ->
  p <> q /\ p <> q ++ #".tmp" /\ p ++ #".tmp" <> q.
Proof.
  intros Hd Hu Hp Hq. destruct (local_commit_at cf c b p Hd Hp) as (d & _ & Hf & ->).
  destruct (local_changes_at cf ch b' q Hd Hu Hq) as (d' & _ & Hf' & ->).
  set (e := QueryEscape (TrimSpace ch)) in *. clearbody e.
  apply proper_slash_free in Hf, Hf'. rewrite <-!app_assoc. cbn [app].
  assert (E1 : uncomps [ #"manifests"; d; take 2 (TrimSpace c); TrimSpace c] ++ #".tmp" =
    uncomps [ #"manifests"; d; take 2 (TrimSpace c); TrimSpace c ++ #".tmp"])
    by apply (uncomps_snoc [ #"manifests"; d; take 2 (TrimSpace c)]).
  assert (E2 : uncomps [ #"manifests"; d'; #"changes"; take 2 e; e] ++ #".tmp" =
    uncomps [ #"manifests"; d'; #"changes"; take 2 e; e ++ #".tmp"])
    by apply (uncomps_snoc [ #"manifests"; d'; #"changes"; take 2 e]).
  cbn [app] in E1, E2. rewrite E1, E2. clear E1 E2.
  rewrite !Forall_cons in Hf. rewrite !Forall_cons in Hf'. destruct_and!.
  split; [|split]; intros E; apply path_comps_inj in E; try discriminate;
    rewrite !Forall_cons; auto 10 using slash_free_tmp.
Qed.

(** ** What the manifests keep *)

(** The manifest at [path] holds the actions [l]; an absent one holds none. *)
Definition lists (fs : Files) (path : bytes) (l : list bytes) : Prop :=
  (l = [] /\ fs !! path = None) \/ exists mt, fs !! path = Some (joinManifestBody l, mt).

Lemma load_lists env fs path l :
  env_read env path = None -> Forall line_ok l -> lists fs path l ->
  loadManifest env fs path = Ok l \/ (l = [] /\ loadManifest env fs path = Err ENotExist).
Proof.
  intros He Hl [[-> Hf]|[mt Hf]]; unfold loadManifest, readFile; rewrite He, Hf; [by right|left].
  rewrite scan_lines by done. f_equal.
  assert (E : map TrimSpace l = l).
  { clear Hf. induction Hl as [|x l Hx Hl IH]; [done|]. simpl. by rewrite (ln_trim _ Hx), IH. }
  rewrite E. clear E Hf. induction Hl as [|x l Hx Hl IH]; [done|].
  rewrite filter_cons_True by (by apply ln_ne). by rewrite IH.
Qed.

(** The union of two lists of lines, without repeats. *)
Lemma union_lines l k :
  Forall line_ok l -> Forall line_ok k -> unionManifestPaths [l; k] = unseen ∅ (l ++ k).
Proof.
  intros Hl Hk. unfold unionManifestPaths. simpl. rewrite app_nil_r.
  assert (H : Forall line_ok (l ++ k)) by (by apply Forall_app).
  f_equal. generalize dependent (l ++ k). clear. intros l. induction 1 as [|x l Hx Hl IH]; [done|]. simpl.
  rewrite (ln_trim _ Hx), filter_cons_True by (by apply ln_ne). by rewrite IH.
Qed.

Lemma unseen_lines l : Forall line_ok l -> Forall line_ok (unseen ∅ l).
Proof. intros Hl. rewrite Forall_forall in *. intros x Hx%elem_of_unseen. apply Hl. tauto. Qed.

Lemma local_writeManifest_ok env fs path body fs' :
  writeManifest env fs path body = (fs', Ok tt) ->
  fs' = <[path := (body, env_now env)]> (delete (path ++ #".tmp") fs).
Proof. unfold writeManifest. destruct (env_write env path) as [[]|]; intros; by simplify_eq. Qed.

Lemma local_writeManifest_others env fs path body fs' r q :
  writeManifest env fs path body = (fs', r) -> q <> path -> q <> path ++ #".tmp" -> fs' !! q = fs !! q.
Proof.
  unfold writeManifest. intros Hw Hq Ht.
  destruct (env_write env path) as [[e|e [n|]|e]|]; simplify_eq; try done;
    rewrite lookup_insert_ne by done; try done. by rewrite lookup_delete_ne.
Qed.

(** A failed write never damages the manifest. *)
Lemma local_writeManifest_err env fs path body fs' e :
  writeManifest env fs path body = (fs', Err e) -> fs' !! path = fs !! path.
Proof.
  unfold writeManifest. assert (Ht := tmp_ne path). intros Hw.
  destruct (env_write env path) as [[e'|e' [n|]|e']|]; simplify_eq; try done; by rewrite lookup_insert_ne.
Qed.

Lemma local_mergeManifest_spec env fs path l actionIDs fs' r :
  env_read env path = None -> Forall line_ok l -> Forall line_ok actionIDs -> lists fs path l ->
  mergeManifest env fs path actionIDs = (fs', r) ->
  (forall q, q <> path -> q <> path ++ #".tmp" -> fs' !! q = fs !! q) /\
  match r with
  | Ok _ => lists fs' path (unseen ∅ (l ++ actionIDs))
  | Err _ => lists fs' path l
  end.
Proof.
  intros He Hl Ha Hf Hm.
  assert (Hw : writeManifest env fs path (joinManifestBody (unseen ∅ (l ++ actionIDs))) = (fs', r)).
  { rewrite <-Hm, <-union_lines by done. unfold mergeManifest.
    by destruct (load_lists env fs path l He Hl Hf) as [->|[-> ->]]. }
  split; [intros q ??; by eapply local_writeManifest_others|].
  destruct r as [[]|e].
  - apply local_writeManifest_ok in Hw as ->. right. exists (env_now env). apply lookup_insert_eq.
  - apply local_writeManifest_err in Hw. unfold lists. by rewrite Hw.
Qed.

(** An environment that can read every file. *)
Definition reads (env : Env) : Prop := forall path, env_read env path = None.

Section posting.
Context (cf : Config) (env : Env) (Hdir : abs_dir (cf_dir cf)) (Hread : reads env).

(** The second half of a post: the manifest of the change. *)
Definition postChanges (fs : Files) (changesID buildType : bytes) (actionIDs : list bytes) (replace : bool)
    : Files * result unit :=
  if bool_decide (changesID = []) then (fs, Ok tt)
  else match changesManifestPath cf changesID buildType with
       | Err e => (fs, Err e)
       | Ok p =>
           if replace then writeManifest env fs p (joinManifestBody actionIDs)
           else mergeManifest env fs p actionIDs
       end.

Lemma PostCacheUsed_halves fs commit changesID b actionIDs replace :
  PostCacheUsed cf env fs commit changesID b actionIDs replace =
  let '(fs1, r) := if bool_decide (commit = []) then (fs, Ok tt)
                   else match commitManifestPath cf commit b with
                        | Err e => (fs, Err e)
                        | Ok p => mergeManifest env fs p actionIDs
                        end in
  match r with Err e => (fs1, Err e) | Ok _ => postChanges fs1 changesID b actionIDs replace end.
Proof. reflexivity. Qed.

(** It leaves the manifest of the commit alone. *)
Lemma postChanges_commit fs c b p changesID b' actionIDs replace fs' r :
  commitManifestPath cf c b = Ok p -> undotted (TrimSpace changesID) ->
  postChanges fs changesID b' actionIDs replace = (fs', r) -> fs' !! p = fs !! p.
Proof.
  intros Hp Hu. unfold postChanges. case_bool_decide; [by intros [= <- <-]|].
  destruct (changesManifestPath cf changesID b') as [q|e] eqn:Hq; [|by intros [= <- <-]].
  destruct (local_kinds_distinct cf c b p changesID b' q Hdir Hu Hp Hq) as (H1 & H2 & _).
  unfold mergeManifest. intros Hw.
  destruct replace; [by eapply local_writeManifest_others|].
  repeat (case_match; simplify_eq); try done; by eapply local_writeManifest_others.
Qed.

Lemma PostCacheUsed_commit fs commit changesID b actionIDs replace fs' p l :
  commit <> [] -> commitManifestPath cf commit b = Ok p -> undotted (TrimSpace changesID) ->
  Forall line_ok l -> Forall line_ok actionIDs -> lists fs p l ->
  PostCacheUsed cf env fs commit changesID b actionIDs replace = (fs', Ok tt) ->
  lists fs' p (unseen ∅ (l ++ actionIDs)).
Proof.
  intros Hc Hp Hu Hl Ha Hf. rewrite PostCacheUsed_halves, bool_decide_eq_false_2, Hp by done.
  destruct (mergeManifest env fs p actionIDs) as [fs1 r] eqn:Em.
  apply (local_mergeManifest_spec env fs p l) in Em as [_ Hr]; [|done..].
  destruct r as [[]|e]; [|done]. intros Hw.
  apply (postChanges_commit _ commit b p) in Hw; [|done..]. unfold lists in *. by rewrite Hw.
Qed.

(** A post of the actions a build used loses nothing.  The manifest of the
    commit becomes what it listed and the new actions, in first-seen order and once
    each; that of the change the same, or exactly the new actions when the post
    replaces it.  Whatever fails, a manifest keeps what it listed. *)
Theorem PostCacheUsed_loses_nothing fs commit changesID b actionIDs replace fs' r p q l k
    (Hc : commit <> []) (Hch : changesID <> []) (Hu : undotted (TrimSpace changesID))
    (Hp : commitManifestPath cf commit b = Ok p) (Hq : changesManifestPath cf changesID b = Ok q)
    (Hl : Forall line_ok l) (Hk : Forall line_ok k) (Ha : Forall line_ok actionIDs)
    (Hfp : lists fs p l) (Hfq : lists fs q k)
    (Hpost : PostCacheUsed cf env fs commit changesID b actionIDs replace = (fs', r)) :
  let merged l := unseen ∅ (l ++ actionIDs) in
  match r with
  | Ok _ => lists fs' p (merged l) /\ lists fs' q (if replace then actionIDs else merged k)
  | Err _ => (lists fs' p l \/ lists fs' p (merged l)) /\ lists fs' q k
  end.
Proof.
  intros merged. destruct (local_kinds_distinct cf commit b p changesID b q Hdir Hu Hp Hq) as (H1 & H2 & H3).
  rewrite PostCacheUsed_halves, bool_decide_eq_false_2, Hp in Hpost by done.
  destruct (mergeManifest env fs p actionIDs) as [fs1 r1] eqn:Em.
  apply (local_mergeManifest_spec env fs p l) in Em as [Ho Hr]; [|done..].
  assert (Hq1 : lists fs1 q k) by (unfold lists in *; by rewrite Ho).
  destruct r1 as [[]|e]; [|injection Hpost as <- <-; auto].
  assert (Hkeep := Hpost). apply (postChanges_commit _ commit b p) in Hkeep; [|done..].
  assert (Hp' : lists fs' p (merged l)) by (unfold lists in *; by rewrite Hkeep).
  unfold postChanges in Hpost. rewrite bool_decide_eq_false_2, Hq in Hpost by done.
  destruct replace.
  - destruct r as [[]|e].
    + apply local_writeManifest_ok in Hpost as ->. split; [done|].
      right. exists (env_now env). apply lookup_insert_eq.
    + apply local_writeManifest_err in Hpost. split; [by right|]. unfold lists in *. by rewrite Hpost.
  - apply (local_mergeManifest_spec env fs1 q k) in Hpost as [_ Hr2]; [|done..]. destruct r; auto.
Qed.
End posting.

(** ** What is preloaded *)

(** The entries a preload sends. *)
Definition preloaded (sel : option (gset bytes)) (maxSize : Z) (e : bytes * indexEntry) : Prop :=
  match sel with Some ids => e.1 ∈ ids | None => True end /\ wireSizeOf e.2 <= maxSize.

#[export] Instance preloaded_dec sel maxSize e : Decision (preloaded sel maxSize e).
Proof. unfold preloaded. destruct sel; apply _. Defined.

Section preloading.
Context (cf : Config) (Hdir : abs_dir (cf_dir cf)).

Lemma stored_not_broken s bl a ie :
  holds cf s bl -> index s !! a = Some ie -> brokenPlain cf (outputs s) ie = false.
Proof.
  intros [Ho He] Ha. destruct (He a ie Ha) as (b & Hb & Hs & Hl). unfold brokenPlain.
  destruct (Z.eqb_spec (ie_PoolPage ie) 0) as [Hz|]; [|done]. simpl. apply negb_false_iff.
  destruct (outputLocs (outputs s) !! ie_OutputID ie) as [l|] eqn:El; simpl in Hl.
  - destruct (oo_locs _ _ _ _ _ Ho _ _ El) as [Hnz _]. revert Hnz. rewrite <-Hl. unfold IsZero. simpl.
    rewrite Hz. done.
  - rewrite (oo_plain _ _ _ _ _ Ho _ _ Hb El). apply bool_decide_eq_true_2. simpl. by rewrite Hs.
Qed.

Lemma preloadLoop_stored sel maxSize s bl l :
  holds cf s bl -> (forall a ie, (a, ie) ∈ l -> index s !! a = Some ie) ->
  preloadLoop cf sel maxSize s l =
  (s, map (fun e => responseItem cf (outputs s) e.1 e.2) (filter (preloaded sel maxSize) l)).
Proof.
  intros Hh. induction l as [|[k v] l IH]; intros Hin; [done|]. cbn [preloadLoop].
  rewrite IH by (intros; apply Hin; by apply list_elem_of_further).
  rewrite (stored_not_broken s bl k v Hh (Hin _ _ (list_elem_of_here _ _))).
  destruct (decide (preloaded sel maxSize (k, v))) as [Hp|Hp].
  - rewrite filter_cons_True by done. destruct Hp as [Hs Hm]. simpl in *.
    rewrite (proj2 (Z.ltb_ge _ _)) by done. rewrite orb_false_r.
    destruct sel as [ids|]; [|done]. by rewrite bool_decide_eq_true_2.
  - rewrite filter_cons_False by done.
    assert (E : match sel with Some ids => negb (bool_decide (k ∈ ids)) | None => false end || (maxSize <? wireSizeOf v) = true).
    { apply orb_true_iff. destruct (Z.ltb_spec maxSize (wireSizeOf v)); [by right|left].
      destruct sel as [ids|]; [|exfalso; by apply Hp].
      rewrite bool_decide_eq_false_2; [done|]. intros ?. by apply Hp. }
    by rewrite E.
Qed.

(** An item with the stored bytes of an action. *)
Definition preloads (s : Store) (bl : gmap bytes bytes) (items : list ResponseItem) (a : bytes) (ie : indexEntry) : Prop :=
  exists item b, item ∈ items /\ bl !! ie_OutputID ie = Some b /\
    ItemPrepareBodyReader item (openFile (outputs s)) =
      mkResponseItem (served_meta cf a ie) (Some (Ok (fromBytes b))).

Lemma Preload_ok env fs range s bl req s' items :
  holds cf s bl -> range_of (index s) (range (index s)) ->
  Preload cf env fs range s req = (s', Ok items) ->
  s' = s /\ exists sel,
    (if anyKey req then exists srcs, preloadFilterActionIDs cf env fs req = Ok (sel, srcs) else sel = None) /\
    items = map (fun e => responseItem cf (outputs s) e.1 e.2)
      (filter (preloaded sel (maxPreload req)) (entries_in (index s) (range (index s)))) /\
    forall a ie, index s !! a = Some ie -> preloaded sel (maxPreload req) (a, ie) -> preloads s bl items a ie.
Proof.
  intros Hh Hr. destruct (entries_in_spec _ _ Hr) as [_ Hin]. unfold Preload.
  set (found := if anyKey req then _ else _).
  assert (Hfound : forall sel, found = Ok sel ->
    if anyKey req then exists srcs, preloadFilterActionIDs cf env fs req = Ok (sel, srcs) else sel = None).
  { unfold found. destruct (anyKey req); [|by intros sel [= <-]].
    destruct (preloadFilterActionIDs cf env fs req) as [[sel' srcs]|]; [|done].
    intros sel [= <-]. by exists srcs. }
  destruct found as [sel|e]; [|done].
  rewrite (preloadLoop_stored sel _ s bl) by (done || intros a ie; apply Hin).
  intros [= <- <-]. split; [done|]. exists sel. split; [by apply Hfound|]. split; [done|].
  intros a ie Ha Hp. destruct (proj2 Hh a ie Ha) as (b & Hb & _).
  exists (responseItem cf (outputs s) a ie), b. split; [|split; [done|by apply (served_stored cf s bl a ie b)]].
  apply list_elem_of_fmap. exists (a, ie). split; [done|]. apply list_elem_of_filter. split; [done|].
  by apply Hin.
Qed.

(** A found commit manifest selects its actions. *)
Lemma commit_selected env fs req l sel srcs :
  loadCommitManifest cf env fs (pl_Commit req) (pl_BuildType req) = Ok l ->
  preloadFilterActionIDs cf env fs req = Ok (sel, srcs) -> anyKey req = true ->
  exists ids, sel = Some ids /\ forall a, a ∈ l -> a ∈ ids.
Proof.
  intros Hl Hf Hk. unfold preloadFilterActionIDs in Hf. rewrite Hk in Hf. cbn [negb loadSources] in Hf.
  rewrite Hl in Hf. cbn iota beta in Hf.
  match type of Hf with context [match ?x with Ok rest => Ok (_, l ++ _) | Err _ => _ end] =>
    destruct x as [[srcs' ids']|e]; [|done] end.
  cbn in Hf. injection Hf as <- <-. eexists. split; [done|]. intros a Ha.
  apply elem_of_list_to_set, elem_of_app. by left.
Qed.

(** What a post makes of a later preload. *)
Lemma posted_are_preloaded env env' fs fs' commit changesID b actionIDs replace p l
    range s bl req s' items
    (Hh : holds cf s bl) (Hr : range_of (index s) (range (index s)))
    (He : reads env) (He' : reads env')
    (Hc : TrimSpace commit <> []) (Hp : commitManifestPath cf commit b = Ok p)
    (Hu : undotted (TrimSpace changesID))
    (Hl : Forall line_ok l) (Ha : Forall line_ok actionIDs) (Hf : lists fs p l)
    (Hpost : PostCacheUsed cf env fs commit changesID b actionIDs replace = (fs', Ok tt))
    (Hreq : pl_Commit req = commit /\ pl_BuildType req = b)
    (Hpre : Preload cf env' fs' range s req = (s', Ok items)) :
  s' = s /\
  forall a ie, a ∈ actionIDs -> index s !! a = Some ie -> wireSizeOf ie <= maxPreload req ->
    preloads s bl items a ie.
Proof.
  destruct Hreq as [<- <-].
  assert (Hne : pl_Commit req <> []) by (intros E; by rewrite E in Hc).
  assert (Hlist := PostCacheUsed_commit cf env Hdir He fs _ changesID _ actionIDs replace fs' p l
    Hne Hp Hu Hl Ha Hf Hpost).
  destruct (Preload_ok env' fs' range s bl req s' items Hh Hr Hpre) as (-> & sel & Hsel & _ & Hall).
  split; [done|]. intros a ie Hin Hi Hm.
  assert (Hk : anyKey req = true).
  { unfold anyKey. by rewrite (bool_decide_eq_false_2 (pl_Commit req = [])). }
  rewrite Hk in Hsel. destruct Hsel as [srcs Hsel].
  assert (Hline : Forall line_ok (unseen ∅ (l ++ actionIDs))).
  { by apply unseen_lines, Forall_app. }
  assert (Hina : a ∈ unseen ∅ (l ++ actionIDs)).
  { apply elem_of_unseen. split; [|set_solver]. apply elem_of_app. by right. }
  destruct (load_lists env' fs' p _ (He' p) Hline Hlist) as [Hload|[E _]].
  2: { rewrite E in Hina. by apply elem_of_nil in Hina. }
  destruct (commit_selected env' fs' req (unseen ∅ (l ++ actionIDs)) sel srcs) as (ids & -> & Hids); [|done..|].
  { unfold loadCommitManifest. by rewrite bool_decide_eq_false_2, Hp. }
  apply Hall; [done|]. split; [|done]. simpl. by apply Hids.
Qed.

(** What a build used is there for the next one.  Actions posted for a commit
    are streamed by any later preload of that commit that succeeds: every one of
    them that the store holds and whose size the request admits comes with the
    stored bytes of its output; nothing stored changes. *)
Theorem used_actions_are_preloaded env env' fs fs' commit changesID b actionIDs replace p l
    range s bl req s' items
    (Hh : holds cf s bl) (Hr : range_of (index s) (range (index s)))
    (He : reads env) (He' : reads env')
    (Hc : TrimSpace commit <> []) (Hp : commitManifestPath cf commit b = Ok p)
    (Hu : undotted (TrimSpace changesID))
    (Hl : Forall line_ok l) (Ha : Forall line_ok actionIDs) (Hf : lists fs p l)
    (Hpost : PostCacheUsed cf env fs commit changesID b actionIDs replace = (fs', Ok tt))
    (Hreq : pl_Commit req = commit /\ pl_BuildType req = b)
    (Hpre : Preload cf env' fs' range s req = (s', Ok items)) :
  s' = s /\
  forall a ie, a ∈ actionIDs -> index s !! a = Some ie -> wireSizeOf ie <= maxPreload req ->
    preloads s bl items a ie.
Proof. by apply (posted_are_preloaded env env' fs fs' commit changesID b actionIDs replace p l range s bl req s' items). Qed.
End preloading.

(** ** The fallback *)

Definition newest_so_far (fs : Files) (seen : list bytes) (best : bytes * Z) : Prop :=
  (best = ([], zeroTime) \/ exists b, fs !! best.1 = Some (b, best.2) /\ best.1 ∈ seen) /\
  zeroTime <= best.2 /\
  forall g b mt, g ∈ seen -> fs !! g = Some (b, mt) -> mt <= best.2.

Lemma newestStep_ok fs seen best g :
  newest_so_far fs seen best -> newest_so_far fs (seen ++ [g]) (newestStep fs best g).
Proof.
  intros (Hb & Hz & Hmax). unfold newestStep.
  assert (Hkeep : forall x, (best = ([], zeroTime) \/ exists b, fs !! best.1 = Some (b, best.2) /\ best.1 ∈ seen) ->
    best = ([], zeroTime) \/ exists b, fs !! best.1 = Some (b, best.2) /\ best.1 ∈ seen ++ [x]).
  { intros x [?|(b & ? & ?)]; [by left|right]. exists b. split; [done|]. apply elem_of_app. by left. }
  destruct (fs !! g) as [[b mt]|] eqn:Hg.
  - destruct (Z.ltb_spec best.2 mt) as [Hlt|Hge].
    + split; [|split; [simpl; lia|]].
      * right. exists b. split; [done|]. apply elem_of_app. right. by apply list_elem_of_singleton.
      * intros g' b' mt' [Hin| ->%list_elem_of_singleton]%elem_of_app E; simpl; [|simplify_eq; lia].
        specialize (Hmax g' b' mt' Hin E). lia.
    + split; [by apply Hkeep|]. split; [done|].
      intros g' b' mt' [Hin| ->%list_elem_of_singleton]%elem_of_app E; [by eapply Hmax|simplify_eq; lia].
  - split; [by apply Hkeep|]. split; [done|].
    intros g' b' mt' [Hin| ->%list_elem_of_singleton]%elem_of_app E; [by eapply Hmax|congruence].
Qed.

Lemma newestScan_ok fs l seen best :
  newest_so_far fs seen best -> newest_so_far fs (seen ++ l) (foldl (newestStep fs) best l).
Proof.
  revert seen best. induction l as [|g l IH]; intros seen best Hb; simpl; [by rewrite app_nil_r|].
  rewrite cons_middle, app_assoc. by apply IH, newestStep_ok.
Qed.

(** The fallback loads a manifest than which no other of the scope is newer. *)
Lemma loadNewestManifest_newest cf env fs b d walked :
  manifestScopeDir b = Ok d ->
  listManifestFiles env fs (JoinPath [cf_dir cf; #"manifests"; d]) = Ok walked ->
  (forall f x mt, fs !! f = Some (x, mt) -> zeroTime < mt /\ f <> []) ->
  (exists f, f ∈ walked /\ is_Some (fs !! f)) ->
  exists f x mt, fs !! f = Some (x, mt) /\ f ∈ walked /\ loadNewestManifest cf env fs b = loadManifest env fs f /\
    forall g y mt', g ∈ walked -> fs !! g = Some (y, mt') -> mt' <= mt.
Proof.
  intros Hs Hw Ht (f0 & Hf0 & [[x0 mt0] Hx0]). unfold loadNewestManifest. rewrite Hs, Hw.
  destruct (newestScan_ok fs walked [] ([], zeroTime)) as (Hb & _ & Hmax).
  { split; [by left|]. split; [done|]. by intros g y mt ?%elem_of_nil. }
  simpl in Hb, Hmax. destruct (foldl (newestStep fs) ([], zeroTime) walked) as [f mt]. simpl in *.
  destruct Hb as [[= -> ->]|(x & Hx & Hin)].
  - destruct (Ht f0 x0 mt0 Hx0) as [Hlt _]. specialize (Hmax f0 x0 mt0 Hf0 Hx0). lia.
  - exists f, x, mt. split; [done|]. split; [done|]. destruct (Ht f x mt Hx) as [_ Hne].
    rewrite bool_decide_eq_false_2 by done. done.
Qed.

(** ** Behaviours outside the assumptions *)

(** The temporary file of a commit's manifest is the manifest of another commit,
    whose key ends in [.tmp]: a post for the first destroys the second. *)
Lemma tmp_commit_is_lost :
  let cf := exampleConfig false in
  let fs := fst (PostCacheUsed cf (calm 1) ∅ #"abc.tmp" [] [] [ #"a1" ] false) in
  let fs' := fst (PostCacheUsed cf (calm 2) fs #"abc" [] [] [ #"a2" ] false) in
  loadCommitManifest cf (calm 3) fs #"abc.tmp" [] = Ok [ #"a1" ] /\
  loadCommitManifest cf (calm 3) fs' #"abc.tmp" [] = Err ENotExist.
Proof. vm_compute. split; reflexivity. Qed.

(** A change whose id is a dot is kept in the file that the directory of all
    changes needs. *)
Lemma dot_change_path :
  changesManifestPath (exampleConfig false) #"." [] = Ok #"/srv/cache/manifests/default/changes".
Proof. vm_compute. reflexivity. Qed.

(** An output in its legacy place is served by [Get]; a preload takes it for
    broken -- it only looks in the new place -- and deletes it. *)
Lemma preload_deletes_legacy_output :
  let cf := exampleConfig false in
  let ie := mkEntry #"out" 9 5 5 0 0 0 0 in
  let s := mkStore {[ #"a1" := ie ]}
    (mkOutputs {[ #"out" := 1 ]} {[ #"out" := 9 ]} ∅ 9 smallPool
       {[ legacyOutputFilename cf #"out" := #"ninebytes" ]})
    false true false (mkCounters 0 0 0 0 0 0) in
  let req := mkPreload [] [] [] [] [] 0 in
  let s' := fst (Preload cf (calm 0) ∅ (fun idx => (map_to_list idx).*1) s req) in
  readBack (H := magicZstd) cf s #"a1" = Ok (Some #"ninebytes") /\
  index s' = ∅ /\ files (outputs s') = ∅.
Proof. vm_compute. repeat split; reflexivity. Qed.

(** ** Witnesses *)

Lemma line_of (a : bytes) :
  bool_decide (a <> []) && bool_decide (TrimSpace a = a) && bool_decide (newline ∉ a) &&
  (blen a <? scannerMax) = true -> line_ok a.
Proof. intros H. go_bool. repeat match goal with H : bool_decide _ = true |- _ => apply bool_decide_eq_true_1 in H end. by split. Qed.

Lemma calm_reads now : reads (calm now).
Proof. done. Qed.

Definition postedFiles : Files * result unit :=
  PostCacheUsed (exampleConfig false) (calm 1) ∅ #"abc" #"7" [] [ #"a1" ] false.

Lemma posted_ok : postedFiles = (fst postedFiles, Ok tt).
Proof. rewrite (surjective_pairing postedFiles) at 1. f_equal. Qed.

Lemma a1_line : Forall line_ok [ #"a1" ].
Proof. apply Forall_singleton, line_of. vm_compute. reflexivity. Qed.

Lemma absent_lists path : lists ∅ path [].
Proof. left. split; [done|apply lookup_empty]. Qed.

Lemma PostCacheUsed_loses_nothing_witness :
  lists (fst postedFiles) #"/srv/cache/manifests/default/ab/abc" [ #"a1" ] /\
  lists (fst postedFiles) #"/srv/cache/manifests/default/changes/7/7" [ #"a1" ].
Proof.
  apply (PostCacheUsed_loses_nothing (exampleConfig false) (calm 1) (example_dir false) (calm_reads 1) ∅
    #"abc" #"7" [] [ #"a1" ] false (fst postedFiles) (Ok tt)
    #"/srv/cache/manifests/default/ab/abc" #"/srv/cache/manifests/default/changes/7/7" [] []).
  - discriminate.
  - discriminate.
  - vm_compute. discriminate.
  - vm_compute. reflexivity.
  - vm_compute. reflexivity.
  - constructor.
  - constructor.
  - apply a1_line.
  - apply absent_lists.
  - apply absent_lists.
  - exact posted_ok.
Defined.

Definition preloadAbc : PreloadRequest := mkPreload #"abc" [] [] [] [] 0.

Definition preloadedNine : Store * result (list ResponseItem) :=
  Preload (exampleConfig false) (calm 2) (fst postedFiles) (fun _ => [ #"a1" ]) nineStore preloadAbc.

Lemma used_actions_are_preloaded_witness :
  exists items, snd preloadedNine = Ok items /\
    preloads (exampleConfig false) nineStore {[ #"out" := #"ninebytes" ]} items #"a1" LocalServe.nineEntry.
Proof.
  assert (E : exists items, snd preloadedNine = Ok items) by (eexists; vm_compute; reflexivity).
  destruct E as [items E]. exists items. split; [exact E|].
  apply (used_actions_are_preloaded (exampleConfig false) (example_dir false) (calm 1) (calm 2) ∅ (fst postedFiles)
    #"abc" #"7" [] [ #"a1" ] false #"/srv/cache/manifests/default/ab/abc" [] (fun _ => [ #"a1" ])
    nineStore _ preloadAbc (fst preloadedNine) items nine_stored nine_range (calm_reads 1) (calm_reads 2)).
  - vm_compute. discriminate.
  - vm_compute. reflexivity.
  - vm_compute. discriminate.
  - constructor.
  - apply a1_line.
  - apply absent_lists.
  - exact posted_ok.
  - split; reflexivity.
  - rewrite <-E. apply surjective_pairing.
  - apply list_elem_of_singleton. reflexivity.
  - vm_compute. reflexivity.
  - vm_compute. discriminate.
Defined.
