(* ===== verification/Proxy.v ===== *)
(** The proxy of src/internal/local/proxy.go, between the go command's cache
    protocol (src/internal/cacheprog/protocol.go) and an upstream cache.  Its
    goroutines -- the callers, [resolve], the batches that [dispatchBatch] starts
    and [consumePut] -- are a state machine: [step] runs one atomic action of one
    of them, the schedule, the answers of the upstream and the environment of the
    disk store are arguments. *)
From S2P Require Import Prelude.
From S2P Require Import GoStrings.
From S2P Require Import GoPath.
From S2P Require Import RecordPool.
From S2P Require Import Wire.
From S2P Require Import CacheWire.
From S2P Require Import LocalStore.
From S2P Require Import LocalServe.

(** ** The protocol *)

Inductive Cmd := CmdPut | CmdGet | CmdClose | CmdOther (name : bytes).

Record Request := mkRequest {
  rq_ID : Z;
  rq_Command : Cmd;
  rq_ActionID : bytes;
  rq_OutputID : bytes;
  rq_BodySize : Z;
  rq_Body : option bytes;
}.

(** The answer to a request; an error is a value, its text is not modelled. *)
Record Response := mkResponse {
  rs_ID : Z;
  rs_Err : option goerr;
  rs_Miss : bool;
  rs_OutputID : bytes;
  rs_Size : Z;
  rs_Time : option Z;
  rs_DiskPath : bytes;
}.

Definition with_ID (rs : Response) (id : Z) : Response :=
  mkResponse id (rs_Err rs) (rs_Miss rs) (rs_OutputID rs) (rs_Size rs) (rs_Time rs) (rs_DiskPath rs).
Definition missResponse : Response := mkResponse 0 None true [] 0 None [].
Definition errResponse (id : Z) (e : goerr) : Response := mkResponse id (Some e) false [] 0 None [].

(** ** State *)

Record ProxyParams := mkParams {
  pp_Commit : bytes;
  pp_ChangesID : bytes;
  pp_BuildType : bytes;
  pp_BaseCommit : bytes;
  pp_ParentCommit : bytes;
  pp_Preload : bool;
  pp_SkipPreload : bool;
  pp_MaxRemoteGetTime : Z;
  pp_MaxFileBytes : Z;
  pp_DisableCacheUsed : bool;
  pp_RemoteBatchConcurrency : Z;
}.

Record Stats := mkStats {
  st_batches : Z;
  st_lookups : Z;
  st_hits : Z;
  st_preloadHits : Z;
  st_regularHits : Z;
  st_misses : Z;
  st_puts : Z;
  st_putsExist : Z;
  st_batchPuts : Z;
  st_skippedPuts : Z;
}.

(** A goroutine of [dispatchBatch]: its requests; the items the upstream has still
    to stream, once it was asked; the actions it has answered. *)
Record Batch := mkBatch {
  bt_reqs : list Request;
  bt_items : option (list ResponseItem);
  bt_answered : list bytes;
}.

(** Where [resolve] is: selecting, waiting for a slot to dispatch, returned. *)
Inductive Phase := Selecting | Dispatching | Returned.

#[export] Instance Phase_eq_dec : EqDecision Phase.
Proof. solve_decision. Defined.

Record Proxy := mkProxy {
  px_disk : Store;
  px_lookup : list Request;
  px_put : list Request;
  px_closed : bool;
  px_phase : Phase;
  px_batch : list Request;
  px_running : list Batch;
  px_resps : list Response;
  px_puts : list ResponseItem;
  px_sumSize : Z;
  px_uploads : list (list ResponseItem);
  px_consumed : bool;
  px_used : gset bytes;
  px_preloaded : gset bytes;
  px_usedPreloaded : gset bytes;
  px_stats : Stats;
  px_panicked : bool;
}.

Definition set_disk (p : Proxy) (d : Store) : Proxy :=
  mkProxy d (px_lookup p) (px_put p) (px_closed p) (px_phase p) (px_batch p) (px_running p) (px_resps p)
    (px_puts p) (px_sumSize p) (px_uploads p) (px_consumed p) (px_used p) (px_preloaded p)
    (px_usedPreloaded p) (px_stats p) (px_panicked p).
Definition set_lookup (p : Proxy) (q : list Request) : Proxy :=
  mkProxy (px_disk p) q (px_put p) (px_closed p) (px_phase p) (px_batch p) (px_running p) (px_resps p)
    (px_puts p) (px_sumSize p) (px_uploads p) (px_consumed p) (px_used p) (px_preloaded p)
    (px_usedPreloaded p) (px_stats p) (px_panicked p).
Definition set_put (p : Proxy) (q : list Request) : Proxy :=
  mkProxy (px_disk p) (px_lookup p) q (px_closed p) (px_phase p) (px_batch p) (px_running p) (px_resps p)
    (px_puts p) (px_sumSize p) (px_uploads p) (px_consumed p) (px_used p) (px_preloaded p)
    (px_usedPreloaded p) (px_stats p) (px_panicked p).
Definition set_closed (p : Proxy) : Proxy :=
  mkProxy (px_disk p) (px_lookup p) (px_put p) true (px_phase p) (px_batch p) (px_running p) (px_resps p)
    (px_puts p) (px_sumSize p) (px_uploads p) (px_consumed p) (px_used p) (px_preloaded p)
    (px_usedPreloaded p) (px_stats p) (px_panicked p).
Definition set_resolver (p : Proxy) (ph : Phase) (b : list Request) (r : list Batch) : Proxy :=
  mkProxy (px_disk p) (px_lookup p) (px_put p) (px_closed p) ph b r (px_resps p)
    (px_puts p) (px_sumSize p) (px_uploads p) (px_consumed p) (px_used p) (px_preloaded p)
    (px_usedPreloaded p) (px_stats p) (px_panicked p).
Definition send (p : Proxy) (rs : list Response) : Proxy :=
  mkProxy (px_disk p) (px_lookup p) (px_put p) (px_closed p) (px_phase p) (px_batch p) (px_running p)
    (px_resps p ++ rs) (px_puts p) (px_sumSize p) (px_uploads p) (px_consumed p) (px_used p)
    (px_preloaded p) (px_usedPreloaded p) (px_stats p) (px_panicked p).
Definition set_uploads (p : Proxy) (puts : list ResponseItem) (sum : Z) (ups : list (list ResponseItem)) : Proxy :=
  mkProxy (px_disk p) (px_lookup p) (px_put p) (px_closed p) (px_phase p) (px_batch p) (px_running p)
    (px_resps p) puts sum ups (px_consumed p) (px_used p) (px_preloaded p) (px_usedPreloaded p)
    (px_stats p) (px_panicked p).
Definition set_consumed (p : Proxy) : Proxy :=
  mkProxy (px_disk p) (px_lookup p) (px_put p) (px_closed p) (px_phase p) (px_batch p) (px_running p)
    (px_resps p) (px_puts p) (px_sumSize p) (px_uploads p) true (px_used p) (px_preloaded p)
    (px_usedPreloaded p) (px_stats p) (px_panicked p).
Definition set_sets (p : Proxy) (used pre usedPre : gset bytes) : Proxy :=
  mkProxy (px_disk p) (px_lookup p) (px_put p) (px_closed p) (px_phase p) (px_batch p) (px_running p)
    (px_resps p) (px_puts p) (px_sumSize p) (px_uploads p) (px_consumed p) used pre usedPre
    (px_stats p) (px_panicked p).
Definition set_panicked (p : Proxy) : Proxy :=
  mkProxy (px_disk p) (px_lookup p) (px_put p) (px_closed p) (px_phase p) (px_batch p) (px_running p)
    (px_resps p) (px_puts p) (px_sumSize p) (px_uploads p) (px_consumed p) (px_used p)
    (px_preloaded p) (px_usedPreloaded p) (px_stats p) true.
Definition add_stats (p : Proxy) (b l h ph rh m pu pe bp sp : Z) : Proxy :=
  let s := px_stats p in
  mkProxy (px_disk p) (px_lookup p) (px_put p) (px_closed p) (px_phase p) (px_batch p) (px_running p)
    (px_resps p) (px_puts p) (px_sumSize p) (px_uploads p) (px_consumed p) (px_used p)
    (px_preloaded p) (px_usedPreloaded p)
    (mkStats (st_batches s + b) (st_lookups s + l) (st_hits s + h) (st_preloadHits s + ph)
       (st_regularHits s + rh) (st_misses s + m) (st_puts s + pu) (st_putsExist s + pe)
       (st_batchPuts s + bp) (st_skippedPuts s + sp)) (px_panicked p).

Definition newProxy (disk : Store) : Proxy :=
  mkProxy disk [] [] false Selecting [] [] [] [] 0 [] false ∅ ∅ ∅ (mkStats 0 0 0 0 0 0 0 0 0 0) false.

Definition batchBarrierItems : nat := 100.
Definition batchBarrierSize : Z := 100000000.
Definition queueCap : nat := 1000.
Definition defaultRemoteBatchConcurrency : Z := 8.
Definition defaultPreloadMaxSize : Z := 1000000.

Definition batchConcurrency (pp : ProxyParams) : Z :=
  if pp_RemoteBatchConcurrency pp <=? 0 then defaultRemoteBatchConcurrency else pp_RemoteBatchConcurrency pp.

(** ** Serving from the disk store *)

(** [Get]: a hit the go command could not open is a miss. *)
Definition Get (cf : Config) (d : Store) (req : Request) (now : Z) : Store * Response :=
  let '(d, rs) := getOne cf d (rq_ActionID req) now in
  let m := ri_meta rs in
  let resp := mkResponse (rq_ID req) None (ri_Miss m) (ri_OutputID m) (ri_Size m) (ri_Time m) (ri_DiskPath m) in
  if negb (ri_Miss m) && (0 <? ri_Size m) && bool_decide (ri_DiskPath m = []) then
    (d, mkResponse (rq_ID req) None true [] 0 None [])
  else (d, resp).

(** [recordHitKind], with the lookup of the preloaded set. *)
Definition recordHitKind (p : Proxy) (actionID : bytes) : Proxy :=
  if bool_decide (actionID ∈ px_preloaded p) then
    let usedPre := if bool_decide (actionID = []) then px_usedPreloaded p else {[actionID]} ∪ px_usedPreloaded p in
    add_stats (set_sets p (px_used p) (px_preloaded p) usedPre) 0 0 0 1 0 0 0 0 0 0
  else add_stats p 0 0 0 0 1 0 0 0 0 0.

Definition recordUsedActionID (p : Proxy) (actionID : bytes) : Proxy :=
  if bool_decide (actionID = []) then p
  else set_sets p ({[actionID]} ∪ px_used p) (px_preloaded p) (px_usedPreloaded p).

Definition markPreloaded (p : Proxy) (actionID : bytes) : Proxy :=
  if bool_decide (actionID = []) then p
  else set_sets p (px_used p) ({[actionID]} ∪ px_preloaded p) (px_usedPreloaded p).

(** [shouldSkipRemoteGet]; [total] is the upstream's [GetTotalTime], if it has one. *)
Definition shouldSkipRemoteGet (pp : ProxyParams) (total : option Z) : bool :=
  if pp_MaxRemoteGetTime pp <=? 0 then false
  else match total with None => false | Some t => negb (t <? pp_MaxRemoteGetTime pp) end.

Section proxy.
Context `{Zstd} (cf : Config) (pp : ProxyParams) (hasUpstream : bool).

Definition putRespItem (d : Store) (item : ResponseItem) (body : bytes) (a : putArgs) : Store * result unit :=
  PutAll cf d [(ItemSetBodyReader item (Ok (fromBytes body)), a)].

(** [putOne]: store, then answer from the store. *)
Definition putOne (d : Store) (req : Request) (body : bytes) (a : putArgs) : Store * Response :=
  let item := mkResponseItem (mkResponseMeta (rq_ActionID req) false (rq_OutputID req) (rq_BodySize req)
                None false 0 []) None in
  match putRespItem d item body a with
  | (d, Err e) => (d, errResponse (rq_ID req) e)
  | (d, Ok _) => Get cf d req (pa_now a)
  end.

(** [Put]; the result is the answer to the caller. *)
Definition Put (p : Proxy) (req : Request) (body : bytes) (a : putArgs) : option (Proxy * Response) :=
  let '(d, resp) := Get cf (px_disk p) req (pa_now a) in
  let p := set_disk p d in
  if negb (rs_Miss resp) then Some (add_stats p 0 0 0 0 0 0 0 1 0 0, resp)
  else
    let '(d, resp) := putOne (px_disk p) req body a in
    let p := add_stats (set_disk p d) 0 0 0 0 0 0 1 0 0 0 in
    let req := mkRequest (rq_ID req) (rq_Command req) (rq_ActionID req) (rq_OutputID req) (rq_BodySize req)
                 (if blen body <? 100000 then Some body else rq_Body req) in
    if hasUpstream then
      if px_closed p || (queueCap <=? length (px_put p))%nat then None
      else Some (set_put p (px_put p ++ [req]), resp)
    else Some (p, resp).

(** ** Lookups *)

Definition Lookup (p : Proxy) (req : Request) (now : Z) (total : option Z) : option Proxy :=
  let p := recordUsedActionID p (rq_ActionID req) in
  if negb hasUpstream then
    let '(d, resp) := Get cf (px_disk p) req now in Some (send (set_disk p d) [resp])
  else
    let p := add_stats p 0 1 0 0 0 0 0 0 0 0 in
    if shouldSkipRemoteGet pp total then
      let '(d, resp) := Get cf (px_disk p) req now in
      let p := set_disk p d in
      let p := if rs_Miss resp then add_stats p 0 0 0 0 0 1 0 0 0 0
               else recordHitKind (add_stats p 0 0 1 0 0 0 0 0 0 0) (rq_ActionID req) in
      Some (send p [resp])
    else if px_closed p || (queueCap <=? length (px_lookup p))%nat then None
    else Some (set_lookup p (px_lookup p ++ [req])).

(** One receive of [resolve] from the lookup channel; a closed and empty channel
    gives the zero request. *)
Definition resolveRecv (p : Proxy) (now : Z) : option Proxy :=
  match px_phase p, px_lookup p with
  | Selecting, req :: q =>
      let p := set_lookup p q in
      if rq_ID req =? 0 then Some (set_resolver p Returned (px_batch p) (px_running p))
      else
        let '(d, resp) := Get cf (px_disk p) req now in
        let p := set_disk p d in
        if rs_Miss resp then
          let b := px_batch p ++ [req] in
          let ph := if (batchBarrierItems <=? length b)%nat then Dispatching else Selecting in
          Some (set_resolver p ph b (px_running p))
        else
          Some (send (recordHitKind (add_stats p 0 0 1 0 0 0 0 0 0 0) (rq_ActionID req)) [resp])
  | Selecting, [] =>
      if px_closed p then Some (set_resolver p Returned (px_batch p) (px_running p)) else None
  | _, _ => None
  end.

Definition resolveTick (p : Proxy) : option Proxy :=
  match px_phase p, px_batch p with
  | Selecting, _ :: _ => Some (set_resolver p Dispatching (px_batch p) (px_running p))
  | _, _ => None
  end.

(** [dispatchBatch]: the send on [batchSem] waits for a free slot. *)
Definition dispatchBatch (p : Proxy) : option Proxy :=
  match px_phase p with
  | Dispatching =>
      if Z.of_nat (length (px_running p)) <? batchConcurrency pp then
        Some (set_resolver p Selecting [] (px_running p ++ [mkBatch (px_batch p) None []]))
      else None
  | _ => None
  end.

(** ** Batches *)

Definition reqsByAction (l : list Request) (actionID : bytes) : list Request :=
  filter (fun r => rq_ActionID r = actionID) l.

(** The distinct actions of a batch, in the order of their first request. *)
Definition batchActions (l : list Request) : list bytes := unseen ∅ (map rq_ActionID l).

Definition respondAll (l : list Request) (actionID : bytes) (rs : Response) : list Response :=
  map (fun r => with_ID rs (rq_ID r)) (reqsByAction l actionID).

(** [resolveBatch] up to the call of [upstream.Get], which will stream [items]. *)
Definition batchAsk (p : Proxy) (i : nat) (items : list ResponseItem) : option Proxy :=
  match px_running p !! i with
  | Some (mkBatch reqs None answered) =>
      Some (add_stats (set_resolver p (px_phase p) (px_batch p)
              (<[i := mkBatch reqs (Some (if hasUpstream then items else [])) answered]> (px_running p)))
              1 0 0 0 0 0 0 0 0 0)
  | _ => None
  end.

(** The callback, on the next item. *)
Definition batchCallback (p : Proxy) (i : nat) (a : putArgs) : option Proxy :=
  match px_running p !! i with
  | Some (mkBatch reqs (Some (item :: items)) answered) =>
      let m := ri_meta item in
      let actionID := ri_ActionID m in
      let count := Z.of_nat (length (reqsByAction reqs actionID)) in
      let p := set_resolver p (px_phase p) (px_batch p)
                 (<[i := mkBatch reqs (Some items) (actionID :: answered)]> (px_running p)) in
      if ri_Miss m then
        Some (send (add_stats p 0 0 0 0 0 count 0 0 0 0) (respondAll reqs actionID missResponse))
      else
        match (match ItemUncompressedBodyReader item with
               | Err e => Err e
               | Ok None => Ok []
               | Ok (Some rd) => ReadAll rd
               end) with
        | Err e => Some (send p (respondAll reqs actionID (errResponse 0 e)))
        | Ok b =>
            let p := add_stats p 0 0 count 0 count 0 0 0 0 0 in
            match reqsByAction reqs actionID with
            | [] => Some (set_panicked p)
            | req :: _ =>
                let req := mkRequest (rq_ID req) CmdPut (rq_ActionID req) (ri_OutputID m) (ri_Size m) (rq_Body req) in
                let '(d, rs) := putOne (px_disk p) req b a in
                Some (send (add_stats (set_disk p d) 0 0 0 0 0 0 1 0 0 0) (respondAll reqs actionID rs))
            end
        end
  | _ => None
  end.

(** The end of [resolveBatch]: a miss for every request that got no answer, the
    actions in the [order] of the range over the map. *)
Definition batchFinish (p : Proxy) (i : nat) (order : list bytes) : option Proxy :=
  match px_running p !! i with
  | Some (mkBatch reqs (Some []) answered) =>
      let rest := take i (px_running p) ++ drop (S i) (px_running p) in
      let p := set_resolver p (px_phase p) (px_batch p) rest in
      if hasUpstream then
        let left := filter (fun a => a ∉ answered) (batchActions reqs) in
        if bool_decide (NoDup order) && bool_decide (list_to_set order =@{gset bytes} list_to_set left) then
          let rs := mjoin (map (fun a => respondAll reqs a missResponse) order) in
          Some (send (add_stats p 0 0 0 0 0 (Z.of_nat (length rs)) 0 0 0 0) rs)
        else None
      else
        Some (send (add_stats p 0 0 0 0 0 (Z.of_nat (length reqs)) 0 0 0 0)
                (map (fun r => with_ID missResponse (rq_ID r)) reqs))
  | _ => None
  end.

(** ** Uploads *)

(** The item [consumePut] makes of a request and the disk store's answer. *)
Definition uploadItem (req : Request) (resp : Response) : ResponseItem :=
  mkResponseItem (mkResponseMeta (rq_ActionID req) false (rs_OutputID resp) (rs_Size resp) (rs_Time resp)
    false (rs_Size resp) (rs_DiskPath resp))
    (match rq_Body req with Some b => Some (Ok (fromBytes b)) | None => None end).

Definition consumePut (p : Proxy) (now : Z) : option Proxy :=
  if px_consumed p then None
  else match px_put p with
  | req :: q =>
      let p := set_put p q in
      let '(d, resp) := Get cf (px_disk p) req now in
      let p := set_disk p d in
      let item := uploadItem req resp in
      let size := ri_Size (ri_meta item) in
      if (0 <? pp_MaxFileBytes pp) && (pp_MaxFileBytes pp <? size) then Some (add_stats p 0 0 0 0 0 0 0 0 0 1)
      else
        let puts := px_puts p ++ [item] in
        let sum := px_sumSize p + size in
        if (batchBarrierItems <=? length puts)%nat || (batchBarrierSize <=? sum) then
          if hasUpstream then
            Some (add_stats (set_uploads p [] 0 (px_uploads p ++ [puts])) 0 0 0 0 0 0 0 0 1 0)
          else Some (set_uploads p [] 0 (px_uploads p))
        else Some (set_uploads p puts sum (px_uploads p))
  | [] =>
      if px_closed p then
        let ups := if bool_decide (px_puts p <> []) && hasUpstream then px_uploads p ++ [px_puts p]
                   else px_uploads p in
        Some (set_consumed (set_uploads p (px_puts p) (px_sumSize p) ups))
      else None
  end.

(** ** Preloading *)

(** One item of [Preload]'s callback: a bad one is skipped. *)
Definition preloadItem (p : Proxy) (item : ResponseItem) (a : putArgs) : Proxy :=
  match (match ItemWireBodyReader item with
         | Err e => Err e
         | Ok None => Ok []
         | Ok (Some rd) => ReadAll rd
         end) with
  | Err _ => p
  | Ok b =>
      match putRespItem (px_disk p) item b a with
      | (d, Err _) => set_disk p d
      | (d, Ok _) => markPreloaded (set_disk p d) (ri_ActionID (ri_meta item))
      end
  end.

(** [Preload] with what the upstream streams, if it is a preloader: the proxy
    afterwards and the size recorded.  An error of the stream is only reported. *)
Definition Preload (p : Proxy) (preloader : option (list (ResponseItem * putArgs))) : result (Proxy * Z) :=
  if negb hasUpstream then Err (EMsg "upstream is not set")
  else match preloader with
  | None => Err (EMsg "upstream is not preloader")
  | Some items =>
      Ok (foldl (fun p ia => preloadItem p ia.1 ia.2) p items,
          foldl (fun n ia => n + ri_Size (ri_meta ia.1)) 0 items)
  end.

(** [MaybePreload]; the upstream's stream may depend on the size it is asked for. *)
Definition MaybePreload (p : Proxy) (preloader : Z -> option (list (ResponseItem * putArgs))) : result Proxy :=
  let maxSize := if pp_MaxFileBytes pp =? 0 then defaultPreloadMaxSize else pp_MaxFileBytes pp in
  if pp_SkipPreload pp then Ok p
  else if negb (pp_Preload pp) && bool_decide (pp_Commit pp = []) && bool_decide (pp_ChangesID pp = []) &&
          bool_decide (pp_BuildType pp = []) && bool_decide (pp_BaseCommit pp = []) &&
          bool_decide (pp_ParentCommit pp = []) then Ok p
  else if HasEntries (px_disk p) then Ok p
  else let? r := Preload p (preloader maxSize) in Ok (fst r).

(** ** Closing *)

(** [UsedActionIDs]. *)
Definition UsedActionIDs (p : Proxy) : list bytes := stable_sort bytes_lt (elements (px_used p)).

(** What [Close] posts once the goroutines are done: the actions, and whether they
    replace the manifest of the change. *)
Definition closePost (initialLocalEntries recorder : bool) (p : Proxy) : option (list bytes * bool) :=
  if pp_DisableCacheUsed pp then None
  else if bool_decide (pp_Commit pp = []) && bool_decide (pp_ChangesID pp = []) then None
  else if negb recorder then None
  else Some (UsedActionIDs p, negb initialLocalEntries).

Definition waited (p : Proxy) : bool :=
  bool_decide (px_phase p = Returned) && match px_running p with [] => true | _ => false end && px_consumed p.

(** ** The machine *)

Inductive Event :=
  | ELookup (req : Request) (now : Z) (total : option Z)
  | EPut (req : Request) (body : bytes) (a : putArgs)
  | ERecv (now : Z)
  | ETick
  | EDispatch
  | EAsk (i : nat) (items : list ResponseItem)
  | ECallback (i : nat) (a : putArgs)
  | EFinish (i : nat) (order : list bytes)
  | EConsume (now : Z)
  | EClose.

Definition step (p : Proxy) (e : Event) : option Proxy :=
  if px_panicked p then None
  else match e with
  | ELookup req now total => Lookup p req now total
  | EPut req body a => fst <$> Put p req body a
  | ERecv now => resolveRecv p now
  | ETick => resolveTick p
  | EDispatch => dispatchBatch p
  | EAsk i items => batchAsk p i items
  | ECallback i a => batchCallback p i a
  | EFinish i order => batchFinish p i order
  | EConsume now => consumePut p now
  | EClose => if px_closed p then None else Some (set_closed p)
  end.

Fixpoint run (p : Proxy) (es : list Event) : option Proxy :=
  match es with
  | [] => Some p
  | e :: es => match step p e with Some p => run p es | None => None end
  end.
End proxy.

(** ** Every lookup is answered once *)

(** The requests of a batch that have no answer yet. *)
Definition pendingBatch (b : Batch) : list Request :=
  filter (fun r => rq_ActionID r ∉ bt_answered b) (bt_reqs b).

(** Every request the proxy has not answered, wherever it waits. *)
Definition pending (p : Proxy) : list Request :=
  px_lookup p ++ px_batch p ++ (px_running p ≫= pendingBatch).

Definition answered (p : Proxy) : list Z := map rs_ID (px_resps p).

(** What the upstream may stream for a batch: distinct actions that were asked. *)
Definition streams (b : Batch) (items : list ResponseItem) : Prop :=
  NoDup (map (fun i => ri_ActionID (ri_meta i)) items) /\
  forall a, a ∈ map (fun i => ri_ActionID (ri_meta i)) items -> a ∈ batchActions (bt_reqs b) /\ a ∉ bt_answered b.

(** The events of a session that keeps to the protocol: request ids are not zero,
    and the upstream answers only what it is asked, and that once. *)
Definition polite (p : Proxy) (e : Event) : Prop :=
  match e with
  | ELookup req _ _ => rq_ID req <> 0
  | EAsk i items => forall b, px_running p !! i = Some b -> streams b items
  | _ => True
  end.

Definition asked_of (e : Event) : list Z :=
  match e with ELookup req _ _ => [rq_ID req] | _ => [] end.

Fixpoint polite_run `{Zstd} (cf : Config) (pp : ProxyParams) (up : bool) (p : Proxy) (es : list Event) : Prop :=
  match es with
  | [] => True
  | e :: es => polite p e /\ forall p', step cf pp up p e = Some p' -> polite_run cf pp up p' es
  end.

Definition batch_ok (up : bool) (b : Batch) : Prop :=
  bt_reqs b <> [] /\
  match bt_items b with
  | None => bt_answered b = []
  | Some items => streams b items /\ (up = false -> items = [] /\ bt_answered b = [])
  end.

Record proxy_ok (up : bool) (p : Proxy) (ids : list Z) : Prop := {
  pk_ids : map rq_ID (pending p) ++ answered p ≡ₚ ids;
  pk_batches : Forall (batch_ok up) (px_running p);
  pk_nonzero : Forall (fun r => rq_ID r <> 0) (px_lookup p);
  pk_dispatch : px_phase p = Dispatching -> px_batch p <> [];
  pk_calm : px_panicked p = false;
}.

Lemma filter_split {A} (P Q R : A -> Prop) `{!forall x, Decision (P x), !forall x, Decision (Q x), !forall x, Decision (R x)} l :
  (forall x, P x <-> Q x \/ R x) -> (forall x, Q x -> ~ R x) -> filter P l ≡ₚ filter Q l ++ filter R l.
Proof.
  intros Hpq Hd. induction l as [|x l IH]; [done|].
  destruct (decide (Q x)) as [Hq|Hq].
  - rewrite filter_cons_True by (by apply Hpq; left). rewrite (filter_cons_True Q) by done.
    rewrite filter_cons_False by (by apply Hd). simpl. by rewrite IH.
  - rewrite (filter_cons_False Q) by done. destruct (decide (R x)) as [Hr|Hr].
    + rewrite filter_cons_True by (by apply Hpq; right). rewrite (filter_cons_True R) by done.
      rewrite IH. apply Permutation_middle.
    + rewrite !filter_cons_False; [done|done|]. rewrite Hpq. tauto.
Qed.

Lemma filter_ext_in {A} (P Q : A -> Prop) `{!forall x, Decision (P x), !forall x, Decision (Q x)} (l : list A) :
  (forall x, x ∈ l -> P x <-> Q x) -> filter P l = filter Q l.
Proof.
  induction l as [|x l IH]; intros Hl; [done|].
  assert (Hx := Hl x (list_elem_of_here _ _)).
  rewrite !filter_cons. rewrite IH by (intros; apply Hl; by apply list_elem_of_further).
  destruct (decide (P x)), (decide (Q x)); tauto.
Qed.

(** A list is made of its groups. *)
Lemma group_by (l : list Request) (ks : list bytes) :
  NoDup ks -> filter (fun r => rq_ActionID r ∈ ks) l ≡ₚ ks ≫= reqsByAction l.
Proof.
  induction ks as [|k ks IH]; intros Hnd; simpl.
  - induction l as [|x l IHl]; [done|]. rewrite filter_cons_False by apply not_elem_of_nil. done.
  - apply NoDup_cons in Hnd as [Hk Hnd]. rewrite <-(IH Hnd).
    apply (filter_split (fun r => rq_ActionID r ∈ k :: ks) (fun r => rq_ActionID r = k)
      (fun r => rq_ActionID r ∈ ks)).
    + intros r. apply elem_of_cons.
    + by intros r ->.
Qed.

Lemma map_ID_respondAll l a rs : map rs_ID (respondAll l a rs) = map rq_ID (reqsByAction l a).
Proof. unfold respondAll. rewrite map_map. done. Qed.

Lemma map_ID_order l order rs :
  map rs_ID (mjoin (map (fun a => respondAll l a rs) order)) = map rq_ID (order ≫= reqsByAction l).
Proof.
  induction order as [|a order IH]; [done|]. simpl.
  change (mbind (reqsByAction l) order) with (order ≫= reqsByAction l).
  rewrite !map_app, IH. f_equal. by rewrite map_ID_respondAll.
Qed.

Lemma elem_of_batchActions l a : a ∈ batchActions l <-> exists r, r ∈ l /\ rq_ActionID r = a.
Proof.
  unfold batchActions. rewrite elem_of_unseen. split.
  - intros [(r & -> & Hr)%list_elem_of_fmap _]. by exists r.
  - intros (r & Hr & <-). split; [|set_solver]. apply list_elem_of_fmap. by exists r.
Qed.

(** Replacing or removing a batch among those running. *)
Lemma running_at (l : list Batch) i b :
  l !! i = Some b -> l ≡ₚ b :: (take i l ++ drop (S i) l) /\
  forall b', <[i := b']> l ≡ₚ b' :: (take i l ++ drop (S i) l).
Proof.
  intros Hi. split.
  - rewrite <-(take_drop_middle l i b Hi) at 1. by rewrite Permutation_middle.
  - intros b'. assert (Hlt := lookup_lt_Some _ _ _ Hi).
    rewrite (insert_take_drop _ _ _ Hlt). by rewrite Permutation_middle.
Qed.

Lemma batch_at up (l : list Batch) i b :
  l !! i = Some b -> Forall (batch_ok up) l ->
  batch_ok up b /\ Forall (batch_ok up) (take i l ++ drop (S i) l).
Proof.
  intros Hi Hl. split; [by eapply Forall_lookup_1|]. apply Forall_app. split; [by apply Forall_take|by apply Forall_drop].
Qed.

Lemma Get_ID `{Zstd} cf d req now : rs_ID (snd (Get cf d req now)) = rq_ID req.
Proof. unfold Get. destruct (getOne _ _ _ _) as [d' rs]. by destruct (_ && _). Qed.

(** The parts of the state that the accounting of requests looks at. *)
Definition same_queues (p q : Proxy) : Prop :=
  px_lookup p = px_lookup q /\ px_batch p = px_batch q /\ px_running p = px_running q /\
  px_phase p = px_phase q /\ px_panicked p = px_panicked q /\ px_resps p = px_resps q.

Lemma ok_same up p q ids : same_queues p q -> proxy_ok up p ids -> proxy_ok up q ids.
Proof.
  intros (E1 & E2 & E3 & E4 & E5 & E6) [H1 H2 H3 H4 H5]. unfold pending, answered in *.
  rewrite E1, E2, E3, E6 in H1. rewrite E3 in H2. rewrite E1 in H3. rewrite E4, E2 in H4. rewrite E5 in H5.
  by split.
Qed.

Lemma same_refl p : same_queues p p.
Proof. done. Qed.

Lemma recordHitKind_same p q a : same_queues p q -> same_queues p (recordHitKind q a).
Proof. intros H. unfold recordHitKind. by repeat case_bool_decide. Qed.

Lemma recordUsed_same p q a : same_queues p q -> same_queues p (recordUsedActionID q a).
Proof. intros H. unfold recordUsedActionID. by case_bool_decide. Qed.

(** Responses to the requests [rs] leave the pending ones. *)
Lemma ok_answer up p q ids ids' rs out :
  proxy_ok up p ids ->
  px_resps q = px_resps p ++ out -> map rq_ID (pending p) ++ ids' ≡ₚ map rq_ID (pending q) ++ map rq_ID rs ->
  map rs_ID out = map rq_ID rs ->
  map rq_ID (pending q) ++ answered q ≡ₚ ids ++ ids'.
Proof.
  intros [H1 _ _ _ _] Hr Hp Ho. unfold answered in *. rewrite Hr, map_app, Ho, <-H1.
  rewrite (Permutation_app_comm (map rs_ID (px_resps p))), app_assoc, <-Hp.
  rewrite <-!app_assoc. by rewrite (Permutation_app_comm ids').
Qed.

Section stepping.
Context `{Zstd} (cf : Config) (pp : ProxyParams) (up : bool).

Lemma step_lookup p ids req now total p' :
  proxy_ok up p ids -> rq_ID req <> 0 -> Lookup cf pp up p req now total = Some p' ->
  proxy_ok up p' (ids ++ [rq_ID req]).
Proof.
  intros Hok Hid. unfold Lookup.
  assert (Hsame := recordUsed_same p p (rq_ActionID req) (same_refl p)).
  apply (ok_same up p _ ids Hsame) in Hok. clear Hsame.
  set (p0 := recordUsedActionID p (rq_ActionID req)) in *. clearbody p0.
  assert (Hsend : forall q resp, same_queues p0 q -> rs_ID resp = rq_ID req ->
    proxy_ok up (send q [resp]) (ids ++ [rq_ID req])).
  { intros q resp Hs Hr. assert (Hq := ok_same up p0 q ids Hs Hok). split; [|apply Hq..].
    apply (ok_answer up q (send q [resp]) ids [rq_ID req] [req] [resp] Hq); [done|done|].
    simpl. by rewrite Hr. }
  destruct (negb up).
  { assert (Hid' := Get_ID cf (px_disk p0) req now). destruct (Get cf _ req now) as [d resp]. intros [= <-].
    apply (Hsend (set_disk p0 d)); done. }
  destruct (shouldSkipRemoteGet pp total).
  { assert (Hid' := Get_ID cf (px_disk p0) req now). cbn [px_disk add_stats].
    destruct (Get cf (px_disk p0) req now) as [d resp]. intros [= <-]. apply Hsend; [|done].
    destruct (rs_Miss resp); [done|]. by apply recordHitKind_same. }
  destruct (_ || _); [done|]. intros [= <-]. destruct Hok as [H1 H2 H3 H4 H5]. split; try done.
  - unfold pending, answered in *. simpl. rewrite <-H1, !map_app. simpl.
    rewrite <-!app_assoc. apply Permutation_app_head.
    rewrite Permutation_app_comm. rewrite <-!app_assoc. simpl. done.
  - simpl. apply Forall_app. split; [done|]. by apply Forall_singleton.
Qed.

Lemma step_recv p ids now p' :
  proxy_ok up p ids -> resolveRecv cf p now = Some p' -> proxy_ok up p' ids.
Proof.
  intros Hok. assert (Hok' := Hok). destruct Hok as [H1 H2 H3 H4 H5]. unfold resolveRecv.
  destruct (px_phase p) eqn:Ep; [|done..]. destruct (px_lookup p) as [|req q] eqn:El.
  { destruct (px_closed p); [|done]. intros [= <-]. split; try done. simpl. by rewrite El. }
  apply Forall_cons in H3 as [Hnz H3]. apply Z.eqb_neq in Hnz as ->.
  assert (Hid := Get_ID cf (px_disk p) req now). cbn [px_disk set_lookup].
  destruct (Get cf (px_disk p) req now) as [d resp]. simpl in Hid.
  destruct (rs_Miss resp); intros [= <-].
  - split; simpl; try done.
    + unfold pending, answered in *. simpl. rewrite <-H1, El. rewrite !map_app. simpl.
      rewrite <-!app_assoc. simpl. rewrite <-!Permutation_middle. done.
    + intros _. by destruct (px_batch p).
  - assert (Hs : same_queues (set_disk (set_lookup p q) d)
      (recordHitKind (add_stats (set_disk (set_lookup p q) d) 0 0 1 0 0 0 0 0 0 0) (rq_ActionID req)))
      by (by apply recordHitKind_same).
    revert Hs. generalize (recordHitKind (add_stats (set_disk (set_lookup p q) d) 0 0 1 0 0 0 0 0 0 0) (rq_ActionID req)).
    intros p1 (E1 & E2 & E3 & E4 & E5 & E6). simpl in *. split; simpl.
    + rewrite <-(app_nil_r ids). apply (ok_answer up p (send p1 [resp]) ids [] [req] [resp] Hok').
      * simpl. by rewrite <-E6.
      * unfold pending. simpl. rewrite <-E1, <-E2, <-E3, El. simpl. rewrite app_nil_r.
        apply Permutation_cons_append.
      * simpl. by rewrite Hid.
    + by rewrite <-E3.
    + by rewrite <-E1.
    + rewrite <-E4. by rewrite Ep.
    + by rewrite <-E5.
Qed.

Lemma step_tick p ids p' : proxy_ok up p ids -> resolveTick p = Some p' -> proxy_ok up p' ids.
Proof.
  intros [H1 H2 H3 H4 H5]. unfold resolveTick. destruct (px_phase p) eqn:Ep; [|done..].
  destruct (px_batch p) as [|r b] eqn:Eb; [done|]. intros [= <-]. split; simpl; try done.
  unfold pending, answered in *. simpl. by rewrite Eb in H1.
Qed.

Lemma step_dispatch p ids p' : proxy_ok up p ids -> dispatchBatch pp p = Some p' -> proxy_ok up p' ids.
Proof.
  intros [H1 H2 H3 H4 H5]. unfold dispatchBatch. destruct (px_phase p) eqn:Ep; [done| |done].
  destruct (_ <? _); [|done]. intros [= <-]. split; simpl; try done.
  - unfold pending, answered in *. simpl. rewrite <-H1. rewrite bind_app. simpl. rewrite app_nil_r.
    assert (E : pendingBatch (mkBatch (px_batch p) None []) = px_batch p).
    { unfold pendingBatch. simpl. generalize (px_batch p). intros l.
      induction l as [|r l IH]; [done|]. rewrite filter_cons_True by apply not_elem_of_nil. by rewrite IH. }
    rewrite E. rewrite (Permutation_app_comm (px_batch p)). done.
  - apply Forall_app. split; [done|]. apply Forall_singleton. split; [by apply H4|done].
Qed.
End stepping.

Lemma pending_running (l : list Batch) i b :
  l !! i = Some b ->
  l ≫= pendingBatch ≡ₚ pendingBatch b ++ ((take i l ++ drop (S i) l) ≫= pendingBatch) /\
  forall b', (<[i := b']> l) ≫= pendingBatch ≡ₚ pendingBatch b' ++ ((take i l ++ drop (S i) l) ≫= pendingBatch).
Proof.
  intros Hi. destruct (running_at l i b Hi) as [H1 H2].
  split; [by rewrite H1 at 1|]. intros b'. by rewrite (H2 b').
Qed.

Lemma batches_replace up (l : list Batch) i b b' :
  l !! i = Some b -> Forall (batch_ok up) l -> batch_ok up b' -> Forall (batch_ok up) (<[i := b']> l).
Proof. intros Hi Hl Hb. by apply Forall_insert. Qed.

(** The requests of the streamed action are answered, the others stay. *)
Lemma pending_callback reqs items items' answered a :
  a ∉ answered ->
  pendingBatch (mkBatch reqs items answered) ≡ₚ
  reqsByAction reqs a ++ pendingBatch (mkBatch reqs items' (a :: answered)).
Proof.
  intros Ha. unfold pendingBatch, reqsByAction. simpl.
  apply (filter_split (fun r => rq_ActionID r ∉ answered) (fun r => rq_ActionID r = a)
    (fun r => rq_ActionID r ∉ a :: answered)).
  - intros r. rewrite not_elem_of_cons. destruct (decide (rq_ActionID r = a)) as [->|]; tauto.
  - intros r -> Hn. by apply Hn, list_elem_of_here.
Qed.

Lemma batch_ok_next up reqs item items answered :
  batch_ok up (mkBatch reqs (Some (item :: items)) answered) ->
  batch_ok up (mkBatch reqs (Some items) (ri_ActionID (ri_meta item) :: answered)) /\
  ri_ActionID (ri_meta item) ∉ answered /\ reqsByAction reqs (ri_ActionID (ri_meta item)) <> [].
Proof.
  intros [Hne [[Hnd Hin] Hup]]. simpl in *. apply NoDup_cons in Hnd as [Hn Hnd].
  destruct (Hin _ (list_elem_of_here _ _)) as [Hask Hna]. split; [split; [done|]; simpl|].
  - split; [|intros E; by destruct (Hup E)]. split; [done|]. simpl. intros a Ha.
    destruct (Hin a (list_elem_of_further _ _ _ Ha)) as [? ?]. split; [done|].
    apply not_elem_of_cons. split; [|done]. by intros ->.
  - split; [done|]. apply elem_of_batchActions in Hask as (r & Hr & Ea).
    intros E. assert (Hx : r ∈ reqsByAction reqs (ri_ActionID (ri_meta item))) by (by apply list_elem_of_filter).
    rewrite E in Hx. by apply elem_of_nil in Hx.
Qed.

Section batches.
Context `{Zstd} (cf : Config) (up : bool).

Lemma step_ask p ids i items p' :
  proxy_ok up p ids -> (forall b, px_running p !! i = Some b -> streams b items) ->
  batchAsk up p i items = Some p' -> proxy_ok up p' ids.
Proof.
  intros [H1 H2 H3 H4 H5] Hs. unfold batchAsk. destruct (px_running p !! i) as [[reqs [?|] ans]|] eqn:Hi; [done| |done].
  intros [= <-]. destruct (batch_at up _ _ _ Hi H2) as [[Hne Hans] _]. simpl in *.
  destruct (pending_running _ _ _ Hi) as [P1 P2].
  split; simpl; try done.
  - unfold pending, answered in *. simpl. rewrite <-H1. rewrite !map_app. rewrite (P2 _), P1. done.
  - eapply batches_replace; [done|done|]. split; [done|]. simpl. subst ans. destruct up.
    + split; [by apply (Hs _ eq_refl)|done].
    + split; [|done]. split; [constructor|]. by intros a ?%elem_of_nil.
Qed.

(** Answering the next item of a batch keeps the accounting. *)
Lemma ok_callback p q ids i reqs item items ans rs :
  let a := ri_ActionID (ri_meta item) in
  proxy_ok up p ids -> px_running p !! i = Some (mkBatch reqs (Some (item :: items)) ans) ->
  px_lookup q = px_lookup p -> px_batch q = px_batch p -> px_phase q = px_phase p ->
  px_panicked q = px_panicked p -> px_resps q = px_resps p ->
  px_running q = <[i := mkBatch reqs (Some items) (a :: ans)]> (px_running p) ->
  proxy_ok up (send q (respondAll reqs a rs)) ids.
Proof.
  intros a Hok Hi E1 E2 E3 E4 E5 E6. assert (Hok' := Hok). destruct Hok as [H1 H2 H3 H4 H5].
  destruct (batch_at up _ _ _ Hi H2) as [Hb _].
  destruct (batch_ok_next up reqs item items ans Hb) as (Hb' & Hna & _). fold a in Hb', Hna.
  destruct (pending_running _ _ _ Hi) as [P1 P2].
  split; simpl.
  - rewrite <-(app_nil_r ids).
    apply (ok_answer up p (send q (respondAll reqs a rs)) ids [] (reqsByAction reqs a) (respondAll reqs a rs) Hok').
    + simpl. by rewrite E5.
    + rewrite app_nil_r. unfold pending. simpl. rewrite E1, E2, E6, !map_app.
      rewrite (P2 (mkBatch reqs (Some items) (a :: ans))), P1.
      rewrite (pending_callback reqs (Some (item :: items)) (Some items) ans a Hna). rewrite !map_app.
      rewrite <-!app_assoc. do 2 apply Permutation_app_head.
      rewrite (Permutation_app_comm (map rq_ID (reqsByAction reqs a))). by rewrite <-!app_assoc.
    + apply map_ID_respondAll.
  - rewrite E6. by eapply batches_replace.
  - by rewrite E1.
  - rewrite E3, E2. done.
  - by rewrite E4.
Qed.

Lemma step_callback p ids i a p' :
  proxy_ok up p ids -> batchCallback cf p i a = Some p' -> proxy_ok up p' ids.
Proof.
  intros Hok. unfold batchCallback.
  destruct (px_running p !! i) as [[reqs [[|item items]|] ans]|] eqn:Hi; try done.
  assert (Hcb := fun q rs => ok_callback p q ids i reqs item items ans rs Hok Hi). simpl in Hcb.
  destruct (ri_Miss (ri_meta item)); [intros [= <-]; by apply Hcb|].
  destruct (match ItemUncompressedBodyReader item with Err _ => _ | Ok _ => _ end) as [b|e];
    [|intros [= <-]; by apply Hcb].
  destruct (batch_at up _ _ _ Hi (pk_batches _ _ _ Hok)) as [Hb _].
  destruct (batch_ok_next up reqs item items ans Hb) as (_ & _ & Hne).
  destruct (reqsByAction reqs (ri_ActionID (ri_meta item))) as [|req l] eqn:Er; [done|].
  cbn [px_disk add_stats set_resolver]. destruct (putOne cf _ _ _ _) as [d rs]. intros [= <-].
  by apply Hcb.
Qed.

Lemma step_finish p ids i order p' :
  proxy_ok up p ids -> batchFinish up p i order = Some p' -> proxy_ok up p' ids.
Proof.
  intros Hok. unfold batchFinish. assert (Hok' := Hok). destruct Hok as [H1 H2 H3 H4 H5].
  destruct (px_running p !! i) as [[reqs [[|item items]|] ans]|] eqn:Hi; try done.
  destruct (batch_at up _ _ _ Hi H2) as [[Hne [Hst Hup]] Hrest]. simpl in *.
  destruct (pending_running _ _ _ Hi) as [P1 _].
  assert (Hdone : forall rs p2, map rs_ID rs ≡ₚ map rq_ID (pendingBatch (mkBatch reqs (Some []) ans)) ->
    px_lookup p2 = px_lookup p -> px_batch p2 = px_batch p -> px_phase p2 = px_phase p ->
    px_panicked p2 = px_panicked p -> px_resps p2 = px_resps p ->
    px_running p2 = take i (px_running p) ++ drop (S i) (px_running p) ->
    proxy_ok up (send p2 rs) ids).
  { intros rs p2 Hrs E1 E2 E3 E4 E5 E6. split; simpl.
    - unfold pending, answered in *. simpl. rewrite E1, E2, E5, E6, !map_app, Hrs, <-H1, !map_app, P1, !map_app.
      rewrite <-!app_assoc. do 2 apply Permutation_app_head.
      rewrite (app_assoc _ (map rs_ID (px_resps p))).
      rewrite (Permutation_app_comm _ (map rq_ID (pendingBatch _))). done.
    - by rewrite E6.
    - by rewrite E1.
    - by rewrite E3, E2.
    - by rewrite E4. }
  destruct up.
  - destruct (bool_decide (NoDup order)) eqn:Hnd; [|done].
    destruct (bool_decide (list_to_set order = _)) eqn:Hset; [|done]. cbn [andb].
    apply bool_decide_eq_true_1 in Hnd, Hset. intros [= <-]. apply Hdone; try done.
    rewrite map_ID_order, <-(group_by reqs order Hnd). unfold pendingBatch. simpl.
    rewrite (filter_ext_in (fun r => rq_ActionID r ∈ order) (fun r => rq_ActionID r ∉ ans)); [done|].
    intros r Hr. rewrite <-(elem_of_list_to_set (C := gset bytes)), Hset, elem_of_list_to_set, list_elem_of_filter.
    rewrite elem_of_batchActions. split; [tauto|]. intros Hn. split; [done|by exists r].
  - intros [= <-]. apply Hdone; try done. rewrite map_map. simpl.
    destruct (Hup eq_refl) as [_ ->]. unfold pendingBatch. simpl.
    rewrite (filter_ext_in (fun r => rq_ActionID r ∉ []) (fun _ => True)).
    + clear. induction reqs as [|r l IH]; [done|]. rewrite filter_cons_True by done. simpl. by rewrite IH.
    + intros r _. split; [done|]. intros _. apply not_elem_of_nil.
Qed.
End batches.

Section running.
Context `{Zstd} (cf : Config) (pp : ProxyParams) (up : bool).

Lemma put_same p req body a p' resp : Put cf up p req body a = Some (p', resp) -> same_queues p p'.
Proof.
  unfold Put. destruct (Get cf (px_disk p) req (pa_now a)) as [d rs]. destruct (negb _).
  { by intros [= <- _]. }
  destruct (putOne cf _ req body a) as [d' rs']. destruct up; [|by intros [= <- _]].
  destruct (_ || _); [done|]. by intros [= <- _].
Qed.

Lemma consume_same p now p' : consumePut cf pp up p now = Some p' -> same_queues p p'.
Proof.
  unfold consumePut. destruct (px_consumed p); [done|]. destruct (px_put p) as [|req q].
  - destruct (px_closed p); [|done]. by intros [= <-].
  - cbn [px_disk set_put]. destruct (Get cf (px_disk p) req now) as [d rs].
    destruct (_ && _); [by intros [= <-]|]. destruct (_ || _); [destruct up|]; by intros [= <-].
Qed.

Lemma step_ok p ids e p' :
  proxy_ok up p ids -> polite p e -> step cf pp up p e = Some p' -> proxy_ok up p' (ids ++ asked_of e).
Proof.
  intros Hok Hp. unfold step. rewrite (pk_calm _ _ _ Hok).
  destruct e as [req now total|req body a|now| | |i items|i a|i order|now|]; simpl; rewrite ?app_nil_r.
  - by apply step_lookup.
  - destruct (Put cf up p req body a) as [[q rs]|] eqn:E; [|done]. intros [= <-].
    eapply ok_same; [|exact Hok]. by eapply put_same.
  - by apply step_recv.
  - by apply step_tick.
  - by apply step_dispatch.
  - by apply step_ask.
  - by apply step_callback.
  - by apply step_finish.
  - intros E. eapply ok_same; [|exact Hok]. by eapply consume_same.
  - destruct (px_closed p); [done|]. intros [= <-]. by apply (ok_same up p).
Qed.

Lemma proxy_ok_init d : proxy_ok up (newProxy d) [].
Proof. by split. Qed.

Lemma run_ok p ids es p' :
  proxy_ok up p ids -> polite_run cf pp up p es -> run cf pp up p es = Some p' ->
  proxy_ok up p' (ids ++ (es ≫= asked_of)).
Proof.
  revert p ids. induction es as [|e es IH]; intros p ids Hok; simpl.
  { intros _ [= <-]. by rewrite app_nil_r. }
  intros [Hp Hes]. destruct (step cf pp up p e) as [p1|] eqn:E; [|done]. intros Hr.
  rewrite app_assoc. apply (IH p1); [|by apply Hes|done]. by apply (step_ok p ids).
Qed.

(** C13: every lookup is answered once.  However the goroutines of the proxy are
    scheduled, whatever the disk store does and whatever of a batch the upstream
    answers before it fails, the requests that were looked up are, as a bag, those
    that still wait and those that were answered: no request is lost, answered
    twice or answered without having been asked, and no batch panics.  (The ids are
    not zero, and the upstream streams no action twice or unasked.) *)
Theorem lookups_answered_once d es p
    (Hpolite : polite_run cf pp up (newProxy d) es) (Hrun : run cf pp up (newProxy d) es = Some p) :
  map rq_ID (pending p) ++ answered p ≡ₚ es ≫= asked_of /\ px_panicked p = false.
Proof.
  assert (Hok := run_ok _ [] es p (proxy_ok_init d) Hpolite Hrun).
  split; [apply (pk_ids _ _ _ Hok)|apply (pk_calm _ _ _ Hok)].
Qed.

(** ** No lookup waits for ever *)

(** What the proxy does by itself, given its upstream's answers. *)
Definition internal (e : Event) : bool :=
  match e with
  | ERecv _ | ETick | EDispatch | EAsk _ _ | ECallback _ _ | EFinish _ _ => true
  | _ => false
  end.

Definition batchWork (b : Batch) : nat :=
  match bt_items b with None => length (bt_reqs b) + 2 | Some items => length items + 1 end.

(** How much is left to do for the requests that wait. *)
Definition work (p : Proxy) : nat :=
  6 * length (px_lookup p) + 5 * length (px_batch p)
  + match px_phase p with Selecting => 1 | _ => 0 end + sum_list (map batchWork (px_running p)).

Lemma sum_list_perm (l k : list nat) : l ≡ₚ k -> sum_list l = sum_list k.
Proof. induction 1; simpl; lia. Qed.

Lemma work_running (l : list Batch) i b :
  l !! i = Some b ->
  sum_list (map batchWork l) = (batchWork b + sum_list (map batchWork (take i l ++ drop (S i) l)))%nat /\
  forall b', sum_list (map batchWork (<[i := b']> l)) =
    (batchWork b' + sum_list (map batchWork (take i l ++ drop (S i) l)))%nat.
Proof.
  intros Hi. destruct (running_at l i b Hi) as [H1 H2]. split.
  - rewrite (sum_list_perm _ (map batchWork (b :: take i l ++ drop (S i) l))); [done|]. by rewrite <-H1.
  - intros b'. rewrite (sum_list_perm _ (map batchWork (b' :: take i l ++ drop (S i) l))); [done|]. by rewrite (H2 b').
Qed.

Lemma streams_length b items : streams b items -> (length items <= length (bt_reqs b))%nat.
Proof.
  intros [Hnd Hin]. rewrite <-(length_map (fun i => ri_ActionID (ri_meta i))), <-(length_map rq_ActionID (bt_reqs b)).
  apply submseteq_length, NoDup_submseteq; [done|]. intros a Ha.
  destruct (Hin a Ha) as [(r & Hr & <-)%elem_of_batchActions _]. apply list_elem_of_fmap. by exists r.
Qed.

Lemma sum_list_app' (l k : list nat) : sum_list (l ++ k) = (sum_list l + sum_list k)%nat.
Proof. induction l; simpl; lia. Qed.

Lemma work_decreases p ids e p' :
  proxy_ok up p ids -> polite p e -> internal e = true -> px_closed p = false ->
  step cf pp up p e = Some p' -> (work p' < work p)%nat.
Proof.
  intros Hok Hp Hi Hcl. unfold step. rewrite (pk_calm _ _ _ Hok).
  destruct e as [req now total|req body a|now| | |i items|i a|i order|now|]; simpl in Hi |- *; try done.
  - unfold resolveRecv. destruct (px_phase p) eqn:Ep; [|done..]. destruct (px_lookup p) as [|req q] eqn:El; [by rewrite Hcl|].
    assert (Hnz := pk_nonzero _ _ _ Hok). rewrite El in Hnz. apply Forall_cons in Hnz as [Hnz _].
    apply Z.eqb_neq in Hnz as ->. cbn [px_disk set_lookup]. destruct (Get cf (px_disk p) req now) as [d rs].
    destruct (rs_Miss rs).
    + destruct (batchBarrierItems <=? _)%nat; intros [= <-]; unfold work; simpl; rewrite El, Ep, length_app; simpl; lia.
    + intros [= <-]. unfold work. simpl. rewrite El, Ep.
      assert (Hs : same_queues (set_disk (set_lookup p q) d)
        (recordHitKind (add_stats (set_disk (set_lookup p q) d) 0 0 1 0 0 0 0 0 0 0) (rq_ActionID req)))
        by (by apply recordHitKind_same).
      destruct Hs as (E1 & E2 & E3 & E4 & E5 & E6). rewrite <-E1, <-E2, <-E3, <-E4. simpl. rewrite Ep. simpl. lia.
  - unfold resolveTick. destruct (px_phase p) eqn:Ep; [|done..]. destruct (px_batch p) as [|r b] eqn:Eb; [done|].
    intros [= <-]. unfold work. simpl. rewrite Ep, Eb. simpl. lia.
  - unfold dispatchBatch. destruct (px_phase p) eqn:Ep; [done| |done]. destruct (_ <? _); [|done].
    intros [= <-]. unfold work. simpl. rewrite Ep, map_app, sum_list_app'. simpl.
    assert (Hb := pk_dispatch _ _ _ Hok Ep). destruct (px_batch p); [done|]. simpl. lia.
  - unfold batchAsk. destruct (px_running p !! i) as [[reqs [?|] ans]|] eqn:Hb; [done| |done]. intros [= <-].
    destruct (work_running _ _ _ Hb) as [W1 W2]. unfold work. simpl. rewrite W1, W2. unfold batchWork. simpl.
    assert (Hlen := streams_length _ _ (Hp _ Hb)). simpl in Hlen. destruct up; simpl; lia.
  - unfold batchCallback. destruct (px_running p !! i) as [[reqs [[|item items]|] ans]|] eqn:Hb; try done.
    destruct (work_running _ _ _ Hb) as [W1 W2].
    assert (Hw : forall q, px_lookup q = px_lookup p -> px_batch q = px_batch p -> px_phase q = px_phase p ->
      px_running q = <[i := mkBatch reqs (Some items) (ri_ActionID (ri_meta item) :: ans)]> (px_running p) ->
      (work q < work p)%nat).
    { intros q E1 E2 E3 E4. unfold work. rewrite E1, E2, E3, E4, W1, W2. unfold batchWork. simpl. lia. }
    destruct (ri_Miss _); [intros [= <-]; by apply Hw|].
    destruct (match ItemUncompressedBodyReader item with Err _ => _ | Ok _ => _ end) as [b|e]; [|intros [= <-]; by apply Hw].
    destruct (reqsByAction reqs _) as [|req l]; [intros [= <-]; by apply Hw|].
    cbn [px_disk add_stats set_resolver]. destruct (putOne cf _ _ _ _) as [d rs]. intros [= <-]. by apply Hw.
  - unfold batchFinish. destruct (px_running p !! i) as [[reqs [[|item items]|] ans]|] eqn:Hb; try done.
    destruct (work_running _ _ _ Hb) as [W1 _].
    assert (Hw : forall q, px_lookup q = px_lookup p -> px_batch q = px_batch p -> px_phase q = px_phase p ->
      px_running q = take i (px_running p) ++ drop (S i) (px_running p) -> (work q < work p)%nat).
    { intros q E1 E2 E3 E4. unfold work. rewrite E1, E2, E3, E4, W1. unfold batchWork. simpl. lia. }
    destruct up; [|intros [= <-]; by apply Hw].
    destruct (_ && _); [|done]. intros [= <-]. by apply Hw.
Qed.

(** As long as a request waits, something can be done. *)
Lemma work_enabled p ids :
  proxy_ok up p ids -> px_closed p = false -> px_phase p <> Returned -> pending p <> [] ->
  exists e p', internal e = true /\ polite p e /\ step cf pp up p e = Some p'.
Proof.
  intros Hok Hcl Hph Hpend. unfold step. rewrite (pk_calm _ _ _ Hok).
  assert (Hconc : 0 < batchConcurrency pp).
  { unfold batchConcurrency, defaultRemoteBatchConcurrency. destruct (Z.leb_spec (pp_RemoteBatchConcurrency pp) 0); lia. }
  destruct (px_running p) as [|b l] eqn:Er.
  - destruct (px_phase p) eqn:Ep; [| |done].
    + destruct (px_lookup p) as [|req q] eqn:El.
      * destruct (px_batch p) as [|r bs] eqn:Eb.
        { unfold pending in Hpend. by rewrite Er, El, Eb in Hpend. }
        exists ETick. unfold resolveTick. rewrite Ep, Eb. by eexists.
      * exists (ERecv 0). unfold resolveRecv. rewrite Ep, El.
        assert (Hnz := pk_nonzero _ _ _ Hok). rewrite El in Hnz. apply Forall_cons in Hnz as [Hnz _].
        apply Z.eqb_neq in Hnz as ->. cbn [px_disk set_lookup]. destruct (Get cf (px_disk p) req 0) as [d rs].
        destruct (rs_Miss rs); by eexists.
    + exists EDispatch. unfold dispatchBatch. rewrite Ep, Er. simpl.
      rewrite (proj2 (Z.ltb_lt _ _)) by done. by eexists.
  - destruct b as [reqs [[|item items]|] ans].
    + exists (EFinish 0 (filter (fun a => a ∉ ans) (batchActions reqs))). unfold batchFinish. rewrite Er. simpl.
      destruct up; [|by eexists]. rewrite bool_decide_eq_true_2 by (apply NoDup_filter, NoDup_unseen).
      rewrite bool_decide_eq_true_2 by done. by eexists.
    + exists (ECallback 0 (mkPutArgs 0 [] noFaults None)). unfold batchCallback. rewrite Er. simpl.
      destruct (ri_Miss _); [by eexists|].
      destruct (match ItemUncompressedBodyReader item with Err _ => _ | Ok _ => _ end) as [b|e]; [|by eexists].
      destruct (reqsByAction reqs _) as [|req l']; [by eexists|].
      cbn [px_disk add_stats set_resolver]. destruct (putOne cf _ _ _ _) as [d rs]. by eexists.
    + exists (EAsk 0 []). unfold batchAsk. rewrite Er. simpl. eexists. split; [done|]. split; [|done].
      intros b. simpl. rewrite Er. intros [= <-]. split; [constructor|]. by intros a ?%elem_of_nil.
Qed.

Lemma internal_asks_nothing e : internal e = true -> asked_of e = [].
Proof. by destruct e. Qed.

Lemma internal_phase p e p' :
  internal e = true -> px_closed p = false -> Forall (fun r => rq_ID r <> 0) (px_lookup p) ->
  step cf pp up p e = Some p' -> px_closed p' = false /\ (px_phase p <> Returned -> px_phase p' <> Returned).
Proof.
  intros Hi Hcl Hnz. unfold step. destruct (px_panicked p); [done|].
  destruct e as [req now total|req body a|now| | |i items|i a|i order|now|]; simpl in Hi |- *; try done.
  - unfold resolveRecv. destruct (px_phase p) eqn:Ep; [|done..]. destruct (px_lookup p) as [|req q]; [by rewrite Hcl|].
    apply Forall_cons in Hnz as [Hnz _]. apply Z.eqb_neq in Hnz as ->.
    cbn [px_disk set_lookup]. destruct (Get cf (px_disk p) req now) as [d rs]. destruct (rs_Miss rs); intros [= <-].
    + simpl. split; [done|]. by case_match.
    + unfold recordHitKind. case_bool_decide; simpl; by rewrite Ep.
  - unfold resolveTick. destruct (px_phase p) eqn:Ep; [|done..]. destruct (px_batch p); [done|]. by intros [= <-].
  - unfold dispatchBatch. destruct (px_phase p) eqn:Ep; [done| |done]. destruct (_ <? _); [|done]. by intros [= <-].
  - unfold batchAsk. destruct (px_running p !! i) as [[reqs [?|] ans]|]; [done| |done]. by intros [= <-].
  - unfold batchCallback. destruct (px_running p !! i) as [[reqs [[|item items]|] ans]|]; try done.
    destruct (ri_Miss _); [by intros [= <-]|].
    destruct (match ItemUncompressedBodyReader item with Err _ => _ | Ok _ => _ end) as [b|e]; [|by intros [= <-]].
    destruct (reqsByAction reqs _) as [|req l]; [by intros [= <-]|].
    cbn [px_disk add_stats set_resolver]. destruct (putOne cf _ _ _ _) as [d rs]. by intros [= <-].
  - unfold batchFinish. destruct (px_running p !! i) as [[reqs [[|item items]|] ans]|]; try done.
    destruct up; [|by intros [= <-]]. destruct (_ && _); [|done]. by intros [= <-].
Qed.

(** A maximal run of the proxy by itself: each step is polite, none is left. *)
Inductive settles : Proxy -> Proxy -> Prop :=
  | settled p : (forall e p', internal e = true -> polite p e -> step cf pp up p e = Some p' -> False) -> settles p p
  | settles_step p e p1 p2 : internal e = true -> polite p e -> step cf pp up p e = Some p1 ->
      settles p1 p2 -> settles p p2.

Lemma settles_answers p ids p' :
  proxy_ok up p ids -> px_closed p = false -> px_phase p <> Returned -> settles p p' ->
  pending p' = [] /\ answered p' ≡ₚ ids.
Proof.
  intros Hok Hcl Hph Hs. induction Hs as [p Hend|p e p1 p2 Hi Hp He Hs IH].
  - assert (Hnil : pending p = []).
    { destruct (pending p) eqn:E; [done|]. exfalso.
      destruct (work_enabled p ids Hok Hcl Hph) as (e & p' & Hi & Hp & Hs); [by rewrite E|]. by eapply Hend. }
    split; [done|]. rewrite <-(pk_ids _ _ _ Hok), Hnil. done.
  - destruct (internal_phase p e p1 Hi Hcl (pk_nonzero _ _ _ Hok) He) as [H1 H2].
    apply IH; [|done|by apply H2]. rewrite <-(app_nil_r ids), <-(internal_asks_nothing e Hi). by apply (step_ok p).
Qed.

(** C18: no lookup waits for ever.  From every reachable state of an open proxy
    each step it takes by itself leaves less work, so it settles; and when it has
    settled, however it was scheduled and whatever the upstream answered, every
    lookup has its answer. *)
Theorem lookups_settle d es p
    (Hpolite : polite_run cf pp up (newProxy d) es) (Hrun : run cf pp up (newProxy d) es = Some p)
    (Hopen : px_closed p = false) (Hphase : px_phase p <> Returned) :
  (forall e p', internal e = true -> polite p e -> step cf pp up p e = Some p' -> (work p' < work p)%nat) /\
  (forall p', settles p p' -> pending p' = [] /\ answered p' ≡ₚ es ≫= asked_of).
Proof.
  assert (Hok := run_ok _ [] es p (proxy_ok_init d) Hpolite Hrun). split.
  - intros e p' Hi Hp. by eapply work_decreases.
  - intros p'. by apply settles_answers.
Qed.
End running.
