(* ===== verification/ProxyServe.v ===== *)
(** What the proxy of Proxy.v gives the go command and its upstream: the files its
    hits and puts point to, the uploads in the order of the puts, the used actions
    it posts, and what closing it does to requests that still wait. *)
From S2P Require Import Prelude.
From S2P Require Import GoStrings.
From S2P Require Import GoPath.
From S2P Require Import RecordPool.
From S2P Require Import Wire.
From S2P Require Import CacheWire.
From S2P Require Import LocalStore.
From S2P Require Import LocalServe.
From S2P Require Import Proxy.

(** ** Hits are files *)

Section serving.
Context (cf : Config) (Hdir : abs_dir (cf_dir cf)).

Lemma hit_file s bl a ie b :
  holds cf s bl -> index s !! a = Some ie -> bl !! ie_OutputID ie = Some b ->
  ri_DiskPath (ri_meta (responseItem cf (outputs s) a ie)) <> [] ->
  files (outputs s) !! ri_DiskPath (ri_meta (responseItem cf (outputs s) a ie)) = Some b.
Proof.
  intros Hh Ha Hb. assert (Hs := served_stored cf s bl a ie b Hdir Hh Ha Hb). revert Hs.
  unfold served, responseItem. destruct (negb (ie_PoolPage ie =? 0)); [by intros _ ?|].
  cbn [ri_meta ri_DiskPath]. intros Hs Hne. revert Hs. unfold ItemPrepareBodyReader.
  simpl. rewrite bool_decide_eq_false_2 by done. unfold openFile.
  destruct (files _ !! _) as [c|]; [|done]. by intros [= _ ->].
Qed.

(** A response a hit of the go command can be made of: a file with the bytes of the output. *)
Definition in_file (d : Store) (bl : gmap bytes bytes) (rs : Response) : Prop :=
  exists b, bl !! rs_OutputID rs = Some b /\ files (outputs d) !! rs_DiskPath rs = Some b.

Lemma Get_ok d bl req now :
  holds cf d bl ->
  let '(d', rs) := Get cf d req now in
  rs_ID rs = rq_ID req /\ rs_Err rs = None /\ outputs d' = outputs d /\ holds cf d' bl /\
  (rs_Miss rs = false -> 0 < rs_Size rs -> in_file d' bl rs).
Proof.
  intros Hh. unfold Get. assert (Hg := getOne_ok cf d bl (rq_ActionID req) now Hdir Hh). revert Hg.
  unfold getOne. destruct (index d !! rq_ActionID req) as [ie|] eqn:Ha; [|by intros (_ & ? & ? & _)].
  destruct (_ && _) eqn:Eb; [by intros (_ & ? & ? & _)|]. intros (_ & Hh' & Ho & _).
  destruct (proj2 Hh _ _ Ha) as (b & Hb & _).
  assert (Hf := hit_file d bl (rq_ActionID req) ie b Hh Ha Hb).
  assert (Ei : ri_OutputID (ri_meta (responseItem cf (outputs d) (rq_ActionID req) ie)) = ie_OutputID ie)
    by (unfold responseItem; by destruct (negb _)).
  cbn [outputs set_index count] in *.
  change (responseItem cf (outputs d) (rq_ActionID req) (touch ie now))
    with (responseItem cf (outputs d) (rq_ActionID req) ie).
  generalize dependent (responseItem cf (outputs d) (rq_ActionID req) ie). intros item Hf Ei.
  destruct (negb _ && _ && _) eqn:Em; simpl; split_and!; try done.
  intros Hm Hsz. exists b. simpl. rewrite Ei. split; [done|]. apply Hf. intros Hp.
  rewrite Hm in Em. simpl in Em. rewrite (proj2 (Z.ltb_lt _ _) Hsz) in Em. simpl in Em.
  by rewrite bool_decide_eq_true_2 in Em.
Qed.

(** The answer to a get is the caller's and has no error, and a hit names a file
    that holds exactly the bytes stored for the output it names: an object of the
    record pool, which has no file, is a miss and never a hit without a path.  The
    stored bytes do not change. *)
Theorem Proxy_Get_is_in_file d bl req now (Hh : holds cf d bl) :
  let '(d', rs) := Get cf d req now in
  rs_ID rs = rq_ID req /\ rs_Err rs = None /\ outputs d' = outputs d /\ holds cf d' bl /\
  (rs_Miss rs = false -> 0 < rs_Size rs ->
   exists b, bl !! rs_OutputID rs = Some b /\ files (outputs d') !! rs_DiskPath rs = Some b).
Proof. by apply Get_ok. Qed.
End serving.

(** ** A put is a hit *)

Section storing.
Context `{Zstd} (cf : Config) (Hdir : abs_dir (cf_dir cf)) (Hplain : cf_compress cf = false)
  (Hnopool : cf_poolDisabled cf = true).

Definition unpooled (d : Store) : Prop := outputLocs (outputs d) = ∅.

Lemma unpooled_add out o size : outputLocs out = ∅ -> outputLocs (addOutputRefLocked out o size zeroLoc) = ∅.
Proof. intros E. unfold addOutputRefLocked. by destruct (_ =? 0). Qed.

Lemma unpooled_release out o : outputLocs out = ∅ -> outputLocs (releaseOutputRefLocked cf out o) = ∅.
Proof.
  intros E. unfold releaseOutputRefLocked. destruct (_ <=? 1); [|done]. rewrite E, lookup_empty. done.
Qed.

Lemma unpooled_commit s a v ie :
  entryLoc ie = zeroLoc -> unpooled s -> unpooled (putCommit cf s a v ie).
Proof.
  intros El Hu. unfold putCommit, unpooled in *. rewrite El.
  assert (Hs : forall s, outputs (count (scheduleEvictionLocked cf s) 0 0 0 0 1 0) = outputs s).
  { intros t. unfold scheduleEvictionLocked. destruct (evictionScheduled t); [done|]. by destruct (_ && _). }
  rewrite Hs. simpl. destruct (pv_existing v); [|by apply unpooled_add].
  unfold replaceOutputRefLocked. case_bool_decide; [done|]. by apply unpooled_add, unpooled_release.
Qed.

Lemma plain_body_stored out item rd body size ex a :
  outputLocs out = ∅ -> delivers rd body -> blen body = size -> pa_write a = None ->
  exists out', storePutBody cf out item rd size ex zeroLoc a = (out', Ok zeroLoc) /\ outputLocs out' = ∅.
Proof.
  intros Hu Hdel Hs Ha. unfold storePutBody. rewrite Hnopool, Ha. simpl.
  assert (Hb : match rd with Some (mkStream _ (Some _)) => False | Some (mkStream b None) => b = body | None => body = [] end).
  { destruct rd as [[b [e|]]|]; simpl in *; try done. by injection Hdel as <-. }
  destruct ex.
  - exists out. split; [|done]. by destruct rd as [[b [e|]]|].
  - unfold writeAtomic. destruct rd as [[b [e|]]|]; [done|..]; simpl in *; subst.
    + rewrite Z.eqb_refl. by eexists.
    + by eexists.
Qed.

(** A plain body that has its declared size, no fault: the put succeeds. *)
Lemma plain_put_succeeds s m body a :
  unpooled s -> ri_IsCompressed m = false -> ri_WireSize m = 0 -> blen body = ri_Size m -> pa_write a = None ->
  ri_OutputID m <> [] ->
  exists s', LocalStore.putOne cf s (mkResponseItem m (Some (Ok (fromBytes body)))) a = (s', Ok tt) /\ unpooled s'.
Proof.
  intros Hu Hc Hw Hs Ha Ho. unfold LocalStore.putOne. cbn [ri_meta]. destruct (_ && _); [by exists s|].
  rewrite bool_decide_eq_false_2 by done.
  destruct (plain_readable m body Hc Hw Hs) as (rd & Hrd & Hdel).
  set (item := mkResponseItem m _). unfold putBody, bodyReaderForPut. rewrite Hplain.
  change (ri_IsCompressed (ri_meta item)) with (ri_IsCompressed m). rewrite Hc. cbn [andb].
  fold item in Hrd. rewrite Hrd. cbn [outputs count pv_outputLoc putLookup].
  assert (Hv : default zeroLoc (outputLocs (outputs s) !! ri_OutputID (ri_meta item)) = zeroLoc).
  { unfold unpooled in Hu. by rewrite Hu, lookup_empty. }
  rewrite Hv. destruct (plain_body_stored (outputs s) item rd body (entryStoredSize (newEntry item (pa_now a)))
    (pv_outputRefExists (putLookup s item)) a Hu Hdel Hs Ha) as (out & Est & Hout).
  rewrite Est. eexists. split; [done|]. by apply unpooled_commit.
Qed.
(** What [Get] answers for an entry whose output is a plain file. *)
Lemma Get_plain d req ie body now :
  good_id (ie_OutputID ie) -> index d !! rq_ActionID req = Some ie -> ie_PoolPage ie = 0 ->
  (0 <? cf_maxFileBytes cf) && (cf_maxFileBytes cf <? ie_Size ie) = false ->
  files (outputs d) !! OutputFilename cf (ie_OutputID ie) = Some body ->
  exists d', Get cf d req now =
      (d', mkResponse (rq_ID req) None false (ie_OutputID ie) (ie_Size ie) (Some (ie_TimeMicro ie))
             (OutputFilename cf (ie_OutputID ie))) /\
    outputs d' = outputs d /\ index d' = <[rq_ActionID req := touch ie now]> (index d).
Proof.
  intros Hid Ha Hp Hfit Hf. unfold Get, getOne. rewrite Ha, Hfit. unfold responseItem. simpl. rewrite Hp. simpl.
  assert (Hpath : outputPathForRead cf (files (outputs d)) (ie_OutputID ie) = OutputFilename cf (ie_OutputID ie)).
  { unfold outputPathForRead, exists_file. by rewrite bool_decide_eq_true_2 by (rewrite Hf; eauto). }
  rewrite Hpath, bool_decide_eq_false_2 by (by apply OutputFilename_nonempty). rewrite andb_false_r. by eexists.
Qed.

(** The entry and the file a put leaves. *)
Lemma put_leaves d bl m body a d' :
  holds cf d bl -> good_id (ri_OutputID m) -> ri_IsCompressed m = false -> ri_WireSize m = 0 ->
  blen body = ri_Size m -> (forall b, bl !! ri_OutputID m = Some b -> b = body) ->
  (forall n, pages_left (pool (outputs d)) n) ->
  (0 <? cf_maxFileBytes cf) && (cf_maxFileBytes cf <? ri_Size m) = false ->
  LocalStore.putOne cf d (mkResponseItem m (Some (Ok (fromBytes body)))) a = (d', Ok tt) -> unpooled d' ->
  exists ie, index d' !! ri_ActionID m = Some ie /\ ie_OutputID ie = ri_OutputID m /\ ie_Size ie = ri_Size m /\
    ie_PoolPage ie = 0 /\ files (outputs d') !! OutputFilename cf (ri_OutputID m) = Some body.
Proof.
  intros Hh Hid Hc Hw Hs Hca Hleft Hfit Hput Hu.
  destruct (plain_readable m body Hc Hw Hs) as (rd & Hrd & Hdel).
  set (item := mkResponseItem m _) in *.
  assert (Hpt : putting cf item a = Ok (newEntry item (pa_now a), rd)).
  { unfold putting, bodyReaderForPut. change (ri_IsCompressed (ri_meta item)) with (ri_IsCompressed m).
    rewrite Hc, Hplain. simpl. by rewrite Hrd. }
  apply (local_putOne_spec cf d bl) in Hput; try done.
  2: { intros ie rd' b E Hb. rewrite Hpt in E. injection E as <- <-. by rewrite (Hca b Hb). }
  destruct Hput as [[E _]|(ie0 & rd' & ie & b & E & Hie & Hb & Hi & Hh')].
  { unfold oversized in E. simpl in E. by rewrite Hfit in E. }
  rewrite Hpt in E. injection E as <- <-. exists ie.
  assert (Hbb : b = body).
  { destruct Hb as [Hb|[_ Hb]]; [by apply Hca|]. unfold delivers in *. destruct rd; congruence. }
  subst b. rewrite Hi, lookup_insert_eq.
  assert (Ho : ie_OutputID ie = ri_OutputID m) by (by rewrite Hie).
  assert (Hst : after_put (index d) bl (ri_ActionID m) (ri_OutputID m) body !! ri_OutputID m = Some body)
    by apply lookup_insert_eq.
  split_and!; [done|done|by rewrite Hie| |].
  - destruct (proj2 Hh' (ri_ActionID m) ie) as (_ & _ & _ & Hl); [by rewrite Hi, lookup_insert_eq|].
    unfold unpooled in Hu. rewrite Hu, lookup_empty in Hl. simpl in Hl. unfold entryLoc, zeroLoc in Hl. by injection Hl.
  - apply (oo_plain _ _ _ _ _ (proj1 Hh') _ _ Hst). unfold unpooled in Hu. by rewrite Hu, lookup_empty.
Qed.

(** What gets leave as it is: the outputs, and the index but for the times of access. *)
Definition same_answers (d d' : Store) : Prop :=
  outputs d' = outputs d /\ forall a, (fun ie => touch ie 0) <$> (index d' !! a) = (fun ie => touch ie 0) <$> (index d !! a).

Lemma Get_same_store d req now : same_answers d (fst (Get cf d req now)).
Proof.
  unfold Get, getOne. destruct (index d !! rq_ActionID req) as [ie|] eqn:Ha; [|by split].
  destruct (_ && _); [by split|]. destruct (_ && _ && _); (split; [done|]); intros a; cbn [fst index set_index count];
    (destruct (decide (a = rq_ActionID req)) as [->|Hn]; [rewrite lookup_insert_eq, Ha; reflexivity|by rewrite lookup_insert_ne]).
Qed.

Lemma Get_same d d' req now now' : same_answers d d' -> snd (Get cf d' req now') = snd (Get cf d req now).
Proof.
  intros [Ho Hi]. specialize (Hi (rq_ActionID req)). unfold Get, getOne.
  destruct (index d' !! _) as [ie'|], (index d !! _) as [ie|]; try done.
  assert (E : touch ie' 0 = touch ie 0) by (change (Some (touch ie' 0) = Some (touch ie 0)) in Hi; congruence).
  assert (Hsz : ie_Size ie' = ie_Size ie) by (unfold touch in E; congruence).
  rewrite Hsz. destruct (_ && _); [done|]. simpl. rewrite Ho.
  change (responseItem cf (outputs d) (rq_ActionID req) (touch ie' now')) with (responseItem cf (outputs d) (rq_ActionID req) (touch ie' 0)).
  change (responseItem cf (outputs d) (rq_ActionID req) (touch ie now)) with (responseItem cf (outputs d) (rq_ActionID req) (touch ie 0)).
  rewrite E. by destruct (_ && _ && _).
Qed.

(** Gets of any actions, one after the other. *)
Definition gets (d : Store) (l : list (Request * Z)) : Store := foldl (fun d x => fst (Get cf d x.1 x.2)) d l.

Lemma gets_same d l : same_answers d (gets d l).
Proof.
  unfold gets. revert d. induction l as [|x l IH]; intros d; [by split|]. cbn [foldl].
  destruct (IH (fst (Get cf d x.1 x.2))) as [H1 H2], (Get_same_store d x.1 x.2) as [H3 H4].
  split; [congruence|]. intros a. by rewrite H2, H4.
Qed.

(** An answer of the store is its answer whatever is got in between. *)
Lemma Get_again d req now l now' :
  snd (Get cf (gets (fst (Get cf d req now)) l) req now') = snd (Get cf d req now) /\
  outputs (gets (fst (Get cf d req now)) l) = outputs d.
Proof.
  destruct (Get_same_store d req now) as [H1 H2], (gets_same (fst (Get cf d req now)) l) as [H3 H4].
  split; [|congruence]. apply Get_same. split; [congruence|]. intros a. by rewrite H4, H2.
Qed.

(** A new put: stored, and got as it was put. *)
Lemma putOne_answer d bl req body a :
  holds cf d bl -> unpooled d -> good_id (rq_OutputID req) -> blen body = rq_BodySize req -> pa_write a = None ->
  (forall b, bl !! rq_OutputID req = Some b -> b = body) -> (forall n, pages_left (pool (outputs d)) n) ->
  (0 <? cf_maxFileBytes cf) && (cf_maxFileBytes cf <? rq_BodySize req) = false ->
  exists s', putOne cf d req body a = Get cf s' req (pa_now a) /\
    exists t, snd (Get cf s' req (pa_now a)) =
      mkResponse (rq_ID req) None false (rq_OutputID req) (blen body) t (OutputFilename cf (rq_OutputID req)) /\
    files (outputs s') !! OutputFilename cf (rq_OutputID req) = Some body.
Proof.
  intros Hh Hu Hid Hlen Hio Hca Hleft Hfit.
  unfold putOne, putRespItem. set (m := mkResponseMeta _ _ _ _ _ _ _ _).
  change (ItemSetBodyReader (mkResponseItem m None) (Ok (fromBytes body)))
    with (mkResponseItem m (Some (Ok (fromBytes body)))). cbn [PutAll].
  destruct (plain_put_succeeds d m body a) as (s' & Hput & Hu'); try done; [apply Hid|]. rewrite Hput.
  destruct (put_leaves d bl m body a s') as (ie & Ha & Ho & Hsz & Hp & Hf); try done.
  assert (Hs' : (0 <? cf_maxFileBytes cf) && (cf_maxFileBytes cf <? ie_Size ie) = false) by (by rewrite Hsz).
  assert (Hf' := Hf). rewrite <-Ho in Hf'. change (ri_OutputID m) with (rq_OutputID req) in *.
  destruct (Get_plain s' req ie body (pa_now a)) as (d' & E & _ & _); try done; [by rewrite Ho|].
  exists s'. split; [done|]. exists (Some (ie_TimeMicro ie)). rewrite E. cbn [snd]. rewrite Ho, Hsz. split; [by rewrite Hlen|done].
Qed.

(** C22: a put is a hit, on disk.  The proxy's put answers with the old hit when its disk
    store has the action, and that store's outputs stay as they are; an old hit of a
    non-empty output names a file with exactly the bytes stored for the output it names.
    When the action is new, the answer is a hit that carries the request's id and output
    and the size of the body and names a file that holds exactly the body, whether or not
    the output was stored before.  Either way the same is the answer to a get of the
    action from then on, whatever actions are got in between, and the file stays.  The
    body has the declared size and its output id stands for it, the size is within the
    store's limit, and writing works; a put that has no answer found the channel to the
    upstream closed or full. *)
Theorem Proxy_put_is_in_file up p bl req body a
    (Hh : holds cf (px_disk p) bl) (Hu : unpooled (px_disk p)) (Hid : good_id (rq_OutputID req))
    (Hlen : blen body = rq_BodySize req) (Hio : pa_write a = None)
    (Hca : forall b, bl !! rq_OutputID req = Some b -> b = body)
    (Hleft : forall n, pages_left (pool (outputs (px_disk p))) n)
    (Hfit : (0 <? cf_maxFileBytes cf) && (cf_maxFileBytes cf <? rq_BodySize req) = false) :
  let old := snd (Get cf (px_disk p) req (pa_now a)) in
  match Put cf up p req body a with
  | None => up = true /\ rs_Miss old = true /\ (px_closed p = true \/ (queueCap <= length (px_put p))%nat)
  | Some (p', rs) =>
      rs_ID rs = rq_ID req /\ rs_Err rs = None /\ rs_Miss rs = false /\
      (if rs_Miss old then
         rs_OutputID rs = rq_OutputID req /\ rs_Size rs = blen body /\ files (outputs (px_disk p')) !! rs_DiskPath rs = Some body
       else rs = old /\ outputs (px_disk p') = outputs (px_disk p) /\ (0 < rs_Size rs -> in_file (px_disk p') bl rs)) /\
      forall l now, snd (Get cf (gets (px_disk p') l) req now) = rs /\ outputs (gets (px_disk p') l) = outputs (px_disk p')
  end.
Proof.
  intros old. unfold Put. assert (Hg := Get_ok cf Hdir (px_disk p) bl req (pa_now a) Hh).
  assert (Hag := fun l now => Get_again (px_disk p) req (pa_now a) l now).
  subst old. destruct (Get cf (px_disk p) req (pa_now a)) as [d rs] eqn:Eg. cbn [fst snd] in *.
  destruct Hg as (H1 & H2 & Ho & Hd & Hf). destruct (rs_Miss rs) eqn:Em; cbn [negb].
  2: { cbn [px_disk set_disk add_stats]. split_and!; try done; [by apply Hf|]. intros l now. by rewrite Ho. }
  assert (Hk := Get_same_store (px_disk p) req (pa_now a)). rewrite Eg in Hk. cbn [fst] in Hk.
  destruct (putOne_answer d bl req body a) as (s' & Ep & t & Ea & Hb); try done; [by unfold unpooled; rewrite Ho|by rewrite Ho|].
  cbn [px_disk set_disk]. rewrite Ep. assert (Hag' := fun l now => Get_again s' req (pa_now a) l now).
  assert (Ho' := proj1 (Get_same_store s' req (pa_now a))).
  destruct (Get cf s' req (pa_now a)) as [d2 rs2]. cbn [fst snd] in *. subst rs2.
  destruct up; [destruct (px_closed p) eqn:Ec; cbn [px_closed add_stats set_disk orb]|]; cbn [px_disk set_disk add_stats set_put px_closed px_put].
  - rewrite Ec. cbn [orb]. split_and!; try done. by left.
  - rewrite Ec. cbn [orb]. destruct (queueCap <=? length (px_put p))%nat eqn:El.
    + apply Nat.leb_le in El. split_and!; try done. by right.
    + split_and!; try done; [by cbn; rewrite ?Ho'|]. intros l now. destruct (Hag' l now) as [A B]. split; [done|exact (eq_trans B (eq_sym Ho'))].
  - split_and!; try done; [by cbn; rewrite ?Ho'|]. intros l now. destruct (Hag' l now) as [A B]. split; [done|exact (eq_trans B (eq_sym Ho'))].
Qed.
End storing.

(** ** Uploads *)

#[local] Opaque queueCap batchBarrierItems.

Section uploading.
Context `{Zstd} (cf : Config) (pp : ProxyParams).

(** The items [consumePut] has accepted: those sent, batch by batch, then those that wait
    in its batch. *)
Definition accepted (p : Proxy) : list ResponseItem :=
  mjoin (px_uploads p) ++ if px_consumed p then [] else px_puts p.

Abbreviation actions_of l := (map (fun i => ri_ActionID (ri_meta i)) l).

(** What an event adds: the action of a put that was not stored before. *)
Definition stored_by (p : Proxy) (e : Event) : list bytes :=
  match e with
  | EPut req body a => if rs_Miss (snd (Get cf (px_disk p) req (pa_now a))) then [rq_ActionID req] else []
  | _ => []
  end.

(** What an event takes from the channel: the first request there, as the item that the
    disk store has for it by then. *)
Definition taken_by (p : Proxy) (e : Event) : list ResponseItem :=
  match e, px_put p with
  | EConsume now, req :: _ => [uploadItem req (snd (Get cf (px_disk p) req now))]
  | _, _ => []
  end.

(** The same over a run. *)
Fixpoint over_run {A} (f : Proxy -> Event -> list A) (p : Proxy) (es : list Event) : list A :=
  match es with
  | [] => []
  | e :: es => f p e ++ match step cf pp true p e with Some p' => over_run f p' es | None => [] end
  end.

(** Whether an item is within the file limit of the proxy, when it has one. *)
Definition within (i : ResponseItem) : Prop := 0 < pp_MaxFileBytes pp -> ri_Size (ri_meta i) <= pp_MaxFileBytes pp.

#[local] Instance within_decision i : Decision (within i).
Proof. unfold within. apply _. Defined.

Definition upload_fields (p q : Proxy) : Prop :=
  px_put p = px_put q /\ px_puts p = px_puts q /\ px_uploads p = px_uploads q /\ px_consumed p = px_consumed q /\
  st_skippedPuts (px_stats p) = st_skippedPuts (px_stats q) /\ px_closed p = px_closed q.

Record uploads_ok (p : Proxy) (acts : list bytes) (items : list ResponseItem) : Prop := {
  uo_order : actions_of items ++ map rq_ActionID (px_put p) = acts;
  uo_kept : accepted p = filter within items;
  uo_count : st_skippedPuts (px_stats p) = Z.of_nat (length (filter (fun i => ~ within i) items));
  uo_room : (length (px_puts p) < batchBarrierItems)%nat;
  uo_sent : Forall (fun b => b <> [] /\ (length b <= batchBarrierItems)%nat) (px_uploads p);
  uo_done : px_consumed p = true -> px_put p = [] /\ px_closed p = true;
}.

Lemma uploads_ok_same p q acts items : upload_fields q p -> uploads_ok p acts items -> uploads_ok q acts items.
Proof.
  intros (E1 & E2 & E3 & E4 & E5 & E6) [? ? ? ? ? ?].
  split; unfold accepted in *; rewrite ?E1, ?E2, ?E3, ?E4, ?E5, ?E6; done.
Qed.

Lemma fields_refl p : upload_fields p p.
Proof. by split_and!. Qed.

Lemma fields_hit p q a : upload_fields p q -> upload_fields (recordHitKind p a) q.
Proof.
  intros (? & ? & ? & ? & ? & ?). unfold recordHitKind. case_bool_decide; split_and!; simpl; try done; lia.
Qed.

Lemma fields_used p a : upload_fields (recordUsedActionID p a) p.
Proof. unfold recordUsedActionID. case_bool_decide; by split_and!. Qed.

Ltac same_fields := unfold upload_fields; simpl; rewrite ?Z.add_0_r; split_and!; done.

(** The lookups leave the uploads alone. *)
Lemma lookup_fields p e p' :
  step cf pp true p e = Some p' ->
  match e with EPut _ _ _ | EConsume _ | EClose => True | _ => upload_fields p' p end.
Proof.
  unfold step. destruct (px_panicked p); [done|].
  destruct e as [req now total|req body a|now| | |i items|i a|i order|now|]; try done.
  - assert (Hu := fields_used p (rq_ActionID req)). unfold Lookup. set (q := recordUsedActionID p _) in *.
    clearbody q. destruct Hu as (E1 & E2 & E3 & E4 & E5 & E6). unfold upload_fields. rewrite <-E1, <-E2, <-E3, <-E4, <-E5, <-E6.
    fold (upload_fields p' q). destruct (negb true).
    { destruct (Get _ _ _ _) as [d rs]. intros [= <-]. same_fields. }
    destruct (shouldSkipRemoteGet _ _).
    + destruct (Get _ _ _ _) as [d rs]. intros [= <-]. destruct (rs_Miss rs); [same_fields|].
      destruct (fields_hit (add_stats (set_disk (add_stats q 0 1 0 0 0 0 0 0 0 0) d) 0 0 1 0 0 0 0 0 0 0) q
        (rq_ActionID req)) as (? & ? & ? & ? & ? & ?); [same_fields|]. by split_and!.
    + destruct (_ || _); [done|]. intros [= <-]. same_fields.
  - unfold resolveRecv. destruct (px_phase p); [|done..]. destruct (px_lookup p) as [|req q].
    { destruct (px_closed p); [|done]. intros [= <-]. same_fields. }
    destruct (_ =? 0); [intros [= <-]; same_fields|]. destruct (Get _ _ _ _) as [d rs].
    destruct (rs_Miss rs); intros [= <-]; [same_fields|].
    destruct (fields_hit (add_stats (set_disk (set_lookup p q) d) 0 0 1 0 0 0 0 0 0 0) p
        (rq_ActionID req)) as (? & ? & ? & ? & ? & ?); [same_fields|]. by split_and!.
  - unfold resolveTick. destruct (px_phase p); [|done..]. destruct (px_batch p); [done|]. intros [= <-]. same_fields.
  - unfold dispatchBatch. destruct (px_phase p); [done| |done]. destruct (_ <? _); [|done]. intros [= <-]. same_fields.
  - unfold batchAsk. destruct (_ !! _) as [[? [?|] ?]|]; [done| |done]. intros [= <-]. same_fields.
  - unfold batchCallback. destruct (_ !! _) as [[reqs [[|item items]|] ans]|]; try done.
    destruct (ri_Miss _); [intros [= <-]; same_fields|].
    destruct (match ItemUncompressedBodyReader item with Err _ => _ | Ok _ => _ end); [|intros [= <-]; same_fields].
    destruct (reqsByAction _ _); [intros [= <-]; same_fields|].
    destruct (putOne _ _ _ _ _) as [d rs]. intros [= <-]. same_fields.
  - unfold batchFinish. destruct (_ !! _) as [[reqs [[|item items]|] ans]|]; try done.
    destruct (_ && _); [|done]. intros [= <-]. same_fields.
Qed.

Lemma put_uploads p req body a p' rs acts items :
  uploads_ok p acts items -> Put cf true p req body a = Some (p', rs) ->
  uploads_ok p' (acts ++ stored_by p (EPut req body a)) items.
Proof.
  unfold Put. simpl. destruct (Get _ _ _ _) as [d r]. simpl. intros Hok. destruct (rs_Miss r); simpl.
  2: { intros [= <- _]. rewrite app_nil_r. eapply uploads_ok_same; [|done]. same_fields. }
  destruct (putOne _ _ _ _ _) as [d' r']. simpl. destruct (px_closed p) eqn:Ecl; [done|]. destruct (_ <=? _)%nat; [done|].
  intros [= <- _]. destruct Hok as [Hord Hkept Hcnt Hroom Hsent Hdone].
  split; simpl; rewrite ?Z.add_0_r; try done.
  - by rewrite (map_app rq_ActionID), app_assoc, Hord.
  - intros Hc. destruct (Hdone Hc). congruence.
Qed.

Lemma join_snoc {A} (l : list (list A)) x : mjoin (l ++ [x]) = mjoin l ++ x.
Proof. induction l as [|y l IH]; simpl; [by rewrite app_nil_r|]. by rewrite IH, app_assoc. Qed.

(** The size check of [consumePut] is the limit. *)
Lemma over_limit i : (0 <? pp_MaxFileBytes pp) && (pp_MaxFileBytes pp <? ri_Size (ri_meta i)) = negb (bool_decide (within i)).
Proof.
  unfold within. destruct (Z.ltb_spec 0 (pp_MaxFileBytes pp)) as [H0|H0], (Z.ltb_spec (pp_MaxFileBytes pp) (ri_Size (ri_meta i))) as [H1|H1];
    simpl; symmetry; first [apply negb_true_iff, bool_decide_eq_false; lia|apply negb_false_iff, bool_decide_eq_true; lia].
Qed.

(** One request of the put channel: its item is skipped or accepted. *)
Lemma consume_next p q acts items i req rest :
  uploads_ok p acts items -> px_put p = req :: rest -> px_put q = rest -> ri_ActionID (ri_meta i) = rq_ActionID req ->
  accepted q = accepted p ++ (if bool_decide (within i) then [i] else []) ->
  st_skippedPuts (px_stats q) = st_skippedPuts (px_stats p) + (if bool_decide (within i) then 0 else 1)%Z ->
  (length (px_puts q) < batchBarrierItems)%nat ->
  Forall (fun b => b <> [] /\ (length b <= batchBarrierItems)%nat) (px_uploads q) -> px_consumed q = false ->
  uploads_ok q acts (items ++ [i]).
Proof.
  intros [Hord Hkept Hcnt _ _ _] Ep Eq Ei Ea Es Hroom Hsent Hc. split; try done.
  - rewrite Ep in Hord. rewrite <-Hord, Eq, map_app, <-app_assoc. simpl. by rewrite Ei.
  - rewrite Ea, Hkept, filter_app. f_equal. rewrite filter_cons, filter_nil.
    case_bool_decide; [by rewrite decide_True|by rewrite decide_False].
  - rewrite Es, Hcnt, filter_app, length_app, filter_cons, filter_nil.
    case_bool_decide; [rewrite decide_False by tauto|rewrite decide_True by done]; simpl; lia.
  - by rewrite Hc.
Qed.

Lemma consume_uploads p now p' acts items :
  uploads_ok p acts items -> consumePut cf pp true p now = Some p' ->
  uploads_ok p' acts (items ++ taken_by p (EConsume now)).
Proof.
  intros Hok. unfold consumePut, taken_by. destruct (px_consumed p) eqn:Ec; [done|].
  assert (Hroom := uo_room _ _ _ Hok). assert (Hsent := uo_sent _ _ _ Hok).
  destruct (px_put p) as [|req q] eqn:Eq.
  - destruct (px_closed p) eqn:Ecl; [|done]. intros [= <-]. rewrite andb_true_r, app_nil_r.
    destruct Hok as [Hord Hkept Hcnt _ _ _]. split; try done; simpl.
    + rewrite <-Hkept. unfold accepted. rewrite Ec. simpl. rewrite app_nil_r.
      case_bool_decide as Hp; [by rewrite join_snoc|]. by rewrite Hp, ?app_nil_r.
    + case_bool_decide as Hp; [|done]. apply Forall_app. split; [done|]. apply Forall_singleton. split; [done|lia].
  - cbn [px_disk set_put]. destruct (Get _ _ _ _) as [d rs]. cbn [snd].
    cbn [px_puts px_sumSize px_uploads set_disk set_put]. rewrite over_limit.
    destruct (bool_decide (within (uploadItem req rs))) eqn:Ew; cbn [negb].
    2: { intros [= <-]. apply (consume_next p _ acts items _ req q Hok Eq); rewrite ?Ew; try done.
         unfold accepted. simpl. by rewrite app_nil_r. }
    destruct (_ || _) eqn:Eb; intros [= <-];
      apply (consume_next p _ acts items _ req q Hok Eq); rewrite ?Ew; try done; try (simpl; by rewrite ?Z.add_0_r);
      try (unfold accepted; simpl; rewrite Ec, ?join_snoc, ?app_nil_r, <-?app_assoc; done).
    + simpl. lia.
    + apply Forall_app. split; [done|]. apply Forall_singleton. split; [by destruct (px_puts p)|].
      rewrite length_app. simpl. lia.
    + simpl. apply orb_false_iff in Eb as [Eb _]. by apply Nat.leb_gt in Eb.
Qed.

Lemma step_uploads p e p' acts items :
  uploads_ok p acts items -> step cf pp true p e = Some p' ->
  uploads_ok p' (acts ++ stored_by p e) (items ++ taken_by p e).
Proof.
  intros Hok Hs. assert (Hf := lookup_fields p e p'). unfold step in *.
  destruct (px_panicked p); [done|].
  destruct e as [req now total|req body a|now| | |i l|i a|i order|now|]; try (
    simpl; rewrite !app_nil_r; eapply uploads_ok_same; [|exact Hok]; by apply Hf).
  - destruct (Put _ _ _ _ _ _) as [[q rs]|] eqn:E; [|done]. simpl in Hs. injection Hs as <-.
    cbn [taken_by]. rewrite app_nil_r. by eapply put_uploads.
  - cbn [stored_by]. rewrite app_nil_r. by eapply consume_uploads.
  - cbn [stored_by taken_by]. rewrite !app_nil_r. destruct (px_closed p); [done|]. injection Hs as <-.
    destruct Hok as [? ? ? ? ? Hd]. split; try done. simpl. intros Hc. by destruct (Hd Hc).
Qed.

Lemma run_uploads p es p' acts items :
  uploads_ok p acts items -> run cf pp true p es = Some p' ->
  uploads_ok p' (acts ++ over_run stored_by p es) (items ++ over_run taken_by p es).
Proof.
  revert p acts items. induction es as [|e es IH]; intros p acts items Hok; simpl.
  { intros [= <-]. by rewrite !app_nil_r. }
  destruct (step cf pp true p e) as [p1|] eqn:E; [|done]. intros Hr.
  rewrite !app_assoc. apply (IH p1); [|done]. by apply (step_uploads p).
Qed.

Lemma uploads_ok_init d : uploads_ok (newProxy d) [] [].
Proof. split; try done. simpl. apply Nat.ltb_lt. vm_compute. reflexivity. Qed.

(** C30: what is put goes upstream, in order, up to the limit.  In every run of a proxy
    with an upstream, the items taken from the channel, as the disk store has them when
    they are taken, and the requests that still wait there are the puts that the disk
    store did not have, in the order of those puts.  Of the items taken exactly those
    within the file limit were sent or wait in the batch, in that order, and the skipped
    puts that are counted are the others; without a limit all of them.  No batch is
    empty or over the barrier, and once the consumer has ended nothing waits: all that
    was taken within the limit was sent. *)
Theorem uploads_follow_puts d es p (Hrun : run cf pp true (newProxy d) es = Some p) :
  let puts := over_run stored_by (newProxy d) es in
  let items := over_run taken_by (newProxy d) es in
  actions_of items ++ map rq_ActionID (px_put p) = puts /\
  accepted p = filter within items /\
  st_skippedPuts (px_stats p) = Z.of_nat (length (filter (fun i => ~ within i) items)) /\
  (pp_MaxFileBytes pp <= 0 -> actions_of (accepted p) ++ map rq_ActionID (px_put p) = puts) /\
  Forall (fun b => b <> [] /\ (length b <= batchBarrierItems)%nat) (px_uploads p) /\
  (px_consumed p = true -> px_put p = [] /\ mjoin (px_uploads p) = filter within items).
Proof.
  assert (Hok := run_uploads _ _ _ [] [] (uploads_ok_init d) Hrun).
  simpl in Hok. destruct Hok as [Hord Hkept Hcnt _ Hsent Hdone]. split_and!; try done.
  - intros Hm. rewrite Hkept, filter_all; [done|]. intros i _ ?. lia.
  - intros Hc. destruct (Hdone Hc) as [E _]. split; [done|]. rewrite <-Hkept. unfold accepted. by rewrite Hc, app_nil_r.
Qed.
End uploading.

(** ** The used actions *)

Section used.
Context `{Zstd} (cf : Config) (pp : ProxyParams) (up : bool).

Definition looked_up (e : Event) : list bytes :=
  match e with ELookup req _ _ => if bool_decide (rq_ActionID req = []) then [] else [rq_ActionID req] | _ => [] end.



Lemma step_used p e p' :
  step cf pp up p e = Some p' -> px_used p' = px_used p ∪ list_to_set (looked_up e).
Proof.
  unfold step. destruct (px_panicked p); [done|].
  assert (Hh : forall q a, px_used (recordHitKind q a) = px_used q).
  { intros q a. unfold recordHitKind. by case_bool_decide. }
  assert (Hr : forall q a, px_used (recordUsedActionID q a) = px_used q ∪ if bool_decide (a = []) then ∅ else {[a]}).
  { intros q a. unfold recordUsedActionID. case_bool_decide; simpl; [by rewrite union_empty_r_L|]. apply union_comm_L. }
  destruct e as [req now total|req body a|now| | |i items|i a|i order|now|]; simpl; rewrite ?union_empty_r_L.
  - specialize (Hr p (rq_ActionID req)). unfold Lookup. intros E. 
    assert (Hu : px_used p' = px_used (recordUsedActionID p (rq_ActionID req))).
    { go_cases; by rewrite ?Hh. }
    rewrite Hu, Hr. f_equal. case_bool_decide; simpl; [done|]. by rewrite union_empty_r_L.
  - unfold Put. intros E. go_cases.
  - unfold resolveRecv. intros E. go_cases; by rewrite ?Hh.
  - unfold resolveTick. intros E. go_cases.
  - unfold dispatchBatch. intros E. go_cases.
  - unfold batchAsk. intros E. go_cases.
  - unfold batchCallback. intros E. go_cases.
  - unfold batchFinish. intros E. go_cases.
  - unfold consumePut. intros E. go_cases.
  - intros E. go_cases.
Qed.

Lemma run_used p es p' :
  run cf pp up p es = Some p' -> px_used p' = px_used p ∪ list_to_set (es ≫= looked_up).
Proof.
  revert p. induction es as [|e es IH]; intros p; simpl.
  { intros [= <-]. by rewrite union_empty_r_L. }
  destruct (step cf pp up p e) as [p1|] eqn:E; [|done]. intros Hr.
  rewrite (IH p1 Hr), (step_used p e p1 E), list_to_set_app_L. by rewrite assoc_L by apply _.
Qed.

(** The used actions are those looked up.  Whatever else the proxy does, the list
    [Close] posts has every non-empty action that was looked up, answered or not, each
    once and in the order of strings, and no other. *)
Theorem UsedActionIDs_are_looked_up d es p (Hrun : run cf pp up (newProxy d) es = Some p) :
  ordered_by bytes_lt (UsedActionIDs p) /\ NoDup (UsedActionIDs p) /\
  forall a, a ∈ UsedActionIDs p <-> a ∈ es ≫= looked_up.
Proof.
  unfold UsedActionIDs. split; [apply (stable_sort_ordered bytes_lt)|]. rewrite stable_sort_perm.
  split; [apply NoDup_elements|]. intros a. rewrite stable_sort_perm, elem_of_elements, (run_used _ _ _ Hrun).
  simpl. rewrite elem_of_union, elem_of_list_to_set. split; [by intros [?%elem_of_empty|?]|by right].
Qed.

(** ** Closing *)

Lemma step_returned p e p' :
  px_phase p = Returned -> step cf pp up p e = Some p' -> px_phase p' = Returned /\ px_batch p' = px_batch p.
Proof.
  intros Hph. unfold step. destruct (px_panicked p); [done|].
  assert (Hh : forall q a, px_phase (recordHitKind q a) = px_phase q /\ px_batch (recordHitKind q a) = px_batch q).
  { intros q a. unfold recordHitKind. by case_bool_decide. }
  destruct e as [req now total|req body a|now| | |i items|i a|i order|now|]; simpl.
  - unfold Lookup. intros E.
    assert (Hr : px_phase (recordUsedActionID p (rq_ActionID req)) = Returned /\
      px_batch (recordUsedActionID p (rq_ActionID req)) = px_batch p).
    { unfold recordUsedActionID. by case_bool_decide. }
    set (q := recordUsedActionID p _) in *. clearbody q. destruct Hr as [<- <-]. clear Hph.
    go_cases; rewrite ?(proj1 (Hh _ _)), ?(proj2 (Hh _ _)); done.
  - unfold Put. intros E. go_cases.
  - unfold resolveRecv. rewrite Hph. done.
  - unfold resolveTick. rewrite Hph. done.
  - unfold dispatchBatch. rewrite Hph. done.
  - unfold batchAsk. intros E. go_cases.
  - unfold batchCallback. intros E. go_cases.
  - unfold batchFinish. intros E. go_cases.
  - unfold consumePut. intros E. go_cases.
  - intros E. go_cases.
Qed.

Lemma run_returned p es p' :
  px_phase p = Returned -> run cf pp up p es = Some p' -> px_phase p' = Returned /\ px_batch p' = px_batch p.
Proof.
  revert p. induction es as [|e es IH]; intros p Hph; simpl; [by intros [= <-]|].
  destruct (step cf pp up p e) as [p1|] eqn:E; [|done]. destruct (step_returned p e p1 Hph E) as [H1 <-]. by apply IH.
Qed.

(** Closing drops the batch that is being collected.  When [resolve] returns
    because the lookup channel was closed, the misses it had collected for its next
    batch are never dispatched: in no continuation of the run does any of them get an
    answer. *)
Theorem close_drops_collected_batch d es es' p p' r
    (Hpolite : polite_run cf pp up (newProxy d) es) (Hrun : run cf pp up (newProxy d) es = Some p)
    (Hpolite' : polite_run cf pp up p es') (Hrun' : run cf pp up p es' = Some p')
    (Huniq : NoDup ((es ++ es') ≫= asked_of)) (Hret : px_phase p = Returned) (Hr : r ∈ px_batch p) :
  r ∈ pending p' /\ rq_ID r ∉ answered p'.
Proof.
  assert (Hok := run_ok cf pp up _ [] es p (proxy_ok_init up d) Hpolite Hrun).
  assert (Hok' := run_ok cf pp up _ _ es' p' Hok Hpolite' Hrun'). simpl in Hok'.
  assert (Hids := pk_ids _ _ _ Hok'). rewrite <-bind_app in Hids.
  destruct (run_returned p es' p' Hret Hrun') as [_ Hb].
  assert (Hp : r ∈ pending p') by (unfold pending; rewrite Hb, !elem_of_app; auto).
  split; [done|]. intros Ha. rewrite <-Hids in Huniq. apply NoDup_app in Huniq as (_ & Hd & _).
  apply (Hd (rq_ID r)); [|done]. apply list_elem_of_fmap. by exists r.
Qed.
End used.
(** ** Witnesses *)

(** Whether the events of a run are polite, decided along the run. *)
Definition streamsb (b : Batch) (items : list ResponseItem) : bool :=
  let acts := map (fun i => ri_ActionID (ri_meta i)) items in
  bool_decide (NoDup acts) &&
  forallb (fun a => bool_decide (a ∈ batchActions (bt_reqs b)) && bool_decide (a ∉ bt_answered b)) acts.

Definition politeb (p : Proxy) (e : Event) : bool :=
  match e with
  | ELookup req _ _ => negb (rq_ID req =? 0)
  | EAsk i items => match px_running p !! i with Some b => streamsb b items | None => true end
  | _ => true
  end.

Fixpoint polite_runb `{Zstd} (cf : Config) (pp : ProxyParams) (up : bool) (p : Proxy) (es : list Event) : bool :=
  match es with
  | [] => true
  | e :: es => politeb p e && match step cf pp up p e with Some p' => polite_runb cf pp up p' es | None => true end
  end.

Lemma streamsb_ok b items : streamsb b items = true -> streams b items.
Proof.
  unfold streamsb. intros [Hn Hf]%andb_true_iff. split; [by apply bool_decide_eq_true in Hn|]. intros a Ha.
  rewrite forallb_forall in Hf. specialize (Hf a (proj1 (list_elem_of_In _ _) Ha)).
  apply andb_true_iff in Hf as [H1 H2]. by apply bool_decide_eq_true in H1, H2.
Qed.

Lemma polite_runb_ok `{Zstd} cf pp up p es : polite_runb cf pp up p es = true -> polite_run cf pp up p es.
Proof.
  revert p. induction es as [|e es IH]; intros p; simpl; [done|]. intros [He Hes]%andb_true_iff.
  split; [|intros p' E; rewrite E in Hes; by apply IH]. destruct e; simpl in *; try done.
  - apply negb_true_iff in He. by apply Z.eqb_neq in He.
  - intros b E. rewrite E in He. by apply streamsb_ok.
Qed.

Lemma ran {A} (o : option A) : match o with Some _ => true | None => false end = true -> exists p, o = Some p.
Proof. destruct o; [by eexists|done]. Qed.

Definition exampleParams : ProxyParams := mkParams #"c" [] [] [] [] false false 0 0 false 0.
Definition diskConfig : Config := mkConfig #"/srv/cache" false 0 0 0 true.
Definition getReq (id : Z) (a : bytes) : Request := mkRequest id CmdGet a [] 0 None.
Definition putReq (id : Z) (a o body : bytes) : Request := mkRequest id CmdPut a o (blen body) None.

(** Three lookups, two of them for one action, which the upstream has. *)
Definition exampleLookups : list Event :=
  [ELookup (getReq 1 #"a1") 5 None; ELookup (getReq 2 #"a2") 5 None; ELookup (getReq 3 #"a1") 5 None].
Definition exampleSession : list Event :=
  exampleLookups ++ [ERecv 6; ERecv 6; ERecv 6; ETick; EDispatch; EAsk 0 [bodyItem #"a1" #"out" #"ninebytes"];
    ECallback 0 exampleArgs; EFinish 0 [ #"a2" ]].

Lemma disk_dir : abs_dir (cf_dir diskConfig).
Proof. exact (example_dir false). Defined.

Lemma disk_holds : holds diskConfig emptyStore ∅.
Proof. destruct (empty_holds false) as [Ho He]. split; [|exact He]. destruct Ho. by split. Qed.

Lemma Proxy_Get_is_in_file_witness :
  rs_Miss (snd (Get (exampleConfig false) nineStore (getReq 4 #"a1") 7)) = false /\
  exists b, files (outputs (fst (Get (exampleConfig false) nineStore (getReq 4 #"a1") 7))) !!
              rs_DiskPath (snd (Get (exampleConfig false) nineStore (getReq 4 #"a1") 7)) = Some b.
Proof.
  assert (Hm : rs_Miss (snd (Get (exampleConfig false) nineStore (getReq 4 #"a1") 7)) = false)
    by (vm_compute; reflexivity).
  assert (Hs : (0 <? rs_Size (snd (Get (exampleConfig false) nineStore (getReq 4 #"a1") 7))) = true)
    by (vm_compute; reflexivity).
  split; [exact Hm|].
  pose proof (Proxy_Get_is_in_file (exampleConfig false) (example_dir false) nineStore _ (getReq 4 #"a1") 7 nine_stored) as Ht.
  destruct (Get (exampleConfig false) nineStore (getReq 4 #"a1") 7) as [d' rs].
  destruct Ht as (_ & _ & _ & _ & Hf). destruct (Hf Hm (proj1 (Z.ltb_lt _ _) Hs)) as (b & _ & Hb). by exists b.
Defined.

Lemma Proxy_put_is_in_file_witness :
  match Put (H := magicZstd) diskConfig true (newProxy emptyStore) (putReq 4 #"a1" #"out" #"ninebytes") #"ninebytes" exampleArgs with
  | Some (p', rs) => rs_Miss rs = false /\ files (outputs (px_disk p')) !! rs_DiskPath rs = Some #"ninebytes"
  | None => False
  end.
Proof.
  pose proof (Proxy_put_is_in_file (H := magicZstd) diskConfig disk_dir eq_refl eq_refl true (newProxy emptyStore) ∅
    (putReq 4 #"a1" #"out" #"ninebytes") #"ninebytes" exampleArgs disk_holds eq_refl example_id eq_refl eq_refl) as Ht.
  assert (Hca : forall b, (∅ : gmap bytes bytes) !! rq_OutputID (putReq 4 #"a1" #"out" #"ninebytes") = Some b -> b = #"ninebytes")
    by (intros b Hb; by rewrite lookup_empty in Hb).
  specialize (Ht Hca small_pages eq_refl). cbv zeta in Ht.
  assert (Eo : rs_Miss (snd (Get diskConfig (px_disk (newProxy emptyStore)) (putReq 4 #"a1" #"out" #"ninebytes") (pa_now exampleArgs))) = true)
    by (vm_compute; reflexivity).
  rewrite Eo in Ht. destruct (Put _ _ _ _ _ _) as [[p' rs]|] eqn:Ep.
  - destruct Ht as (_ & _ & Hm & (_ & _ & Hf) & _). by split.
  - vm_compute in Ep. discriminate Ep.
Defined.

Lemma lookups_answered_once_witness :
  exists p, run (H := magicZstd) diskConfig exampleParams true (newProxy emptyStore) exampleSession = Some p /\
    (map rq_ID (pending p) ++ answered p) ≡ₚ [1; 2; 3].
Proof.
  destruct (ran (run (H := magicZstd) diskConfig exampleParams true (newProxy emptyStore) exampleSession)) as [p Hp];
    [vm_compute; reflexivity|].
  exists p. split; [exact Hp|].
  apply (lookups_answered_once (H := magicZstd) diskConfig exampleParams true emptyStore exampleSession p); [|exact Hp].
  apply polite_runb_ok. vm_compute. reflexivity.
Defined.

Lemma lookups_settle_witness :
  exists p, run (H := magicZstd) diskConfig exampleParams true (newProxy emptyStore) exampleLookups = Some p /\
    forall p', settles (H := magicZstd) diskConfig exampleParams true p p' -> answered p' ≡ₚ [1; 2; 3].
Proof.
  destruct (ran (run (H := magicZstd) diskConfig exampleParams true (newProxy emptyStore) exampleLookups)) as [p Hp];
    [vm_compute; reflexivity|].
  assert (Ho : (run (H := magicZstd) diskConfig exampleParams true (newProxy emptyStore) exampleLookups ≫= fun p =>
                Some (px_closed p, bool_decide (px_phase p = Selecting))) = Some (false, true)) by (vm_compute; reflexivity).
  rewrite Hp in Ho. simpl in Ho. injection Ho as Hc Hs. apply bool_decide_eq_true in Hs.
  exists p. split; [exact Hp|]. intros p' Hs'.
  apply (lookups_settle (H := magicZstd) diskConfig exampleParams true emptyStore exampleLookups p);
    [|exact Hp|exact Hc|by rewrite Hs|exact Hs'].
  apply polite_runb_ok. vm_compute. reflexivity.
Defined.

Definition exampleUploads : list Event :=
  [EPut (putReq 1 #"a1" #"out" #"ninebytes") #"ninebytes" exampleArgs; EConsume 6;
   EPut (putReq 2 #"a2" #"out" #"ninebytes") #"ninebytes" exampleArgs; EClose; EConsume 7; EConsume 7].

(** A limit of eight bytes: the nine bytes are not sent, the five are. *)
Definition limitedParams : ProxyParams := mkParams #"c" [] [] [] [] false false 0 8 false 0.
Definition limitedUploads : list Event :=
  [EPut (putReq 1 #"a1" #"out" #"ninebytes") #"ninebytes" exampleArgs; EConsume 6;
   EPut (putReq 2 #"a2" #"out2" #"bytes") #"bytes" exampleArgs; EClose; EConsume 7; EConsume 7].

Lemma uploads_follow_puts_witness :
  exists p, run (H := magicZstd) diskConfig limitedParams true (newProxy emptyStore) limitedUploads = Some p /\
    map (fun i => ri_ActionID (ri_meta i)) (mjoin (px_uploads p)) = [ #"a2" ] /\ st_skippedPuts (px_stats p) = 1.
Proof.
  destruct (ran (run (H := magicZstd) diskConfig limitedParams true (newProxy emptyStore) limitedUploads)) as [p Hp];
    [vm_compute; reflexivity|].
  assert (Ho : (run (H := magicZstd) diskConfig limitedParams true (newProxy emptyStore) limitedUploads ≫= fun p =>
                Some (px_consumed p)) = Some true) by (vm_compute; reflexivity).
  rewrite Hp in Ho. simpl in Ho. injection Ho as Hc.
  exists p. split; [exact Hp|].
  destruct (uploads_follow_puts (H := magicZstd) diskConfig limitedParams emptyStore limitedUploads p Hp)
    as (_ & _ & Hskip & _ & _ & Hdone).
  destruct (Hdone Hc) as [_ ->]. rewrite Hskip. split; vm_compute; reflexivity.
Defined.

Lemma UsedActionIDs_are_looked_up_witness :
  exists p, run (H := magicZstd) diskConfig exampleParams true (newProxy emptyStore) exampleLookups = Some p /\
    #"a2" ∈ UsedActionIDs p.
Proof.
  destruct (ran (run (H := magicZstd) diskConfig exampleParams true (newProxy emptyStore) exampleLookups)) as [p Hp];
    [vm_compute; reflexivity|].
  exists p. split; [exact Hp|].
  apply (UsedActionIDs_are_looked_up (H := magicZstd) diskConfig exampleParams true emptyStore exampleLookups p Hp).
  apply (bool_decide_unpack _). vm_compute. exact I.
Defined.

Lemma close_drops_collected_batch_witness :
  exists p p', run (H := magicZstd) diskConfig exampleParams true (newProxy emptyStore)
      [ELookup (getReq 1 #"a1") 5 None; ERecv 6; EClose; ERecv 7] = Some p /\
    run (H := magicZstd) diskConfig exampleParams true p [EConsume 7] = Some p' /\
    waited p' = true /\ getReq 1 #"a1" ∈ pending p' /\ 1 ∉ answered p'.
Proof.
  set (es := [ELookup (getReq 1 #"a1") 5 None; ERecv 6; EClose; ERecv 7]).
  destruct (ran (run (H := magicZstd) diskConfig exampleParams true (newProxy emptyStore) es)) as [p Hp];
    [vm_compute; reflexivity|].
  assert (Ho : (run (H := magicZstd) diskConfig exampleParams true (newProxy emptyStore) es ≫= fun p =>
                run (H := magicZstd) diskConfig exampleParams true p [EConsume 7] ≫= fun p' =>
                Some (bool_decide (px_phase p = Returned), px_batch p, waited p')) =
               Some (true, [getReq 1 #"a1"], true)) by (vm_compute; reflexivity).
  rewrite Hp in Ho. cbn [mbind option_bind] in Ho.
  destruct (run (H := magicZstd) diskConfig exampleParams true p [EConsume 7]) as [p'|] eqn:Hp'; [|cbn in Ho; discriminate Ho].
  cbn [mbind option_bind] in Ho. injection Ho as Hr Hb Hw. apply bool_decide_eq_true in Hr.
  exists p, p'. split; [exact Hp|]. split; [exact Hp'|]. split; [exact Hw|].
  apply (close_drops_collected_batch (H := magicZstd) diskConfig exampleParams true emptyStore es [EConsume 7] p p'
    (getReq 1 #"a1")); try assumption.
  - apply polite_runb_ok. vm_compute. reflexivity.
  - split; [exact I|]. intros q _. exact I.
  - apply (bool_decide_unpack _). vm_compute. exact I.
  - rewrite Hb. apply list_elem_of_here.
Defined.
