(* ===== verification/Shim.v ===== *)
(** The shim daemon of src/internal/local/shim.go: one proxy (Proxy.v) served to
    the sessions of many go commands.  Gets are renumbered, the responses of the
    proxy are dispatched back to the session and the id they came from, and both
    are shown to meet: every session gets its own answers, each once. *)
From S2P Require Import Prelude.
From S2P Require Import GoStrings.
From S2P Require Import RecordPool.
From S2P Require Import Wire.
From S2P Require Import CacheWire.
From S2P Require Import LocalStore.
From S2P Require Import LocalServe.
From S2P Require Import Proxy.
From S2P Require Import ProxyServe.
From Stdlib Require Import Relations Wellfounded.

(** ** State *)

Record shimHello := mkHello {
  sh_AuthToken : bytes;
  sh_Stop : bool;
}.

(** Where the goroutine of a connection is: reading the next envelope, in the
    call of [Lookup] for a renumbered get, returned. *)
Inductive SessionPhase := Serving | Forwarding (req : Request) | Ended.

(** A session: what was written to its connection, and whether a write failed. *)
Record shimSession := mkSession {
  ss_phase : SessionPhase;
  ss_out : list Response;
  ss_lost : bool;
}.

(** The session and the original id of a get that waits. *)
Record shimPending := mkPending {
  pn_session : nat;
  pn_originalID : Z;
}.

Record ShimServer := mkShim {
  sv_authToken : bytes;
  sv_proxy : Proxy;
  sv_nextID : Z;
  sv_waiters : gmap Z shimPending;
  sv_sessions : list shimSession;
  sv_taken : nat;
  sv_stopReq : bool;
}.

Definition set_proxy (s : ShimServer) (p : Proxy) : ShimServer :=
  mkShim (sv_authToken s) p (sv_nextID s) (sv_waiters s) (sv_sessions s) (sv_taken s) (sv_stopReq s).
Definition set_nextID (s : ShimServer) (n : Z) : ShimServer :=
  mkShim (sv_authToken s) (sv_proxy s) n (sv_waiters s) (sv_sessions s) (sv_taken s) (sv_stopReq s).
Definition set_waiters (s : ShimServer) (w : gmap Z shimPending) : ShimServer :=
  mkShim (sv_authToken s) (sv_proxy s) (sv_nextID s) w (sv_sessions s) (sv_taken s) (sv_stopReq s).
Definition set_sessions (s : ShimServer) (l : list shimSession) : ShimServer :=
  mkShim (sv_authToken s) (sv_proxy s) (sv_nextID s) (sv_waiters s) l (sv_taken s) (sv_stopReq s).
Definition set_taken (s : ShimServer) (n : nat) : ShimServer :=
  mkShim (sv_authToken s) (sv_proxy s) (sv_nextID s) (sv_waiters s) (sv_sessions s) n (sv_stopReq s).
Definition set_stopReq (s : ShimServer) (b : bool) : ShimServer :=
  mkShim (sv_authToken s) (sv_proxy s) (sv_nextID s) (sv_waiters s) (sv_sessions s) (sv_taken s) b.

Definition NewShimServer (proxy : Proxy) (authToken : bytes) : ShimServer :=
  mkShim authToken proxy 0 ∅ [] 0 false.

Definition set_ID (req : Request) (id : Z) : Request :=
  mkRequest id (rq_Command req) (rq_ActionID req) (rq_OutputID req) (rq_BodySize req) (rq_Body req).

(** [SessionsSeen] and the count of active sessions. *)
Definition SessionsSeen (s : ShimServer) : Z := Z.of_nat (length (sv_sessions s)).
Definition is_active (x : shimSession) : bool := match ss_phase x with Ended => false | _ => true end.
Definition activeSessions (s : ShimServer) : Z :=
  Z.of_nat (length (filter (fun x => is_active x = true) (sv_sessions s))).

(** ** Sessions *)

Definition on_session (s : ShimServer) (i : nat) (f : shimSession -> shimSession) : ShimServer :=
  set_sessions s (alter f i (sv_sessions s)).

Definition in_phase (ph : SessionPhase) (x : shimSession) : shimSession := mkSession ph (ss_out x) (ss_lost x).

(** [writeResponse]: the response is on the connection, or the write failed. *)
Definition writeResponse (rs : Response) (wrote : bool) (x : shimSession) : shimSession :=
  if wrote then mkSession (ss_phase x) (ss_out x ++ [rs]) (ss_lost x)
  else mkSession (ss_phase x) (ss_out x) true.

Definition dropSessionWaiters (s : ShimServer) (i : nat) : ShimServer :=
  set_waiters s (filter (fun kv => pn_session kv.2 <> i) (sv_waiters s)).

(** A return of [serveConn]. *)
Definition endSession (s : ShimServer) (i : nat) : ShimServer :=
  on_session (dropSessionWaiters s i) i (in_phase Ended).

Section shim.
Context `{Zstd} (cf : Config) (pp : ProxyParams) (up : bool).

(** The head of [serveConn]: the hello, the token, a stop request, the wait for the
    daemon to be [ready].  A stop request while another one waits in the channel is
    answered with an error, after which the second close of its channel panics. *)
Definition serveHello (s : ShimServer) (h : shimHello) (ready : bool) : ShimServer * option goerr :=
  if negb (bool_decide (sv_authToken s = [])) && negb (bool_decide (TrimSpace (sh_AuthToken h) = sv_authToken s)) then
    (s, Some (EMsg "invalid auth"))
  else if sh_Stop h then
    if sv_stopReq s then (s, Some (EPanic "close of closed channel")) else (set_stopReq s true, None)
  else (set_sessions s (sv_sessions s ++ [mkSession (if ready then Serving else Ended) [] false]), None).

(** One envelope of the loop of [serveConn]; [None]: the call blocks. *)
Definition serveEnvelope (s : ShimServer) (i : nat) (req : Request) (body : bytes) (a : putArgs)
    (wrote : bool) : option ShimServer :=
  match ss_phase <$> sv_sessions s !! i with
  | Some Serving =>
      let internalID := sv_nextID s + 1 in
      match rq_Command req with
      | CmdGet =>
          let s := set_nextID s internalID in
          let s := set_waiters s (<[internalID := mkPending i (rq_ID req)]> (sv_waiters s)) in
          Some (on_session s i (in_phase (Forwarding (set_ID req internalID))))
      | CmdPut =>
          let s := set_nextID s internalID in
          if px_panicked (sv_proxy s) then None
          else match Put cf up (sv_proxy s) (set_ID req internalID) body a with
          | None => None
          | Some (p, resp) =>
              let s := set_proxy s p in
              let s := on_session s i (writeResponse (with_ID resp (rq_ID req)) wrote) in
              Some (if wrote then s else endSession s i)
          end
      | CmdClose | CmdOther _ => Some (endSession s i)
      end
  | _ => None
  end.

(** The call of [Lookup] for a get. *)
Definition serveForward (s : ShimServer) (i : nat) (now : Z) (total : option Z) : option ShimServer :=
  match ss_phase <$> sv_sessions s !! i with
  | Some (Forwarding req) =>
      match step cf pp up (sv_proxy s) (ELookup req now total) with
      | Some p => Some (on_session (set_proxy s p) i (in_phase Serving))
      | None => None
      end
  | _ => None
  end.

(** The connection gives no more envelopes. *)
Definition serveBroken (s : ShimServer) (i : nat) : option ShimServer :=
  match ss_phase <$> sv_sessions s !! i with
  | Some Serving => Some (endSession s i)
  | _ => None
  end.

(** [dispatchResponses], on the next response of the proxy. *)
Definition dispatchResponse (s : ShimServer) (wrote : bool) : option ShimServer :=
  match px_resps (sv_proxy s) !! sv_taken s with
  | None => None
  | Some resp =>
      let s := set_taken s (S (sv_taken s)) in
      match sv_waiters s !! rs_ID resp with
      | None => Some s
      | Some w =>
          let s := set_waiters s (delete (rs_ID resp) (sv_waiters s)) in
          Some (on_session s (pn_session w) (writeResponse (with_ID resp (pn_originalID w)) wrote))
      end
  end.

Inductive SEvent :=
  | SHello (h : shimHello) (ready : bool)
  | SEnvelope (i : nat) (req : Request) (body : bytes) (a : putArgs) (wrote : bool)
  | SForward (i : nat) (now : Z) (total : option Z)
  | SBroken (i : nat)
  | SDispatch (wrote : bool)
  | SProxy (e : Event)
  | STake.

Definition shim_step (s : ShimServer) (e : SEvent) : option ShimServer :=
  match e with
  | SHello h ready =>
      match serveHello s h ready with
      | (_, Some (EPanic _)) => None
      | (s, _) => Some s
      end
  | SEnvelope i req body a wrote => serveEnvelope s i req body a wrote
  | SForward i now total => serveForward s i now total
  | SBroken i => serveBroken s i
  | SDispatch wrote => dispatchResponse s wrote
  | SProxy e =>
      match e with
      | ELookup _ _ _ | EPut _ _ _ => None
      | _ => match step cf pp up (sv_proxy s) e with Some p => Some (set_proxy s p) | None => None end
      end
  | STake => if sv_stopReq s then Some (set_stopReq s false) else None
  end.

Fixpoint shim_run (s : ShimServer) (es : list SEvent) : option ShimServer :=
  match es with
  | [] => Some s
  | e :: es => match shim_step s e with Some s => shim_run s es | None => None end
  end.
End shim.

(** ** What a session is owed *)

(** The ids, of the proxy, of the gets that have no response on a connection yet. *)
Definition forwarding (s : ShimServer) : list Z :=
  omap (fun x => match ss_phase x with Forwarding r => Some (rq_ID r) | _ => None end) (sv_sessions s).
Definition undispatched (s : ShimServer) : list Z := drop (sv_taken s) (answered (sv_proxy s)).
Definition flight (s : ShimServer) : list Z :=
  map rq_ID (pending (sv_proxy s)) ++ undispatched s ++ forwarding s.

(** The original ids of the gets of a session that wait. *)
Definition waiting_of (i : nat) (kv : Z * shimPending) : option Z :=
  if decide (pn_session kv.2 = i) then Some (pn_originalID kv.2) else None.
Definition waiting (w : gmap Z shimPending) (i : nat) : list Z := omap (waiting_of i) (map_to_list w).

(** The ids a session asked for. *)
Definition asked_by (i : nat) (e : SEvent) : list Z :=
  match e with
  | SEnvelope j req _ _ _ =>
      if decide (j = i) then match rq_Command req with CmdGet | CmdPut => [rq_ID req] | _ => [] end else []
  | _ => []
  end.

(** What is written and what waits was asked for; while the session is served and
    every write succeeded, it is everything that was asked for. *)
Definition account (x : shimSession) (wait asked : list Z) : Prop :=
  (map rs_ID (ss_out x) ++ wait) ⊆+ asked /\
  (ss_phase x <> Ended -> ss_lost x = false -> (map rs_ID (ss_out x) ++ wait) ≡ₚ asked).

Definition polite_shim (s : ShimServer) (e : SEvent) : Prop :=
  match e with SProxy e => polite (sv_proxy s) e | _ => True end.

Fixpoint polite_shim_run `{Zstd} (cf : Config) (pp : ProxyParams) (up : bool) (s : ShimServer) (es : list SEvent) : Prop :=
  match es with
  | [] => True
  | e :: es => polite_shim s e /\ forall s', shim_step cf pp up s e = Some s' -> polite_shim_run cf pp up s' es
  end.

Record shim_ok (up : bool) (s : ShimServer) (asked : nat -> list Z) : Prop := {
  so_proxy : exists ids, proxy_ok up (sv_proxy s) ids;
  so_next : 0 <= sv_nextID s;
  so_flight : Forall (fun id => 0 < id <= sv_nextID s) (flight s);
  so_taken : (sv_taken s <= length (px_resps (sv_proxy s)))%nat;
  so_waiters id w : sv_waiters s !! id = Some w ->
    id ∈ flight s /\ exists x, sv_sessions s !! pn_session w = Some x /\ ss_phase x <> Ended;
  so_account i x : sv_sessions s !! i = Some x -> account x (waiting (sv_waiters s) i) (asked i);
  so_new i : (length (sv_sessions s) <= i)%nat -> asked i = [];
}.

Lemma waiting_insert w id p i :
  w !! id = None -> waiting (<[id := p]> w) i ≡ₚ option_list (waiting_of i (id, p)) ++ waiting w i.
Proof.
  intros Hid. unfold waiting. rewrite (map_to_list_insert w id p Hid). cbn [omap list_omap].
  destruct (waiting_of i (id, p)); done.
Qed.

Lemma waiting_delete w id p i :
  w !! id = Some p -> waiting w i ≡ₚ option_list (waiting_of i (id, p)) ++ waiting (delete id w) i.
Proof.
  intros Hid. rewrite <-(insert_delete_id w id p Hid) at 1. apply waiting_insert, lookup_delete_eq.
Qed.

Lemma elem_of_waiting w i o : o ∈ waiting w i <-> exists id p, w !! id = Some p /\ pn_session p = i /\ pn_originalID p = o.
Proof.
  unfold waiting. rewrite list_elem_of_omap. split.
  - intros ([id p] & Hin%elem_of_map_to_list & Hw). unfold waiting_of in Hw. simpl in Hw.
    destruct (decide _); [|done]. injection Hw as Hw. by exists id, p.
  - intros (id & p & Hid & Hs & Ho). exists (id, p). split; [by apply elem_of_map_to_list|].
    unfold waiting_of. simpl. rewrite decide_True by done. by rewrite Ho.
Qed.

Lemma waiting_none w i : (forall id p, w !! id = Some p -> pn_session p <> i) -> waiting w i = [].
Proof.
  intros Hw. destruct (waiting w i) as [|o l] eqn:E; [done|].
  assert (Ho : o ∈ waiting w i) by (rewrite E; apply list_elem_of_here).
  apply elem_of_waiting in Ho as (id & p & Hid & Hs & _). by destruct (Hw id p Hid).
Qed.

Lemma waiting_drop_self w i : waiting (filter (fun kv : Z * shimPending => pn_session kv.2 <> i) w) i = [].
Proof. apply waiting_none. intros id p [_ Hn]%map_lookup_filter_Some. done. Qed.

Lemma waiting_drop_other w i j :
  i <> j -> waiting (filter (fun kv : Z * shimPending => pn_session kv.2 <> i) w) j ≡ₚ waiting w j.
Proof.
  intros Hij. induction w as [|id p w Hid IH] using map_ind; [done|].
  rewrite (waiting_insert w id p j Hid), <-IH. clear IH.
  destruct (decide (pn_session p = i)) as [Hp|Hp].
  - rewrite map_filter_insert_False by (simpl; tauto). unfold waiting_of. simpl.
    rewrite decide_False by congruence. simpl. rewrite delete_id by done. done.
  - rewrite map_filter_insert_True by done. apply waiting_insert.
    apply map_lookup_filter_None. left. done.
Qed.

(** ** Steps of the shim *)

Lemma omap_alter {A B} (f : A -> option B) (g : A -> A) (l : list A) i x :
  l !! i = Some x -> omap f (alter g i l) ++ option_list (f x) ≡ₚ omap f l ++ option_list (f (g x)).
Proof.
  revert i. induction l as [|y l IH]; intros [|i] Hi; simplify_eq/=.
  - destruct (f x) as [b|], (f (g x)) as [c|]; simpl; solve_Permutation.
  - specialize (IH i Hi). destruct (f y); simpl; by rewrite IH.
Qed.

Section steps.
Context `{Zstd} (cf : Config) (pp : ProxyParams) (up : bool).

Lemma step_resps p e p' : step cf pp up p e = Some p' -> exists new, px_resps p' = px_resps p ++ new.
Proof.
  unfold step. destruct (px_panicked p); [done|].
  assert (Hh : forall q a, px_resps (recordHitKind q a) = px_resps q).
  { intros q a. unfold recordHitKind. by case_bool_decide. }
  assert (Hsame : exists new, px_resps p = px_resps p ++ new) by (exists []; by rewrite app_nil_r).
  destruct e as [req now total|req body a|now| | |i items|i a|i order|now|]; simpl.
  - unfold Lookup. intros E.
    assert (Hr : px_resps (recordUsedActionID p (rq_ActionID req)) = px_resps p).
    { unfold recordUsedActionID. by case_bool_decide. }
    set (q := recordUsedActionID p _) in *. clearbody q. rewrite <-Hr in *.
    go_cases; rewrite ?Hh; simpl; eauto.
  - unfold Put. intros E. go_cases.
  - unfold resolveRecv. intros E. go_cases; rewrite ?Hh; simpl; eauto.
  - unfold resolveTick. intros E. go_cases.
  - unfold dispatchBatch. intros E. go_cases.
  - unfold batchAsk. intros E. go_cases.
  - unfold batchCallback. intros E. go_cases; eauto.
  - unfold batchFinish. intros E. go_cases; eauto.
  - unfold consumePut. intros E. go_cases.
  - intros E. go_cases.
Qed.

(** What a step of the proxy does to the gets in flight. *)
Lemma step_flow p e p' ids t :
  proxy_ok up p ids -> polite p e -> step cf pp up p e = Some p' -> (t <= length (px_resps p))%nat ->
  map rq_ID (pending p') ++ drop t (answered p') ≡ₚ
    (map rq_ID (pending p) ++ drop t (answered p)) ++ asked_of e.
Proof.
  intros Hok Hp Hs Ht. assert (Hok' := step_ok cf pp up p ids e p' Hok Hp Hs).
  destruct (step_resps p e p' Hs) as [new Hnew].
  assert (H1 := pk_ids _ _ _ Hok). assert (H2 := pk_ids _ _ _ Hok'). unfold answered in *.
  rewrite Hnew, map_app in *. rewrite drop_app_le by (by rewrite length_map).
  rewrite <-H1 in H2. set (done := map rs_ID (px_resps p)) in *.
  apply (Permutation_app_inv_l (take t done)).
  trans (map rq_ID (pending p') ++ done ++ map rs_ID new).
  - rewrite Permutation_app_swap_app. rewrite (app_assoc (take t done)). by rewrite take_drop.
  - rewrite H2, <-(take_drop t done) at 1. rewrite <-!app_assoc. apply Permutation_app_swap_app.
Qed.

Lemma lookup_alter_inv {A} (g : A -> A) i (l : list A) j y :
  alter g i l !! j = Some y -> exists x, l !! j = Some x /\ y = if decide (i = j) then g x else x.
Proof.
  destruct (decide (i = j)) as [->|Hij].
  - rewrite list_lookup_alter_eq. destruct (l !! j) as [x|]; simpl; [|done]. intros [= <-]. by exists x.
  - rewrite list_lookup_alter_ne by done. intros Hj. by exists y.
Qed.

(** A session whose goroutine is not in [Lookup], before and after. *)
Lemma forwarding_same g i (l : list shimSession) :
  (forall x, l !! i = Some x -> ss_phase (g x) = ss_phase x \/ (ss_phase x = Serving /\ ss_phase (g x) = Ended)) ->
  omap (fun x => match ss_phase x with Forwarding r => Some (rq_ID r) | _ => None end) (alter g i l) =
  omap (fun x => match ss_phase x with Forwarding r => Some (rq_ID r) | _ => None end) l.
Proof.
  revert i. induction l as [|y l IH]; intros [|i] Hg; simpl; [done..| |].
  - destruct (Hg y eq_refl) as [->|[-> ->]]; done.
  - specialize (IH i Hg). destruct (ss_phase y); [exact IH|f_equal; exact IH|exact IH].
Qed.

Lemma end_ok s asked i x :
  shim_ok up s asked -> sv_sessions s !! i = Some x -> ss_phase x = Serving -> shim_ok up (endSession s i) asked.
Proof.
  intros [Hp Hn Hf Ht Hw Ha Hnew] Hx Hph.
  assert (Efw : flight (endSession s i) = flight s).
  { unfold flight, forwarding. simpl. rewrite forwarding_same; [done|]. intros y. rewrite Hx. intros [= <-]. auto. }
  split; rewrite ?Efw; try done.
  - intros id w. simpl. intros [Hid Hne]%map_lookup_filter_Some. destruct (Hw id w Hid) as (Hin & y & Hy & Hact).
    split; [done|]. exists y. by rewrite list_lookup_alter_ne by (simpl in Hne; congruence).
  - intros j y. simpl. intros (z & Hz & ->)%lookup_alter_inv. destruct (Ha j z Hz) as [H1 H2].
    destruct (decide (i = j)) as [<-|Hij].
    + rewrite waiting_drop_self. split; simpl; [|done]. rewrite app_nil_r.
      etrans; [|exact H1]. by apply submseteq_inserts_r.
    + unfold account. rewrite (waiting_drop_other _ i j Hij). by split.
  - simpl. intros j. rewrite length_alter. apply Hnew.
Qed.

(** Something written to a session for an id that was asked for and does not wait. *)
Lemma written_account x rs wrote wait asked o :
  rs_ID rs = o -> account x (o :: wait) asked -> account (writeResponse rs wrote x) wait asked.
Proof.
  intros Ho [H1 H2]. unfold writeResponse. destruct wrote; split; simpl.
  - rewrite map_app. simpl. rewrite Ho, <-app_assoc. done.
  - intros Hph Hl. rewrite map_app. simpl. rewrite Ho, <-app_assoc. by apply H2.
  - etrans; [|exact H1]. rewrite <-Permutation_middle. by apply submseteq_cons.
  - done.
Qed.

Lemma written_phase rs wrote x : ss_phase (writeResponse rs wrote x) = ss_phase x.
Proof. by destruct wrote. Qed.

Lemma account_ext x wait wait' asked asked' :
  wait ≡ₚ wait' -> asked ≡ₚ asked' -> account x wait asked -> account x wait' asked'.
Proof. intros E1 E2. unfold account. by rewrite E1, E2. Qed.

Lemma hello_ok s asked h ready : shim_ok up s asked -> shim_ok up (fst (serveHello s h ready)) asked.
Proof.
  intros Hok. unfold serveHello. destruct (_ && _); [done|]. destruct (sh_Stop h).
  { destruct (sv_stopReq s); [done|]. destruct Hok. by split. }
  destruct Hok as [Hp Hn Hf Ht Hw Ha Hnew].
  assert (Efw : flight (set_sessions s (sv_sessions s ++ [mkSession (if ready then Serving else Ended) [] false])) = flight s).
  { unfold flight, forwarding. simpl. rewrite omap_app. destruct ready; simpl; by rewrite app_nil_r. }
  split; simpl; rewrite ?Efw; try done.
  - intros id w Hid. destruct (Hw id w Hid) as (? & x & Hx & Hact). split; [done|].
    exists x. split; [by apply lookup_app_l_Some|done].
  - intros i x Hi. apply lookup_snoc_Some in Hi as [[_ Hx]|[-> <-]]; [by apply Ha|].
    rewrite (Hnew (length (sv_sessions s)) (le_n _)), waiting_none; [by split|].
    intros id w Hid E. destruct (Hw id w Hid) as (_ & x & Hx & _). rewrite E in Hx.
    apply lookup_lt_Some in Hx. lia.
  - intros i. rewrite length_app. simpl. intros Hi. apply Hnew. lia.
Qed.

(** More is asked of a session. *)
Definition more (asked : nat -> list Z) (i : nat) (o : Z) (j : nat) : list Z :=
  asked j ++ if decide (i = j) then [o] else [].

Lemma put_ok s asked i x req body a wrote p resp :
  shim_ok up s asked -> sv_sessions s !! i = Some x -> ss_phase x = Serving -> px_panicked (sv_proxy s) = false ->
  Put cf up (sv_proxy s) (set_ID req (sv_nextID s + 1)) body a = Some (p, resp) ->
  shim_ok up (on_session (set_proxy (set_nextID s (sv_nextID s + 1)) p) i
                (writeResponse (with_ID resp (rq_ID req)) wrote)) (more asked i (rq_ID req)).
Proof.
  intros [[ids Hp] Hn Hf Ht Hw Ha Hnew] Hx Hph Hc E. assert (Hsame := put_same _ _ _ _ _ _ _ _ E).
  assert (Hp' := ok_same up (sv_proxy s) p ids Hsame Hp). destruct Hsame as (E1 & E2 & E3 & _ & _ & E6).
  assert (Efw : flight (on_session (set_proxy (set_nextID s (sv_nextID s + 1)) p) i
                (writeResponse (with_ID resp (rq_ID req)) wrote)) = flight s).
  { unfold flight, forwarding, undispatched, pending, answered. simpl. rewrite <-E1, <-E2, <-E3, <-E6, forwarding_same; [done|].
    intros y _. left. apply written_phase. }
  split; rewrite ?Efw; simpl; rewrite <-?E6; try done.
  - by exists ids.
  - lia.
  - eapply Forall_impl; [exact Hf|]. simpl. lia.
  - intros id w Hid. destruct (Hw id w Hid) as (? & y & Hy & Hact). split; [done|].
    destruct (decide (i = pn_session w)) as [Ei|Hne].
    + rewrite Ei, list_lookup_alter_eq, Hy. simpl. eexists. split; [done|]. by rewrite written_phase.
    + exists y. by rewrite list_lookup_alter_ne.
  - intros j y (z & Hz & ->)%lookup_alter_inv. specialize (Ha j z Hz). unfold more.
    destruct (decide (i = j)) as [<-|Hij]; [|by rewrite app_nil_r].
    apply (written_account _ _ _ _ _ (rq_ID req)); [done|]. destruct Ha as [H1 H2].
    split; [|intros H3 H4; specialize (H2 H3 H4)].
    + rewrite <-Permutation_middle, <-Permutation_cons_append. by apply submseteq_skip.
    + by rewrite <-Permutation_middle, <-Permutation_cons_append, H2.
  - intros j. rewrite length_alter. intros Hj. unfold more. rewrite (Hnew j Hj). rewrite decide_False; [done|].
    apply lookup_lt_Some in Hx. lia.
Qed.

Lemma get_step_ok s asked i x req :
  shim_ok up s asked -> sv_sessions s !! i = Some x -> ss_phase x = Serving ->
  shim_ok up (on_session (set_waiters (set_nextID s (sv_nextID s + 1))
                 (<[sv_nextID s + 1 := mkPending i (rq_ID req)]> (sv_waiters s))) i
                (in_phase (Forwarding (set_ID req (sv_nextID s + 1))))) (more asked i (rq_ID req)).
Proof.
  intros [Hp Hn Hf Ht Hw Ha Hnew] Hx Hph. set (id := sv_nextID s + 1). set (s' := on_session _ _ _).
  assert (Hfresh : sv_waiters s !! id = None).
  { destruct (sv_waiters s !! id) as [w|] eqn:E; [|done]. destruct (Hw id w E) as [Hin _].
    rewrite Forall_forall in Hf. specialize (Hf id Hin). subst id. simpl in Hf. lia. }
  assert (Efw : flight s' ≡ₚ id :: flight s).
  { unfold flight, forwarding, undispatched. simpl. rewrite !app_assoc, Permutation_middle.
    apply Permutation_app_head. rewrite Permutation_cons_append.
    assert (E := omap_alter (fun x => match ss_phase x with Forwarding r => Some (rq_ID r) | _ => None end)
      (in_phase (Forwarding (set_ID req id))) (sv_sessions s) i x Hx).
    simpl in E. rewrite Hph in E. simpl in E. rewrite app_nil_r in E. exact E. }
  split; try done.
  - simpl. subst id. lia.
  - rewrite Efw. apply Forall_cons. split; [simpl; subst id; lia|]. eapply Forall_impl; [exact Hf|]. simpl. lia.
  - intros k w. simpl. rewrite Efw. intros [[<- <-]|[_ Hid]]%lookup_insert_Some.
    + split; [apply list_elem_of_here|]. simpl. rewrite list_lookup_alter_eq, Hx. simpl. by eexists.
    + destruct (Hw k w Hid) as (? & y & Hy & Hact). split; [by apply list_elem_of_further|].
      destruct (decide (i = pn_session w)) as [Ei|Hne].
      * rewrite Ei, list_lookup_alter_eq, Hy. simpl. by eexists.
      * exists y. by rewrite list_lookup_alter_ne.
  - intros j y. simpl. intros (z & Hz & ->)%lookup_alter_inv. specialize (Ha j z Hz). unfold more, account in *.
    rewrite (waiting_insert (sv_waiters s) id _ j Hfresh). unfold waiting_of. simpl.
    destruct (decide (i = j)) as [<-|Hij]; simpl; [|by rewrite app_nil_r].
    assert (z = x) as -> by congruence. rewrite Hph in Ha. destruct Ha as [H1 H2].
    split; [|intros _ H4]; rewrite <-Permutation_middle, <-Permutation_cons_append.
    + by apply submseteq_skip.
    + by rewrite H2.
  - intros j. simpl. rewrite length_alter. intros Hj. unfold more. rewrite (Hnew j Hj), decide_False; [done|].
    apply lookup_lt_Some in Hx. lia.
Qed.

(** Steps that move gets in flight and leave the sessions' accounts alone. *)
Lemma moved_ok s s' asked :
  shim_ok up s asked -> (exists ids, proxy_ok up (sv_proxy s') ids) -> sv_nextID s' = sv_nextID s ->
  flight s' ≡ₚ flight s -> (sv_taken s' <= length (px_resps (sv_proxy s')))%nat -> sv_waiters s' = sv_waiters s ->
  (forall i, (sv_sessions s' !! i = sv_sessions s !! i) \/
     exists x y, sv_sessions s !! i = Some x /\ sv_sessions s' !! i = Some y /\ ss_phase x <> Ended /\ ss_phase y <> Ended /\
       ss_out y = ss_out x /\ ss_lost y = ss_lost x) ->
  length (sv_sessions s') = length (sv_sessions s) -> shim_ok up s' asked.
Proof.
  intros [Hp Hn Hf Ht Hw Ha Hnew] Hp' E1 E2 E3 E4 Hs El. split; rewrite ?E1, ?E4, ?El; try done.
  - by rewrite E2.
  - intros id w Hid. rewrite E2. destruct (Hw id w Hid) as (? & x & Hx & Hact). split; [done|].
    destruct (Hs (pn_session w)) as [->|(x' & y & _ & Hy & _ & Hact' & _)]; [by exists x|by exists y].
  - intros i y Hy. destruct (Hs i) as [E|(x & y' & Hx & Hy' & Hax & Hay & Eo & Elost)]; [apply Ha; congruence|].
    assert (y' = y) as -> by congruence. destruct (Ha i x Hx) as [H1 H2]. unfold account. rewrite Eo, Elost.
    split; [done|]. intros _. by apply H2.
Qed.

Lemma forward_ok s asked i now total s' :
  shim_ok up s asked -> serveForward cf pp up s i now total = Some s' -> shim_ok up s' asked.
Proof.
  intros Hok. unfold serveForward. destruct (sv_sessions s !! i) as [x|] eqn:Hx; [|done]. simpl.
  destruct (ss_phase x) as [|req|] eqn:Hph; [done| |done]. destruct (step _ _ _ _ _) as [p|] eqn:E; [|done].
  intros [= <-]. destruct (so_proxy _ _ _ Hok) as [ids Hp].
  assert (Hid : rq_ID req <> 0).
  { assert (Hf := so_flight _ _ _ Hok). rewrite Forall_forall in Hf. specialize (Hf (rq_ID req)).
    assert (Hin : rq_ID req ∈ flight s); [|specialize (Hf Hin); simpl in Hf; lia].
    unfold flight. rewrite !elem_of_app. right. right. unfold forwarding. apply list_elem_of_omap. exists x.
    split; [by apply list_elem_of_lookup_2 in Hx|by rewrite Hph]. }
  assert (Hfl := step_flow (sv_proxy s) (ELookup req now total) p ids (sv_taken s) Hp Hid E (so_taken _ _ _ Hok)).
  destruct (step_resps _ _ _ E) as [new Hnew].
  apply (moved_ok s); try done.
  - eexists. by apply (step_ok cf pp up (sv_proxy s) ids (ELookup req now total)).
  - unfold flight, forwarding, undispatched. simpl. rewrite !app_assoc, Hfl, <-!app_assoc.
    apply Permutation_app_head, Permutation_app_head.
    assert (Eo := omap_alter (fun x => match ss_phase x with Forwarding r => Some (rq_ID r) | _ => None end)
      (in_phase Serving) (sv_sessions s) i x Hx).
    simpl in Eo. rewrite Hph in Eo. simpl in Eo. rewrite app_nil_r in Eo. rewrite <-Eo. apply Permutation_cons_append.
  - simpl. rewrite Hnew, length_app. assert (Ht := so_taken _ _ _ Hok). lia.
  - intros j. simpl. destruct (decide (i = j)) as [<-|Hij]; [|left; by rewrite list_lookup_alter_ne].
    right. exists x, (in_phase Serving x). rewrite list_lookup_alter_eq, Hx, Hph. by split_and!.
  - simpl. by rewrite length_alter.
Qed.

Lemma proxy_step_ok s asked e p :
  shim_ok up s asked -> polite (sv_proxy s) e -> asked_of e = [] -> step cf pp up (sv_proxy s) e = Some p ->
  shim_ok up (set_proxy s p) asked.
Proof.
  intros Hok He Hno E. destruct (so_proxy _ _ _ Hok) as [ids Hp].
  assert (Hfl := step_flow (sv_proxy s) e p ids (sv_taken s) Hp He E (so_taken _ _ _ Hok)).
  destruct (step_resps _ _ _ E) as [new Hnew]. rewrite Hno, app_nil_r in Hfl.
  apply (moved_ok s); try done.
  - eexists. by apply (step_ok cf pp up (sv_proxy s) ids e).
  - unfold flight, forwarding, undispatched. simpl. by rewrite !app_assoc, Hfl.
  - simpl. rewrite Hnew, length_app. assert (Ht := so_taken _ _ _ Hok). lia.
  - intros j. by left.
Qed.

Lemma dispatch_ok s asked wrote s' :
  shim_ok up s asked -> dispatchResponse s wrote = Some s' -> shim_ok up s' asked.
Proof.
  intros [Hp Hn Hf Ht Hw Ha Hnew]. unfold dispatchResponse.
  destruct (px_resps (sv_proxy s) !! sv_taken s) as [rs|] eqn:Er; [|done].
  assert (Hun : undispatched s = rs_ID rs :: drop (S (sv_taken s)) (answered (sv_proxy s))).
  { unfold undispatched. apply drop_S. unfold answered. by rewrite list_lookup_fmap, Er. }
  assert (Hfl : forall w l, omap (fun x => match ss_phase x with Forwarding r => Some (rq_ID r) | _ => None end) l =
      omap (fun x => match ss_phase x with Forwarding r => Some (rq_ID r) | _ => None end) (sv_sessions s) ->
      flight s ≡ₚ rs_ID rs :: flight (set_sessions (set_waiters (set_taken s (S (sv_taken s))) w) l)).
  { intros w l Hl. unfold flight. rewrite Hun. unfold forwarding, undispatched. simpl.
    rewrite Hl. symmetry. apply Permutation_middle. }
  apply lookup_lt_Some in Er.
  cbn [sv_waiters set_taken]. destruct (sv_waiters s !! rs_ID rs) as [w|] eqn:Ew; intros [= <-].
  - set (l := alter (writeResponse (with_ID rs (pn_originalID w)) wrote) (pn_session w) (sv_sessions s)).
    assert (Hl : omap (fun x => match ss_phase x with Forwarding r => Some (rq_ID r) | _ => None end) l =
      omap (fun x => match ss_phase x with Forwarding r => Some (rq_ID r) | _ => None end) (sv_sessions s)).
    { apply forwarding_same. intros y _. left. apply written_phase. }
    specialize (Hfl (delete (rs_ID rs) (sv_waiters s)) l Hl).
    set (s' := set_sessions _ _) in Hfl. change (shim_ok up s' asked).
    split; try done.
    + rewrite Hfl in Hf. by apply Forall_cons in Hf as [_ ?].
    + intros id v. simpl. intros [Hne Hid]%lookup_delete_Some. destruct (Hw id v Hid) as (Hin & y & Hy & Hact).
      rewrite Hfl in Hin. apply elem_of_cons in Hin as [->|Hin]; [done|]. split; [done|]. unfold l.
      destruct (decide (pn_session w = pn_session v)) as [Ei|Hne'].
      * rewrite Ei, list_lookup_alter_eq, Hy. simpl. eexists. split; [done|]. by rewrite written_phase.
      * exists y. by rewrite list_lookup_alter_ne.
    + intros j y. simpl. unfold l. intros (z & Hz & ->)%lookup_alter_inv. specialize (Ha j z Hz).
      apply (account_ext z _ _ _ _ (waiting_delete _ _ w j Ew) (Permutation_refl _)) in Ha.
      unfold waiting_of in Ha. simpl in Ha. destruct (decide (pn_session w = j)) as [<-|Hne]; [|done].
      by apply (written_account _ _ _ _ _ (pn_originalID w)).
    + intros j. simpl. unfold l. rewrite length_alter. apply Hnew.
  - specialize (Hfl (sv_waiters s) (sv_sessions s) eq_refl).
    set (s' := set_sessions _ _) in Hfl. change (shim_ok up s' asked). split; try done.
    + rewrite Hfl in Hf. by apply Forall_cons in Hf as [_ ?].
    + intros id v Hid. simpl in Hid. destruct (Hw id v Hid) as (Hin & Hx). split; [|done].
      rewrite Hfl in Hin. apply elem_of_cons in Hin as [->|Hin]; [congruence|done].
Qed.

Lemma ok_ext s (asked asked' : nat -> list Z) :
  (forall j, asked j = asked' j) -> shim_ok up s asked -> shim_ok up s asked'.
Proof.
  intros E [Hp Hn Hf Ht Hw Ha Hnew]. split; try done.
  - intros i x Hx. rewrite <-E. by apply Ha.
  - intros i Hi. rewrite <-E. by apply Hnew.
Qed.

Lemma envelope_ok s asked i req body a wrote s' :
  shim_ok up s asked -> serveEnvelope cf up s i req body a wrote = Some s' ->
  shim_ok up s' (fun j => asked j ++ asked_by j (SEnvelope i req body a wrote)).
Proof.
  intros Hok. unfold serveEnvelope. destruct (sv_sessions s !! i) as [x|] eqn:Hx; [|done]. cbn [fmap option_fmap option_map].
  destruct (ss_phase x) eqn:Hph; [|done..].
  assert (Hmore : forall t, (match rq_Command req with CmdGet | CmdPut => True | _ => False end) ->
    shim_ok up t (more asked i (rq_ID req)) -> shim_ok up t (fun j => asked j ++ asked_by j (SEnvelope i req body a wrote))).
  { intros t Hc. apply ok_ext. intros j. unfold more. simpl. by destruct (decide (i = j)), (rq_Command req). }
  assert (Hnone : forall t, (match rq_Command req with CmdGet | CmdPut => False | _ => True end) ->
    shim_ok up t asked -> shim_ok up t (fun j => asked j ++ asked_by j (SEnvelope i req body a wrote))).
  { intros t Hc. apply ok_ext. intros j. simpl.
    destruct (decide (i = j)), (rq_Command req); by rewrite ?app_nil_r. }
  destruct (rq_Command req) eqn:Ec.
  - cbn [sv_proxy set_nextID]. destruct (px_panicked (sv_proxy s)) eqn:Ep; [done|].
    destruct (Put _ _ _ _ _ _) as [[p rs]|] eqn:E; [|done]. intros [= <-]. apply Hmore; [done|].
    assert (Hput := put_ok s asked i x req body a wrote p rs Hok Hx Hph Ep E).
    destruct wrote; [done|]. eapply (end_ok _ _ i); [exact Hput| |].
    + simpl. by rewrite list_lookup_alter_eq, Hx.
    + by rewrite written_phase.
  - intros [= <-]. apply Hmore; [done|]. by apply (get_step_ok s asked i x).
  - intros [= <-]. apply Hnone; [done|]. by apply (end_ok s asked i x).
  - intros [= <-]. apply Hnone; [done|]. by apply (end_ok s asked i x).
Qed.

Lemma shim_step_ok s asked e s' :
  shim_ok up s asked -> polite_shim s e -> shim_step cf pp up s e = Some s' ->
  shim_ok up s' (fun j => asked j ++ asked_by j e).
Proof.
  intros Hok He.
  assert (Hnone : (forall j, asked_by j e = []) -> shim_ok up s' asked ->
    shim_ok up s' (fun j => asked j ++ asked_by j e)).
  { intros E. apply ok_ext. intros j. by rewrite E, app_nil_r. }
  destruct e as [h ready|i req body a wrote|i now total|i|wrote|e|]; simpl.
  - assert (Hh := hello_ok s asked h ready Hok). destruct (serveHello s h ready) as [s1 r]. cbn [fst] in Hh.
    destruct r as [[]|]; try done; intros [= <-]; by apply Hnone.
  - by apply envelope_ok.
  - intros E. apply Hnone; [done|]. by apply (forward_ok s asked i now total).
  - unfold serveBroken. destruct (sv_sessions s !! i) as [x|] eqn:Hx; [|done]. simpl.
    destruct (ss_phase x) eqn:Hph; [|done..]. intros [= <-]. apply Hnone; [done|]. by apply (end_ok s asked i x).
  - intros E. apply Hnone; [done|]. by apply (dispatch_ok s asked wrote).
  - intros E. apply Hnone; [done|]. simpl in He.
    assert (Hx : exists p, step cf pp up (sv_proxy s) e = Some p /\ s' = set_proxy s p /\ asked_of e = []).
    { destruct e; try done; (destruct (step _ _ _ _ _) as [p|]; [|done]; injection E as <-; by exists p). }
    destruct Hx as (p & Hs & -> & Hno). by apply (proxy_step_ok s asked e p).
  - destruct (sv_stopReq s); [|done]. intros [= <-]. apply Hnone; [done|]. destruct Hok. by split.
Qed.

Lemma shim_ok_init d tok : shim_ok up (NewShimServer (newProxy d) tok) (fun _ => []).
Proof. split; try done. exists []. apply proxy_ok_init. Qed.

Lemma shim_run_ok s asked es s' :
  shim_ok up s asked -> polite_shim_run cf pp up s es -> shim_run cf pp up s es = Some s' ->
  shim_ok up s' (fun j => asked j ++ (es ≫= asked_by j)).
Proof.
  revert s asked. induction es as [|e es IH]; intros s asked Hok; simpl.
  { intros _ [= <-]. apply (ok_ext _ asked); [|done]. intros j. by rewrite app_nil_r. }
  intros [He Hes]. destruct (shim_step cf pp up s e) as [s1|] eqn:E; [|done]. intros Hr.
  apply (ok_ext _ (fun j => (asked j ++ asked_by j e) ++ (es ≫= asked_by j))).
  { intros j. by rewrite <-app_assoc. }
  apply (IH s1); [by apply (shim_step_ok s)|by apply Hes|done].
Qed.

(** C8: every session gets its own answers, each once.  However the connections,
    the proxy and the dispatcher are interleaved, the ids on the responses written to
    a session, with the ids of its gets that wait, are among the ids that session
    sent, no id more often than it was sent; while the session is served and no write
    to it failed they are exactly those.  No response of one session is written to
    another, although all share the proxy. *)
Theorem sessions_get_their_answers d tok es s i x
    (Hpolite : polite_shim_run cf pp up (NewShimServer (newProxy d) tok) es)
    (Hrun : shim_run cf pp up (NewShimServer (newProxy d) tok) es = Some s)
    (Hx : sv_sessions s !! i = Some x) :
  (map rs_ID (ss_out x) ++ waiting (sv_waiters s) i) ⊆+ (es ≫= asked_by i) /\
  (ss_phase x <> Ended -> ss_lost x = false ->
   (map rs_ID (ss_out x) ++ waiting (sv_waiters s) i) ≡ₚ (es ≫= asked_by i)).
Proof. exact (so_account _ _ _ (shim_run_ok _ _ es s (shim_ok_init d tok) Hpolite Hrun) i x Hx). Qed.

(** ** No session waits for ever *)

(** What the daemon does by itself while its connections take what it writes. *)
Definition shim_internal (e : SEvent) : bool :=
  match e with SForward _ _ _ | SDispatch true => true | SProxy e => internal e | _ => false end.

(** The steps of the daemon lead down this order. *)
Definition less_left (s' s : ShimServer) : Prop :=
  (length (forwarding s') < length (forwarding s))%nat \/
  length (forwarding s') = length (forwarding s) /\
  ((work (sv_proxy s') < work (sv_proxy s))%nat \/
   work (sv_proxy s') = work (sv_proxy s) /\ (length (undispatched s') < length (undispatched s))%nat).

Lemma less_left_wf : well_founded less_left.
Proof.
  apply (wf_projected (slexprod nat (nat * nat) lt (slexprod nat nat lt lt))
    (fun s => (length (forwarding s), (work (sv_proxy s), length (undispatched s))))).
  - intros s' s [H1|[E [H2|[E2 H3]]]].
    + by apply left_slex.
    + rewrite E. by apply right_slex, left_slex.
    + rewrite E, E2. by apply right_slex, right_slex.
  - apply wf_slexprod; [apply lt_wf|]. apply wf_slexprod; apply lt_wf.
Qed.

Lemma internal_step_down s asked e s' :
  shim_ok up s asked -> px_closed (sv_proxy s) = false -> polite_shim s e -> shim_internal e = true -> shim_step cf pp up s e = Some s' -> less_left s' s.
Proof.
  intros Hok Hcl He Hi. destruct e as [h ready|i req body a wrote|i now total|i|wrote|e|]; try done; simpl.
  - unfold serveForward. destruct (sv_sessions s !! i) as [x|] eqn:Hx; [|done]. simpl.
    destruct (ss_phase x) as [|req|] eqn:Hph; [done| |done]. destruct (step _ _ _ _ _) as [p|]; [|done].
    intros [= <-]. left. unfold forwarding. simpl.
    assert (Eo := omap_alter (fun x => match ss_phase x with Forwarding r => Some (rq_ID r) | _ => None end)
      (in_phase Serving) (sv_sessions s) i x Hx).
    simpl in Eo. rewrite Hph in Eo. simpl in Eo. rewrite app_nil_r in Eo. rewrite <-Eo, length_app. simpl. lia.
  - destruct wrote; [|done]. unfold dispatchResponse.
    destruct (px_resps (sv_proxy s) !! sv_taken s) as [rs|] eqn:Er; [|done]. apply lookup_lt_Some in Er.
    assert (Hl : forall t, sv_proxy t = sv_proxy s -> sv_taken t = S (sv_taken s) -> forwarding t = forwarding s -> less_left t s).
    { intros t E1 E2 E3. right. rewrite E1, E3. split; [done|]. right. split; [done|].
      unfold undispatched. rewrite E1, E2, !length_drop. unfold answered. rewrite length_map. lia. }
    cbn [sv_waiters set_taken]. destruct (sv_waiters s !! _) as [w|]; intros [= <-]; apply Hl; try done.
    unfold forwarding. simpl. apply forwarding_same. intros y _. by left.
  - simpl in Hi, He. destruct (so_proxy _ _ _ Hok) as [ids Hp]. intros E.
    assert (Hx : exists p, step cf pp up (sv_proxy s) e = Some p /\ s' = set_proxy s p).
    { destruct e; try done; (destruct (step _ _ _ _ _) as [p|]; [|done]; injection E as <-; by exists p). }
    destruct Hx as (p & Hs & ->). right. split; [done|]. left. simpl.
    by apply (work_decreases cf pp up _ ids e).
Qed.

(** A step the daemon takes by itself. *)
Definition by_itself (s' s : ShimServer) : Prop :=
  exists e, shim_internal e = true /\ polite_shim s e /\ shim_step cf pp up s e = Some s'.

Inductive shim_settles : ShimServer -> ShimServer -> Prop :=
  | shim_settled s : (forall s', ~ by_itself s' s) -> shim_settles s s
  | shim_settles_step s s1 s2 : by_itself s1 s -> shim_settles s1 s2 -> shim_settles s s2.

(** The proxy is open: [Close] has not been called and [resolve] runs. *)
Definition proxy_open (s : ShimServer) : Prop := px_closed (sv_proxy s) = false /\ px_phase (sv_proxy s) <> Returned.

Lemma lookup_keeps_open p req now total p' :
  Lookup cf pp up p req now total = Some p' -> px_closed p' = px_closed p /\ px_phase p' = px_phase p.
Proof.
  assert (Hh : forall q a, px_phase (recordHitKind q a) = px_phase q /\ px_closed (recordHitKind q a) = px_closed q).
  { intros q a. unfold recordHitKind. by case_bool_decide. }
  assert (Hr : px_phase (recordUsedActionID p (rq_ActionID req)) = px_phase p /\
    px_closed (recordUsedActionID p (rq_ActionID req)) = px_closed p).
  { unfold recordUsedActionID. by case_bool_decide. }
  unfold Lookup. set (q := recordUsedActionID p _) in *. clearbody q. destruct Hr as [<- <-]. intros E.
  go_cases; by rewrite ?(proj1 (Hh _ _)), ?(proj2 (Hh _ _)).
Qed.

Lemma by_itself_keeps s asked s' :
  shim_ok up s asked -> proxy_open s -> by_itself s' s ->
  shim_ok up s' asked /\ proxy_open s' /\ less_left s' s.
Proof.
  intros Hok [Hcl Hph] (e & Hi & He & Hs).
  split_and!; [|split|by apply (internal_step_down s asked e)].
  - apply (ok_ext _ (fun j => asked j ++ asked_by j e)).
    { intros j. destruct e as [| | | |[]| |]; try done; by rewrite app_nil_r. }
    by apply (shim_step_ok s).
  - revert Hs. destruct e as [| |i now total| |wrote|e|]; try done; simpl.
    + unfold serveForward. repeat case_match; try done. intros [= <-]. simpl.
      match goal with H : step _ _ _ _ _ = Some _ |- _ => rename H into E end. unfold step in E. destruct (px_panicked _); [done|].
      by rewrite (proj1 (lookup_keeps_open _ _ _ _ _ E)).
    + unfold dispatchResponse. repeat case_match; try done; by intros [= <-].
    + intros Hs. destruct (step cf pp up (sv_proxy s) e) as [p|] eqn:E; [|by destruct e].
      destruct (so_proxy _ _ _ Hok) as [ids Hp].
      destruct (internal_phase cf pp up (sv_proxy s) e p Hi Hcl (pk_nonzero _ _ _ Hp) E) as [Hc _].
      destruct e; try done; by injection Hs as <-.
  - revert Hs. destruct e as [| |i now total| |wrote|e|]; try done; simpl.
    + unfold serveForward. repeat case_match; try done. intros [= <-]. simpl.
      match goal with H : step _ _ _ _ _ = Some _ |- _ => rename H into E end. unfold step in E. destruct (px_panicked _); [done|].
      by rewrite (proj2 (lookup_keeps_open _ _ _ _ _ E)).
    + unfold dispatchResponse. repeat case_match; try done; by intros [= <-].
    + intros Hs. destruct (step cf pp up (sv_proxy s) e) as [p|] eqn:E; [|by destruct e].
      destruct (so_proxy _ _ _ Hok) as [ids Hp].
      destruct (internal_phase cf pp up (sv_proxy s) e p Hi Hcl (pk_nonzero _ _ _ Hp) E) as [_ Hc].
      specialize (Hc Hph). destruct e; try done; by injection Hs as <-.
Qed.

(** While a get is in flight, the daemon can do something. *)
Lemma flight_enabled s asked :
  shim_ok up s asked -> proxy_open s -> flight s <> [] -> exists s', by_itself s' s.
Proof.
  intros Hok [Hcl Hph] Hf. destruct (so_proxy _ _ _ Hok) as [ids Hp].
  destruct (decide (pending (sv_proxy s) = [])) as [Hpend|Hpend].
  2: { destruct (work_enabled cf pp up _ ids Hp Hcl Hph Hpend) as (e & p' & Hi & He & Hs).
       exists (set_proxy s p'), (SProxy e). split; [done|]. split; [done|]. simpl. rewrite Hs. by destruct e. }
  destruct (px_resps (sv_proxy s) !! sv_taken s) as [rs|] eqn:Er.
  { unfold by_itself. destruct (shim_step cf pp up s (SDispatch true)) as [s'|] eqn:E.
    - exists s', (SDispatch true). done.
    - simpl in E. unfold dispatchResponse in E. rewrite Er in E. by destruct (_ !! rs_ID rs). }
  assert (Hun : undispatched s = []).
  { unfold undispatched. apply drop_ge. unfold answered. rewrite length_map. by apply lookup_ge_None. }
  unfold flight in Hf. rewrite Hpend, Hun in Hf. simpl in Hf.
  destruct (forwarding s) as [|id l] eqn:Ef; [done|].
  assert (Hin : id ∈ forwarding s) by (rewrite Ef; apply list_elem_of_here).
  apply list_elem_of_omap in Hin as (x & Hx & Hid). destruct (ss_phase x) as [|req|] eqn:Hphx; [done| |done].
  apply list_elem_of_lookup in Hx as [i Hi].
  assert (Hl : exists p, Lookup cf pp up (sv_proxy s) req 0 None = Some p).
  { unfold Lookup. set (q := recordUsedActionID _ _).
    assert (Hq : px_closed q = px_closed (sv_proxy s) /\ px_lookup q = px_lookup (sv_proxy s)).
    { unfold q, recordUsedActionID. by case_bool_decide. }
    destruct Hq as [Eq1 Eq2]. clearbody q. destruct (negb up); [destruct (Get _ _ _ _); by eexists|].
    destruct (shouldSkipRemoteGet pp None); [destruct (Get _ _ _ _); by eexists|].
    cbn [px_closed px_lookup add_stats]. rewrite Eq1, Hcl, Eq2.
    assert (El : px_lookup (sv_proxy s) = []) by (unfold pending in Hpend; by apply app_eq_nil in Hpend as [? _]).
    rewrite El. by eexists. }
  destruct Hl as [p Hl]. eexists. exists (SForward i 0 None). split; [done|]. split; [done|].
  simpl. unfold serveForward. rewrite Hi. simpl. rewrite Hphx. unfold step. rewrite (pk_calm _ _ _ Hp), Hl. done.
Qed.

Lemma settles_accounts s asked s' :
  shim_ok up s asked -> proxy_open s -> shim_settles s s' -> shim_ok up s' asked /\ flight s' = [].
Proof.
  intros Hok Hop Hs. induction Hs as [s Hend|s s1 s2 Hb Hs IH].
  - split; [done|]. destruct (flight s) eqn:E; [done|].
    destruct (flight_enabled s asked Hok Hop) as [s' Hb]; [by rewrite E|]. by destruct (Hend s').
  - destruct (by_itself_keeps s asked s1 Hok Hop Hb) as (Hok1 & Hop1 & _). by apply IH.
Qed.

Lemma open_terminates s asked : shim_ok up s asked -> proxy_open s -> Acc by_itself s.
Proof.
  induction (less_left_wf s) as [s _ IH]. intros Hok Hop. constructor. intros s' Hb.
  destruct (by_itself_keeps s asked s' Hok Hop Hb) as (Hok' & Hop' & Hless). by apply IH.
Qed.

(** C16: no session waits for ever.  From every reachable state with an open proxy the
    daemon cannot run for ever by itself, and once it has settled, whatever the
    schedule and the upstream, every session that is served and lost no write has one
    response for each of its requests. *)
Theorem sessions_settle d tok es s
    (Hpolite : polite_shim_run cf pp up (NewShimServer (newProxy d) tok) es)
    (Hrun : shim_run cf pp up (NewShimServer (newProxy d) tok) es = Some s)
    (Hopen : px_closed (sv_proxy s) = false) (Hphase : px_phase (sv_proxy s) <> Returned) :
  Acc by_itself s /\
  forall s' i x, shim_settles s s' -> sv_sessions s' !! i = Some x -> ss_phase x <> Ended -> ss_lost x = false ->
    map rs_ID (ss_out x) ≡ₚ es ≫= asked_by i.
Proof.
  assert (Hok := shim_run_ok _ _ es s (shim_ok_init d tok) Hpolite Hrun). split.
  - eapply open_terminates; [exact Hok|by split].
  - intros s' i x Hs Hx Hact Hl. destruct (settles_accounts s _ s' Hok (conj Hopen Hphase) Hs) as [Hok' Hf].
    destruct (so_account _ _ _ Hok' i x Hx) as [_ Ha]. specialize (Ha Hact Hl). simpl in Ha. rewrite <-Ha.
    rewrite waiting_none; [by rewrite app_nil_r|]. intros id w Hid _.
    destruct (so_waiters _ _ _ Hok' id w Hid) as [Hin _]. rewrite Hf in Hin. by apply elem_of_nil in Hin.
Qed.
End steps.

(** ** Witnesses *)

Definition polite_shimb (s : ShimServer) (e : SEvent) : bool :=
  match e with SProxy e => politeb (sv_proxy s) e | _ => true end.

Fixpoint polite_shim_runb `{Zstd} (cf : Config) (pp : ProxyParams) (up : bool) (s : ShimServer) (es : list SEvent) : bool :=
  match es with
  | [] => true
  | e :: es =>
      polite_shimb s e && match shim_step cf pp up s e with Some s' => polite_shim_runb cf pp up s' es | None => true end
  end.

Lemma politeb_ok p e : politeb p e = true -> polite p e.
Proof.
  destruct e; simpl; try done.
  - intros He%negb_true_iff. by apply Z.eqb_neq in He.
  - intros He b E. rewrite E in He. by apply streamsb_ok.
Qed.

Lemma polite_shim_runb_ok `{Zstd} cf pp up s es : polite_shim_runb cf pp up s es = true -> polite_shim_run cf pp up s es.
Proof.
  revert s. induction es as [|e es IH]; intros s; simpl; [done|]. intros [He Hes]%andb_true_iff.
  split; [|intros s' E; rewrite E in Hes; by apply IH]. destruct e; simpl in *; try done. by apply politeb_ok.
Qed.

(** Two sessions that use the same ids, one action between them. *)
Definition exampleShim : ShimServer := NewShimServer (newProxy emptyStore) #"secret".
Definition exampleGets : list SEvent :=
  [SHello (mkHello #"secret" false) true; SHello (mkHello #" secret" false) true;
   SEnvelope 0 (getReq 1 #"a1") [] exampleArgs true; SForward 0 5 None;
   SEnvelope 1 (getReq 1 #"a1") [] exampleArgs true; SForward 1 5 None;
   SEnvelope 1 (putReq 2 #"a2" #"out" #"ninebytes") #"ninebytes" exampleArgs true].
Definition exampleAnswers : list SEvent :=
  [SProxy (ERecv 6); SProxy (ERecv 6); SProxy ETick; SProxy EDispatch;
   SProxy (EAsk 0 [bodyItem #"a1" #"out" #"ninebytes"]); SProxy (ECallback 0 exampleArgs); SProxy (EFinish 0 []);
   SDispatch true; SDispatch true].

Definition observe (s : ShimServer) : list (bool * bool) :=
  map (fun x => (is_active x, ss_lost x)) (sv_sessions s).

Lemma observed s i x l : observe s = l -> sv_sessions s !! i = Some x -> l !! i = Some (is_active x, ss_lost x).
Proof. intros <- Hx. unfold observe. by rewrite list_lookup_fmap, Hx. Qed.

Lemma sessions_get_their_answers_witness :
  exists s x, shim_run (H := magicZstd) diskConfig exampleParams true exampleShim (exampleGets ++ exampleAnswers) = Some s /\
    sv_sessions s !! 1%nat = Some x /\ (map rs_ID (ss_out x) ++ waiting (sv_waiters s) 1) ≡ₚ [1; 2].
Proof.
  destruct (ran (shim_run (H := magicZstd) diskConfig exampleParams true exampleShim (exampleGets ++ exampleAnswers)))
    as [s Hs]; [vm_compute; reflexivity|].
  assert (Ho : (observe <$> shim_run (H := magicZstd) diskConfig exampleParams true exampleShim (exampleGets ++ exampleAnswers)) =
    Some [(true, false); (true, false)]) by (vm_compute; reflexivity).
  rewrite Hs in Ho. cbn [fmap option_fmap option_map] in Ho. injection Ho as Ho.
  destruct (sv_sessions s !! 1%nat) as [x|] eqn:Hx.
  2: { apply lookup_ge_None in Hx. apply (f_equal length) in Ho. unfold observe in Ho. rewrite length_map in Ho. simpl in Ho. lia. }
  exists s, x. split; [exact Hs|]. split; [exact Hx|].
  assert (Hob := observed s 1 x _ Ho Hx). simpl in Hob. injection Hob as Hact Hlost.
  refine (proj2 (sessions_get_their_answers (H := magicZstd) diskConfig exampleParams true emptyStore #"secret"
    (exampleGets ++ exampleAnswers) s 1 x _ Hs Hx) _ (eq_sym Hlost)).
  - apply polite_shim_runb_ok. vm_compute. reflexivity.
  - intros E. unfold is_active in Hact. rewrite E in Hact. discriminate Hact.
Defined.

Lemma sessions_settle_witness :
  exists s, shim_run (H := magicZstd) diskConfig exampleParams true exampleShim exampleGets = Some s /\
    Acc (by_itself (H := magicZstd) diskConfig exampleParams true) s.
Proof.
  destruct (ran (shim_run (H := magicZstd) diskConfig exampleParams true exampleShim exampleGets)) as [s Hs];
    [vm_compute; reflexivity|].
  assert (Ho : ((fun s => (px_closed (sv_proxy s), bool_decide (px_phase (sv_proxy s) = Selecting))) <$>
      shim_run (H := magicZstd) diskConfig exampleParams true exampleShim exampleGets) = Some (false, true))
    by (vm_compute; reflexivity).
  rewrite Hs in Ho. cbn [fmap option_fmap option_map] in Ho. injection Ho as Hc Hp. apply bool_decide_eq_true in Hp.
  exists s. split; [exact Hs|].
  apply (sessions_settle (H := magicZstd) diskConfig exampleParams true emptyStore #"secret" exampleGets s);
    [|exact Hs|exact Hc|by rewrite Hp].
  apply polite_shim_runb_ok. vm_compute. reflexivity.
Defined.
