(* ===== verification/App.v ===== *)
(** The direct mode of src/internal/local/app.go, which reads the requests of the go
    command and puts them to a proxy of its own. *)
From S2P Require Import Prelude.
From S2P Require Import GoStrings.
From S2P Require Import Wire.
From S2P Require Import CacheWire.
From S2P Require Import LocalStore.
From S2P Require Import LocalServe.
From S2P Require Import Proxy.
From S2P Require Import ProxyServe.

(** ** Requests on standard input *)

(** What the JSON decoder gives: a request, then, when one is read, a body. *)
Record Input := mkInput {
  in_request : result Request;
  in_body : result bytes;
}.

(** How the input loops end. *)
Inductive Exit := Closed | Failed (e : goerr).

(** The body of a put: read only when one is declared, of the declared size. *)
Definition readBody (req : Request) (body : result bytes) : result bytes :=
  if 0 <? rq_BodySize req then
    match body with
    | Err e => Err e
    | Ok b => if negb (blen b =? rq_BodySize req) then Err (EMsg "cache body size mismatch") else Ok b
    end
  else Ok [].

(** ** Direct mode *)

Section direct.
Context `{Zstd} (cf : Config) (pp : ProxyParams) (up : bool).

(** One round of [IterateInput]: the proxy afterwards and, when it returns, how;
    [None]: the call into the proxy blocks. *)
Definition IterateInput (p : Proxy) (i : Input) (a : putArgs) (total : option Z) : option (Proxy * option Exit) :=
  match in_request i with
  | Err e => Some (p, Some (Failed e))
  | Ok req =>
      match rq_Command req with
      | CmdClose => Some (p, Some Closed)
      | CmdGet =>
          match step cf pp up p (ELookup req (pa_now a) total) with
          | Some p => Some (p, None)
          | None => None
          end
      | CmdPut =>
          match readBody req (in_body i) with
          | Err e => Some (p, Some (Failed e))
          | Ok body =>
              if px_panicked p then None
              else match Put cf up p req body a with
              | Some (p, resp) => Some (send p [resp], None)
              | None => None
              end
          end
      | CmdOther _ => Some (p, Some (Failed (EMsg "unsupported command")))
      end
  end.

(** The input loop and the goroutines of the proxy, interleaved. *)
Inductive AEvent :=
  | AInput (i : Input) (a : putArgs) (total : option Z)
  | AProxy (e : Event).

Fixpoint app_run (p : Proxy) (es : list AEvent) : option (Proxy * option Exit) :=
  match es with
  | [] => Some (p, None)
  | AInput i a total :: es =>
      match IterateInput p i a total with
      | Some (p, None) => app_run p es
      | Some (p, Some x) => match es with [] => Some (p, Some x) | _ => None end
      | None => None
      end
  | AProxy e :: es =>
      match e with
      | ELookup _ _ _ | EPut _ _ _ => None
      | _ => match step cf pp up p e with Some p => app_run p es | None => None end
      end
  end.

(** The ids of the gets and of the puts with a whole body. *)
Definition requested (e : AEvent) : list Z :=
  match e with
  | AInput i _ _ =>
      match in_request i with
      | Ok req =>
          match rq_Command req with
          | CmdGet => [rq_ID req]
          | CmdPut => match readBody req (in_body i) with Ok _ => [rq_ID req] | Err _ => [] end
          | _ => []
          end
      | Err _ => []
      end
  | _ => []
  end.

Definition polite_input (p : Proxy) (e : AEvent) : Prop :=
  match e with
  | AInput i _ _ => forall req, in_request i = Ok req -> rq_ID req <> 0
  | AProxy e => polite p e
  end.

Fixpoint polite_app_run (p : Proxy) (es : list AEvent) : Prop :=
  match es with
  | [] => True
  | e :: es => polite_input p e /\ forall p' x, app_run p [e] = Some (p', x) -> polite_app_run p' es
  end.

Lemma putOne_ID d req body a : rs_ID (snd (putOne cf d req body a)) = rq_ID req.
Proof. unfold putOne. destruct (putRespItem _ _ _ _ _) as [d' [u|e]]; [apply Get_ID|done]. Qed.

Lemma Put_ID p req body a p' resp : Put cf up p req body a = Some (p', resp) -> rs_ID resp = rq_ID req.
Proof.
  unfold Put. assert (Hg := Get_ID cf (px_disk p) req (pa_now a)).
  destruct (Get _ _ _ _) as [d rs]. simpl in Hg. destruct (negb _); [by intros [= _ <-]|].
  cbn [px_disk set_disk]. assert (Hp := putOne_ID d req body a). destruct (putOne _ _ _ _ _) as [d' rs']. simpl in Hp.
  destruct up; [|by intros [= _ <-]]. destruct (_ || _); [done|]. by intros [= _ <-].
Qed.

Lemma input_ok p ids i a total p' x :
  proxy_ok up p ids -> polite_input p (AInput i a total) -> IterateInput p i a total = Some (p', x) ->
  proxy_ok up p' (ids ++ requested (AInput i a total)).
Proof.
  intros Hok Hpol. unfold IterateInput. simpl in *. destruct (in_request i) as [req|e]; rewrite ?app_nil_r; [|by intros [= <- _]].
  specialize (Hpol req eq_refl). destruct (rq_Command req); rewrite ?app_nil_r; try (by intros [= <- _]).
  - destruct (readBody _ _) as [body|e]; rewrite ?app_nil_r; [|by intros [= <- _]].
    destruct (px_panicked p); [done|]. destruct (Put _ _ _ _ _ _) as [[q rs]|] eqn:E; [|done]. intros [= <- _].
    assert (Hq := ok_same up p q ids (put_same _ _ _ _ _ _ _ _ E) Hok). split; [|apply Hq..].
    apply (ok_answer up q (send q [rs]) ids [rq_ID req] [req] [rs] Hq); [done|done|]. simpl.
    by rewrite (Put_ID _ _ _ _ _ _ E).
  - destruct (step _ _ _ _ _) as [q|] eqn:E; [|done]. intros [= <- _].
    by apply (step_ok cf pp up p ids (ELookup req (pa_now a) total)).
Qed.

Lemma app_run_ok p ids es p' x :
  proxy_ok up p ids -> polite_app_run p es -> app_run p es = Some (p', x) ->
  proxy_ok up p' (ids ++ (es ≫= requested)).
Proof.
  revert p ids. induction es as [|e es IH]; intros p ids Hok; simpl.
  { intros _ [= <- _]. by rewrite app_nil_r. }
  intros [Hp Hes] Hr. rewrite app_assoc. destruct e as [i a total|e].
  - destruct (IterateInput p i a total) as [[p1 [y|]]|] eqn:E; [| |done].
    + destruct es; [|done]. injection Hr as <- _. simpl. rewrite app_nil_r. by apply (input_ok p ids i a total p1 (Some y)).
    + apply (IH p1); [by apply (input_ok p ids i a total p1 None)|by apply (Hes p1 None)|done].
  - simpl. rewrite app_nil_r.
    assert (Hx : exists p1, step cf pp up p e = Some p1 /\ app_run p1 es = Some (p', x) /\
        asked_of e = [] /\ polite_app_run p1 es).
    { destruct e; try done; (destruct (step _ _ _ _ _) as [p1|]; [|done]; exists p1; split; [done|]; split; [done|];
        split; [done|]; by apply (Hes p1 None)). }
    destruct Hx as (p1 & Hs & Hrun & Hno & Hpol). apply (IH p1); [|done|done].
    assert (Hk := step_ok cf pp up p ids e p1 Hok Hp Hs). by rewrite Hno, app_nil_r in Hk.
Qed.

(** C37: direct mode answers every request.  In every run the gets and puts read from
    the input are, as a bag of ids, the lookups that still wait and the responses on
    the channel; whenever the proxy, still open, has settled, every get and put that
    was read has exactly one response. *)
Theorem direct_mode_answers d es p x
    (Hpolite : polite_app_run (newProxy d) es) (Hrun : app_run (newProxy d) es = Some (p, x)) :
  (map rq_ID (pending p) ++ answered p) ≡ₚ es ≫= requested /\
  (px_closed p = false -> px_phase p <> Returned ->
   forall p', settles cf pp up p p' -> answered p' ≡ₚ es ≫= requested).
Proof.
  assert (Hok := app_run_ok _ [] es p x (proxy_ok_init up d) Hpolite Hrun). simpl in Hok.
  split; [apply (pk_ids _ _ _ Hok)|]. intros Hc Hph p' Hs. by apply (settles_answers cf pp up p).
Qed.
End direct.

(** ** Witnesses *)

Definition getInput (id : Z) (a : bytes) : Input := mkInput (Ok (getReq id a)) (Ok []).
Definition putInput (id : Z) (a o body : bytes) : Input := mkInput (Ok (putReq id a o body)) (Ok body).
Definition closeInput : Input := mkInput (Ok (mkRequest 9 CmdClose [] [] 0 None)) (Ok []).

Definition exampleInput : list AEvent :=
  [AInput (getInput 1 #"a1") exampleArgs None; AProxy (ERecv 6); AInput (putInput 2 #"a1" #"out" #"ninebytes") exampleArgs None;
   AProxy ETick; AProxy EDispatch; AProxy (EAsk 0 []); AProxy (EFinish 0 [ #"a1" ]); AInput closeInput exampleArgs None].

Lemma direct_mode_answers_witness :
  exists p, app_run (H := magicZstd) diskConfig exampleParams true (newProxy emptyStore) exampleInput = Some (p, Some Closed) /\
    (map rq_ID (pending p) ++ answered p) ≡ₚ [1; 2].
Proof.
  destruct (ran (app_run (H := magicZstd) diskConfig exampleParams true (newProxy emptyStore) exampleInput)) as [[p x] Hp];
    [vm_compute; reflexivity|].
  assert (Ho : (snd <$> app_run (H := magicZstd) diskConfig exampleParams true (newProxy emptyStore) exampleInput) = Some (Some Closed))
    by (vm_compute; reflexivity).
  rewrite Hp in Ho. cbn [fmap option_fmap option_map snd] in Ho. injection Ho as ->.
  exists p. split; [exact Hp|].
  refine (proj1 (direct_mode_answers (H := magicZstd) diskConfig exampleParams true emptyStore exampleInput p (Some Closed) _ Hp)).
  simpl polite_app_run. repeat (split; [|intros ? ? _]); try exact I; try (intros req [= <-]; discriminate).
  intros b _. split; [constructor|]. intros a Ha. by apply elem_of_nil in Ha.
Defined.
