(* ===== verification/GoCacheRestore.v ===== *)
(** Restoring, saving, clearing and inspecting build caches: the requests of
    src/internal/gocache/store.go that work on manifests and objects together. *)
From S2P Require Import Prelude.
From S2P Require Import GoStrings.
From S2P Require Import GoPath.
From S2P Require Import RecordPool.
From S2P Require Import EvictHeap.
From S2P Require Import Wire.
From S2P Require Import GoCacheStore.
From S2P Require Import ManifestPaths.
From S2P Require Import Manifests.

(** ** Selecting what to send *)

Abbreviation restoreEntry := (bytes * indexEntry)%type.

(** The order of [selectRestoreEntries]: newest first, then smallest, then by path. *)
Definition fresher (x y : restoreEntry) : bool :=
  if negb (ie_ModTimeMicro x.2 =? ie_ModTimeMicro y.2) then ie_ModTimeMicro y.2 <? ie_ModTimeMicro x.2
  else if negb (ie_Size x.2 =? ie_Size y.2) then ie_Size x.2 <? ie_Size y.2
  else bytes_lt x.1 y.1.

Definition withinFileLimits (cf : Config) (req : Request) (x : restoreEntry) : Prop :=
  (0 <? rq_MaxFileBytes req) && (rq_MaxFileBytes req <? ie_Size x.2) = false /\
  (0 <? cf_maxFileBytes cf) && (cf_maxFileBytes cf <? ie_Size x.2) = false.

#[export] Instance withinFileLimits_dec cf req x : Decision (withinFileLimits cf req x).
Proof. unfold withinFileLimits. apply _. Defined.

(** The longest prefix whose stored sizes fit. *)
Fixpoint takeBudget (max total : Z) (l : list restoreEntry) : list restoreEntry :=
  match l with
  | [] => []
  | x :: l' =>
      let size := entryStoredSize x.2 in
      if max <? total + size then [] else x :: takeBudget max (total + size) l'
  end.

Definition selectRestoreEntries (cf : Config) (req : Request) (entries : list restoreEntry)
    : list restoreEntry :=
  let filtered := filter (withinFileLimits cf req) entries in
  let max := rq_MaxPreloadTotalBytes req in
  if (max <=? 0) || (length filtered <? 2)%nat then
    match filtered with
    | [x] => if (0 <? max) && (max <? entryStoredSize x.2) then [] else filtered
    | _ => filtered
    end
  else takeBudget max 0 (stable_sort fresher filtered).

(** ** Resolving the paths of a request *)

Record RestoreAcc := mkAcc {
  ra_seen : gset bytes;
  ra_result : list bytes;
  ra_sources : list bytes;
  ra_matched : gset bytes;
}.

Definition addSource (acc : RestoreAcc) (name path : bytes) (paths : list bytes) : RestoreAcc :=
  mkAcc (list_to_set paths ∪ ra_seen acc) (ra_result acc ++ unseen (ra_seen acc) paths)
    (ra_sources acc ++ [name]) ({[path]} ∪ ra_matched acc).

Definition defaultManifestSampleSize : nat := 2.

Section restore.
Context `{Zstd} `{SliceSort}.

Fixpoint restoreLoop (cf : Config) (env : Env) (sv : Server) (cands : list (bytes * result bytes))
    (acc : RestoreAcc) : Server * result RestoreAcc :=
  match cands with
  | [] => (sv, Ok acc)
  | (_, Err e) :: cands =>
      if isNotExist e then restoreLoop cf env sv cands acc else (sv, Err e)
  | (name, Ok path) :: cands =>
      match loadHealed cf env sv path with
      | (sv, Err e) => if isNotExist e then restoreLoop cf env sv cands acc else (sv, Err e)
      | (sv, Ok paths) => restoreLoop cf env sv cands (addSource acc name path paths)
      end
  end.

(** A manifest that may stand in for a missing one: path, time, kind. *)
Record candidate := mkCandidate { cd_path : bytes; cd_modTime : Z; cd_isPR : bool }.

Definition preferred (x y : candidate) : bool :=
  if negb (Bool.eqb (cd_isPR x) (cd_isPR y)) then negb (cd_isPR x)
  else cd_modTime y <? cd_modTime x.

Fixpoint loadSamples (cf : Config) (env : Env) (sv : Server) (cs : list candidate) (res : list bytes)
    : Server * result (list bytes) :=
  match cs with
  | [] => (sv, Ok res)
  | c :: cs =>
      match loadHealed cf env sv (cd_path c) with
      | (sv, Err e) => (sv, Err e)
      | (sv, Ok paths) => loadSamples cf env sv cs (res ++ unseen (list_to_set res) paths)
      end
  end.

Definition defaultCandidates (fs : Files) (root : bytes) (files : list bytes) (exclude : gset bytes)
    : list candidate :=
  omap (fun p => match fs !! p with
                 | Some (_, mtime) => Some (mkCandidate p mtime (isPRManifestPath root p))
                 | None => None
                 end) (filter (fun p => p ∉ exclude) files).

Definition loadDefaultManifestPaths (cf : Config) (env : Env) (sv : Server) (buildType : bytes)
    (exclude : gset bytes) : Server * result (list bytes) :=
  match manifestScopeDir buildType with
  | Err e => (sv, Err e)
  | Ok scopeDir =>
      let root := scopeRoot cf scopeDir in
      match listManifestFiles env (sv_files sv) root with
      | Err e => (sv, Err e)
      | Ok files =>
          match defaultCandidates (sv_files sv) root files exclude with
          | [] => (sv, Err ENotExist)
          | cs => loadSamples cf env sv (take defaultManifestSampleSize (sort_slice preferred cs)) []
          end
      end
  end.

(** [float64(len) < float64(total) * 0.5], exact on these counts. *)
Definition small (len total : Z) : bool := (0 <? total) && (2 * len <? total).

Definition supplementSmallResultWithDefault (cf : Config) (env : Env) (sv : Server) (buildType : bytes)
    (acc : RestoreAcc) : Server * result RestoreAcc :=
  match loadDefaultManifestPaths cf env sv buildType (ra_matched acc) with
  | (sv, Err e) => (sv, if isNotExist e then Ok acc else Err e)
  | (sv, Ok defaultPaths) =>
      let novel := filter (fun p => p ∉ ra_seen acc) defaultPaths in
      let len := Z.of_nat (length (ra_result acc)) in
      if small len (len + Z.of_nat (length novel)) then
        let added := unseen (ra_seen acc) defaultPaths in
        (sv, Ok (mkAcc (list_to_set defaultPaths ∪ ra_seen acc) (ra_result acc ++ added)
                   (ra_sources acc ++ match added with [] => [] | _ => [ #"default" ] end)
                   (ra_matched acc)))
      else (sv, Ok acc)
  end.

Definition defaultFallbackPaths (cf : Config) (env : Env) (sv : Server) (buildType : bytes)
    (seen : gset bytes) : Server * result (list bytes) :=
  match loadDefaultManifestPaths cf env sv buildType ∅ with
  | (sv, Err e) => (sv, if isNotExist e then Ok [] else Err e)
  | (sv, Ok paths) => (sv, Ok (unseen seen paths))
  end.

Definition restoreCandidates (cf : Config) (req : Request) : list (bytes * result bytes) :=
  [ (#"commit", resolveCommitManifestPath cf (rq_Commit req) (rq_BuildType req));
    (#"parent", resolveCommitManifestPath cf (rq_ParentCommit req) (rq_BuildType req));
    (#"changes", resolveChangesManifestPath cf (rq_ChangesID req) (rq_BuildType req));
    (#"base", resolveCommitManifestPath cf (rq_BaseCommit req) (rq_BuildType req)) ].

Definition restorePaths (cf : Config) (env : Env) (sv : Server) (req : Request)
    : Server * result (list bytes * list bytes) :=
  if blank (rq_Commit req) && blank (rq_ParentCommit req) && blank (rq_ChangesID req)
     && blank (rq_BaseCommit req) then (sv, Ok ([], [ #"none" ]))
  else
    match restoreLoop cf env sv (restoreCandidates cf req) (mkAcc ∅ [] [] ∅) with
    | (sv, Err e) => (sv, Err e)
    | (sv, Ok acc) =>
        match ra_sources acc with
        | _ :: _ =>
            match supplementSmallResultWithDefault cf env sv (rq_BuildType req) acc with
            | (sv, Err e) => (sv, Err e)
            | (sv, Ok acc) => (sv, Ok (ra_result acc, ra_sources acc))
            end
        | [] =>
            match defaultFallbackPaths cf env sv (rq_BuildType req) (ra_seen acc) with
            | (sv, Err e) => (sv, Err e)
            | (sv, Ok def) =>
                match def with
                | [] => (sv, Ok (ra_result acc, [ #"none" ]))
                | _ => (sv, Ok (ra_result acc ++ def, [ #"default" ]))
                end
            end
        end
    end.

Definition RestoreSources (cf : Config) (env : Env) (sv : Server) (req : Request)
    : Server * result (list bytes) :=
  match restorePaths cf env sv req with
  | (sv, Ok (_, sources)) => (sv, Ok sources)
  | (sv, Err e) => (sv, Err e)
  end.

(** ** Restore *)

(** A plain object whose file is missing or of another size. *)
Definition broken (cf : Config) (s : Store) (p : bytes) (ie : indexEntry) : bool :=
  (ie_PoolPage ie =? 0) &&
  match objects s !! objectPath cf p with
  | Some b => negb (blen b =? entryStoredSize ie)
  | None => true
  end.

(** The serving loop; the callback reads the body when it is called. *)
Fixpoint serveLoop (cf : Config) (s : Store) (entries : list restoreEntry) : Store * list FileItem :=
  match entries with
  | [] => (s, [])
  | (p, ie) :: entries =>
      if broken cf s p ie then serveLoop cf (removeBrokenEntry cf s p ie) entries
      else
        let item := PrepareBodyReader (responseItem cf s p ie) (openObject s) in
        let '(s, items) := serveLoop cf (add_counters s 1 0 0 0) entries in
        (s, item :: items)
  end.

Definition indexedEntries (s : Store) (paths : list bytes) : list restoreEntry :=
  omap (fun p => (fun ie => (p, ie)) <$> index s !! p) paths.

Definition Restore (cf : Config) (env : Env) (sv : Server) (req : Request)
    : Server * result (list FileItem * list bytes) :=
  match restorePaths cf env sv req with
  | (sv, Err e) => (sv, Err e)
  | (sv, Ok (paths, sources)) =>
      let entries := selectRestoreEntries cf req (indexedEntries (sv_store sv) paths) in
      let '(s, items) := serveLoop cf (sv_store sv) entries in
      (mkServer s (sv_files sv), Ok (items, sources))
  end.

(** ** Save *)

(** [Save]: each item with what it meets on its way. *)
Fixpoint saveItems (cf : Config) (s : Store) (items : list (FileItem * putArgs)) : Store * result (list bytes) :=
  match items with
  | [] => (s, Ok [])
  | (item, a) :: items =>
      match cleanRelativePath (fi_Path (fi_meta item)) with
      | Err e => (s, Err e)
      | Ok path =>
          let m := fi_meta item in
          let item := mkFileItem (mkFileMeta path (fi_Size m) (fi_ModTime m) (fi_Mode m)
                        (fi_IsCompressed m) (fi_WireSize m) (fi_DiskPath m)) (fi_body item) in
          match putOne cf s item a with
          | (s, Err e) => (s, Err e)
          | (s, Ok _) =>
              match saveItems cf s items with
              | (s, Err e) => (s, Err e)
              | (s, Ok paths) => (s, Ok (path :: paths))
              end
          end
      end
  end.

Definition Save (cf : Config) (env : Env) (sv : Server) (req : Request) (items : list (FileItem * putArgs))
    : Server * result unit :=
  match saveItems cf (sv_store sv) items with
  | (s, Err e) => (mkServer s (sv_files sv), Err e)
  | (s, Ok paths) => MergeSavedPaths cf env (mkServer s (sv_files sv)) req paths
  end.
End restore.

(** ** Clear and Inspect *)

Record ClearStats := mkClearStats {
  ManifestsDeleted : Z;
  ObjectsDeleted : Z;
  ObjectsKept : Z;
}.

Record InspectStats := mkInspectStats {
  ManifestsCount : Z;
  FilesCount : Z;
  CompressedBytes : Z;
  UncompressedBytes : Z;
  MaxFileSize : Z;
  MaxBandFilesCount : Z;
  MaxBandCompressedBytes : Z;
  MaxBandUncompressedBytes : Z;
}.

(** Ages are in microseconds; the code divides them into floating seconds. *)
Record KeyInspection := mkKeyInspection {
  ki_Key : bytes;
  ki_InManifest : bool;
  ki_ExistsRemote : bool;
  ki_Size : Z;
  ki_Age : option Z;
}.

Section clear.
Context `{Zstd}.

(** The loop over the target manifests: collect what they list, remove them. *)
Fixpoint clearTargets (env : Env) (fs : Files) (targets : list bytes) (refs : gset bytes) (deleted : Z)
    : Files * result (gset bytes * Z) :=
  match targets with
  | [] => (fs, Ok (refs, deleted))
  | t :: targets =>
      match readManifestPaths env fs t with
      | Err e =>
          if isNotExist e then
            match removeFile env fs t with
            | Err e => if isNotExist e then clearTargets env fs targets refs deleted else (fs, Err e)
            | Ok fs => clearTargets env fs targets refs (deleted + 1)
            end
          else (fs, Err e)
      | Ok ps =>
          let refs := refs ∪ list_to_set ps in
          match removeFile env fs t with
          | Err e => if isNotExist e then clearTargets env fs targets refs deleted else (fs, Err e)
          | Ok fs => clearTargets env fs targets refs (deleted + 1)
          end
      end
  end.

(** One referenced path of [Clear].  Removing an object file that is not there is
    no error. *)
Definition clearStep (cf : Config) (env : Env) (keep : gset bytes) (s : Store) (stats : ClearStats)
    (relPath : bytes) : Store * result ClearStats :=
  let deleted := mkClearStats (ManifestsDeleted stats) (ObjectsDeleted stats + 1) (ObjectsKept stats) in
  let fault := match env_remove env (objectPath cf relPath) with
               | Some e => if isNotExist e then None else Some e
               | None => None
               end in
  if bool_decide (relPath ∈ keep) then
    (s, Ok (mkClearStats (ManifestsDeleted stats) (ObjectsDeleted stats) (ObjectsKept stats + 1)))
  else
    match index s !! relPath with
    | Some ie =>
        let s := set_index s (delete relPath (index s)) (currentDiskBytes s - entryStoredSize ie) in
        match fault with
        | Some e => if ie_PoolPage ie =? 0 then (s, Err e)
                    else (removeObjectLocked cf s relPath ie, Ok deleted)
        | None => (removeObjectLocked cf s relPath ie, Ok deleted)
        end
    | None =>
        match fault with
        | Some e => (s, Err e)
        | None => (set_objects s (delete (objectPath cf relPath) (objects s)), Ok deleted)
        end
    end.

Fixpoint clearObjects (cf : Config) (env : Env) (keep : gset bytes) (s : Store) (stats : ClearStats)
    (refs : list bytes) : Store * result ClearStats :=
  match refs with
  | [] => (s, Ok stats)
  | p :: refs =>
      match clearStep cf env keep s stats p with
      | (s, Err e) => (s, Err e)
      | (s, Ok stats) => clearObjects cf env keep s stats refs
      end
  end.

Definition no_targets : goerr := EMsg "at least one of build-type, commit, or changes-id must be set".

(** [Clear]; [range] is the order in which Go's [range] visits a set. *)
Definition Clear (cf : Config) (env : Env) (range : gset bytes -> list bytes) (sv : Server) (req : Request)
    : Server * result ClearStats :=
  match targetManifestPaths cf env (sv_files sv) req with
  | Err e => (sv, Err e)
  | Ok [] => (sv, Err no_targets)
  | Ok targets =>
      match clearTargets env (sv_files sv) targets ∅ 0 with
      | (fs, Err e) => (mkServer (sv_store sv) fs, Err e)
      | (fs, Ok (refs, deleted)) =>
          match scanManifestRefs cf env fs (list_to_set targets) with
          | Err e => (mkServer (sv_store sv) fs, Err e)
          | Ok keep =>
              let '(s, r) := clearObjects cf env keep (sv_store sv) (mkClearStats deleted 0 0) (range refs) in
              (mkServer s fs, r)
          end
      end
  end.

(** The entries [Inspect] counts. *)
Definition inspectable (cf : Config) (s : Store) (p : bytes) : option indexEntry :=
  match index s !! p with
  | Some ie => if objectExistsLocked cf s p then Some ie else None
  | None => None
  end.

Definition Inspect (cf : Config) (env : Env) (range : gset bytes -> list bytes) (sv : Server) (req : Request)
    : result InspectStats :=
  let? targets := targetManifestPaths cf env (sv_files sv) req in
  match targets with
  | [] => Err no_targets
  | _ =>
      let? refs := collectRefs env (sv_files sv) targets ∅ in
      let es := omap (inspectable cf (sv_store sv)) (range refs) in
      let total f := foldl (fun acc ie => acc + f ie) 0 in
      let maxSize := foldl (fun m ie => if m <? ie_Size ie then ie_Size ie else m) 0 es in
      let stats := mkInspectStats (Z.of_nat (length targets)) (total (fun _ => 1) es)
                     (total entryStoredSize es) (total ie_Size es) maxSize 0 0 0 in
      if maxSize =? 0 then Ok stats
      else
        let maxBandMin := maxSize - Z.quot maxSize 10 in
        let band := filter (fun ie => (ie_Size ie <? maxBandMin) = false) es in
        Ok (mkInspectStats (ManifestsCount stats) (FilesCount stats) (CompressedBytes stats)
              (UncompressedBytes stats) maxSize (total (fun _ => 1) band)
              (total entryStoredSize band) (total ie_Size band))
  end.

Definition inspectKey (cf : Config) (env : Env) (s : Store) (inManifest : gset bytes) (key : bytes)
    : KeyInspection :=
  let im := bool_decide (key ∈ inManifest) in
  match inspectable cf s key with
  | Some ie => mkKeyInspection key im true (ie_Size ie)
                 (if ie_ModTimeMicro ie =? 0 then None else Some (env_now env - ie_ModTimeMicro ie))
  | None => mkKeyInspection key im false 0 None
  end.

Definition InspectKeys (cf : Config) (env : Env) (sv : Server) (req : Request) (keys : list bytes)
    : result (list KeyInspection) :=
  let? targets := targetManifestPaths cf env (sv_files sv) req in
  let? inManifest := collectRefs env (sv_files sv) targets ∅ in
  Ok (map (inspectKey cf env (sv_store sv) inManifest) keys).
End clear.

(** ** The selection *)

#[export] Instance fresher_strict : StrictWeak fresher.
Proof.
  split.
  - intros [p ie]. unfold fresher. simpl. rewrite !Z.eqb_refl. simpl. apply sw_irrefl.
  - intros [p x] [q y] [r z]. unfold fresher. simpl.
    repeat (match goal with |- context [?a =? ?b] => destruct (Z.eqb_spec a b) end; simpl); rewrite ?Z.ltb_lt; try lia; try congruence.
    apply sw_trans.
  - intros [p x] [q y] [r z]. unfold fresher. simpl.
    repeat (match goal with |- context [?a =? ?b] => destruct (Z.eqb_spec a b) end; simpl); rewrite ?Z.ltb_ge; try lia; try congruence.
    apply sw_incomp.
Qed.

Definition stored_total (l : list restoreEntry) : Z :=
  foldr (fun x acc => entryStoredSize x.2 + acc) 0 l.

Lemma takeBudget_spec max total l :
  total <= max ->
  total + stored_total (takeBudget max total l) <= max /\
  exists rest, l = takeBudget max total l ++ rest /\
    forall z, head rest = Some z ->
      max < total + stored_total (takeBudget max total l) + entryStoredSize z.2.
Proof.
  revert total. induction l as [|x l IH]; intros total Ht; simpl.
  - split; [lia|]. exists []. done.
  - destruct (Z.ltb_spec max (total + entryStoredSize x.2)) as [Hx|Hx]; simpl.
    + split; [lia|]. exists (x :: l). split; [done|]. intros z [= <-]. lia.
    + destruct (IH (total + entryStoredSize x.2)) as (H1 & rest & H2 & H3); [lia|].
      split; [lia|]. exists rest. split; [by f_equal|]. intros z Hz. apply H3 in Hz. lia.
Qed.

Lemma selectRestoreEntries_parts cf req entries :
  let filtered := filter (withinFileLimits cf req) entries in
  let r := selectRestoreEntries cf req entries in
  let max := rq_MaxPreloadTotalBytes req in
  (max <= 0 -> r = filtered) /\
  (0 < max -> stored_total r <= max /\
    exists rest, r ++ rest ≡ₚ filtered /\ ordered_by fresher (r ++ rest) /\
      forall z, head rest = Some z -> max < stored_total r + entryStoredSize z.2).
Proof.
  simpl. unfold selectRestoreEntries. set (f := filter _ entries). clearbody f.
  set (max := rq_MaxPreloadTotalBytes req).
  destruct (Z.leb_spec max 0) as [Hm|Hm]; simpl.
  - split; [|lia]. intros _. rewrite (proj2 (Z.ltb_ge 0 max)) by done. by destruct f as [|x []].
  - split; [lia|]. intros _. rewrite (proj2 (Z.ltb_lt 0 max)) by done.
    destruct f as [|x [|y f]]; [simpl|simpl|cbn [length Nat.ltb Nat.leb orb]].
    + split; [lia|]. exists []. split; [done|]. split; [apply ordered_by_nil|done].
    + assert (Ho : ordered_by fresher [x]).
      { apply ordered_by_cons. split; [constructor|apply ordered_by_nil]. }
      destruct (Z.ltb_spec max (entryStoredSize x.2)) as [Hx|Hx]; simpl.
      * split; [lia|]. exists [x]. split; [done|]. split; [done|]. intros z [= <-]. lia.
      * split; [lia|]. exists []. done.
    + set (l := stable_sort fresher (x :: y :: f)).
      destruct (takeBudget_spec max 0 l) as (H1 & rest & H2 & H3); [lia|].
      split; [done|]. exists rest. rewrite <-H2. split; [apply stable_sort_perm|].
      split; [apply stable_sort_ordered, _|done].
Qed.

(** What a restore sends respects its limits and prefers the freshest
    objects.  Without a total budget it is every entry within the file size limits,
    in order; with one, the sizes sum up to at most the budget, and the entries sent
    are the start of a freshest-first ordering of the admissible ones, cut only
    where the next object would not fit. *)
Theorem selectRestoreEntries_spec cf req entries :
  let filtered := filter (withinFileLimits cf req) entries in
  let r := selectRestoreEntries cf req entries in
  let max := rq_MaxPreloadTotalBytes req in
  (max <= 0 -> r = filtered) /\
  (0 < max -> stored_total r <= max /\
    exists rest, r ++ rest ≡ₚ filtered /\ ordered_by fresher (r ++ rest) /\
      forall z, head rest = Some z -> max < stored_total r + entryStoredSize z.2).
Proof. apply selectRestoreEntries_parts. Qed.

Lemma selectRestoreEntries_sub cf req entries x :
  x ∈ selectRestoreEntries cf req entries -> x ∈ entries /\ withinFileLimits cf req x.
Proof.
  intros Hx. destruct (selectRestoreEntries_parts cf req entries) as [H1 H2]. simpl in *.
  assert (Hf : x ∈ filter (withinFileLimits cf req) entries).
  { destruct (Z.le_gt_cases (rq_MaxPreloadTotalBytes req) 0) as [Hm|Hm].
    - by rewrite <-H1.
    - destruct (H2 Hm) as (_ & rest & Hp & _). rewrite <-Hp. set_solver. }
  apply list_elem_of_filter in Hf. tauto.
Qed.

Lemma selectRestoreEntries_NoDup cf req entries :
  NoDup entries.*1 -> NoDup (selectRestoreEntries cf req entries).*1.
Proof.
  intros Hn. assert (Hf : NoDup (filter (withinFileLimits cf req) entries).*1).
  { eapply sublist_NoDup; [exact Hn|]. apply fmap_sublist, sublist_filter. }
  destruct (selectRestoreEntries_parts cf req entries) as [H1 H2]. simpl in *.
  destruct (Z.le_gt_cases (rq_MaxPreloadTotalBytes req) 0) as [Hm|Hm]; [by rewrite H1|].
  destruct (H2 Hm) as (_ & rest & Hp & _). rewrite <-Hp, fmap_app in Hf. by apply NoDup_app in Hf as [? _].
Qed.

(** ** Resolving *)

Section resolving.
Context `{Zstd} `{SliceSort}.

(** What the steps of a resolution keep: the store holds part of [a]. *)
Definition part_of (cf : Config) (a : Contents) (s : Store) : Prop :=
  exists a', repr cf s a' /\ a' ⊆ a.

Definition held (a : Contents) (p : bytes) : Prop := is_Some (a !! p).

Lemma part_of_indexed cf a s p : part_of cf a s -> indexed s p -> held a p.
Proof.
  intros (a' & Hr & Hs) Hp. rewrite (repr_indexed cf s a') in Hp by done.
  destruct Hp as [x Hx]. exists x. by eapply lookup_weaken.
Qed.

Lemma part_of_listable cf a s :
  part_of cf a s -> (forall p, held a p -> listable p) -> index_listable s.
Proof. intros Hp Hl p Hi. by eapply Hl, part_of_indexed. Qed.

Lemma part_of_heal cf env sv path a sv' r :
  cfg_ok cf -> env_ok env -> part_of cf a (sv_store sv) -> (forall p, held a p -> listable p) ->
  loadHealed cf env sv path = (sv', r) ->
  part_of cf a (sv_store sv') /\
  match r with
  | Ok l => l = contents (sv_store sv) (sv_files sv) path /\ forall p, p ∈ l -> held a p
  | Err e => sv' = sv
  end.
Proof.
  intros Hc He Hp Hl Hh. assert (Hi := part_of_listable _ _ _ Hp Hl).
  destruct Hp as (a' & Hr & Hs).
  destruct (loadHealed_spec cf env sv path a' sv' r Hc He Hr Hi Hh) as ((a2 & Hr2 & Hs2) & _ & _ & Hm).
  split; [exists a2; split; [done|by etransitivity]|].
  destruct r as [l|e]; [|done]. split; [done|]. intros p. rewrite Hm. intros Hin.
  apply contents_indexed in Hin. eapply part_of_indexed; [|done]. by exists a'.
Qed.

(** The accumulated result: distinct held paths, all of them seen. *)
Record acc_ok (a : Contents) (acc : RestoreAcc) : Prop := {
  ao_seen : ra_seen acc = list_to_set (ra_result acc);
  ao_nodup : NoDup (ra_result acc);
  ao_held p : p ∈ ra_result acc -> held a p;
}.

Lemma acc_ok_add a acc (paths : list bytes) srcs matched :
  acc_ok a acc -> (forall p, p ∈ paths -> held a p) ->
  acc_ok a (mkAcc (list_to_set paths ∪ ra_seen acc) (ra_result acc ++ unseen (ra_seen acc) paths)
              srcs matched).
Proof.
  intros [H1 H2 H3] Hp. split; simpl.
  - rewrite list_to_set_app_L, H1. apply set_eq. intros p.
    rewrite !elem_of_union, !elem_of_list_to_set, elem_of_unseen, elem_of_list_to_set.
    destruct (decide (p ∈ ra_result acc)); tauto.
  - apply NoDup_app. split; [done|]. split; [|apply NoDup_unseen].
    intros p Hin [_ Hn]%elem_of_unseen. rewrite H1 in Hn. set_solver.
  - intros p [?|[? _]%elem_of_unseen]%elem_of_app; auto.
Qed.

Lemma restoreLoop_spec cf env sv cands acc a sv' r :
  cfg_ok cf -> env_ok env -> part_of cf a (sv_store sv) -> (forall p, held a p -> listable p) ->
  acc_ok a acc ->
  restoreLoop cf env sv cands acc = (sv', r) ->
  part_of cf a (sv_store sv') /\
  forall acc', r = Ok acc' -> acc_ok a acc' /\ ra_result acc `prefix_of` ra_result acc' /\
    ra_sources acc `prefix_of` ra_sources acc'.
Proof.
  intros Hc He Hp Hl. revert sv acc Hp.
  induction cands as [|[name [path|e]] cands IH]; intros sv acc Hp Ha; simpl.
  - intros [= <- <-]. split; [done|]. by intros acc' [= <-].
  - destruct (loadHealed cf env sv path) as [sv1 [l|e]] eqn:Eh;
      (apply (part_of_heal cf env sv path a) in Eh as [Hp1 Hm]; [|done..]).
    + destruct Hm as [_ Hm]. intros Hrun. destruct (IH sv1 (addSource acc name path l)) as [Hp2 Hres];
        [done|by apply acc_ok_add|done|].
      split; [done|]. intros acc' E. destruct (Hres acc' E) as (Ho & Hpre & Hsrc).
      split; [done|]. unfold addSource in *. simpl in *.
      split; (etransitivity; [by apply prefix_app_r|done]).
    + subst sv1. destruct (isNotExist e); [by apply IH|]. by intros [= <- <-].
  - destruct (isNotExist e); [by apply IH|]. by intros [= <- <-].
Qed.

(** The first manifest of a request, when it can be read, is part of the result. *)
Lemma restoreLoop_first cf env sv name mp cands acc a sv' acc' p :
  cfg_ok cf -> env_ok env -> part_of cf a (sv_store sv) -> (forall p, held a p -> listable p) ->
  acc_ok a acc -> p ∈ contents (sv_store sv) (sv_files sv) mp ->
  restoreLoop cf env sv ((name, Ok mp) :: cands) acc = (sv', Ok acc') ->
  p ∈ ra_result acc' /\ name ∈ ra_sources acc'.
Proof.
  intros Hc He Hp Hl Ha Hin El. cbn [restoreLoop] in El.
  destruct (loadHealed cf env sv mp) as [sv2 [l|e]] eqn:Eh.
  - apply (part_of_heal cf env sv mp a) in Eh as [Hp2 [-> Hm]]; [|done..].
    apply (restoreLoop_spec _ _ _ _ _ a) in El as [_ Hres]; [|done..|by apply acc_ok_add].
    destruct (Hres acc' eq_refl) as (_ & Hpre & Hsrc). simpl in *. split.
    + eapply elem_of_prefix; [|exact Hpre]. rewrite elem_of_app, elem_of_unseen, (ao_seen _ _ Ha).
      rewrite elem_of_list_to_set. destruct (decide (p ∈ ra_result acc)); tauto.
    + eapply elem_of_prefix; [|exact Hsrc]. set_solver.
  - unfold loadHealed in Eh. destruct (loadManifest _ _ _ _) as [[l ch]|e'] eqn:Em; [done|].
    injection Eh as <- ->. destruct (isNotExist e) eqn:En; [|done].
    apply loadManifest_absent in Em as [Ec _]; [|done|done]. rewrite Ec in Hin. set_solver.
Qed.

Lemma loadSamples_spec cf env sv cs res a sv' r :
  cfg_ok cf -> env_ok env -> part_of cf a (sv_store sv) -> (forall p, held a p -> listable p) ->
  NoDup res -> (forall p, p ∈ res -> held a p) ->
  loadSamples cf env sv cs res = (sv', r) ->
  part_of cf a (sv_store sv') /\
  forall l, r = Ok l -> NoDup l /\ (forall p, p ∈ l -> held a p).
Proof.
  intros Hc He Hp Hl. revert sv res Hp.
  induction cs as [|c cs IH]; intros sv res Hp Hn Hres; simpl.
  - intros [= <- <-]. split; [done|]. by intros l [= <-].
  - destruct (loadHealed cf env sv (cd_path c)) as [sv1 [l|e]] eqn:Eh;
      (apply (part_of_heal cf env sv (cd_path c) a) in Eh as [Hp1 Hm]; [|done..]).
    + destruct Hm as [_ Hm]. apply IH; [done|..].
      * apply NoDup_app. split; [done|]. split; [|apply NoDup_unseen].
        intros p Hin [_ Hx]%elem_of_unseen. set_solver.
      * intros p [?|[? _]%elem_of_unseen]%elem_of_app; auto.
    + subst sv1. by intros [= <- <-].
Qed.

Lemma loadDefault_spec cf env sv bt exclude a sv' r :
  cfg_ok cf -> env_ok env -> part_of cf a (sv_store sv) -> (forall p, held a p -> listable p) ->
  loadDefaultManifestPaths cf env sv bt exclude = (sv', r) ->
  part_of cf a (sv_store sv') /\
  forall l, r = Ok l -> NoDup l /\ (forall p, p ∈ l -> held a p).
Proof.
  intros Hc He Hp Hl. unfold loadDefaultManifestPaths.
  destruct (manifestScopeDir bt) as [d|]; [|by intros [= <- <-]].
  destruct (listManifestFiles _ _ _) as [files|]; [|by intros [= <- <-]].
  destruct (defaultCandidates _ _ _ _) as [|c cs]; [by intros [= <- <-]|].
  apply loadSamples_spec; [done..|constructor|set_solver].
Qed.

Lemma restorePaths_parts cf env sv req a sv' r :
  cfg_ok cf -> env_ok env -> part_of cf a (sv_store sv) -> (forall p, held a p -> listable p) ->
  restorePaths cf env sv req = (sv', r) ->
  part_of cf a (sv_store sv') /\
  forall l srcs, r = Ok (l, srcs) -> NoDup l /\ (forall p, p ∈ l -> held a p) /\ srcs <> [] /\
    forall mp, resolveCommitManifestPath cf (rq_Commit req) (rq_BuildType req) = Ok mp ->
      forall p, p ∈ contents (sv_store sv) (sv_files sv) mp -> p ∈ l /\ #"commit" ∈ srcs.
Proof.
  intros Hc He Hp Hl. unfold restorePaths.
  destruct (_ && _) eqn:Eb.
  { intros [= <- <-]. split; [done|]. intros l srcs [= <- <-].
    split; [constructor|]. split; [set_solver|]. split; [done|]. intros mp Hmp.
    unfold resolveCommitManifestPath in Hmp. go_bool. unfold blank in *. by rewrite H1 in Hmp. }
  clear Eb.
  assert (Hacc : acc_ok a (mkAcc ∅ [] [] ∅)) by (split; [done|constructor|set_solver]).
  destruct (restoreLoop _ _ _ _ _) as [sv1 [acc|e]] eqn:El.
  2: { apply (restoreLoop_spec _ _ _ _ _ a) in El as [Hp1 _]; [|done..]. intros [= <- <-]. done. }
  assert (Hcommit : forall mp,
    resolveCommitManifestPath cf (rq_Commit req) (rq_BuildType req) = Ok mp ->
    forall p, p ∈ contents (sv_store sv) (sv_files sv) mp ->
    p ∈ ra_result acc /\ #"commit" ∈ ra_sources acc).
  { intros mp Hmp p Hin. unfold restoreCandidates in El. rewrite Hmp in El.
    by eapply restoreLoop_first. }
  apply (restoreLoop_spec _ _ _ _ _ a) in El as [Hp1 Hres]; [|done..].
  destruct (Hres acc eq_refl) as ([H1 H2 H3] & _ & _). clear Hres.
  destruct (ra_sources acc) as [|src srcs] eqn:Esrc.
  - unfold defaultFallbackPaths.
    destruct (loadDefaultManifestPaths _ _ _ _ _) as [sv2 [def|e]] eqn:Ed;
      (apply (loadDefault_spec _ _ _ _ _ a) in Ed as [Hp2 Hd]; [|done..]).
    2: { destruct (isNotExist e); intros [= <- <-]; split; try done. intros l srcs [= <- <-].
         split; [done|]. split; [done|]. split; [done|]. intros mp Hmp p Hin.
         destruct (Hcommit mp Hmp p Hin) as [_ Hx]. set_solver. }
    destruct (Hd def eq_refl) as [Hd1 Hd2].
    assert (Hok : NoDup (ra_result acc ++ unseen (ra_seen acc) def) /\
      forall p, p ∈ ra_result acc ++ unseen (ra_seen acc) def -> held a p).
    { destruct (acc_ok_add a acc def [] ∅) as [_ ? ?]; [by split|done|done]. }
    intros Hout. assert (Hfin : sv' = sv2 /\ exists l srcs, r = Ok (l, srcs) /\ srcs <> [] /\
      l = ra_result acc ++ unseen (ra_seen acc) def).
    { destruct (unseen (ra_seen acc) def); injection Hout as <- <-;
        (split; [done|]); eexists _, _; (split; [done|]); (split; [done|]); by rewrite ?app_nil_r. }
    destruct Hfin as (-> & l & srcs & -> & Hs & ->). split; [done|]. intros l' srcs' [= <- <-].
    split; [apply Hok|]. split; [apply Hok|]. split; [done|]. intros mp Hmp p Hin.
    destruct (Hcommit mp Hmp p Hin) as [_ Hx]. set_solver.
  - unfold supplementSmallResultWithDefault.
    destruct (loadDefaultManifestPaths _ _ _ _ _) as [sv2 [def|e]] eqn:Ed;
      (apply (loadDefault_spec _ _ _ _ _ a) in Ed as [Hp2 Hd]; [|done..]).
    + destruct (Hd def eq_refl) as [Hd1 Hd2]. destruct (small _ _).
      * intros [= <- <-]. split; [done|]. intros l srcs' [= <- <-].
        destruct (acc_ok_add a acc def [] ∅) as [_ Hn Hh]; [by split|done|]. simpl in Hn, Hh.
        split; [done|]. split; [done|]. rewrite Esrc. split; [done|].
        intros mp Hmp p Hin. destruct (Hcommit mp Hmp p Hin) as [? ?]. set_solver.
      * intros [= <- <-]. split; [done|]. intros l srcs' [= <- <-]. rewrite Esrc. done.
    + destruct (isNotExist e); intros [= <- <-]; (split; [done|]); [|done].
      intros l srcs' [= <- <-]. rewrite Esrc. done.
Qed.

(** What looking at manifests leaves of one of them: objects may have been evicted for
    a healed manifest, the paths of those that are left are still listed. *)
Definition keeps (mp : bytes) (sv sv' : Server) : Prop :=
  (forall p, indexed (sv_store sv') p -> indexed (sv_store sv) p) /\
  (forall p, indexed (sv_store sv') p ->
     p ∈ contents (sv_store sv') (sv_files sv') mp <-> p ∈ contents (sv_store sv) (sv_files sv) mp).

#[local] Instance keeps_preorder mp : PreOrder (keeps mp).
Proof.
  split; [by intros sv|]. intros sv1 sv2 sv3 [H1 H2] [H3 H4]. split; [auto|].
  intros p Hp. rewrite H4 by done. auto.
Qed.

Lemma loadHealed_keeps cf env sv path a sv' r mp :
  cfg_ok cf -> env_ok env -> part_of cf a (sv_store sv) -> (forall p, held a p -> listable p) ->
  manifest_file cf mp -> loadHealed cf env sv path = (sv', r) -> keeps mp sv sv'.
Proof.
  intros Hc He Hp Hl Hmp Hh. assert (Hi := part_of_listable _ _ _ Hp Hl). destruct Hp as (a1 & Hr & _).
  destruct (decide (path = mp)) as [->|Hne].
  { destruct (loadHealed_spec cf env sv mp a1 sv' r Hc He Hr Hi Hh) as (_ & H1 & H2 & _). by split. }
  destruct (loadHealed_spec cf env sv path a1 sv' r Hc He Hr Hi Hh) as (_ & Hix & _). split; [done|].
  intros p Hpi. assert (Hf : sv_files sv' !! mp = sv_files sv !! mp).
  { revert Hh. unfold loadHealed. destruct (loadManifest _ _ _ _) as [[l [|]]|]; [|by intros [= <- _]..].
    destruct (writeManifest _ _ _ _ _) as [sv1 w] eqn:Ew. intros [= <- _]. simpl.
    eapply writeManifest_others; [exact Ew|done|]. by eapply manifest_not_tmp. }
  rewrite (contents_file _ _ _ _ Hf). apply contents_index; [done|by apply Hix].
Qed.

Lemma restoreLoop_keeps cf env sv cands acc a sv' r mp :
  cfg_ok cf -> env_ok env -> part_of cf a (sv_store sv) -> (forall p, held a p -> listable p) ->
  manifest_file cf mp -> restoreLoop cf env sv cands acc = (sv', r) -> keeps mp sv sv'.
Proof.
  intros Hc He Hp Hl Hmp. revert sv acc Hp.
  induction cands as [|[name [path|e]] cands IH]; intros sv acc Hp; simpl; [by intros [= <- _]| |].
  - destruct (loadHealed cf env sv path) as [sv1 x] eqn:Eh.
    assert (Hk := loadHealed_keeps cf env sv path a sv1 x mp Hc He Hp Hl Hmp Eh).
    apply (part_of_heal cf env sv path a) in Eh as [Hp1 _]; [|done..].
    destruct x as [l|e]; [|destruct (isNotExist e); [|by intros [= <- _]]];
      intros Hx; (etransitivity; [exact Hk|by eapply IH]).
  - destruct (isNotExist e); [by apply IH|by intros [= <- _]].
Qed.

Lemma loadSamples_keeps cf env sv cs res a sv' r mp :
  cfg_ok cf -> env_ok env -> part_of cf a (sv_store sv) -> (forall p, held a p -> listable p) ->
  manifest_file cf mp -> loadSamples cf env sv cs res = (sv', r) -> keeps mp sv sv'.
Proof.
  intros Hc He Hp Hl Hmp. revert sv res Hp. induction cs as [|c cs IH]; intros sv res Hp; simpl; [by intros [= <- _]|].
  destruct (loadHealed cf env sv (cd_path c)) as [sv1 x] eqn:Eh.
  assert (Hk := loadHealed_keeps cf env sv _ a sv1 x mp Hc He Hp Hl Hmp Eh).
  apply (part_of_heal cf env sv _ a) in Eh as [Hp1 _]; [|done..].
  destruct x as [l|e]; [|by intros [= <- _]]. intros Hx. etransitivity; [exact Hk|by eapply IH].
Qed.

Lemma loadDefault_keeps cf env sv bt exclude a sv' r mp :
  cfg_ok cf -> env_ok env -> part_of cf a (sv_store sv) -> (forall p, held a p -> listable p) ->
  manifest_file cf mp -> loadDefaultManifestPaths cf env sv bt exclude = (sv', r) -> keeps mp sv sv'.
Proof.
  intros Hc He Hp Hl Hmp. unfold loadDefaultManifestPaths.
  destruct (manifestScopeDir bt) as [d|]; [|by intros [= <- _]].
  destruct (listManifestFiles _ _ _) as [files|]; [|by intros [= <- _]].
  destruct (defaultCandidates _ _ _ _) as [|c cs]; [by intros [= <- _]|]. by eapply loadSamples_keeps.
Qed.

Lemma restorePaths_keeps cf env sv req a sv' r mp :
  cfg_ok cf -> env_ok env -> part_of cf a (sv_store sv) -> (forall p, held a p -> listable p) ->
  manifest_file cf mp -> restorePaths cf env sv req = (sv', r) -> keeps mp sv sv'.
Proof.
  intros Hc He Hp Hl Hmp. unfold restorePaths. destruct (_ && _); [by intros [= <- _]|].
  destruct (restoreLoop _ _ _ _ _) as [sv1 x] eqn:El.
  assert (Hk := restoreLoop_keeps cf env sv _ _ a sv1 x mp Hc He Hp Hl Hmp El).
  apply (restoreLoop_spec _ _ _ _ _ a) in El as [Hp1 _]; [|done..|split; [done|constructor|set_solver]].
  destruct x as [acc|e]; [|by intros [= <- _]].
  assert (Hd : forall bt ex sv2 y, loadDefaultManifestPaths cf env sv1 bt ex = (sv2, y) -> keeps mp sv sv2).
  { intros bt ex sv2 y Hy. etransitivity; [exact Hk|by eapply loadDefault_keeps]. }
  destruct (ra_sources acc) as [|src srcs].
  - unfold defaultFallbackPaths. destruct (loadDefaultManifestPaths _ _ _ _ _) as [sv2 y] eqn:Ed.
    apply Hd in Ed. repeat case_match; intros; by simplify_eq.
  - unfold supplementSmallResultWithDefault. destruct (loadDefaultManifestPaths _ _ _ _ _) as [sv2 y] eqn:Ed.
    apply Hd in Ed. repeat case_match; intros; by simplify_eq.
Qed.
End resolving.

(** ** Restoring *)

Section restoring.
Context `{Zstd} `{SliceSort}.

(** The item a restore delivers for an entry. *)
Definition served (cf : Config) (s : Store) (x : restoreEntry) : FileItem :=
  PrepareBodyReader (responseItem cf s x.1 x.2) (openObject s).

Lemma served_counters cf s n x : served cf (add_counters s n 0 0 0) x = served cf s x.
Proof. done. Qed.

Lemma not_broken cf s a p ie b :
  repr cf s a -> a !! p = Some (ie, b) -> broken cf s p ie = false.
Proof.
  intros [Hh _] Hp. unfold broken. destruct (ie_PoolPage ie =? 0) eqn:Ez; [|done]. simpl.
  assert (Hpl : pooled ie = false) by (unfold pooled; by rewrite Ez).
  rewrite (hd_plain _ _ _ Hh p ie b) by done. rewrite (hd_size _ _ _ Hh p ie b) by done.
  by rewrite Z.eqb_refl.
Qed.

(** Nothing of a consistent store is broken: every entry is served. *)
Lemma serveLoop_all cf s a entries :
  repr cf s a -> Forall (fun x => exists b, a !! x.1 = Some (x.2, b)) entries ->
  exists n, serveLoop cf s entries = (add_counters s n 0 0 0, map (served cf s) entries).
Proof.
  intros Hr He. revert s Hr. induction He as [|[p ie] es [b Hb] He IH]; intros s Hr.
  - exists 0. destruct s. unfold add_counters. simpl. by rewrite !Z.add_0_r.
  - cbn [serveLoop]. rewrite (not_broken cf s a p ie b) by done.
    destruct (IH (add_counters s 1 0 0 0)) as [n ->]; [by apply repr_add_counters|].
    exists (1 + n). f_equal. unfold add_counters. simpl. by rewrite Z.add_assoc, !Z.add_0_r.
Qed.

Lemma indexedEntries_spec s paths p ie :
  (p, ie) ∈ indexedEntries s paths <-> p ∈ paths /\ index s !! p = Some ie.
Proof.
  unfold indexedEntries. rewrite list_elem_of_omap. split.
  - intros (q & Hq & E). destruct (index s !! q) eqn:Ei; [|done]. simpl in E.
    injection E as <- <-. done.
  - intros [Hp Hi]. exists p. split; [done|]. by rewrite Hi.
Qed.

Lemma indexedEntries_NoDup s paths : NoDup paths -> NoDup (indexedEntries s paths).*1.
Proof.
  intros Hn. eapply sublist_NoDup; [exact Hn|]. unfold indexedEntries. clear Hn.
  induction paths as [|p paths IH]; simpl; [done|].
  destruct (index s !! p); simpl; by constructor.
Qed.

(** A restore, step by step. *)
Lemma Restore_parts cf env sv req a sv' items srcs :
  cfg_ok cf -> env_ok env -> repr cf (sv_store sv) a -> (forall p, held a p -> listable p) ->
  Restore cf env sv req = (sv', Ok (items, srcs)) ->
  exists s1 paths a' n, repr cf s1 a' /\ a' ⊆ a /\ sv_store sv' = add_counters s1 n 0 0 0 /\
    NoDup paths /\ srcs <> [] /\
    items = map (served cf s1) (selectRestoreEntries cf req (indexedEntries s1 paths)) /\
    forall mp, resolveCommitManifestPath cf (rq_Commit req) (rq_BuildType req) = Ok mp ->
      forall p, p ∈ contents (sv_store sv) (sv_files sv) mp -> p ∈ paths /\ #"commit" ∈ srcs.
Proof.
  intros Hc He Hr Hl. unfold Restore.
  destruct (restorePaths cf env sv req) as [sv1 [[paths srcs1]|e]] eqn:Ep; [|done].
  apply (restorePaths_parts cf env sv req a) in Ep as [(a' & Hr' & Hsub) Hok]; [|done..|by exists a|done].
  destruct (Hok paths srcs1 eq_refl) as (Hn & Hheld & Hs & Hcommit).
  set (es := selectRestoreEntries _ _ _).
  destruct (serveLoop_all cf (sv_store sv1) a' es) as [n ->]; [done| |].
  - apply Forall_forall. intros [p ie] [Hx _]%selectRestoreEntries_sub.
    apply indexedEntries_spec in Hx as [_ Hi]. rewrite (lookup_index cf _ a') in Hi by apply Hr'.
    simpl. destruct (a' !! p) as [[ie' b]|]; [|done]. injection Hi as ->. eauto.
  - intros [= <- <- <-]. exists (sv_store sv1), paths, a', n. done.
Qed.

Lemma Restore_serves cf env sv req a sv' items srcs
    (Hc : cfg_ok cf) (He : env_ok env) (Hr : repr cf (sv_store sv) a)
    (Hl : forall p, held a p -> listable p)
    (Hw : forall p ie b, a !! p = Some (ie, b) -> 0 <= ie_WireSize ie)
    (Hres : Restore cf env sv req = (sv', Ok (items, srcs))) :
  part_of cf a (sv_store sv') /\ NoDup (map (fun i => fi_Path (fi_meta i)) items) /\
  forall i, i ∈ items ->
    exists ie b, a !! fi_Path (fi_meta i) = Some (ie, b) /\
      fi_meta i = responseMeta cf (fi_Path (fi_meta i)) ie /\
      withinFileLimits cf req (fi_Path (fi_meta i), ie) /\ WriteTo i = Ok b.
Proof.
  apply (Restore_parts _ _ _ _ a) in Hres
    as (s1 & paths & a' & n & Hr' & Hsub & -> & Hn & _ & -> & _); [|done..].
  split; [exists a'; split; [by apply repr_add_counters|done]|].
  assert (Hpath : forall x, fi_Path (fi_meta (served cf s1 x)) = x.1).
  { intros x. unfold served. by rewrite PrepareBodyReader_meta, responseItem_meta. }
  split.
  - rewrite map_map. rewrite (map_ext _ _ Hpath).
    apply (selectRestoreEntries_NoDup cf req), indexedEntries_NoDup, Hn.
  - intros i ([p ie] & -> & Hx)%list_elem_of_fmap. apply selectRestoreEntries_sub in Hx as [Hx Hlim].
    apply indexedEntries_spec in Hx as [_ Hi]. rewrite (lookup_index cf _ a') in Hi by apply Hr'.
    rewrite Hpath. simpl. destruct (a' !! p) as [[ie' b]|] eqn:Ea; [|done]. injection Hi as ->.
    assert (Hp : a !! p = Some (ie, b)) by (by eapply lookup_weaken).
    exists ie, b. split; [done|]. split; [|split; [done|]].
    + unfold served. by rewrite PrepareBodyReader_meta, responseItem_meta.
    + eapply served_body; [done|exact Hr'|done|eauto].
Qed.

(** A restore sends every object at most once, within the limits of the
    request, and every one of them with its metadata and exactly the bytes the
    store holds for it; the store keeps its invariant and is not changed except
    that writing back a healed manifest on a full disk may evict. *)
Theorem Restore_serves_stored cf env sv req a sv' items srcs
    (Hc : cfg_ok cf) (He : env_ok env) (Hr : repr cf (sv_store sv) a)
    (Hl : forall p, held a p -> listable p)
    (Hw : forall p ie b, a !! p = Some (ie, b) -> 0 <= ie_WireSize ie)
    (Hres : Restore cf env sv req = (sv', Ok (items, srcs))) :
  part_of cf a (sv_store sv') /\ NoDup (map (fun i => fi_Path (fi_meta i)) items) /\
  forall i, i ∈ items ->
    exists ie b, a !! fi_Path (fi_meta i) = Some (ie, b) /\
      fi_meta i = responseMeta cf (fi_Path (fi_meta i)) ie /\
      withinFileLimits cf req (fi_Path (fi_meta i), ie) /\ WriteTo i = Ok b.
Proof. by eapply Restore_serves. Qed.

Definition unlimited (cf : Config) (req : Request) : Prop :=
  rq_MaxFileBytes req <= 0 /\ rq_MaxPreloadTotalBytes req <= 0 /\ cf_maxFileBytes cf <= 0.

Lemma unlimited_within cf req x : unlimited cf req -> withinFileLimits cf req x.
Proof.
  intros (H1 & _ & H3). unfold withinFileLimits.
  by rewrite (proj2 (Z.ltb_ge 0 _)), (proj2 (Z.ltb_ge 0 (cf_maxFileBytes cf))).
Qed.

(** The request has no total limit, or everything that is stored fits it. *)
Definition total_fits (req : Request) (a : Contents) : Prop :=
  rq_MaxPreloadTotalBytes req <= 0 \/
  ((forall p x, a !! p = Some x -> 0 <= entryStoredSize x.1) /\ stored_total (map_to_list (fst <$> a)) <= rq_MaxPreloadTotalBytes req).

Lemma stored_total_app l k : stored_total (l ++ k) = stored_total l + stored_total k.
Proof. unfold stored_total. induction l as [|x l IH]; simpl in *; [done|]. rewrite IH. lia. Qed.

Lemma stored_total_perm l k : l ≡ₚ k -> stored_total l = stored_total k.
Proof. unfold stored_total. induction 1; simpl in *; lia. Qed.

Lemma stored_total_nonneg l : (forall x, x ∈ l -> 0 <= entryStoredSize x.2) -> 0 <= stored_total l.
Proof.
  induction l as [|x l IH]; [done|]. intros Hl. change (x :: l) with ([x] ++ l). rewrite stored_total_app.
  assert (0 <= entryStoredSize x.2) by (apply Hl, list_elem_of_here).
  assert (0 <= stored_total l) by (apply IH; intros y Hy; by apply Hl, list_elem_of_further). unfold stored_total at 1. simpl. lia.
Qed.

(** Entries of a store are no more than all of it. *)
Lemma stored_total_within (a : Contents) l :
  (forall p x, a !! p = Some x -> 0 <= entryStoredSize x.1) ->
  NoDup l -> (forall p ie, (p, ie) ∈ l -> exists b, a !! p = Some (ie, b)) ->
  stored_total l <= stored_total (map_to_list (fst <$> a)).
Proof.
  intros Hw Hn Hl. assert (Hsub : l ⊆+ map_to_list (fst <$> a)).
  { apply NoDup_submseteq; [done|]. intros [p ie] Hx. destruct (Hl p ie Hx) as [b Hb].
    apply elem_of_map_to_list. by rewrite lookup_fmap, Hb. }
  apply submseteq_Permutation in Hsub as [k Hk]. rewrite (stored_total_perm _ _ Hk), stored_total_app.
  assert (0 <= stored_total k); [|lia]. apply stored_total_nonneg. intros [p ie] Hx.
  assert (Hm : (p, ie) ∈ map_to_list (fst <$> a)) by (rewrite Hk; apply elem_of_app; by right).
  apply elem_of_map_to_list in Hm. rewrite lookup_fmap in Hm. destruct (a !! p) as [x|] eqn:Ex; [|done].
  injection Hm as <-. by apply (Hw p).
Qed.

Lemma total_fits_sub req a a2 : a2 ⊆ a -> total_fits req a -> total_fits req a2.
Proof.
  intros Hsub [?|[Hw Ht]]; [by left|right].
  assert (Hall : forall p x, a2 !! p = Some x -> 0 <= entryStoredSize x.1) by (intros p x Hx; by eapply Hw, lookup_weaken).
  split; [done|]. etrans; [|exact Ht]. apply stored_total_within; [done|apply NoDup_map_to_list|].
  intros p ie Hx%elem_of_map_to_list. rewrite lookup_fmap in Hx. destruct (a2 !! p) as [[e b]|] eqn:Ex; [|done].
  injection Hx as <-. exists b. by eapply lookup_weaken.
Qed.

(** Within the total, every entry within the file limits is selected. *)
Lemma select_all cf req a entries x :
  total_fits req a -> NoDup entries -> (forall p ie, (p, ie) ∈ entries -> exists b, a !! p = Some (ie, b)) ->
  x ∈ entries -> withinFileLimits cf req x -> x ∈ selectRestoreEntries cf req entries.
Proof.
  intros Htot Hn Hall Hx Hw. destruct (selectRestoreEntries_parts cf req entries) as [Hfree Hpos]. cbv zeta in *.
  assert (Hf : x ∈ filter (withinFileLimits cf req) entries) by (by apply list_elem_of_filter).
  destruct (Z.le_gt_cases (rq_MaxPreloadTotalBytes req) 0) as [Hm|Hm]; [by rewrite (Hfree Hm)|].
  destruct Htot as [?|[Hsz Htot]]; [lia|]. destruct (Hpos ltac:(lia)) as (_ & rest & Hp & _ & Hz).
  destruct rest as [|z rest]; [rewrite app_nil_r in Hp; by rewrite Hp|]. exfalso. specialize (Hz z eq_refl).
  assert (Hle := stored_total_within a (filter (withinFileLimits cf req) entries) Hsz (NoDup_filter _ _ Hn)).
  rewrite <-(stored_total_perm _ _ Hp), stored_total_app in Hle. change (z :: rest) with ([z] ++ rest) in Hle, Hp.
  rewrite stored_total_app in Hle. assert (0 <= stored_total rest).
  { apply stored_total_nonneg. intros [p ie] Hy. destruct (Hall p ie) as [b Hb]; [|by apply (Hsz p (ie, b))].
    assert (Hy2 : (p, ie) ∈ filter (withinFileLimits cf req) entries) by (rewrite <-Hp; set_solver).
    by apply list_elem_of_filter in Hy2 as [_ ?]. }
  assert (stored_total [z] = entryStoredSize z.2) by (unfold stored_total; simpl; lia).
  assert (stored_total (selectRestoreEntries cf req entries) + (stored_total [z] + stored_total rest) <=
    stored_total (map_to_list (fst <$> a))); [|lia].
  apply Hle. intros p ie [_ Hy]%list_elem_of_filter. by apply Hall.
Qed.

(** A restore delivers what the commit's manifest lists, the store still holds and the
    limits admit. *)
Lemma commit_restored cf env sv req a sv' items srcs p mp ie b :
  cfg_ok cf -> env_ok env -> repr cf (sv_store sv) a -> (forall p, held a p -> listable p) ->
  (forall p ie b, a !! p = Some (ie, b) -> 0 <= ie_WireSize ie) ->
  resolveCommitManifestPath cf (rq_Commit req) (rq_BuildType req) = Ok mp -> total_fits req a ->
  Restore cf env sv req = (sv', Ok (items, srcs)) ->
  p ∈ contents (sv_store sv) (sv_files sv) mp -> indexed (sv_store sv') p ->
  a !! p = Some (ie, b) -> withinFileLimits cf req (p, ie) ->
  #"commit" ∈ srcs /\ exists i, i ∈ items /\ fi_Path (fi_meta i) = p /\ WriteTo i = Ok b.
Proof.
  intros Hc He Hr Hl Hw Hmp Htot Hres Hin Hidx Ha Hlim.
  apply (Restore_parts _ _ _ _ a) in Hres
    as (s1 & paths' & a' & n & Hr' & Hsub & Es2 & Hn & _ & -> & Hcommit); [|done..].
  rewrite Es2 in Hidx. assert (Hix : indexed s1 p) by done. clear Hidx.
  destruct (Hcommit mp Hmp p Hin) as [Hp' Hsrc]. split; [done|].
  destruct (proj1 (repr_indexed cf s1 a' p Hr') Hix) as [[ie' b'] Ea].
  assert (Hp2 : a !! p = Some (ie', b')) by (by eapply lookup_weaken). assert (ie' = ie /\ b' = b) as [-> ->] by (split; congruence).
  assert (Hentry : forall q e, (q, e) ∈ indexedEntries s1 paths' -> exists x, a !! q = Some (e, x)).
  { intros q e [_ Hq]%indexedEntries_spec. rewrite (lookup_index cf s1 a') in Hq by apply Hr'.
    destruct (a' !! q) as [[e' x]|] eqn:Eq; [|done]. injection Hq as ->. exists x. by eapply lookup_weaken. }
  exists (served cf s1 (p, ie)). split; [|split].
  - apply list_elem_of_fmap. exists (p, ie). split; [done|]. apply (select_all cf req a); try done.
    + eapply NoDup_fmap_1, indexedEntries_NoDup, Hn.
    + apply indexedEntries_spec. split; [done|]. by rewrite (lookup_index cf s1 a'), Ea by apply Hr'.
  - unfold served. by rewrite PrepareBodyReader_meta, responseItem_meta.
  - eapply served_body; [done|exact Hr'|done|eauto].
Qed.

(** After a merge into the commit's manifest it lists the paths that are held. *)
Lemma merged_listed cf env sv sv1 req paths a p mp :
  cfg_ok cf -> env_ok env -> repr cf (sv_store sv) a -> (forall p, held a p -> listable p) ->
  Forall listable paths -> resolveCommitManifestPath cf (rq_Commit req) (rq_BuildType req) = Ok mp ->
  MergeSavedPaths cf env sv req paths = (sv1, Ok tt) -> p ∈ paths -> held a p ->
  sv_store sv1 = sv_store sv /\ p ∈ contents (sv_store sv1) (sv_files sv1) mp.
Proof.
  intros Hc He Hr Hl Hpaths Hmp Hmerge Hp Hheld.
  assert (Hi : index_listable (sv_store sv)).
  { intros q Hq. by apply Hl, (repr_indexed cf (sv_store sv) a). }
  destruct (MergeSavedPaths_spec cf env sv req paths a sv1 Hc He Hr Hi Hpaths Hmerge) as (Es & Hm & _).
  split; [done|]. apply (Hm KCommit mp p); [| |by apply (repr_indexed cf _ a)|by right].
  - intros E. unfold resolveCommitManifestPath in Hmp. simpl in E. rewrite E in Hmp. done.
  - unfold resolveCommitManifestPath in Hmp. by destruct (bool_decide _).
Qed.

(** What a job saved, the next job of the same commit gets back.  After the
    saved paths of a commit have been merged into its manifest, an unlimited
    restore for that commit, from any environment, answers from the commit and
    delivers each of the paths the store still holds, with its stored bytes. *)
Theorem saved_paths_are_restored cf env env' sv sv1 sv2 req req' paths a items srcs p mp
    (Hc : cfg_ok cf) (He : env_ok env) (He' : env_ok env') (Hr : repr cf (sv_store sv) a)
    (Hl : forall p, held a p -> listable p)
    (Hw : forall p ie b, a !! p = Some (ie, b) -> 0 <= ie_WireSize ie)
    (Hpaths : Forall listable paths)
    (Hmp : resolveCommitManifestPath cf (rq_Commit req) (rq_BuildType req) = Ok mp)
    (Hmerge : MergeSavedPaths cf env sv req paths = (sv1, Ok tt))
    (Hsame : rq_Commit req' = rq_Commit req /\ rq_BuildType req' = rq_BuildType req)
    (Hun : unlimited cf req')
    (Hres : Restore cf env' sv1 req' = (sv2, Ok (items, srcs)))
    (Hp : p ∈ paths) (Hheld : indexed (sv_store sv2) p) :
  #"commit" ∈ srcs /\
  exists i b, i ∈ items /\ fi_Path (fi_meta i) = p /\ (snd <$> a !! p) = Some b /\ WriteTo i = Ok b.
Proof.
  destruct Hsame as [E1 E2].
  assert (Hh : held a p).
  { assert (H2 := Hres). assert (Hst : sv_store sv1 = sv_store sv).
    { assert (Hi : index_listable (sv_store sv)).
      { intros q Hq. by apply Hl, (repr_indexed cf (sv_store sv) a). }
      by destruct (MergeSavedPaths_spec cf env sv req paths a sv1 Hc He Hr Hi Hpaths Hmerge) as (Es & _). }
    apply (Restore_serves _ _ _ _ a) in H2 as (Hpart & _); [|done|done|by rewrite Hst|done|done].
    by eapply part_of_indexed. }
  destruct (merged_listed cf env sv sv1 req paths a p mp) as [Es Hin]; [done..|]. destruct Hh as [[ie b] Ha].
  destruct (commit_restored cf env' sv1 req' a sv2 items srcs p mp ie b) as (Hs & i & Hi & Hpi & Hb); try done;
    [by rewrite Es|by rewrite E1, E2|left; apply Hun|by apply unlimited_within|].
  split; [done|]. exists i, b. split_and!; try done. by rewrite Ha.
Qed.
End restoring.

(** ** Clearing *)

Section clearing.
Context `{Zstd}.

(** The manifest [f] lists [p]. *)
Definition listed (env : Env) (fs : Files) (f p : bytes) : Prop :=
  exists ps, readManifestPaths env fs f = Ok ps /\ p ∈ ps.

Lemma listed_file env fs fs' f p : fs !! f = fs' !! f -> listed env fs f p <-> listed env fs' f p.
Proof. intros E. unfold listed, readManifestPaths, manifestLines, readFile. by rewrite E. Qed.

Lemma listed_clean env fs f p : listed env fs f p -> rel_clean p.
Proof.
  intros (ps & Hps & Hp). unfold readManifestPaths in Hps.
  destruct (manifestLines env fs f) as [ls|]; [|done]. injection Hps as <-.
  apply elem_of_unseen in Hp as [(l & _ & Hl)%list_elem_of_omap _].
  destruct (cleanRelativePath l) eqn:E; [|done]. injection Hl as ->. by eapply cleanRelativePath_ok.
Qed.

Lemma removeFile_spec env fs f :
  env_ok env ->
  match removeFile env fs f with
  | Ok fs' => forall q, fs' !! q = if bool_decide (q = f) then None else fs !! q
  | Err e => isNotExist e = true -> fs !! f = None
  end.
Proof.
  intros He. unfold removeFile. destruct (env_remove env f) as [e|] eqn:Er.
  - intros Hn. destruct e; try done. by destruct (proj2 (He f)).
  - destruct (fs !! f) eqn:Ef; [|done]. intros q. case_bool_decide as Hq.
    + subst. apply lookup_delete_eq.
    + by apply lookup_delete_ne.
Qed.

Lemma clearTargets_cons env fs t ts refs n fs' refs' n' :
  clearTargets env fs (t :: ts) refs n = (fs', Ok (refs', n')) ->
  env_ok env ->
  exists fs1 refs1 n1, clearTargets env fs1 ts refs1 n1 = (fs', Ok (refs', n')) /\
    (forall q, fs1 !! q = if bool_decide (q = t) then None else fs !! q) /\
    (forall p, p ∈ refs1 <-> p ∈ refs \/ listed env fs t p).
Proof.
  intros Hrun He. cbn [clearTargets] in Hrun.
  assert (Hrm := removeFile_spec env fs t He).
  assert (Hkeep : fs !! t = None -> forall q, fs !! q = if bool_decide (q = t) then None else fs !! q).
  { intros Hn q. by case_bool_decide; subst. }
  destruct (readManifestPaths env fs t) as [ps|e] eqn:Er.
  - assert (Hrefs : forall p, p ∈ refs ∪ list_to_set ps <-> p ∈ refs \/ listed env fs t p).
    { intros p. rewrite elem_of_union, elem_of_list_to_set. unfold listed. rewrite Er.
      split; [|naive_solver]. intros [?|?]; eauto. }
    destruct (removeFile env fs t) as [fs1|e1]; [by eauto 10|].
    destruct (isNotExist e1) eqn:En; [|done]. eexists fs, _, _. split; [done|]. auto.
  - destruct (isNotExist e) eqn:En; [|done].
    assert (Hrefs : forall p, p ∈ refs <-> p ∈ refs \/ listed env fs t p).
    { intros p. unfold listed. rewrite Er. naive_solver. }
    destruct (removeFile env fs t) as [fs1|e1]; [by eauto 10|].
    destruct (isNotExist e1) eqn:En1; [|done]. eexists fs, _, _. split; [done|]. auto.
Qed.

Lemma listed_absent env fs t p : env_ok env -> fs !! t = None -> ~ listed env fs t p.
Proof.
  intros He Hn (ps & Hps & _). unfold readManifestPaths, manifestLines, readFile in Hps.
  rewrite Hn in Hps. by destruct (env_read env t).
Qed.

Lemma clearTargets_spec env fs ts refs n fs' refs' n' :
  clearTargets env fs ts refs n = (fs', Ok (refs', n')) -> env_ok env ->
  (forall q, fs' !! q = if bool_decide (q ∈ ts) then None else fs !! q) /\
  (forall p, p ∈ refs' <-> p ∈ refs \/ exists t, t ∈ ts /\ listed env fs t p).
Proof.
  intros Hrun He. revert fs refs n Hrun. induction ts as [|t ts IH]; intros fs refs n Hrun.
  { simpl in Hrun. simplify_eq. split; [done|]. set_solver. }
  apply clearTargets_cons in Hrun as (fs1 & refs1 & n1 & Hrun & Hf & Hr); [|done].
  destruct (IH _ _ _ Hrun) as [H1 H2]. split.
  - intros q. rewrite H1, Hf. case_bool_decide as Hq.
    + by rewrite bool_decide_eq_true_2 by set_solver.
    + case_bool_decide as Ht; [by rewrite bool_decide_eq_true_2 by set_solver|].
      by rewrite bool_decide_eq_false_2 by set_solver.
  - intros p. rewrite H2, Hr. split.
    + intros [[?|?]|(t' & Ht' & Hl)]; [by left|right; exists t; set_solver|].
      right. exists t'. split; [set_solver|]. destruct (decide (t' = t)) as [->|Hne].
      * exfalso. eapply (listed_absent env fs1 t); [done| |done]. rewrite Hf. by rewrite bool_decide_eq_true_2.
      * eapply listed_file; [|exact Hl]. rewrite Hf. by rewrite bool_decide_eq_false_2.
    + intros [?|(t' & Ht' & Hl)]; [tauto|]. destruct (decide (t' = t)) as [->|Hne]; [tauto|].
      right. exists t'. split; [set_solver|]. eapply listed_file; [|exact Hl].
      rewrite Hf. by rewrite bool_decide_eq_false_2.
Qed.

Lemma collectRefs_spec env fs files refs refs' :
  collectRefs env fs files refs = Ok refs' ->
  forall p, p ∈ refs' <-> p ∈ refs \/ exists f, f ∈ files /\ listed env fs f p.
Proof.
  revert refs. induction files as [|f files IH]; intros refs; simpl.
  { intros [= <-] p. set_solver. }
  destruct (readManifestPaths env fs f) as [ps|e] eqn:Er.
  - intros Hc p. rewrite (IH _ Hc), elem_of_union, elem_of_list_to_set.
    assert (Hl : listed env fs f p <-> p ∈ ps).
    { unfold listed. rewrite Er. split; [|eauto]. by intros (? & [= <-] & ?). }
    rewrite <-Hl. set_solver.
  - destruct (isNotExist e); [|done]. intros Hc p. rewrite (IH _ Hc).
    assert (Hl : ~ listed env fs f p) by (unfold listed; rewrite Er; naive_solver). set_solver.
Qed.

(** One referenced path of [Clear]. *)
Lemma clearStep_spec cf env keep s st p s' st' a :
  cfg_ok cf -> repr cf s a -> rel_clean p ->
  clearStep cf env keep s st p = (s', Ok st') ->
  repr cf s' (if bool_decide (p ∈ keep) then a else delete p a).
Proof.
  intros Hc Hr Hp. unfold clearStep. set (fault := match env_remove env (objectPath cf p) with Some _ => _ | None => _ end).
  case_bool_decide; [by intros [= <- <-]|].
  rewrite (lookup_index cf s a) by apply Hr. destruct (a !! p) as [[ie b]|] eqn:Ea; simpl.
  - assert (Hrem := proj1 (repr_remove cf s a p ie b Hc Hr Ea)).
    destruct fault; [destruct (ie_PoolPage ie =? 0); [done|]|]; by intros [= <- <-].
  - destruct fault; [done|]. intros [= <- <-]. rewrite (delete_id a p) by done.
    apply repr_set_objects; [done|]. intros q ie b Hq Hpl Ho. rewrite lookup_delete_ne; [done|].
    intros E. apply objectPath_inj in E as ->; [congruence|apply Hc|done|].
    eapply (hd_path cf s a); [apply Hr|eauto].
Qed.

Lemma clearObjects_spec cf env keep s st refs s' st' a :
  cfg_ok cf -> repr cf s a -> Forall rel_clean refs ->
  clearObjects cf env keep s st refs = (s', Ok st') ->
  exists a', repr cf s' a' /\
    forall p, a' !! p = if bool_decide ((p ∈ refs) /\ (p ∉ keep)) then None else a !! p.
Proof.
  intros Hc Hr Hf. revert s st a Hr. induction Hf as [|p refs Hp Hf IH]; intros s st a Hr.
  { intros [= <- <-]. exists a. split; [done|]. intros p. rewrite bool_decide_eq_false_2; [done|set_solver]. }
  cbn [clearObjects]. destruct (clearStep cf env keep s st p) as [s1 [st1|e]] eqn:Es; [|done].
  apply (clearStep_spec _ _ _ _ _ _ _ _ a) in Es; [|done..].
  intros Hrun. destruct (IH s1 st1 _ Es Hrun) as (a' & Hr' & Ha'). exists a'. split; [done|].
  intros q. rewrite Ha'. assert (Hq := elem_of_cons refs q p).
  destruct (bool_decide_reflect ((q ∈ refs) /\ (q ∉ keep))) as [H1|H1],
    (bool_decide_reflect ((q ∈ p :: refs) /\ (q ∉ keep))) as [H2|H2]; [done|tauto| |].
  - destruct H2 as [[->|?]%Hq Hk]; [|tauto].
    rewrite bool_decide_eq_false_2 by done. apply lookup_delete_eq.
  - case_bool_decide; [done|]. rewrite lookup_delete_ne; [done|]. intros <-. tauto.
Qed.

(** Still referenced after the targets are gone. *)
Definition kept_by (cf : Config) (env : Env) (fs : Files) (targets : list bytes) (p : bytes) : Prop :=
  exists f, (f ∉ targets) /\ is_Some (fs !! f) /\ under (manifestRoot cf) f = true /\
    HasSuffix (Base f) #".tmp" = false /\ listed env fs f p.

Lemma kept_spec cf env fs fs' targets keep :
  (forall q, fs' !! q = if bool_decide (q ∈ targets) then None else fs !! q) ->
  scanManifestRefs cf env fs' (list_to_set targets) = Ok keep ->
  forall p, p ∈ keep <-> kept_by cf env fs targets p.
Proof.
  intros Hf. unfold scanManifestRefs.
  destruct (listManifestFiles env fs' (manifestRoot cf)) as [files|] eqn:El; [|done].
  intros Hc p. rewrite (collectRefs_spec _ _ _ _ _ Hc).
  assert (Hsame : forall f, f ∉ targets -> fs' !! f = fs !! f).
  { intros f Hn. rewrite Hf. by rewrite bool_decide_eq_false_2. }
  split.
  - intros [?|(f & Hff & Hl)]; [set_solver|].
    apply list_elem_of_filter in Hff as [Hn Hff]. rewrite elem_of_list_to_set in Hn.
    apply (listManifestFiles_spec _ _ _ _ f El) in Hff as (Hs & Hu & Ht). exists f.
    rewrite <-(Hsame f) by done. do 4 (split; [done|]). by apply (listed_file _ fs' fs); [apply Hsame|].
  - intros (f & Hn & Hs & Hu & Ht & Hl). right. exists f. split.
    + apply list_elem_of_filter. rewrite elem_of_list_to_set. split; [done|].
      apply (listManifestFiles_spec _ _ _ _ f El). by rewrite Hsame.
    + by apply (listed_file _ fs' fs); [apply Hsame|].
Qed.

(** Go's [range] over a set visits its elements, in some order. *)
Definition ranges (range : gset bytes -> list bytes) : Prop :=
  forall X p, p ∈ range X <-> p ∈ X.

(** Clearing a scope removes its manifests and exactly the objects only it
    used.  A successful [Clear] deletes the target manifests and no other file, and
    the store then holds what it held except the paths that a target listed and no
    remaining manifest lists; objects shared with another build stay served. *)
Theorem Clear_spec cf env range sv req a sv' stats
    (Hc : cfg_ok cf) (He : env_ok env) (Hg : ranges range) (Hr : repr cf (sv_store sv) a)
    (Hclear : Clear cf env range sv req = (sv', Ok stats)) :
  exists targets a', targetManifestPaths cf env (sv_files sv) req = Ok targets /\ targets <> [] /\
    (forall q, sv_files sv' !! q = if bool_decide (q ∈ targets) then None else sv_files sv !! q) /\
    repr cf (sv_store sv') a' /\
    forall p, ((exists t, t ∈ targets /\ listed env (sv_files sv) t p) /\
               ~ kept_by cf env (sv_files sv) targets p -> a' !! p = None) /\
              (~ (exists t, t ∈ targets /\ listed env (sv_files sv) t p) \/
               kept_by cf env (sv_files sv) targets p -> a' !! p = a !! p).
Proof.
  revert Hclear. unfold Clear. destruct (targetManifestPaths _ _ _ _) as [targets|] eqn:Et; [|done].
  destruct targets as [|t0 ts] eqn:Ets; [done|]. rewrite <-Ets in *.
  destruct (clearTargets _ _ _ _ _) as [fs1 [[refs n]|e]] eqn:Ect; [|done].
  destruct (clearTargets_spec _ _ _ _ _ _ _ _ Ect He) as [Hf Href].
  destruct (scanManifestRefs _ _ _ _) as [keep|] eqn:Ek; [|done].
  assert (Hkeep := kept_spec _ _ _ _ _ _ Hf Ek).
  destruct (clearObjects _ _ _ _ _ _) as [s1 r] eqn:Eo. intros [= <- ->]. simpl.
  apply (clearObjects_spec _ _ _ _ _ _ _ _ a) in Eo as (a' & Hr' & Ha'); [|done|done|].
  2: { apply Forall_forall. intros p Hp. apply Hg, Href in Hp as [?|(t & _ & Hl)]; [set_solver|].
       by eapply listed_clean. }
  exists targets, a'. split; [done|]. split; [by rewrite Ets|]. split; [done|]. split; [done|].
  assert (Href' : forall p, p ∈ range refs <-> exists t, t ∈ targets /\ listed env (sv_files sv) t p).
  { intros p. rewrite (Hg refs p), Href. set_solver. }
  intros p. specialize (Href' p). specialize (Hkeep p). rewrite Ha'. case_bool_decide; tauto.
Qed.

(** The per-key inspection tells the four cases apart: whether a manifest of
    the request's scope lists the key, and, independently, whether the store holds
    it, with its size. *)
Theorem InspectKeys_spec cf env sv req keys a res
    (Hr : repr cf (sv_store sv) a)
    (Hres : InspectKeys cf env sv req keys = Ok res) :
  exists targets, targetManifestPaths cf env (sv_files sv) req = Ok targets /\
    length res = length keys /\
    forall i key ki, keys !! i = Some key -> res !! i = Some ki ->
      ki_Key ki = key /\
      (ki_InManifest ki = true <-> exists t, t ∈ targets /\ listed env (sv_files sv) t key) /\
      (ki_ExistsRemote ki = true <-> is_Some (a !! key)) /\
      forall ie b, a !! key = Some (ie, b) -> ki_Size ki = ie_Size ie.
Proof.
  revert Hres. unfold InspectKeys. destruct (targetManifestPaths _ _ _ _) as [targets|]; [|done].
  destruct (collectRefs _ _ _ _) as [im|] eqn:Ec; [|done]. intros [= <-].
  exists targets. split; [done|]. split; [apply length_map|].
  intros i key ki Hk Hki. rewrite list_lookup_fmap, Hk in Hki. injection Hki as <-.
  assert (Him := collectRefs_spec _ _ _ _ _ Ec key).
  assert (Him' : bool_decide (key ∈ im) = true <-> exists t, t ∈ targets /\ listed env (sv_files sv) t key).
  { rewrite bool_decide_eq_true. set_solver. }
  unfold inspectKey, inspectable, objectExistsLocked.
  rewrite (lookup_index cf _ a) by apply Hr. destruct (a !! key) as [[ie b]|] eqn:Ea; simpl.
  - assert (Hex : (if negb (ie_PoolPage ie =? 0) then true
      else bool_decide (is_Some (objects (sv_store sv) !! objectPath cf key))) = true).
    { fold (pooled ie). destruct (pooled ie) eqn:Hpl; [done|]. apply bool_decide_eq_true_2.
      rewrite (hd_plain cf _ a) with (ie := ie) (b := b); [eauto|apply Hr|done|done]. }
    rewrite Hex. simpl. split; [done|]. split; [done|]. split; [split; by eauto|].
    by intros ie' b' [= <- <-].
  - split; [done|]. split; [done|]. split; [|done]. split; [done|]. by intros [? ?].
Qed.
End clearing.

(** ** Witnesses *)

Section witnesses.
Let Z0 := magicZstd.
Let S0 := stable_slice_sort.
Local Existing Instance Z0.
Local Existing Instance S0.

Abbreviation nineContents := ({[ #"aa/x" := (nineEntry, #"ninebytes") ]} : Contents).

Lemma nine_held p : held nineContents p -> listable p.
Proof. intros [x [<- _]%lookup_singleton_Some]. apply nine_listable. Qed.

Lemma nine_wire p ie b : nineContents !! p = Some (ie, b) -> 0 <= ie_WireSize ie.
Proof. intros [<- [= <- <-]]%lookup_singleton_Some. vm_compute. discriminate. Qed.

(** The server after a job of [exampleRequest] has saved its one object. *)
Definition savedServer : Server := fst (MergeSavedPaths tightConfig (calm 5) (nineServer ∅) exampleRequest [ #"aa/x" ]).

Definition restoredItem : FileItem := served tightConfig tightStore (#"aa/x", nineEntry).

Definition restoredServer : Server := fst (Restore tightConfig (calm 9) savedServer exampleRequest).

Lemma saved_store : sv_store savedServer = tightStore.
Proof.
  unfold savedServer. destruct (MergeSavedPaths _ _ _ _ _) as [sv r] eqn:E. simpl.
  assert (Er : r = Ok tt) by (change r with (snd (sv, r)); rewrite <-E; vm_compute; reflexivity).
  subst r. destruct (MergeSavedPaths_spec tightConfig (calm 5) (nineServer ∅) exampleRequest [ #"aa/x" ]
    nineContents sv) as [Hs _]; [exact example_cfg_ok|done|exact tight_repr|exact nine_index_listable|
    constructor; [exact nine_listable|constructor]|exact E|exact Hs].
Qed.

Lemma restore_example :
  Restore tightConfig (calm 9) savedServer exampleRequest =
  (restoredServer, Ok ([restoredItem], [ #"commit"; #"changes" ])).
Proof.
  unfold restoredServer. destruct (Restore _ _ _ _) as [sv r] eqn:E. simpl. f_equal.
  change r with (snd (sv, r)). rewrite <-E. vm_compute. reflexivity.
Qed.

Lemma Restore_serves_stored_witness :
  Restore tightConfig (calm 9) savedServer exampleRequest =
    (restoredServer, Ok ([restoredItem], [ #"commit"; #"changes" ])) /\
  exists ie b, nineContents !! #"aa/x" = Some (ie, b) /\ WriteTo restoredItem = Ok b.
Proof.
  assert (Hr : repr tightConfig (sv_store savedServer) nineContents) by (rewrite saved_store; exact tight_repr).
  split; [exact restore_example|].
  destruct (Restore_serves_stored tightConfig (calm 9) savedServer exampleRequest nineContents
    restoredServer [restoredItem] [ #"commit"; #"changes" ] example_cfg_ok (calm_ok 9) Hr nine_held nine_wire
    restore_example) as (_ & _ & Hi).
  destruct (Hi restoredItem (list_elem_of_here _ _)) as (ie & b & H1 & _ & _ & H2). exists ie, b. split; [exact H1|exact H2].
Defined.

Lemma saved_paths_are_restored_witness :
  exists i b, i ∈ [restoredItem] /\ fi_Path (fi_meta i) = #"aa/x" /\ Some b = Some #"ninebytes" /\ WriteTo i = Ok b.
Proof.
  destruct (saved_paths_are_restored tightConfig (calm 5) (calm 9) (nineServer ∅) savedServer restoredServer
    exampleRequest exampleRequest [ #"aa/x" ] nineContents [restoredItem] [ #"commit"; #"changes" ] #"aa/x" oldManifest)
    as (_ & i & b & H1 & H2 & H3 & H4).
  - exact example_cfg_ok.
  - exact (calm_ok 5).
  - exact (calm_ok 9).
  - exact tight_repr.
  - exact nine_held.
  - exact nine_wire.
  - constructor; [exact nine_listable|constructor].
  - vm_compute. reflexivity.
  - unfold savedServer. destruct (MergeSavedPaths _ _ _ _ _) as [sv r] eqn:E. simpl. f_equal.
    change r with (snd (sv, r)). rewrite <-E. vm_compute. reflexivity.
  - split; reflexivity.
  - vm_compute. repeat split; discriminate.
  - exact restore_example.
  - apply list_elem_of_here.
  - vm_compute. eauto.
  - exists i, b. split; [exact H1|]. split; [exact H2|]. split; [|exact H4]. rewrite <-H3. vm_compute. reflexivity.
Defined.

Definition clearRequest : Request := mkRequest #"abc1" #"" #"" #"" #"" 0 0.

(** The object is also listed for the change, so clearing the commit keeps it. *)
Lemma Clear_spec_witness :
  exists sv' st, Clear tightConfig (calm 9) elements savedServer clearRequest = (sv', Ok st) /\
    st = mkClearStats 1 0 1 /\ sv_files sv' !! oldManifest = None.
Proof.
  destruct (Clear tightConfig (calm 9) elements savedServer clearRequest) as [sv' r] eqn:E.
  assert (Er : r = Ok (mkClearStats 1 0 1)).
  { change r with (snd (sv', r)). rewrite <-E. vm_compute. reflexivity. }
  subst r. exists sv', (mkClearStats 1 0 1). split; [reflexivity|]. split; [reflexivity|].
  destruct (Clear_spec tightConfig (calm 9) elements savedServer clearRequest nineContents sv' (mkClearStats 1 0 1))
    as (targets & a' & Ht & _ & Hf & _); [exact example_cfg_ok|exact (calm_ok 9)| | |exact E|].
  - intros X p. by rewrite elem_of_elements.
  - rewrite saved_store. exact tight_repr.
  - rewrite Hf, bool_decide_eq_true_2; [done|]. vm_compute in Ht. injection Ht as <-. apply list_elem_of_here.
Defined.

Lemma InspectKeys_spec_witness :
  exists ki, InspectKeys tightConfig (calm 9) savedServer clearRequest [ #"aa/x" ] = Ok [ki] /\
    ki_InManifest ki = true /\ ki_ExistsRemote ki = true.
Proof.
  exists (mkKeyInspection #"aa/x" true true 9 (Some 4)).
  assert (E : InspectKeys tightConfig (calm 9) savedServer clearRequest [ #"aa/x" ] =
    Ok [mkKeyInspection #"aa/x" true true 9 (Some 4)]) by (vm_compute; reflexivity).
  split; [exact E|]. split; [reflexivity|].
  destruct (InspectKeys_spec tightConfig (calm 9) savedServer clearRequest [ #"aa/x" ] nineContents
    [mkKeyInspection #"aa/x" true true 9 (Some 4)]) as (targets & _ & _ & Hk).
  - rewrite saved_store. exact tight_repr.
  - exact E.
  - destruct (Hk 0%nat #"aa/x" _ eq_refl eq_refl) as (_ & _ & H & _). apply H.
    rewrite lookup_singleton_eq. eauto.
Defined.
End witnesses.
