(* ===== verification/ClientFiles.v ===== *)
(** The side of a build: the functions of src/internal/gocache/store.go that work on
    a GOCACHE directory of the go command -- which files to save, writing restored
    ones, the list of restored paths and the marker of the job's start.  A directory
    is the map of its entries by their path relative to it; its sub-directories are
    implied. *)
From S2P Require Import Prelude.
From S2P Require Import GoStrings.
From S2P Require Import GoPath.
From S2P Require Import Wire.
From S2P Require Import Manifests.

(** ** Directories *)

Inductive node :=
  | Regular (data : bytes) (mode modTime : Z)
  | Symlink
  | Irregular.

Abbreviation Dir := (gmap bytes node).

Definition jobStartMarkerName : bytes := #".gocacheprog-job-start-unixnano".
Definition restoredPathsListName : bytes := #".gocacheprog-restored-paths".

(** [os.WriteFile] with mode 0600: a file that is there keeps its mode. *)
Definition WriteFile (umask now : Z) (name data : bytes) (d : Dir) : Dir :=
  let mode := match d !! name with Some (Regular _ m _) => m | _ => Z.land 384 (Z.lnot umask) end in
  <[name := Regular data mode now]> d.

(** A file cannot be made where a directory is, nor below another file (a link to a
    directory in its place is not modelled). *)
Definition below (p q : bytes) : bool := HasPrefix q (p ++ #"/").
Definition blocked (d : Dir) (relPath : bytes) : bool :=
  existsb (fun e => below relPath e.1 || below e.1 relPath) (map_to_list d).

(** [info.Mode().Perm()]. *)
Definition perm (mode : Z) : Z := Z.land mode 511.

(** What a walk and the stats of its entries meet. *)
Record WalkEnv := mkWalkEnv {
  wk_walk : option goerr;
  wk_info : bytes -> option goerr;
}.

Definition calmWalk : WalkEnv := mkWalkEnv None (fun _ => None).

(** ** Files to save *)

(** What the walk makes of an entry. *)
Inductive seen := Skipped | Large (size : Z) | Taken (item : FileItem).

Definition is_marker (rel : bytes) : bool :=
  bool_decide (Base rel = jobStartMarkerName) || bool_decide (Base rel = restoredPathsListName).

Section collecting.
Context (env : WalkEnv) (cacheDir : bytes) (restoredPaths : gset bytes) (maxFileSize : Z).

Definition collectEntry (rel : bytes) (n : node) : result seen :=
  match n with
  | Symlink => Ok Skipped
  | _ =>
      if is_marker rel then Ok Skipped
      else match wk_info env rel with
      | Some e => Err e
      | None =>
          match n with
          | Regular data mode modTime =>
              let size := blen data in
              if (0 <? maxFileSize) && (maxFileSize <? size) then Ok (Large size)
              else
                let? relPath := cleanRelativePath rel in
                if bool_decide (relPath ∈ restoredPaths) then Ok Skipped
                else Ok (Taken (mkFileItem (mkFileMeta relPath size (Some modTime) (perm mode) false size
                                              (JoinPath [cacheDir; rel])) None))
          | _ => Ok Skipped
          end
      end
  end.

Fixpoint collectLoop (entries : list (bytes * node)) : result (list FileItem * (Z * Z)) :=
  match entries with
  | [] => Ok ([], (0, 0))
  | (rel, n) :: entries =>
      let? s := collectEntry rel n in
      let? r := collectLoop entries in
      let '(items, (count, size)) := r in
      Ok match s with
         | Skipped => (items, (count, size))
         | Large k => (items, (count + 1, size + k))
         | Taken item => (item :: items, (count, size))
         end
  end.

(** The order of [filepath.WalkDir]. *)
Definition walk (d : Dir) : list (bytes * node) :=
  stable_sort (fun a b => walk_lt (comps a.1) (comps b.1)) (map_to_list d).

(** [CollectFilesToSave]: the batch, and the count and bytes of the files over the limit. *)
Definition CollectFilesToSave (d : Dir) : result (list FileItem * (Z * Z)) :=
  match wk_walk env with
  | Some e => Err e
  | None => collectLoop (walk d)
  end.
End collecting.

(** ** Restoring *)

Inductive restoreFault := RFMkdir | RFCreate | RFCopy | RFClose | RFRename.

(** [RestoreToDir], under a [umask], at time [now]. *)
Definition RestoreToDir (umask now : Z) (d : Dir) (item : FileMeta) (body : option stream)
    (flt : option (restoreFault * goerr)) : Dir * result unit :=
  match cleanRelativePath (fi_Path item) with
  | Err e => (d, Err e)
  | Ok relPath =>
      let mode := if FileMode item =? 0 then 384 else FileMode item in
      match flt with
      | Some (RFMkdir, e) | Some (RFCreate, e) => (d, Err e)
      | _ =>
          match body with
          | Some (mkStream _ (Some e)) => (d, Err e)
          | _ =>
              match flt with
              | Some (_, e) => (d, Err e)
              | None =>
                  if blocked d relPath then (d, Err (EMsg "not a directory, or is a directory")) else
                  let data := match body with Some rd => st_data rd | None => [] end in
                  (<[relPath := Regular data (Z.land (perm mode) (Z.lnot umask)) now]> d, Ok tt)
              end
          end
      end
  end.

(** ** The list of restored paths *)

(** A failing write may leave a part of the temporary file. *)
Inductive listFault := LFMkdir (e : goerr) | LFWrite (e : goerr) (part : option bytes) | LFRename (e : goerr).

(** The distinct clean paths, in their first order; the first bad one is an error. *)
Fixpoint cleanPaths (paths : list bytes) (visited : gset bytes) : result (list bytes) :=
  match paths with
  | [] => Ok []
  | p :: paths =>
      let? relPath := cleanRelativePath p in
      if decide (relPath ∈ visited) then cleanPaths paths visited
      else let? l := cleanPaths paths ({[relPath]} ∪ visited) in Ok (relPath :: l)
  end.

Definition WriteRestoredPaths (umask now : Z) (d : Dir) (paths : list bytes) (flt : option listFault)
    : Dir * result unit :=
  match cleanPaths paths ∅ with
  | Err e => (d, Err e)
  | Ok cleaned =>
      let tmp := restoredPathsListName ++ #".tmp" in
      let body := joinManifestBody cleaned in
      match flt with
      | Some (LFMkdir e) => (d, Err e)
      | Some (LFWrite e part) => (match part with Some b => WriteFile umask now tmp b d | None => d end, Err e)
      | Some (LFRename e) => (WriteFile umask now tmp body d, Err e)
      | None =>
          let d' := WriteFile umask now tmp body d in
          (match d' !! tmp with
           | Some n => <[restoredPathsListName := n]> (delete tmp d')
           | None => d'
           end, Ok tt)
      end
  end.

(** [ReadRestoredPaths]; the list is a regular file when it is there. *)
Definition ReadRestoredPaths (d : Dir) : result (gset bytes) :=
  match d !! restoredPathsListName with
  | Some (Regular data _ _) =>
      match ScanLines scannerMax data with
      | (_, true) => Err (EMsg "scan restored paths: token too long")
      | (lines, false) =>
          Ok (list_to_set (omap (fun l =>
                if bool_decide (TrimSpace l = []) then None
                else match cleanRelativePath (TrimSpace l) with Ok p => Some p | Err _ => None end) lines))
      end
  | Some _ => Err (EMsg "not a regular file")
  | None => Err ENotExist
  end.

Definition CollectFreshFiles (env : WalkEnv) (cacheDir : bytes) (maxFileSize : Z) (d : Dir)
    : result (list FileItem * (Z * Z)) :=
  match ReadRestoredPaths d with
  | Ok restored => CollectFilesToSave env cacheDir restored maxFileSize d
  | Err e => if bool_decide (e = ENotExist) then CollectFilesToSave env cacheDir ∅ maxFileSize d else Err e
  end.

(** ** The start of the job *)

(** [WriteJobStartMarker] with the time in nanoseconds. *)
Definition WriteJobStartMarker (umask now : Z) (d : Dir) (startedAt : Z) (flt : option listFault) : Dir * result unit :=
  match flt with
  | Some (LFMkdir e) | Some (LFRename e) => (d, Err e)
  | Some (LFWrite e part) =>
      (match part with Some b => WriteFile umask now jobStartMarkerName b d | None => d end, Err e)
  | None => (WriteFile umask now jobStartMarkerName (FormatInt startedAt) d, Ok tt)
  end.

Definition ReadJobStartMarker (d : Dir) : result Z :=
  match d !! jobStartMarkerName with
  | Some (Regular data _ _) => ParseInt (TrimSpace data)
  | Some _ => Err (EMsg "not a regular file")
  | None => Err ENotExist
  end.

(** ** Lemmas *)

Lemma WriteFile_lookup umask now name data d :
  exists mode, WriteFile umask now name data d !! name = Some (Regular data mode now).
Proof. unfold WriteFile. eexists. by rewrite lookup_insert_eq. Qed.

Lemma WriteFile_other umask now name data d p :
  p <> name -> WriteFile umask now name data d !! p = d !! p.
Proof. intros Hp. unfold WriteFile. by rewrite lookup_insert_ne. Qed.

Lemma cleanPaths_spec paths visited l :
  cleanPaths paths visited = Ok l ->
  NoDup l /\ forall p, p ∈ l <-> ((p ∉ visited) /\ exists q, q ∈ paths /\ cleanRelativePath q = Ok p).
Proof.
  revert visited l. induction paths as [|q paths IH]; intros visited l; simpl.
  { intros [= <-]. split; [constructor|]. set_solver. }
  destruct (cleanRelativePath q) as [r|e] eqn:Eq; simpl; [|done].
  destruct (decide (r ∈ visited)) as [Hr|Hr].
  - intros Hl. destruct (IH _ _ Hl) as [Hn Hm]. split; [done|]. intros p. rewrite Hm.
    setoid_rewrite elem_of_cons. split; [naive_solver|].
    intros [H1 (x & [->|Hx] & Hc)]; [congruence|naive_solver].
  - destruct (cleanPaths paths _) as [l'|e] eqn:El; simpl; [|done]. intros [= <-].
    destruct (IH _ _ El) as [Hn Hm]. split.
    { constructor; [|done]. rewrite Hm. set_solver. }
    intros p. rewrite elem_of_cons, Hm, elem_of_union, elem_of_singleton. setoid_rewrite elem_of_cons.
    split.
    + intros [->|(H1 & x & Hx & Hc)]; [naive_solver|]. split; [tauto|naive_solver].
    + intros [H1 (x & [->|Hx] & Hc)]; [left; congruence|].
      destruct (decide (p = r)) as [->|Hne]; [by left|right]. naive_solver.
Qed.

Lemma cleanPaths_total paths visited :
  (forall p, p ∈ paths -> exists q, cleanRelativePath p = Ok q) -> exists l, cleanPaths paths visited = Ok l.
Proof.
  revert visited. induction paths as [|p paths IH]; intros visited Hp; simpl; [eauto|].
  destruct (Hp p ltac:(set_solver)) as [q Hq]. rewrite Hq. simpl.
  destruct (decide (q ∈ visited)) as [Hv|Hv]; [apply IH; set_solver|].
  destruct (IH ({[q]} ∪ visited)) as [l Hl]; [set_solver|]. rewrite Hl. simpl. eauto.
Qed.

(** A listed path reads back as itself. *)
Lemma listed_lines l :
  Forall listable l ->
  omap (fun l => if bool_decide (TrimSpace l = []) then None
                 else match cleanRelativePath (TrimSpace l) with Ok p => Some p | Err _ => None end) l = l.
Proof.
  induction 1 as [|p l Hp Hl IH]; [done|]. cbn [omap list_omap]. rewrite (ls_trim p Hp).
  rewrite bool_decide_eq_false_2 by (by apply listable_nonempty).
  rewrite rel_clean_cleanRelativePath by (apply Hp). f_equal. exact IH.
Qed.

(** Writing the list leaves the other files but its temporary one. *)
Lemma WriteRestoredPaths_spec umask now d paths l :
  cleanPaths paths ∅ = Ok l ->
  exists d' mode, WriteRestoredPaths umask now d paths None = (d', Ok tt) /\
    d' !! restoredPathsListName = Some (Regular (joinManifestBody l) mode now) /\
    forall p, p <> restoredPathsListName -> p <> restoredPathsListName ++ #".tmp" -> d' !! p = d !! p.
Proof.
  intros Hl. unfold WriteRestoredPaths. rewrite Hl. cbv zeta.
  destruct (WriteFile_lookup umask now (restoredPathsListName ++ #".tmp") (joinManifestBody l) d) as [mode Hm].
  rewrite Hm. eexists _, mode. split; [reflexivity|]. split; [by rewrite lookup_insert_eq|].
  intros p H1 H2. by rewrite lookup_insert_ne, lookup_delete_ne, WriteFile_other.
Qed.

Lemma ReadRestoredPaths_written d l mode mt :
  Forall listable l -> d !! restoredPathsListName = Some (Regular (joinManifestBody l) mode mt) ->
  ReadRestoredPaths d = Ok (list_to_set l).
Proof.
  intros Hl Hd. unfold ReadRestoredPaths. rewrite Hd, scan_join by done. by rewrite listed_lines.
Qed.

(** ** What is collected *)

(** Every entry has a name that is its own clean form. *)
Definition named (d : Dir) : Prop := forall p n, d !! p = Some n -> cleanRelativePath p = Ok p.

(** No entry is a directory of another. *)
Definition tree (d : Dir) : Prop :=
  forall p q n m, d !! p = Some n -> d !! q = Some m -> below p q = false.

Definition fits (maxFileSize : Z) (data : bytes) : bool :=
  negb ((0 <? maxFileSize) && (maxFileSize <? blen data)).

(** The item of a file. *)
Definition itemOf (cacheDir rel data : bytes) (mode modTime : Z) : FileItem :=
  mkFileItem (mkFileMeta rel (blen data) (Some modTime) (perm mode) false (blen data) (JoinPath [cacheDir; rel])) None.

(** The files that a collection takes, and the sizes of those it finds too large. *)
Definition takes (cacheDir : bytes) (restored : gset bytes) (maxFileSize : Z) (e : bytes * node) : option FileItem :=
  match e.2 with
  | Regular data mode modTime =>
      if is_marker e.1 || negb (fits maxFileSize data) || bool_decide (e.1 ∈ restored) then None
      else Some (itemOf cacheDir e.1 data mode modTime)
  | _ => None
  end.

Definition skips (maxFileSize : Z) (e : bytes * node) : option Z :=
  match e.2 with
  | Regular data _ _ => if is_marker e.1 || fits maxFileSize data then None else Some (blen data)
  | _ => None
  end.

Lemma collectLoop_spec cacheDir restored maxFileSize es :
  Forall (fun e : bytes * node => cleanRelativePath e.1 = Ok e.1) es ->
  collectLoop calmWalk cacheDir restored maxFileSize es =
  Ok (omap (takes cacheDir restored maxFileSize) es,
      (Z.of_nat (length (omap (skips maxFileSize) es)), foldr Z.add 0 (omap (skips maxFileSize) es))).
Proof.
  induction 1 as [|[rel n] es Hc Hes IH]; [done|]. cbn [collectLoop]. rewrite IH. simpl in Hc.
  assert (Ht : forall (f : bytes * node -> option FileItem) x l,
    omap f (x :: l) = match f x with Some y => y :: omap f l | None => omap f l end) by done.
  assert (Hs : forall (f : bytes * node -> option Z) x l,
    omap f (x :: l) = match f x with Some y => y :: omap f l | None => omap f l end) by done.
  rewrite Ht, !Hs. set (ts := omap (takes _ _ _) es). set (ss := omap (skips _) es).
  unfold takes, skips, fits, collectEntry. cbn [fst snd].
  destruct n as [data mode mt| |]; [|done|by destruct (is_marker rel)].
  destruct (is_marker rel); [done|]. cbn [wk_info calmWalk]. destruct (_ && _); cbn [negb orb].
  - cbn [length foldr]. do 2 f_equal. f_equal; lia.
  - rewrite Hc. by case_bool_decide.
Qed.

Lemma elem_of_walk d e : e ∈ walk d <-> d !! e.1 = Some e.2.
Proof. unfold walk. rewrite stable_sort_perm. destruct e as [p n]. apply elem_of_map_to_list. Qed.

Lemma walk_clean d : named d -> Forall (fun e : bytes * node => cleanRelativePath e.1 = Ok e.1) (walk d).
Proof. intros Hd. apply Forall_forall. intros [p n] He. apply elem_of_walk in He. by eapply Hd. Qed.

Lemma CollectFilesToSave_spec cacheDir restored maxFileSize d :
  named d ->
  CollectFilesToSave calmWalk cacheDir restored maxFileSize d =
  Ok (omap (takes cacheDir restored maxFileSize) (walk d),
      (Z.of_nat (length (omap (skips maxFileSize) (walk d))),
       foldr Z.add 0 (omap (skips maxFileSize) (walk d)))).
Proof. intros Hd. unfold CollectFilesToSave. simpl. by apply collectLoop_spec, walk_clean. Qed.

Lemma takes_Some cacheDir restored maxFileSize e item :
  takes cacheDir restored maxFileSize e = Some item <->
  exists data mode mt, e.2 = Regular data mode mt /\ is_marker e.1 = false /\ fits maxFileSize data = true /\
    (e.1 ∉ restored) /\ item = itemOf cacheDir e.1 data mode mt.
Proof.
  unfold takes. destruct e as [p n]. cbn [fst snd]. split.
  - destruct n as [data mode mt| |]; [|done..]. destruct (is_marker p); [done|].
    destruct (fits _ _) eqn:Hf; [|done]. simpl. case_bool_decide; [done|]. intros [= <-].
    by exists data, mode, mt.
  - intros (data & mode & mt & -> & -> & -> & Hr & ->). simpl. by rewrite bool_decide_eq_false_2.
Qed.

Lemma elem_of_collected cacheDir restored maxFileSize d item :
  (item ∈ omap (takes cacheDir restored maxFileSize) (walk d)) <->
  exists p data mode mt, d !! p = Some (Regular data mode mt) /\ is_marker p = false /\
    fits maxFileSize data = true /\ (p ∉ restored) /\ item = itemOf cacheDir p data mode mt.
Proof.
  rewrite list_elem_of_omap. setoid_rewrite takes_Some. setoid_rewrite elem_of_walk. split.
  - intros ([p n] & Hp & data & mode & mt & Hn & H). simpl in *. subst n. by exists p, data, mode, mt.
  - intros (p & data & mode & mt & Hp & H). exists (p, Regular data mode mt). split; [done|]. by exists data, mode, mt.
Qed.

(** What a build adds is what is saved.  After the restored paths were listed, and
    whatever the build made of the directory since (the list apart), the fresh files
    are exactly the regular files, markers apart, within the size limit, whose path is
    not the clean form of a restored one. *)
Theorem fresh_files_after_restore umask now d0 d1 d2 cacheDir maxFileSize paths
    (Hwrite : WriteRestoredPaths umask now d0 paths None = (d1, Ok tt))
    (Hlist : forall p, p ∈ paths -> exists q, cleanRelativePath p = Ok q /\ listable q)
    (Hkeep : d2 !! restoredPathsListName = d1 !! restoredPathsListName)
    (Hnamed : named d2) :
  exists items count size,
    CollectFreshFiles calmWalk cacheDir maxFileSize d2 = Ok (items, (count, size)) /\
    forall item, item ∈ items <->
      exists p data mode mt, d2 !! p = Some (Regular data mode mt) /\ is_marker p = false /\
        fits maxFileSize data = true /\ (forall q, q ∈ paths -> cleanRelativePath q <> Ok p) /\
        item = itemOf cacheDir p data mode mt.
Proof.
  destruct (cleanPaths_total paths ∅) as [l Hl].
  { intros p Hp. destruct (Hlist p Hp) as (q & Hq & _). eauto. }
  destruct (cleanPaths_spec paths ∅ l Hl) as [_ Hm].
  destruct (WriteRestoredPaths_spec umask now d0 paths l Hl) as (d' & mode & Hw & Hd' & _).
  assert (d' = d1) as -> by congruence.
  assert (Hls : Forall listable l).
  { apply Forall_forall. intros p Hp. apply Hm in Hp as (_ & q & Hq & Hc).
    destruct (Hlist q Hq) as (r & Hr & Hl1). by assert (p = r) as -> by congruence. }
  unfold CollectFreshFiles. rewrite (ReadRestoredPaths_written d2 l mode now) by (done || congruence).
  rewrite CollectFilesToSave_spec by done. do 3 eexists. split; [reflexivity|].
  intros item. rewrite elem_of_collected. setoid_rewrite elem_of_list_to_set. setoid_rewrite Hm.
  split; intros (p & data & m & mt & H1 & H2 & H3 & H4 & H5); exists p, data, m, mt;
    (split_and!; [exact H1|exact H2|exact H3| |exact H5]).
  - intros q Hq Hc. apply H4. split; [set_solver|eauto].
  - intros [_ (q & Hq & Hc)]. by apply (H4 q).
Qed.

(** ** Witness *)

Definition restoredDirExample : Dir := fst (WriteRestoredPaths 18 7 ∅ [ #"aa/x"; #"./aa/x" ] None).

(** The build has added one file next to the restored one. *)
Definition builtDir : Dir :=
  <[ #"bb/y" := Regular #"new" 420 9]> (<[ #"aa/x" := Regular #"old" 420 7]> restoredDirExample).

Lemma fresh_files_after_restore_witness :
  exists items count size,
    CollectFreshFiles calmWalk #"/gocache" 0 builtDir = Ok (items, (count, size)) /\
    itemOf #"/gocache" #"bb/y" #"new" 420 9 ∈ items.
Proof.
  destruct (fresh_files_after_restore 18 7 ∅ restoredDirExample builtDir #"/gocache" 0 [ #"aa/x"; #"./aa/x" ])
    as (items & count & size & E & H).
  - vm_compute. reflexivity.
  - assert (Hl : listable #"aa/x").
    { split; [|vm_compute; reflexivity|vm_compute; set_solver|vm_compute; reflexivity].
      exists [ #"aa"; #"x" ]. repeat constructor; vm_compute; (discriminate || set_solver || reflexivity). }
    intros p Hp. exists #"aa/x". split; [|exact Hl].
    apply elem_of_cons in Hp as [->|Hp]; [vm_compute; reflexivity|].
    apply list_elem_of_singleton in Hp as ->. vm_compute. reflexivity.
  - vm_compute. reflexivity.
  - intros p n Hp. unfold builtDir, restoredDirExample in Hp.
    apply lookup_insert_Some in Hp as [[<- _]|[_ Hp]]; [vm_compute; reflexivity|].
    apply lookup_insert_Some in Hp as [[<- _]|[_ Hp]]; [vm_compute; reflexivity|].
    assert (E : restoredDirExample = {[restoredPathsListName := Regular (#"aa/x" ++ [newline]) 384 7]}).
    { apply map_eq. intros q. vm_compute. reflexivity. }
    unfold restoredDirExample in E. rewrite E in Hp. apply lookup_singleton_Some in Hp as [<- _]. vm_compute. reflexivity.
  - exists items, count, size. split; [exact E|]. apply H. exists #"bb/y", #"new", 420, 9.
    split; [vm_compute; reflexivity|]. split; [reflexivity|]. split; [reflexivity|]. split; [|reflexivity].
    intros q Hq. apply elem_of_cons in Hq as [->|Hq]; [vm_compute; discriminate|].
    apply list_elem_of_singleton in Hq as ->. vm_compute. discriminate.
Defined.
