(* ===== verification/Timestamps.v ===== *)
(** Time stamps of a checkout: src/internal/local/canonicalize_timestamps.go.  The go
    command keys cached test results by the size and the modification time of the files
    a test reads; a fresh checkout gets times that depend on nothing but the contents. *)
From S2P Require Import Prelude.
From S2P Require Import GoStrings.
From S2P Require Import GoPath.
From S2P Require Import Manifests.
From S2P Require Import ClientFiles.

(** ** Files *)

(** A file system: every file, directory and symbolic link by its absolute path, with
    times in seconds.  A link carries the path it leads to, when that is there. *)
Inductive inode :=
  | File (content : bytes) (modTime : Z)
  | Directory (modTime : Z)
  | Link (target : option bytes).

Abbreviation FS := (gmap bytes inode).

Definition under (root p : bytes) : bool := if bool_decide (root = #"/") then negb (bool_decide (p = #"/")) else below root p.

(** What a system call on a path meets in the end: links are followed. *)
Definition follow (fs : FS) (p : bytes) : option bytes :=
  match fs !! p with
  | Some (Link t) => t
  | Some _ => Some p
  | None => None
  end.

Definition retime (t : Z) (n : inode) : inode :=
  match n with
  | File c _ => File c t
  | Directory _ => Directory t
  | Link l => Link l
  end.

(** The faults of reading a directory, of reading a file and of [os.Chtimes], by path. *)
Record Faults := mkFaults {
  ft_readDir : bytes -> option goerr;
  ft_read : bytes -> option goerr;
  ft_chtimes : bytes -> option goerr;
}.

Definition noFaults : Faults := mkFaults (fun _ => None) (fun _ => None) (fun _ => None).

Definition Chtimes (flt : Faults) (fs : FS) (p : bytes) (t : Z) : FS * result unit :=
  match ft_chtimes flt p with
  | Some e => (fs, Err e)
  | None =>
      match follow fs p with
      | None => (fs, Err ENotExist)
      | Some q => (alter (retime t) q fs, Ok tt)
      end
  end.

(** [os.Open] and [io.Copy]: a directory opens, and does not read. *)
Definition readFile (flt : Faults) (fs : FS) (p : bytes) : result bytes :=
  match ft_read flt p with
  | Some e => Err e
  | None =>
      match follow fs p with
      | None => Err ENotExist
      | Some q =>
          match fs !! q with
          | Some (File c _) => Ok c
          | Some (Directory _) => Err (EMsg "is a directory")
          | _ => Err ENotExist
          end
      end
  end.

(** ** Times from contents *)

(** crypto/sha1. *)
Class SHA1 := { sha1 : bytes -> bytes; sha1_length b : length (sha1 b) = 20%nat }.

Definition canonicalBaseUnix : Z := 1684178360.

(** The loop over [sum[:5]], on a 64-bit word. *)
Definition prefixOf (sum : bytes) : Z :=
  foldl (fun prefix b => Z.lor (Z.shiftl prefix 8 mod 2 ^ 64) (Z.of_nat (nat_of_ascii b))) 0 (take 5 sum).

Section canonical.
Context `{SHA1}.

Definition modUnix (content : bytes) : Z := canonicalBaseUnix - prefixOf (sha1 content) mod 10000.

Definition canonicalFileModTime (flt : Faults) (fs : FS) (p : bytes) : result Z :=
  let? content := readFile flt fs p in Ok (modUnix content).

(** ** The walk *)

Definition entriesUnder (root : bytes) (fs : FS) : list (bytes * inode) :=
  stable_sort (fun a b => walk_lt (comps a.1) (comps b.1)) (filter (fun e => under root e.1 = true) (map_to_list fs)).

(** The callback, entry by entry: the directories are noted, the files get their time. *)
Fixpoint walkLoop (flt : Faults) (fs : FS) (entries : list (bytes * inode)) (dirs : list bytes) (filesUpdated : Z)
    : FS * result (list bytes * Z) :=
  match entries with
  | [] => (fs, Ok (dirs, filesUpdated))
  | (p, Directory _) :: entries =>
      match ft_readDir flt p with
      | Some e => (fs, Err e)
      | None => walkLoop flt fs entries (dirs ++ [p]) filesUpdated
      end
  | (p, _) :: entries =>
      match canonicalFileModTime flt fs p with
      | Err e => (fs, Err e)
      | Ok t =>
          match Chtimes flt fs p t with
          | (fs, Err e) => (fs, Err e)
          | (fs, Ok _) => walkLoop flt fs entries dirs (filesUpdated + 1)
          end
      end
  end.

Fixpoint dirsLoop (flt : Faults) (fs : FS) (dirs : list bytes) : FS * result unit :=
  match dirs with
  | [] => (fs, Ok tt)
  | p :: dirs =>
      match Chtimes flt fs p canonicalBaseUnix with
      | (fs, Err e) => (fs, Err e)
      | (fs, Ok _) => dirsLoop flt fs dirs
      end
  end.

(** Longer paths first: a directory after those in it. *)
Definition deeper (a b : bytes) : bool :=
  if (length a =? length b)%nat then bytes_lt a b else (length b <? length a)%nat.

(** [filepath.Abs]. *)
Definition Abs (cwd : result bytes) (path : bytes) : result bytes :=
  if IsAbs path then Ok (Clean path) else let? cwd := cwd in Ok (JoinPath [cwd; path]).

(** [CanonicalizeTimestamps]; the counts of files and directories are its log line. *)
Definition CanonicalizeTimestamps `{SliceSort} (flt : Faults) (cwd : result bytes) (fs : FS) (repoRoot : bytes)
    : FS * result (Z * Z) :=
  match Abs cwd repoRoot with
  | Err e => (fs, Err e)
  | Ok root =>
      match fs !! root with
      | None => (fs, Err ENotExist)
      | Some (Directory _) =>
          match ft_readDir flt root with
          | Some e => (fs, Err e)
          | None =>
              match walkLoop flt fs (entriesUnder root fs) [] 0 with
              | (fs, Err e) => (fs, Err e)
              | (fs, Ok (dirs, files)) =>
                  match dirsLoop flt fs (sort_slice deeper dirs) with
                  | (fs, Err e) => (fs, Err e)
                  | (fs, Ok _) => (fs, Ok (files, Z.of_nat (length dirs)))
                  end
              end
          end
      | Some _ => (fs, Ok (0, 0))
      end
  end.

(** ** What it should do *)

Definition canonicalInode (n : inode) : inode :=
  match n with
  | File c _ => File c (modUnix c)
  | Directory _ => Directory canonicalBaseUnix
  | Link l => Link l
  end.

(** Every entry below the root at its canonical time, the rest as it was. *)
Definition canonical (root : bytes) (fs : FS) : FS :=
  map_imap (fun p n => Some (if under root p then canonicalInode n else n)) fs.

(** Links below the root lead to files below it. *)
Definition links_inside (root : bytes) (fs : FS) : Prop :=
  forall p t, under root p = true -> fs !! p = Some (Link t) ->
  exists q c m, t = Some q /\ under root q = true /\ fs !! q = Some (File c m).

(** Two checkouts with the same names and contents, whatever the times of their entries. *)
Definition erase (n : inode) : inode := retime 0 n.
Definition same_contents (fs fs' : FS) : Prop := erase <$> fs = erase <$> fs'.

(** ** Lemmas *)

Lemma prefix_bound sum : 0 <= prefixOf sum.
Proof.
  unfold prefixOf. generalize (take 5 sum) as l. intros l.
  assert (forall acc, 0 <= acc -> 0 <= foldl (fun prefix b => Z.lor (Z.shiftl prefix 8 mod 2 ^ 64) (Z.of_nat (nat_of_ascii b))) acc l) as Hl.
  { induction l as [|b l IH]; intros acc Hacc; [done|]. simpl. apply IH, Z.lor_nonneg.
    split; [apply Z.mod_pos_bound; lia|lia]. }
  by apply Hl.
Qed.

(** Times lie in the ten thousand seconds up to the base. *)
Lemma modUnix_bounds c : canonicalBaseUnix - 9999 <= modUnix c <= canonicalBaseUnix.
Proof.
  unfold modUnix. assert (Hm := Z.mod_pos_bound (prefixOf (sha1 c)) 10000 ltac:(lia)). lia.
Qed.


(** *** What a run does not change *)

Lemma same_lookup fs fs' p : same_contents fs fs' -> erase <$> fs !! p = erase <$> fs' !! p.
Proof. unfold same_contents. intros E. by rewrite <-!lookup_fmap, E. Qed.

Lemma follow_same fs fs' p : same_contents fs fs' -> follow fs p = follow fs' p.
Proof.
  intros Hs%(same_lookup _ _ p). unfold follow.
  destruct (fs !! p) as [[]|], (fs' !! p) as [[]|]; simplify_eq/=; done.
Qed.

Lemma readFile_same flt fs fs' p : same_contents fs fs' -> readFile flt fs p = readFile flt fs' p.
Proof.
  intros Hs. unfold readFile. rewrite (follow_same fs fs' p Hs). destruct (ft_read flt p); [done|].
  destruct (follow fs' p) as [q|]; [|done]. apply (same_lookup _ _ q) in Hs.
  destruct (fs !! q) as [[]|], (fs' !! q) as [[]|]; simplify_eq/=; done.
Qed.

Lemma retime_same fs q t : same_contents (alter (retime t) q fs) fs.
Proof.
  apply map_eq. intros p. rewrite !lookup_fmap. destruct (decide (p = q)) as [->|Hp].
  - rewrite lookup_alter_eq. by destruct (fs !! q) as [[]|].
  - by rewrite lookup_alter_ne.
Qed.

Lemma Chtimes_same flt fs p t fs' r : Chtimes flt fs p t = (fs', r) -> same_contents fs' fs.
Proof.
  unfold Chtimes. destruct (ft_chtimes flt p); [by intros [= <- _]|].
  destruct (follow fs p) as [q|]; intros [= <- _]; [apply retime_same|done].
Qed.

(** *** The run of a calm walk *)

(** The entries of [D] have their canonical time, the others are as they were. *)
Definition after (D : gset bytes) (fs : FS) : FS :=
  map_imap (fun p n => Some (if decide (p ∈ D) then canonicalInode n else n)) fs.

Lemma after_lookup D fs p : after D fs !! p = (fun n => if decide (p ∈ D) then canonicalInode n else n) <$> fs !! p.
Proof. unfold after. rewrite map_lookup_imap. by destruct (fs !! p). Qed.

Lemma after_same D fs : same_contents (after D fs) fs.
Proof.
  apply map_eq. intros p. rewrite !lookup_fmap, after_lookup. destruct (fs !! p) as [n|]; [|done]. simpl.
  case_decide; [by destruct n|done].
Qed.

Lemma after_empty fs : after ∅ fs = fs.
Proof. apply map_eq. intros p. rewrite after_lookup. destruct (fs !! p); [|done]. simpl. by rewrite decide_False by set_solver. Qed.

Lemma after_retime D fs q n t :
  fs !! q = Some n -> retime t n = canonicalInode n -> alter (retime t) q (after D fs) = after ({[q]} ∪ D) fs.
Proof.
  intros Hq Ht. apply map_eq. intros p. rewrite after_lookup. destruct (decide (p = q)) as [->|Hp].
  - rewrite lookup_alter_eq, after_lookup, Hq. simpl. f_equal. rewrite (decide_True (P := q ∈ {[q]} ∪ D)) by set_solver.
    rewrite <-Ht. case_decide; by destruct n.
  - rewrite lookup_alter_ne, after_lookup by done. destruct (fs !! p); [|done]. simpl. f_equal.
    destruct (decide (p ∈ D)); [rewrite decide_True by set_solver|rewrite decide_False by set_solver]; done.
Qed.

Lemma Chtimes_after D fs p q n t :
  follow fs p = Some q -> fs !! q = Some n -> retime t n = canonicalInode n ->
  Chtimes noFaults (after D fs) p t = (after ({[q]} ∪ D) fs, Ok tt).
Proof.
  intros Hf Hq Ht. unfold Chtimes, noFaults. cbn [ft_chtimes]. rewrite (follow_same _ fs p (after_same D fs)), Hf.
  by rewrite (after_retime D fs q n t).
Qed.

Lemma readFile_file fs p q c m : follow fs p = Some q -> fs !! q = Some (File c m) -> readFile noFaults fs p = Ok c.
Proof. intros Hf Hq. unfold readFile, noFaults. cbn [ft_read]. by rewrite Hf, Hq. Qed.

Definition is_dir (n : inode) : bool := match n with Directory _ => true | _ => false end.
Definition dirsOf (entries : list (bytes * inode)) : list bytes := (filter (fun e => is_dir e.2 = true) entries).*1.

(** An entry that is no directory is a file in the end. *)
Definition ends_in_file (root : bytes) (fs : FS) (e : bytes * inode) : Prop :=
  is_dir e.2 = true \/
  exists q c m, follow fs e.1 = Some q /\ under root q = true /\ fs !! q = Some (File c m).

Lemma walkLoop_calm root fs entries D dirs n :
  Forall (fun e => fs !! e.1 = Some e.2 /\ under root e.1 = true /\ ends_in_file root fs e) entries ->
  exists D' k, walkLoop noFaults (after D fs) entries dirs n = (after D' fs, Ok (dirs ++ dirsOf entries, k)) /\
    D ⊆ D' /\ (forall p, p ∈ D' -> p ∈ D \/ under root p = true) /\
    (forall p c m, (p, File c m) ∈ entries -> p ∈ D').
Proof.
  intros Hok. revert D dirs n. induction Hok as [|[p x] entries (Hx & Hu & He) Hok IH]; intros D dirs n; cbn [walkLoop].
  { exists D, n. rewrite app_nil_r. split_and!; [done|done|tauto|set_solver]. }
  destruct (is_dir x) eqn:Ed.
  - destruct x as [| |]; try done. cbn [noFaults ft_readDir].
    destruct (IH D (dirs ++ [p]) n) as (D' & k & -> & H2 & H3 & H4). exists D', k.
    rewrite <-app_assoc. split_and!; [done|done|done|]. intros q c m [E|Hq]%elem_of_cons; [done|eauto].
  - destruct He as [He|(q & c & m & Hf & Huq & Hq)]; [cbn in He; congruence|]. cbn [fst snd] in *.
    assert (Estep : walkLoop noFaults (after D fs) ((p, x) :: entries) dirs n =
      match canonicalFileModTime noFaults (after D fs) p with
      | Err e => (after D fs, Err e)
      | Ok t => match Chtimes noFaults (after D fs) p t with
                | (fs, Err e) => (fs, Err e)
                | (fs, Ok _) => walkLoop noFaults fs entries dirs (n + 1)
                end
      end) by (by destruct x). cbn [walkLoop] in Estep. rewrite Estep. unfold canonicalFileModTime.
    rewrite (readFile_same _ _ fs p (after_same D fs)), (readFile_file fs p q c m Hf Hq).
    rewrite (Chtimes_after D fs p q (File c m)) by done.
    destruct (IH ({[q]} ∪ D) dirs (n + 1)) as (D' & k & -> & H2 & H3 & H4). exists D', k.
    assert (Edirs : dirsOf ((p, x) :: entries) = dirsOf entries) by (unfold dirsOf; by rewrite filter_cons_False by (cbn; congruence)).
    rewrite Edirs. split_and!; [done|set_solver| |].
    + intros r [[->%elem_of_singleton|Hr]%elem_of_union|Hr]%H3; auto.
    + intros r c' m' [[= -> <-]|Hr]%elem_of_cons; [|eauto]. apply H2, elem_of_union_l, elem_of_singleton.
      unfold follow in Hf. rewrite Hx in Hf. congruence.
Qed.

Lemma dirsLoop_calm fs dirs D :
  Forall (fun p => exists t, fs !! p = Some (Directory t)) dirs ->
  dirsLoop noFaults (after D fs) dirs = (after (list_to_set dirs ∪ D) fs, Ok tt).
Proof.
  intros Hok. revert D. induction Hok as [|p dirs [t Hp] Hok IH]; intros D; cbn [dirsLoop].
  { by rewrite list_to_set_nil, (left_id_L ∅ (∪)). }
  rewrite (Chtimes_after D fs p p (Directory t)); [|by unfold follow; rewrite Hp|done|done].
  rewrite IH. do 2 f_equal. set_solver.
Qed.

(** *** The whole run *)

Lemma elem_of_entriesUnder root fs p n : ((p, n) ∈ entriesUnder root fs) <-> fs !! p = Some n /\ under root p = true.
Proof.
  unfold entriesUnder. rewrite stable_sort_perm, list_elem_of_filter, elem_of_map_to_list. cbn [fst]. tauto.
Qed.

Lemma elem_of_dirsOf root fs p : (p ∈ dirsOf (entriesUnder root fs)) <-> under root p = true /\ exists t, fs !! p = Some (Directory t).
Proof.
  unfold dirsOf. rewrite list_elem_of_fmap. split.
  - intros ([q n] & -> & [Hd [Hq Hu]%elem_of_entriesUnder]%list_elem_of_filter). cbn in *. destruct n; try done. eauto.
  - intros [Hu [t Hp]]. exists (p, Directory t). split; [done|]. apply list_elem_of_filter. split; [done|].
    by apply elem_of_entriesUnder.
Qed.

Lemma entries_end_in_files root fs :
  links_inside root fs ->
  Forall (fun e => fs !! e.1 = Some e.2 /\ under root e.1 = true /\ ends_in_file root fs e) (entriesUnder root fs).
Proof.
  intros Hl. apply Forall_forall. intros [p n] [Hp Hu]%elem_of_entriesUnder. cbn [fst snd]. split; [done|]. split; [done|].
  unfold ends_in_file, follow. cbn [fst snd]. rewrite Hp. destruct n as [c m|t|t]; [|by left|].
  - right. by exists p, c, m.
  - right. destruct (Hl p t Hu Hp) as (q & c & m & -> & Hq & Hc). by exists q, c, m.
Qed.

(** A calm run is the reference: every entry below the root, and no other, gets its
    canonical time. *)
Lemma CanonicalizeTimestamps_run `{SliceSort} cwd fs repoRoot root t :
  Abs cwd repoRoot = Ok root -> fs !! root = Some (Directory t) -> links_inside root fs ->
  exists counts, CanonicalizeTimestamps noFaults cwd fs repoRoot = (canonical root fs, Ok counts).
Proof.
  intros Ha Hr Hl. unfold CanonicalizeTimestamps. rewrite Ha, Hr. cbn [noFaults ft_readDir].
  destruct (walkLoop_calm root fs (entriesUnder root fs) ∅ [] 0 (entries_end_in_files root fs Hl)) as (D & k & E & _ & HD & Hfiles).
  rewrite after_empty in E. fold noFaults. rewrite E. rewrite app_nil_l.
  rewrite dirsLoop_calm.
  2: { rewrite sort_slice_perm. apply Forall_forall. intros p Hp%elem_of_dirsOf. tauto. }
  eexists. do 2 f_equal. apply map_eq. intros p. rewrite after_lookup. unfold canonical. rewrite map_lookup_imap.
  destruct (fs !! p) as [n|] eqn:Ep; [|done]. cbn. f_equal.
  assert (Hd : p ∈ (list_to_set (sort_slice deeper (dirsOf (entriesUnder root fs))) : gset bytes) <-> p ∈ dirsOf (entriesUnder root fs))
    by (by rewrite elem_of_list_to_set, sort_slice_perm).
  destruct (under root p) eqn:Eu.
  - destruct n as [c m|m|l]; [| |by destruct (decide _)].
    + rewrite decide_True; [done|]. apply elem_of_union_r, (Hfiles p c m), elem_of_entriesUnder. done.
    + rewrite decide_True; [done|]. apply elem_of_union_l, Hd, elem_of_dirsOf. eauto.
  - rewrite decide_False; [done|]. intros [[Hp _]%Hd%elem_of_dirsOf|[Hp|Hp]%HD]%elem_of_union; [congruence|set_solver|congruence].
Qed.

Lemma canonical_same root fs fs' p :
  same_contents fs fs' -> under root p = true -> canonical root fs !! p = canonical root fs' !! p.
Proof.
  intros Hs%(same_lookup _ _ p) Hu. unfold canonical. rewrite !map_lookup_imap.
  destruct (fs !! p) as [[]|], (fs' !! p) as [[]|]; simplify_eq/=; by rewrite ?Hu.
Qed.

Lemma links_inside_same root fs fs' : same_contents fs fs' -> links_inside root fs -> links_inside root fs'.
Proof.
  intros Hs Hl p t Hu Hp. assert (Hp' := same_lookup _ _ p Hs). rewrite Hp in Hp'.
  destruct (fs !! p) as [[| |t']|] eqn:E; simplify_eq/=. destruct (Hl p t Hu E) as (q & c & m & -> & Hq & Hc).
  assert (Hq' := same_lookup _ _ q Hs). rewrite Hc in Hq'.
  destruct (fs' !! q) as [[c' m'| |]|] eqn:E'; simplify_eq/=. by exists q, c', m'.
Qed.

(** *** An entry that fails *)

Lemma walkLoop_fails flt fs0 fs pre p post dirs n q t :
  same_contents fs fs0 -> fs0 !! p = Some (Link (Some q)) -> fs0 !! q = Some (Directory t) ->
  exists fs' e, walkLoop flt fs (pre ++ (p, Link (Some q)) :: post) dirs n = (fs', Err e) /\ same_contents fs' fs0.
Proof.
  intros Hs Hp Hq. revert fs dirs n Hs. induction pre as [|[r x] pre IH]; intros fs dirs n Hs; cbn [app walkLoop].
  - unfold canonicalFileModTime. rewrite (readFile_same flt fs fs0 p Hs). unfold readFile.
    destruct (ft_read flt p); [eauto|]. unfold follow. rewrite Hp, Hq. eauto.
  - assert (Hgo : exists fs' e,
      match canonicalFileModTime flt fs r with
      | Err e => (fs, Err e)
      | Ok t => match Chtimes flt fs r t with
                | (fs, Err e) => (fs, Err e)
                | (fs, Ok _) => walkLoop flt fs (pre ++ (p, Link (Some q)) :: post) dirs (n + 1)
                end
      end = (fs', Err e) /\ same_contents fs' fs0).
    { destruct (canonicalFileModTime flt fs r) as [s|e]; [|eauto].
      destruct (Chtimes flt fs r s) as [fs1 [|e]] eqn:Ec; apply Chtimes_same in Ec; [apply IH|exists fs1, e; split; [done|]];
        by transitivity (erase <$> fs). }
    destruct x; [exact Hgo| |exact Hgo]. destruct (ft_readDir flt r); [eauto|by apply IH].
Qed.
End canonical.

(** ** The claims *)

(** C32: a checkout's times depend on its contents alone.  Two checkouts with the same
    names and contents -- their times may differ as they like -- in which every symbolic
    link leads to a regular file below the root are the same after canonicalisation,
    times included, whichever admissible order the sort takes; what is outside the root
    is untouched, and every file's time lies in the ten thousand seconds that end at the
    base.  Reading and setting times works.  A checkout with a link to a directory is not
    canonicalised: the call fails ([linked_directory_is_an_error]). *)
Theorem checkouts_look_alike `{SHA1} (S1 S2 : SliceSort) cwd cwd' fs fs' repoRoot root t
    (Ha : Abs cwd repoRoot = Ok root) (Ha' : Abs cwd' repoRoot = Ok root)
    (Hr : fs !! root = Some (Directory t)) (Hl : links_inside root fs) (Hs : same_contents fs fs') :
  exists counts counts' fs1 fs1',
    @CanonicalizeTimestamps _ S1 noFaults cwd fs repoRoot = (fs1, Ok counts) /\
    @CanonicalizeTimestamps _ S2 noFaults cwd' fs' repoRoot = (fs1', Ok counts') /\
    same_contents fs1 fs /\
    forall p, (under root p = true -> fs1 !! p = fs1' !! p) /\
      (under root p = false -> fs1 !! p = fs !! p) /\
      (forall c m, under root p = true -> fs1 !! p = Some (File c m) -> canonicalBaseUnix - 9999 <= m <= canonicalBaseUnix).
Proof.
  assert (Hr' := same_lookup _ _ root Hs). rewrite Hr in Hr'.
  destruct (fs' !! root) as [[|t'|]|] eqn:Er; simplify_eq/=.
  destruct (@CanonicalizeTimestamps_run _ S1 cwd fs repoRoot root t Ha Hr Hl) as [k1 E1].
  destruct (@CanonicalizeTimestamps_run _ S2 cwd' fs' repoRoot root t' Ha' Er (links_inside_same _ _ _ Hs Hl)) as [k2 E2].
  exists k1, k2, (canonical root fs), (canonical root fs'). split; [done|]. split; [done|]. split; [|intros p; split; [|split]].
  - apply map_eq. intros p. unfold canonical. rewrite !lookup_fmap, map_lookup_imap.
    destruct (fs !! p) as [n|]; [|done]. cbn. case_match; [by destruct n|done].
  - by apply canonical_same.
  - intros Hu. unfold canonical. rewrite map_lookup_imap. destruct (fs !! p); [|done]. cbn. by rewrite Hu.
  - intros c m Hu. unfold canonical. rewrite map_lookup_imap. destruct (fs !! p) as [[]|]; cbn; rewrite ?Hu; try done.
    intros [= <- <-]. apply modUnix_bounds.
Qed.

(** A checkout with a link to a directory cannot be canonicalised.  The walk does
    not take such a link for a directory, opens it as a file, and fails to read it: the
    call ends with an error whatever else is in the tree. *)
Theorem linked_directory_is_an_error `{SHA1} `{SliceSort} flt cwd fs repoRoot root t p q t'
    (Ha : Abs cwd repoRoot = Ok root) (Hr : fs !! root = Some (Directory t))
    (Hu : under root p = true) (Hp : fs !! p = Some (Link (Some q))) (Hq : fs !! q = Some (Directory t')) :
  exists fs' e, CanonicalizeTimestamps flt cwd fs repoRoot = (fs', Err e) /\ same_contents fs' fs.
Proof.
  unfold CanonicalizeTimestamps. rewrite Ha, Hr. destruct (ft_readDir flt root) as [e|]; [by exists fs, e|].
  assert (Hin : (p, Link (Some q)) ∈ entriesUnder root fs) by (by apply elem_of_entriesUnder).
  apply list_elem_of_split in Hin as (pre & post & ->).
  destruct (walkLoop_fails flt fs fs pre p post [] 0 q t') as (fs' & e & -> & Hs'); [done..|]. by exists fs', e.
Qed.

(** ** Examples *)

Section witnesses.
(** A digest of twenty bytes that starts with the data. *)
Definition pad20 (b : bytes) : bytes := take 20 (b ++ replicate 20 "000"%char).

Lemma pad20_length b : length (pad20 b) = 20%nat.
Proof. unfold pad20. rewrite length_take, length_app, length_replicate. lia. Qed.

Definition paddedSHA1 : SHA1 := {| sha1 := pad20; sha1_length := pad20_length |}.

Definition checkout (t : Z) : FS :=
  {[ #"/r" := Directory t; #"/r/a" := Directory (t + 1); #"/r/a/x" := File #"one" (t + 2);
     #"/r/y" := Link (Some #"/r/a/x"); #"/out" := File #"two" 7 ]}.

Lemma checkout_links t : links_inside #"/r" (checkout t).
Proof.
  intros p l Hu Hp. unfold checkout in Hp.
  repeat (apply lookup_insert_Some in Hp as [[<- E]|[_ Hp]]; [try done; simplify_eq|]).
  - exists #"/r/a/x", #"one", (t + 2). split; [done|]. split; [vm_compute; reflexivity|]. reflexivity.
  - apply lookup_singleton_Some in Hp as [_ [=]].
Qed.

Lemma checkouts_look_alike_witness :
  exists counts counts' fs1 fs1',
    @CanonicalizeTimestamps paddedSHA1 stable_slice_sort noFaults (Ok #"/r") (checkout 100) #"." = (fs1, Ok counts) /\
    @CanonicalizeTimestamps paddedSHA1 stable_slice_sort noFaults (Ok #"/r") (checkout 200) #"." = (fs1', Ok counts') /\
    fs1 !! #"/r/a/x" = fs1' !! #"/r/a/x".
Proof.
  destruct (@checkouts_look_alike paddedSHA1 stable_slice_sort stable_slice_sort (Ok #"/r") (Ok #"/r")
    (checkout 100) (checkout 200) #"." #"/r" 100) as (k & k' & f & f' & H1 & H2 & _ & H4).
  - vm_compute. reflexivity.
  - vm_compute. reflexivity.
  - reflexivity.
  - apply checkout_links.
  - vm_compute. reflexivity.
  - exists k, k', f, f'. split; [exact H1|]. split; [exact H2|]. apply H4. vm_compute. reflexivity.
Defined.

Definition linkedTree : FS :=
  {[ #"/r" := Directory 1; #"/r/docs" := Link (Some #"/r/site"); #"/r/site" := Directory 2 ]}.

Lemma linked_directory_is_an_error_witness :
  exists fs' e, @CanonicalizeTimestamps paddedSHA1 stable_slice_sort noFaults (Ok #"/r") linkedTree #"." = (fs', Err e).
Proof.
  destruct (@linked_directory_is_an_error paddedSHA1 stable_slice_sort noFaults (Ok #"/r") linkedTree #"." #"/r" 1 #"/r/docs" #"/r/site" 2)
    as (fs' & e & H1 & _); try (vm_compute; reflexivity). by exists fs', e.
Defined.
End witnesses.
