(* ===== verification/GocacheStats.v ===== *)
(** The GOCACHE directory of a runner that keeps it from job to job:
    src/internal/local/local_gocache_stats.go counts who uses it and evicts its oldest
    files, src/internal/local/native_cache.go scans it and finds where it lies. *)
From S2P Require Import Prelude.
From S2P Require Import GoStrings.
From S2P Require Import GoPath.
From S2P Require Import Wire.
From S2P Require Import Manifests.
From S2P Require Import ClientFiles.
From S2P Require Import Timestamps.

(** ** Where the directory lies *)

(** What the process sees of its surroundings. *)
Record HostEnv := mkHostEnv {
  he_environ : gmap bytes bytes;
  he_cwd : result bytes;
  he_home : result bytes;
  he_userCache : result bytes;
}.

(** [os.Getenv]. *)
Definition Getenv (env : gmap bytes bytes) (k : bytes) : bytes := default [] (env !! k).

Definition resolveAbsPath (he : HostEnv) (path : bytes) : result bytes :=
  if bool_decide (path = #"~") || HasPrefix path #"~/" then
    let? homeDir := he_home he in
    Abs (he_cwd he) (if bool_decide (path = #"~") then homeDir else JoinPath [homeDir; drop 2 path])
  else Abs (he_cwd he) path.

Definition ResolveNativeCacheDir (he : HostEnv) (dir : bytes) : result bytes :=
  if negb (bool_decide (dir = [])) then resolveAbsPath he dir
  else
    let envDir := TrimSpace (Getenv (he_environ he) #"GOCACHE") in
    if negb (bool_decide (envDir = [])) then resolveAbsPath he envDir
    else let? userCacheDir := he_userCache he in Ok (JoinPath [userCacheDir; #"go-build"]).

(** ** Scanning it *)

(** A file of the directory, named by its path below it. *)
Record cacheFileEntry := mkEntry { ce_path : bytes; ce_size : Z; ce_modTime : Z }.

#[export] Instance cacheFileEntry_eq_dec : EqDecision cacheFileEntry.
Proof. solve_decision. Defined.

Section scan.
(** The size and time of the entries that are no regular files. *)
Context (lstat : bytes -> Z * Z).

Definition nodeSize (p : bytes) (n : node) : Z := match n with Regular data _ _ => blen data | _ => (lstat p).1 end.
Definition nodeTime (p : bytes) (n : node) : Z := match n with Regular _ _ t => t | _ => (lstat p).2 end.

Fixpoint scanLoop (env : WalkEnv) (entries : list (bytes * node)) : result (list cacheFileEntry) :=
  match entries with
  | [] => Ok []
  | (p, n) :: entries =>
      match wk_info env p with
      | Some e => Err e
      | None => let? l := scanLoop env entries in Ok (mkEntry p (nodeSize p n) (nodeTime p n) :: l)
      end
  end.

(** [scanCacheDir]: a directory that is not there has no files. *)
Definition scanCacheDir (env : WalkEnv) (d : Dir) : result (list cacheFileEntry) :=
  match wk_walk env with
  | Some e => if isNotExist e then Ok [] else Err e
  | None => scanLoop env (walk d)
  end.

Definition sizes (entries : list cacheFileEntry) : Z := foldl (fun t e => t + ce_size e) 0 entries.

Definition DirStats (env : WalkEnv) (d : Dir) : result (Z * Z) :=
  let? entries := scanCacheDir env d in Ok (Z.of_nat (length entries), sizes entries).
End scan.

(** ** Evicting from it *)

Definition localGocacheStatsFilename : bytes := #"gocacheprog.json".
Definition localGocacheLockFilename : bytes := #"lock".

Definition isLocalGocacheProtectedFile (name : bytes) : bool :=
  bool_decide (name = localGocacheLockFilename) || bool_decide (name = localGocacheStatsFilename)
  || HasPrefix name (localGocacheStatsFilename ++ #".tmp.").

(** [rm] are the faults of [os.Remove]; a file that is not there is as good as removed. *)
Definition removes (rm : bytes -> option goerr) (p : bytes) : bool :=
  match rm p with Some e => isNotExist e | None => true end.

(** The loop over the sorted files: the directory, the remaining total, and the count and
    bytes removed. *)
Fixpoint evictOldest (rm : bytes -> option goerr) (target : Z) (evictable : list cacheFileEntry) (d : Dir)
    (total removedFiles removedBytes : Z) : Dir * (Z * Z * Z) :=
  match evictable with
  | [] => (d, (total, removedFiles, removedBytes))
  | e :: evictable =>
      if total <? target then (d, (total, removedFiles, removedBytes))
      else if removes rm (ce_path e) then
        evictOldest rm target evictable (delete (ce_path e) d) (total - ce_size e) (removedFiles + 1)
          (removedBytes + ce_size e)
      else evictOldest rm target evictable d total removedFiles removedBytes
  end.

Definition older (a b : cacheFileEntry) : bool := ce_modTime a <? ce_modTime b.

Definition evictableOf (entries : list cacheFileEntry) : list cacheFileEntry :=
  filter (fun e => isLocalGocacheProtectedFile (Base (ce_path e)) = false) entries.

Definition evictionTarget (maxBytes : Z) : Z := maxBytes - Z.quot maxBytes 10.

Definition evictOldestUntilFits `{SliceSort} (rm : bytes -> option goerr) (d : Dir) (entries : list cacheFileEntry)
    (maxBytes : Z) : Dir :=
  if maxBytes <=? 0 then d
  else
    let total := sizes entries in
    if total <=? maxBytes then d
    else fst (evictOldest rm (evictionTarget maxBytes) (sort_slice older (evictableOf entries)) d total 0 0).

(** ** Counting who uses it *)

(** Times in nanoseconds, [None] the zero time. *)
Record localGocacheBuildTypeStats := mkUsage { us_First : option Z; us_Last : option Z; us_Count : Z }.

(** The file's content; a JSON object without the key has no map. *)
Record localGocacheStats := mkLocalStats { BuildTypes : option (gmap bytes localGocacheBuildTypeStats) }.

#[export] Instance localGocacheBuildTypeStats_eq_dec : EqDecision localGocacheBuildTypeStats.
Proof. solve_decision. Defined.
#[export] Instance localGocacheStats_eq_dec : EqDecision localGocacheStats.
Proof. solve_decision. Defined.

Definition localGocacheStatsKey : bytes := #"(default)".
Definition localGocacheStatsBuildTypeKey (buildType : bytes) : bytes :=
  if bool_decide (buildType = []) then localGocacheStatsKey else buildType.

Section stats.
Context `{JSON localGocacheStats}.

(** [loadLocalGocacheStats]; [readErr] is what reading a file that is there meets. *)
Definition loadLocalGocacheStats (readErr : option goerr) (d : Dir) : result localGocacheStats :=
  match d !! localGocacheStatsFilename, readErr with
  | None, _ => Ok (mkLocalStats (Some ∅))
  | Some _, Some e => if isNotExist e then Ok (mkLocalStats (Some ∅)) else Err e
  | Some (Regular data _ _), None =>
      let? stats := Unmarshal data in
      Ok (match BuildTypes stats with None => mkLocalStats (Some ∅) | Some _ => stats end)
  | Some _, None => Err (EMsg "not a regular file")
  end.

Definition statsTmpName (pid : Z) : bytes := localGocacheStatsFilename ++ #".tmp." ++ FormatInt pid.

Definition saveLocalGocacheStats (umask now pid : Z) (d : Dir) (stats : localGocacheStats) (flt : option listFault)
    : Dir * result unit :=
  match Marshal stats with
  | Err e => (d, Err e)
  | Ok data =>
      let tmpPath := statsTmpName pid in
      match flt with
      | Some (LFMkdir e) => (d, Err e)
      | Some (LFWrite e part) => (match part with Some b => WriteFile umask now tmpPath b d | None => d end, Err e)
      | Some (LFRename e) => (WriteFile umask now tmpPath data d, Err e)
      | None =>
          let d' := WriteFile umask now tmpPath data d in
          (match d' !! tmpPath with
           | Some n => <[localGocacheStatsFilename := n]> (delete tmpPath d')
           | None => d'
           end, Ok tt)
      end
  end.

(** The entry of a build type after one more use; [Count] is an [int64]. *)
Definition bump (now : Z) (entry : localGocacheBuildTypeStats) : localGocacheBuildTypeStats :=
  mkUsage (match us_First entry with None => Some now | f => f end) (Some now) (i64 (us_Count entry + 1)).

(** The statistics with one more use of a build type. *)
Definition counted (buildType : bytes) (now : Z) (stats : localGocacheStats) : localGocacheStats :=
  let key := localGocacheStatsBuildTypeKey buildType in
  let types := default ∅ (BuildTypes stats) in
  let entry := default (mkUsage None None 0) (types !! key) in
  mkLocalStats (Some (<[key := bump now entry]> types)).

Definition recordLocalGocacheUsage (umask pid : Z) (d : Dir) (buildType : bytes) (now : Z) (readErr : option goerr)
    (flt : option listFault) : Dir * result localGocacheStats :=
  match loadLocalGocacheStats readErr d with
  | Err e => (d, Err e)
  | Ok stats =>
      let stats := counted buildType now stats in
      match saveLocalGocacheStats umask now pid d stats flt with
      | (d, Err e) => (d, Err e)
      | (d, Ok _) => (d, Ok stats)
      end
  end.

(** The order of the log: most recently used first, by name where that ties. *)
Definition usedBefore (a b : bytes * localGocacheBuildTypeStats) : bool :=
  if bool_decide (us_Last a.2 = us_Last b.2) then bytes_lt a.1 b.1
  else match us_Last a.2, us_Last b.2 with
       | Some x, Some y => y <? x
       | Some _, None => true
       | None, _ => false
       end.

Definition loggedRows `{SliceSort} (stats : localGocacheStats) : list (bytes * localGocacheBuildTypeStats) :=
  sort_slice usedBefore (map_to_list (default ∅ (BuildTypes stats))).
End stats.

(** ** Lemmas *)

(** *** Scanning *)

Definition sumZ {A} (f : A -> Z) (l : list A) : Z := foldr (fun x t => f x + t) 0 l.

Lemma sumZ_perm {A} (f : A -> Z) l k : l ≡ₚ k -> sumZ f l = sumZ f k.
Proof. unfold sumZ. induction 1; simpl; lia. Qed.

Lemma sumZ_map {A B} (g : B -> A) (f : A -> Z) l : sumZ f (map g l) = sumZ (fun x => f (g x)) l.
Proof. unfold sumZ. induction l as [|x l IH]; simpl; lia. Qed.

Lemma sizes_sum entries : sizes entries = sumZ ce_size entries.
Proof.
  unfold sizes. assert (forall t, foldl (fun t e => t + ce_size e) t entries = t + sumZ ce_size entries) as ->; [|lia].
  unfold sumZ. induction entries as [|e l IH]; intros t; simpl; [lia|]. rewrite IH. lia.
Qed.

Section scanning.
Context (lstat : bytes -> Z * Z).

Definition entryOf (e : bytes * node) : cacheFileEntry := mkEntry e.1 (nodeSize lstat e.1 e.2) (nodeTime lstat e.1 e.2).

Definition dirSize (d : Dir) : Z := sumZ (fun e => nodeSize lstat e.1 e.2) (map_to_list d).

(** A calm scan lists the directory, in the order of the walk. *)
Lemma scan_calm d : scanCacheDir lstat calmWalk d = Ok (map entryOf (walk d)).
Proof.
  unfold scanCacheDir. cbn [calmWalk wk_walk]. induction (walk d) as [|[p n] l IH]; [done|]. cbn. by rewrite IH.
Qed.

Lemma walk_perm d : walk d ≡ₚ map_to_list d.
Proof. apply stable_sort_perm. Qed.

Lemma elem_of_scan d e : e ∈ map entryOf (walk d) <-> exists n, d !! ce_path e = Some n /\ e = entryOf (ce_path e, n).
Proof.
  rewrite list_elem_of_fmap. setoid_rewrite walk_perm. split.
  - intros ([p n] & -> & Hp%elem_of_map_to_list). by exists n.
  - intros (n & Hn & ->). exists (ce_path e, n). split; [done|]. by apply elem_of_map_to_list.
Qed.

Lemma scan_size d : sizes (map entryOf (walk d)) = dirSize d.
Proof. rewrite sizes_sum, sumZ_map. apply sumZ_perm, walk_perm. Qed.

Lemma scan_paths d : NoDup (map ce_path (map entryOf (walk d))).
Proof.
  rewrite map_map. assert (E : map (fun x => ce_path (entryOf x)) (walk d) = (walk d).*1) by done.
  rewrite E, walk_perm. apply NoDup_fst_map_to_list.
Qed.

Lemma dirSize_delete d p n : d !! p = Some n -> dirSize (delete p d) = dirSize d - nodeSize lstat p n.
Proof.
  intros Hp. unfold dirSize. rewrite <-(sumZ_perm _ _ _ (map_to_list_delete d p n Hp)). unfold sumZ. simpl. lia.
Qed.
End scanning.

(** *** Evicting *)

#[export] Instance older_weak : StrictWeak older.
Proof. split; unfold older; intros *; rewrite ?Z.ltb_lt, ?Z.ltb_ge; lia. Qed.

Section evicting.
Context (lstat : bytes -> Z * Z) (rm : bytes -> option goerr) (target : Z).

(** The entries the loop removed from the part of the list it went through. *)
Definition removed (dn : list cacheFileEntry) : list cacheFileEntry := filter (fun e => removes rm (ce_path e) = true) dn.

(** The loop goes through a part [dn] of the list, removes what can be removed of it, and
    keeps the rest of the directory; it ends with the list or below the target, and the
    last file it removed was needed. *)
Lemma evictOldest_spec l d total k b d' total' k' b' :
  evictOldest rm target l d total k b = (d', (total', k', b')) ->
  NoDup (map ce_path l) -> (forall e, e ∈ l -> exists n, d !! ce_path e = Some n /\ e = entryOf lstat (ce_path e, n)) ->
  exists dn rest, l = dn ++ rest /\
    (forall p, d' !! p = if decide (p ∈ map ce_path (removed dn)) then None else d !! p) /\
    total' - dirSize lstat d' = total - dirSize lstat d /\ (rest = [] \/ total' < target) /\
    (removed dn = [] \/ exists e, e ∈ removed dn /\ target <= total' + ce_size e).
Proof.
  revert d total k b. induction l as [|e l IH]; intros d total k b; cbn [evictOldest map].
  { intros [= <- <- <- <-] _ _. exists [], []. unfold removed. rewrite filter_nil. by split_and!; auto. }
  destruct (total <? target) eqn:Et; go_bool.
  { intros [= <- <- <- <-] _ _. exists [], (e :: l). unfold removed. rewrite filter_nil. by split_and!; auto. }
  intros E [Hne Hn]%NoDup_cons Hl. destruct (removes rm (ce_path e)) eqn:Er.
  - destruct (Hl e ltac:(set_solver)) as (n & Hd & He).
    destruct (IH _ _ _ _ E Hn) as (dn & rest & -> & Hlook & Htot & Hend & Hlast).
    { intros x Hx. destruct (Hl x ltac:(set_solver)) as (m & Hm & Ex). exists m. split; [|done].
      rewrite lookup_delete_ne; [done|]. intros Ep. apply Hne. rewrite Ep. by apply list_elem_of_fmap_2. }
    assert (Erem : removed (e :: dn) = e :: removed dn) by (unfold removed; by rewrite filter_cons_True).
    exists (e :: dn), rest. split; [done|]. rewrite Erem. split; [|split; [|split; [done|]]].
    + intros p. rewrite Hlook. cbn [map]. destruct (decide (p = ce_path e)) as [->|Hp].
      * rewrite lookup_delete_eq. rewrite (decide_True (P := ce_path e ∈ ce_path e :: _)) by set_solver. by case_decide.
      * rewrite lookup_delete_ne by done. by rewrite (decide_ext (p ∈ ce_path e :: _) (p ∈ map ce_path (removed dn))) by set_solver.
    + rewrite (dirSize_delete lstat d (ce_path e) n Hd) in Htot. rewrite He in Htot. cbn in Htot. lia.
    + right. destruct Hlast as [Hnil|(x & Hx & Hlast)].
      * exists e. split; [set_solver|]. assert (total' = total - ce_size e); [|lia].
        assert (dirSize lstat d' = dirSize lstat (delete (ce_path e) d)) as Ed; [|lia].
        f_equal. apply map_eq. intros p. rewrite Hlook, Hnil. by rewrite decide_False by set_solver.
      * exists x. split; [set_solver|done].
  - destruct (IH _ _ _ _ E Hn) as (dn & rest & -> & H1 & H2 & H3 & H4); [set_solver|].
    exists (e :: dn), rest. assert (Erem : removed (e :: dn) = removed dn) by (unfold removed; by rewrite filter_cons_False by congruence).
    by rewrite Erem.
Qed.
End evicting.

Lemma evictionTarget_le maxBytes : 0 < maxBytes -> evictionTarget maxBytes <= maxBytes.
Proof. intros Hm. unfold evictionTarget. assert (0 <= Z.quot maxBytes 10) by (apply Z.quot_pos; lia). lia. Qed.

Lemma elem_of_evictable lstat d e :
  e ∈ evictableOf (map (entryOf lstat) (walk d)) <->
  isLocalGocacheProtectedFile (Base (ce_path e)) = false /\ exists n, d !! ce_path e = Some n /\ e = entryOf lstat (ce_path e, n).
Proof. unfold evictableOf. by rewrite list_elem_of_filter, elem_of_scan. Qed.

(** What the eviction of a scanned directory removes, and what it leaves. *)
Lemma evicted_parts `{SliceSort} lstat rm d maxBytes d' :
  0 < maxBytes -> maxBytes < dirSize lstat d ->
  evictOldestUntilFits rm d (map (entryOf lstat) (walk d)) maxBytes = d' ->
  exists (dn rest : list cacheFileEntry),
    (forall e e', e ∈ dn -> e' ∈ rest -> older e' e = false) /\
    (forall p, d' !! p = None -> is_Some (d !! p) -> isLocalGocacheProtectedFile (Base p) = false /\
       forall n, d !! p = Some n -> entryOf lstat (p, n) ∈ dn) /\
    (forall q m, d' !! q = Some m -> d !! q = Some m /\
       (isLocalGocacheProtectedFile (Base q) = false -> removes rm q = true -> entryOf lstat (q, m) ∈ rest)) /\
    (rest = [] \/ dirSize lstat d' < evictionTarget maxBytes) /\
    (d' = d \/ exists p n, d !! p = Some n /\ d' !! p = None /\
       evictionTarget maxBytes <= dirSize lstat d' + nodeSize lstat p n).
Proof.
  intros Hmax Hover Hrun. unfold evictOldestUntilFits in Hrun.
  rewrite scan_size, (proj2 (Z.leb_gt _ _)), (proj2 (Z.leb_gt _ _)) in Hrun by lia.
  set (l := sort_slice older _) in Hrun.
  assert (Hperm : l ≡ₚ evictableOf (map (entryOf lstat) (walk d))) by apply sort_slice_perm.
  assert (Hord : ordered_by older l) by (apply sort_slice_ordered, _).
  destruct (evictOldest _ _ l _ _ _ _) as [d1 [[t k] b]] eqn:E. cbn in Hrun. subst d1.
  assert (Hent : forall e, e ∈ l <-> isLocalGocacheProtectedFile (Base (ce_path e)) = false /\
    exists n, d !! ce_path e = Some n /\ e = entryOf lstat (ce_path e, n)).
  { intros e. by rewrite Hperm, elem_of_evictable. }
  apply (evictOldest_spec lstat) in E as (dn & rest & Hl & Hlook & Htot & Hend & Hlast).
  2: { rewrite Hperm. eapply sublist_NoDup; [apply (scan_paths lstat d)|]. by apply (fmap_sublist ce_path), sublist_filter. }
  2: { intros e He. by apply Hent. }
  assert (Ht : t = dirSize lstat d') by lia. subst t. setoid_rewrite Hl in Hent. setoid_rewrite elem_of_app in Hent.
  assert (Hrem : forall p, p ∈ map ce_path (removed rm dn) -> exists n, d !! p = Some n /\ d' !! p = None /\
    isLocalGocacheProtectedFile (Base p) = false /\ entryOf lstat (p, n) ∈ dn).
  { intros p Hp. assert (Hp' := Hp). apply list_elem_of_fmap in Hp as (e & -> & [_ He]%list_elem_of_filter).
    destruct (proj1 (Hent e) (or_introl He)) as (Hpr & n & Hn & Ee). exists n. rewrite <-Ee, Hlook. by rewrite decide_True. }
  exists dn, rest. split_and!.
  - rewrite Hl in Hord. by apply ordered_by_app.
  - intros p Hp [n Hn]. rewrite Hlook in Hp. case_decide as Hin; [|congruence].
    destruct (Hrem p Hin) as (n' & Hn' & _ & Hpr & Hd). split; [done|]. intros m Hm. congruence.
  - intros q m Hq. rewrite Hlook in Hq. case_decide as Hin; [done|]. split; [done|]. intros Hp Hr.
    destruct (proj2 (Hent (entryOf lstat (q, m)))) as [Hi|Hi]; [split; [done|by exists m]| |done].
    destruct Hin. apply list_elem_of_fmap. exists (entryOf lstat (q, m)). split; [done|]. by apply list_elem_of_filter.
  - done.
  - destruct Hlast as [Hnil|(e & He & Hlast)].
    + left. apply map_eq. intros p. rewrite Hlook, Hnil. by rewrite decide_False by set_solver.
    + right. destruct (Hrem (ce_path e)) as (n & Hn & Hd & _ & _); [by apply list_elem_of_fmap_2|].
      exists (ce_path e), n. split; [done|]. split; [done|]. apply list_elem_of_filter in He as [_ He].
      destruct (proj1 (Hent e) (or_introl He)) as (_ & m & Hm & Ee). rewrite Hn in Hm. injection Hm as <-.
      rewrite Ee in Hlast. exact Hlast.
Qed.

(** A use is counted and stored. *)
Lemma usage_recorded `{JSON localGocacheStats} umask pid d buildType now stats
    (Hload : loadLocalGocacheStats None d = Ok stats) (Hjson : json_ok (counted buildType now stats))
    (Hrange : forall e, default ∅ (BuildTypes stats) !! localGocacheStatsBuildTypeKey buildType = Some e ->
       0 <= us_Count e < 2 ^ 63 - 1) :
  exists d' types entry,
    recordLocalGocacheUsage umask pid d buildType now None None = (d', Ok (mkLocalStats (Some types))) /\
    loadLocalGocacheStats None d' = Ok (mkLocalStats (Some types)) /\
    types !! localGocacheStatsBuildTypeKey buildType = Some entry /\ us_Last entry = Some now /\
    match default ∅ (BuildTypes stats) !! localGocacheStatsBuildTypeKey buildType with
    | Some old => us_Count entry = us_Count old + 1 /\ us_First entry = match us_First old with None => Some now | f => f end
    | None => us_Count entry = 1 /\ us_First entry = Some now
    end /\
    (forall k, k <> localGocacheStatsBuildTypeKey buildType -> types !! k = default ∅ (BuildTypes stats) !! k) /\
    d' !! statsTmpName pid = None /\
    (forall p, p <> localGocacheStatsFilename -> p <> statsTmpName pid -> d' !! p = d !! p).
Proof.
  destruct (Unmarshal_Marshal _ Hjson) as (data & Em & _ & Eu). unfold recordLocalGocacheUsage. rewrite Hload.
  unfold saveLocalGocacheStats. rewrite Em. set (d1 := WriteFile umask now (statsTmpName pid) data d).
  destruct (WriteFile_lookup umask now (statsTmpName pid) data d) as [mode Ew]. fold d1 in Ew. rewrite Ew.
  assert (Hne : localGocacheStatsFilename <> statsTmpName pid) by (intros E; vm_compute in E; discriminate E).
  unfold counted in *. set (key := localGocacheStatsBuildTypeKey buildType) in *.
  set (types := default ∅ (BuildTypes stats)) in *. set (entry := bump now _) in *.
  eexists _, (<[key := entry]> types), entry. split; [done|].
  split; [|split; [apply lookup_insert_eq|split; [done|split; [|split; [|split]]]]].
  - unfold loadLocalGocacheStats. by rewrite lookup_insert_eq, Eu.
  - unfold entry, bump. destruct (types !! key) as [old|] eqn:Eo; cbn [default us_Count us_First].
    + split; [|done]. apply i64_id. specialize (Hrange old eq_refl). lia.
    + split; [|done]. by rewrite i64_id.
  - intros k Hk. by rewrite lookup_insert_ne.
  - rewrite lookup_insert_ne by done. apply lookup_delete_eq.
  - intros p Hp1 Hp2. rewrite lookup_insert_ne, lookup_delete_ne by done. by apply WriteFile_other.
Qed.

(** ** The claims *)

(** C34: the eviction of a directory that has grown over its limit.  The go command's
    lock and the statistics are never touched, nor is any file changed; a rescan finds
    less than nine tenths of the limit, unless nothing that may be evicted and can be
    removed is left; a removed file is no younger than a file that was left although it
    could have been removed; and no file too many is removed: with one of those removed
    the directory would still be at the target or above. *)
Theorem oldest_files_are_evicted `{SliceSort} lstat rm d entries maxBytes d'
    (Hmax : 0 < maxBytes) (Hscan : scanCacheDir lstat calmWalk d = Ok entries) (Hover : maxBytes < sizes entries)
    (Hrun : evictOldestUntilFits rm d entries maxBytes = d') :
  (forall p, isLocalGocacheProtectedFile (Base p) = true -> d' !! p = d !! p) /\ d' ⊆ d /\
  exists entries', scanCacheDir lstat calmWalk d' = Ok entries' /\
    (sizes entries' < evictionTarget maxBytes \/
     forall p, is_Some (d' !! p) -> isLocalGocacheProtectedFile (Base p) = true \/ removes rm p = false) /\
    (forall p q n m, d !! p = Some n -> d' !! p = None -> d' !! q = Some m ->
       isLocalGocacheProtectedFile (Base q) = false -> removes rm q = true -> nodeTime lstat p n <= nodeTime lstat q m) /\
    (d' = d \/ exists p n, d !! p = Some n /\ d' !! p = None /\
       evictionTarget maxBytes <= sizes entries' + nodeSize lstat p n).
Proof.
  rewrite scan_calm in Hscan. injection Hscan as <-. rewrite scan_size in Hover.
  destruct (evicted_parts lstat rm d maxBytes d' Hmax Hover Hrun) as (dn & rest & Hord & Hgone & Hkept & Hend & Hlast).
  split; [|split].
  - intros p Hp. destruct (d' !! p) as [n|] eqn:E'; [by apply Hkept in E' as [-> _]|].
    destruct (d !! p) as [n|] eqn:E; [|done]. destruct (Hgone p E' (ex_intro _ n E)) as [Hn _]. congruence.
  - apply map_subseteq_spec. intros p n Hp. by apply Hkept.
  - exists (map (entryOf lstat) (walk d')). rewrite scan_calm, scan_size. split; [done|]. split_and!; [| |done].
    + destruct Hend as [->|Hend]; [|by left]. right. intros p [n Hn]. destruct (Hkept p n Hn) as [_ Hr].
      destruct (isLocalGocacheProtectedFile (Base p)); [by left|]. destruct (removes rm p); [|by right].
      specialize (Hr eq_refl eq_refl). set_solver.
    + intros p q n m Hn Hp Hq Hpr Hr. destruct (Hgone p Hp (ex_intro _ n Hn)) as [_ Hd].
      assert (Ho := Hord _ _ (Hd n Hn) (proj2 (Hkept q m Hq) Hpr Hr)). unfold older, entryOf in Ho. cbn in Ho. go_bool. done.
Qed.

(** A job's use of the directory is counted.  When the statistics can be read and
    nothing fails, the use is stored -- reading the file again gives what was returned:
    the build type, or the name that stands for none, has one use more, this one as its
    last, and its first use unchanged or this one; every other build type is as it was,
    and so is every other file; the temporary file is gone. *)
Theorem usage_is_counted `{JSON localGocacheStats} umask pid d buildType now stats
    (Hload : loadLocalGocacheStats None d = Ok stats) (Hjson : json_ok (counted buildType now stats))
    (Hrange : forall e, default ∅ (BuildTypes stats) !! localGocacheStatsBuildTypeKey buildType = Some e ->
       0 <= us_Count e < 2 ^ 63 - 1) :
  exists d' types entry,
    recordLocalGocacheUsage umask pid d buildType now None None = (d', Ok (mkLocalStats (Some types))) /\
    loadLocalGocacheStats None d' = Ok (mkLocalStats (Some types)) /\
    types !! localGocacheStatsBuildTypeKey buildType = Some entry /\ us_Last entry = Some now /\
    match default ∅ (BuildTypes stats) !! localGocacheStatsBuildTypeKey buildType with
    | Some old => us_Count entry = us_Count old + 1 /\ us_First entry = match us_First old with None => Some now | f => f end
    | None => us_Count entry = 1 /\ us_First entry = Some now
    end /\
    (forall k, k <> localGocacheStatsBuildTypeKey buildType -> types !! k = default ∅ (BuildTypes stats) !! k) /\
    d' !! statsTmpName pid = None /\
    (forall p, p <> localGocacheStatsFilename -> p <> statsTmpName pid -> d' !! p = d !! p).
Proof. by apply usage_recorded. Qed.

(** ** Examples *)

Section witnesses.
Definition grownDir : Dir :=
  {[ #"lock" := Regular #"x" 384 0; #"aa/old" := Regular #"sixsix" 384 1; #"bb/new" := Regular #"sixsix" 384 5 ]}.

Lemma oldest_files_are_evicted_witness :
  let d' := @evictOldestUntilFits stable_slice_sort (fun _ => None) grownDir
    (map (entryOf (fun _ => (0, 0))) (walk grownDir)) 10 in
  d' !! #"lock" = Some (Regular #"x" 384 0) /\ d' !! #"aa/old" = None.
Proof.
  intros d'.
  destruct (@oldest_files_are_evicted stable_slice_sort (fun _ => (0, 0)) (fun _ => None) grownDir
    (map (entryOf (fun _ => (0, 0))) (walk grownDir)) 10 d') as (H1 & _ & _).
  - lia.
  - apply scan_calm.
  - vm_compute. reflexivity.
  - reflexivity.
  - split; [|vm_compute; reflexivity]. rewrite H1; [|vm_compute; reflexivity]. vm_compute. reflexivity.
Defined.

Lemma usage_is_counted_witness :
  let J := tableJSON [counted #"unit" 5 (mkLocalStats (Some ∅))] in
  exists d' types entry,
    @recordLocalGocacheUsage J 18 77 grownDir #"unit" 5 None None = (d', Ok (mkLocalStats (Some types))) /\
    types !! #"unit" = Some entry /\ us_Count entry = 1.
Proof.
  intros J. destruct (@usage_is_counted J 18 77 grownDir #"unit" 5 (mkLocalStats (Some ∅)))
    as (d' & types & entry & H1 & _ & H3 & _ & H5 & _).
  - vm_compute. reflexivity.
  - apply list_elem_of_here.
  - intros e He. vm_compute in He. discriminate He.
  - exists d', types, entry. split; [exact H1|]. split; [exact H3|]. apply H5.
Defined.
End witnesses.
