(* ===== verification/NativeRestore.v ===== *)
(** A restore from end to end: the request in a URL query, the handler of
    src/internal/http/restore_cache.go that streams what the store serves, the client
    of src/internal/http/client.go that decodes it, and
    src/internal/local/native_cache.go that writes it into a GOCACHE directory. *)
From S2P Require Import Prelude.
From S2P Require Import GoStrings.
From S2P Require Import GoPath.
From S2P Require Import Wire.
From S2P Require Import HttpNet.
From S2P Require Import Settings.
From S2P Require Import GoCacheStore.
From S2P Require Import ManifestPaths.
From S2P Require Import Manifests.
From S2P Require Import GoCacheRestore.
From S2P Require Import ClientFiles.

(** ** The request *)

Definition gocacheQuery (req : Request) : Query :=
  setLimit #"max-preload-total-bytes" (rq_MaxPreloadTotalBytes req)
  (setLimit #"max-file-bytes" (rq_MaxFileBytes req)
  (setText #"parent-commit" (rq_ParentCommit req)
  (setText #"base-commit" (rq_BaseCommit req)
  (setText #"build-type" (rq_BuildType req)
  (setText #"changes-id" (rq_ChangesID req)
  (setText #"commit" (rq_Commit req) ∅)))))).

Definition getLimit (q : Query) (k : bytes) : Z :=
  let raw := TrimSpace (getParam q k) in
  if bool_decide (raw = []) then 0 else match ParseInt raw with Ok n => n | Err _ => 0 end.

Definition parseGOCACHERequest (q : Query) : Request :=
  mkRequest (TrimSpace (getParam q #"commit")) (TrimSpace (getParam q #"changes-id"))
    (TrimSpace (getParam q #"build-type")) (TrimSpace (getParam q #"base-commit"))
    (TrimSpace (getParam q #"parent-commit")) (getLimit q #"max-file-bytes")
    (getLimit q #"max-preload-total-bytes").

(** ** The handler *)

(** The request with the server's limits where it has none of its own. *)
Definition withDefaults (h : Handler) (req : Request) : Request :=
  let total := if rq_MaxPreloadTotalBytes req <=? 0 then maxPreloadTotalBytesFor h (rq_BuildType req)
               else rq_MaxPreloadTotalBytes req in
  let file := if rq_MaxFileBytes req <=? 0 then maxFileBytesFor h (rq_BuildType req)
              else rq_MaxFileBytes req in
  mkRequest (rq_Commit req) (rq_ChangesID req) (rq_BuildType req) (rq_BaseCommit req)
    (rq_ParentCommit req) file total.

(** A response: a status, and a body that was written whole. *)
Record HttpResponse := mkHttp { http_status : Z; http_body : bytes }.

Section handler.
Context `{Zstd} `{SliceSort} `{JSON FileMeta}.

(** [StreamWriter.WriteItem] with what it has written when it fails: the header
    and the metadata are on the wire before the body is read. *)
Definition writeItemTo (fi : FileItem) : bytes * option goerr :=
  match Marshal (fi_meta fi) with
  | Err e => ([], Some e)
  | Ok jsonData =>
      match checkedJSONLength jsonData with
      | Err e => ([], Some e)
      | Ok n =>
          match WriteTo fi with
          | Err e => (putInt32 n ++ jsonData, Some e)
          | Ok body => (putInt32 n ++ jsonData ++ body, None)
          end
      end
  end.

(** The callback of the handler: nothing is written after a failure. *)
Fixpoint restoreFrames (items : list FileItem) : bytes :=
  match items with
  | [] => []
  | item :: items =>
      match writeItemTo item with
      | (b, None) => b ++ restoreFrames items
      | (b, Some _) => b
      end
  end.

(** [Handler.RestoreCache]; [env] and [env'] are what its two looks at the manifests
    meet.  A failure of the second comes after the status was sent. *)
Definition HandleRestoreCache (cf : Config) (h : Handler) (env env' : Env) (sv : Server) (q : Query)
    : Server * HttpResponse :=
  let req := withDefaults h (parseGOCACHERequest q) in
  match RestoreSources cf env sv req with
  | (sv, Err _) => (sv, mkHttp 500 [])
  | (sv, Ok []) => (sv, mkHttp 200 (putInt32 0))
  | (sv, Ok _) =>
      match Restore cf env' sv req with
      | (sv, Err _) => (sv, mkHttp 200 [])
      | (sv, Ok (items, _)) => (sv, mkHttp 200 (restoreFrames items ++ CloseStream))
      end
  end.
End handler.

(** ** The client *)

Record TransferStats := mkStats {
  ts_Files : Z;
  ts_CompressedBytes : Z;
  ts_UncompressedBytes : Z;
}.

Definition no_stats : TransferStats := mkStats 0 0 0.

Definition addStats (m : FileMeta) (st : TransferStats) : TransferStats :=
  mkStats (ts_Files st + 1) (ts_CompressedBytes st + wireLen m) (ts_UncompressedBytes st + fi_Size m).

Section client.
Context `{Zstd} `{JSON FileMeta}.

(** The callback of the client's [RestoreCache]: the body is read whole and decoded. *)
Definition restoreCallback {S} (cb : FileMeta -> option stream -> S -> S * option goerr)
    (item : FileMeta) (body : option stream) (s : TransferStats * S) : (TransferStats * S) * option goerr :=
  let st := addStats item s.1 in
  match body with
  | None => let '(s, e) := cb item None s.2 in ((st, s), e)
  | Some rd =>
      match ReadAll rd with
      | Err e => ((st, s.2), Some e)
      | Ok data =>
          match UncompressedBodyReader (SetBodyReader (mkFileItem item None) (Ok (fromBytes data))) with
          | Err e => ((st, s.2), Some e)
          | Ok rd => let '(s, e) := cb item rd s.2 in ((st, s), e)
          end
      end
  end.

(** [Client.RestoreCache]; [res] is the response, of which the body may be cut. *)
Definition RestoreCache {S} (res : result (Z * stream))
    (cb : FileMeta -> option stream -> S -> S * option goerr) (s : S) : S * result TransferStats :=
  match res with
  | Err e => (s, Err e)
  | Ok (status, body) =>
      if negb (status =? 200) then (s, Err (EMsg "restore-cache status"))
      else match ReadStream body (restoreCallback cb) (no_stats, s) with
           | ((st, s), Ok _) => (s, Ok st)
           | ((_, s), Err e) => (s, Err e)
           end
  end.

(** What the directory is written with: the process's umask, the time, and the
    faults of the files, the list and the marker. *)
Record DirEnv := mkDirEnv {
  de_umask : Z;
  de_now : Z;
  de_file : bytes -> option (restoreFault * goerr);
  de_list : option listFault;
  de_marker : option listFault;
}.

(** [RestoreNativeCache]'s callback: the path is noted, then the file is written. *)
Definition restoreOne (de : DirEnv) (item : FileMeta) (body : option stream) (s : Dir * list bytes)
    : (Dir * list bytes) * option goerr :=
  let '(d, paths) := s in
  match RestoreToDir (de_umask de) (de_now de) d item body (de_file de (fi_Path item)) with
  | (d, Err e) => ((d, paths ++ [fi_Path item]), Some e)
  | (d, Ok _) => ((d, paths ++ [fi_Path item]), None)
  end.

Definition RestoreNativeCache (de : DirEnv) (d : Dir) (res : result (Z * stream)) (startedAt : Z)
    : Dir * result TransferStats :=
  match RestoreCache res (restoreOne de) (d, []) with
  | ((d, _), Err e) => (d, Err e)
  | ((d, paths), Ok stats) =>
      match WriteRestoredPaths (de_umask de) (de_now de) d paths (de_list de) with
      | (d, Err e) => (d, Err e)
      | (d, Ok _) =>
          match WriteJobStartMarker (de_umask de) (de_now de) d startedAt (de_marker de) with
          | (d, Err e) => (d, Err e)
          | (d, Ok _) => (d, Ok stats)
          end
      end
  end.
End client.

(** ** The request survives the query *)

(** A request as [RunGitHubActionsInit] and the command line make it. *)
Record plain_request (req : Request) : Prop := {
  pr_commit : TrimSpace (rq_Commit req) = rq_Commit req;
  pr_changes : TrimSpace (rq_ChangesID req) = rq_ChangesID req;
  pr_build : TrimSpace (rq_BuildType req) = rq_BuildType req;
  pr_base : TrimSpace (rq_BaseCommit req) = rq_BaseCommit req;
  pr_parent : TrimSpace (rq_ParentCommit req) = rq_ParentCommit req;
  pr_file : rq_MaxFileBytes req < 2 ^ 63;
  pr_total : rq_MaxPreloadTotalBytes req < 2 ^ 63;
}.

Lemma limit_param n : n < 2 ^ 63 ->
  let raw := TrimSpace (if bool_decide (0 < n) then FormatInt n else []) in
  (if bool_decide (raw = []) then 0 else match ParseInt raw with Ok n => n | Err _ => 0 end) = Z.max 0 n.
Proof.
  intros Hn raw. subst raw. destruct (decide (0 < n)) as [Hp|Hp];
    [rewrite (bool_decide_eq_true_2 (0 < n)) by done|rewrite (bool_decide_eq_false_2 (0 < n)) by done].
  2: { assert (E : TrimSpace [] = []) by done. rewrite E, bool_decide_eq_true_2; [lia|reflexivity]. }
  rewrite FormatInt_trimmed, ParseInt_FormatInt by lia. rewrite bool_decide_eq_false_2; [lia|].
  intros E. assert (H := ParseInt_FormatInt n ltac:(lia)). by rewrite E in H.
Qed.

Lemma text_param v : TrimSpace v = v -> TrimSpace (if bool_decide (v <> []) then v else []) = v.
Proof. intros Hv. destruct v; [done|]. by rewrite bool_decide_eq_true_2. Qed.

(** The server serves the request the client has: what [gocacheQuery] puts into
    the query, [parseGOCACHERequest] reads back, with a negative limit as none. *)
Lemma request_roundtrip req (Hreq : plain_request req) :
  parseGOCACHERequest (gocacheQuery req) =
  mkRequest (rq_Commit req) (rq_ChangesID req) (rq_BuildType req) (rq_BaseCommit req) (rq_ParentCommit req)
    (Z.max 0 (rq_MaxFileBytes req)) (Z.max 0 (rq_MaxPreloadTotalBytes req)).
Proof.
  destruct Hreq as [H1 H2 H3 H4 H5 H6 H7]. unfold parseGOCACHERequest, getLimit, gocacheQuery.
  rewrite !get_setLimit, !get_setText, !same_key, !other_key by (intros E; vm_compute in E; discriminate E).
  change (getParam ∅ _) with ([] : bytes). by rewrite !text_param, !limit_param.
Qed.

(** ** What the client makes of a stream *)

Section restoring.
Context `{Zstd} `{JSON FileMeta}.

(** The file content that the bytes of an item on the wire stand for. *)
Definition wireContent (m : FileMeta) (b : bytes) : result bytes :=
  if fi_IsCompressed m && (0 <? wireLen m) then let? rd := zstdReader (fromBytes b) in ReadAll rd else Ok b.

Definition decodes (i : FileItem) (x : bytes) : Prop :=
  exists b, WriteTo i = Ok b /\ wireContent (fi_meta i) b = Ok x.

Definition pathOf (i : FileItem) : bytes := fi_Path (fi_meta i).

Definition restoredMode (de : DirEnv) (m : FileMeta) : Z :=
  Z.land (perm (if FileMode m =? 0 then 384 else FileMode m)) (Z.lnot (de_umask de)).

Definition fileOf (de : DirEnv) (ct : FileItem -> bytes) (i : FileItem) : node :=
  Regular (ct i) (restoredMode de (fi_meta i)) (de_now de).

Definition restoredDir (de : DirEnv) (ct : FileItem -> bytes) (d : Dir) (items : list FileItem) : Dir :=
  foldl (fun d i => <[pathOf i := fileOf de ct i]> d) d items.

(** An item that a client can restore as [ct i]. *)
Record restorable (ct : FileItem -> bytes) (i : FileItem) : Prop := {
  rs_send : sendable i;
  rs_decodes : decodes i (ct i);
  rs_path : listable (pathOf i);
}.

Lemma listable_clean p : listable p -> cleanRelativePath p = Ok p.
Proof. intros Hp. apply rel_clean_cleanRelativePath; apply Hp. Qed.

Lemma blocked_free d p :
  (forall q n, d !! q = Some n -> below p q = false /\ below q p = false) -> blocked d p = false.
Proof.
  intros Hd. unfold blocked. apply not_true_iff_false. rewrite existsb_exists.
  intros ([q n] & Hin%list_elem_of_In & Hb). apply elem_of_map_to_list in Hin.
  destruct (Hd q n Hin) as [H1 H2]. simpl in Hb. by rewrite H1, H2 in Hb.
Qed.

Lemma restoreCallback_ok de ct i st d paths :
  restorable ct i -> de_file de (pathOf i) = None -> blocked d (pathOf i) = false ->
  restoreCallback (restoreOne de) (fi_meta i) (received i) (st, (d, paths)) =
  ((addStats (fi_meta i) st, (<[pathOf i := fileOf de ct i]> d, paths ++ [pathOf i])), None).
Proof.
  intros [Hs (b & Hb & Hx) Hp] Hf Hbl. destruct Hs as (_ & Hs1 & Hs2).
  assert (Hl := WriteTo_length i b Hs1 Hs2 Hb). unfold received, restoreCallback. rewrite Hb.
  apply listable_clean in Hp. unfold wireContent in Hx. unfold restoreOne, RestoreToDir.
  fold (pathOf i). rewrite Hp, Hf. destruct (0 <? wireLen (fi_meta i)) eqn:E; go_bool.
  - cbn [ReadAll st_err fromBytes st_data SetBodyReader fi_meta fst snd].
    unfold UncompressedBodyReader, bodyOf. cbn [fi_meta fi_body SetBodyReader].
    destruct ((fi_Size (fi_meta i) =? 0) && _) eqn:E0.
    { apply andb_true_iff in E0 as [E1%Z.eqb_eq E2%Z.eqb_eq]. unfold wireLen in E. rewrite E2, E1 in E. simpl in E. lia. }
    destruct (fi_IsCompressed (fi_meta i)); cbn [andb] in Hx.
    + destruct (zstdReader _) as [[x' [e|]]|] eqn:Ez; [done| |done]. injection Hx as ->.
      by rewrite Hbl.
    + injection Hx as Hx. unfold fileOf. by rewrite Hbl, <-Hx.
  - rewrite andb_false_r in Hx. injection Hx as Hx. unfold fileOf. rewrite <-Hx. assert (b = []) as -> by (destruct b; [done|unfold blen in *; simpl in *; lia]).
    cbn [fst snd]. by rewrite Hbl.
Qed.

(** The names of a directory and of what is restored into it do not contain one another. *)
Definition apart (d : Dir) (items : list FileItem) : Prop :=
  forall p q, (p ∈ map pathOf items \/ is_Some (d !! p)) -> (q ∈ map pathOf items \/ is_Some (d !! q)) -> below p q = false.

Lemma deliver_restored de ct items st d paths :
  Forall (restorable ct) items -> (forall p, de_file de p = None) -> apart d items ->
  exists st', deliver items (restoreCallback (restoreOne de)) (st, (d, paths)) =
    ((st', (restoredDir de ct d items, paths ++ map pathOf items)), None) /\
    ts_Files st' = ts_Files st + Z.of_nat (length items) /\
    ts_CompressedBytes st' = ts_CompressedBytes st + foldr (fun i t => wireLen (fi_meta i) + t) 0 items /\
    ts_UncompressedBytes st' = ts_UncompressedBytes st + foldr (fun i t => fi_Size (fi_meta i) + t) 0 items.
Proof.
  intros Hok Hf. revert st d paths. induction Hok as [|i items Hi Hok IH]; intros st d paths Hap; cbn [deliver map].
  { exists st. rewrite app_nil_r. simpl. split_and!; [done|lia..]. }
  rewrite (restoreCallback_ok de ct); [|done|done|].
  - destruct (IH (addStats (fi_meta i) st) (<[pathOf i := fileOf de ct i]> d) (paths ++ [pathOf i]))
      as (st' & -> & H2 & H3 & H4).
    + intros p q Hp Hq. apply Hap; [destruct Hp as [Hp|Hp]|destruct Hq as [Hq|Hq]];
        try (left; set_solver); apply lookup_insert_is_Some in Hp || apply lookup_insert_is_Some in Hq; set_solver.
    + exists st'. rewrite <-app_assoc. cbn [length foldr]. simpl in H2, H3, H4. split; [done|]. lia.
  - apply blocked_free. intros q n Hq. split; apply Hap; eauto; left; set_solver.
Qed.

Lemma restoredDir_cons de ct d i items :
  restoredDir de ct d (i :: items) = restoredDir de ct (<[pathOf i := fileOf de ct i]> d) items.
Proof. reflexivity. Qed.

Lemma restoredDir_other de ct d items p :
  p ∉ map pathOf items -> restoredDir de ct d items !! p = d !! p.
Proof.
  revert d. induction items as [|j items IH]; intros d Hp; [done|]. cbn [map] in Hp.
  rewrite restoredDir_cons, IH by set_solver. apply lookup_insert_ne. set_solver.
Qed.

Lemma restoredDir_lookup de ct d items i :
  NoDup (map pathOf items) -> i ∈ items -> restoredDir de ct d items !! pathOf i = Some (fileOf de ct i).
Proof.
  revert d. induction items as [|j items IH]; intros d Hn Hi; [set_solver|].
  cbn [map] in Hn. apply NoDup_cons in Hn as [Hj Hn]. rewrite restoredDir_cons.
  apply elem_of_cons in Hi as [->|Hi]; [|by apply IH].
  rewrite restoredDir_other by done. by rewrite lookup_insert_eq.
Qed.

(** The names the client keeps for itself. *)
Definition reserved (p : bytes) : Prop :=
  p = restoredPathsListName \/ p = restoredPathsListName ++ #".tmp" \/ p = jobStartMarkerName.

(** A machine without faults. *)
Definition calmDir (umask now : Z) : DirEnv := mkDirEnv umask now (fun _ => None) None None.

(** A restore writes what was sent.  When the server's stream of distinct paths
    arrives whole, every item is a regular file with the decoded body and the mode
    it had (0600 for none), less the umask; nothing else is changed; and the list of
    restored paths and the start of the job are what the end of the job reads. *)
Lemma restored_files umask now ct d items out rest startedAt
    (Hok : Forall (restorable ct) items) (Hnd : NoDup (map pathOf items)) (Hap : apart d items)
    (Hres : forall i, i ∈ items -> ~ reserved (pathOf i))
    (Hout : writeItems items = Ok out) (Hs : - 2 ^ 63 <= startedAt < 2 ^ 63) :
  let de := calmDir umask now in
  exists d' stats,
    RestoreNativeCache de d (Ok (200, mkStream (out ++ CloseStream ++ rest) None)) startedAt = (d', Ok stats) /\
    ts_Files stats = Z.of_nat (length items) /\
    (forall i, i ∈ items -> d' !! pathOf i = Some (fileOf de ct i)) /\
    (forall p, p ∉ map pathOf items -> ~ reserved p -> d' !! p = d !! p) /\
    ReadRestoredPaths d' = Ok (list_to_set (map pathOf items)) /\ ReadJobStartMarker d' = Ok startedAt.
Proof.
  intros de. unfold RestoreNativeCache, RestoreCache. cbn [negb Z.eqb Pos.eqb].
  assert (Hsend : Forall sendable items) by (eapply Forall_impl; [exact Hok|]; intros i Hi; apply Hi).
  rewrite (ReadStream_frames items out) by done.
  destruct (deliver_restored de ct items no_stats d [] Hok) as (st & -> & Hst & _); [done|done|].
  cbn [app]. assert (Hp : forall p, p ∈ map pathOf items -> cleanRelativePath p = Ok p).
  { intros p (i & -> & Hi)%list_elem_of_fmap. rewrite Forall_forall in Hok. apply listable_clean, (Hok i Hi). }
  destruct (cleanPaths_total (map pathOf items) ∅) as [l Hl]; [eauto|].
  destruct (cleanPaths_spec _ _ _ Hl) as [_ Hm].
  destruct (WriteRestoredPaths_spec umask now (restoredDir de ct d items) _ l Hl) as (d1 & mode & Hw & Hd1 & Hk).
  cbn [de_umask de_now de_list de_marker calmDir de]. rewrite Hw.
  unfold WriteJobStartMarker. eexists _, st. split; [reflexivity|].
  assert (Hlist : forall p, p ∈ l <-> (p ∈ map pathOf items)).
  { intros p. rewrite Hm. split; [|set_solver]. intros (_ & q & Hq & Hc). rewrite Hp in Hc by done. congruence. }
  split; [done|]. split; [|split; [|split]].
  - intros i Hi. rewrite WriteFile_other by (intros E; apply (Hres i Hi); by right; right).
    rewrite Hk by (intros E; apply (Hres i Hi); unfold reserved; tauto). by apply restoredDir_lookup.
  - intros p Hpi Hnr. rewrite WriteFile_other by (intros E; apply Hnr; by right; right).
    rewrite Hk by (intros E; apply Hnr; unfold reserved; tauto). by apply restoredDir_other.
  - rewrite (ReadRestoredPaths_written _ l mode now).
    + f_equal. apply set_eq. intros p. by rewrite !elem_of_list_to_set.
    + apply Forall_forall. intros p Hpl. apply Hlist, list_elem_of_fmap in Hpl as (i & -> & Hi).
      rewrite Forall_forall in Hok. apply (Hok i Hi).
    + rewrite WriteFile_other by discriminate. exact Hd1.
  - destruct (WriteFile_lookup umask now jobStartMarkerName (FormatInt startedAt) d1) as [m Hmk].
    unfold ReadJobStartMarker. rewrite Hmk, FormatInt_trimmed. by apply ParseInt_FormatInt.
Qed.
End restoring.

(** ** From the store to the directory *)

Section end_to_end.
Context `{Zstd} `{SliceSort} `{JSON FileMeta}.

(** The objects of a store that a client can restore, [content p] being what [p] was
    before it was stored. *)
Record servable (cf : Config) (a : Contents) (content : bytes -> bytes) : Prop := {
  sb_listable p : held a p -> listable p;
  sb_size p ie b : a !! p = Some (ie, b) -> 0 <= ie_Size ie /\ 0 <= ie_WireSize ie;
  sb_json p ie b : a !! p = Some (ie, b) ->
    json_ok (responseMeta cf p ie) /\ exists j, Marshal (responseMeta cf p ie) = Ok j /\ blen j <= MaxInt32;
  sb_content p ie b : a !! p = Some (ie, b) -> wireContent (responseMeta cf p ie) b = Ok (content p);
  sb_free p : held a p -> ~ reserved p;
}.

(** The names of a directory and of a store do not contain one another. *)
Definition disjoint_names (d : Dir) (a : Contents) : Prop :=
  forall p q, (held a p \/ is_Some (d !! p)) -> (held a q \/ is_Some (d !! q)) -> below p q = false.

(** An item that stands for an object. *)
Definition stands_for (cf : Config) (a : Contents) (i : FileItem) : Prop :=
  exists ie b, a !! pathOf i = Some (ie, b) /\ fi_meta i = responseMeta cf (pathOf i) ie /\ WriteTo i = Ok b.

Lemma stands_held cf a i : stands_for cf a i -> held a (pathOf i).
Proof. intros (ie & b & Ha & _). by eexists. Qed.

Lemma stands_restorable cf a content i :
  servable cf a content -> stands_for cf a i -> restorable (fun i => content (pathOf i)) i.
Proof.
  intros Hs (ie & b & Ha & Hm & Hb). destruct (sb_size _ _ _ Hs _ _ _ Ha) as [H1' H2'].
  split.
  - split; [rewrite Hm; apply (sb_json _ _ _ Hs _ _ _ Ha)|]. rewrite Hm. unfold responseMeta. simpl.
    split; [done|]. by destruct (ie_WireSize ie =? 0).
  - exists b. split; [done|]. rewrite Hm. by apply (sb_content _ _ _ Hs).
  - apply (sb_listable _ _ _ Hs). by eexists.
Qed.

Lemma stands_written cf a content i :
  servable cf a content -> stands_for cf a i -> exists f, WriteItem i = Ok f /\ writeItemTo i = (f, None).
Proof.
  intros Hs (ie & b & Ha & Hm & Hb). destruct (sb_json _ _ _ Hs _ _ _ Ha) as (_ & j & Hj & Hl).
  unfold WriteItem, writeItemTo, checkedJSONLength. rewrite Hm, Hj, Hb, (proj2 (Z.ltb_ge _ _)) by done. eauto.
Qed.

Lemma frames_written cf a content items :
  servable cf a content -> Forall (stands_for cf a) items -> exists out, writeItems items = Ok out /\ restoreFrames items = out.
Proof.
  intros Hs. induction 1 as [|i items Hi Hit IH]; [by exists []|]. destruct IH as (out & E1 & E2).
  destruct (stands_written cf a content i Hs Hi) as (f & E3 & E4). exists (f ++ out).
  cbn [writeItems restoreFrames]. by rewrite E3, E4, E1, E2.
Qed.

(** The items of a restore. *)
Lemma Restore_stands cf env sv req a content sv' items srcs :
  cfg_ok cf -> env_ok env -> part_of cf a (sv_store sv) -> servable cf a content ->
  Restore cf env sv req = (sv', Ok (items, srcs)) ->
  NoDup (map pathOf items) /\ Forall (stands_for cf a) items.
Proof.
  intros Hc He (a1 & Hr & Hsub) Hs Hres.
  apply (Restore_serves _ _ _ _ a1) in Hres as (_ & Hn & Hi); [|done..| |].
  - split; [done|]. apply Forall_forall. intros i Hin. destruct (Hi i Hin) as (ie & b & Ha & Hm & _ & Hb).
    exists ie, b. split; [by eapply lookup_weaken|done].
  - intros p [x Hx]. apply (sb_listable _ _ _ Hs). exists x. by eapply lookup_weaken.
  - intros p ie b Hx. by apply (sb_size _ _ _ Hs p ie b), (lookup_weaken _ _ _ _ Hx).
Qed.

Lemma Restore_shrinks cf env sv req a content sv' items srcs p :
  cfg_ok cf -> env_ok env -> part_of cf a (sv_store sv) -> servable cf a content ->
  Restore cf env sv req = (sv', Ok (items, srcs)) -> indexed (sv_store sv') p -> indexed (sv_store sv) p.
Proof.
  intros Hc He (a1 & Hr & Hsub) Hs Hres Hp.
  apply (Restore_serves _ _ _ _ a1) in Hres as (Hpart & _); [|done..| |].
  - apply (repr_indexed cf _ a1); [done|]. by eapply part_of_indexed.
  - intros q [x Hx]. apply (sb_listable _ _ _ Hs). exists x. by eapply lookup_weaken.
  - intros q ie b Hx. by apply (sb_size _ _ _ Hs q ie b), (lookup_weaken _ _ _ _ Hx).
Qed.

(** What is restored is within the limits. *)
Lemma Restore_within cf env sv req a2 a content sv' items srcs i ie b :
  cfg_ok cf -> env_ok env -> repr cf (sv_store sv) a2 -> a2 ⊆ a -> servable cf a content ->
  Restore cf env sv req = (sv', Ok (items, srcs)) -> i ∈ items -> a !! pathOf i = Some (ie, b) ->
  withinFileLimits cf req (pathOf i, ie).
Proof.
  intros Hc He Hr Hsub Hs Hres Hi Ha.
  apply (Restore_serves _ _ _ _ a2) in Hres as (_ & _ & Hall); [|done..| |].
  - destruct (Hall i Hi) as (e & x & Hx & _ & Hlim & _). eapply lookup_weaken in Hx; [|exact Hsub].
    assert (E : Some (e, x) = Some (ie, b)) by (rewrite <-Hx; exact Ha). by injection E as -> _.
  - intros p [x Hx]. apply (sb_listable _ _ _ Hs). exists x. by eapply lookup_weaken.
  - intros p e x Hx. by apply (sb_size _ _ _ Hs p e x), (lookup_weaken _ _ _ _ Hx).
Qed.

(** The request the handler serves: the client's, with the server's limits for the build
    type where the client has none. *)
Definition servedRequest (h : Handler) (req : Request) : Request :=
  withDefaults h (parseGOCACHERequest (gocacheQuery req)).

Lemma servedRequest_spec h req :
  plain_request req ->
  rq_Commit (servedRequest h req) = rq_Commit req /\ rq_BuildType (servedRequest h req) = rq_BuildType req /\
  rq_MaxFileBytes (servedRequest h req) =
    (if rq_MaxFileBytes req <=? 0 then maxFileBytesFor h (rq_BuildType req) else rq_MaxFileBytes req) /\
  rq_MaxPreloadTotalBytes (servedRequest h req) =
    (if rq_MaxPreloadTotalBytes req <=? 0 then maxPreloadTotalBytesFor h (rq_BuildType req) else rq_MaxPreloadTotalBytes req).
Proof.
  intros Hp. unfold servedRequest. rewrite request_roundtrip by done. unfold withDefaults. simpl.
  split_and!; [done..| |]; (match goal with |- context [Z.max 0 ?x] => destruct (Z.leb_spec x 0), (Z.leb_spec (Z.max 0 x) 0) end; lia || done).
Qed.

(** The restore of a job: of the paths its manifest lists, those that the store still
    holds when it is over and that are within the file limits are files of its
    directory, and are listed as restored; the others are not listed. *)
Lemma listed_files_are_restored cf h env1 env2 sv1 sv2 sv3 req a content srcs items srcs' umask now d startedAt mp
    (Hc : cfg_ok cf) (He1 : env_ok env1) (He2 : env_ok env2)
    (Hp1 : part_of cf a (sv_store sv1)) (Hserv : servable cf a content) (Hnames : disjoint_names d a)
    (Hplain : plain_request req) (Htot : total_fits (servedRequest h req) a)
    (Hmp : resolveCommitManifestPath cf (rq_Commit req) (rq_BuildType req) = Ok mp)
    (Hsrc : RestoreSources cf env1 sv1 (servedRequest h req) = (sv2, Ok srcs))
    (Hres : Restore cf env2 sv2 (servedRequest h req) = (sv3, Ok (items, srcs')))
    (Hs : - 2 ^ 63 <= startedAt < 2 ^ 63) :
  exists body d' stats restored,
    HandleRestoreCache cf h env1 env2 sv1 (gocacheQuery req) = (sv3, mkHttp 200 body) /\
    RestoreNativeCache (calmDir umask now) d (Ok (200, fromBytes body)) startedAt = (d', Ok stats) /\
    ReadRestoredPaths d' = Ok restored /\
    forall p, indexed (sv_store sv3) p -> exists ie b, a !! p = Some (ie, b) /\
      (p ∈ contents (sv_store sv1) (sv_files sv1) mp ->
        if decide (withinFileLimits cf (servedRequest h req) (p, ie))
        then (p ∈ restored) /\ exists mode, d' !! p = Some (Regular (content p) mode now)
        else p ∉ restored).
Proof.
  assert (Hl := sb_listable _ _ _ Hserv).
  destruct (servedRequest_spec h req Hplain) as (Ec & Eb & _).
  unfold HandleRestoreCache. fold (servedRequest h req). rewrite Hsrc.
  unfold RestoreSources in Hsrc.
  destruct (restorePaths cf env1 sv1 _) as [svx [[l srcs0]|e]] eqn:Ep; [|done]. injection Hsrc as -> ->.
  assert (Hk : keeps mp sv1 sv2).
  { eapply restorePaths_keeps; [..|exact Ep]; try done. eapply (manifestPathOf_at cf KCommit); [apply Hc|].
    unfold resolveCommitManifestPath in Hmp. destruct (bool_decide _); [done|exact Hmp]. }
  apply (restorePaths_parts cf env1 sv1 _ a) in Ep as [Hp2 Hsrcs]; [|done..].
  destruct (Hsrcs l srcs eq_refl) as (_ & _ & Hne & _). destruct srcs as [|src srcs]; [done|]. rewrite Hres.
  destruct (Restore_stands cf env2 sv2 _ a content sv3 items srcs' Hc He2 Hp2 Hserv Hres) as [Hn Hst].
  destruct (frames_written cf a content items Hserv Hst) as (out & Hout & ->).
  rewrite Forall_forall in Hst.
  destruct (restored_files umask now (fun i => content (pathOf i)) d items out [] startedAt)
    as (d' & stats & Hrun & _ & Hfile & _ & Hlist & _).
  - apply Forall_forall. intros i Hin. eapply stands_restorable; [exact Hserv|by apply Hst].
  - done.
  - assert (Hheld : forall p, p ∈ map pathOf items -> held a p).
    { intros p (i & -> & Hin)%list_elem_of_fmap. by eapply stands_held, Hst. }
    intros p q Hp Hq. apply Hnames; [destruct Hp|destruct Hq]; auto.
  - intros i Hin. eapply sb_free; [exact Hserv|]. by eapply stands_held, Hst.
  - done.
  - done.
  - exists (out ++ CloseStream), d', stats, (list_to_set (map pathOf items)). rewrite app_nil_r in Hrun.
    split; [done|]. split; [exact Hrun|]. split; [exact Hlist|]. intros p Hix.
    assert (Hix2 : indexed (sv_store sv2) p) by (by eapply Restore_shrinks).
    assert (Hp3 : held a p) by (by eapply part_of_indexed). destruct Hp3 as [[ie b] Ha]. exists ie, b. split; [done|]. intros Hin.
    destruct Hp2 as (a2 & Hr2 & Hsub2). destruct (decide _) as [Hlim|Hlim].
    + assert (Ha2 : a2 !! p = Some (ie, b)).
      { destruct (part_of_indexed cf a2 (sv_store sv2) p) as [x Hx]; [by exists a2|done|].
        rewrite Hx. rewrite <-Ha. symmetry. by eapply lookup_weaken. }
      destruct (commit_restored cf env2 sv2 (servedRequest h req) a2 sv3 items srcs' p mp ie b)
        as (_ & i & Hi2 & <- & _); try done.
      * intros q [x Hx]. apply Hl. exists x. by eapply lookup_weaken.
      * intros q e x Hx. by apply (sb_size _ _ _ Hserv q e x), (lookup_weaken _ _ _ _ Hx).
      * by rewrite Ec, Eb.
      * by apply (total_fits_sub _ a).
      * by apply Hk.
      * split; [|eexists; by apply Hfile]. apply elem_of_list_to_set, list_elem_of_fmap. by exists i.
    + intros (i & -> & Hi)%elem_of_list_to_set%list_elem_of_fmap. apply Hlim.
      eapply Restore_within; [exact Hc|exact He2|exact Hr2|exact Hsub2|exact Hserv|exact Hres|exact Hi|exact Ha].
Qed.

(** C12: what a job saved is on the disk of the next one.  The paths of a commit have
    been merged into its manifest; the next job of the commit sends its request, the
    server looks the sources up, restores and streams, the client decodes the stream
    into its directory.  Then every one of the paths that the store still holds and
    that is within the limits for one file -- the client's or, where it has none, the
    server's for the build type, and the store's -- is a regular file there with the
    content it was saved with, and is listed as restored, so that the end of the job
    does not save it again; a larger one is not listed.  The total limit, the client's
    or the server's, is off or what the store holds fits it; the names of the store and
    the directory do not contain one another, what is stored decodes, and the directory
    can be written. *)
Theorem saved_files_reach_the_next_job cf h env env1 env2 sv sv1 sv2 sv3 req req' paths a content srcs items srcs'
    umask now d startedAt mp
    (Hc : cfg_ok cf) (He : env_ok env) (He1 : env_ok env1) (He2 : env_ok env2)
    (Hr : repr cf (sv_store sv) a) (Hserv : servable cf a content) (Hnames : disjoint_names d a)
    (Hpaths : Forall listable paths)
    (Hmp : resolveCommitManifestPath cf (rq_Commit req) (rq_BuildType req) = Ok mp)
    (Hmerge : MergeSavedPaths cf env sv req paths = (sv1, Ok tt))
    (Hplain : plain_request req') (Htot : total_fits (servedRequest h req') a)
    (Hsame : rq_Commit req' = rq_Commit req /\ rq_BuildType req' = rq_BuildType req)
    (Hsrc : RestoreSources cf env1 sv1 (servedRequest h req') = (sv2, Ok srcs))
    (Hres : Restore cf env2 sv2 (servedRequest h req') = (sv3, Ok (items, srcs')))
    (Hs : - 2 ^ 63 <= startedAt < 2 ^ 63) :
  exists body d' stats restored,
    HandleRestoreCache cf h env1 env2 sv1 (gocacheQuery req') = (sv3, mkHttp 200 body) /\
    RestoreNativeCache (calmDir umask now) d (Ok (200, fromBytes body)) startedAt = (d', Ok stats) /\
    ReadRestoredPaths d' = Ok restored /\
    rq_MaxFileBytes (servedRequest h req') =
      (if rq_MaxFileBytes req' <=? 0 then maxFileBytesFor h (rq_BuildType req') else rq_MaxFileBytes req') /\
    forall p, p ∈ paths -> indexed (sv_store sv3) p -> exists ie b, a !! p = Some (ie, b) /\
      if decide (withinFileLimits cf (servedRequest h req') (p, ie))
      then (p ∈ restored) /\ exists mode, d' !! p = Some (Regular (content p) mode now)
      else p ∉ restored.
Proof.
  assert (Hl := sb_listable _ _ _ Hserv). destruct Hsame as [Ec Eb].
  assert (Hlist : forall p, p ∈ paths -> held a p -> sv_store sv1 = sv_store sv /\ p ∈ contents (sv_store sv1) (sv_files sv1) mp).
  { intros p Hp Hh. by apply (merged_listed cf env sv sv1 req paths a p mp). }
  assert (Hi : index_listable (sv_store sv)) by (intros q Hq; by apply Hl, (repr_indexed cf (sv_store sv) a)).
  destruct (MergeSavedPaths_spec cf env sv req paths a sv1 Hc He Hr Hi Hpaths Hmerge) as (Es1 & _).
  assert (Hp1 : part_of cf a (sv_store sv1)) by (rewrite Es1; by exists a).
  destruct (listed_files_are_restored cf h env1 env2 sv1 sv2 sv3 req' a content srcs items srcs' umask now d startedAt mp)
    as (body & d' & stats & restored & H1' & H2' & H3' & H4');
    try done; [by rewrite Ec, Eb|].
  exists body, d', stats, restored. split; [done|]. split; [done|]. split; [done|].
  split; [apply (servedRequest_spec h req' Hplain)|]. intros p Hp Hix.
  destruct (H4' p Hix) as (ie & b & Ha & Hin). exists ie, b. split; [done|]. apply Hin, Hlist; [done|by eexists].
Qed.

Lemma writeItemTo_ok i f : WriteItem i = Ok f -> writeItemTo i = (f, None).
Proof.
  unfold WriteItem, writeItemTo. destruct (Marshal _) as [j|]; [|done]. destruct (checkedJSONLength j); [|done].
  destruct (WriteTo i); [|done]. by intros [= <-].
Qed.

Lemma restoreFrames_until pre out i post b e :
  writeItems pre = Ok out -> writeItemTo i = (b, Some e) -> restoreFrames (pre ++ i :: post) = out ++ b.
Proof.
  intros Hout Hi. revert out Hout. induction pre as [|x pre IH]; intros out; cbn [writeItems app restoreFrames].
  { intros [= <-]. by rewrite Hi. }
  destruct (WriteItem x) as [f|] eqn:Ef; [|done]. destruct (writeItems pre) as [o|]; [|done]. intros [= <-].
  rewrite (writeItemTo_ok x f Ef), (IH o eq_refl). by rewrite app_assoc.
Qed.

Lemma deliver_collect items out l :
  Forall sendable items -> writeItems items = Ok out -> deliver items collect l = (l ++ map sent items, None).
Proof.
  intros Hok. revert out l. induction Hok as [|x items Hx Hok IH]; intros out l; cbn [deliver map writeItems].
  { by rewrite app_nil_r. }
  destruct (WriteItem x) as [f|] eqn:Ef; [|done]. destruct (writeItems items) as [o|] eqn:Eo; [|done]. intros _.
  rewrite (collect_received x f) by done. rewrite (IH o) by done. by rewrite <-app_assoc.
Qed.

(** An object that the server fails to read is restored as zeros when it has four
    bytes.  Its header and metadata are on the wire before its body is read; the
    handler then writes nothing more but the end marker, four zero bytes, which the
    client takes for the body, and the stream ends where an item ends: the client
    has the items before it, this one with a false body, and no error. *)
Theorem unreadable_object_becomes_zeros pre i post j e
    (Hpre : Forall sendable pre) (Hout : exists out, writeItems pre = Ok out)
    (Hj : json_ok (fi_meta i)) (Hm : Marshal (fi_meta i) = Ok j) (Hlen : blen j <= MaxInt32)
    (Hfour : wireLen (fi_meta i) = 4) (Hread : WriteTo i = Err e) :
  exists n, ReadStream (fromBytes (restoreFrames (pre ++ i :: post) ++ CloseStream)) collect [] =
    (map sent pre ++ [(fi_meta i, putInt32 0)], Ok n).
Proof.
  destruct Hout as [out Hout]. destruct (Unmarshal_Marshal _ Hj) as (j' & Ej & Hne & Hu).
  assert (j' = j) as -> by congruence.
  assert (Hw : writeItemTo i = (putInt32 (blen j) ++ j, Some e)).
  { unfold writeItemTo, checkedJSONLength. by rewrite Hm, (proj2 (Z.ltb_ge _ _)), Hread. }
  rewrite (restoreFrames_until pre out i post _ e Hout Hw), <-!app_assoc.
  unfold ReadStream, fromBytes. cbn [st_data]. set (rest := putInt32 _ ++ j ++ CloseStream).
  assert (Hrest : (8 <= length rest)%nat) by (unfold rest, CloseStream; rewrite !length_app, !length_putInt32; lia).
  rewrite (readStreamLoop_items pre out rest) by (done || (rewrite length_app; lia)).
  rewrite (deliver_collect pre out) by done. cbn [app].
  assert (Hn : (length pre <= length out)%nat) by (by apply (writeItems_length pre out)).
  rewrite length_app. destruct (Datatypes.S _ - length pre)%nat as [|[|fuel]] eqn:Ef; [lia..|].
  unfold rest. cbn [readStreamLoop].
  unfold readStreamItem at 1. rewrite ReadFull_app by done.
  assert (Hjl : 0 < blen j) by (destruct j; [done|unfold blen; simpl; lia]).
  rewrite getInt32_putInt32 by (unfold MaxInt32 in Hlen; lia).
  rewrite (proj2 (Z.eqb_neq _ _)), (proj2 (Z.ltb_ge _ _)), ReadFull_app, Hu, Hfour by (done || lia).
  rewrite <-(app_nil_r CloseStream), readItemBody_app by done. cbn [collect ReadAll fromBytes st_err st_data].
  cbn [readStreamLoop]. eexists. reflexivity.
Qed.
End end_to_end.

(** ** Witnesses *)

Section witnesses.
Let Z0 := magicZstd.
Let S0 := stable_slice_sort.
Let J0 : JSON FileMeta := tableJSON [responseMeta tightConfig #"aa/x" nineEntry].
Local Existing Instance Z0.
Local Existing Instance S0.
Local Existing Instance J0.

Definition plainHandler : Handler := mkHandler [] (mkSettings ∅ ∅) None.

Definition lookedUp : Server := fst (RestoreSources tightConfig (calm 7) savedServer (servedRequest plainHandler exampleRequest)).

Definition restoredAgain : Server := fst (Restore tightConfig (calm 9) lookedUp (servedRequest plainHandler exampleRequest)).

Lemma nine_servable : servable tightConfig {[ #"aa/x" := (nineEntry, #"ninebytes") ]} (fun _ => #"ninebytes").
Proof.
  split.
  - exact nine_held.
  - intros p ie b [<- [= <- <-]]%lookup_singleton_Some. vm_compute. split; discriminate.
  - intros p ie b [<- [= <- <-]]%lookup_singleton_Some. split; [apply list_elem_of_here|].
    exists #"0". split; [vm_compute; reflexivity|vm_compute; discriminate].
  - intros p ie b [<- [= <- <-]]%lookup_singleton_Some. vm_compute. reflexivity.
  - intros p [x [<- _]%lookup_singleton_Some] [E|[E|E]]; vm_compute in E; discriminate E.
Qed.

Lemma saved_files_reach_the_next_job_witness :
  exists body d' stats,
    RestoreNativeCache (calmDir 18 11) ∅ (Ok (200, fromBytes body)) 5 = (d', Ok stats) /\
    exists mode, d' !! #"aa/x" = Some (Regular #"ninebytes" mode 11).
Proof.
  destruct (saved_files_reach_the_next_job tightConfig plainHandler (calm 5) (calm 7) (calm 9) (nineServer ∅)
    savedServer lookedUp restoredAgain exampleRequest exampleRequest [ #"aa/x" ]
    {[ #"aa/x" := (nineEntry, #"ninebytes") ]} (fun _ => #"ninebytes") [ #"commit"; #"changes" ]
    [served tightConfig tightStore (#"aa/x", nineEntry)] [ #"commit"; #"changes" ] 18 11 ∅ 5 oldManifest)
    as (body & d' & stats & restored & _ & H2 & _ & _ & H3).
  - exact example_cfg_ok.
  - exact (calm_ok 5).
  - exact (calm_ok 7).
  - exact (calm_ok 9).
  - exact tight_repr.
  - exact nine_servable.
  - intros p q [[x [<- _]%lookup_singleton_Some]|[x Hx]] [[y [<- _]%lookup_singleton_Some]|[y Hy]]; [|done..].
    vm_compute. reflexivity.
  - constructor; [exact nine_listable|constructor].
  - vm_compute. reflexivity.
  - unfold savedServer. destruct (MergeSavedPaths _ _ _ _ _) as [sv r] eqn:E. simpl. f_equal.
    change r with (snd (sv, r)). rewrite <-E. vm_compute. reflexivity.
  - split; vm_compute; reflexivity.
  - left. vm_compute. discriminate.
  - split; reflexivity.
  - unfold lookedUp. destruct (RestoreSources _ _ _ _) as [sv r] eqn:E. simpl. f_equal.
    change r with (snd (sv, r)). rewrite <-E. vm_compute. reflexivity.
  - unfold restoredAgain. destruct (Restore _ _ _ _) as [sv r] eqn:E. simpl. f_equal.
    change r with (snd (sv, r)). rewrite <-E. vm_compute. reflexivity.
  - lia.
  - exists body, d', stats. split; [exact H2|].
    destruct (H3 #"aa/x" (list_elem_of_here _ _)) as (ie & b & Ha & Hd); [vm_compute; eauto|].
    rewrite lookup_singleton_eq in Ha. injection Ha as <- <-. rewrite decide_True in Hd by (split; vm_compute; reflexivity).
    apply Hd.
Defined.

Definition fourMeta : FileMeta := mkFileMeta #"aa/y-a" 4 None 420 false 4 [].
Definition unreadable : FileItem := mkFileItem fourMeta (Some (Err ENotExist)).
Let J4 : JSON FileMeta := tableJSON [fourMeta].

Lemma unreadable_object_becomes_zeros_witness :
  exists n, @ReadStream J4 _ (fromBytes (@restoreFrames J4 ([] ++ [unreadable]) ++ CloseStream)) collect [] =
    ([(fourMeta, putInt32 0)], Ok n).
Proof.
  apply (unreadable_object_becomes_zeros (H1 := J4) [] unreadable [] #"0" ENotExist).
  - constructor.
  - exists []. reflexivity.
  - apply list_elem_of_here.
  - vm_compute. reflexivity.
  - vm_compute. discriminate.
  - vm_compute. reflexivity.
  - vm_compute. reflexivity.
Defined.
End witnesses.
