(* ===== verification/SaveSessions.v ===== *)
(** Saving over HTTP (src/internal/http/save_cache.go): the stream of a save, whole in
    one request or cut into the chunks of an upload session.  A session's reader runs in
    a goroutine of its own, fed through a pipe; here it takes an item as soon as the
    item is whole, and the rest when the pipe is closed. *)
From S2P Require Import Prelude.
From S2P Require Import GoStrings.
From S2P Require Import GoPath.
From S2P Require Import RecordPool.
From S2P Require Import EvictHeap.
From S2P Require Import Wire.
From S2P Require Import GoCacheStore.
From S2P Require Import GoCacheOpen.
From S2P Require Import ManifestPaths.
From S2P Require Import Manifests.
From S2P Require Import GoCacheRestore.

(** ** The stream of a save *)

(** What a save meets: each put its own time and faults, a file that an item's
    DiskPath names, and the merge of the manifests at the end. *)
Record SaveEnv := mkSaveEnv {
  se_put : FileMeta -> putArgs;
  se_open : bytes -> result stream;
  se_env : Env;
}.

Section saving.
Context `{Zstd} `{JSON FileMeta} (cf : Config) (se : SaveEnv).

(** The callback of [processSaveCacheStream], over the store and the paths so far. *)
Definition saveCallback (item : FileMeta) (body : option stream) (s : Store * list bytes)
    : (Store * list bytes) * option goerr :=
  let '(st, paths) := s in
  if negb (fi_Size item =? 0) && bool_decide (body = None) then (s, Some (EMsg "empty body"))
  else if (0 <? cf_maxFileBytes cf) && (cf_maxFileBytes cf <? fi_Size item) then (s, None)
  else
    let fi := mkFileItem item None in
    let fi := match body with Some rd => SetBodyReader fi (Ok rd) | None => PrepareBodyReader fi (se_open se) end in
    match SaveItem cf st fi (se_put se item) with
    | (st, Err e) => ((st, paths), Some e)
    | (st, Ok _) => ((st, paths ++ [fi_Path item]), None)
    end.

(** What follows the stream's end. *)
Definition endOfStream (sv : Server) (req : Request) (st : Store) (paths : list bytes) (r : result unit)
    : Server * result unit :=
  let sv := mkServer st (sv_files sv) in
  match r with
  | Err e => (sv, Err e)
  | Ok _ => MergeSavedPaths cf (se_env se) sv req paths
  end.

Definition forget {A} (r : result A) : result unit := match r with Ok _ => Ok tt | Err e => Err e end.

Definition processSaveCacheStream (sv : Server) (req : Request) (body : stream) : Server * result unit :=
  let '((st, paths), r) := ReadStream body saveCallback (sv_store sv, []) in
  endOfStream sv req st paths (forget r).

(** [Handler.SaveCache]: the status. *)
Definition SaveCache (sv : Server) (req : Request) (body : stream) : Server * Z :=
  match processSaveCacheStream sv req body with
  | (sv, Ok _) => (sv, 204)
  | (sv, Err _) => (sv, 500)
  end.

(** [Handler.SaveCacheHas]: a failed merge is only logged. *)
Definition SaveCacheHas (sv : Server) (req : Request) (paths : list bytes) : Server * list bytes :=
  let existing := ExistingPaths cf (sv_store sv) paths in
  (fst (MergeSavedPaths cf (se_env se) sv req existing), existing).

(** ** The reader of a session *)

(** Where the first frame of a buffer ends, when that can be told. *)
Definition frameEnd (buf : bytes) : option Z :=
  if blen buf <? 4 then None
  else
    let n := getInt32 (take 4 buf) in
    if n <=? 0 then Some 4
    else if blen buf <? 4 + n then None
    else match Unmarshal (take (Z.to_nat n) (drop 4 buf)) with
    | Err _ => Some (4 + n)
    | Ok item => let e := 4 + n + Z.max 0 (wireLen item) in if blen buf <? e then None else Some e
    end.

(** The reader waits with a piece of a frame, or it has returned and left bytes. *)
Inductive reader := Waiting (buf : bytes) | Returned (r : result unit) (rest : bytes).

(** Every frame has four bytes at least: the length of the buffer is enough fuel. *)
Fixpoint pump (fuel : nat) (buf : bytes) (s : Store * list bytes) : (Store * list bytes) * reader :=
  match fuel with
  | O => (s, Waiting buf)
  | S fuel =>
      match frameEnd buf with
      | None => (s, Waiting buf)
      | Some e =>
          match readStreamItem (fromBytes buf) saveCallback s with
          | (s, Err err) => (s, Returned (Err err) (drop (Z.to_nat e) buf))
          | (s, Ok (None, _)) => (s, Returned (Ok tt) (drop (Z.to_nat e) buf))
          | (s, Ok (Some rd, _)) => pump fuel (st_data rd) s
          end
      end
  end.

(** ** Sessions *)

Record saveCacheSession := mkSession {
  ss_req : Request;
  ss_buf : bytes;                      (* what the waiting reader has of a frame *)
  ss_paths : list bytes;               (* saved so far *)
  ss_done : option (result unit);      (* the channel [done] *)
  ss_chunks : Z;
  ss_bytes : Z;
}.

Record Uploads := mkUploads {
  up_server : Server;
  saveSessions : gmap bytes saveCacheSession;
}.

Inductive reply :=
  | NoContent
  | StatusError (code : Z)
  | Hung.                              (* the handler is blocked on the pipe *)

(** The pipe carries [b] to the reader; what it does not take is left. *)
Definition feed (sv : Server) (s : saveCacheSession) (b : bytes) : Server * saveCacheSession * bytes :=
  match ss_done s with
  | Some _ => (sv, s, b)
  | None =>
      let buf := ss_buf s ++ b in
      match pump (S (length buf)) buf (sv_store sv, ss_paths s) with
      | ((st, paths), Waiting buf) =>
          (mkServer st (sv_files sv), mkSession (ss_req s) buf paths None (ss_chunks s) (ss_bytes s), [])
      | ((st, paths), Returned r rest) =>
          let '(sv, r) := endOfStream sv (ss_req s) st paths r in
          (sv, mkSession (ss_req s) [] paths (Some r) (ss_chunks s) (ss_bytes s), rest)
      end
  end.

(** The writer is closed, with an error or not, and the reader returns. *)
Definition closeWriter (sv : Server) (s : saveCacheSession) (e : option goerr) : Server * result unit :=
  match ss_done s with
  | Some r => (sv, r)
  | None =>
      let '((st, paths), r) := ReadStream (mkStream (ss_buf s) e) saveCallback (sv_store sv, ss_paths s) in
      endOfStream sv (ss_req s) st paths (forget r)
  end.

Definition StartSaveCache (u : Uploads) (uploadID : bytes) (req : Request) : Uploads * reply :=
  if bool_decide (uploadID = []) then (u, StatusError 400)
  else match saveSessions u !! uploadID with
  | Some _ => (u, StatusError 409)
  | None => (mkUploads (up_server u) (<[uploadID := mkSession req [] [] None 0 0]> (saveSessions u)), NoContent)
  end.

(** The limit a client is told at the start; zero is none. *)
Definition startMaxFileBytes : Z := if 0 <? cf_maxFileBytes cf then cf_maxFileBytes cf else 0.

Definition lookupSaveSession (u : Uploads) (uploadID : bytes) : option saveCacheSession :=
  if bool_decide (uploadID = []) then None else saveSessions u !! uploadID.

(** [SaveCacheChunk]: the body may end with an error of the client's connection. *)
Definition SaveCacheChunk (u : Uploads) (uploadID : bytes) (body : stream) : Uploads * reply :=
  match lookupSaveSession u uploadID with
  | None => (u, StatusError 400)
  | Some s =>
      match feed (up_server u) s (st_data body) with
      | (sv, s, _ :: _) => (mkUploads sv (<[uploadID := s]> (saveSessions u)), Hung)
      | (sv, s, []) =>
          match st_err body with
          | Some e =>
              let '(sv, _) := closeWriter sv s (Some e) in
              (mkUploads sv (delete uploadID (saveSessions u)), StatusError 500)
          | None =>
              let s := mkSession (ss_req s) (ss_buf s) (ss_paths s) (ss_done s) (ss_chunks s + 1)
                         (ss_bytes s + blen (st_data body)) in
              (mkUploads sv (<[uploadID := s]> (saveSessions u)), NoContent)
          end
      end
  end.

Definition FinalizeSaveCache (u : Uploads) (uploadID : bytes) : Uploads * reply :=
  match lookupSaveSession u uploadID with
  | None => (u, StatusError 400)
  | Some s =>
      let '(sv, r) := closeWriter (up_server u) s None in
      (mkUploads sv (delete uploadID (saveSessions u)),
       match r with Ok _ => NoContent | Err _ => StatusError 500 end)
  end.

Definition AbortSaveCache (u : Uploads) (uploadID : bytes) : Uploads * reply :=
  match lookupSaveSession u uploadID with
  | None => (u, StatusError 400)
  | Some s =>
      let '(sv, _) := closeWriter (up_server u) s (Some (EMsg "save-cache upload aborted")) in
      (mkUploads sv (delete uploadID (saveSessions u)), NoContent)
  end.
End saving.

(** ** The reader and the stream *)

Section reading.
Context `{Zstd} `{JSON FileMeta} (cf : Config) (se : SaveEnv).

(** The outcome of a read without its count. *)
Definition readAll (rd : stream) (s : Store * list bytes) : (Store * list bytes) * result unit :=
  let '(s, r) := ReadStream rd (saveCallback cf se) s in (s, forget r).

Lemma ReadFull_rest rd n b rd' :
  0 <= n -> ReadFull rd n = Ok (b, rd') -> length (st_data rd) = (Z.to_nat n + length (st_data rd'))%nat.
Proof.
  intros Hn. unfold ReadFull. destruct (n <=? blen (st_data rd)) eqn:E.
  - go_bool. intros [= <- <-]. simpl. rewrite length_drop. unfold blen in E. lia.
  - destruct (st_err rd); [done|]. by case_bool_decide.
Qed.

Lemma readItemBody_rest {S} rd w (read : stream -> S -> S * option goerr) s s' rd' n :
  readItemBody rd w read s = (s', Ok (rd', n)) -> (length (st_data rd') <= length (st_data rd))%nat.
Proof.
  unfold readItemBody. destruct (read _ s) as [s1 [e|]]; [done|]. destruct (st_err (LimitReader rd w)); [done|].
  destruct (negb _); [done|]. intros [= <- <- _]. simpl. rewrite length_drop. lia.
Qed.

(** A round of the loop that goes on has consumed bytes. *)
Lemma readStreamItem_rest {S} rd (read : FileMeta -> option stream -> S -> S * option goerr) s s' rd' n :
  readStreamItem rd read s = (s', Ok (Some rd', n)) -> (length (st_data rd') < length (st_data rd))%nat.
Proof.
  unfold readStreamItem. destruct (ReadFull rd 4) as [[head rd1]|e] eqn:E1; [|by destruct e].
  apply ReadFull_rest in E1; [|lia]. destruct (getInt32 head =? 0); [done|].
  destruct (getInt32 head <? 0) eqn:En; [done|]. go_bool.
  destruct (ReadFull rd1 _) as [[j rd2]|] eqn:E2; [|done]. apply ReadFull_rest in E2; [|done].
  destruct (Unmarshal j) as [item|]; [|done]. destruct (0 <? wireLen item).
  - destruct (readItemBody _ _ _ _) as [s1 [[rd3 k]|]] eqn:E3; [|done]. intros [= <- <- _].
    apply readItemBody_rest in E3. lia.
  - destruct (read item None s) as [s1 [e|]]; [done|]. intros [= <- <- _]. lia.
Qed.

(** More fuel than bytes makes no difference. *)
Lemma readStreamLoop_fuel {S} (read : FileMeta -> option stream -> S -> S * option goerr) f g rd s t :
  (length (st_data rd) < f)%nat -> (length (st_data rd) < g)%nat ->
  readStreamLoop f rd read s t = readStreamLoop g rd read s t.
Proof.
  revert g rd s t. induction f as [|f IH]; intros [|g] rd s t Hf Hg; [lia..|]. cbn [readStreamLoop].
  destruct (readStreamItem rd read s) as [s' [[[rd'|] n]|e]] eqn:E; [|done..].
  apply readStreamItem_rest in E. apply IH; lia.
Qed.

Lemma readStreamLoop_total {S} (read : FileMeta -> option stream -> S -> S * option goerr) f rd s t :
  readStreamLoop f rd read s t =
  match readStreamLoop f rd read s 0 with (s, Ok n) => (s, Ok (t + n)) | x => x end.
Proof.
  revert rd s t. induction f as [|f IH]; intros rd s t; cbn [readStreamLoop]; [done|].
  destruct (readStreamItem rd read s) as [s' [[[rd'|] n]|e]]; [|by rewrite Z.add_0_l|done].
  rewrite (IH rd' s' (t + n)), (IH rd' s' (0 + n)).
  destruct (readStreamLoop f rd' read s' 0) as [s2 [k|]]; [|done]. do 2 f_equal. lia.
Qed.

(** One round of [readAll]. *)
Lemma readAll_step rd s :
  readAll rd s =
  match readStreamItem rd (saveCallback cf se) s with
  | (s, Err e) => (s, Err e)
  | (s, Ok (None, _)) => (s, Ok tt)
  | (s, Ok (Some rd, _)) => readAll rd s
  end.
Proof.
  unfold readAll at 1, ReadStream at 1. cbn [readStreamLoop].
  destruct (readStreamItem rd _ s) as [s' [[[rd'|] n]|e]] eqn:E; [|done..].
  apply readStreamItem_rest in E.
  rewrite readStreamLoop_total, (readStreamLoop_fuel _ _ (Datatypes.S (length (st_data rd')))) by lia.
  unfold readAll, ReadStream. by destruct (readStreamLoop _ _ _ _ _) as [s2 [k|]].
Qed.

Lemma ReadFull_more buf n more e :
  n <= blen buf ->
  ReadFull (mkStream (buf ++ more) e) n =
  match ReadFull (fromBytes buf) n with Ok (b, rd) => Ok (b, mkStream (st_data rd ++ more) e) | Err x => Err x end.
Proof.
  intros Hn. unfold ReadFull, fromBytes. cbn [st_data st_err]. rewrite blen_app'. assert (H1 := blen_nonneg more).
  rewrite !(proj2 (Z.leb_le _ _)) by lia. unfold blen in Hn.
  rewrite take_app_le, drop_app_le by lia. done.
Qed.

Lemma frameEnd_bounds buf e : frameEnd buf = Some e -> 4 <= e <= blen buf.
Proof.
  unfold frameEnd. destruct (blen buf <? 4) eqn:E1; [done|]. destruct (_ <=? 0) eqn:E2; [intros [= <-]; go_bool; lia|].
  destruct (blen buf <? 4 + _) eqn:E3; [done|]. go_bool.
  destruct (Unmarshal _) as [item|]; [|intros [= <-]; lia].
  destruct (blen buf <? _) eqn:E4; [done|]. intros [= <-]. go_bool. lia.
Qed.

(** A whole frame is read alike with and without what follows it. *)
Lemma frame_read_alone buf fe more e s :
  frameEnd buf = Some fe ->
  readStreamItem (mkStream (buf ++ more) e) (saveCallback cf se) s =
  match readStreamItem (fromBytes buf) (saveCallback cf se) s with
  | (s, Ok (Some rd, n)) => (s, Ok (Some (mkStream (st_data rd ++ more) e), n))
  | x => x
  end.
Proof.
  unfold frameEnd. destruct (blen buf <? 4) eqn:E1; [done|]. go_bool. intros Hfe.
  unfold readStreamItem. rewrite ReadFull_more by lia.
  assert (E4 : ReadFull (fromBytes buf) 4 = Ok (take 4 buf, fromBytes (drop 4 buf))).
  { unfold ReadFull, fromBytes. cbn [st_data]. by rewrite (proj2 (Z.leb_le _ _)) by lia. }
  rewrite E4. cbn [st_data fromBytes]. set (n := getInt32 (take 4 buf)) in *.
  destruct (n =? 0) eqn:En0; [done|]. destruct (n <? 0) eqn:Enn; [done|]. go_bool.
  rewrite (proj2 (Z.leb_gt _ _)) in Hfe by lia. destruct (blen buf <? 4 + n) eqn:E5; [done|]. go_bool.
  assert (Hd : blen (drop 4 buf) = blen buf - 4) by (unfold blen in *; rewrite length_drop; lia).
  rewrite ReadFull_more by lia.
  assert (E6 : ReadFull (fromBytes (drop 4 buf)) n =
    Ok (take (Z.to_nat n) (drop 4 buf), fromBytes (drop (Z.to_nat n) (drop 4 buf)))).
  { unfold ReadFull, fromBytes. cbn [st_data]. by rewrite (proj2 (Z.leb_le _ _)) by lia. }
  rewrite E6. cbn [st_data fromBytes]. destruct (Unmarshal _) as [item|]; [|done].
  destruct (blen buf <? _) eqn:E7; [done|]. go_bool. set (rest := drop (Z.to_nat n) (drop 4 buf)).
  assert (Hr : blen rest = blen buf - 4 - n) by (unfold rest, blen in *; rewrite length_drop; lia).
  destruct (0 <? wireLen item) eqn:Ew; [|by destruct (saveCallback _ _ _ _ _) as [s1 [x|]]].
  go_bool. rewrite Z.max_r in E7 by lia.
  assert (Hsplit : rest = take (Z.to_nat (wireLen item)) rest ++ drop (Z.to_nat (wireLen item)) rest) by (by rewrite take_drop).
  assert (Hl : blen (take (Z.to_nat (wireLen item)) rest) = wireLen item) by (unfold blen in *; rewrite length_take; lia).
  rewrite Hsplit at 1 2. unfold fromBytes at 1. rewrite <-app_assoc, !readItemBody_app by done.
  destruct (saveCallback cf se item _ s) as [s1 [x|]]; done.
Qed.

Lemma pump_spec fuel buf s s' r :
  (length buf < fuel)%nat -> pump cf se fuel buf s = (s', r) ->
  (forall more e, readAll (mkStream (buf ++ more) e) s =
    match r with Waiting buf' => readAll (mkStream (buf' ++ more) e) s' | Returned r _ => (s', r) end) /\
  match r with Waiting buf' => frameEnd buf' = None | Returned _ _ => True end.
Proof.
  revert buf s. induction fuel as [|fuel IH]; intros buf s Hf; [lia|]. cbn [pump].
  destruct (frameEnd buf) as [fe|] eqn:Efe; [|by intros [= <- <-]].
  destruct (readStreamItem (fromBytes buf) _ s) as [s1 [[[rd|] n]|e1]] eqn:Er.
  - assert (Hlt := readStreamItem_rest _ _ _ _ _ _ Er). cbn [fromBytes st_data] in Hlt.
    intros Hp. apply IH in Hp as [H1 H2]; [|lia]. split; [|done]. intros more e.
    rewrite readAll_step, (frame_read_alone buf fe more e s Efe), Er. apply H1.
  - intros [= <- <-]. split; [|done]. intros more e.
    by rewrite readAll_step, (frame_read_alone buf fe more e s Efe), Er.
  - intros [= <- <-]. split; [|done]. intros more e.
    by rewrite readAll_step, (frame_read_alone buf fe more e s Efe), Er.
Qed.

(** ** What a session comes to *)

(** The server and the result when [data] follows and the pipe is closed. *)
Definition outcome (sv : Server) (s : saveCacheSession) (data : bytes) (e : option goerr) : Server * result unit :=
  match ss_done s with
  | Some r => (sv, r)
  | None =>
      let '((st, paths), r) := readAll (mkStream (ss_buf s ++ data) e) (sv_store sv, ss_paths s) in
      endOfStream cf se sv (ss_req s) st paths r
  end.

Lemma closeWriter_outcome sv s e : closeWriter cf se sv s e = outcome sv s [] e.
Proof.
  unfold closeWriter, outcome, readAll. rewrite app_nil_r. destruct (ss_done s); [done|].
  by destruct (ReadStream _ _ _) as [[st paths] r].
Qed.

Lemma process_outcome sv req data e :
  processSaveCacheStream cf se sv req (mkStream data e) = outcome sv (mkSession req [] [] None 0 0) data e.
Proof.
  unfold processSaveCacheStream, outcome, readAll. cbn [ss_done ss_buf ss_paths ss_req app].
  by destruct (ReadStream _ _ _) as [[st paths] r].
Qed.

(** A session whose reader waits for the rest of a frame. *)
Definition waits (s : saveCacheSession) : Prop := ss_done s = None -> frameEnd (ss_buf s) = None.

Lemma feed_outcome sv s b sv' s' left :
  feed cf se sv s b = (sv', s', left) ->
  (forall more e, outcome sv s (b ++ more) e = outcome sv' s' more e) /\ ss_req s' = ss_req s /\
  (waits s -> waits s') /\ (ss_done s' = None -> sv_files sv' = sv_files sv).
Proof.
  unfold feed, outcome, waits. destruct (ss_done s) as [r|] eqn:Ed; [intros [= <- <- <-]; by rewrite Ed|].
  destruct (pump _ _ _ _ _) as [[st paths] rd] eqn:Ep. apply pump_spec in Ep as [H1 H2]; [|lia].
  destruct rd as [buf'|r rest].
  - intros [= <- <- <-]. cbn [ss_done ss_buf ss_paths ss_req sv_store sv_files].
    split; [|split; [done|split; [by intros _ _|done]]]. intros more e. rewrite app_assoc, H1. destruct (readAll _ _) as [[st2 paths2] r2]. by destruct r2.
  - destruct (endOfStream _ _ _ _ _ _ _) as [sv1 r1] eqn:Ee. intros [= <- <- <-].
    cbn [ss_done ss_req]. split; [|done]. intros more e. by rewrite app_assoc, H1.
Qed.

Lemma counted_outcome sv s n m data e :
  outcome sv (mkSession (ss_req s) (ss_buf s) (ss_paths s) (ss_done s) n m) data e = outcome sv s data e.
Proof. done. Qed.

(** ** Chunks *)

Definition sendChunks (u : Uploads) (id : bytes) (chunks : list bytes) : Uploads :=
  foldl (fun u c => fst (SaveCacheChunk cf se u id (fromBytes c))) u chunks.

Lemma chunk_outcome u id s c :
  id <> [] -> saveSessions u !! id = Some s ->
  exists s', saveSessions (fst (SaveCacheChunk cf se u id (fromBytes c))) = <[id := s']> (saveSessions u) /\
    forall more e, outcome (up_server u) s (c ++ more) e =
      outcome (up_server (fst (SaveCacheChunk cf se u id (fromBytes c)))) s' more e.
Proof.
  intros Hid Hs. unfold SaveCacheChunk, lookupSaveSession. rewrite bool_decide_eq_false_2, Hs by done.
  cbn [fromBytes st_data st_err]. destruct (feed _ _ _ _ _) as [[sv' s'] left] eqn:Ef.
  apply feed_outcome in Ef as (H1 & _). destruct left as [|x left]; cbn [fst saveSessions up_server]; by eexists.
Qed.

Lemma chunks_outcome u id s chunks :
  id <> [] -> saveSessions u !! id = Some s ->
  exists s', saveSessions (sendChunks u id chunks) = <[id := s']> (saveSessions u) /\
    forall e, outcome (up_server u) s (mjoin chunks) e = outcome (up_server (sendChunks u id chunks)) s' [] e.
Proof.
  intros Hid. revert u s. induction chunks as [|c chunks IH]; intros u s Hs.
  { exists s. by rewrite insert_id. }
  destruct (chunk_outcome u id s c Hid Hs) as (s1 & Hs1 & H1).
  destruct (IH (fst (SaveCacheChunk cf se u id (fromBytes c))) s1) as (s2 & Hs2 & H2).
  { by rewrite Hs1, lookup_insert_eq. }
  exists s2. split; [|intros e; by rewrite <-H2, <-H1].
  unfold sendChunks in *. cbn [foldl]. by rewrite Hs2, Hs1, insert_insert_eq.
Qed.

(** C15: an upload in chunks is the upload in one request.  However the stream is cut,
    once the session is finalized the store, the manifests and the status are those
    of [SaveCache] on the whole stream -- items saved, items refused, the manifests
    merged or not -- and the session is gone; other sessions are not touched. *)
Theorem chunked_upload_is_one_stream u id req chunks
    (Hid : id <> []) (Hnew : saveSessions u !! id = None) :
  let started := fst (StartSaveCache u id req) in
  let '(u', rep) := FinalizeSaveCache cf se (sendChunks started id chunks) id in
  let '(sv, status) := SaveCache cf se (up_server u) req (fromBytes (mjoin chunks)) in
  up_server u' = sv /\ saveSessions u' = saveSessions u /\
  rep = (if status =? 204 then NoContent else StatusError 500).
Proof.
  unfold StartSaveCache. rewrite bool_decide_eq_false_2, Hnew by done. cbn [fst].
  set (s0 := mkSession req [] [] None 0 0). set (u0 := mkUploads _ _).
  destruct (chunks_outcome u0 id s0 chunks Hid) as (s & Hs & Ho); [by apply lookup_insert_eq|].
  unfold FinalizeSaveCache, lookupSaveSession. rewrite bool_decide_eq_false_2, Hs, lookup_insert_eq by done.
  rewrite closeWriter_outcome, <-Ho. unfold SaveCache, fromBytes. rewrite process_outcome.
  cbn [up_server u0]. fold s0. destruct (outcome _ _ _ _) as [sv [[]|e]]; cbn [up_server saveSessions];
    (split; [done|]); (split; [|done]); unfold u0; cbn [saveSessions];
    by rewrite insert_insert_eq, delete_insert_id.
Qed.

(** A frame that is not whole cannot be read when the pipe ends with an error. *)
Lemma cut_frame_fails buf e s : frameEnd buf = None -> e <> EEOF -> exists s' e', readAll (mkStream buf (Some e)) s = (s', Err e').
Proof.
  intros Hf He. rewrite readAll_step. unfold frameEnd in Hf. unfold readStreamItem, ReadFull at 1.
  cbn [st_data st_err]. destruct (blen buf <? 4) eqn:E1; go_bool.
  { rewrite (proj2 (Z.leb_gt _ _)) by done. destruct e; (done || eauto). }
  rewrite (proj2 (Z.leb_le _ _)) by done. destruct (_ <=? 0) eqn:E2; [done|]. go_bool.
  set (n := getInt32 _) in *. rewrite (proj2 (Z.eqb_neq n 0)), (proj2 (Z.ltb_ge n 0)) by lia.
  assert (Hd : blen (drop (Z.to_nat 4) buf) = blen buf - 4) by (unfold blen in *; rewrite length_drop; lia).
  unfold ReadFull. cbn [st_data st_err]. destruct (blen buf <? 4 + n) eqn:E3; go_bool.
  { rewrite (proj2 (Z.leb_gt _ _)) by lia. eauto. }
  rewrite (proj2 (Z.leb_le _ _)) by lia. change (Z.to_nat 4) with 4%nat in *.
  destruct (Unmarshal _) as [item|]; [|done]. destruct (blen buf <? _) eqn:E4; [|done]. go_bool.
  rewrite (proj2 (Z.ltb_lt 0 _)) by lia. unfold readItemBody, LimitReader. cbn [st_data st_err].
  set (rest := drop (Z.to_nat n) (drop 4 buf)).
  assert (Hr : blen rest = blen buf - 4 - n) by (unfold rest, blen in *; rewrite length_drop; lia).
  rewrite (proj2 (Z.leb_gt _ _)) by lia. destruct (saveCallback _ _ _ _ _) as [s1 [x|]]; eauto.
Qed.

(** Closing the pipe with an error merges nothing. *)
Lemma broken_writer sv s e :
  ss_done s = None -> waits s -> e <> EEOF -> sv_files (fst (closeWriter cf se sv s (Some e))) = sv_files sv.
Proof.
  intros Hd Hw He. rewrite closeWriter_outcome. unfold outcome. rewrite Hd, app_nil_r.
  destruct (cut_frame_fails (ss_buf s) e (sv_store sv, ss_paths s) (Hw Hd) He) as ([st paths] & e' & ->). done.
Qed.

(** An upload that is aborted, or whose chunk breaks off, publishes nothing.  While
    the stream's end has not arrived, an abort and a chunk with a broken connection
    both leave every manifest as it was, whatever was sent before, and the session is
    gone. *)
Theorem abort_publishes_nothing u id s data e
    (Hid : id <> []) (Hs : saveSessions u !! id = Some s) (Hopen : ss_done s = None) (Hw : waits s) (He : e <> EEOF)
    (Hmore : ss_done (snd (fst (feed cf se (up_server u) s data))) = None) :
  let aborted := fst (AbortSaveCache cf se u id) in
  let broken := fst (SaveCacheChunk cf se u id (mkStream data (Some e))) in
  sv_files (up_server aborted) = sv_files (up_server u) /\ saveSessions aborted = delete id (saveSessions u) /\
  sv_files (up_server broken) = sv_files (up_server u) /\ saveSessions broken = delete id (saveSessions u).
Proof.
  unfold AbortSaveCache, SaveCacheChunk, lookupSaveSession. rewrite bool_decide_eq_false_2, Hs by done.
  cbn [st_data st_err]. assert (Hb := broken_writer (up_server u) s (EMsg "save-cache upload aborted") Hopen Hw).
  destruct (closeWriter _ _ _ s _) as [sva ra]. cbn [fst up_server saveSessions] in *.
  split; [by apply Hb|]. split; [done|].
  destruct (feed _ _ _ _ _) as [[svb sb] left] eqn:Ef. assert (Hf := Ef). cbn [fst snd] in Hmore.
  apply feed_outcome in Ef as (_ & _ & Hwb & Hfiles). unfold feed in Hf. rewrite Hopen in Hf.
  assert (left = []) as ->.
  { destruct (pump _ _ _ _ _) as [[st paths] [buf'|r rest]]; [by injection Hf as _ _ <-|].
    destruct (endOfStream _ _ _ _ _ _ _). injection Hf as _ <- _. done. }
  assert (Hb2 := broken_writer svb sb e Hmore (Hwb Hw) He).
  destruct (closeWriter _ _ svb sb _) as [svc rc]. cbn [fst up_server saveSessions] in *.
  split; [|done]. rewrite Hb2. by apply Hfiles.
Qed.
End reading.

(** ** Examples *)

Definition emptyServer : Server := mkServer (emptyStore smallPool) ∅.
Definition exampleSave : SaveEnv := mkSaveEnv (fun _ => exampleArgs) (fun _ => Err ENotExist) (calm 5).
Definition nineMeta : FileMeta := mkFileMeta #"aa/x" 9 None 420 false 9 [].
Definition nineItem : FileItem := mkFileItem nineMeta (Some (Ok (fromBytes #"ninebytes"))).
Definition nineJSON : JSON FileMeta := tableJSON [nineMeta].

(** The stream of the one item: its header, its metadata, its body, the end. *)
Definition nineStream : bytes := match @writeItems nineJSON [nineItem] with Ok b => b ++ CloseStream | Err _ => [] end.

Definition emptyUploads : Uploads := mkUploads emptyServer ∅.

Lemma chunked_upload_is_one_stream_witness :
  let u := fst (@FinalizeSaveCache magicZstd nineJSON tightConfig exampleSave
    (@sendChunks magicZstd nineJSON tightConfig exampleSave (fst (StartSaveCache emptyUploads #"7" exampleRequest)) #"7"
      [take 7 nineStream; drop 7 nineStream]) #"7") in
  is_Some (index (sv_store (up_server u)) !! #"aa/x").
Proof.
  intros u. assert (H := chunked_upload_is_one_stream (H := magicZstd) (H0 := nineJSON) tightConfig exampleSave emptyUploads #"7"
    exampleRequest [take 7 nineStream; drop 7 nineStream] ltac:(discriminate) eq_refl).
  unfold u. clear u. cbv zeta in H. destruct (FinalizeSaveCache _ _ _ _) as [u' rep]. cbn [fst].
  destruct (SaveCache _ _ _ _ _) as [sv st] eqn:E. destruct H as [-> _].
  change sv with (fst (sv, st)). rewrite <-E. vm_compute. eauto.
Defined.

Lemma abort_publishes_nothing_witness :
  let u := @sendChunks magicZstd nineJSON tightConfig exampleSave (fst (StartSaveCache emptyUploads #"7" exampleRequest)) #"7"
             [take 9 nineStream] in
  sv_files (up_server (fst (@AbortSaveCache magicZstd nineJSON tightConfig exampleSave u #"7"))) = ∅.
Proof.
  intros u. destruct (abort_publishes_nothing (H := magicZstd) (H0 := nineJSON) tightConfig exampleSave u #"7"
    (mkSession exampleRequest (take 9 nineStream) [] None 1 9) [] (EMsg "connection reset")) as (E & _).
  - discriminate.
  - vm_compute. reflexivity.
  - reflexivity.
  - intros _. vm_compute. reflexivity.
  - discriminate.
  - vm_compute. reflexivity.
  - rewrite E. vm_compute. reflexivity.
Defined.

(** A chunk that the client's transport sends again -- after a gateway's 502 or 504 it
    retries every request once, and a chunk is a request -- is data of the stream
    twice.  Here two bytes of a body are doubled: the upload fails, but the object is
    in the store under its path, with its length and with other bytes. *)
Lemma repeated_chunk_stores_other_bytes :
  let c1 := take 9 nineStream in
  let c2 := take 2 (drop 9 nineStream) in
  let c3 := drop 11 nineStream in
  let u := @sendChunks magicZstd nineJSON tightConfig exampleSave (fst (StartSaveCache emptyUploads #"7" exampleRequest)) #"7"
             [c1; c2; c2; c3] in
  let '(u', rep) := @FinalizeSaveCache magicZstd nineJSON tightConfig exampleSave u #"7" in
  let st := sv_store (up_server u') in
  c1 ++ c2 ++ c3 = nineStream /\ rep = StatusError 500 /\
  exists ie, index st !! #"aa/x" = Some ie /\ ie_Size ie = 9 /\
    WriteTo (PrepareBodyReader (responseItem tightConfig st #"aa/x" ie) (openObject st)) = Ok #"ninebybyt".
Proof.
  cbv zeta. destruct (FinalizeSaveCache _ _ _ _) as [u' rep] eqn:E. vm_compute in E. injection E as <- <-.
  split; [vm_compute; reflexivity|]. split; [reflexivity|].
  eexists. split; [vm_compute; reflexivity|]. split; vm_compute; reflexivity.
Qed.

(** A save does not check a body that the server compresses itself: five bytes of a
    body of three hundred are compressed and indexed as the object of that size. *)
Lemma short_body_is_indexed_when_compressing :
  let item := mkFileItem (mkFileMeta #"aa/x" 300 None 420 false 300 []) (Some (Ok (fromBytes #"short"))) in
  let '(st, r) := @SaveItem magicZstd (mkConfig #"/srv/cache" true 0 0 0 0) (emptyStore smallPool) item exampleArgs in
  r = Ok tt /\ exists ie, index st !! #"aa/x" = Some ie /\ ie_Size ie = 300 /\ entryStoredSize ie = 6.
Proof.
  cbv zeta. destruct (SaveItem _ _ _ _) as [st r] eqn:E. vm_compute in E. injection E as <- <-.
  split; [reflexivity|]. eexists. split; [vm_compute; reflexivity|]. split; vm_compute; reflexivity.
Qed.
