(* ===== verification/HttpServer.v ===== *)
(** The HTTP server around the stores (src/internal/http/handler.go): who may send
    requests, the sessions of the clients, the disk budget that two stores share, and
    the order in which a request meets them. *)
From S2P Require Import Prelude.
From S2P Require Import GoStrings.
From S2P Require Import GoPath.
From S2P Require Import Wire.
From S2P Require Import HttpNet.
From S2P Require GoCacheStore.
From S2P Require LocalStore.
From S2P Require LocalServe.

(** ** Who may send requests *)

Record Auth := mkAuth { authToken : bytes; fallbackAuthToken : bytes }.

(** [authorized] on the Authorization header. *)
Definition authorized (h : Auth) (auth : bytes) : bool :=
  if bool_decide (authToken h = []) then true
  else if negb (HasPrefix auth #"Bearer ") then false
  else
    let token := TrimSpace (TrimPrefix auth #"Bearer ") in
    bool_decide (token = authToken h)
    || (negb (bool_decide (fallbackAuthToken h = [])) && bool_decide (token = fallbackAuthToken h)).

(** ** Sessions *)

(** Times are in nanoseconds; the extra fields a client reports are kept as they came. *)
Record clientSession := mkClientSession {
  cs_Version : bytes;
  cs_ChangesID : bytes;
  cs_Commit : bytes;
  cs_BuildType : bytes;
  cs_JobURL : bytes;
  cs_PreloadBytes : Z;
  cs_PreloadTime : Z;
  cs_PreloadSource : bytes;
  cs_FinalizeBytes : Z;
  cs_FinalizeTime : Z;
  cs_Done : bool;
  cs_FirstSeen : Z;
  cs_LastSeen : Z;
  cs_DoneAt : Z;
  cs_Extra : option bytes;
}.

Abbreviation Sessions := (gmap bytes clientSession).

Definition minute : Z := 60 * 1000000000.
Definition sessionIdleTimeout : Z := 10 * minute.
Definition doneSessionRetention : Z := 24 * 60 * minute.
Definition sessionRetention : Z := sessionIdleTimeout + doneSessionRetention.

Definition sessionExpired (cs : clientSession) (now : Z) : bool :=
  if cs_Done cs then doneSessionRetention <? now - cs_DoneAt cs
  else sessionRetention <? now - cs_LastSeen cs.

(** The headers of a request. *)
Record Headers := mkHeaders {
  hd_SessionID : bytes;
  hd_ClientVersion : bytes;
  hd_Commit : bytes;
  hd_Changes : bytes;
  hd_BuildType : bytes;
  hd_JobURL : bytes;
}.

Definition orElse (v old : bytes) : bytes := if bool_decide (v = []) then old else v.

Definition newSession (now : Z) : clientSession := mkClientSession [] [] [] [] [] 0 0 [] 0 0 false now now 0 None.

(** A line of sessions.jsonl: the event, the session's id and the session. *)
Inductive sessionEvent := Started (id : bytes) (cs : clientSession) | DoneEvent (id : bytes) (cs : clientSession).

Definition touchSession (m : Sessions) (r : Headers) (now : Z) : Sessions * option sessionEvent :=
  let sid := hd_SessionID r in
  if bool_decide (sid = []) then (m, None)
  else
    let m := filter (fun x => sessionExpired x.2 now = false) m in
    let isNew := bool_decide (m !! sid = None) in
    let cs := default (newSession now) (m !! sid) in
    let cs := mkClientSession (orElse (hd_ClientVersion r) (cs_Version cs)) (orElse (hd_Changes r) (cs_ChangesID cs))
                (orElse (hd_Commit r) (cs_Commit cs)) (orElse (hd_BuildType r) (cs_BuildType cs))
                (orElse (hd_JobURL r) (cs_JobURL cs)) (cs_PreloadBytes cs) (cs_PreloadTime cs) (cs_PreloadSource cs)
                (cs_FinalizeBytes cs) (cs_FinalizeTime cs) (cs_Done cs) (cs_FirstSeen cs) now (cs_DoneAt cs) (cs_Extra cs) in
    (<[sid := cs]> m, if isNew : bool then Some (Started sid cs) else None).

Definition recordSessionPreload (m : Sessions) (sid : bytes) (wireBytes dur : Z) (sources : bytes) : Sessions :=
  if bool_decide (sid = []) then m
  else alter (fun cs => mkClientSession (cs_Version cs) (cs_ChangesID cs) (cs_Commit cs) (cs_BuildType cs) (cs_JobURL cs)
                (cs_PreloadBytes cs + wireBytes) (cs_PreloadTime cs + dur) (orElse sources (cs_PreloadSource cs))
                (cs_FinalizeBytes cs) (cs_FinalizeTime cs) (cs_Done cs) (cs_FirstSeen cs) (cs_LastSeen cs) (cs_DoneAt cs)
                (cs_Extra cs)) sid m.

Definition recordSessionFinalize (m : Sessions) (sid : bytes) (wireBytes dur : Z) : Sessions :=
  if bool_decide (sid = []) then m
  else alter (fun cs => mkClientSession (cs_Version cs) (cs_ChangesID cs) (cs_Commit cs) (cs_BuildType cs) (cs_JobURL cs)
                (cs_PreloadBytes cs) (cs_PreloadTime cs) (cs_PreloadSource cs) (cs_FinalizeBytes cs + wireBytes)
                (cs_FinalizeTime cs + dur) (cs_Done cs) (cs_FirstSeen cs) (cs_LastSeen cs) (cs_DoneAt cs)
                (cs_Extra cs)) sid m.

Definition markSessionDone (m : Sessions) (sid : bytes) (now : Z) (extra : option bytes) : Sessions * option sessionEvent :=
  if bool_decide (sid = []) then (m, None)
  else match m !! sid with
  | None => (m, None)
  | Some cs =>
      let cs := mkClientSession (cs_Version cs) (cs_ChangesID cs) (cs_Commit cs) (cs_BuildType cs) (cs_JobURL cs)
                  (cs_PreloadBytes cs) (cs_PreloadTime cs) (cs_PreloadSource cs) (cs_FinalizeBytes cs) (cs_FinalizeTime cs)
                  true (cs_FirstSeen cs) (cs_LastSeen cs) now extra in
      (<[sid := cs]> m, Some (DoneEvent sid cs))
  end.

(** [serveSessionDone]: a body, if there is one, is a JSON object. *)
Definition serveSessionDone (m : Sessions) (sid : bytes) (now : Z) (body : option (result bytes))
    : Sessions * option sessionEvent * Z :=
  match body with
  | Some (Err _) => (m, None, 400)
  | Some (Ok extra) => (markSessionDone m sid now (Some extra), 204)
  | None => (markSessionDone m sid now None, 204)
  end.

Inductive sessionStatus := Idle | InProgress | DoneStatus.

Definition statusOf (cs : clientSession) (now : Z) : sessionStatus :=
  if cs_Done cs then DoneStatus else if now - cs_LastSeen cs <=? sessionIdleTimeout then InProgress else Idle.

Definition sessionRef (cs : clientSession) : bytes := if bool_decide (cs_ChangesID cs = []) then cs_Commit cs else cs_ChangesID cs.

(** A row of the status page: the status, the label, how long, and when last seen. *)
Record clientSessionView := mkView {
  vw_Status : sessionStatus;
  vw_Ref : bytes;
  vw_SessionTime : Z;
  vw_session : clientSession;
}.

Definition viewOf (now : Z) (cs : clientSession) : clientSessionView :=
  mkView (statusOf cs now) (sessionRef cs) ((if cs_Done cs then cs_DoneAt cs else now) - cs_FirstSeen cs) cs.

Definition clientSessionsSnapshot `{SliceSort} (m : Sessions) (now : Z) : Sessions * list clientSessionView :=
  let m := filter (fun x => sessionExpired x.2 now = false) m in
  (m, sort_slice (fun a b => cs_LastSeen (vw_session b) <? cs_LastSeen (vw_session a))
        (map (fun x => viewOf now x.2) (map_to_list m))).

(** ** The shared disk budget *)

(** [diskBudgetStore]: what a store offers to the budget, and how many objects it has,
    which is the fuel of the loop. *)
Class DiskBudgetStore (S : Type) := {
  DiskBytes : S -> Z;
  EvictOne : S -> S * bool;
  objectCount : S -> nat;
}.

Definition evictionMarginFraction : Z := 10.

(** The fields [store] and [gocacheStore] of a Handler: the first may be a store without a
    budget, the second may be nil. *)
Record Stores (A B : Type) := mkStores { store : option A; gocacheStore : option B }.
Arguments mkStores {A B}.
Arguments store {A B}.
Arguments gocacheStore {A B}.

(** The stores are pointers: the slice names them. *)
Inductive storePtr := ActionStore | ObjectStore.

Section budget.
Context {A B : Type} `{DiskBudgetStore A} `{DiskBudgetStore B} `{SliceSort}.
Implicit Types w : Stores A B.

Definition diskBudgetStores (w : Stores A B) : list storePtr :=
  match store w with Some _ => [ActionStore] | None => [] end ++
  match gocacheStore w with Some _ => [ObjectStore] | None => [] end.

Definition diskBytesOf (w : Stores A B) (p : storePtr) : Z :=
  match p with
  | ActionStore => from_option DiskBytes 0 (store w)
  | ObjectStore => from_option DiskBytes 0 (gocacheStore w)
  end.

Definition evictOneOf (w : Stores A B) (p : storePtr) : Stores A B * bool :=
  match p with
  | ActionStore =>
      match store w with
      | Some s => let '(s, ok) := EvictOne s in (mkStores (Some s) (gocacheStore w), ok)
      | None => (w, false)
      end
  | ObjectStore =>
      match gocacheStore w with
      | Some s => let '(s, ok) := EvictOne s in (mkStores (store w) (Some s), ok)
      | None => (w, false)
      end
  end.

Definition total (w : Stores A B) (stores : list storePtr) : Z :=
  foldl (fun t s => t + diskBytesOf w s) 0 stores.

Definition fuller (w : Stores A B) (a b : storePtr) : bool := diskBytesOf w b <? diskBytesOf w a.

(** The first store that has something to evict, in order. *)
Fixpoint evictFirst (w : Stores A B) (stores : list storePtr) : Stores A B * bool :=
  match stores with
  | [] => (w, false)
  | p :: stores =>
      match evictOneOf w p with
      | (w, true) => (w, true)
      | (w, false) => evictFirst w stores
      end
  end.

(** The slice is sorted in place: the next round starts from its order. *)
Fixpoint budgetLoop (fuel : nat) (target : Z) (w : Stores A B) (stores : list storePtr) : Stores A B :=
  match fuel with
  | O => w
  | S fuel =>
      if total w stores <=? target then w
      else
        let stores := sort_slice (fuller w) stores in
        match evictFirst w stores with
        | (w, true) => budgetLoop fuel target w stores
        | (w, false) => w
        end
  end.

Definition objectsOf (w : Stores A B) : nat :=
  (from_option objectCount 0 (store w) + from_option objectCount 0 (gocacheStore w))%nat.

(** Every round evicts an object: their number is enough fuel. *)
Definition enforceCombinedBudget (combinedMaxDiskBytes : Z) (w : Stores A B) : Stores A B :=
  if combinedMaxDiskBytes <=? 0 then w
  else
    let stores := diskBudgetStores w in
    if bool_decide (length stores = 0%nat) then w
    else if total w stores <=? combinedMaxDiskBytes then w
    else
      let target := combinedMaxDiskBytes - Z.quot combinedMaxDiskBytes evictionMarginFraction in
      budgetLoop (S (objectsOf w)) target w stores.
End budget.

(** ** A request *)

(** The paths of [routes]. *)
Definition routes : list bytes :=
  [ #"/version"; #"/status"; #"/session-done"; #"/preload"; #"/cache-used"; #"/restore-cache"; #"/clear";
    #"/inspect"; #"/inspect-keys"; #"/integrity-check"; #"/save-cache-has"; #"/save-cache"; #"/save-cache-chunk";
    #"/save-cache-start"; #"/save-cache-finalize"; #"/save-cache-abort"; #"/put"; #"/get"; #"/head";
    #"/settings/max-preload-total-bytes"; #"/settings/max-file-bytes" ].

(** What a handler does: it answers, it panics, or it never ends -- it is blocked on
    the pipe of an upload. *)
Inductive handled := Answered (r : Response) | Panicked (message : bytes) | Hangs.

Definition errorPage (status : Z) : Response := mkResponse status ∅ (fromBytes []).

Record Panics := mkPanics { panicCount : Z; lastPanicMessage : bytes; lastPanicAt : Z }.

Definition recordPanic (p : Panics) (message : bytes) (now : Z) : Panics := mkPanics (panicCount p + 1) message now.

Section serve.
Context {A B : Type} `{DiskBudgetStore A} `{DiskBudgetStore B} `{SliceSort}.

Record HttpServer := mkHttpServer {
  hs_auth : Auth;
  hs_sessions : Sessions;
  hs_stores : Stores A B;
  hs_combinedMax : Z;
  hs_panics : Panics;
}.

Record HttpRequest := mkHttpRequest { hr_path : bytes; hr_auth : bytes; hr_headers : Headers }.

Definition set_stores (h : HttpServer) (w : Stores A B) : HttpServer :=
  mkHttpServer (hs_auth h) (hs_sessions h) w (hs_combinedMax h) (hs_panics h).
Definition set_sessions (h : HttpServer) (m : Sessions) : HttpServer :=
  mkHttpServer (hs_auth h) m (hs_stores h) (hs_combinedMax h) (hs_panics h).
Definition set_panics (h : HttpServer) (p : Panics) : HttpServer :=
  mkHttpServer (hs_auth h) (hs_sessions h) (hs_stores h) (hs_combinedMax h) p.

(** The stores of the server within the budget they share. *)
Definition budgeted (h : HttpServer) : HttpServer := set_stores h (enforceCombinedBudget (hs_combinedMax h) (hs_stores h)).

(** [ServeHTTP] for the Bearer routes; the two pages for people, "/" and
    "/sessions.jsonl", are answered before and have an authentication of their own.
    [route] is the handler of a path, over the server and the rest [R] of what handlers
    keep; the session is touched before it runs, and the budget is enforced when it ends,
    also by a panic.  A handler that never ends leaves no answer. *)
Definition ServeHTTP {R} (now : Z) (h : HttpServer) (rest : R) (r : HttpRequest)
    (route : bytes -> HttpServer -> R -> HttpServer * R * list sessionEvent * handled)
    : HttpServer * R * list sessionEvent * option Response :=
  if negb (authorized (hs_auth h) (hr_auth r)) then (h, rest, [], Some (errorPage 401))
  else
    let '(sessions, ev) := touchSession (hs_sessions h) (hr_headers r) now in
    let h := set_sessions h sessions in
    let '(h, rest, evs, out) := if bool_decide (hr_path r ∈ routes) then route (hr_path r) h rest
                                else (h, rest, [], Answered (errorPage 404)) in
    let evs := option_list ev ++ evs in
    match out with
    | Answered res => (budgeted h, rest, evs, Some res)
    | Panicked m =>
        let h := budgeted h in (set_panics h (recordPanic (hs_panics h) m now), rest, evs, Some (errorPage 500))
    | Hangs => (h, rest, evs, None)
    end.
End serve.
Arguments HttpServer : clear implicits.

(** ** The two stores under the budget *)

Section instances.
Context (lcf : LocalStore.Config) (range : gmap bytes LocalStore.indexEntry -> list bytes).
Context (gcf : GoCacheStore.Config).

Definition actionStoreBudget : DiskBudgetStore LocalStore.Store := {|
  DiskBytes := LocalStore.DiskBytes;
  EvictOne := LocalStore.EvictOne lcf range;
  objectCount s := size (LocalStore.index s);
|}.

Definition objectStoreBudget : DiskBudgetStore GoCacheStore.Store := {|
  DiskBytes := GoCacheStore.DiskBytes;
  EvictOne := GoCacheStore.EvictOne gcf;
  objectCount s := size (GoCacheStore.index s);
|}.
End instances.

(** ** What a store promises to the budget *)

(** An eviction keeps the store well formed, loses an object and frees space or none; a
    store that has nothing to evict uses no space. *)
Class DiskBudgetLaws (S : Type) `{DiskBudgetStore S} := {
  valid : S -> Prop;
  valid_bytes s : valid s -> 0 <= DiskBytes s;
  valid_evict s : valid s -> valid (EvictOne s).1;
  evict_true s s' : valid s -> EvictOne s = (s', true) ->
    (objectCount s' < objectCount s)%nat /\ DiskBytes s' <= DiskBytes s;
  evict_false s s' : valid s -> EvictOne s = (s', false) -> DiskBytes s = 0 /\ DiskBytes s' = 0;
}.

Section laws.
Context {A B : Type} `{HA : DiskBudgetStore A} `{!DiskBudgetLaws A} `{HB : DiskBudgetStore B} `{!DiskBudgetLaws B}.
Context `{SliceSort}.
Implicit Types w : Stores A B.

Record valid_stores (w : Stores A B) : Prop := {
  vs_action s : store w = Some s -> valid s;
  vs_objects s : gocacheStore w = Some s -> valid s;
}.

(** All bytes on disk. *)
Definition bytesOf (w : Stores A B) : Z := diskBytesOf w ActionStore + diskBytesOf w ObjectStore.

#[local] Instance fuller_strict w : StrictWeak (fuller w).
Proof.
  unfold fuller. split; intros *; rewrite ?Z.ltb_lt, ?Z.ltb_ge; lia.
Qed.

Lemma total_cons w p l : total w (p :: l) = diskBytesOf w p + total w l.
Proof.
  assert (Hn : forall l n, foldl (fun t s => t + diskBytesOf w s) n l = n + total w l).
  { clear. unfold total. intros l. induction l as [|q l IH]; intros n; cbn [foldl]; [lia|].
    rewrite (IH (n + _)), (IH (0 + _)). lia. }
  unfold total at 1. cbn [foldl]. rewrite Hn. lia.
Qed.

Lemma total_perm w l : l ≡ₚ diskBudgetStores w -> total w l = bytesOf w.
Proof.
  intros Hp. transitivity (total w (diskBudgetStores w)).
  - induction Hp; rewrite ?total_cons; try lia; try done; congruence.
  - unfold bytesOf, diskBudgetStores. destruct w as [[] []]; simpl; rewrite ?total_cons; unfold total; simpl; lia.
Qed.

(** A store of the slice is evicted from. *)
Lemma evictOneOf_true w p w1 :
  valid_stores w -> evictOneOf w p = (w1, true) ->
  valid_stores w1 /\ diskBudgetStores w1 = diskBudgetStores w /\
  (objectsOf w1 < objectsOf w)%nat /\ bytesOf w1 <= bytesOf w.
Proof.
  intros [Ha Hb]. destruct w as [a b], p; simpl in *.
  - destruct a as [s|]; [|done]. destruct (EvictOne s) as [s' ok] eqn:E. intros [= <- ->].
    assert (Hv := valid_evict s (Ha s eq_refl)). rewrite E in Hv.
    destruct (evict_true s s' (Ha s eq_refl) E) as [Ho Hd].
    split; [split; simpl; [by intros ? [= <-]|done]|]. unfold diskBudgetStores, objectsOf, bytesOf.
    simpl. split; [done|]. lia.
  - destruct b as [s|]; [|done]. destruct (EvictOne s) as [s' ok] eqn:E. intros [= <- ->].
    assert (Hv := valid_evict s (Hb s eq_refl)). rewrite E in Hv.
    destruct (evict_true s s' (Hb s eq_refl) E) as [Ho Hd].
    split; [split; simpl; [done|by intros ? [= <-]]|]. unfold diskBudgetStores, objectsOf, bytesOf.
    simpl. split; [done|]. lia.
Qed.

(** A store that has nothing to evict has no bytes. *)
Lemma evictOneOf_false w p w1 :
  valid_stores w -> evictOneOf w p = (w1, false) -> diskBytesOf w p = 0.
Proof.
  intros [Ha Hb]. destruct w as [a b], p; simpl in *.
  - destruct a as [s|]; [|done]. destruct (EvictOne s) as [s' ok] eqn:E. intros [= <- ->]. simpl.
    apply (evict_false s s' (Ha s eq_refl) E).
  - destruct b as [s|]; [|done]. destruct (EvictOne s) as [s' ok] eqn:E. intros [= <- ->]. simpl.
    apply (evict_false s s' (Hb s eq_refl) E).
Qed.

Lemma diskBytesOf_nonneg w p : valid_stores w -> 0 <= diskBytesOf w p.
Proof. intros [Ha Hb]. destruct w as [[] []], p; simpl in *; try lia; apply valid_bytes; eauto. Qed.

(** The reference: while the bytes exceed the target, one object goes from the store
    that has most. *)
Definition evict_fullest (target : Z) (w w1 : Stores A B) : Prop :=
  target < bytesOf w /\
  exists p, (forall q, diskBytesOf w q <= diskBytesOf w p) /\ evictOneOf w p = (w1, true).

Lemma fullest_first w target l :
  valid_stores w -> 0 <= target -> target < bytesOf w -> l ≡ₚ diskBudgetStores w ->
  exists w1, evictFirst w (sort_slice (fuller w) l) = (w1, true) /\ evict_fullest target w w1.
Proof.
  intros Hv H0 Ht Hl. assert (Hp : sort_slice (fuller w) l ≡ₚ diskBudgetStores w) by (by rewrite sort_slice_perm).
  assert (Hs := sort_slice_ordered (fuller w) l _).
  destruct (sort_slice (fuller w) l) as [|p ps] eqn:Eps.
  { rewrite <-(total_perm w []) in Ht by done. unfold total in Ht. simpl in Ht. lia. }
  assert (Hmax : forall q, diskBytesOf w q <= diskBytesOf w p).
  { intros q. assert (Hq : q ∈ p :: ps \/ diskBytesOf w q = 0).
    { rewrite Hp. destruct w as [[] []], q; unfold diskBudgetStores; simpl; auto; left; set_solver. }
    destruct Hq as [[->|Hq]%elem_of_cons|Hq]; [lia| |].
    - rewrite ordered_by_cons, Forall_forall in Hs. destruct Hs as [Hs _].
      specialize (Hs q Hq). unfold fuller in Hs. go_bool. lia.
    - rewrite Hq. by apply diskBytesOf_nonneg. }
  assert (Hpos : 0 < diskBytesOf w p).
  { unfold bytesOf in Ht. assert (H1 := Hmax ActionStore). assert (H2 := Hmax ObjectStore). lia. }
  simpl. destruct (evictOneOf w p) as [w1 []] eqn:E.
  - exists w1. split; [done|]. split; [done|]. eauto.
  - apply evictOneOf_false in E; [lia|done].
Qed.

Lemma budgetLoop_spec fuel target w l :
  valid_stores w -> 0 <= target -> l ≡ₚ diskBudgetStores w -> (objectsOf w < fuel)%nat ->
  let w' := budgetLoop fuel target w l in
  valid_stores w' /\ bytesOf w' <= target /\ rtc (evict_fullest target) w w'.
Proof.
  revert w l. induction fuel as [|fuel IH]; intros w l Hv H0 Hl Hf; [lia|]. simpl.
  rewrite (total_perm w l Hl). destruct (Z.leb_spec (bytesOf w) target) as [Hle|Hgt]; [done|].
  destruct (fullest_first w target l Hv H0 Hgt Hl) as (w1 & -> & Hs).
  destruct Hs as (? & p & Hmax & E). destruct (evictOneOf_true w p w1 Hv E) as (Hv1 & Hd & Ho & _).
  destruct (IH w1 (sort_slice (fuller w) l)) as (IH1 & IH2 & IH3); [done..| |lia|].
  { by rewrite Hd, (sort_slice_perm (fuller w) l). }
  split; [done|]. split; [done|]. eapply rtc_l; [|done]. split; eauto.
Qed.

(** Under the limit nothing is evicted; over it, down to the target. *)
Lemma enforce_spec max w :
  valid_stores w -> 0 < max ->
  let target := max - Z.quot max evictionMarginFraction in
  let w' := enforceCombinedBudget max w in
  valid_stores w' /\
  (bytesOf w <= max -> w' = w) /\
  (max < bytesOf w -> bytesOf w' <= target /\ rtc (evict_fullest target) w w').
Proof.
  intros Hv Hm. simpl. unfold enforceCombinedBudget.
  destruct (Z.leb_spec max 0); [lia|]. rewrite (total_perm w) by done.
  assert (Ht : 0 <= max - Z.quot max evictionMarginFraction).
  { unfold evictionMarginFraction. rewrite Z.quot_div_nonneg by lia.
    assert (max / 10 <= max) by (apply Z.div_le_upper_bound; lia). lia. }
  case_bool_decide as Hn.
  { split; [done|]. split; [done|]. intros Hgt. rewrite <-(total_perm w []) in Hgt.
    - unfold total in Hgt. simpl in Hgt. lia.
    - apply nil_length_inv in Hn. by rewrite Hn. }
  destruct (Z.leb_spec (bytesOf w) max); [split; [done|]; split; [done|lia]|].
  destruct (budgetLoop_spec (S (objectsOf w)) _ w (diskBudgetStores w) Hv Ht) as (? & ? & ?); [done|lia|].
  split; [done|]. split; [lia|done].
Qed.
End laws.

(** ** Requests *)

(** What the header must be: the word Bearer and one of the tokens, with space around
    it or not; nothing when the server has no token. *)
Definition granted (h : Auth) (auth : bytes) : Prop :=
  authToken h = [] \/
  exists rest, auth = #"Bearer " ++ rest /\
    (TrimSpace rest = authToken h \/ fallbackAuthToken h <> [] /\ TrimSpace rest = fallbackAuthToken h).

Lemma authorized_spec h auth : authorized h auth = true <-> granted h auth.
Proof.
  unfold authorized, granted. destruct (bool_decide_reflect (authToken h = [])) as [E|E]; [by split; [left|]|].
  destruct (HasPrefix auth #"Bearer ") eqn:Hp; cbn [negb].
  - apply HasPrefix_spec in Hp as [rest ->].
    assert (Et : TrimPrefix (#"Bearer " ++ rest) #"Bearer " = rest).
    { unfold TrimPrefix. by rewrite HasPrefix_app. }
    rewrite Et.
    rewrite orb_true_iff, andb_true_iff, negb_true_iff, !bool_decide_eq_true, bool_decide_eq_false.
    split; [intros H; right; by exists rest|]. intros [?|(r & Hr & H)]; [done|].
    change (#"Bearer " ++ rest = #"Bearer " ++ r) in Hr.
      apply app_inv_head in Hr as ->. done.
  - split; [done|]. intros [?|(r & -> & _)]; [done|]. by rewrite HasPrefix_app in Hp.
Qed.

(** The sessions after a request of session [sid]: the others stay until they expire;
    its own has the headers that were sent, and begins anew if it was unknown or
    expired. *)
Lemma touchSession_lookup m r now id :
  hd_SessionID r <> [] ->
  (touchSession m r now).1 !! id =
    if bool_decide (id = hd_SessionID r) then
      let old := match m !! id with
                 | Some cs => if sessionExpired cs now then newSession now else cs
                 | None => newSession now
                 end in
      Some (mkClientSession (orElse (hd_ClientVersion r) (cs_Version old)) (orElse (hd_Changes r) (cs_ChangesID old))
              (orElse (hd_Commit r) (cs_Commit old)) (orElse (hd_BuildType r) (cs_BuildType old))
              (orElse (hd_JobURL r) (cs_JobURL old)) (cs_PreloadBytes old) (cs_PreloadTime old) (cs_PreloadSource old)
              (cs_FinalizeBytes old) (cs_FinalizeTime old) (cs_Done old) (cs_FirstSeen old) now (cs_DoneAt old) (cs_Extra old))
    else match m !! id with
         | Some cs => if sessionExpired cs now then None else Some cs
         | None => None
         end.
Proof.
  intros Hs. unfold touchSession. rewrite bool_decide_eq_false_2 by done. simpl.
  assert (Hf : forall i, filter (fun x => sessionExpired x.2 now = false) m !! i =
    match m !! i with Some cs => if sessionExpired cs now then None else Some cs | None => None end).
  { intros i. rewrite map_lookup_filter. destruct (m !! i) as [cs|]; simpl; [|done].
    unfold guard. case_decide as Hd; simpl in Hd; destruct (sessionExpired cs now); done. }
  destruct (bool_decide_reflect (id = hd_SessionID r)) as [->|Hne].
  - rewrite lookup_insert_eq, Hf. destruct (m !! _) as [cs|]; [|done]. by destruct (sessionExpired cs now).
  - by rewrite lookup_insert_ne, Hf.
Qed.

Section serving.
Context {A B : Type} `{HA : DiskBudgetStore A} `{!DiskBudgetLaws A} `{HB : DiskBudgetStore B} `{!DiskBudgetLaws B}.
Context `{SliceSort}.

(** The budget is kept. *)
Lemma budgeted_ok (h : HttpServer A B) :
  valid_stores (hs_stores h) ->
  valid_stores (hs_stores (budgeted h)) /\ (0 < hs_combinedMax h -> bytesOf (hs_stores (budgeted h)) <= hs_combinedMax h).
Proof.
  intros Hw. unfold budgeted, set_stores. cbn [hs_stores]. destruct (Z.leb_spec (hs_combinedMax h) 0) as [Hle|Hlt].
  - unfold enforceCombinedBudget. rewrite (proj2 (Z.leb_le _ _)) by done. split; [done|lia].
  - destruct (enforce_spec (hs_combinedMax h) (hs_stores h) Hw Hlt) as (H1 & H2 & H3). split; [done|]. intros _.
    destruct (Z.le_gt_cases (bytesOf (hs_stores h)) (hs_combinedMax h)) as [Hle|Hgt]; [by rewrite H2|].
    destruct (H3 Hgt) as [H4 _]. etrans; [exact H4|]. unfold evictionMarginFraction.
    rewrite Z.quot_div_nonneg by lia. assert (0 <= hs_combinedMax h / 10) by (apply Z.div_pos; lia). lia.
Qed.
End serving.

(** ** The two stores *)

Section two_stores.
Context (lcf : LocalStore.Config) (range : gmap bytes LocalStore.indexEntry -> list bytes).
Context (gcf : GoCacheStore.Config).
Context (Hdir : abs_dir (LocalStore.cf_dir lcf)) (Hrange : forall idx, range_of idx (range idx)).
Context (Hcfg : GoCacheStore.cfg_ok gcf).

Lemma action_bytes s bl : LocalStore.holds lcf s bl -> LocalStore.DiskBytes s = map_sum blen bl.
Proof. intros [Ho _]. apply (LocalStore.oo_bytes _ _ _ _ _ Ho). Qed.

Lemma without_use_bytes (cnt : bytes -> nat) (bl : gmap bytes bytes) (o : bytes) : map_sum blen (LocalStore.without_use cnt bl o) <= map_sum blen bl.
Proof.
  unfold LocalStore.without_use. destruct (_ =? 1)%nat; [|lia].
  destruct (bl !! o) as [b|] eqn:Hb; [|rewrite delete_id by done; lia].
  rewrite (map_sum_delete _ _ _ _ Hb). unfold blen. lia.
Qed.

Definition action_laws : @DiskBudgetLaws LocalStore.Store (actionStoreBudget lcf range).
Proof.
  refine (@Build_DiskBudgetLaws _ (actionStoreBudget lcf range) (fun s => exists bl, LocalStore.holds lcf s bl) _ _ _ _);
    unfold DiskBytes, EvictOne, objectCount; simpl; intros s.
  - intros [bl Hh]. rewrite (action_bytes s bl Hh). apply map_sum_nonneg. intros; unfold blen; lia.
  - intros [bl Hh]. assert (H := LocalServe.local_evictOne_ok lcf range Hdir Hrange s bl Hh).
    unfold LocalStore.EvictOne. destruct (LocalStore.evictOneLocked lcf range s) as [s' []]; simpl.
    + destruct H as (a & ie & _ & _ & _ & H). eauto.
    + destruct H as [-> _]. eauto.
  - intros s' [bl Hh] E. assert (H := LocalServe.local_evictOne_ok lcf range Hdir Hrange s bl Hh).
    unfold LocalStore.EvictOne in E. rewrite E in H. destruct H as (a & ie & Ha & _ & Hi & H). split.
    + rewrite Hi. assert (Hs := size_delete_lt _ a ie Ha). lia.
    + rewrite (action_bytes _ _ Hh), (action_bytes _ _ H). apply without_use_bytes.
  - intros s' [bl Hh] E. assert (H := LocalServe.local_evictOne_ok lcf range Hdir Hrange s bl Hh).
    unfold LocalStore.EvictOne in E. rewrite E in H. destruct H as [-> Hi].
    assert (H0 := LocalServe.no_index_no_bytes lcf s bl Hh Hi). done.
Defined.


Lemma entries_nonneg s a k ie :
  GoCacheStore.repr gcf s a -> (fst <$> a) !! k = Some ie -> 0 <= GoCacheStore.entryStoredSize ie.
Proof.
  intros [Hh _] Hk. rewrite lookup_fmap in Hk. destruct (a !! k) as [[ie' b]|] eqn:Ha; [|done].
  injection Hk as <-. simpl. rewrite <-(GoCacheStore.hd_size _ _ _ Hh k ie' b Ha). unfold blen. lia.
Qed.

(** The objects of a store, whose paths are as the caller has them. *)
Definition object_laws (P : bytes -> Prop) : @DiskBudgetLaws GoCacheStore.Store (objectStoreBudget gcf).
Proof.
  refine (@Build_DiskBudgetLaws _ (objectStoreBudget gcf)
    (fun s => exists a, GoCacheStore.repr gcf s a /\ forall p, is_Some (a !! p) -> P p) _ _ _ _);
    unfold DiskBytes, EvictOne, objectCount; simpl; unfold GoCacheStore.DiskBytes, GoCacheStore.EvictOne; intros s.
  - intros (a & Hr & _). rewrite (GoCacheStore.repr_cur _ _ _ Hr). apply map_sum_nonneg.
    intros k ie. by apply (entries_nonneg s a).
  - intros (a & Hr & HP). assert (H := GoCacheStore.evictOneLocked_spec gcf s a Hcfg Hr).
    destruct (GoCacheStore.evictOneLocked gcf s) as [s' []]; simpl in *.
    + destruct H as (p & ie & b & _ & H & _). exists (delete p a). split; [done|]. intros q [x [_ Hq]%lookup_delete_Some].
      apply HP. by exists x.
    + destruct H as (_ & H & _). eauto.
  - intros s' (a & Hr & _) E. assert (H := GoCacheStore.evictOneLocked_spec gcf s a Hcfg Hr).
    rewrite E in H. destruct H as (p & ie & b & Hp & H & Hd & _). simpl in *. split.
    + rewrite (GoCacheStore.repr_size _ _ _ Hr), (GoCacheStore.repr_size _ _ _ H).
      assert (Hs := size_delete_lt a p _ Hp). lia.
    + assert (0 <= GoCacheStore.entryStoredSize ie); [|lia].
      apply (entries_nonneg s a p); [done|]. by rewrite lookup_fmap, Hp.
  - intros s' (a & Hr & _) E. assert (H := GoCacheStore.evictOneLocked_spec gcf s a Hcfg Hr).
    rewrite E in H. destruct H as (-> & H & Hd). simpl in *.
    rewrite Hd, (GoCacheStore.repr_cur _ _ _ Hr), fmap_empty, map_sum_empty. done.
Defined.
End two_stores.

(** ** The claims *)

Abbreviation BothStores := (Stores LocalStore.Store GoCacheStore.Store).

Section claims.
Context `{SliceSort}.
Context (lcf : LocalStore.Config) (range : gmap bytes LocalStore.indexEntry -> list bytes).
Context (gcf : GoCacheStore.Config).
Context (Hdir : abs_dir (LocalStore.cf_dir lcf)) (Hrange : forall idx, range_of idx (range idx)).
Context (Hcfg : GoCacheStore.cfg_ok gcf).


(** The server with its two stores. *)
Definition enforceBoth : Z -> BothStores -> BothStores :=
  @enforceCombinedBudget _ _ (actionStoreBudget lcf range) (objectStoreBudget gcf) _.

Definition serveBoth {R} := @ServeHTTP _ _ (actionStoreBudget lcf range) (objectStoreBudget gcf) _ R.

(** The reference: one object from the store that has most. *)
Definition evictFullest : Z -> BothStores -> BothStores -> Prop :=
  @evict_fullest _ _ (actionStoreBudget lcf range) (objectStoreBudget gcf).

(** The bytes of both stores. *)
Definition diskBytesOfBoth (w : BothStores) : Z :=
  from_option LocalStore.DiskBytes 0 (store w) + from_option GoCacheStore.DiskBytes 0 (gocacheStore w).

(** Both stores keep their invariants. *)
Record both_hold (w : BothStores) : Prop := {
  bh_action s : store w = Some s -> exists bl, LocalStore.holds lcf s bl;
  bh_object s : gocacheStore w = Some s -> exists a, GoCacheStore.repr gcf s a;
}.

(** Both stores keep their invariants, and the paths of the objects are as [P] has them. *)
Record both_hold_at (P : bytes -> Prop) (w : BothStores) : Prop := {
  bha_action s : store w = Some s -> exists bl, LocalStore.holds lcf s bl;
  bha_object s : gocacheStore w = Some s -> exists a, GoCacheStore.repr gcf s a /\ forall p, is_Some (a !! p) -> P p;
}.

Lemma both_valid_at P w :
  both_hold_at P w <->
  @valid_stores _ _ _ (action_laws lcf range Hdir Hrange) _ (object_laws gcf Hcfg P) w.
Proof. split; intros [H1 H2]; split; intros s Hs; [apply (H1 s Hs)|apply (H2 s Hs)|apply (H1 s Hs)|apply (H2 s Hs)]. Qed.

Lemma both_valid w :
  both_hold w <->
  @valid_stores _ _ _ (action_laws lcf range Hdir Hrange) _ (object_laws gcf Hcfg (fun _ => True)) w.
Proof.
  rewrite <-both_valid_at. split; intros [H1 H2]; split; try done; intros s Hs; destruct (H2 s Hs) as [a Ha]; exists a;
    [by split|apply Ha].
Qed.

(** C17: the budget that the two stores share.  Under the limit nothing is evicted.  Over
    it, objects go one at a time, each from the store that then has most bytes on
    disk, until nine tenths of the limit are reached -- which always happens -- and
    both stores keep their invariants. *)
Theorem combined_budget_evicts_fullest max w (Hw : both_hold w) (Hmax : 0 < max) :
  let target := max - Z.quot max evictionMarginFraction in
  let w' := enforceBoth max w in
  both_hold w' /\
  (diskBytesOfBoth w <= max -> w' = w) /\
  (max < diskBytesOfBoth w -> diskBytesOfBoth w' <= target /\ rtc (evictFullest target) w w').
Proof.
  intros target w'. rewrite both_valid in Hw |- *. apply (enforce_spec max w Hw Hmax).
Qed.

End claims.

(** ** Examples *)

Abbreviation keys := (fun idx : gmap bytes LocalStore.indexEntry => (map_to_list idx).*1).

(** Both stores with nine bytes. *)
Definition eighteen : BothStores := mkStores (Some LocalServe.nineStore) (Some GoCacheStore.tightStore).

Lemma eighteen_holds : both_hold (LocalServe.exampleConfig false) GoCacheStore.tightConfig eighteen.
Proof.
  split; intros s [= <-]; [exists {[ #"out" := #"ninebytes" ]}; exact LocalServe.nine_stored|].
  eexists. exact GoCacheStore.tight_repr.
Qed.

Lemma combined_budget_evicts_fullest_witness :
  diskBytesOfBoth eighteen = 18 /\
  diskBytesOfBoth (@enforceBoth stable_slice_sort (LocalServe.exampleConfig false) keys GoCacheStore.tightConfig 10 eighteen) <= 9.
Proof.
  split; [vm_compute; reflexivity|].
  destruct (@combined_budget_evicts_fullest stable_slice_sort (LocalServe.exampleConfig false) keys GoCacheStore.tightConfig
    (LocalServe.example_dir false) LocalServe.range_keys GoCacheStore.example_cfg_ok 10 eighteen eighteen_holds eq_refl)
    as (_ & _ & H).
  apply H. vm_compute. reflexivity.
Defined.

Definition exampleServer : HttpServer LocalStore.Store GoCacheStore.Store :=
  mkHttpServer (mkAuth #"secret" #"old") ∅ eighteen 10 (mkPanics 0 [] 0).
