(* ===== verification/SessionsLog.v ===== *)
(** The log of the sessions, src/internal/http/sessions_jsonl.go: one line of JSON for
    every session that starts or is done, appended to a file that grows for ever, and the
    reading back of its end when the server starts again. *)
From S2P Require Import Prelude.
From S2P Require Import GoStrings.
From S2P Require Import GoPath.
From S2P Require Import Float64.
From S2P Require Import ByteSizes.
From S2P Require Import AppendLog.
From S2P Require Import Wire.
From S2P Require Import HttpServer.
Open Scope Z_scope.

(** ** Values of encoding/json *)

(** What stands in an object: a string, the text of a number, null, and the text of
    anything else. *)
Inductive jvalue := JString (s : bytes) | JNum (text : bytes) | JNull | JRaw (text : bytes).

(** The members of an object, in order. *)
Abbreviation object := (list (bytes * jvalue)).

(** What encoding/json does with objects and floats: an object that is written is read
    again if its texts are UTF-8; it is one line that ends in a brace; and a float is
    written as a decimal number that reads as the same value, an integer as its digits. *)
Class JSONObjects := {
  encodeObject : object -> bytes;
  decodeObject : bytes -> option object;
  formatFloat : float64 -> bytes;
  text_ok : bytes -> Prop;
  value_ok : jvalue -> Prop;
  decode_encode o : Forall (fun m => text_ok m.1 /\ value_ok m.2) o -> decodeObject (encodeObject o) = Some o;
  encode_line o : newline ∉ encodeObject o;
  encode_end o : last (encodeObject o) = Some "}"%char;
  ascii_ok s : Forall (fun c => (nat_of_ascii c < 128)%nat) s -> text_ok s;
  string_ok s : text_ok s -> value_ok (JString s);
  int_ok n : value_ok (JNum (FormatInt n));
  float_ok x : value_ok (JNum (formatFloat x));
  parse_format x n d : 0 < d -> x = rn n d -> Z.abs (num x) < 2 ^ 1024 * den x ->
    exists m k, parseDecimal (formatFloat x) = Some (m, k) /\ num (decimalFloat m k) * den x = num x * den (decimalFloat m k);
  format_int n : Z.abs n <= 2 ^ 53 -> formatFloat (of_int n) = FormatInt n;
}.

(** A number, as a [float64]. *)
Definition parseFloat (t : bytes) : result float64 :=
  match parseDecimal t with
  | None => Err (EMsg "invalid character")
  | Some (m, k) =>
      let x := decimalFloat m k in
      if 2 ^ 1024 * den x <=? Z.abs (num x) then Err (EMsg "value out of range") else Ok x
  end.

(** ** A line *)

Inductive fieldValue := VText (s : bytes) | VInt (n : Z) | VFloat (x : float64).
Definition zeroFloat : float64 := mkFloat 0 0.

Record sessionsJSONLRecord := mkRecord {
  sr_Event : bytes;
  sr_Timestamp : Z;
  sr_SessionID : bytes;
  sr_StartedAt : Z;
  sr_Status : bytes;
  sr_Version : bytes;
  sr_Ref : bytes;
  sr_BuildType : bytes;
  sr_JobURL : bytes;
  sr_PreloadBytes : Z;
  sr_PreloadTimeS : float64;
  sr_PreloadSource : bytes;
  sr_FinalizeBytes : Z;
  sr_FinalizeTimeS : float64;
  sr_SessionTimeS : float64;
}.

Definition zeroRecord : sessionsJSONLRecord := mkRecord [] 0 [] 0 [] [] [] [] [] 0 zeroFloat [] 0 zeroFloat zeroFloat.

Inductive field :=
  FEvent | FTimestamp | FSessionID | FStartedAt | FStatus | FVersion | FRef | FBuildType | FJobURL | FPreloadBytes | FPreloadTimeS | FPreloadSource | FFinalizeBytes | FFinalizeTimeS | FSessionTimeS.

#[export] Instance field_eq_dec : EqDecision field.
Proof. solve_decision. Defined.

Definition fieldName (f : field) : bytes :=
  match f with
  | FEvent => #"event"
  | FTimestamp => #"timestamp"
  | FSessionID => #"session_id"
  | FStartedAt => #"started_at"
  | FStatus => #"status"
  | FVersion => #"version"
  | FRef => #"ref"
  | FBuildType => #"build_type"
  | FJobURL => #"job_url"
  | FPreloadBytes => #"preload_bytes"
  | FPreloadTimeS => #"preload_time_s"
  | FPreloadSource => #"preload_source"
  | FFinalizeBytes => #"finalize_bytes"
  | FFinalizeTimeS => #"finalize_time_s"
  | FSessionTimeS => #"session_time_s"
  end.

Definition store (r : sessionsJSONLRecord) (f : field) (x : fieldValue) : sessionsJSONLRecord :=
  let '(mkRecord a1 a2 a3 a4 a5 a6 a7 a8 a9 a10 a11 a12 a13 a14 a15) := r in
  match f, x with
  | FEvent, VText s => mkRecord s a2 a3 a4 a5 a6 a7 a8 a9 a10 a11 a12 a13 a14 a15
  | FTimestamp, VInt n => mkRecord a1 n a3 a4 a5 a6 a7 a8 a9 a10 a11 a12 a13 a14 a15
  | FSessionID, VText s => mkRecord a1 a2 s a4 a5 a6 a7 a8 a9 a10 a11 a12 a13 a14 a15
  | FStartedAt, VInt n => mkRecord a1 a2 a3 n a5 a6 a7 a8 a9 a10 a11 a12 a13 a14 a15
  | FStatus, VText s => mkRecord a1 a2 a3 a4 s a6 a7 a8 a9 a10 a11 a12 a13 a14 a15
  | FVersion, VText s => mkRecord a1 a2 a3 a4 a5 s a7 a8 a9 a10 a11 a12 a13 a14 a15
  | FRef, VText s => mkRecord a1 a2 a3 a4 a5 a6 s a8 a9 a10 a11 a12 a13 a14 a15
  | FBuildType, VText s => mkRecord a1 a2 a3 a4 a5 a6 a7 s a9 a10 a11 a12 a13 a14 a15
  | FJobURL, VText s => mkRecord a1 a2 a3 a4 a5 a6 a7 a8 s a10 a11 a12 a13 a14 a15
  | FPreloadBytes, VInt n => mkRecord a1 a2 a3 a4 a5 a6 a7 a8 a9 n a11 a12 a13 a14 a15
  | FPreloadTimeS, VFloat x => mkRecord a1 a2 a3 a4 a5 a6 a7 a8 a9 a10 x a12 a13 a14 a15
  | FPreloadSource, VText s => mkRecord a1 a2 a3 a4 a5 a6 a7 a8 a9 a10 a11 s a13 a14 a15
  | FFinalizeBytes, VInt n => mkRecord a1 a2 a3 a4 a5 a6 a7 a8 a9 a10 a11 a12 n a14 a15
  | FFinalizeTimeS, VFloat x => mkRecord a1 a2 a3 a4 a5 a6 a7 a8 a9 a10 a11 a12 a13 x a15
  | FSessionTimeS, VFloat x => mkRecord a1 a2 a3 a4 a5 a6 a7 a8 a9 a10 a11 a12 a13 a14 x
  | _, _ => r
  end.

(** Names match without regard to case; of the letters that are no ASCII, the long s and
    the sign of the kelvin are counted as letters. *)
Fixpoint foldName (s : bytes) : bytes :=
  match s with
  | [] => []
  | c :: t =>
      let n := nat_of_ascii c in
      match n, t with
      | 197%nat, d :: u => if (nat_of_ascii d =? 191)%nat then "S"%char :: foldName u else c :: foldName t
      | 226%nat, d :: e :: u =>
          if (nat_of_ascii d =? 132)%nat && (nat_of_ascii e =? 170)%nat then "K"%char :: foldName u else c :: foldName t
      | _, _ => (if ((97 <=? n) && (n <=? 122))%nat then ascii_of_nat (n - 32) else c) :: foldName t
      end
  end.

Definition allFields : list field :=
  [FEvent; FTimestamp; FSessionID; FStartedAt; FStatus; FVersion; FRef; FBuildType; FJobURL; FPreloadBytes; FPreloadTimeS;
   FPreloadSource; FFinalizeBytes; FFinalizeTimeS; FSessionTimeS].

(** The field of a name: the one it is, or else the one it is but for case. *)
Definition fieldOf (k : bytes) : option field :=
  match find (fun f => bool_decide (fieldName f = k)) allFields with
  | Some f => Some f
  | None => find (fun f => bool_decide (foldName (fieldName f) = foldName k)) allFields
  end.

(** A value for a field: null leaves the field alone, another type is an error. *)
Definition valueFor (f : field) (v : jvalue) : result (option fieldValue) :=
  match v with
  | JNull => Ok None
  | JString s =>
      match f with
      | FTimestamp | FStartedAt | FPreloadBytes | FFinalizeBytes | FPreloadTimeS | FFinalizeTimeS | FSessionTimeS =>
          Err (EMsg "cannot unmarshal")
      | _ => Ok (Some (VText s))
      end
  | JNum t =>
      match f with
      | FTimestamp | FStartedAt | FPreloadBytes | FFinalizeBytes => let? n := ParseInt t in Ok (Some (VInt n))
      | FPreloadTimeS | FFinalizeTimeS | FSessionTimeS => let? x := parseFloat t in Ok (Some (VFloat x))
      | _ => Err (EMsg "cannot unmarshal")
      end
  | JRaw _ => Err (EMsg "cannot unmarshal")
  end.

(** The fields that the members of an object set, in order. *)
Fixpoint assignments (o : object) : result (list (field * fieldValue)) :=
  match o with
  | [] => Ok []
  | (k, v) :: o =>
      match fieldOf k with
      | None => assignments o
      | Some f =>
          let? x := valueFor f v in
          let? l := assignments o in
          Ok (match x with Some x => (f, x) :: l | None => l end)
      end
  end.

Definition storeAll (l : list (field * fieldValue)) : sessionsJSONLRecord := foldl (fun r a => store r a.1 a.2) zeroRecord l.

Definition decodeRecord (o : object) : result sessionsJSONLRecord := let? l := assignments o in Ok (storeAll l).

Section log.
Context `{JSONObjects} `{FloatHost}.

Definition omitEmpty (k s : bytes) : object := if bool_decide (s = []) then [] else [(k, JString s)].

(** The object of a record, with the fields that may be omitted. *)
Definition fieldsOf (r : sessionsJSONLRecord) : object :=
  [(fieldName FEvent, JString (sr_Event r)); (fieldName FTimestamp, JNum (FormatInt (sr_Timestamp r)));
   (fieldName FSessionID, JString (sr_SessionID r)); (fieldName FStartedAt, JNum (FormatInt (sr_StartedAt r)));
   (fieldName FStatus, JString (sr_Status r))] ++
  omitEmpty (fieldName FVersion) (sr_Version r) ++ omitEmpty (fieldName FRef) (sr_Ref r) ++
  omitEmpty (fieldName FBuildType) (sr_BuildType r) ++ omitEmpty (fieldName FJobURL) (sr_JobURL r) ++
  [(fieldName FPreloadBytes, JNum (FormatInt (sr_PreloadBytes r))); (fieldName FPreloadTimeS, JNum (formatFloat (sr_PreloadTimeS r)))] ++
  omitEmpty (fieldName FPreloadSource) (sr_PreloadSource r) ++
  [(fieldName FFinalizeBytes, JNum (FormatInt (sr_FinalizeBytes r))); (fieldName FFinalizeTimeS, JNum (formatFloat (sr_FinalizeTimeS r)));
   (fieldName FSessionTimeS, JNum (formatFloat (sr_SessionTimeS r)))].

(** A value that went through [any]: its numbers are floats. *)
Definition anyValue (v : jvalue) : result jvalue :=
  match v with JNum t => let? x := parseFloat t in Ok (JNum (formatFloat x)) | _ => Ok v end.

Fixpoint anyMembers (o : object) : result object :=
  match o with
  | [] => Ok []
  | (k, v) :: o => let? v := anyValue v in let? o := anyMembers o in Ok ((k, v) :: o)
  end.

(** The extra fields that a session was given when it was done: of several members of one
    name the last counts. *)
Definition extraOf (cs : clientSession) : gmap bytes jvalue :=
  match cs_Extra cs with
  | None => ∅
  | Some body =>
      match decodeObject body with
      | None => ∅
      | Some o => match anyMembers o with Ok o => list_to_map (reverse o) | Err _ => ∅ end
      end
  end.

(** [appendJSONLLine] up to the write: the members of [v], and those of [extra] that have
    other names. *)
Definition lineOf (v : object) (extra : gmap bytes jvalue) : result bytes :=
  if bool_decide (extra = ∅) then Ok (encodeObject v)
  else
    let? merged := anyMembers v in
    Ok (encodeObject (stable_sort (fun a b => bytes_lt a.1 b.1) (map_to_list ((list_to_map merged : gmap bytes jvalue) ∪ extra)))).

Definition appendJSONLLine (af : AppendFaults) (file : option bytes) (v : object) (extra : gmap bytes jvalue) : option bytes * result unit :=
  match lineOf v extra with
  | Err e => (file, Err e)
  | Ok data => appendFile af file (data ++ [newline])
  end.

(** ** Times *)

Definition roundSeconds (d : Z) : float64 := fdiv (mathRound (fmul (Seconds d) (of_int 1000))) (of_int 1000).
Definition secondsToDuration (s : float64) : Z := toInt64 (fmul s (of_int 1000000000)).

(** [time.Time.Unix] of a time in nanoseconds, [time.Unix], and [time.Time.Sub], which
    stops at the longest duration. *)
Definition unix (t : Z) : Z := t / 1000000000.
Definition fromUnix (s : Z) : Z := s * 1000000000.
Definition timeSub (t u : Z) : Z := Z.max (- 2 ^ 63) (Z.min (2 ^ 63 - 1) (t - u)).

(** ** Appending *)

Definition statusText (cs : clientSession) : bytes := if cs_Done cs then #"done" else #"in progress".
Definition sessionTime (cs : clientSession) : Z := if cs_Done cs then timeSub (cs_DoneAt cs) (cs_FirstSeen cs) else 0.

Definition recordOf (event sid : bytes) (cs : clientSession) (now : Z) : sessionsJSONLRecord :=
  mkRecord event (unix now) sid (unix (cs_FirstSeen cs)) (statusText cs) (cs_Version cs) (sessionRef cs) (cs_BuildType cs) (cs_JobURL cs)
    (cs_PreloadBytes cs) (roundSeconds (cs_PreloadTime cs)) (cs_PreloadSource cs)
    (cs_FinalizeBytes cs) (roundSeconds (cs_FinalizeTime cs)) (roundSeconds (sessionTime cs)).

(** [appendSessionsJSONL]; an error is logged and nothing else. *)
Definition appendSessionsJSONL (path : bytes) (af : AppendFaults) (file : option bytes) (event sid : bytes) (cs : clientSession) (now : Z)
    : option bytes :=
  if bool_decide (path = []) then file
  else fst (appendJSONLLine af file (fieldsOf (recordOf event sid cs now)) (extraOf cs)).

(** ** Loading *)

Definition sessionsJSONLTailBytes : Z := 500000.
Definition sessionsJSONLMaxLine : Z := 1024 * 1024.

(** The session of a record. *)
Definition sessionOf (rec : sessionsJSONLRecord) : clientSession :=
  let done := bool_decide (sr_Status rec = #"done") in
  mkClientSession (sr_Version rec) (sr_Ref rec) [] (sr_BuildType rec) (sr_JobURL rec)
    (sr_PreloadBytes rec) (secondsToDuration (sr_PreloadTimeS rec)) (sr_PreloadSource rec)
    (sr_FinalizeBytes rec) (secondsToDuration (sr_FinalizeTimeS rec)) done
    (fromUnix (sr_StartedAt rec)) (fromUnix (sr_Timestamp rec)) (if done then fromUnix (sr_Timestamp rec) else 0) None.

(** A line; one that is no record, or has no session, is skipped. *)
Definition recordLine (line : bytes) : option sessionsJSONLRecord :=
  match decodeObject line with
  | None => None
  | Some o => match decodeRecord o with
              | Ok rec => if bool_decide (sr_SessionID rec = []) then None else Some rec
              | Err _ => None
              end
  end.
Definition loadLine (sessions : Sessions) (line : bytes) : Sessions :=
  match recordLine line with
  | Some rec => <[sr_SessionID rec := sessionOf rec]> sessions
  | None => sessions
  end.

(** The lines that are scanned: those of the last 500000 bytes, without the first one when
    the file is longer.  A read that fails ends the file where it is. *)
Definition scannedLines (data : bytes) (readable : option nat) : list bytes :=
  let size := blen data in
  let offset := if sessionsJSONLTailBytes <? size then size - sessionsJSONLTailBytes else 0 in
  let tail := drop (Z.to_nat offset) data in
  let lines := fst (ScanLines sessionsJSONLMaxLine (match readable with Some n => take n tail | None => tail end)) in
  if 0 <? offset then drop 1 lines else lines.

(** The faults of loading: seeking, and reading after some bytes. *)
Record LoadFaults := mkLoadFaults { lf_seek : option goerr; lf_read : option nat }.

(** [loadRecentSessions]: what cannot be read is as if it were not there. *)
Definition loadRecentSessions (path : bytes) (file : result bytes) (flt : LoadFaults) (now : Z) (clientSessions : Sessions) : Sessions :=
  if bool_decide (path = []) then clientSessions
  else match file with
       | Err _ => clientSessions
       | Ok data =>
           match lf_seek flt with
           | Some _ => clientSessions
           | None =>
               let sessions := foldl loadLine ∅ (scannedLines data (lf_read flt)) in
               filter (fun x => sessionExpired x.2 now = false) sessions ∪ clientSessions
           end
       end.
End log.

(** ** Lemmas *)

(** *** Names and fields *)

Lemma fieldOf_name f : fieldOf (fieldName f) = Some f.
Proof. by destruct f; vm_compute. Qed.

Lemma store_comm r f x g y : f <> g -> store (store r f x) g y = store (store r g y) f x.
Proof. intros Hn. destruct r, f, g; try done; destruct x, y; reflexivity. Qed.

Lemma storeAll_perm l k : NoDup (map fst l) -> l ≡ₚ k -> storeAll l = storeAll k.
Proof.
  intros Hn Hp. unfold storeAll. generalize zeroRecord as r. revert Hn. induction Hp as [|a l k _ IH|a b l|l k m Hp1 IH1 Hp2 IH2]; intros Hn r.
  - done.
  - cbn [foldl]. apply IH. by apply NoDup_cons in Hn as [_ Hn].
  - cbn [foldl map] in *. apply NoDup_cons in Hn as [Hn _]. rewrite store_comm; [done|]. intros E. apply Hn. rewrite E. by left.
  - rewrite IH1 by done. apply IH2. by rewrite <-Hp1.
Qed.

Lemma assignments_app o p l : assignments (o ++ p) = Ok l <-> exists a b, assignments o = Ok a /\ assignments p = Ok b /\ l = a ++ b.
Proof.
  revert l. induction o as [|[k v] o IH]; intros l; cbn [app assignments].
  - split; [intros E; by exists [], l|]. intros (a & b & [= <-] & Hb & ->). done.
  - destruct (fieldOf k) as [f|]; [|by rewrite IH].
    destruct (valueFor f v) as [x|e]; [|split; [done|by intros (? & ? & ? & _)]].
    split.
    + destruct (assignments (o ++ p)) as [l'|] eqn:E; [|done]. intros [= <-]. destruct (proj1 (IH l') eq_refl) as (a & b & -> & Hb & ->).
      destruct x; eauto 6.
    + intros (a & b & Ha & Hb & ->). destruct (assignments o) as [a'|] eqn:E; [|done].
      rewrite (proj2 (IH (a' ++ b))) by eauto 6. destruct x; injection Ha as <-; done.
Qed.

(** Members that are no fields are ignored. *)
Lemma assignments_ignored o : Forall (fun m => fieldOf m.1 = None) o -> assignments o = Ok [].
Proof. induction 1 as [|[k v] o Hk _ IH]; [done|]. cbn in *. by rewrite Hk. Qed.

Lemma assignments_perm o p l : o ≡ₚ p -> assignments o = Ok l -> exists k, assignments p = Ok k /\ l ≡ₚ k.
Proof.
  intros Hp. revert l. induction Hp as [|a o p _ IH|a b o|o p q _ IH1 _ IH2]; intros l Hl; [by exists l| | |].
  - change (a :: o) with ([a] ++ o) in Hl. apply assignments_app in Hl as (x & y & Hx & Hy & ->). destruct (IH y Hy) as (k & Hk & Hp').
    exists (x ++ k). split; [|by rewrite Hp']. change (a :: p) with ([a] ++ p). apply assignments_app. eauto.
  - change (b :: a :: o) with ([b] ++ [a] ++ o) in Hl. apply assignments_app in Hl as (x & y & Hx & (y1 & y2 & Hy1 & Hy2 & ->)%assignments_app & ->).
    exists (y1 ++ x ++ y2). split.
    + change (a :: b :: o) with ([a] ++ [b] ++ o). apply assignments_app. exists y1, (x ++ y2). split; [done|]. split; [|done].
      apply assignments_app. eauto.
    + rewrite !app_assoc. f_equiv. apply Permutation_app_comm.
  - destruct (IH1 l Hl) as (k & Hk & Hp1). destruct (IH2 k Hk) as (k' & Hk' & Hp2). exists k'. split; [done|]. by rewrite Hp1.
Qed.

(** *** Durations through seconds *)

Lemma mathRound_close x : (0 <= fval x)%Q -> exists k, mathRound x = of_int k /\ 0 <= k /\ (Qabs (inject_Z k - fval x) <= Qmake 1 2)%Q.
Proof.
  intros Hx%fval_nonneg. assert (Hd := den_pos x). unfold mathRound. eexists. split; [reflexivity|].
  assert (Hk : 0 <= Z.sgn (num x) * ((2 * Z.abs (num x) + den x) / (2 * den x)) /\
    2 * Z.abs (Z.sgn (num x) * ((2 * Z.abs (num x) + den x) / (2 * den x)) * den x - num x) <= den x).
  { destruct (Z.eq_dec (num x) 0) as [->|Hn]; [cbn; lia|]. rewrite Z.sgn_pos, Z.abs_eq, Z.mul_1_l by lia.
    assert (Hdm := Z.div_mod (2 * num x + den x) (2 * den x) ltac:(lia)). assert (Hm := Z.mod_pos_bound (2 * num x + den x) (2 * den x) ltac:(lia)).
    split; [apply Z.div_pos; lia|]. lia. }
  destruct Hk as [Hk0 Hk]. split; [done|]. set (k := _ * _) in *. unfold fval. change (inject_Z k) with (frac k 1). change (Qmake 1 2) with (frac 1 2).
  unfold Qminus. rewrite frac_opp, frac_add, frac_abs by lia. apply frac_le; [lia|lia|].
  rewrite !Z.mul_1_l. replace (k * den x + - num x * 1) with (k * den x - num x) by ring. lia.
Qed.

Lemma den_int n : den (of_int n) <= 2 ^ 53.
Proof. assert (H := den_rn n 1 ltac:(lia)). unfold of_int. lia. Qed.

Lemma den_fdiv x y : 0 < num y -> den (fdiv x y) <= 2 ^ 53 * (den x * num y).
Proof. intros Hy. assert (Hx := den_pos x). unfold fdiv. rewrite (Z.abs_eq (num y)) by lia. apply den_rn. nia. Qed.

(** The seconds of a duration. *)
Lemma Seconds_close d : 0 <= d < 2 ^ 53 -> den (Seconds d) < 2 ^ 400 /\
  (Qabs (fval (Seconds d) - inject_Z d * Qmake 1 1000000000) <= inject_Z d * Qmake 1 1000000000 * Qmake 3 9007199254740992)%Q.
Proof.
  intros Hd. assert (Hq := Z.quot_rem' d 1000000000). assert (Hr := Z.rem_bound_pos d 1000000000 ltac:(lia) ltac:(lia)).
  assert (Hq0 : 0 <= Z.quot d 1000000000) by (apply Z.quot_pos; lia). unfold Seconds.
  set (q := Z.quot d 1000000000) in *. set (r := Z.rem d 1000000000) in *. clearbody q r.
  set (b := fdiv (of_int r) (of_int 1000000000)).
  assert (Hnum : 0 < num (of_int 1000000000) < 2 ^ 60) by (vm_compute; done).
  assert (Hb0 := den_fdiv (of_int r) (of_int 1000000000) (proj1 Hnum)). fold b in Hb0. assert (Hdr := den_int r). assert (Hdq := den_int q).
  assert (P1 := den_pos (of_int r)). assert (P2 := den_pos (of_int q)). assert (P3 := den_pos b).
  assert (Hbd : den b < 2 ^ 200) by nia.
  assert (Hbig : 2 ^ 200 < 2 ^ 400 /\ 2 ^ 60 < 2 ^ 400) by (split; by apply Z.pow_lt_mono_r).
  assert (Hb := fdiv_error (of_int r) (of_int 1000000000) ltac:(lia) ltac:(lia)). fold b in Hb.
  assert (Hs := fadd_error (of_int q) b ltac:(lia) ltac:(lia)). split.
  - eapply Z.le_lt_trans; [apply den_rn; nia|]. nia.
  - rewrite (of_int_value r), (of_int_value 1000000000) in Hb by lia. rewrite (of_int_value q) in Hs by lia.
    assert (ED : (inject_Z d == 1000000000 * inject_Z q + inject_Z r)%Q) by (rewrite <-(inject_Z_mult 1000000000), <-inject_Z_plus; by f_equiv).
    assert (Hqq : (0 <= inject_Z q)%Q) by (change 0%Q with (inject_Z 0); by rewrite <-Zle_Qle).
    assert (Hrr : (0 <= inject_Z r)%Q) by (change 0%Q with (inject_Z 0); rewrite <-Zle_Qle; lia).
    assert (Ediv : (inject_Z r / inject_Z 1000000000 == inject_Z r * Qmake 1 1000000000)%Q) by (change (inject_Z 1000000000) with 1000000000%Q; field).
    rewrite Ediv, (Qabs_pos (inject_Z r * _)) in Hb by lra. apply Qabs_Qle_condition in Hb. unfold eps in *.
    rewrite (Qabs_pos (inject_Z q + fval b)) in Hs by lra. apply Qabs_Qle_condition in Hs. apply Qabs_Qle_condition. rewrite ED. lra.
Qed.

(** *** Floats through a text *)

Definition same_value (x y : float64) : Prop := num x * den y = num y * den x.

(** What an operation of the code yields, below infinity. *)
Record good_float (x : float64) : Prop := {
  gf_rounded : exists n d, 0 < d /\ x = rn n d;
  gf_finite : Z.abs (num x) < 2 ^ 1024 * den x;
}.

Lemma same_value_trans x y z : same_value x y -> same_value y z -> same_value x z.
Proof.
  unfold same_value. intros H1 H2. assert (Hx := den_pos x). assert (Hy := den_pos y). assert (Hz := den_pos z).
  apply (Z.mul_reg_r _ _ (den y)); [lia|]. transitivity (num x * den y * den z); [ring|]. rewrite H1.
  transitivity (num y * den z * den x); [ring|]. rewrite H2. ring.
Qed.

Lemma same_finite x y : same_value y x -> Z.abs (num x) < 2 ^ 1024 * den x -> Z.abs (num y) < 2 ^ 1024 * den y.
Proof.
  unfold same_value. intros E Hs. assert (Hx := den_pos x). assert (Hy := den_pos y).
  assert (Ea : Z.abs (num y) * den x = Z.abs (num x) * den y).
  { assert (Ax := Z.abs_eq (den x) ltac:(lia)). assert (Ay := Z.abs_eq (den y) ltac:(lia)). rewrite <-Ax, <-Ay, <-!Z.abs_mul. by rewrite E. }
  apply (Zmult_lt_reg_r _ _ (den x)); [done|]. rewrite Ea. generalize dependent (2 ^ 1024). intros. nia.
Qed.

Lemma decimalFloat_rounded m k : exists n d, 0 < d /\ decimalFloat m k = rn n d.
Proof.
  unfold decimalFloat. destruct (0 <=? k) eqn:E; [by exists (m * 10 ^ k), 1|]. exists m, (10 ^ (- k)). split; [|done].
  apply Z.leb_gt in E. apply Z.pow_pos_nonneg; lia.
Qed.

Lemma parseDecimal_int n : 0 <= n <= 2 ^ 53 -> parseFloat (FormatInt n) = Ok (of_int n).
Proof.
  intros Hn. unfold FormatInt. rewrite (proj2 (Z.ltb_ge n 0)) by lia. unfold parseFloat. rewrite parseDecimal_whole by lia.
  unfold decimalFloat. cbn [Z.leb Z.compare]. change (10 ^ 0) with 1. rewrite Z.mul_1_r. fold (of_int n).
  assert (En := of_int_exact n ltac:(lia)). assert (Hd := den_pos (of_int n)).
  assert (Hbig : 2 ^ 53 < 2 ^ 1024) by (by apply Z.pow_lt_mono_r).
  rewrite (proj2 (Z.leb_gt _ _)); [done|]. rewrite En, Z.abs_eq by nia. generalize dependent (2 ^ 1024). intros. nia.
Qed.

(** What [roundSeconds] keeps of a duration: the milliseconds. *)
Lemma roundSeconds_close d : 0 <= d < 2 ^ 53 -> exists k, roundSeconds d = fdiv (of_int k) (of_int 1000) /\ 0 <= k < 2 ^ 53 /\
  Z.abs (2000000 * k - 2 * d) <= 1000100.
Proof.
  intros Hd. destruct (Seconds_close d Hd) as [HdS HS]. set (s := Seconds d) in *.
  assert (Hden : den (of_int 1000) < 2 ^ 400) by (eapply Z.le_lt_trans; [apply den_int|by apply Z.pow_lt_mono_r]).
  assert (HD : (0 <= inject_Z d /\ inject_Z d <= 9007199254740992)%Q).
  { change 0%Q with (inject_Z 0). change 9007199254740992%Q with (inject_Z (2 ^ 53)). rewrite <-!Zle_Qle. lia. }
  assert (Hm := fmul_error s (of_int 1000) HdS Hden). rewrite (of_int_value 1000) in Hm by lia. change (inject_Z 1000) with 1000%Q in Hm.
  apply Qabs_Qle_condition in HS. assert (HS0 : (0 <= fval s)%Q) by lra. rewrite (Qabs_pos (fval s * 1000)) in Hm by lra.
  apply Qabs_Qle_condition in Hm. unfold eps in Hm.
  destruct (mathRound_close (fmul s (of_int 1000))) as (k & Ek & Hk0 & Hk); [lra|]. apply Qabs_Qle_condition in Hk.
  exists k. split; [unfold roundSeconds; fold s; by rewrite Ek|].
  assert (Hz : 2000000 * k <= 2 * d + 1000100 /\ 2 * d <= 2000000 * k + 1000100).
  { rewrite !Zle_Qle, !inject_Z_plus, !(inject_Z_mult 2000000), !(inject_Z_mult 2).
    change (inject_Z 2000000) with 2000000%Q. change (inject_Z 2) with 2%Q. change (inject_Z 1000100) with 1000100%Q. split; lra. }
  lia.
Qed.

Lemma duration_back `{FloatHost} d : 0 <= d < 2 ^ 53 ->
  good_float (roundSeconds d) /\ Z.abs (secondsToDuration (roundSeconds d) - d) <= 500100.
Proof.
  intros Hd. destruct (roundSeconds_close d Hd) as (k & -> & Hk & Hclose). set (q := fdiv (of_int k) (of_int 1000)).
  assert (Hnum : 0 < num (of_int 1000) < 2 ^ 60) by (vm_compute; done).
  assert (Hq0 := den_fdiv (of_int k) (of_int 1000) (proj1 Hnum)). fold q in Hq0. assert (Hdk := den_int k). assert (Hdc := den_int 1000000000).
  assert (P1 := den_pos (of_int k)). assert (P2 := den_pos q).
  assert (Hqd : den q < 2 ^ 200) by nia. assert (Hbig : 2 ^ 200 < 2 ^ 400) by (by apply Z.pow_lt_mono_r).
  assert (Hq := fdiv_error (of_int k) (of_int 1000) ltac:(lia) ltac:(lia)). fold q in Hq.
  rewrite (of_int_value k), (of_int_value 1000) in Hq by lia.
  assert (HK : (0 <= inject_Z k /\ inject_Z k <= 9007199256)%Q).
  { change 0%Q with (inject_Z 0). change 9007199256%Q with (inject_Z 9007199256). rewrite <-!Zle_Qle. lia. }
  assert (Ediv : (inject_Z k / inject_Z 1000 == inject_Z k * Qmake 1 1000)%Q) by (change (inject_Z 1000) with 1000%Q; field).
  rewrite Ediv, (Qabs_pos (inject_Z k * _)) in Hq by lra. apply Qabs_Qle_condition in Hq. unfold eps in Hq.
  assert (Hq1 : (0 <= fval q /\ fval q < inject_Z (2 ^ 53))%Q) by (change (inject_Z (2 ^ 53)) with 9007199254740992%Q; lra).
  split.
  - split; [eexists _, _; split; [|reflexivity]; rewrite (Z.abs_eq (num (of_int 1000))) by lia; nia|].
    rewrite Z.abs_eq by (apply fval_nonneg, Hq1). apply (Z.lt_le_trans _ (2 ^ 53 * den q)); [apply fval_below, Hq1|].
    apply Z.mul_le_mono_nonneg_r; [lia|]. by apply Z.pow_le_mono_r.
  - assert (Hp := fmul_error q (of_int 1000000000) ltac:(lia) ltac:(lia)). rewrite (of_int_value 1000000000) in Hp by lia.
    change (inject_Z 1000000000) with 1000000000%Q in Hp. rewrite (Qabs_pos (fval q * 1000000000)) in Hp by lra.
    apply Qabs_Qle_condition in Hp. unfold eps in Hp. unfold secondsToDuration. set (p := fmul q (of_int 1000000000)) in *.
    destruct (trunc_close p) as [T1 T2]; [lra|].
    assert (Hz : trunc p <= 1000000 * k + 30 /\ 1000000 * k <= trunc p + 30).
    { rewrite !Zle_Qle, !inject_Z_plus, !(inject_Z_mult 1000000). change (inject_Z 1000000) with 1000000%Q. change (inject_Z 30) with 30%Q. split; lra. }
    unfold toInt64. rewrite (proj2 (Z.leb_le _ _)), (proj2 (Z.ltb_lt _ _)) by lia. cbn [andb]. lia.
Qed.

Section codec.
Context `{JSONObjects} `{FloatHost}.

Lemma reads_format x : good_float x -> exists y, parseFloat (formatFloat x) = Ok y /\ same_value y x /\ good_float y.
Proof.
  intros [(n & d & Hd & E) Hs]. destruct (parse_format x n d Hd E Hs) as (m & k & Hp & Hv).
  assert (Hf := same_finite x _ Hv Hs). exists (decimalFloat m k). unfold parseFloat. rewrite Hp.
  rewrite (proj2 (Z.leb_gt _ _)) by done. split; [done|]. split; [done|]. split; [apply decimalFloat_rounded|done].
Qed.

Lemma secondsToDuration_same x y : same_value x y -> secondsToDuration x = secondsToDuration y.
Proof.
  intros E. unfold secondsToDuration, fmul. f_equal. assert (Hx := den_pos x). assert (Hy := den_pos y).
  assert (Hc := den_pos (of_int 1000000000)). unfold same_value in E. apply rn_ratio; [nia|nia|].
  transitivity (num x * den y * (num (of_int 1000000000) * den (of_int 1000000000))); [ring|]. rewrite E. ring.
Qed.

(** *** A line is read as it was written *)

(** The object of a record with other texts for its floats. *)
Definition objectWith (r : sessionsJSONLRecord) (t1 t2 t3 : bytes) : object :=
  [(fieldName FEvent, JString (sr_Event r)); (fieldName FTimestamp, JNum (FormatInt (sr_Timestamp r)));
   (fieldName FSessionID, JString (sr_SessionID r)); (fieldName FStartedAt, JNum (FormatInt (sr_StartedAt r)));
   (fieldName FStatus, JString (sr_Status r))] ++
  omitEmpty (fieldName FVersion) (sr_Version r) ++ omitEmpty (fieldName FRef) (sr_Ref r) ++
  omitEmpty (fieldName FBuildType) (sr_BuildType r) ++ omitEmpty (fieldName FJobURL) (sr_JobURL r) ++
  [(fieldName FPreloadBytes, JNum (FormatInt (sr_PreloadBytes r))); (fieldName FPreloadTimeS, JNum t1)] ++
  omitEmpty (fieldName FPreloadSource) (sr_PreloadSource r) ++
  [(fieldName FFinalizeBytes, JNum (FormatInt (sr_FinalizeBytes r))); (fieldName FFinalizeTimeS, JNum t2);
   (fieldName FSessionTimeS, JNum t3)].

Definition withTimes (r : sessionsJSONLRecord) (x y z : float64) : sessionsJSONLRecord :=
  mkRecord (sr_Event r) (sr_Timestamp r) (sr_SessionID r) (sr_StartedAt r) (sr_Status r) (sr_Version r) (sr_Ref r) (sr_BuildType r)
    (sr_JobURL r) (sr_PreloadBytes r) x (sr_PreloadSource r) (sr_FinalizeBytes r) y z.

(** A record that JSON can carry. *)
Record carried (r : sessionsJSONLRecord) : Prop := {
  cr_texts : Forall text_ok [sr_Event r; sr_SessionID r; sr_Status r; sr_Version r; sr_Ref r; sr_BuildType r; sr_JobURL r; sr_PreloadSource r];
  cr_counts : Forall (fun n => 0 <= n <= 2 ^ 53) [sr_Timestamp r; sr_StartedAt r; sr_PreloadBytes r; sr_FinalizeBytes r];
  cr_times : Forall good_float [sr_PreloadTimeS r; sr_FinalizeTimeS r; sr_SessionTimeS r];
  cr_id : sr_SessionID r <> [];
}.

Lemma fieldName_ok f : text_ok (fieldName f).
Proof. apply ascii_ok. destruct f; repeat constructor. Qed.

(** Its fields, in order. *)
Definition omitted {A} (s : bytes) (l : list A) : list A := if bool_decide (s = []) then [] else l.
Definition keyFields (r : sessionsJSONLRecord) : list field :=
  [FEvent; FTimestamp; FSessionID; FStartedAt; FStatus] ++ omitted (sr_Version r) [FVersion] ++ omitted (sr_Ref r) [FRef] ++
  omitted (sr_BuildType r) [FBuildType] ++ omitted (sr_JobURL r) [FJobURL] ++ [FPreloadBytes; FPreloadTimeS] ++
  omitted (sr_PreloadSource r) [FPreloadSource] ++ [FFinalizeBytes; FFinalizeTimeS; FSessionTimeS].

Lemma keyFields_distinct r : NoDup (keyFields r).
Proof.
  assert (Hs : keyFields r `sublist_of` allFields).
  { assert (Ho : forall s (f : field), omitted s [f] `sublist_of` [f]) by (intros s f; unfold omitted; case_bool_decide; [apply sublist_nil_l|done]).
    change allFields with ([FEvent; FTimestamp; FSessionID; FStartedAt; FStatus] ++ [FVersion] ++ [FRef] ++ [FBuildType] ++ [FJobURL] ++
      [FPreloadBytes; FPreloadTimeS] ++ [FPreloadSource] ++ [FFinalizeBytes; FFinalizeTimeS; FSessionTimeS]).
    unfold keyFields. repeat apply sublist_app; try done; apply Ho. }
  eapply sublist_NoDup; [|exact Hs]. apply (bool_decide_unpack _). vm_compute. exact I.
Qed.

Lemma keys_of r t1 t2 t3 : map fst (objectWith r t1 t2 t3) = map fieldName (keyFields r).
Proof.
  assert (Ho : forall f s, map fst (omitEmpty (fieldName f) s) = map fieldName (omitted s [f])) by (intros f s; unfold omitEmpty, omitted; by case_bool_decide).
  unfold objectWith, keyFields. by rewrite !map_app, !Ho.
Qed.

Lemma keys_distinct r t1 t2 t3 : NoDup (map fst (objectWith r t1 t2 t3)) /\ Forall (fun k => is_Some (fieldOf k)) (map fst (objectWith r t1 t2 t3)).
Proof.
  rewrite keys_of. split.
  - apply NoDup_fmap_2; [|apply keyFields_distinct]. intros f g E. apply (f_equal fieldOf) in E. rewrite !fieldOf_name in E. by injection E.
  - apply Forall_forall. intros k (f & -> & _)%list_elem_of_fmap. rewrite fieldOf_name. by eexists.
Qed.

Lemma assignments_omitted f s : valueFor f (JString s) = Ok (Some (VText s)) ->
  assignments (omitEmpty (fieldName f) s) = Ok (omitted s [(f, VText s)]).
Proof. intros Hv. unfold omitEmpty, omitted. case_bool_decide; [done|]. cbn [assignments]. by rewrite fieldOf_name, Hv. Qed.

Lemma store_omitted r f s : store r f (VText []) = r ->
  foldl (fun r a => store r a.1 a.2) r (omitted s [(f, VText s)]) = store r f (VText s).
Proof. intros Hr. unfold omitted. case_bool_decide as E; [|done]. by rewrite E, Hr. Qed.

Lemma assigned r t1 t2 t3 x y z : carried r -> parseFloat t1 = Ok x -> parseFloat t2 = Ok y -> parseFloat t3 = Ok z ->
  exists l, assignments (objectWith r t1 t2 t3) = Ok l /\ map fst l = keyFields r /\ storeAll l = withTimes r x y z.
Proof.
  intros [_ Hc _ _] H1 H2 H3. rewrite !Forall_cons in Hc. destruct Hc as (C1 & C2 & C3 & C4 & _).
  exists ([(FEvent, VText (sr_Event r)); (FTimestamp, VInt (sr_Timestamp r)); (FSessionID, VText (sr_SessionID r));
     (FStartedAt, VInt (sr_StartedAt r)); (FStatus, VText (sr_Status r))] ++ omitted (sr_Version r) [(FVersion, VText (sr_Version r))] ++
    omitted (sr_Ref r) [(FRef, VText (sr_Ref r))] ++ omitted (sr_BuildType r) [(FBuildType, VText (sr_BuildType r))] ++
    omitted (sr_JobURL r) [(FJobURL, VText (sr_JobURL r))] ++ [(FPreloadBytes, VInt (sr_PreloadBytes r)); (FPreloadTimeS, VFloat x)] ++
    omitted (sr_PreloadSource r) [(FPreloadSource, VText (sr_PreloadSource r))] ++
    [(FFinalizeBytes, VInt (sr_FinalizeBytes r)); (FFinalizeTimeS, VFloat y); (FSessionTimeS, VFloat z)]).
  split; [|split].
  - assert (Hi : forall n, 0 <= n <= 2 ^ 53 -> ParseInt (FormatInt n) = Ok n) by (intros n Hn; apply ParseInt_FormatInt; lia).
    assert (Ha : forall o p a b, assignments o = Ok a -> assignments p = Ok b -> assignments (o ++ p) = Ok (a ++ b))
      by (intros o p a b Ho Hp; apply assignments_app; eauto).
    unfold objectWith. repeat apply Ha; try (by apply assignments_omitted); cbn [assignments]; rewrite !fieldOf_name; cbn [valueFor];
      by rewrite ?(Hi _ C1), ?(Hi _ C2), ?(Hi _ C3), ?(Hi _ C4), ?H1, ?H2, ?H3.
  - assert (Ho : forall (f : field) s, map fst (omitted s [(f, VText s)]) = omitted s [f]) by (intros f s; unfold omitted; by case_bool_decide).
    by rewrite !map_app, !Ho.
  - unfold storeAll. rewrite !foldl_app. cbn [foldl fst snd].
    rewrite (store_omitted _ FVersion), (store_omitted _ FRef), (store_omitted _ FBuildType), (store_omitted _ FJobURL), (store_omitted _ FPreloadSource) by done.
    by destruct r.
Qed.

Lemma anyMembers_app o p a b : anyMembers o = Ok a -> anyMembers p = Ok b -> anyMembers (o ++ p) = Ok (a ++ b).
Proof.
  revert a. induction o as [|[k v] o IH]; intros a; cbn [app anyMembers]; [by intros [= <-]|].
  destruct (anyValue v); [|done]. destruct (anyMembers o) as [a'|]; [|done]. intros [= <-] Hb. by rewrite (IH a' eq_refl Hb).
Qed.

Lemma any_omitted k s : anyMembers (omitEmpty k s) = Ok (omitEmpty k s).
Proof. unfold omitEmpty. by case_bool_decide. Qed.

Lemma any_int k n o a : 0 <= n <= 2 ^ 53 -> anyMembers o = Ok a -> anyMembers ((k, JNum (FormatInt n)) :: o) = Ok ((k, JNum (FormatInt n)) :: a).
Proof. intros Hn Ho. cbn [anyMembers anyValue]. rewrite parseDecimal_int, Ho, format_int by lia. done. Qed.

(** Through [any] only the texts of floats change. *)
Lemma any_object r t1 t2 t3 x y z : carried r -> parseFloat t1 = Ok x -> parseFloat t2 = Ok y -> parseFloat t3 = Ok z ->
  anyMembers (objectWith r t1 t2 t3) = Ok (objectWith r (formatFloat x) (formatFloat y) (formatFloat z)).
Proof.
  intros [_ Hc _ _] H1 H2 H3. rewrite !Forall_cons in Hc. destruct Hc as (C1 & C2 & C3 & C4 & _).
  assert (Hf : forall k t x o a, parseFloat t = Ok x -> anyMembers o = Ok a -> anyMembers ((k, JNum t) :: o) = Ok ((k, JNum (formatFloat x)) :: a)).
  { intros k t v o a Ht Ho. cbn [anyMembers anyValue]. by rewrite Ht, Ho. }
  assert (Hs : forall k s o a, anyMembers o = Ok a -> anyMembers ((k, JString s) :: o) = Ok ((k, JString s) :: a)).
  { intros k s o a Ho. cbn [anyMembers anyValue]. by rewrite Ho. }
  unfold objectWith. repeat (apply anyMembers_app || apply any_omitted || (apply any_int; [done|]) || (eapply Hf; [eassumption|]) || apply Hs); done.
Qed.

Lemma object_ok r t1 t2 t3 : carried r -> Forall (fun t => value_ok (JNum t)) [t1; t2; t3] ->
  Forall (fun m => text_ok m.1 /\ value_ok m.2) (objectWith r t1 t2 t3).
Proof.
  intros [Ht _ _ _] Hn. rewrite !Forall_cons in Ht. rewrite !Forall_cons in Hn. destruct Ht as (T1 & T2 & T3 & T4 & T5 & T6 & T7 & T8 & _), Hn as (N1 & N2 & N3 & _).
  assert (Ho : forall f s, text_ok s -> Forall (fun m => text_ok m.1 /\ value_ok m.2) (omitEmpty (fieldName f) s)).
  { intros f s Hs. unfold omitEmpty. case_bool_decide; [constructor|]. constructor; [|constructor]. split; [apply fieldName_ok|by apply string_ok]. }
  unfold objectWith. repeat (apply Forall_app; split); try (by apply Ho);
    repeat (apply Forall_cons; split; [split; [apply fieldName_ok|by (apply string_ok || apply int_ok || idtac)]|]); by apply Forall_nil.
Qed.

(** Extra members that are no fields. *)
Definition plain_extra (extra : gmap bytes jvalue) : Prop :=
  forall k v, extra !! k = Some v -> text_ok k /\ value_ok v /\ fieldOf k = None.

Lemma merged_members (o : object) (extra : gmap bytes jvalue) :
  NoDup (map fst o) -> Forall (fun k => is_Some (fieldOf k)) (map fst o) -> plain_extra extra ->
  map_to_list ((list_to_map o : gmap bytes jvalue) ∪ extra) ≡ₚ o ++ map_to_list extra.
Proof.
  intros Hn Hf He.
  assert (E : (list_to_map o : gmap bytes jvalue) ∪ extra = list_to_map (o ++ map_to_list extra))
    by (by rewrite list_to_map_app, list_to_map_to_list).
  rewrite E. apply map_to_list_to_map. change (NoDup (map fst (o ++ map_to_list extra))). rewrite map_app. apply NoDup_app.
  split; [done|]. split; [|apply NoDup_fst_map_to_list].
  intros k Hk ([k' v] & -> & Hv%elem_of_map_to_list)%list_elem_of_fmap. destruct (He _ _ Hv) as (_ & _ & Hno).
  rewrite Forall_forall in Hf. destruct (Hf _ Hk) as [f Ef]. cbn in *. congruence.
Qed.

Lemma recordLine_encode o l : Forall (fun m => text_ok m.1 /\ value_ok m.2) o -> assignments o = Ok l ->
  sr_SessionID (storeAll l) <> [] -> recordLine (encodeObject o) = Some (storeAll l).
Proof. intros Ho Hl Hid. unfold recordLine, decodeRecord. rewrite decode_encode, Hl by done. by rewrite bool_decide_eq_false_2. Qed.

Lemma line_read r extra : carried r -> plain_extra extra -> exists o x y z,
  lineOf (fieldsOf r) extra = Ok (encodeObject o) /\ recordLine (encodeObject o) = Some (withTimes r x y z) /\
  same_value x (sr_PreloadTimeS r) /\ same_value y (sr_FinalizeTimeS r) /\ same_value z (sr_SessionTimeS r).
Proof.
  intros Hr He. assert (Ht := cr_times _ Hr). rewrite !Forall_cons in Ht. destruct Ht as (G1 & G2 & G3 & _).
  destruct (reads_format _ G1) as (x & P1 & S1 & G1'), (reads_format _ G2) as (y & P2 & S2 & G2'), (reads_format _ G3) as (z & P3 & S3 & G3').
  change (fieldsOf r) with (objectWith r (formatFloat (sr_PreloadTimeS r)) (formatFloat (sr_FinalizeTimeS r)) (formatFloat (sr_SessionTimeS r))).
  assert (Hok : forall a b c, Forall (fun m => text_ok m.1 /\ value_ok m.2) (objectWith r (formatFloat a) (formatFloat b) (formatFloat c))).
  { intros a b c. apply object_ok; [done|]. repeat constructor; apply float_ok. }
  unfold lineOf. case_bool_decide as Hex.
  - destruct (assigned r _ _ _ _ _ _ Hr P1 P2 P3) as (l & Hl & _ & Es). eexists _, x, y, z. split; [reflexivity|].
    split; [|done]. rewrite <-Es. apply recordLine_encode; [apply Hok|done|]. rewrite Es. apply Hr.
  - rewrite (any_object r _ _ _ _ _ _ Hr P1 P2 P3).
    destruct (reads_format _ G1') as (x' & P1' & S1' & _), (reads_format _ G2') as (y' & P2' & S2' & _), (reads_format _ G3') as (z' & P3' & S3' & _).
    set (o := objectWith r (formatFloat x) (formatFloat y) (formatFloat z)).
    destruct (assigned r _ _ _ _ _ _ Hr P1' P2' P3') as (l & Hl & Hk & Es). fold o in Hl.
    destruct (keys_distinct r (formatFloat x) (formatFloat y) (formatFloat z)) as [Hn Hf]. fold o in Hn, Hf.
    assert (Hp := merged_members o extra Hn Hf He). eexists _, x', y', z'. split; [reflexivity|].
    split; [|split_and!; eapply same_value_trans; eassumption]. rewrite <-Es.
    assert (Hall : assignments (o ++ map_to_list extra) = Ok l).
    { apply assignments_app. exists l, []. split; [done|]. split; [|by rewrite app_nil_r]. apply assignments_ignored, Forall_forall.
      intros [k v] Hv%elem_of_map_to_list. apply (He k v Hv). }
    set (s := stable_sort _ _). assert (Hs : o ++ map_to_list extra ≡ₚ s) by (unfold s; by rewrite stable_sort_perm, Hp).
    destruct (assignments_perm _ _ _ Hs Hall) as (l' & Hl' & Hp').
    assert (El : storeAll l = storeAll l') by (apply storeAll_perm; [rewrite Hk; apply keyFields_distinct|done]). rewrite El in *. apply recordLine_encode; [|done|].
    + rewrite <-Hs. apply Forall_app. split; [apply Hok|]. apply Forall_forall. intros [k v] Hv%elem_of_map_to_list.
      destruct (He k v Hv) as (? & ? & _). done.
    + rewrite Es. apply Hr.
Qed.

(** *** The end of the file *)

Definition whole_line (l : bytes) : Prop := (newline ∉ l) /\ dropCR l = l.

Lemma scanned_tail old bs : (old = [] \/ exists y, old = y ++ [newline]) -> Forall whole_line bs ->
  blen (linesOf bs) < sessionsJSONLTailBytes -> exists junk, scannedLines (old ++ linesOf bs) None = junk ++ bs.
Proof.
  intros Hold Hbs Hlen. assert (Hn : Forall (fun b => newline ∉ b) bs) by (eapply Forall_impl; [exact Hbs|by intros ? []]).
  assert (Hcr : map dropCR bs = bs) by (clear -Hbs; induction Hbs as [|b bs [_ Hb] _ IH]; [done|]; cbn; by rewrite Hb, IH).
  unfold scannedLines, sessionsJSONLTailBytes in *. assert (Hl0 := blen_nonneg (linesOf bs)).
  destruct (Z.ltb_spec 500000 (blen (old ++ linesOf bs))) as [Hbig|Hsmall].
  - destruct Hold as [->|[y ->]]; [cbn [app] in Hbig; lia|]. rewrite <-app_assoc in *. cbn [app] in *.
    assert (Hy : blen (y ++ newline :: linesOf bs) = blen y + 1 + blen (linesOf bs)) by (unfold blen; rewrite length_app; cbn [length]; lia).
    assert (Hy0 := blen_nonneg y). set (n := Z.to_nat _). assert (Hn' : (n <= length y)%nat) by (unfold n; rewrite Hy; unfold blen in *; lia).
    rewrite drop_app_le, (proj2 (Z.ltb_lt _ _)) by lia. rewrite ScanLines_short.
    + cbn [fst]. rewrite raw_lines_app, map_app, Hcr by done.
      destruct (split_on newline (drop n y)) as [|l ls] eqn:E; [by destruct (drop n y) as [|c t]; cbn in E; repeat case_match|].
      cbn [map app]. change (drop 1 (dropCR l :: map dropCR ls ++ bs)) with (map dropCR ls ++ bs). eauto.
    + change sessionsJSONLMaxLine with 1048576. unfold blen in *. rewrite length_app, length_drop. cbn [length]. unfold n. lia.
  - change (0 <? 0) with false. cbv iota. change (Z.to_nat 0) with 0%nat. change (drop 0 (old ++ linesOf bs)) with (old ++ linesOf bs).
    rewrite ScanLines_short by (change sessionsJSONLMaxLine with 1048576; lia). cbn [fst].
    destruct Hold as [->|[y ->]].
    + cbn [app]. rewrite raw_lines_all, Hcr by done. by exists [].
    + rewrite <-app_assoc. cbn [app]. rewrite raw_lines_app, map_app, Hcr by done. eauto.
Qed.

(** *** The log of some events *)

Definition eventName (e : sessionEvent) : bytes := match e with Started _ _ => #"started" | DoneEvent _ _ => #"done" end.
Definition eventID (e : sessionEvent) : bytes := match e with Started id _ | DoneEvent id _ => id end.
Definition eventSession (e : sessionEvent) : clientSession := match e with Started _ cs | DoneEvent _ cs => cs end.

(** The file after one more event. *)
Definition logged (path : bytes) (file : option bytes) (e : Z * sessionEvent) : option bytes :=
  appendSessionsJSONL path noAppendFaults file (eventName e.2) (eventID e.2) (eventSession e.2) e.1.

(** A session as it is, with texts that are UTF-8, counters below 2^53 and times below a
    hundred days, and whose extra fields have names of their own. *)
Record loggable (e : Z * sessionEvent) : Prop := {
  lg_id : eventID e.2 <> [];
  lg_texts : Forall text_ok [eventID e.2; cs_Version (eventSession e.2); sessionRef (eventSession e.2); cs_BuildType (eventSession e.2);
    cs_JobURL (eventSession e.2); cs_PreloadSource (eventSession e.2)];
  lg_clock : 0 <= e.1 < 2 ^ 63 /\ 0 <= cs_FirstSeen (eventSession e.2) < 2 ^ 63;
  lg_counts : 0 <= cs_PreloadBytes (eventSession e.2) <= 2 ^ 53 /\ 0 <= cs_FinalizeBytes (eventSession e.2) <= 2 ^ 53;
  lg_times : 0 <= cs_PreloadTime (eventSession e.2) < 2 ^ 53 /\ 0 <= cs_FinalizeTime (eventSession e.2) < 2 ^ 53 /\
    0 <= sessionTime (eventSession e.2) < 2 ^ 53;
  lg_extra : plain_extra (extraOf (eventSession e.2));
}.

Definition reloaded (e : Z * sessionEvent) : clientSession :=
  sessionOf (recordOf (eventName e.2) (eventID e.2) (eventSession e.2) e.1).

Lemma record_carried e : loggable e -> carried (recordOf (eventName e.2) (eventID e.2) (eventSession e.2) e.1).
Proof.
  intros [Hi Ht [Hc1 Hc2] [Hn1 Hn2] (Hd1 & Hd2 & Hd3) _]. rewrite !Forall_cons in Ht. destruct Ht as (T1 & T2 & T3 & T4 & T5 & T6 & _).
  assert (Hu : forall t, 0 <= t < 2 ^ 63 -> 0 <= unix t <= 2 ^ 53).
  { intros t Hr. unfold unix. split; [apply Z.div_pos; lia|]. apply Z.div_le_upper_bound; lia. }
  assert (Hg : forall d, 0 <= d < 2 ^ 53 -> good_float (roundSeconds d)) by (intros d Hd; by destruct (duration_back d Hd)).
  split; [| |rewrite !Forall_cons; split_and!; [by apply Hg..|by apply Forall_nil]|done].
  - assert (Hname : text_ok (eventName e.2)) by (apply ascii_ok; destruct e as [t []]; repeat constructor).
    assert (Hst : text_ok (statusText (eventSession e.2))) by (apply ascii_ok; unfold statusText; destruct (cs_Done _); repeat constructor).
    by repeat constructor.
  - constructor; [by apply Hu|]. constructor; [by apply Hu|]. constructor; [done|]. constructor; [done|]. constructor.
Qed.

Lemma sessionOf_times r x y z : same_value x (sr_PreloadTimeS r) -> same_value y (sr_FinalizeTimeS r) -> sessionOf (withTimes r x y z) = sessionOf r.
Proof.
  intros Hx Hy. unfold sessionOf, withTimes.
  cbn [sr_Version sr_Ref sr_BuildType sr_JobURL sr_PreloadBytes sr_PreloadTimeS sr_PreloadSource sr_FinalizeBytes sr_FinalizeTimeS sr_Status sr_StartedAt sr_Timestamp].
  by rewrite (secondsToDuration_same _ _ Hx), (secondsToDuration_same _ _ Hy).
Qed.

(** What one event leaves in the file, and what is read of it. *)
Definition line_of (e : Z * sessionEvent) (line : bytes) : Prop :=
  whole_line line /\ forall m, loadLine m line = <[eventID e.2 := reloaded e]> m.

Lemma logged_line path e : path <> [] -> loggable e -> exists line, line_of e line /\
  forall file, logged path file e = Some (default [] file ++ line ++ [newline]).
Proof.
  intros Hp Hl. assert (Hc := record_carried e Hl). destruct (line_read _ _ Hc (lg_extra _ Hl)) as (o & x & y & z & Ho & Hr & Sx & Sy & _).
  exists (encodeObject o). split; [split; [split|]|].
  - apply encode_line.
  - unfold dropCR. rewrite encode_end. by rewrite bool_decide_eq_false_2.
  - intros m. unfold loadLine. rewrite Hr, (sessionOf_times _ _ _ _ Sx Sy). reflexivity.
  - intros file. unfold logged, appendSessionsJSONL, appendJSONLLine. rewrite bool_decide_eq_false_2, Ho by done. done.
Qed.

Lemma logged_lines path old evs : path <> [] -> Forall loggable evs -> exists lines, Forall2 line_of evs lines /\
  (evs = [] \/ foldl (logged path) old evs = Some (default [] old ++ linesOf lines)).
Proof.
  intros Hp Hl. induction evs as [|e evs IH] using rev_ind; [exists []; split; [constructor|by left]|].
  apply Forall_app in Hl as [Hl [He _]%Forall_cons]. destruct (IH Hl) as (lines & Hf & Hd).
  destruct (logged_line path e Hp He) as (line & Hline & Hfile). exists (lines ++ [line]). split; [apply Forall2_app; [done|constructor; [done|constructor]]|].
  right. rewrite foldl_app. cbn [foldl]. rewrite Hfile, linesOf_snoc. destruct Hd as [->| ->]; [|cbn; by rewrite <-!app_assoc].
  by apply Forall2_nil_inv_l in Hf as ->.
Qed.

Lemma loaded_lines evs lines m sid : Forall2 line_of evs lines ->
  foldl loadLine m lines !! sid =
    match last (filter (fun e => eventID e.2 = sid) evs) with Some e => Some (reloaded e) | None => m !! sid end.
Proof.
  intros Hf. revert m. induction Hf as [|e line evs lines [_ He] _ IH]; intros m; [done|]. cbn [foldl]. rewrite IH, He, filter_cons.
  case_decide as Hs; [|by rewrite lookup_insert_ne]. rewrite last_cons. destruct (last _); [done|]. by rewrite Hs, lookup_insert_eq.
Qed.

(** C21: the log brings the sessions back.  When the server starts again, every session of
    which something was logged within the last half megabyte -- all that is read of the
    log, however long it is -- is there as its last event left it, unless it has expired:
    with its version, label, build type, URL, counters and status, with its times to the
    second and its durations to the millisecond.  What a client reported on top has names
    of its own: none is, in any case of its letters, the name of a field of the record
    ([plain_extra]; with others the record is lost or changed, [extra_hides_a_session]
    and [extra_takes_the_place_of_a_field]). *)
Theorem log_brings_sessions_back path old evs data now sid e
    (Hpath : path <> []) (Hold : default [] old = [] \/ exists y, default [] old = y ++ [newline])
    (Hlog : Forall loggable evs) (Hdata : foldl (logged path) old evs = Some data)
    (Hsize : blen data - blen (default [] old) < sessionsJSONLTailBytes)
    (Hlast : last (filter (fun e => eventID e.2 = sid) evs) = Some e) :
  let cs := eventSession e.2 in
  exists cs', loadRecentSessions path (Ok data) (mkLoadFaults None None) now ∅ !! sid = (if sessionExpired cs' now then None else Some cs') /\
    cs_Version cs' = cs_Version cs /\ sessionRef cs' = sessionRef cs /\ cs_BuildType cs' = cs_BuildType cs /\ cs_JobURL cs' = cs_JobURL cs /\
    cs_PreloadBytes cs' = cs_PreloadBytes cs /\ cs_PreloadSource cs' = cs_PreloadSource cs /\ cs_FinalizeBytes cs' = cs_FinalizeBytes cs /\
    Z.abs (cs_PreloadTime cs' - cs_PreloadTime cs) <= 500100 /\ Z.abs (cs_FinalizeTime cs' - cs_FinalizeTime cs) <= 500100 /\
    cs_Done cs' = cs_Done cs /\ cs_FirstSeen cs' <= cs_FirstSeen cs < cs_FirstSeen cs' + 1000000000 /\
    cs_LastSeen cs' <= e.1 < cs_LastSeen cs' + 1000000000 /\ (cs_Done cs = true -> cs_DoneAt cs' = cs_LastSeen cs').
Proof.
  destruct (logged_lines path old evs Hpath Hlog) as (lines & Hf & Hd). destruct Hd as [->|Hd]; [done|]. rewrite Hd in Hdata. injection Hdata as <-.
  assert (Hw : Forall whole_line lines).
  { apply Forall_forall. intros l Hl. apply list_elem_of_lookup in Hl as [i Hi]. destruct (Forall2_lookup_r _ _ _ _ _ Hf Hi) as (? & _ & [? _]). done. }
  rewrite blen_app' in Hsize. destruct (scanned_tail (default [] old) lines Hold Hw ltac:(lia)) as (junk & Hs).
  assert (He : e ∈ evs) by (apply last_Some_elem_of in Hlast; by apply list_elem_of_filter in Hlast as [_ ?]).
  rewrite Forall_forall in Hlog. destruct (Hlog e He) as [_ _ _ _ (Hd1 & Hd2 & _) _].
  intros cs. exists (reloaded e). split.
  - unfold loadRecentSessions. rewrite bool_decide_eq_false_2 by done. cbn [lf_seek lf_read]. rewrite Hs, foldl_app, map_union_empty.
    rewrite map_lookup_filter, (loaded_lines evs lines _ sid Hf), Hlast. cbn [mbind option_bind].
    destruct (sessionExpired (reloaded e) now) eqn:Ex; [rewrite option_guard_False|rewrite option_guard_True]; cbn [snd]; rewrite ?Ex; done.
  - unfold reloaded, sessionOf. fold cs. cbn [recordOf sr_Version sr_Ref sr_BuildType sr_JobURL sr_PreloadBytes sr_PreloadTimeS sr_PreloadSource
      sr_FinalizeBytes sr_FinalizeTimeS sr_Status sr_StartedAt sr_Timestamp cs_Version cs_BuildType cs_JobURL cs_PreloadBytes cs_PreloadTime
      cs_PreloadSource cs_FinalizeBytes cs_FinalizeTime cs_Done cs_FirstSeen cs_LastSeen cs_DoneAt].
    assert (Hdone : bool_decide (statusText cs = #"done") = cs_Done cs) by (unfold statusText; by destruct (cs_Done cs)).
    assert (Hu : forall t, fromUnix (unix t) <= t < fromUnix (unix t) + 1000000000).
    { intros t. unfold fromUnix, unix. assert (Hm := Z.mod_pos_bound t 1000000000 ltac:(lia)). assert (Hdm := Z.div_mod t 1000000000 ltac:(lia)). lia. }
    rewrite Hdone. split_and!; try done; try apply duration_back; try done; try apply Hu.
    + clear Hdone. unfold sessionRef at 1. cbn [cs_ChangesID cs_Commit sr_Ref]. by case_bool_decide as Hr; [rewrite Hr|].
    + by intros ->.
Qed.
End codec.

(** ** Examples *)

(** A codec: every member with its texts in letters, a comma after each, and a brace. *)
Section letters.
Definition lettersOf (c : ascii) : bytes := [ascii_of_nat (97 + nat_of_ascii c / 16); ascii_of_nat (97 + nat_of_ascii c mod 16)].
Definition letters (s : bytes) : bytes := s ≫= lettersOf.
Fixpoint unletters (s : bytes) : option bytes :=
  match s with
  | [] => Some []
  | a :: b :: s => (ascii_of_nat ((nat_of_ascii a - 97) * 16 + (nat_of_ascii b - 97)) ::.) <$> unletters s
  | _ => None
  end.

Definition valueText (v : jvalue) : bytes :=
  match v with
  | JString s => "s"%char :: letters s
  | JNum s => "n"%char :: letters s
  | JNull => #"z"
  | JRaw s => "r"%char :: letters s
  end.
Definition readValue (b : bytes) : option jvalue :=
  match b with
  | c :: t =>
      if bool_decide (c = "s"%char) then JString <$> unletters t
      else if bool_decide (c = "n"%char) then JNum <$> unletters t
      else if bool_decide (c = "r"%char) then JRaw <$> unletters t
      else Some JNull
  | [] => None
  end.
Definition memberText (m : bytes * jvalue) : bytes := letters m.1 ++ #":" ++ valueText m.2.
Definition readMember (b : bytes) : option (bytes * jvalue) :=
  match split_on ":"%char b with
  | [k; v] => match unletters k, readValue v with Some k, Some v => Some (k, v) | _, _ => None end
  | _ => None
  end.
Definition objectText (o : object) : bytes := concat (map (fun m => memberText m ++ #",") o) ++ #"}".
Fixpoint readMembers (l : list bytes) : option object :=
  match l with
  | [] => None
  | [b] => if bool_decide (b = #"}") then Some [] else None
  | b :: l => match readMember b, readMembers l with Some m, Some o => Some (m :: o) | _, _ => None end
  end.
Definition readObject (b : bytes) : option object := readMembers (split_on ","%char b).

Lemma nibbles c : (nat_of_ascii c / 16 < 16)%nat /\ (nat_of_ascii c mod 16 < 16)%nat.
Proof.
  assert (H := nat_ascii_bounded c). split; [apply Nat.Div0.div_lt_upper_bound; lia|]. by apply Nat.mod_upper_bound.
Qed.

Lemma letter_cases c x : x ∈ lettersOf c -> (97 <= nat_of_ascii x < 113)%nat.
Proof.
  destruct (nibbles c) as [H1 H2]. unfold lettersOf.
  intros [->|[->|[]%not_elem_of_nil]%elem_of_cons]%elem_of_cons; rewrite nat_ascii_embedding by lia; lia.
Qed.

Lemma letters_only s x : x ∈ letters s -> (97 <= nat_of_ascii x < 113)%nat.
Proof. intros (c & Hx & _)%list_elem_of_bind. by eapply letter_cases. Qed.

Lemma unletters_letters s : unletters (letters s) = Some s.
Proof.
  induction s as [|c s IH]; [done|]. change (letters (c :: s)) with (lettersOf c ++ letters s). cbn [lettersOf app unletters]. rewrite IH. unfold fmap, option_fmap, option_map.
  destruct (nibbles c) as [H1 H2]. rewrite !nat_ascii_embedding by lia. do 2 f_equal. rewrite <-(ascii_nat_embedding c) at 3. f_equal.
  assert (Hd := Nat.div_mod (nat_of_ascii c) 16 ltac:(lia)). lia.
Qed.

Lemma letters_free s x : (nat_of_ascii x < 97)%nat -> x ∉ letters s.
Proof. intros Hx H%letters_only. lia. Qed.

Lemma value_free v x : (nat_of_ascii x < 97)%nat -> x ∉ valueText v.
Proof.
  intros Hx. assert (Hc : forall c s, (97 <= nat_of_ascii c)%nat -> x ∉ c :: letters s).
  { intros c s Hc. rewrite not_elem_of_cons. split; [intros ->; lia|by apply letters_free]. }
  destruct v; [apply Hc|apply Hc|apply (Hc "z"%char [])|apply Hc]; apply Nat.leb_le; vm_compute; reflexivity.
Qed.

Lemma text_free m x : (nat_of_ascii x < 97)%nat -> x <> ":"%char -> x ∉ memberText m.
Proof.
  intros Hx Hc. unfold memberText. rewrite !not_elem_of_app. split; [by apply letters_free|]. split; [|by apply value_free].
  change (x ∉ [":"%char]). by rewrite list_elem_of_singleton.
Qed.

Lemma readMember_text m : readMember (memberText m) = Some m.
Proof.
  destruct m as [k v]. unfold readMember. change (memberText (k, v)) with (letters k ++ ":"%char :: valueText v).
  assert (Hc : (nat_of_ascii ":" < 97)%nat) by (apply Nat.ltb_lt; vm_compute; reflexivity).
  rewrite split_on_app, split_on_no_sep, unletters_letters by (by apply letters_free || by apply value_free).
  destruct v; cbn [readValue valueText]; [| |reflexivity|].
  - rewrite bool_decide_eq_true_2, unletters_letters by done. done.
  - rewrite bool_decide_eq_false_2, bool_decide_eq_true_2, unletters_letters by done. done.
  - rewrite !bool_decide_eq_false_2, bool_decide_eq_true_2, unletters_letters by done. done.
Qed.

Lemma objectText_cons m o : objectText (m :: o) = memberText m ++ ","%char :: objectText o.
Proof. unfold objectText. cbn [map concat]. by rewrite <-!app_assoc. Qed.

Lemma readObject_text o : readObject (objectText o) = Some o.
Proof.
  unfold readObject. induction o as [|m o IH]; [done|]. rewrite objectText_cons.
  rewrite split_on_app by (apply text_free; [apply Nat.ltb_lt; vm_compute; reflexivity|done]).
  destruct (split_on _ _) as [|b l] eqn:E; [done|]. 
  change (readMembers (memberText m :: b :: l)) with
    (match readMember (memberText m), readMembers (b :: l) with Some m, Some o => Some (m :: o) | _, _ => None end).
  by rewrite readMember_text, IH.
Qed.

(** An exact decimal text: of an integer its digits, of another float all of its digits. *)
Definition exactText (x : float64) : bytes :=
  if num x mod den x =? 0 then FormatInt (num x / den x)
  else FormatInt (num x * 5 ^ (- fl_exp x)) ++ #"e-" ++ itoa (- fl_exp x).

Lemma parse_signed m t e : parseExponent t = Some e -> (match t with c :: _ => is_digit c = false /\ c <> "."%char | [] => True end) ->
  parseDecimal (FormatInt m ++ t) = Some (m, e).
Proof.
  intros He Ht. assert (Hdot : is_char "."%char t = None).
  { destruct t as [|c t]; [done|]. cbn. by rewrite bool_decide_eq_false_2 by apply Ht. }
  assert (Hspan : forall n, 0 <= n -> span_digits (itoa n ++ t) = (itoa n, t) /\ itoa n <> []).
  { intros n Hn. destruct (itoa_digits n Hn) as [Hd Hne]. split; [|done]. apply span_digits_app; [done|]. destruct t; [done|apply Ht]. }
  unfold FormatInt, parseDecimal. destruct (Z.ltb_spec m 0) as [Hm|Hm].
  - destruct (Hspan (- m) ltac:(lia)) as [Hs Hne]. rewrite <-app_assoc.
    change (span_sign (#"-" ++ itoa (- m) ++ t)) with (true, itoa (- m) ++ t). cbv beta iota zeta. rewrite Hs, Hdot, app_nil_r, bool_decide_eq_false_2, He, itoa_value by (done || lia). cbn [length]. do 2 f_equal; lia.
  - destruct (Hspan m Hm) as [Hs Hne]. rewrite span_sign_digits by (by apply itoa_head).
    rewrite Hs, Hdot, app_nil_r, bool_decide_eq_false_2, He, itoa_value by (done || lia). cbn [length]. do 2 f_equal; lia.
Qed.

Lemma exactText_reads x n d : 0 < d -> x = rn n d -> Z.abs (num x) < 2 ^ 1024 * den x ->
  exists m k, parseDecimal (exactText x) = Some (m, k) /\ num (decimalFloat m k) * den x = num x * den (decimalFloat m k).
Proof.
  intros Hd -> _. destruct (rn_mant n d Hd) as [Hm He]. set (x := rn n d) in *. clearbody x. assert (Hx := den_pos x).
  assert (Hsame : num (rn (num x) (den x)) * den x = num x * den (rn (num x) (den x))).
  { apply (rn_exact _ _ (fl_mant x) (fl_exp x)); [done..|]. unfold num, den. ring. }
  unfold exactText. destruct (Z.eqb_spec (num x mod den x) 0) as [E|E].
  - exists (num x / den x), 0. split; [rewrite <-(app_nil_r (FormatInt _)); by apply parse_signed|].
    unfold decimalFloat. change (0 <=? 0) with true. cbv iota. change (10 ^ 0) with 1. rewrite Z.mul_1_r.
    rewrite (rn_ratio _ 1 (num x) (den x)); [done|lia|done|]. assert (Hdm := Z.div_mod (num x) (den x) ltac:(lia)). lia.
  - assert (Hneg : fl_exp x < 0).
    { apply Z.nle_gt. intros Hge. apply E. unfold den. rewrite pos2_le by lia. apply Z.mod_1_r. }
    exists (num x * 5 ^ (- fl_exp x)), (- - fl_exp x). split.
    + apply parse_signed; [|split; [reflexivity|discriminate]]. change (#"e-" ++ itoa (- fl_exp x)) with ("e"%char :: "-"%char :: itoa (- fl_exp x)). cbn [parseExponent].
      rewrite bool_decide_eq_true_2 by (by left). change (span_sign ("-"%char :: itoa (- fl_exp x))) with (true, itoa (- fl_exp x)).
      cbv beta iota zeta. by rewrite parse_itoa by lia.
    + unfold decimalFloat. rewrite Z.opp_involutive, (proj2 (Z.leb_gt _ _)) by lia.
      rewrite (rn_ratio _ _ (num x) (den x)); [done|apply Z.pow_pos_nonneg; lia|done|].
      unfold den at 1. rewrite pos2_ge by lia. change 10 with (5 * 2). rewrite Z.pow_mul_l. ring.
Qed.

Lemma exactText_int n : Z.abs n <= 2 ^ 53 -> exactText (of_int n) = FormatInt n.
Proof.
  intros Hn. assert (E := of_int_exact n Hn). assert (Hd := den_pos (of_int n)). unfold exactText.
  by rewrite E, Z.mod_mul, Z.div_mul by lia.
Qed.

Lemma objectText_end o : last (objectText o) = Some "}"%char.
Proof. unfold objectText. apply last_snoc. Qed.

Lemma objectText_line o : newline ∉ objectText o.
Proof.
  induction o as [|m o IH]; [change (newline ∉ ["}"%char]); by rewrite list_elem_of_singleton|].
  rewrite objectText_cons, not_elem_of_app, not_elem_of_cons. split; [|done].
  apply text_free; [apply Nat.ltb_lt; vm_compute; reflexivity|done].
Qed.

Definition letterObjects : JSONObjects := {|
  encodeObject := objectText; decodeObject := readObject; formatFloat := exactText;
  text_ok _ := True; value_ok _ := True;
  decode_encode o _ := readObject_text o; encode_line := objectText_line; encode_end := objectText_end;
  ascii_ok _ _ := I; string_ok _ _ := I; int_ok _ := I; float_ok _ := I;
  parse_format := exactText_reads; format_int := exactText_int
|}.
End letters.

(** The nanosecond that the conversion to an integer cuts off. *)
Example a_nanosecond_is_lost : @secondsToDuration amd64 (roundSeconds 1001000000) = 1000999999.
Proof. vm_compute. reflexivity. Qed.

Section examples.
Let J := letterObjects.

Definition aDone (version : bytes) (extra : option bytes) : clientSession :=
  mkClientSession version [] #"c1" #"unit" [] 1000 1500000000 #"base" 2000 700000000 true 60000000000 90000000000 100000000000 extra.
Definition theEnd (cs : clientSession) : Z * sessionEvent := (100000000000, DoneEvent #"s1" cs).
Definition twoEvents : list (Z * sessionEvent) :=
  [(60000000000, Started #"s1" (newSession 60000000000));
   theEnd (aDone #"v1" (Some (objectText [(#"mode", JString #"shim"); (#"lines", JNum #"12")])))].

(** An extra field with the name of one that was omitted takes its place; if it is no
    string, the line is not read at all, and the session is gone. *)
Definition restarted (e : Z * sessionEvent) : Sessions :=
  match @logged J #"log" None e with
  | Some data => @loadRecentSessions J amd64 #"log" (Ok data) (mkLoadFaults None None) 101000000000 ∅
  | None => ∅
  end.

Lemma extra_takes_the_place_of_a_field :
  cs_Version <$> (restarted (theEnd (aDone [] (Some (objectText [(#"version", JString #"9")])))) !! #"s1") = Some #"9".
Proof. vm_compute. reflexivity. Qed.

Lemma extra_hides_a_session : restarted (theEnd (aDone [] (Some (objectText [(#"version", JNum #"9")])))) !! #"s1" = None.
Proof. vm_compute. reflexivity. Qed.

Lemma plain_extra_check extra : forallb (fun m => bool_decide (fieldOf m.1 = None)) (map_to_list extra) = true -> @plain_extra J extra.
Proof.
  intros Hf k v Hk. split; [exact I|]. split; [exact I|]. rewrite forallb_forall in Hf.
  apply elem_of_map_to_list, list_elem_of_In in Hk. specialize (Hf _ Hk). by apply bool_decide_eq_true in Hf.
Qed.

Lemma log_brings_sessions_back_witness :
  exists data cs', foldl (@logged J #"log") None twoEvents = Some data /\
    @loadRecentSessions J amd64 #"log" (Ok data) (mkLoadFaults None None) 101000000000 ∅ !! #"s1" =
      (if sessionExpired cs' 101000000000 then None else Some cs') /\
    cs_Version cs' = #"v1" /\ sessionRef cs' = #"c1" /\ Z.abs (cs_PreloadTime cs' - 1500000000) <= 500100.
Proof.
  destruct (foldl (@logged J #"log") None twoEvents) as [data|] eqn:E; [|vm_compute in E; discriminate E].
  destruct (@log_brings_sessions_back J amd64 #"log" None twoEvents data 101000000000 #"s1" (theEnd (aDone #"v1" (Some (objectText [(#"mode", JString #"shim"); (#"lines", JNum #"12")])))))
    as (cs' & H1 & H2 & H3 & _ & _ & _ & _ & _ & H4 & _).
  - discriminate.
  - by left.
  - assert (Hx : forall e, In e twoEvents -> @plain_extra J (@extraOf J (eventSession e.2)))
      by (intros e [<-|[<-|[]]]; apply plain_extra_check; vm_compute; reflexivity).
    clear E. constructor; [|constructor; [|constructor]];
      (split; [discriminate|repeat constructor|repeat split; (apply Z.leb_le || apply Z.ltb_lt); vm_compute; reflexivity..|apply Hx; simpl; tauto]).
  - exact E.
  - assert (Es : option_map blen (foldl (@logged J #"log") None twoEvents) = Some 980) by (vm_compute; reflexivity).
    rewrite E in Es. injection Es as Es. cbn [default]. change (blen []) with 0. rewrite Es. vm_compute. reflexivity.
  - vm_compute. reflexivity.
  - exists data, cs'. split; [reflexivity|]. split; [exact H1|]. split; [exact H2|]. split; [exact H3|exact H4].
Defined.
End examples.
