(* ===== verification/StatusPage.v ===== *)
(** What a person sees of a server and may do with it: the status page and the archive of
    sessions behind a password (src/internal/http/index.go, sessions_jsonl.go) and the same
    figures as JSON (status.go).  The page is the data that its template gets. *)
From S2P Require Import Prelude.
From S2P Require Import GoStrings.
From S2P Require Import GoPath.
From S2P Require Import Wire.
From S2P Require Import HttpNet.
From S2P Require Import ByteSizes.
From S2P Require Import Settings.
From S2P Require GoCacheStore.
From S2P Require LocalStore.
From S2P Require LocalServe.
From S2P Require Import HttpServer.
Open Scope Z_scope.

(** ** Figures *)

Definition FormatBool (b : bool) : bytes := if b then #"true" else #"false".

(** [Store.Stats] of the two stores. *)
Definition actionStats (cf : LocalStore.Config) (s : LocalStore.Store) : gmap bytes bytes :=
  let c := LocalStore.counters s in
  list_to_map [
    (#"hits", FormatInt (LocalStore.hits c));
    (#"misses", FormatInt (LocalStore.misses c));
    (#"puts", FormatInt (LocalStore.puts c));
    (#"putsExist", FormatInt (LocalStore.putsExist c));
    (#"putsCompleted", FormatInt (LocalStore.putsCompleted c));
    (#"index", FormatInt (Z.of_nat (size (LocalStore.index s))));
    (#"diskBytes", FormatInt (LocalStore.currentDiskBytes (LocalStore.outputs s)));
    (#"maxDiskBytes", FormatInt (LocalStore.cf_maxDiskBytes cf));
    (#"uniqueOutputFiles", FormatInt (Z.of_nat (size (LocalStore.outputRefs (LocalStore.outputs s)))));
    (#"evictionScheduled", FormatBool (LocalStore.evictionScheduled s));
    (#"errors", FormatInt (LocalStore.errors c))].

Definition objectStats (cf : GoCacheStore.Config) (s : GoCacheStore.Store) : gmap bytes bytes :=
  list_to_map [
    (#"hits", FormatInt (GoCacheStore.hits s));
    (#"puts", FormatInt (GoCacheStore.puts s));
    (#"putsExist", FormatInt (GoCacheStore.putsExist s));
    (#"index", FormatInt (Z.of_nat (size (GoCacheStore.index s))));
    (#"diskBytes", FormatInt (GoCacheStore.currentDiskBytes s));
    (#"maxDiskBytes", FormatInt (GoCacheStore.cf_maxDiskBytes cf));
    (#"evictionScheduled", FormatBool (GoCacheStore.evictionScheduled s));
    (#"errors", FormatInt (GoCacheStore.errors s))].

(** What a store offers to an operator. *)
Class AdminStore (S : Type) := { Stats : S -> gmap bytes bytes; EvictNow : S -> S }.

Definition actionAdmin (cf : LocalStore.Config) (range : gmap bytes LocalStore.indexEntry -> list bytes) : AdminStore LocalStore.Store :=
  {| Stats := actionStats cf; EvictNow := LocalStore.EvictNow cf range |}.
Definition objectAdmin (cf : GoCacheStore.Config) : AdminStore GoCacheStore.Store :=
  {| Stats := objectStats cf; EvictNow := GoCacheStore.EvictNow cf |}.

(** [Handler.Stats]. *)
Record PreloadCounters := mkPreloads { pc_inFlight : Z; pc_started : Z; pc_completed : Z; pc_limit : Z }.
Definition handlerStats (c : PreloadCounters) (p : Panics) : gmap bytes bytes :=
  list_to_map [
    (#"preloadInFlight", FormatInt (pc_inFlight c));
    (#"preloadStarted", FormatInt (pc_started c));
    (#"preloadCompleted", FormatInt (pc_completed c));
    (#"preloadLimit", FormatInt (pc_limit c));
    (#"panics", FormatInt (panicCount p))].

(** [augmentStatusStats]. *)
Definition augmentStatusStats (stats : gmap bytes bytes) : gmap bytes bytes :=
  let stats := match stats !! #"diskBytes" with
               | Some v =>
                   let stats := match ParseInt v with Ok n => <[#"storage" := byteSize n]> stats | Err _ => stats end in
                   delete #"diskBytes" stats
               | None => stats
               end in
  delete #"maxDiskBytes" stats.

Definition uint64ToInt64 (v : Z) : Z := if 2 ^ 63 - 1 <? v then 2 ^ 63 - 1 else v.

(** [toSection]: a title and the rows in the order of their keys. *)
Record statSection := mkSection { st_Title : bytes; st_Rows : list (bytes * bytes) }.
Definition toSection (title : bytes) (stats : gmap bytes bytes) : statSection :=
  let stats := augmentStatusStats stats in
  mkSection title (map (fun k => (k, default [] (stats !! k))) (stable_sort bytes_lt (map fst (map_to_list stats)))).

(** ** Overrides *)

Record overrideRow := mkRow { or_BuildType : bytes; or_MaxPreloadTotalBytes : bytes; or_MaxFileBytes : bytes }.

(** A cell: the value as a size, or a dash. *)
Definition cell (m : gmap bytes Z) (bt : bytes) : bytes := match m !! bt with Some v => byteSize v | None => #"-" end.

Definition buildOverrideRows (preload maxFile : gmap bytes Z) : list overrideRow :=
  let buildTypes : gset bytes := dom preload ∪ dom maxFile in
  let names := stable_sort bytes_lt (elements buildTypes) in
  map (fun bt => mkRow bt (cell preload bt) (cell maxFile bt)) names.

(** ** Sessions *)

Definition hash : bytes := #"#".

(** [strconv.Atoi] of the number after the mark. *)
Definition prNumberFromRef (ref : bytes) : bytes :=
  let '(repo, num, ok) := Cut ref hash in
  if negb ok || negb (Contains repo #"/") || bool_decide (num = []) then []
  else match ParseInt num with Ok _ => num | Err _ => [] end.

Definition jobURLWithPR (jobURL ref : bytes) : bytes :=
  if bool_decide (jobURL = []) then []
  else
    let num := prNumberFromRef ref in
    if bool_decide (num = []) then jobURL
    else jobURL ++ (if Contains jobURL #"?" then #"&" else #"?") ++ #"pr=" ++ num.

(** [time.Duration.Round]: half away from zero, and no overflow. *)
Definition roundDuration (d m : Z) : Z :=
  let r := Z.rem d m in
  if d <? 0 then
    if - r + - r <? m then d - r else Z.max (- 2 ^ 63) (d - (m + r))
  else
    if r + r <? m then d - r else Z.min (2 ^ 63 - 1) (d + (m - r)).

Record sessionRow := mkSessionRow {
  sw_Status : bytes;
  sw_Version : bytes;
  sw_Ref : bytes;
  sw_JobURL : bytes;
  sw_BuildType : bytes;
  sw_StartedAt : bytes;
  sw_PreloadSize : bytes;
  sw_PreloadSource : bytes;
  sw_PreloadTime : bytes;
  sw_FinalizeSize : bytes;
  sw_FinalizeTime : bytes;
  sw_SessionTime : bytes;
}.

Definition statusName (st : sessionStatus) : bytes :=
  match st with DoneStatus => #"done" | InProgress => #"in progress" | Idle => #"idle" end.

Section rows.
Context (timeText : Z -> bytes) (DurationString : Z -> bytes).

Definition sessionRowOf (v : clientSessionView) : sessionRow :=
  let cs := vw_session v in
  mkSessionRow (statusName (vw_Status v)) (cs_Version cs) (vw_Ref v) (jobURLWithPR (cs_JobURL cs) (vw_Ref v)) (cs_BuildType cs)
    (timeText (cs_FirstSeen cs)) (byteSize (cs_PreloadBytes cs)) (cs_PreloadSource cs)
    (DurationString (roundDuration (cs_PreloadTime cs) 1000000)) (byteSize (cs_FinalizeBytes cs))
    (DurationString (roundDuration (cs_FinalizeTime cs) 1000000)) (DurationString (roundDuration (vw_SessionTime v) 1000000000)).
End rows.

(** ** The password *)

(** [basicAuthorized] on the user and the password that the request has, if any. *)
Definition basicAuthorized (h : Auth) (basicAuth : option (bytes * bytes)) : bool :=
  if bool_decide (authToken h = []) then true
  else match basicAuth with
       | None => false
       | Some (_, pass) =>
           bool_decide (pass = authToken h) || (negb (bool_decide (fallbackAuthToken h = [])) && bool_decide (pass = fallbackAuthToken h))
       end.

(** ** The pages *)

Record pageData := mkPage {
  pd_ServerVersion : bytes;
  pd_ServerVersionURL : bytes;
  pd_HeapInUse : bytes;
  pd_CombinedBudget : bytes;
  pd_Panics : Z * bytes * bytes;
  pd_Sections : list statSection;
  pd_Overrides : list overrideRow;
  pd_Sessions : list sessionRow;
  pd_SessionsJSONL : bool;
}.

Inductive pageReply :=
  | AskForPassword
  | Refused (code : Z)
  | SeeOther (path : bytes)
  | Page (p : pageData)
  | File (data : bytes).

(** A request for a page: the fields of its form are what [FormValue] finds. *)
Record PageRequest := mkPageRequest { pr_path : bytes; pr_basic : option (bytes * bytes); pr_method : Method; pr_form : Query }.

Section pages.
Context {A B : Type} `{DiskBudgetStore A} `{DiskBudgetStore B} `{AdminStore A} `{AdminStore B} `{SliceSort}.
Context `{JSON serverSettings} (timeText : Z -> bytes) (DurationString : Z -> bytes) (serverVersion : bytes).

(** The handler with its settings, and the archive of its sessions. *)
Record Site := mkSite { si_server : HttpServer A B; si_settings : Handler; si_logPath : bytes; si_log : option bytes }.

Definition with_server (s : Site) (h : HttpServer A B) : Site := mkSite h (si_settings s) (si_logPath s) (si_log s).
Definition with_settings (s : Site) (h : Handler) : Site := mkSite (si_server s) h (si_logPath s) (si_log s).

(** [applyOverrideForm]. *)
Definition applyOverrideForm (k : setting) (h : Handler) (form : Query) (flt : option goerr) : Handler * pageReply :=
  let buildType := TrimSpace (getParam form #"build-type") in
  if bool_decide (buildType = []) then (h, Refused 400)
  else
    let raw := TrimSpace (getParam form #"bytes") in
    match (if bool_decide (raw = []) then Ok 0 else ParseInt raw) with
    | Err _ => (h, Refused 400)
    | Ok n =>
        match setBuildTypeInt64 k h buildType n flt with
        | (h, Err _) => (h, Refused 500)
        | (h, Ok _) => (h, SeeOther #"/")
        end
    end.

(** The cleanup: both stores to their own limits, then to the one they share. *)
Definition cleanup (max : Z) (w : Stores A B) : Stores A B :=
  enforceCombinedBudget max (mkStores (EvictNow <$> store w) (EvictNow <$> gocacheStore w)).

Definition sectionOf {S} `{AdminStore S} (title : bytes) (s : option S) : list statSection :=
  match s with
  | Some s => if bool_decide (Stats s !! #"index" = Some #"0") then [] else [toSection title (Stats s)]
  | None => []
  end.

Definition versionURL : bytes :=
  #"https://github.com/vearutop/gocacheprog" ++
  (if HasPrefix serverVersion #"v" && Contains serverVersion #"." then #"/releases/tag/" ++ serverVersion else []).

Definition combinedBudget (h : HttpServer A B) : bytes :=
  if 0 <? hs_combinedMax h then byteSize (total (hs_stores h) (diskBudgetStores (hs_stores h))) ++ #" / " ++ byteSize (hs_combinedMax h)
  else [].

(** The data of the page. *)
Definition pageOf (heap : Z) (s : Site) (views : list clientSessionView) : pageData :=
  let h := si_server s in
  let p := hs_panics h in
  mkPage serverVersion versionURL (byteSize (uint64ToInt64 heap)) (combinedBudget h)
    (panicCount p, lastPanicMessage p, if 0 <? panicCount p then timeText (lastPanicAt p) else [])
    (sectionOf #"Objects store" (store (hs_stores h)) ++ sectionOf #"Native GOCACHE store" (gocacheStore (hs_stores h)))
    (buildOverrideRows (snapshot MaxPreloadTotalBytes (si_settings s)) (snapshot MaxFileBytes (si_settings s)))
    (map (sessionRowOf timeText DurationString) views)
    (negb (bool_decide (si_logPath s = []))).

(** [Index]; [heap] is the memory in use. *)
Definition IndexPage (now heap : Z) (s : Site) (r : PageRequest) (flt : option goerr) : Site * pageReply :=
  let h := si_server s in
  if negb (basicAuthorized (hs_auth h) (pr_basic r)) then (s, AskForPassword)
  else match pr_method r with
  | POST =>
      let action := getParam (pr_form r) #"action" in
      if bool_decide (action = #"set-max-preload-total-bytes") then
        let '(st, reply) := applyOverrideForm MaxPreloadTotalBytes (si_settings s) (pr_form r) flt in (with_settings s st, reply)
      else if bool_decide (action = #"set-max-file-bytes") then
        let '(st, reply) := applyOverrideForm MaxFileBytes (si_settings s) (pr_form r) flt in (with_settings s st, reply)
      else (with_server s (set_stores h (cleanup (hs_combinedMax h) (hs_stores h))), SeeOther #"/")
  | _ =>
      let '(sessions, views) := clientSessionsSnapshot (hs_sessions h) now in
      (with_server s (set_sessions h sessions), Page (pageOf heap s views))
  end.

(** [SessionsJSONL]: the archive as it is. *)
Definition SessionsJSONL (s : Site) (r : PageRequest) : pageReply :=
  if negb (basicAuthorized (hs_auth (si_server s)) (pr_basic r)) then AskForPassword
  else if bool_decide (si_logPath s = []) then Refused 404
  else match si_log s with Some data => File data | None => Refused 404 end.

(** [ServeHTTP] for a person: the two pages, and nothing else of the server. *)
Definition ServePage (now heap : Z) (s : Site) (r : PageRequest) (flt : option goerr) : option (Site * pageReply) :=
  if bool_decide (pr_path r = #"/") then Some (IndexPage now heap s r flt)
  else if bool_decide (pr_path r = #"/sessions.jsonl") then Some (s, SessionsJSONL s r)
  else None.

(** [Status]: the figures of the stores, of the handler and of the memory. *)
Record StatusReport := mkReport {
  rp_store : option (gmap bytes bytes);
  rp_gocache : option (gmap bytes bytes);
  rp_http : gmap bytes bytes;
  rp_heap : Z * bytes;
}.
Definition Status (heap : Z) (c : PreloadCounters) (h : HttpServer A B) : StatusReport :=
  mkReport ((fun s => augmentStatusStats (Stats s)) <$> store (hs_stores h)) ((fun s => augmentStatusStats (Stats s)) <$> gocacheStore (hs_stores h))
    (handlerStats c (hs_panics h)) (heap, byteSize (uint64ToInt64 heap)).
End pages.
Arguments Site : clear implicits.

(** ** Lemmas *)

(** Who knows the password: nobody needs one when the server has none. *)
Definition knows (h : Auth) (basicAuth : option (bytes * bytes)) : Prop :=
  authToken h = [] \/ exists user pass, basicAuth = Some (user, pass) /\ (pass = authToken h \/ (fallbackAuthToken h <> [] /\ pass = fallbackAuthToken h)).

Lemma basicAuthorized_spec h basicAuth : basicAuthorized h basicAuth = true <-> knows h basicAuth.
Proof.
  unfold basicAuthorized, knows. case_bool_decide as E1; [by split; [left|]|]. destruct basicAuth as [[user pass]|].
  - rewrite orb_true_iff, andb_true_iff, negb_true_iff, bool_decide_eq_false, !bool_decide_eq_true. split.
    + intros Hp. right. exists user, pass. split; [done|]. tauto.
    + intros [?|(u & p & [= <- <-] & Hp)]; [done|]. tauto.
  - split; [done|]. intros [?|(? & ? & ? & _)]; done.
Qed.

(** *** Overrides *)

Lemma sorted_names (X : gset bytes) : stable_sort bytes_lt (elements X) ≡ₚ elements X /\ NoDup (stable_sort bytes_lt (elements X)) /\
  ordered_by bytes_lt (stable_sort bytes_lt (elements X)).
Proof.
  assert (Hp := stable_sort_perm bytes_lt (elements X)). split; [done|]. split; [rewrite Hp; apply NoDup_elements|].
  apply stable_sort_ordered, _.
Qed.

Lemma buildOverrideRows_spec preload maxFile : let rows := buildOverrideRows preload maxFile in
  NoDup (map or_BuildType rows) /\ ordered_by bytes_lt (map or_BuildType rows) /\
  forall row, row ∈ rows <-> (is_Some (preload !! or_BuildType row) \/ is_Some (maxFile !! or_BuildType row)) /\
    or_MaxPreloadTotalBytes row = cell preload (or_BuildType row) /\ or_MaxFileBytes row = cell maxFile (or_BuildType row).
Proof.
  intros rows. unfold rows, buildOverrideRows. cbv zeta. set (X := dom preload ∪ dom maxFile).
  destruct (sorted_names X) as (Hp & Hn & Ho). rewrite map_map. cbn [or_BuildType]. rewrite map_id. split; [done|]. split; [done|].
  intros row. rewrite list_elem_of_fmap. split.
  - intros (bt & -> & Hbt). cbn [or_BuildType or_MaxPreloadTotalBytes or_MaxFileBytes]. split; [|done].
    rewrite Hp, elem_of_elements in Hbt. by rewrite <-!elem_of_dom, <-elem_of_union.
  - destruct row as [bt a b]. cbn [or_BuildType or_MaxPreloadTotalBytes or_MaxFileBytes]. intros (Hbt & -> & ->).
    exists bt. split; [done|]. rewrite Hp, elem_of_elements. by rewrite <-!elem_of_dom, <-elem_of_union in Hbt.
Qed.

(** *** The form and the endpoint *)

Definition pageReplyOf (r : reply) : pageReply :=
  match r with NoContent => SeeOther #"/" | StatusError c => Refused c | Values _ => Refused 0 end.

Lemma form_is_endpoint `{JSON serverSettings} k h form flt :
  applyOverrideForm k h form flt =
    (let '(h', r) := buildTypeInt64Settings k h POST (getParam form #"build-type") (getParam form #"bytes") flt in (h', pageReplyOf r)).
Proof.
  unfold applyOverrideForm, buildTypeInt64Settings. case_bool_decide; [done|].
  destruct (if bool_decide _ then _ else _) as [n|e]; [|done]. by destruct (setBuildTypeInt64 _ _ _ _ _) as [h' [[]|e]].
Qed.

(** *** Sessions *)

Lemma rows_spec `{SliceSort} m now : let '(m', views) := clientSessionsSnapshot m now in
  m' = filter (fun x => sessionExpired x.2 now = false) m /\
  ordered_by (fun a b => cs_LastSeen (vw_session b) <? cs_LastSeen (vw_session a)) views /\
  views ≡ₚ map (fun x => viewOf now x.2) (map_to_list m').
Proof.
  unfold clientSessionsSnapshot. split; [done|]. split; [|apply sort_slice_perm].
  apply sort_slice_ordered. split; intros *; rewrite ?Z.ltb_lt, ?Z.ltb_ge; lia.
Qed.

(** *** The cleanup *)

Section monotone.
Context {A B : Type} `{HA : DiskBudgetStore A} `{!DiskBudgetLaws A} `{HB : DiskBudgetStore B} `{!DiskBudgetLaws B} `{SliceSort}.

Lemma evictOneOf_mono (w : Stores A B) p w1 q : valid_stores w -> evictOneOf w p = (w1, true) -> diskBytesOf w1 q <= diskBytesOf w q.
Proof.
  intros [Ha Hb]. destruct w as [a b], p; cbn in *.
  - destruct a as [s|]; [|done]. destruct (EvictOne s) as [s' ok] eqn:E. intros [= <- ->].
    destruct (evict_true s s' (Ha s eq_refl) E) as [_ Hd]. destruct q; cbn; [done|lia].
  - destruct b as [s|]; [|done]. destruct (EvictOne s) as [s' ok] eqn:E. intros [= <- ->].
    destruct (evict_true s s' (Hb s eq_refl) E) as [_ Hd]. destruct q; cbn; [lia|done].
Qed.

Lemma evictions_mono target (w w' : Stores A B) q : valid_stores w -> rtc (evict_fullest target) w w' -> diskBytesOf w' q <= diskBytesOf w q.
Proof.
  intros Hv Hr. induction Hr as [w|w w1 w' (_ & p & _ & E) _ IH]; [lia|].
  destruct (evictOneOf_true w p w1 Hv E) as (Hv1 & _). specialize (IH Hv1). assert (Hm := evictOneOf_mono w p w1 q Hv E). lia.
Qed.

Lemma enforce_mono max (w : Stores A B) q : valid_stores w -> diskBytesOf (enforceCombinedBudget max w) q <= diskBytesOf w q.
Proof.
  intros Hv. destruct (Z.le_gt_cases max 0) as [Hm|Hm]; [unfold enforceCombinedBudget; rewrite (proj2 (Z.leb_le _ _)) by done; lia|].
  destruct (enforce_spec max w Hv Hm) as (_ & H1 & H2). destruct (Z.le_gt_cases (bytesOf w) max) as [Hle|Hgt].
  - rewrite H1 by done. lia.
  - eapply evictions_mono; [done|]. by apply H2.
Qed.
End monotone.

(** *** Both stores *)

Section claims.
Context `{SliceSort} `{JSON serverSettings}.
Context (lcf : LocalStore.Config) (range : gmap bytes LocalStore.indexEntry -> list bytes) (gcf : GoCacheStore.Config).
Context (Hdir : abs_dir (LocalStore.cf_dir lcf)) (Hrange : forall idx, range_of idx (range idx)) (Hcfg : GoCacheStore.cfg_ok gcf).
Context (timeText DurationString : Z -> bytes) (serverVersion : bytes).

Definition cleanupBoth : Z -> BothStores -> BothStores :=
  @cleanup _ _ (actionStoreBudget lcf range) (objectStoreBudget gcf) (actionAdmin lcf range) (objectAdmin gcf) _.

Definition indexOfBoth := @IndexPage _ _ (actionStoreBudget lcf range) (objectStoreBudget gcf) (actionAdmin lcf range) (objectAdmin gcf) _ _
  timeText DurationString serverVersion.

(** Both stores within their own limits. *)
Definition within_limits (w : BothStores) : Prop :=
  (0 < LocalStore.cf_maxDiskBytes lcf -> from_option LocalStore.DiskBytes 0 (store w) <= LocalStore.cf_maxDiskBytes lcf) /\
  (0 < GoCacheStore.cf_maxDiskBytes gcf -> from_option GoCacheStore.DiskBytes 0 (gocacheStore w) <= GoCacheStore.cf_maxDiskBytes gcf).

Lemma evicted_both w : both_hold lcf gcf w ->
  let w1 : BothStores := mkStores (LocalStore.EvictNow lcf range <$> store w) (GoCacheStore.EvictNow gcf <$> gocacheStore w) in
  both_hold lcf gcf w1 /\ within_limits w1.
Proof.
  intros [Ha Hb] w1. destruct w as [a b]. cbn in *.
  assert (Hq : forall m, 0 < m -> 0 <= Z.quot m 10) by (intros m Hm; apply Z.quot_pos; lia).
  assert (H1 : forall s, a = Some s -> exists bl, LocalStore.holds lcf (LocalStore.EvictNow lcf range s) bl /\
    (0 < LocalStore.cf_maxDiskBytes lcf -> LocalStore.DiskBytes (LocalStore.EvictNow lcf range s) <= LocalStore.cf_maxDiskBytes lcf)).
  { intros s Hs. destruct (Ha s Hs) as [bl Hbl]. destruct (LocalServe.EvictNow_ok lcf range Hdir Hrange s bl Hbl) as (bl' & Hh & _ & _ & Hend).
    exists bl'. split; [done|]. intros Hm. destruct (Hend Hm) as [E1 E2]. specialize (Hq _ Hm).
    destruct (Z.le_gt_cases (LocalStore.DiskBytes s) (LocalStore.cf_maxDiskBytes lcf)) as [Hle|Hgt]; [by rewrite E1|].
    destruct (E2 ltac:(lia)) as [Ht _]. unfold LocalStore.evictionMarginFraction in Ht. lia. }
  assert (H2 : forall s, b = Some s -> exists a', GoCacheStore.repr gcf (GoCacheStore.EvictNow gcf s) a' /\
    (0 < GoCacheStore.cf_maxDiskBytes gcf -> GoCacheStore.DiskBytes (GoCacheStore.EvictNow gcf s) <= GoCacheStore.cf_maxDiskBytes gcf)).
  { intros s Hs. destruct (Hb s Hs) as [x Hx]. destruct (GoCacheStore.evictIfNeeded_spec gcf s x Hcfg Hx) as (a' & Hr & _ & Hm & _). by exists a'. }
  unfold w1. split; [split|split]; cbn.
  - intros s. destruct a as [s0|]; [|done]. intros [= <-]. destruct (H1 s0 eq_refl) as (bl & Hbl & _). by exists bl.
  - intros s. destruct b as [s0|]; [|done]. intros [= <-]. destruct (H2 s0 eq_refl) as (x & Hx & _). by exists x.
  - intros Hm. destruct a as [s0|]; cbn; [|lia]. destruct (H1 s0 eq_refl) as (_ & _ & Hle). by apply Hle.
  - intros Hm. destruct b as [s0|]; cbn; [|lia]. destruct (H2 s0 eq_refl) as (_ & _ & Hle). by apply Hle.
Qed.

Lemma cleanup_ok max w : both_hold lcf gcf w -> let w' := cleanupBoth max w in
  both_hold lcf gcf w' /\ within_limits w' /\ (0 < max -> diskBytesOfBoth w' <= max).
Proof.
  intros Hw w'. destruct (evicted_both w Hw) as [Hw1 [L1 L2]]. set (w1 := mkStores _ _) in *.
  assert (E : w' = enforceBoth lcf range gcf max w1) by done. clearbody w'. subst w'.
  assert (Hv := Hw1). rewrite (both_valid lcf range gcf Hdir Hrange Hcfg) in Hv.
  assert (Hmono := fun q => @enforce_mono _ _ _ (action_laws lcf range Hdir Hrange) _ (object_laws gcf Hcfg (fun _ => True)) _ max w1 q Hv).
  fold (enforceBoth lcf range gcf max w1) in Hmono. split; [|split; [split|]].
  - destruct (Z.le_gt_cases max 0) as [Hm|Hm].
    + unfold enforceBoth, enforceCombinedBudget. by rewrite (proj2 (Z.leb_le _ _)).
    + rewrite (both_valid lcf range gcf Hdir Hrange Hcfg). by apply (enforce_spec max w1 Hv Hm).
  - intros Hm. exact (Z.le_trans _ _ _ (Hmono ActionStore) (L1 Hm)).
  - intros Hm. exact (Z.le_trans _ _ _ (Hmono ObjectStore) (L2 Hm)).
  - intros Hm. destruct (enforce_spec max w1 Hv Hm) as (_ & E1 & E2). change (bytesOf w1) with (diskBytesOfBoth w1) in *.
    destruct (Z.le_gt_cases (diskBytesOfBoth w1) max) as [Hle|Hgt].
    + unfold enforceBoth. by rewrite E1.
    + destruct (E2 ltac:(lia)) as [Ht _]. assert (0 <= Z.quot max evictionMarginFraction) by (apply Z.quot_pos; unfold evictionMarginFraction; lia).
      change (diskBytesOfBoth (enforceBoth lcf range gcf max w1) <= max). change (bytesOf (enforceCombinedBudget max w1)) with (diskBytesOfBoth (enforceBoth lcf range gcf max w1)) in Ht. lia.
Qed.

(** The setting that a form names. *)
Definition formSetting (action : bytes) : option setting :=
  if bool_decide (action = #"set-max-preload-total-bytes") then Some MaxPreloadTotalBytes
  else if bool_decide (action = #"set-max-file-bytes") then Some MaxFileBytes else None.

(** What the page shows: a row for every build type with an override, and one for every
    session that has not expired. *)
Definition shows (s : Site LocalStore.Store GoCacheStore.Store) (now : Z) (p : pageData) : Prop :=
  let preload := snapshot MaxPreloadTotalBytes (si_settings s) in
  let maxFile := snapshot MaxFileBytes (si_settings s) in
  NoDup (map or_BuildType (pd_Overrides p)) /\ ordered_by bytes_lt (map or_BuildType (pd_Overrides p)) /\
  (forall row, row ∈ pd_Overrides p <-> (is_Some (preload !! or_BuildType row) \/ is_Some (maxFile !! or_BuildType row)) /\
     or_MaxPreloadTotalBytes row = cell preload (or_BuildType row) /\ or_MaxFileBytes row = cell maxFile (or_BuildType row)) /\
  exists views, pd_Sessions p = map (sessionRowOf timeText DurationString) views /\
    ordered_by (fun a b => cs_LastSeen (vw_session b) <? cs_LastSeen (vw_session a)) views /\
    views ≡ₚ map (fun x => viewOf now x.2) (map_to_list (filter (fun x => sessionExpired x.2 now = false) (hs_sessions (si_server s)))).

(** Looking at the page. *)
Lemma look_spec (s s' : Site LocalStore.Store GoCacheStore.Store) now (page : list clientSessionView -> pageReply) reply :
  (let '(sessions, views) := clientSessionsSnapshot (hs_sessions (si_server s)) now in
   (with_server s (set_sessions (si_server s) sessions), page views)) = (s', reply) ->
  let live := filter (fun x => sessionExpired x.2 now = false) (hs_sessions (si_server s)) in
  exists views, reply = page views /\ s' = with_server s (set_sessions (si_server s) live) /\
    ordered_by (fun a b => cs_LastSeen (vw_session b) <? cs_LastSeen (vw_session a)) views /\
    views ≡ₚ map (fun x => viewOf now x.2) (map_to_list live).
Proof.
  intros E live. assert (Hr := rows_spec (hs_sessions (si_server s)) now). destruct (clientSessionsSnapshot _ _) as [m' views].
  destruct Hr as (-> & Ho & Hp). injection E as <- <-. by exists views.
Qed.

(** C26: what the status page shows, and what it changes.  Without the password it does
    neither.  With it, a form for a limit does what the settings endpoint does and nothing
    else; any other form brings both stores within their own limits and the one they
    share, with their invariants, and touches no setting and no session; and looking at
    the page forgets the expired sessions, no more, and shows every override and every
    other session, the most recent first. *)
Theorem page_is_guarded_and_exact now heap (s : Site LocalStore.Store GoCacheStore.Store) r flt
    (Hw : both_hold lcf gcf (hs_stores (si_server s))) :
  let '(s', reply) := indexOfBoth now heap s r flt in
  let h := si_server s in
  let h' := si_server s' in
  (~ knows (hs_auth h) (pr_basic r) -> s' = s /\ reply = AskForPassword) /\
  (knows (hs_auth h) (pr_basic r) -> hs_auth h' = hs_auth h /\ hs_panics h' = hs_panics h /\ si_log s' = si_log s /\
   match pr_method r with
   | POST =>
       hs_sessions h' = hs_sessions h /\
       match formSetting (getParam (pr_form r) #"action") with
       | Some k =>
           let '(st, answer) := buildTypeInt64Settings k (si_settings s) POST (getParam (pr_form r) #"build-type")
                                  (getParam (pr_form r) #"bytes") flt in
           h' = h /\ si_settings s' = st /\ reply = pageReplyOf answer
       | None =>
           si_settings s' = si_settings s /\ reply = SeeOther #"/" /\ both_hold lcf gcf (hs_stores h') /\ within_limits (hs_stores h') /\
           (0 < hs_combinedMax h -> diskBytesOfBoth (hs_stores h') <= hs_combinedMax h)
       end
   | _ =>
       si_settings s' = si_settings s /\ hs_stores h' = hs_stores h /\
       hs_sessions h' = filter (fun x => sessionExpired x.2 now = false) (hs_sessions h) /\
       exists p, reply = Page p /\ shows s now p
   end).
Proof.
  destruct (indexOfBoth now heap s r flt) as [s' reply] eqn:E. intros h h'. subst h h'. unfold indexOfBoth, IndexPage in E.
  assert (Ha := basicAuthorized_spec (hs_auth (si_server s)) (pr_basic r)).
  destruct (basicAuthorized _ _) eqn:Eb; cbn [negb] in E.
  2: { injection E as <- <-. split; [done|]. intros Hk. by apply Ha in Hk. }
  split; [intros Hn; destruct Hn; by apply Ha|]. intros _.
  assert (Hrows := buildOverrideRows_spec (snapshot MaxPreloadTotalBytes (si_settings s)) (snapshot MaxFileBytes (si_settings s))).
  destruct (pr_method r) eqn:Em.
  - destruct (look_spec s s' now (fun v => Page (pageOf timeText DurationString serverVersion heap s v)) reply E) as (views & -> & -> & H7 & H8).
    do 6 (split; [done|]). eexists. split; [reflexivity|]. destruct Hrows as (R1 & R2 & R3). do 3 (split; [done|]). by exists views.
  - unfold formSetting. set (action := getParam (pr_form r) #"action") in *. case_bool_decide as A1; [|case_bool_decide as A2].
    + rewrite form_is_endpoint in E. destruct (buildTypeInt64Settings _ _ _ _ _ _) as [st answer]. injection E as <- <-. done.
    + rewrite form_is_endpoint in E. destruct (buildTypeInt64Settings _ _ _ _ _ _) as [st answer]. injection E as <- <-. done.
    + injection E as <- <-. destruct (cleanup_ok (hs_combinedMax (si_server s)) _ Hw) as (C1 & C2 & C3). done.
  - destruct (look_spec s s' now (fun v => Page (pageOf timeText DurationString serverVersion heap s v)) reply E) as (views & -> & -> & H7 & H8).
    do 6 (split; [done|]). eexists. split; [reflexivity|]. destruct Hrows as (R1 & R2 & R3). do 3 (split; [done|]). by exists views.
Qed.

(** The archive is for the same people. *)
Lemma archive_is_guarded (s : Site LocalStore.Store GoCacheStore.Store) r :
  ~ knows (hs_auth (si_server s)) (pr_basic r) -> SessionsJSONL s r = AskForPassword.
Proof.
  intros Hn. unfold SessionsJSONL. destruct (basicAuthorized _ _) eqn:E; [|done]. destruct Hn. by apply basicAuthorized_spec.
Qed.
End claims.

(** ** Examples *)

Example pr_links : map (jobURLWithPR #"http://ci/1") [ #"o/r#7"; #"0a1b2c"; #"o/r#x"] = [ #"http://ci/1?pr=7"; #"http://ci/1"; #"http://ci/1"] /\
  jobURLWithPR #"http://ci/1?a=b" #"o/r#7" = #"http://ci/1?a=b&pr=7".
Proof. vm_compute. done. Qed.
Example rounded : map (fun d => roundDuration d 1000000) [1499999; 1500000; -1500000; 0] = [1000000; 2000000; -2000000; 0].
Proof. reflexivity. Qed.

Definition exampleSite : Site LocalStore.Store GoCacheStore.Store := mkSite exampleServer ciHandler #"/srv/sessions.jsonl" None.
Definition cleanupForm : PageRequest := mkPageRequest #"/" (Some (#"me", #"secret")) POST ∅.

Lemma page_is_guarded_and_exact_witness :
  let '(s', reply) := @indexOfBoth stable_slice_sort settingsJSON (LocalServe.exampleConfig false) keys GoCacheStore.tightConfig
    FormatInt FormatInt #"v1.2" 7 0 exampleSite cleanupForm None in
  reply = SeeOther #"/" /\ diskBytesOfBoth (hs_stores (si_server s')) <= 10 /\ si_settings s' = ciHandler.
Proof.
  assert (H := @page_is_guarded_and_exact stable_slice_sort settingsJSON (LocalServe.exampleConfig false) keys GoCacheStore.tightConfig
    (LocalServe.example_dir false) LocalServe.range_keys GoCacheStore.example_cfg_ok FormatInt FormatInt #"v1.2" 7 0 exampleSite cleanupForm None
    eighteen_holds).
  destruct (indexOfBoth _ _ _ _ _ _ _ _ _ _ _) as [s' reply]. destruct H as [_ H].
  destruct (H (or_intror (ex_intro _ #"me" (ex_intro _ #"secret" (conj eq_refl (or_introl eq_refl)))))) as (_ & _ & _ & _ & H5).
  destruct H5 as (H6 & H7 & _ & _ & H8). split; [exact H7|]. split; [apply H8; reflexivity|exact H6].
Defined.
