(* ===== verification/HttpSession.v ===== *)
(** The session of a client: what src/internal/http/client.go sends of it when it
    connects and when it is done, and what the server of handler.go keeps and answers.
    The settings and the inspection that a job asks for over the same connection are
    here too. *)
From S2P Require Import Prelude.
From S2P Require Import GoStrings.
From S2P Require Import Wire.
From S2P Require Import HttpNet.
From S2P Require Import Settings.
From S2P Require Import Manifests.
From S2P Require Import NativeRestore.
From S2P Require Import HttpServer.

(** ** Headers *)

Abbreviation Header := (gmap bytes bytes).

Definition headerAuthorization : bytes := #"Authorization".
Definition headerSessionID : bytes := #"X-Gocacheprog-Session-Id".
Definition headerStartedAt : bytes := #"X-Gocacheprog-Started-At".
Definition headerPID : bytes := #"X-Gocacheprog-Pid".
Definition headerCacheDir : bytes := #"X-Gocacheprog-Cache-Dir".
Definition headerJobURL : bytes := #"X-Gocacheprog-Job-Url".
Definition headerCommit : bytes := #"X-Gocacheprog-Commit".
Definition headerParent : bytes := #"X-Gocacheprog-Parent".
Definition headerChanges : bytes := #"X-Gocacheprog-Changes".
Definition headerBuildType : bytes := #"X-Gocacheprog-Build-Type".
Definition headerBase : bytes := #"X-Gocacheprog-Base".
Definition headerClientVersion : bytes := #"X-Gocacheprog-Client-Version".

(** The time format RFC3339Nano, for a time in nanoseconds. *)
Class RFC3339 := {
  FormatTime : Z -> bytes;
  ParseTime : bytes -> result Z;
  time_ok : Z -> Prop;
  ParseTime_FormatTime t : time_ok t -> ParseTime (FormatTime t) = Ok t;
  FormatTime_nonempty t : FormatTime t <> [];
}.

(** [SessionParams], as [ProxyParams] implements it. *)
Record SessionParams := mkParams {
  SessionCommit : bytes;
  SessionParentCommit : bytes;
  SessionChangesID : bytes;
  SessionBuildType : bytes;
  SessionBaseCommit : bytes;
}.

Record SessionInfo := mkSessionInfo {
  si_SessionID : bytes;
  si_StartedAt : option Z;
  si_PID : Z;
  si_CacheDir : bytes;
  si_JobURL : bytes;
  si_Params : option SessionParams;
}.

Definition setNumber (k : bytes) (n : Z) (h : Header) : Header := if n =? 0 then h else <[k := FormatInt n]> h.

Section headers.
Context `{RFC3339}.

Definition setTime (k : bytes) (t : option Z) (h : Header) : Header :=
  match t with None => h | Some t => <[k := FormatTime t]> h end.

(** [setSessionHeaders]; nothing empty is set. *)
Definition setSessionHeaders (h : Header) (sessionInfo : option SessionInfo) : Header :=
  match sessionInfo with
  | None => h
  | Some si =>
      let h := setText headerSessionID (si_SessionID si) h in
      let h := setTime headerStartedAt (si_StartedAt si) h in
      let h := setNumber headerPID (si_PID si) h in
      let h := setText headerCacheDir (si_CacheDir si) h in
      let h := setText headerJobURL (si_JobURL si) h in
      match si_Params si with
      | None => h
      | Some p =>
          let h := setText headerCommit (SessionCommit p) h in
          let h := setText headerParent (SessionParentCommit p) h in
          let h := setText headerChanges (SessionChangesID p) h in
          let h := setText headerBuildType (SessionBuildType p) h in
          setText headerBase (SessionBaseCommit p) h
      end
  end.
End headers.

Definition setAuthHeader (h : Header) (authToken : bytes) : Header :=
  if bool_decide (TrimSpace authToken = []) then h else <[headerAuthorization := #"Bearer " ++ authToken]> h.

(** The extra fields of a session that is done: texts, numbers, and JSON as it came. *)
Inductive jsonValue := JText (s : bytes) | JNumber (n : Z) | JInline (json : bytes).

#[export] Instance jsonValue_eq_dec : EqDecision jsonValue.
Proof. solve_decision. Defined.

Abbreviation Extras := (gmap bytes jsonValue).

(** ** The client *)

Record Client := mkClient { cl_authToken : bytes; cl_sessionID : bytes }.

(** [setSessionAuthHeaders]: the headers of every request but the first. *)
Definition setSessionAuthHeaders (c : Client) (h : Header) : Header :=
  setText headerSessionID (cl_sessionID c) (setAuthHeader h (cl_authToken c)).

Definition sessionInfoID (sessionInfo : option SessionInfo) : bytes := from_option si_SessionID [] sessionInfo.

Section client.
Context {W : Type} (net : Header -> W -> Call -> W * result Response).

(** The network of a client: its requests carry its headers. *)
Definition clientNet (c : Client) : W -> Call -> W * result Response := net (setSessionAuthHeaders c ∅).

Context `{RFC3339} (moduleVersion : bytes).

(** The headers of the handshake. *)
Definition handshakeHeader (authToken : bytes) (sessionInfo : option SessionInfo) : Header :=
  <[headerClientVersion := moduleVersion]> (setSessionHeaders (setAuthHeader ∅ authToken) sessionInfo).

(** [NewClientWithSession]: the server is asked for its version. *)
Definition NewClientWithSession (w : W) (authToken : bytes) (sessionInfo : option SessionInfo) : W * result Client :=
  match roundTrip (net (handshakeHeader authToken sessionInfo)) w (mkCall #"/version" ∅ [] true) with
  | (w, Err e) => (w, Err e)
  | (w, Ok resp) =>
      (w, match checkStatus resp 200 with
          | Err e => if re_status resp =? 401 then Err (EMsg "authentication failed") else Err e
          | Ok _ =>
              let? b := ReadAll (re_body resp) in
              if negb (HasPrefix b #"gocacheprog ") then Err (EMsg "unexpected version")
              else Ok (mkClient authToken (sessionInfoID sessionInfo))
          end)
  end.

Definition NewClient (w : W) (authToken : bytes) : W * result Client := NewClientWithSession w authToken None.

(** [MarkSessionDone]. *)
Definition MarkSessionDone `{JSON Extras} (c : Client) (w : W) (extra : Extras) : W * result unit :=
  match (if bool_decide (extra = ∅) then Ok [] else Marshal extra) with
  | Err e => (w, Err e)
  | Ok body =>
      match roundTrip (clientNet c) w (mkCall #"/session-done" ∅ body true) with
      | (w, Err e) => (w, Err e)
      | (w, Ok res) => (w, checkStatus res 204)
      end
  end.

(** [MaxFileBytesFor]: zero for a build type the server has no limit for. *)
Definition MaxFileBytesFor `{JSON (gmap bytes Z)} (c : Client) (w : W) (buildType : bytes) : W * result Z :=
  match roundTrip (clientNet c) w (mkCall #"/settings/max-file-bytes" ∅ [] true) with
  | (w, Err e) => (w, Err e)
  | (w, Ok res) =>
      (w, let? _ := checkStatus res 200 in
          let? b := ReadAll (re_body res) in
          let? limits := Unmarshal b in
          Ok (default 0 (limits !! buildType)))
  end.

(** [InspectKeys], for any type of the answer. *)
Definition ClientInspectKeys {A} `{JSON (list bytes)} `{JSON (list A)} (c : Client) (w : W) (req : Request) (keys : list bytes)
    : W * result (list A) :=
  match Marshal keys with
  | Err e => (w, Err e)
  | Ok body =>
      match roundTrip (clientNet c) w (mkCall #"/inspect-keys" (gocacheQuery req) body true) with
      | (w, Err e) => (w, Err e)
      | (w, Ok res) => (w, let? _ := checkStatus res 200 in let? b := ReadAll (re_body res) in Unmarshal b)
      end
  end.
End client.

(** ** The server *)

(** What the server reads of the headers; a header that is not there is empty. *)
Definition headerOf (h : Header) (k : bytes) : bytes := default [] (h !! k).

Definition headersOf (h : Header) : Headers :=
  mkHeaders (headerOf h headerSessionID) (headerOf h headerClientVersion) (headerOf h headerCommit)
    (headerOf h headerChanges) (headerOf h headerBuildType) (headerOf h headerJobURL).

(** The server's side of a session: who may, the sessions, and their log. *)
Record SessionServer := mkSessionServer {
  sv_auth : Auth;
  sv_sessions : Sessions;
  sv_log : list sessionEvent;
}.

Definition logEvent (l : list sessionEvent) (e : option sessionEvent) : list sessionEvent :=
  match e with Some e => l ++ [e] | None => l end.

(** [serveVersion]. *)
Definition serveVersion (moduleVersion : bytes) : Response := mkResponse 200 ∅ (fromBytes (#"gocacheprog " ++ moduleVersion)).

Definition textError (status : Z) : Response := mkResponse status ∅ (fromBytes []).

(** [ServeHTTP] for the routes that touch no store. *)
Definition serveSession `{JSON Extras} `{JSON (gmap bytes Z)} (moduleVersion : bytes) (now : Z) (limits : Handler)
    (h : Header) (sv : SessionServer) (c : Call) : SessionServer * result Response :=
  if negb (authorized (sv_auth sv) (headerOf h headerAuthorization)) then (sv, Ok (textError 401))
  else
    let '(sessions, ev) := touchSession (sv_sessions sv) (headersOf h) now in
    let sv := mkSessionServer (sv_auth sv) sessions (logEvent (sv_log sv) ev) in
    if bool_decide (c_path c = #"/version") then (sv, Ok (serveVersion moduleVersion))
    else if bool_decide (c_path c = #"/session-done") then
      let body := if bool_decide (c_body c = []) then None
                  else Some (match Unmarshal (A := Extras) (c_body c) with
                             | Ok _ => Ok (c_body c)
                             | Err e => Err e
                             end) in
      let '(sessions, ev, status) := serveSessionDone (sv_sessions sv) (headerOf h headerSessionID) now body in
      (mkSessionServer (sv_auth sv) sessions (logEvent (sv_log sv) ev), Ok (textError status))
    else if bool_decide (c_path c = #"/settings/max-file-bytes") then
      (sv, match Marshal (snapshot MaxFileBytes limits) with
           | Ok b => Ok (mkResponse 200 ∅ (fromBytes b))
           | Err _ => Ok (textError 200)
           end)
    else (sv, Ok (textError 404)).

(** ** Lemmas *)

Lemma headerOf_insert h k k' v : headerOf (<[k := v]> h) k' = if bool_decide (k = k') then v else headerOf h k'.
Proof.
  unfold headerOf. destruct (bool_decide_reflect (k = k')) as [->|Hk]; [by rewrite lookup_insert_eq|by rewrite lookup_insert_ne].
Qed.

Lemma headerOf_setText h k k' v :
  headerOf (setText k v h) k' = if bool_decide (k = k') then orElse v (headerOf h k') else headerOf h k'.
Proof.
  unfold setText, orElse. destruct (bool_decide (v = [])) eqn:E; [by case_match|]. apply headerOf_insert.
Qed.

Lemma headerOf_auth h tok k :
  headerOf (setAuthHeader h tok) k =
    if bool_decide (headerAuthorization = k) && negb (bool_decide (TrimSpace tok = [])) then #"Bearer " ++ tok else headerOf h k.
Proof.
  unfold setAuthHeader. destruct (bool_decide (TrimSpace tok = [])); [by rewrite andb_false_r|].
  rewrite headerOf_insert, andb_true_r. done.
Qed.

Lemma headerOf_setNumber h k k' n :
  headerOf (setNumber k n h) k' = if bool_decide (k = k') && negb (n =? 0) then FormatInt n else headerOf h k'.
Proof. unfold setNumber. destruct (n =? 0); [by rewrite andb_false_r|]. by rewrite headerOf_insert, andb_true_r. Qed.

Lemma orElse_nil v : orElse v [] = v.
Proof. unfold orElse. by case_bool_decide. Qed.

Section proofs.
Context `{RFC3339}.

Lemma headerOf_setTime h k k' t :
  headerOf (setTime k t h) k' = if bool_decide (k = k') then from_option FormatTime (headerOf h k') t else headerOf h k'.
Proof. unfold setTime. destruct t; [apply headerOf_insert|by case_match]. Qed.

(** Read a header back through the setters that came after it. *)
Ltac read_header :=
  repeat match goal with
    | |- context [headerOf (<[?k := ?v]> ?h) ?k'] => rewrite (headerOf_insert h k k' v)
    | |- context [headerOf (setText ?k ?v ?h) ?k'] => rewrite (headerOf_setText h k k' v)
    | |- context [headerOf (setAuthHeader ?h ?tok) ?k] => rewrite (headerOf_auth h tok k)
    | |- context [headerOf (setTime ?k ?t ?h) ?k'] => rewrite (headerOf_setTime h k k' t)
    | |- context [headerOf (setNumber ?k ?n ?h) ?k'] => rewrite (headerOf_setNumber h k k' n)
    | |- context [bool_decide (?a = ?b)] =>
        is_const a; is_const b;
        let v := eval vm_compute in (bool_decide (a = b)) in
        replace (bool_decide (a = b)) with v by (vm_compute; reflexivity); cbn [andb]
    end.

(** What the server learns of a handshake. *)
Lemma handshake_read ver tok si p :
  si_Params si = Some p ->
  headersOf (handshakeHeader ver tok (Some si)) =
    mkHeaders (si_SessionID si) ver (SessionCommit p) (SessionChangesID p) (SessionBuildType p) (si_JobURL si) /\
  headerOf (handshakeHeader ver tok (Some si)) headerAuthorization = headerOf (setAuthHeader ∅ tok) headerAuthorization.
Proof.
  intros Hp. unfold headersOf, handshakeHeader, setSessionHeaders. rewrite Hp. cbv zeta. split; [|by read_header].
  assert (He : forall k, headerOf ∅ k = []) by done. f_equal; read_header; rewrite ?He; apply orElse_nil || done.
Qed.

(** What it reads of any later request. *)
Lemma later_read tok id :
  headersOf (setSessionAuthHeaders (mkClient tok id) ∅) = mkHeaders id [] [] [] [] [] /\
  headerOf (setSessionAuthHeaders (mkClient tok id) ∅) headerAuthorization = headerOf (setAuthHeader ∅ tok) headerAuthorization /\
  headerOf (setSessionAuthHeaders (mkClient tok id) ∅) headerSessionID = id.
Proof.
  unfold headersOf, setSessionAuthHeaders. cbn [cl_authToken cl_sessionID].
  assert (He : forall k, headerOf ∅ k = []) by done.
  split; [f_equal|split]; read_header; rewrite ?He; apply orElse_nil || done.
Qed.

(** A token as an operator sets it. *)
Record plain_token (tok : bytes) : Prop := {
  pt_some : tok <> [];
  pt_trimmed : TrimSpace tok = tok;
}.

Lemma authorized_token a tok :
  plain_token tok ->
  authorized a (headerOf (setAuthHeader ∅ tok) headerAuthorization) = true <->
  authToken a = [] \/ tok = authToken a \/ tok = fallbackAuthToken a.
Proof.
  intros [Hne Ht]. rewrite headerOf_auth, bool_decide_eq_true_2, (bool_decide_eq_false_2 (TrimSpace tok = [])) by congruence.
  cbn [andb negb]. rewrite authorized_spec. unfold granted. split.
  - intros [?|(r & E & H1)]; [by left|]. apply app_inv_head in E as <-. rewrite Ht in H1. tauto.
  - intros [?|Ho]; [by left|]. right. exists tok. rewrite Ht. split; [done|]. destruct Ho; [by left|right; split; congruence].
Qed.
End proofs.

(** *** The two requests *)

Section requests.
Context `{RFC3339} `{JSON Extras} `{JSON (gmap bytes Z)} (ver : bytes) (limits : Handler).
Abbreviation net now := (serveSession ver now limits).

(** The session the server begins for a client. *)
Definition begun (now : Z) (si : SessionInfo) (p : SessionParams) : clientSession :=
  mkClientSession ver (SessionChangesID p) (SessionCommit p) (SessionBuildType p) (si_JobURL si) 0 0 [] 0 0
    false now now 0 None.

(** And the one it is done with. *)
Definition ended (now : Z) (extra : option bytes) (cs : clientSession) : clientSession :=
  mkClientSession (cs_Version cs) (cs_ChangesID cs) (cs_Commit cs) (cs_BuildType cs) (cs_JobURL cs)
    (cs_PreloadBytes cs) (cs_PreloadTime cs) (cs_PreloadSource cs) (cs_FinalizeBytes cs) (cs_FinalizeTime cs)
    true (cs_FirstSeen cs) now now extra.

Lemma touch_new (m : Sessions) now si p :
  si_SessionID si <> [] -> m !! si_SessionID si = None ->
  exists m', touchSession m (mkHeaders (si_SessionID si) ver (SessionCommit p) (SessionChangesID p) (SessionBuildType p) (si_JobURL si)) now =
    (m', Some (Started (si_SessionID si) (begun now si p))) /\ m' !! si_SessionID si = Some (begun now si p).
Proof.
  intros Hid Hm. unfold touchSession. cbn [hd_SessionID hd_ClientVersion hd_Commit hd_Changes hd_BuildType hd_JobURL].
  rewrite bool_decide_eq_false_2 by done. cbv zeta.
  assert (Hf : filter (fun x => sessionExpired x.2 now = false) m !! si_SessionID si = None) by (by apply map_lookup_filter_None; left).
  rewrite Hf. rewrite bool_decide_eq_true_2 by done. cbn [default newSession cs_Version cs_ChangesID cs_Commit cs_BuildType cs_JobURL
    cs_PreloadBytes cs_PreloadTime cs_PreloadSource cs_FinalizeBytes cs_FinalizeTime cs_Done cs_FirstSeen cs_DoneAt cs_Extra].
  rewrite !orElse_nil. eexists. split; [done|]. apply lookup_insert_eq.
Qed.

Lemma touch_again (m : Sessions) (now : Z) (id : bytes) (cs : clientSession) :
  id <> [] -> m !! id = Some cs -> sessionExpired cs now = false ->
  exists m', touchSession m (mkHeaders id [] [] [] [] []) now = (m', None) /\
    m' !! id = Some (mkClientSession (cs_Version cs) (cs_ChangesID cs) (cs_Commit cs) (cs_BuildType cs) (cs_JobURL cs)
      (cs_PreloadBytes cs) (cs_PreloadTime cs) (cs_PreloadSource cs) (cs_FinalizeBytes cs) (cs_FinalizeTime cs)
      (cs_Done cs) (cs_FirstSeen cs) now (cs_DoneAt cs) (cs_Extra cs)).
Proof.
  intros Hid Hm He. unfold touchSession. cbn [hd_SessionID hd_ClientVersion hd_Commit hd_Changes hd_BuildType hd_JobURL].
  rewrite bool_decide_eq_false_2 by done. cbv zeta.
  assert (Hf : filter (fun x => sessionExpired x.2 now = false) m !! id = Some cs) by (by apply map_lookup_filter_Some).
  rewrite Hf, bool_decide_eq_false_2 by done. eexists. split; [done|]. cbn [default]. apply lookup_insert_eq.
Qed.

Lemma opened_session (now : Z) (sv : SessionServer) (tok : bytes) si p :
  plain_token tok -> si_Params si = Some p -> si_SessionID si <> [] -> sv_sessions sv !! si_SessionID si = None ->
  authToken (sv_auth sv) = [] \/ tok = authToken (sv_auth sv) \/ tok = fallbackAuthToken (sv_auth sv) ->
  exists sv1, NewClientWithSession (net now) ver sv tok (Some si) = (sv1, Ok (mkClient tok (si_SessionID si))) /\
    sv_auth sv1 = sv_auth sv /\ sv_sessions sv1 !! si_SessionID si = Some (begun now si p) /\
    sv_log sv1 = sv_log sv ++ [Started (si_SessionID si) (begun now si p)].
Proof.
  intros Htok Hp Hid Hnew Hgr. destruct (handshake_read ver tok si p Hp) as [Hh Ha].
  apply (authorized_token (sv_auth sv) tok Htok) in Hgr.
  destruct (touch_new (sv_sessions sv) now si p Hid Hnew) as (m & Em & Hm).
  exists (mkSessionServer (sv_auth sv) m (sv_log sv ++ [Started (si_SessionID si) (begun now si p)])).
  unfold NewClientWithSession. erewrite roundTrip_answered; [|unfold serveSession; rewrite Ha, Hgr, Hh, Em; reflexivity|reflexivity].
  split; [|done]. cbn [serveVersion checkStatus re_status re_body]. unfold checkStatus. cbn [re_status].
  cbn [Z.eqb Pos.eqb fromBytes ReadAll st_err st_data]. by rewrite HasPrefix_app.
Qed.

Lemma refused_session (now : Z) (sv : SessionServer) (tok : bytes) si p :
  plain_token tok -> si_Params si = Some p ->
  authToken (sv_auth sv) <> [] -> tok <> authToken (sv_auth sv) -> tok <> fallbackAuthToken (sv_auth sv) ->
  NewClientWithSession (net now) ver sv tok (Some si) = (sv, Err (EMsg "authentication failed")).
Proof.
  intros Htok Hp H1' H2 H3. destruct (handshake_read ver tok si p Hp) as [Hh Ha].
  assert (Hno : authorized (sv_auth sv) (headerOf (setAuthHeader ∅ tok) headerAuthorization) = false).
  { apply not_true_iff_false. rewrite authorized_token by done. tauto. }
  unfold NewClientWithSession. erewrite roundTrip_answered; [|unfold serveSession; rewrite Ha, Hno; reflexivity|reflexivity]. done.
Qed.

Lemma done_session (now : Z) (sv : SessionServer) (tok : bytes) (id : bytes) (cs : clientSession) (extra : Extras) :
  plain_token tok -> id <> [] -> sv_sessions sv !! id = Some cs -> sessionExpired cs now = false -> json_ok extra ->
  authorized (sv_auth sv) (headerOf (setAuthHeader ∅ tok) headerAuthorization) = true ->
  exists (sv2 : SessionServer) ex, MarkSessionDone (net now) (mkClient tok id) sv extra = (sv2, Ok tt) /\
    sv_sessions sv2 !! id = Some (ended now ex cs) /\ sv_log sv2 = sv_log sv ++ [DoneEvent id (ended now ex cs)] /\
    match ex with None => extra = ∅ | Some b => Unmarshal b = Ok extra end.
Proof.
  intros Htok Hid Hcs He Hj Hgr. destruct (later_read tok id) as (Hh & Ha & Hs).
  destruct (touch_again (sv_sessions sv) now id cs Hid Hcs He) as (m & Em & Hm).
  destruct (Unmarshal_Marshal _ Hj) as (b & Eb & Hb & Eu). unfold MarkSessionDone.
  set (body := if bool_decide (extra = ∅) then [] else b). set (ex := if bool_decide (extra = ∅) then None else Some b).
  assert (Ebody : (if bool_decide (extra = ∅) then Ok [] else Marshal extra) = Ok body) by (unfold body; by case_bool_decide).
  rewrite Ebody. set (sv2 := mkSessionServer (sv_auth sv) (<[id := ended now ex cs]> m) (sv_log sv ++ [DoneEvent id (ended now ex cs)])).
  assert (Ed : serveSessionDone m id now (if bool_decide (body = []) then None else
      Some match Unmarshal (A := Extras) body with Ok _ => Ok body | Err e => Err e end) =
    (<[id := ended now ex cs]> m, Some (DoneEvent id (ended now ex cs)), 204)).
  { unfold body, ex. destruct (bool_decide_reflect (extra = ∅)) as [E|E];
      [rewrite bool_decide_eq_true_2 by done|rewrite bool_decide_eq_false_2, Eu by done];
      unfold serveSessionDone, markSessionDone; by rewrite bool_decide_eq_false_2, Hm by done. }
  assert (Enet : clientNet (net now) (mkClient tok id) sv (mkCall #"/session-done" ∅ body true) = (sv2, Ok (textError 204))).
  { unfold clientNet, serveSession. rewrite Ha, Hgr, Hh, Em, Hs. cbn [negb c_path c_body sv_sessions sv_log sv_auth logEvent].
    rewrite (bool_decide_eq_false_2 (_ = #"/version")) by (intros E; vm_compute in E; discriminate E).
    rewrite (bool_decide_eq_true_2 (_ = #"/session-done")) by reflexivity. by rewrite Ed. }
  exists sv2, ex. rewrite (roundTrip_answered _ _ _ _ _ Enet) by done.
  split; [done|]. split; [apply lookup_insert_eq|]. split; [done|].
  unfold ex. by destruct (bool_decide_reflect (extra = ∅)).
Qed.
End requests.

(** ** The claims *)

Section claims.
Context `{RFC3339} `{JSON Extras} `{JSON (gmap bytes Z)} (ver : bytes) (limits : Handler).
Abbreviation net now := (serveSession ver now limits).

(** C23: a session from its start to its end.  A client that has the server's token --
    or its fallback, or needs none -- connects, with a new session id: the server then
    keeps a session under the id with the commit, change, build type and job of the
    client, which its log shows as started.  When the client is done, within the time
    the server keeps sessions, the session is marked done at that time with the extra
    fields that were sent, and the log shows that too.  Without the token the client is
    told that the authentication failed, and the server has not changed. *)
Theorem session_is_kept_from_start_to_end (now1 now2 : Z) (sv : SessionServer) (tok : bytes) (si : SessionInfo)
    (p : SessionParams) (extra : Extras)
    (Htok : plain_token tok) (Hp : si_Params si = Some p) (Hid : si_SessionID si <> [])
    (Hnew : sv_sessions sv !! si_SessionID si = None) (Hjson : json_ok extra)
    (Htime : 0 <= now2 - now1 <= sessionRetention) :
  let opened := NewClientWithSession (net now1) ver sv tok (Some si) in
  (authToken (sv_auth sv) = [] \/ tok = authToken (sv_auth sv) \/ tok = fallbackAuthToken (sv_auth sv) ->
   exists sv1 c cs (sv2 : SessionServer) cs2,
     opened = (sv1, Ok c) /\ sv_sessions sv1 !! si_SessionID si = Some cs /\
     cs_Commit cs = SessionCommit p /\ cs_ChangesID cs = SessionChangesID p /\ cs_BuildType cs = SessionBuildType p /\
     cs_JobURL cs = si_JobURL si /\ cs_FirstSeen cs = now1 /\ cs_Done cs = false /\
     sv_log sv1 = sv_log sv ++ [Started (si_SessionID si) cs] /\
     MarkSessionDone (net now2) c sv1 extra = (sv2, Ok tt) /\ sv_sessions sv2 !! si_SessionID si = Some cs2 /\
     cs_Commit cs2 = SessionCommit p /\ cs_Done cs2 = true /\ cs_FirstSeen cs2 = now1 /\ cs_DoneAt cs2 = now2 /\
     match cs_Extra cs2 with None => extra = ∅ | Some b => Unmarshal b = Ok extra end /\
     sv_log sv2 = sv_log sv1 ++ [DoneEvent (si_SessionID si) cs2]) /\
  (authToken (sv_auth sv) <> [] -> tok <> authToken (sv_auth sv) -> tok <> fallbackAuthToken (sv_auth sv) ->
   opened = (sv, Err (EMsg "authentication failed"))).
Proof.
  intros opened. split.
  - intros Hgr. destruct (opened_session ver limits now1 sv tok si p) as (sv1 & E1 & Ea & Hs1 & Hl1); [done..|].
    destruct (done_session ver limits now2 sv1 tok (si_SessionID si) (begun ver now1 si p) extra) as (sv2 & ex & E2 & Hs2 & Hl2 & Hex); try done.
    + unfold sessionExpired, begun. cbn. apply Z.ltb_ge. lia.
    + rewrite Ea. by apply authorized_token.
    + eexists sv1, _, _, sv2, _. split; [exact E1|]. split; [exact Hs1|]. do 7 (split; [done|]).
      split; [exact E2|]. split; [exact Hs2|]. by destruct ex.
  - intros. by apply (refused_session ver limits now1 sv tok si p).
Qed.
End claims.

(** ** Examples *)

Section witnesses.
(** A format for times: their digits. *)
Program Definition digitTimes : RFC3339 := {|
  FormatTime := FormatInt;
  ParseTime := ParseInt;
  time_ok t := - 2 ^ 63 <= t < 2 ^ 63;
|}.
Next Obligation. intros t Ht. by apply ParseInt_FormatInt. Qed.
Next Obligation.
  intros t E. unfold FormatInt in E. destruct (t <? 0) eqn:Et; [discriminate E|].
  apply Z.ltb_ge in Et. by destruct (itoa_digits t Et).
Qed.

Definition exampleInfo : SessionInfo :=
  mkSessionInfo #"77-5" (Some 5) 77 #"/c" #"http://ci/1" (Some (mkParams #"c1" [] #"o/r#7" #"unit" #"c0")).
Definition exampleExtra : Extras := {[ #"mode" := JText #"shim" ]}.
Let J : JSON Extras := tableJSON [exampleExtra].
Let L : JSON (gmap bytes Z) := tableJSON [].

Lemma session_is_kept_from_start_to_end_witness :
  let sv := mkSessionServer (mkAuth #"new" #"old") ∅ [] in
  let net now := @serveSession J L #"v1" now (mkHandler [] (mkSettings ∅ ∅) None) in
  (exists sv1 c cs sv2, @NewClientWithSession _ (net 10) digitTimes #"v1" sv #"old" (Some exampleInfo) = (sv1, Ok c) /\
    sv_sessions sv1 !! #"77-5" = Some cs /\ cs_ChangesID cs = #"o/r#7" /\
    @MarkSessionDone _ (net 20) J c sv1 exampleExtra = (sv2, Ok tt)) /\
  @NewClientWithSession _ (net 10) digitTimes #"v1" sv #"bad" (Some exampleInfo) = (sv, Err (EMsg "authentication failed")).
Proof.
  intros sv net.
  assert (Ht : forall tok, tok = #"old" \/ tok = #"bad" -> plain_token tok) by (intros tok [->| ->]; split; (discriminate || vm_compute; reflexivity)).
  assert (H := fun tok Htok => @session_is_kept_from_start_to_end digitTimes J L #"v1" (mkHandler [] (mkSettings ∅ ∅) None) 10 20 sv tok
    exampleInfo (mkParams #"c1" [] #"o/r#7" #"unit" #"c0") exampleExtra (Ht tok Htok)).
  split.
  - destruct (H #"old" (or_introl eq_refl)) as [H1 _]; [reflexivity|discriminate|reflexivity|apply list_elem_of_here|vm_compute; split; discriminate|].
    destruct (H1 (or_intror (or_intror eq_refl))) as (sv1 & c & cs & sv2 & cs2 & E1 & E2 & _ & E3 & _ & _ & _ & _ & _ & E4 & _).
    exists sv1, c, cs, sv2. split; [exact E1|]. split; [exact E2|]. split; [exact E3|exact E4].
  - destruct (H #"bad" (or_intror eq_refl)) as [_ H2]; [reflexivity|discriminate|reflexivity|apply list_elem_of_here|vm_compute; split; discriminate|].
    apply H2; discriminate.
Defined.
End witnesses.
