(* ===== verification/Admin.v ===== *)
(** What an operator asks of a server with its token: the statistics and the removal of a
    scope (src/internal/http/clear.go), where the objects of a list went
    (inspect_keys.go), and the check of every stored output (integrity_check.go).  The
    newline that ends a JSON answer is left out, a reader skips it. *)
From S2P Require Import Prelude.
From S2P Require Import GoStrings.
From S2P Require Import GoPath.
From S2P Require Import Wire.
From S2P Require Import HttpNet.
From S2P Require Import GoCacheStore.
From S2P Require LocalStore.
From S2P Require LocalServe.
From S2P Require Import Manifests.
From S2P Require Import GoCacheRestore.
From S2P Require Import NativeRestore.
From S2P Require Import HttpServer.
From S2P Require Import HttpSession.
Open Scope Z_scope.

(** ** The handlers *)

(** [IntegrityReport]. *)
Record IntegrityReport := mkIntegrityReport { Checked : Z; Broken : list LocalStore.brokenEntry; DryRun : bool }.

(** The parts of a server that an operator reaches. *)
Record AdminSite := mkAdminSite {
  as_auth : Auth;
  as_store : option LocalStore.Store;
  as_gocache : option Server;
}.

Section handlers.
Context `{Zstd} `{JSON ClearStats} `{JSON InspectStats} `{JSON (list bytes)} `{JSON (list KeyInspection)} `{JSON IntegrityReport}.
Context (lcf : LocalStore.Config) (actions : gmap bytes LocalStore.indexEntry -> list bytes).
Context (cf : Config) (env : Env) (range : gset bytes -> list bytes).

Definition jsonReply {A} `{JSON A} (a : A) (failed : Z) : Response :=
  match Marshal a with Ok b => mkResponse 200 ∅ (fromBytes b) | Err _ => textError failed end.

(** [handleNativeAdminJSON]: the scope of the query, without its limits. *)
Definition handleNativeAdminJSON {A} `{JSON A} (gocacheStore : option Server) (q : Query) (run : Server -> Request -> Server * result A)
    : option Server * Response :=
  match gocacheStore with
  | None => (None, textError 501)
  | Some sv =>
      let rawReq := parseGOCACHERequest q in
      let req := mkRequest (rq_Commit rawReq) (rq_ChangesID rawReq) (rq_BuildType rawReq) (rq_BaseCommit rawReq) [] 0 0 in
      match run sv req with
      | (sv, Err _) => (Some sv, textError 400)
      | (sv, Ok resp) => (Some sv, jsonReply resp 500)
      end
  end.

Definition ClearCache (gocacheStore : option Server) (q : Query) : option Server * Response :=
  handleNativeAdminJSON gocacheStore q (Clear cf env range).

Definition InspectCache (gocacheStore : option Server) (q : Query) : option Server * Response :=
  handleNativeAdminJSON gocacheStore q (fun sv req => (sv, Inspect cf env range sv req)).

(** [Handler.InspectKeys]. *)
Definition serveInspectKeys (gocacheStore : option Server) (q : Query) (body : bytes) : Response :=
  match gocacheStore with
  | None => textError 501
  | Some sv =>
      match Unmarshal (A := list bytes) body with
      | Err _ => textError 400
      | Ok keys =>
          match InspectKeys cf env sv (parseGOCACHERequest q) keys with
          | Err _ => textError 400
          | Ok result => jsonReply result 200
          end
      end
  end.

(** [Handler.IntegrityCheck]. *)
Definition serveIntegrityCheck (store : option LocalStore.Store) (q : Query) : option LocalStore.Store * Response :=
  match store with
  | None => (None, textError 501)
  | Some s =>
      let dryRun := bool_decide (getParam q #"dry_run" = #"1") in
      let '(s, (checked, broken)) := LocalStore.IntegrityCheck lcf actions s dryRun in
      (Some s, jsonReply (mkIntegrityReport checked broken dryRun) 200)
  end.

(** [ServeHTTP] for these routes. *)
Definition serveAdmin (h : Header) (w : AdminSite) (c : Call) : AdminSite * result Response :=
  if negb (authorized (as_auth w) (headerOf h headerAuthorization)) then (w, Ok (textError 401))
  else if bool_decide (c_path c = #"/clear") then
    let '(g, r) := ClearCache (as_gocache w) (c_query c) in (mkAdminSite (as_auth w) (as_store w) g, Ok r)
  else if bool_decide (c_path c = #"/inspect") then
    let '(g, r) := InspectCache (as_gocache w) (c_query c) in (mkAdminSite (as_auth w) (as_store w) g, Ok r)
  else if bool_decide (c_path c = #"/inspect-keys") then (w, Ok (serveInspectKeys (as_gocache w) (c_query c) (c_body c)))
  else if bool_decide (c_path c = #"/integrity-check") then
    let '(s, r) := serveIntegrityCheck (as_store w) (c_query c) in (mkAdminSite (as_auth w) s (as_gocache w), Ok r)
  else (w, Ok (textError 404)).
End handlers.

(** ** The scope of a request *)

(** The targets of a request are the same with and without its limits. *)
Lemma targets_served cf env fs req : plain_request req ->
  targetManifestPaths cf env fs (parseGOCACHERequest (gocacheQuery req)) = targetManifestPaths cf env fs req.
Proof. intros Hp. by rewrite request_roundtrip. Qed.

Lemma InspectKeys_served `{Zstd} cf env sv req keys : plain_request req ->
  InspectKeys cf env sv (parseGOCACHERequest (gocacheQuery req)) keys = InspectKeys cf env sv req keys.
Proof. intros Hp. unfold InspectKeys. by rewrite targets_served. Qed.

(** Clearing over HTTP is clearing the scope. *)
Lemma clear_route `{Zstd} `{JSON ClearStats} cf env range g req : plain_request req ->
  ClearCache cf env range g (gocacheQuery req) =
  match g with
  | None => (None, textError 501)
  | Some sv => match Clear cf env range sv req with
               | (sv, Err _) => (Some sv, textError 400)
               | (sv, Ok stats) => (Some sv, jsonReply stats 500)
               end
  end.
Proof.
  intros Hp. unfold ClearCache, handleNativeAdminJSON. destruct g as [sv|]; [|done].
  rewrite request_roundtrip by done. reflexivity.
Qed.

(** A dry run removes nothing. *)
Lemma dry_run_looks `{Zstd} `{JSON IntegrityReport} lcf actions s q bl :
  abs_dir (LocalStore.cf_dir lcf) -> LocalStore.holds lcf s bl -> range_of (LocalStore.index s) (actions (LocalStore.index s)) ->
  getParam q #"dry_run" = #"1" -> fst (serveIntegrityCheck lcf actions (Some s) q) = Some s.
Proof.
  intros Hd Hh Hr E. unfold serveIntegrityCheck. rewrite bool_decide_eq_true_2 by done.
  assert (Hi := LocalServe.IntegrityCheck_is_reference lcf Hd s bl actions true Hh Hr).
  destruct (LocalStore.IntegrityCheck _ _ _ _) as [s' [checked broken]]. destruct Hi as (_ & _ & ->). done.
Qed.

(** A manifest that can be read, or is not there. *)
Definition readable `{Zstd} (env : Env) (fs : Files) (f : bytes) : Prop :=
  match readManifestPaths env fs f with Ok _ => True | Err e => isNotExist e = true end.

Lemma collectRefs_readable `{Zstd} env fs files refs : Forall (readable env fs) files -> exists refs', collectRefs env fs files refs = Ok refs'.
Proof.
  intros Hf. revert refs. induction Hf as [|f files Hr _ IH]; intros refs; simpl; [by exists refs|].
  unfold readable in Hr. destruct (readManifestPaths env fs f); [apply IH|]. rewrite Hr. apply IH.
Qed.

(** A relation of each key with its answer says that the answers are those of the keys,
    in order. *)
Lemma answers_in_order (keys : list bytes) (res : list KeyInspection) (P : KeyInspection -> Prop) : length res = length keys ->
  (forall i key ki, keys !! i = Some key -> res !! i = Some ki -> ki_Key ki = key /\ P ki) ->
  map ki_Key res = keys /\ forall ki, ki ∈ res -> P ki.
Proof.
  intros Hl Hi. split.
  - apply list_eq_same_length with (n := length keys); [done|by rewrite length_map|].
    intros i x y _ Hx Hy. apply list_lookup_fmap_Some in Hx as (ki & -> & Hki). by destruct (Hi i y ki Hy Hki).
  - intros ki [i Hki]%list_elem_of_lookup. destruct (keys !! i) as [key|] eqn:Ek; [by apply (Hi i key)|].
    apply lookup_ge_None in Ek. apply lookup_lt_Some in Hki. lia.
Qed.

(** ** The client *)

Lemma client_may h (c : Client) : plain_token (cl_authToken c) ->
  authorized h (headerOf (setSessionAuthHeaders c ∅) headerAuthorization) = true <->
  authToken h = [] \/ cl_authToken c = authToken h \/ cl_authToken c = fallbackAuthToken h.
Proof.
  intros Hc. unfold setSessionAuthHeaders. rewrite headerOf_setText, bool_decide_eq_false_2 by (intros E; vm_compute in E; discriminate E).
  by apply authorized_token.
Qed.

Section client.
Context `{Zstd} `{JSON ClearStats} `{JSON InspectStats} `{JSON (list bytes)} `{JSON (list KeyInspection)} `{JSON IntegrityReport}.
Context (lcf : LocalStore.Config) (actions : gmap bytes LocalStore.indexEntry -> list bytes).
Context (cf : Config) (env : Env) (range : gset bytes -> list bytes).

Abbreviation net := (serveAdmin lcf actions cf env range).

(** The client's inspection is the store's. *)
Lemma inspection_served (c : Client) w req keys : plain_token (cl_authToken c) -> plain_request req -> json_ok keys ->
  let may := authToken (as_auth w) = [] \/ cl_authToken c = authToken (as_auth w) \/ cl_authToken c = fallbackAuthToken (as_auth w) in
  (~ may -> ClientInspectKeys (A := KeyInspection) net c w req keys = (w, Err (EMsg "status"))) /\
  (may -> forall sv, as_gocache w = Some sv ->
   match InspectKeys cf env sv req keys with
   | Ok res => json_ok res -> ClientInspectKeys net c w req keys = (w, Ok res)
   | Err _ => ClientInspectKeys (A := KeyInspection) net c w req keys = (w, Err (EMsg "status"))
   end).
Proof.
  intros Hc Hp Hk may. destruct (Unmarshal_Marshal keys Hk) as (body & Em & _ & Eu).
  assert (Ha := client_may (as_auth w) c Hc). fold may in Ha.
  assert (Hcall : forall res, isGatewayError res = false ->
    net (setSessionAuthHeaders c ∅) w (mkCall #"/inspect-keys" (gocacheQuery req) body true) = (w, Ok res) ->
    ClientInspectKeys (A := KeyInspection) net c w req keys =
      (w, let? _ := checkStatus res 200 in let? b := ReadAll (re_body res) in Unmarshal b)).
  { intros res Hg E. unfold ClientInspectKeys. rewrite Em. unfold clientNet. by rewrite (roundTrip_answered _ _ _ _ _ E Hg). }
  split.
  - intros Hn. apply (Hcall (textError 401)); [done|]. unfold serveAdmin.
    destruct (authorized _ _); [|done]. destruct Hn. by apply Ha.
  - intros Hm sv Hsv. apply Ha in Hm.
    assert (E : forall res, serveInspectKeys cf env (Some sv) (gocacheQuery req) body = res ->
      net (setSessionAuthHeaders c ∅) w (mkCall #"/inspect-keys" (gocacheQuery req) body true) = (w, Ok res)).
    { intros res <-. unfold serveAdmin. rewrite Hm, Hsv. reflexivity. }
    unfold serveInspectKeys in E. rewrite Eu, InspectKeys_served in E by done.
    destruct (InspectKeys cf env sv req keys) as [res|e]; [|by apply (Hcall (textError 400)); [|apply E]].
    intros Hr. destruct (Unmarshal_Marshal res Hr) as (b & Em' & _ & Eu'). unfold jsonReply in E. rewrite Em' in E.
    rewrite (Hcall (mkResponse 200 ∅ (fromBytes b))) by (done || by apply E). cbn. by rewrite Eu'.
Qed.

(** C28: an inspection from afar tells where each object is.  A client whose token the
    server knows, asking for any list of objects in a scope whose manifests can be read,
    gets one answer for each, in order: whether a manifest of the scope lists the object,
    and whether the store serves it, with its size; without the token it learns nothing.
    Nothing changes in the server's stores. *)
Theorem inspection_tells_where_objects_are (c : Client) w req (keys : list bytes) sv a
    (Hc : plain_token (cl_authToken c)) (Hp : plain_request req) (Hk : json_ok keys)
    (Hs : as_gocache w = Some sv) (Ha : repr cf (sv_store sv) a) (Hj : forall res, InspectKeys cf env sv req keys = Ok res -> json_ok res) :
  let may := authToken (as_auth w) = [] \/ cl_authToken c = authToken (as_auth w) \/ cl_authToken c = fallbackAuthToken (as_auth w) in
  let '(w', answer) := ClientInspectKeys net c w req keys in
  (~ may -> w' = w /\ answer = Err (EMsg "status")) /\
  (may -> w' = w /\ forall targets, targetManifestPaths cf env (sv_files sv) req = Ok targets -> Forall (readable env (sv_files sv)) targets ->
   exists res, answer = Ok res /\ map ki_Key res = keys /\
     forall ki, ki ∈ res ->
       (ki_InManifest ki = true <-> exists t, t ∈ targets /\ listed env (sv_files sv) t (ki_Key ki)) /\
       (ki_ExistsRemote ki = true <-> is_Some (a !! ki_Key ki)) /\
       forall ie b, a !! ki_Key ki = Some (ie, b) -> ki_Size ki = ie_Size ie).
Proof.
  intros may. destruct (inspection_served c w req keys Hc Hp Hk) as [Hno Hyes]. fold may in Hno, Hyes.
  destruct (ClientInspectKeys net c w req keys) as [w' answer]. split; [intros Hn; by injection (Hno Hn)|].
  intros Hm. specialize (Hyes Hm sv Hs). destruct (InspectKeys cf env sv req keys) as [res|e] eqn:Ei.
  - injection (Hyes (Hj _ eq_refl)) as -> ->. split; [done|]. intros targets Ht _. exists res. split; [done|].
    destruct (InspectKeys_spec cf env sv req keys a res Ha Ei) as (targets' & Ht' & Hlen & Hi). rewrite Ht in Ht'. injection Ht' as <-.
    apply answers_in_order; [done|]. intros i key ki Hkey Hki. by destruct (Hi i key ki Hkey Hki) as (<- & ?).
  - injection Hyes as -> ->. split; [done|]. intros targets Ht Hr. exfalso. unfold InspectKeys in Ei. rewrite Ht in Ei.
    destruct (collectRefs_readable env (sv_files sv) targets ∅ Hr) as [refs E]. by rewrite E in Ei.
Qed.
End client.

(** ** Examples *)

(** A codec that writes nothing. *)
Program Definition noJSON {A} : JSON A := {|
  Marshal _ := Err (EMsg "unsupported value");
  Unmarshal _ := Err (EMsg "unsupported value");
  json_ok _ := False;
|}.
Next Obligation. done. Qed.

#[export] Instance KeyInspection_eq_dec : EqDecision KeyInspection.
Proof. solve_decision. Defined.

Section examples.
Let Z0 := magicZstd.
Let C0 : JSON ClearStats := noJSON.
Let I0 : JSON InspectStats := noJSON.
Let R0 : JSON IntegrityReport := noJSON.
Definition anAnswer : KeyInspection := mkKeyInspection #"aa/x" true true 9 (Some 4).
Definition lostAnswer : KeyInspection := mkKeyInspection #"aa/y" false false 0 None.
Let L0 : JSON (list bytes) := tableJSON [[ #"aa/x"; #"aa/y"]].
Let K0 : JSON (list KeyInspection) := tableJSON [[anAnswer; lostAnswer]].
Local Existing Instance Z0.
Local Existing Instance C0.
Local Existing Instance I0.
Local Existing Instance R0.
Local Existing Instance L0.
Local Existing Instance K0.

Definition operatedSite : AdminSite := mkAdminSite (mkAuth #"secret" #"old") None (Some savedServer).

Lemma inspected : InspectKeys tightConfig (calm 9) savedServer clearRequest [ #"aa/x"; #"aa/y"] = Ok [anAnswer; lostAnswer].
Proof. vm_compute. reflexivity. Qed.

Lemma inspection_tells_where_objects_are_witness :
  exists res, ClientInspectKeys (serveAdmin (LocalServe.exampleConfig false) keys tightConfig (calm 9) elements)
      (mkClient #"old" #"s1") operatedSite clearRequest [ #"aa/x"; #"aa/y"] = (operatedSite, Ok res) /\
    map ki_Key res = [ #"aa/x"; #"aa/y"].
Proof.
  assert (H := inspection_tells_where_objects_are (LocalServe.exampleConfig false) keys tightConfig (calm 9) elements
    (mkClient #"old" #"s1") operatedSite clearRequest [ #"aa/x"; #"aa/y"] savedServer {[ #"aa/x" := (nineEntry, #"ninebytes") ]}).
  destruct (ClientInspectKeys _ _ _ _ _) as [w' answer].
  destruct H as [_ H].
  - split; [discriminate|vm_compute; reflexivity].
  - split; vm_compute; reflexivity.
  - apply list_elem_of_here.
  - reflexivity.
  - rewrite saved_store. exact tight_repr.
  - intros res E. rewrite inspected in E. injection E as <-. apply list_elem_of_here.
  - destruct H as [-> H]; [right; right; reflexivity|].
    destruct (targetManifestPaths tightConfig (calm 9) (sv_files savedServer) clearRequest) as [targets|] eqn:Et;
      [|vm_compute in Et; discriminate Et].
    destruct (H targets eq_refl) as (res & -> & Hk & _).
    + vm_compute in Et. injection Et as <-. constructor; [vm_compute; reflexivity|constructor].
    + exists res. split; [reflexivity|exact Hk].
Defined.
End examples.
