(* ===== verification/HttpCache.v ===== *)
(** The remote action cache: what src/internal/local/proxy.go calls its upstream.  The
    handlers of src/internal/http (get.go, head.go, put.go, preload.go, cache_used.go)
    over the local store, the client's side of them in src/internal/http/client.go, and
    the two put together: what is put over HTTP is what is got over HTTP. *)
From S2P Require Import Prelude.
From S2P Require Import GoStrings.
From S2P Require Import GoPath.
From S2P Require Import RecordPool.
From S2P Require Import Wire.
From S2P Require Import CacheWire.
From S2P Require Import Settings.
From S2P Require Import Proxy.
From S2P Require Import Manifests.
From S2P Require Import LocalManifests.
From S2P Require Import LocalStore.
From S2P Require Import LocalServe.
From S2P Require Import HttpNet.

(** ** What a response carries *)

(** [WriteTo] until its first error: the bytes that are out, and the error. *)
Fixpoint writtenBodies (items : list ResponseItem) : bytes * option goerr :=
  match items with
  | [] => ([], None)
  | item :: items =>
      match ItemWriteTo item with
      | Err e => ([], Some e)
      | Ok b => let '(bs, e) := writtenBodies items in (b ++ bs, e)
      end
  end.

Definition writtenResponse `{JSON (list ResponseMeta)} (items : list ResponseItem) : bytes * option goerr :=
  match Marshal (map ri_meta items) with
  | Err e => ([], Some e)
  | Ok jsonData =>
      match checkedJSONLength jsonData with
      | Err e => ([], Some e)
      | Ok n => let '(bs, e) := writtenBodies items in (putInt32 n ++ jsonData ++ bs, e)
      end
  end.

(** What the client gets of a body whose length was announced: net/http sends no more,
    and less is an error when it is read. *)
Definition announced (cl : Z) (out : bytes) : stream :=
  mkStream (take (Z.to_nat cl) out) (if blen out <? cl then Some (EMsg "unexpected EOF") else None).

Definition statusOnly (code : Z) : Response := mkResponse code ∅ (fromBytes []).
Definition okBody (body : stream) : Response := mkResponse 200 ∅ body.

Definition with_wire (m : ResponseMeta) (wireSize : Z) (diskPath : bytes) : ResponseMeta :=
  mkResponseMeta (ri_ActionID m) (ri_Miss m) (ri_OutputID m) (ri_Size m) (ri_Time m) (ri_IsCompressed m) wireSize diskPath.

(** The callback of the handlers [Get] and [Preload]: the wire size is filled in, and a
    file is opened here, its path not told. *)
Definition servedItem (open : bytes -> result stream) (item : ResponseItem) : ResponseItem :=
  let m := ri_meta item in
  mkResponseItem (with_wire m (if ri_WireSize m =? 0 then ri_Size m else ri_WireSize m) [])
    (if bool_decide (ri_DiskPath m = []) then ri_body item else Some (open (ri_DiskPath m))).

(** ** The handlers *)

Section handlers.
Context `{Zstd} `{JSON (list bytes)} `{JSON (list ResponseMeta)} (cf : Config).

(** The items of a response as [Get] and [Preload] send them. *)
Definition respondItems (items : list ResponseItem) : Response :=
  match ResponseContentLength items with
  | Err _ => statusOnly 500
  | Ok cl => okBody (announced cl (fst (writtenResponse items)))
  end.

(** [Handler.Get]; the store looks at its clock for every action. *)
Definition serveGet (clock : nat -> Z) (s : Store) (body : bytes) : Store * Response :=
  match Unmarshal body with
  | Err _ => (s, statusOnly 400)
  | Ok actionIDs =>
      let '(s, items) := Get cf s (imap (fun k a => (a, clock k)) actionIDs) in
      (s, respondItems (map (servedItem (openFile (outputs s))) items))
  end.

(** [Handler.Head]: the items without their bodies. *)
Definition serveHead (clock : nat -> Z) (s : Store) (body : bytes) : Store * Response :=
  match Unmarshal body with
  | Err _ => (s, statusOnly 400)
  | Ok actionIDs =>
      let '(s, items) := Get cf s (imap (fun k a => (a, clock k)) actionIDs) in
      match Marshal (map ri_meta (map (servedItem (openFile (outputs s))) items)) with
      | Err _ => (s, statusOnly 500)
      | Ok j => (s, okBody (fromBytes j))
      end
  end.

(** The callback of [Handler.Put].  An item of size zero goes to the store as it came,
    with its path, and the store's readers open paths: [open] is the server's disk. *)
Definition putCallback (open : bytes -> result stream) (args : ResponseMeta -> putArgs)
    (m : ResponseMeta) (body : option stream) (s : Store) : Store * option goerr :=
  let put item := match PutAll cf s [(item, args m)] with (s, Ok _) => (s, None) | (s, Err e) => (s, Some e) end in
  if negb (ri_Size m =? 0) then
    match body with
    | None => (s, Some (EMsg "empty body"))
    | Some rd => put (mkResponseItem (with_wire m (ri_WireSize m) []) (Some (Ok rd)))
    end
  else put (ItemPrepareBodyReader (mkResponseItem m None) open).

Definition servePut (open : bytes -> result stream) (args : ResponseMeta -> putArgs) (s : Store) (body : stream)
    : Store * Response :=
  match ResponseReaderFrom body (putCallback open args) s with
  | (s, Err _) => (s, statusOnly 500)
  | (s, Ok _) => (s, statusOnly 204)
  end.

(** [isManifestValidationError], on the errors that the manifest paths have. *)
Definition manifestErrors : list goerr :=
  [EMsg "invalid commit"; EMsg "commit too long"; EMsg "invalid changes-id"; EMsg "changes-id too long";
   EMsg "invalid build-type"; EMsg "build-type too long"].
Definition isManifestValidationError (e : goerr) : bool := bool_decide (e ∈ manifestErrors).

Definition errorStatus (e : goerr) : Z := if isManifestValidationError e then 400 else 500.

(** [readActionIDs]. *)
Definition readActionIDs (body : bytes) : result (list bytes) :=
  match ScanLines scannerMax body with
  | (_, true) => Err (EMsg "bufio.Scanner: token too long")
  | (lines, false) => Ok (unseen ∅ (filter (fun a => a <> []) (map TrimSpace lines)))
  end.

(** [Handler.CacheUsed]. *)
Definition serveCacheUsed (env : Env) (fs : Files) (q : Query) (body : bytes) : Files * Response :=
  let commit := TrimSpace (getParam q #"commit") in
  let changesID := TrimSpace (getParam q #"changes-id") in
  let buildType := TrimSpace (getParam q #"build-type") in
  let replaceChanges := bool_decide (getParam q #"replace-changes" = #"1") in
  if bool_decide (commit = []) && bool_decide (changesID = []) then (fs, statusOnly 400)
  else match readActionIDs body with
  | Err _ => (fs, statusOnly 400)
  | Ok actionIDs =>
      match PostCacheUsed cf env fs commit changesID buildType actionIDs replaceChanges with
      | (fs, Err e) => (fs, statusOnly (errorStatus e))
      | (fs, Ok _) => (fs, statusOnly 204)
      end
  end.

Definition headerPreloadSources : bytes := #"X-Gocacheprog-Preload-Sources".

(** [Handler.Preload], one at a time: the queue in front of it only delays.  Either it
    ends with an error, or with the sources and the items, within the budget. *)
Definition preloadAnswer `{JSON PreloadRequest} `{SliceSort} (h : Handler) (env env' : Env) (fs : Files)
    (range : gmap bytes indexEntry -> list bytes) (s : Store) (body : bytes)
    : Store * (Response + list bytes * list ResponseItem) :=
  match Unmarshal body with
  | Err _ => (s, inl (statusOnly 400))
  | Ok req =>
      match PreloadSources cf env fs req with
      | Err e => (s, inl (statusOnly (errorStatus e)))
      | Ok sources =>
          match Preload cf env' fs range s req with
          | (s, Err e) => (s, inl (statusOnly (errorStatus e)))
          | (s, Ok items) =>
              (s, inr (sources, trimToPreloadBudget (map (servedItem (openFile (outputs s))) items)
                                  (maxPreloadTotalBytesFor h (pl_BuildType req))))
          end
      end
  end.

Definition servePreload `{JSON PreloadRequest} `{SliceSort} (h : Handler) (env env' : Env) (fs : Files)
    (range : gmap bytes indexEntry -> list bytes) (s : Store) (body : bytes) : Store * Response :=
  match preloadAnswer h env env' fs range s body with
  | (s, inl r) => (s, r)
  | (s, inr (sources, items)) =>
      let header := if bool_decide (sources = []) then ∅ else {[ headerPreloadSources := Join sources #"," ]} in
      let r := respondItems items in
      (s, mkResponse (re_status r) header (re_body r))
  end.
End handlers.

(** ** The client *)

Section client.
Context {W : Type} (net : W -> Call -> W * result Response).
Context `{Zstd} `{JSON (list bytes)} `{JSON (list ResponseMeta)}.

(** The callback of the client's [Get] and [Preload]: the items that arrive. *)
Definition receive (m : ResponseMeta) (body : option stream) (items : list ResponseItem)
    : list ResponseItem * option goerr :=
  if negb (ri_Size m =? 0) then
    match body with
    | None => (items, Some (EMsg "empty body"))
    | Some rd => (items ++ [mkResponseItem m (Some (Ok rd))], None)
    end
  else (items ++ [mkResponseItem m None], None).

Definition receiveAll (rd : stream) : list ResponseItem * result unit :=
  match ResponseReaderFrom rd receive [] with
  | (items, Err e) => (items, Err e)
  | (items, Ok _) => (items, Ok tt)
  end.

(** [Client.Get]: the items its callback was called with, and how it ended. *)
Definition ClientGet (w : W) (actionIDs : list bytes) : W * (list ResponseItem * result unit) :=
  match Marshal actionIDs with
  | Err e => (w, ([], Err e))
  | Ok j =>
      match roundTrip net w (mkCall #"/get" ∅ j true) with
      | (w, Err e) => (w, ([], Err e))
      | (w, Ok res) =>
          match checkStatus res 200 with
          | Err e => (w, ([], Err e))
          | Ok _ => (w, receiveAll (re_body res))
          end
      end
  end.

Definition head (w : W) (actionIDs : list bytes) : W * result (list ResponseMeta) :=
  match Marshal actionIDs with
  | Err e => (w, Err e)
  | Ok j =>
      match roundTrip net w (mkCall #"/head" ∅ j true) with
      | (w, Err e) => (w, Err e)
      | (w, Ok res) =>
          (w, let? _ := checkStatus res 200 in let? j := ReadAll (re_body res) in Unmarshal j)
      end
  end.

(** A body that is large enough is compressed; an error shows when it is read. *)
Definition compressedForPut (item : ResponseItem) : ResponseItem :=
  if ri_Size (ri_meta item) <? MinCompressionSize then item
  else
    let '(item, r) := ItemCompressedBodyReader item in
    ItemSetBodyReader item match r with
                           | Ok (Some rd) => Ok rd
                           | Ok None => Err (EPanic "nil reader")
                           | Err e => Err e
                           end.

Definition filterPutItems (w : W) (values : list ResponseItem) : W * result (list ResponseItem) :=
  match head w (map (fun i => ri_ActionID (ri_meta i)) values) with
  | (w, Err e) => (w, Err e)
  | (w, Ok exists_) =>
      let known := map ri_ActionID (filter (fun m => ri_Miss m = false /\ ri_ActionID m <> []) exists_) in
      (w, Ok (map compressedForPut (filter (fun i => ri_ActionID (ri_meta i) ∉ known) values)))
  end.

(** [Client.Put]; the body is in a buffer, so it can be sent again. *)
Definition ClientPut (w : W) (values : list ResponseItem) : W * result unit :=
  match filterPutItems w values with
  | (w, Err e) => (w, Err e)
  | (w, Ok values) =>
      match ResponseReaderNaive values with
      | Err e => (w, Err e)
      | Ok rd =>
          match roundTrip net w (mkCall #"/put" ∅ (st_data rd) true) with
          | (w, Err e) => (w, Err e)
          | (w, Ok res) => (w, checkStatus res 204)
          end
      end
  end.

Definition cacheUsedQuery (commit changesID buildType : bytes) (replaceChanges : bool) : Query :=
  let q := setText #"build-type" buildType (setText #"changes-id" changesID (setText #"commit" commit ∅)) in
  if replaceChanges then <[ #"replace-changes" := #"1" ]> q else q.

(** [Client.PostCacheUsed]. *)
Definition ClientPostCacheUsed (w : W) (commit changesID buildType : bytes) (actionIDs : list bytes)
    (replaceChanges : bool) : W * result unit :=
  if bool_decide (commit = []) && bool_decide (changesID = []) then (w, Ok tt)
  else
    match roundTrip net w (mkCall #"/cache-used" (cacheUsedQuery commit changesID buildType replaceChanges)
                             (Join actionIDs [newline]) true) with
    | (w, Err e) => (w, Err e)
    | (w, Ok res) => (w, checkStatus res 204)
    end.

(** [Client.Preload]. *)
Definition ClientPreload `{JSON PreloadRequest} (w : W) (req : PreloadRequest) : W * (list ResponseItem * result unit) :=
  match Marshal req with
  | Err e => (w, ([], Err e))
  | Ok j =>
      match roundTrip net w (mkCall #"/preload" ∅ j true) with
      | (w, Err e) => (w, ([], Err e))
      | (w, Ok res) =>
          match checkStatus res 200 with
          | Err e => (w, ([], Err e))
          | Ok _ => (w, receiveAll (re_body res))
          end
      end
  end.
End client.

(** ** The client at the handlers *)

(** The store and the manifests beside it, and what one request meets. *)
Record CacheServer := mkCacheServer { cs_store : Store; cs_files : Files }.

Record CacheEnv := mkCacheEnv {
  ce_clock : nat -> Z;
  ce_put : ResponseMeta -> putArgs;
  ce_disk : bytes -> result stream;
  ce_sources : Env;
  ce_manifests : Env;
  ce_range : gmap bytes indexEntry -> list bytes;
  ce_settings : Handler;
}.

Section direct.
Context `{Zstd} `{JSON (list bytes)} `{JSON (list ResponseMeta)} `{JSON PreloadRequest} `{SliceSort}.
Context (cf : Config) (ce : CacheEnv).

Definition serveCache (w : CacheServer) (c : Call) : CacheServer * result Response :=
  let on_store r := (mkCacheServer (fst r) (cs_files w), Ok (snd r)) in
  let s := cs_store w in
  if bool_decide (c_path c = #"/get") then on_store (serveGet cf (ce_clock ce) s (c_body c))
  else if bool_decide (c_path c = #"/head") then on_store (serveHead cf (ce_clock ce) s (c_body c))
  else if bool_decide (c_path c = #"/put") then
    on_store (servePut cf (ce_disk ce) (ce_put ce) s (fromBytes (c_body c)))
  else if bool_decide (c_path c = #"/preload") then
    on_store (servePreload cf (ce_settings ce) (ce_sources ce) (ce_manifests ce) (cs_files w) (ce_range ce) s (c_body c))
  else if bool_decide (c_path c = #"/cache-used") then
    let '(fs, r) := serveCacheUsed cf (ce_manifests ce) (cs_files w) (c_query c) (c_body c) in
    (mkCacheServer s fs, Ok r)
  else (w, Ok (statusOnly 404)).
End direct.

(** ** What is sent is what arrives *)

(** An item that can be written: its body is there, as long as its wire size. *)
Definition writable (i : ResponseItem) : Prop := exists b, ItemWriteTo i = Ok b.

(** The item as the other side gets it; one of size zero has no body. *)
Definition arrived (i : ResponseItem) : ResponseItem :=
  mkResponseItem (ri_meta i)
    (if ri_Size (ri_meta i) =? 0 then None else match ItemWriteTo i with Ok b => Some (Ok (fromBytes b)) | Err _ => None end).

(** The announced sizes of the items are those of their bodies. *)
Definition measured (i : ResponseItem) : Prop := ri_WireSize (ri_meta i) = 0 -> ri_Size (ri_meta i) = 0.

Lemma measured_unsent items : Forall measured items -> total_unsent items = 0.
Proof.
  induction 1 as [|i items Hi Hm IH]; [done|]. unfold total_unsent in *. cbn [foldr]. rewrite IH. unfold unsent.
  destruct (Z.eqb_spec (ri_WireSize (ri_meta i)) 0) as [E|E]; [|done]. by rewrite (Hi E).
Qed.

Lemma written_all items : Forall writable items -> exists bs, writeItemBodies items = Ok bs /\ writtenBodies items = (bs, None).
Proof.
  induction 1 as [|i items [b Hb] Hw (bs & E1 & E2)]; [by exists []|]. exists (b ++ bs).
  cbn [writeItemBodies writtenBodies]. by rewrite Hb, E1, E2.
Qed.

Lemma announced_whole out : announced (blen out) out = fromBytes out.
Proof. unfold announced, blen. rewrite Nat2Z.id, take_ge, Z.ltb_irrefl by lia. done. Qed.

Section transfer.
Context `{JSON (list ResponseMeta)}.

(** A response that fits its header goes out whole. *)
Lemma respond_whole items :
  Forall writable items -> Forall measured items -> json_ok (map ri_meta items) ->
  (forall j, Marshal (map ri_meta items) = Ok j -> blen j <= MaxInt32) ->
  exists out, ResponseWriteTo items = Ok out /\ respondItems items = okBody (fromBytes out).
Proof.
  intros Hw Hm Hj Hl. destruct (Unmarshal_Marshal _ Hj) as (j & Ej & _). specialize (Hl j Ej).
  destruct (written_all items Hw) as (bs & E1 & E2). exists (putInt32 (blen j) ++ j ++ bs).
  assert (Eo : ResponseWriteTo items = Ok (putInt32 (blen j) ++ j ++ bs)).
  { unfold ResponseWriteTo, checkedJSONLength. by rewrite Ej, (proj2 (Z.ltb_ge _ _)), E1. }
  split; [done|]. unfold respondItems. rewrite (ResponseContentLength_parts items _ Eo), measured_unsent, Z.add_0_r by done.
  unfold writtenResponse, checkedJSONLength. rewrite Ej, (proj2 (Z.ltb_ge _ _)), E2 by done. cbn [fst].
  by rewrite announced_whole.
Qed.

Lemma deliver_receive items acc :
  Forall writable items -> Forall measured items ->
  deliverItems items receive acc = (acc ++ map arrived items, None).
Proof.
  intros Hw. revert acc. induction Hw as [|i items [b Hb] Hw IH]; intros acc Hm; cbn [deliverItems map].
  { by rewrite app_nil_r. }
  apply Forall_cons in Hm as [Hi Hm]. unfold receive at 1, arrived at 1, receivedItem.
  destruct (Z.eqb_spec (ri_Size (ri_meta i)) 0) as [E|E]; cbn [negb].
  - rewrite IH, <-app_assoc by done. done.
  - destruct (Z.eqb_spec (ri_WireSize (ri_meta i)) 0) as [Ew|Ew]; [by apply Hi in Ew|].
    rewrite Hb, IH, <-app_assoc by done. done.
Qed.

Lemma receive_whole items out :
  Forall writable items -> Forall measured items -> json_ok (map ri_meta items) -> ResponseWriteTo items = Ok out ->
  receiveAll (fromBytes out) = (map arrived items, Ok tt).
Proof.
  intros Hw Hm Hj Ho. unfold receiveAll, fromBytes. rewrite <-(app_nil_r out).
  rewrite (Response_roundtrip items out) by done. by rewrite deliver_receive.
Qed.

(** A response to any reader: the items that arrive are the first of those that were
    announced, all of them when the reading ends well. *)
Lemma receive_prefix_bodies metas rd acc total :
  let '(items, r) := readItemBodies metas rd receive acc total in
  exists front, map ri_meta items = map ri_meta acc ++ front /\ front `prefix_of` metas /\
    forall n, r = Ok n -> front = metas.
Proof.
  revert rd acc total. induction metas as [|m metas IH]; intros rd acc total; cbn [readItemBodies].
  { exists []. by rewrite app_nil_r. }
  assert (Hstop : exists front, map ri_meta acc = map ri_meta acc ++ front /\ front `prefix_of` m :: metas /\
    forall (e : goerr) n, @Err Z e = Ok n -> front = m :: metas).
  { exists []. rewrite app_nil_r. split; [done|]. split; [apply prefix_nil|done]. }
  assert (Hstep : forall x (rd' : stream) t, map ri_meta x = map ri_meta acc ++ [m] ->
    let '(items, r) := readItemBodies metas rd' receive x t in
    exists front, map ri_meta items = map ri_meta acc ++ front /\ front `prefix_of` m :: metas /\
      forall n, r = Ok n -> front = m :: metas).
  { intros x rd' t Hx. specialize (IH rd' x t). destruct (readItemBodies _ _ _ _ _) as [items r].
    destruct IH as (front & E & Hp & Hr). exists (m :: front). split; [by rewrite E, Hx, <-app_assoc|].
    split; [by apply prefix_cons|]. intros n Hn. by rewrite (Hr n Hn). }
  destruct (ri_WireSize m =? 0).
  - unfold receive at 1. destruct (negb _); [|apply Hstep; by rewrite map_app].
    destruct Hstop as (front & E & Hp & Hr). exists front. split_and!; try done.
  - unfold readItemBody. set (cr := LimitReader rd (ri_WireSize m)).
    assert (Hr : exists x, receive m (Some cr) acc = (x, None) /\ map ri_meta x = map ri_meta acc ++ [m]).
    { unfold receive. destruct (negb _); (eexists; split; [reflexivity|]); by rewrite map_app. }
    destruct Hr as (x & -> & Hx). destruct (st_err cr) as [e|]; [|destruct (negb _)].
    + exists [m]. split; [done|]. split; [apply prefix_cons, prefix_nil|done].
    + exists [m]. split; [done|]. split; [apply prefix_cons, prefix_nil|done].
    + by apply Hstep.
Qed.
End transfer.

(** ** A request for actions *)

(** What is sent for an entry with the stored bytes [b]. *)
Definition sentMeta (a : bytes) (ie : indexEntry) : ResponseMeta :=
  mkResponseMeta a false (ie_OutputID ie) (ie_Size ie) (Some (ie_TimeMicro ie)) (ie_Compressed ie =? 1) (entryStoredSize ie) [].

Definition missMeta (a : bytes) : ResponseMeta := ri_meta (missItem a).

(** No entry declares a negative size. *)
Definition sized (s : Store) : Prop := forall a ie, index s !! a = Some ie -> 0 <= ie_WireSize ie.

(** The metadata of the answer for an action, and whether it is one of a hit. *)
Definition hit (cf : Config) (s : Store) (a : bytes) : option indexEntry :=
  match index s !! a with
  | Some ie => if (0 <? cf_maxFileBytes cf) && (cf_maxFileBytes cf <? ie_Size ie) then None else Some ie
  | None => None
  end.

Definition answerMeta (cf : Config) (s : Store) (a : bytes) : ResponseMeta :=
  match hit cf s a with Some ie => sentMeta a ie | None => missMeta a end.

(** The item that the client gets. *)
Definition gotItem (cf : Config) (s : Store) (bl : gmap bytes bytes) (a : bytes) : ResponseItem :=
  mkResponseItem (answerMeta cf s a)
    (match hit cf s a with
     | Some ie => if ie_Size ie =? 0 then None else match bl !! ie_OutputID ie with Some b => Some (Ok (fromBytes b)) | None => None end
     | None => None
     end).

Lemma servedItem_prepare open item :
  (ri_body item = None \/ ri_DiskPath (ri_meta item) = []) ->
  let p := ItemPrepareBodyReader item open in
  servedItem open item =
    mkResponseItem (with_wire (ri_meta p) (if ri_WireSize (ri_meta p) =? 0 then ri_Size (ri_meta p) else ri_WireSize (ri_meta p)) []) (ri_body p).
Proof.
  intros Hi. unfold servedItem, ItemPrepareBodyReader. destruct (ri_body item) as [x|] eqn:E.
  - destruct Hi as [?|Hp]; [done|]. by rewrite Hp, bool_decide_eq_true_2, E by done.
  - case_bool_decide; cbn [ri_meta ri_body]; by rewrite ?E.
Qed.

Lemma responseItem_either cf out a ie :
  ri_body (responseItem cf out a ie) = None \/ ri_DiskPath (ri_meta (responseItem cf out a ie)) = [].
Proof. unfold responseItem. destruct (negb _); [by right|by left]. Qed.

Section asking.
Context (cf : Config) (Hdir : abs_dir (cf_dir cf)).

Lemma stored_nonneg s bl a ie : holds cf s bl -> index s !! a = Some ie -> 0 <= entryStoredSize ie.
Proof. intros [_ He] Ha. destruct (He a ie Ha) as (b & _ & <- & _). apply blen_nonneg. Qed.

(** The item of an entry, as it is sent and as it arrives. *)
Lemma entry_sent s bl a ie b :
  holds cf s bl -> sized s -> index s !! a = Some ie -> bl !! ie_OutputID ie = Some b ->
  let sent := servedItem (openFile (outputs s)) (responseItem cf (outputs s) a ie) in
  ri_meta sent = sentMeta a ie /\ writable sent /\ measured sent /\
  arrived sent = mkResponseItem (sentMeta a ie) (if ie_Size ie =? 0 then None else Some (Ok (fromBytes b))).
Proof.
  intros Hh Hz Ei Hb. cbv zeta. rewrite servedItem_prepare by apply responseItem_either. cbv zeta.
  assert (Hp := served_stored cf s bl a ie b Hdir Hh Ei Hb). unfold served in Hp. rewrite Hp.
  cbn [ri_meta ri_body served_meta ri_WireSize ri_Size with_wire].
  destruct (proj2 Hh a ie Ei) as (b' & Hb' & Hl & _). assert (b' = b) as -> by congruence.
  assert (Hw : (if ie_WireSize ie =? 0 then ie_Size ie else ie_WireSize ie) = blen b).
  { rewrite Hl. unfold entryStoredSize. specialize (Hz a ie Ei). destruct (Z.eqb_spec (ie_WireSize ie) 0) as [E|E].
    - by rewrite E.
    - by rewrite (proj2 (Z.ltb_lt _ _)) by lia. }
  rewrite Hw, Hl. change (with_wire _ (entryStoredSize ie) _) with (sentMeta a ie). split; [done|].
  assert (Hm : entryStoredSize ie = 0 -> ie_Size ie = 0).
  { unfold entryStoredSize. destruct (Z.ltb_spec 0 (ie_WireSize ie)); lia. }
  destruct (Z.eqb_spec (blen b) 0) as [E|E].
  - assert (b = []) as -> by (by destruct b). rewrite <-Hl in Hm. specialize (Hm eq_refl).
    split; [|split; [by intros _|unfold arrived; cbn [ri_meta sentMeta ri_Size]; by rewrite Hm]].
    exists []. unfold ItemWriteTo, ItemWireBodyReader, noBody. cbn [ri_meta ri_Size ri_WireSize sentMeta ri_body].
    by rewrite <-Hl, Hm.
  - assert (Hit : ItemWriteTo (mkResponseItem (sentMeta a ie) (Some (Ok (fromBytes b)))) = Ok b).
    { unfold ItemWriteTo, ItemWireBodyReader, noBody. cbn [ri_meta ri_Size ri_WireSize sentMeta ri_body]. rewrite <-Hl.
      rewrite (proj2 (Z.eqb_neq _ _) E), andb_false_r. assert (Hn := blen_nonneg b). rewrite (proj2 (Z.ltb_ge _ _)) by lia.
      unfold ReadFull. cbn [fromBytes st_data st_err]. rewrite Z.leb_refl. unfold blen. by rewrite Nat2Z.id, firstn_all. }
    split; [by exists b|]. split; [exact Hm|]. unfold arrived. rewrite Hit. done.
Qed.

(** The item for an action. *)
Lemma answer_sent s bl a item :
  holds cf s bl -> sized s -> answer cf s bl a item ->
  let sent := servedItem (openFile (outputs s)) item in
  ri_meta sent = answerMeta cf s a /\ writable sent /\ measured sent /\ arrived sent = gotItem cf s bl a.
Proof.
  intros Hh Hz Ha. unfold answer, gotItem, answerMeta, hit in *. destruct (index s !! a) as [ie|] eqn:Ei.
  2: { rewrite Ha. split; [done|]. split; [by exists []|]. split; [by intros _|reflexivity]. }
  destruct (_ && _).
  { rewrite Ha. split; [done|]. split; [by exists []|]. split; [by intros _|reflexivity]. }
  destruct Ha as (b & Hb & -> & _). rewrite Hb. by apply (entry_sent s bl a ie b).
Qed.

Lemma answers_sent s bl ids items :
  holds cf s bl -> sized s -> Forall2 (fun a item => answer cf s bl a item) ids items ->
  let sent := map (servedItem (openFile (outputs s))) items in
  map ri_meta sent = map (answerMeta cf s) ids /\ Forall writable sent /\ Forall measured sent /\
  map arrived sent = map (gotItem cf s bl) ids.
Proof.
  intros Hh Hz. induction 1 as [|a item ids items Ha Hf IH]; cbn [map]; [done|].
  destruct (answer_sent s bl a item Hh Hz Ha) as (E1 & E2 & E3 & E4). destruct IH as (I1 & I2 & I3 & I4).
  rewrite E1, I1, E4, I4. split_and!; [done|by constructor|by constructor|done].
Qed.

(** [Get] for a list of actions. *)
Lemma Get_answers s bl ids clock s' items :
  holds cf s bl -> Get cf s (imap (fun k a => (a, clock k)) ids) = (s', items) ->
  Forall2 (fun a item => answer cf s bl a item) ids items /\ holds cf s' bl /\ outputs s' = outputs s.
Proof.
  intros Hh E. assert (H := get_ok cf s bl (imap (fun k a => (a, clock k)) ids) Hdir Hh). unfold Get in E. rewrite E in H.
  destruct H as (Hf & Hh' & Ho & _). split; [|done].
  assert (Hids : ids = (imap (fun k a => (a, clock k)) ids).*1).
  { clear. revert clock. induction ids as [|a ids IH]; intros clock; [done|]. cbn [imap fmap list_fmap]. f_equal. apply IH. }
  rewrite Hids. apply Forall2_fmap_l. exact Hf.
Qed.

(** Looking actions up changes no answer. *)
Lemma getOne_keeps s a now :
  let s' := fst (getOne cf s a now) in
  (forall c, match hit cf s' c, hit cf s c with
             | Some ie', Some ie => sentMeta c ie' = sentMeta c ie /\ ie_OutputID ie' = ie_OutputID ie
             | None, None => True
             | _, _ => False
             end) /\
  (forall c, index s' !! c = None <-> index s !! c = None) /\ (sized s -> sized s').
Proof.
  assert (Hrefl : forall s0 : Store, (forall c, match hit cf s0 c, hit cf s0 c with
     | Some ie', Some ie => sentMeta c ie' = sentMeta c ie /\ ie_OutputID ie' = ie_OutputID ie
     | None, None => True | _, _ => False end)) by (intros s0 c; by destruct (hit cf s0 c)).
  unfold getOne. destruct (index s !! a) as [ie|] eqn:Ea; [|split; [exact (Hrefl s)|done]].
  destruct (_ && _) eqn:Eo; [split; [exact (Hrefl s)|done]|]. cbn [fst]. split; [|split].
  - intros c. unfold hit. cbn [index set_index count]. destruct (decide (c = a)) as [->|Hne].
    + rewrite lookup_insert_eq, Ea. cbn [touch ie_Size]. by rewrite Eo.
    + rewrite lookup_insert_ne by done. exact (Hrefl s c).
  - intros c. cbn [index set_index count]. rewrite lookup_insert_None.
    split; [tauto|]. intros Hc. split; [done|]. intros <-. congruence.
  - intros Hz c ie'. cbn [index set_index count]. intros [[<- <-]|[_ Hc]]%lookup_insert_Some; [exact (Hz a ie Ea)|exact (Hz c ie' Hc)].
Qed.

Lemma Get_keeps s req :
  let s' := fst (Get cf s req) in
  (forall bl c, gotItem cf s' bl c = gotItem cf s bl c) /\ (forall c, index s' !! c = None <-> index s !! c = None) /\
  (sized s -> sized s').
Proof.
  unfold Get. revert s. induction req as [|[a now] req IH]; intros s; [done|]. cbn [get].
  assert (H1 := getOne_keeps s a now). destruct (getOne cf s a now) as [s1 item]. cbn [fst] in H1.
  specialize (IH s1). destruct (get cf s1 req) as [s2 items]. cbn [fst] in *.
  destruct H1 as (H1 & H2 & H3), IH as (I1 & I2 & I3). split; [|split; [|tauto]].
  - intros bl c. rewrite I1. unfold gotItem, answerMeta. specialize (H1 c).
    destruct (hit cf s1 c) as [ie'|], (hit cf s c) as [ie|]; try done. destruct H1 as [E1 E2].
    assert (E3 : ie_Size ie' = ie_Size ie) by (by apply (f_equal ri_Size) in E1). by rewrite E1, E2, E3.
  - intros c. by rewrite I2.
Qed.

Context `{Zstd} `{JSON (list bytes)} `{JSON (list ResponseMeta)}.

(** What JSON carries of a list of metadata, in a header that is not too long. *)
Definition carries (metas : list ResponseMeta) : Prop :=
  json_ok metas /\ forall j, Marshal metas = Ok j -> blen j <= MaxInt32.

(** [Handler.Get] on a clean store. *)
Lemma serveGet_ok s bl clock ids j :
  holds cf s bl -> sized s -> Unmarshal j = Ok ids -> carries (map (answerMeta cf s) ids) ->
  exists s' out, serveGet cf clock s j = (s', okBody (fromBytes out)) /\
    receiveAll (fromBytes out) = (map (gotItem cf s bl) ids, Ok tt) /\
    holds cf s' bl /\ outputs s' = outputs s /\ s' = fst (Get cf s (imap (fun k a => (a, clock k)) ids)).
Proof.
  intros Hh Hz Hj [Hc1 Hc2]. unfold serveGet. rewrite Hj.
  destruct (Get cf s _) as [s' items] eqn:E. destruct (Get_answers s bl ids clock s' items Hh E) as (Hf & Hh' & Ho).
  destruct (answers_sent s bl ids items Hh Hz Hf) as (E1 & E2 & E3 & E4). rewrite Ho.
  destruct (respond_whole (map (servedItem (openFile (outputs s))) items)) as (out & Ew & ->); [done|done|by rewrite E1..|].
  exists s', out. split; [done|]. split; [|done]. rewrite <-E4. apply receive_whole; [done|done|by rewrite E1|done].
Qed.

(** [Handler.Head] on a clean store. *)
Lemma serveHead_ok s bl clock ids j :
  holds cf s bl -> sized s -> Unmarshal j = Ok ids -> json_ok (map (answerMeta cf s) ids) ->
  exists s' out, serveHead cf clock s j = (s', okBody (fromBytes out)) /\ Unmarshal out = Ok (map (answerMeta cf s) ids) /\
    holds cf s' bl /\ outputs s' = outputs s /\ s' = fst (Get cf s (imap (fun k a => (a, clock k)) ids)).
Proof.
  intros Hh Hz Hj Hc. unfold serveHead. rewrite Hj.
  destruct (Get cf s _) as [s' items] eqn:E. destruct (Get_answers s bl ids clock s' items Hh E) as (Hf & Hh' & Ho).
  destruct (answers_sent s bl ids items Hh Hz Hf) as (E1 & _). rewrite Ho, E1.
  destruct (Unmarshal_Marshal _ Hc) as (out & -> & _ & Hu). exists s', out. by rewrite Hu.
Qed.
End asking.

(** ** Items that are put *)

Section putting.
Context `{Zstd} `{JSON (list ResponseMeta)} (cf : Config) (Hdir : abs_dir (cf_dir cf)).
Context (open : bytes -> result stream) (args : ResponseMeta -> putArgs).

(** What the handler hands to the store for an item that was sent. *)
Definition storedItem (i : ResponseItem) : ResponseItem :=
  if ri_Size (ri_meta i) =? 0 then ItemPrepareBodyReader (mkResponseItem (ri_meta i) None) open
  else mkResponseItem (with_wire (ri_meta i) (ri_WireSize (ri_meta i)) [])
         (match ItemWriteTo i with Ok b => Some (Ok (fromBytes b)) | Err _ => None end).

Abbreviation callback := (putCallback cf open args).
Abbreviation action i := (ri_ActionID (ri_meta i)).
Abbreviation output i := (ri_OutputID (ri_meta i)).
Abbreviation puts i := (putting cf (storedItem i) (args (ri_meta i))).

Lemma prepared_meta item : ri_meta (ItemPrepareBodyReader item open) = ri_meta item.
Proof. unfold ItemPrepareBodyReader. destruct (ri_body item); [done|]. by case_bool_decide. Qed.

Lemma storedItem_meta i :
  action (storedItem i) = action i /\ output (storedItem i) = output i /\
  ri_Size (ri_meta (storedItem i)) = ri_Size (ri_meta i) /\ ri_WireSize (ri_meta (storedItem i)) = ri_WireSize (ri_meta i).
Proof. unfold storedItem. destruct (_ =? 0); [by rewrite prepared_meta|done]. Qed.

Lemma callback_put i s :
  writable i -> measured i ->
  callback (ri_meta i) (receivedItem i) s =
  match putOne cf s (storedItem i) (args (ri_meta i)) with (s, Err e) => (s, Some e) | (s, Ok _) => (s, None) end.
Proof.
  intros [b Hb] Hm. unfold putCallback, storedItem, receivedItem. cbn [PutAll].
  destruct (Z.eqb_spec (ri_Size (ri_meta i)) 0) as [E|E]; cbn [negb].
  - by destruct (putOne _ _ _ _) as [s' []].
  - destruct (Z.eqb_spec (ri_WireSize (ri_meta i)) 0) as [Ew|Ew]; [by apply Hm in Ew|]. rewrite Hb.
    by destruct (putOne _ _ _ _) as [s' []].
Qed.

(** The item is stored: its action's entry is that of its put, over its bytes. *)
Definition put_in (s : Store) (bl : gmap bytes bytes) (i : ResponseItem) : Prop :=
  exists ie0 rd ie b, puts i = Ok (ie0, rd) /\ ie = with_loc ie0 (entryLoc ie) /\
    index s !! action i = Some ie /\ ie_OutputID ie = output i /\ bl !! output i = Some b /\ delivers rd b.

(** The senders of two bodies of one output send the same bytes. *)
Definition one_content (bl : gmap bytes bytes) (items : list ResponseItem) : Prop :=
  (forall i, i ∈ items -> same_content cf bl (storedItem i) (args (ri_meta i))) /\
  forall i j ie rd ie' rd' b, i ∈ items -> j ∈ items -> output i = output j ->
    puts i = Ok (ie, rd) -> puts j = Ok (ie', rd') -> delivers rd b -> delivers rd' b /\ entryStoredSize ie' = blen b.

(** What a put leaves of the other actions. *)
Lemma after_put_keeps s bl a o b c ie :
  holds cf s bl -> index s !! c = Some ie -> c <> a ->
  (bl !! o = Some b \/ bl !! o = None) ->
  after_put (index s) bl a o b !! ie_OutputID ie = bl !! ie_OutputID ie.
Proof.
  intros Hh Hc Hne Hb. destruct (proj2 Hh c ie Hc) as (x & Hx & _). unfold after_put.
  destruct (decide (o = ie_OutputID ie)) as [->|Ho].
  - rewrite lookup_insert_eq. destruct Hb as [Hb|Hb]; congruence.
  - rewrite lookup_insert_ne by done. case_bool_decide; [done|]. unfold drop_blobs.
    destruct (index s !! a) as [ex|] eqn:Ea; [|done]. apply without_use_other.
    destruct (decide (ie_OutputID ie = ie_OutputID ex)) as [E|E]; [right|by left].
    assert (Hu := uses_delete (index s) a ex (ie_OutputID ex) Ea). rewrite bool_decide_eq_true_2 in Hu by done.
    assert (Hp := uses_pos (delete a (index s)) c ie). rewrite lookup_delete_ne in Hp by done. rewrite E in Hp.
    specialize (Hp Hc). unfold one_if in Hu. lia.
Qed.

Lemma after_put_others s bl a o b o' x :
  after_put (index s) bl a o b !! o' = Some x -> o' <> o -> bl !! o' = Some x.
Proof.
  unfold after_put. intros Hx Hne. rewrite lookup_insert_ne in Hx by done. revert Hx.
  case_bool_decide; [done|]. unfold drop_blobs. destruct (index s !! a) as [ex|]; [|done].
  unfold without_use. destruct (_ =? 1)%nat; [|done]. by intros [_ ?]%lookup_delete_Some.
Qed.

(** One put on the way. *)
Lemma put_one s bl i s' :
  holds cf s bl -> good_id (output i) -> oversized cf i = false -> (forall n, pages_left (pool (outputs s)) n) ->
  same_content cf bl (storedItem i) (args (ri_meta i)) ->
  putOne cf s (storedItem i) (args (ri_meta i)) = (s', Ok tt) ->
  exists bl' b, holds cf s' bl' /\ put_in s' bl' i /\ bl' !! output i = Some b /\
    (forall c, c <> action i -> index s' !! c = index s !! c) /\
    (forall c ie, c <> action i -> index s !! c = Some ie -> bl' !! ie_OutputID ie = bl !! ie_OutputID ie) /\
    (forall o x, o <> output i -> bl' !! o = Some x -> bl !! o = Some x) /\
    (forall ie rd, puts i = Ok (ie, rd) -> delivers rd b).
Proof.
  intros Hh Hid Hov Hleft Hone Hput. destruct (storedItem_meta i) as (Ea & Eo & Es & Ew).
  apply (local_putOne_spec cf s bl) in Hput; try done; rewrite ?Eo; try done.
  2: { intros ie rd b Hp Hb. apply (Hone ie rd b Hp Hb). }
  destruct Hput as [[Hx _]|(ie0 & rd & ie & b & Hp & Hie & Hb & Hi & Hh')].
  { unfold oversized in *. rewrite Es in Hx. congruence. }
  rewrite Ea, Eo in *. exists (after_put (index s) bl (action i) (output i) b), b.
  assert (Hd : delivers rd b).
  { destruct Hb as [Hb|[_ Hb]]; [|done]. destruct (Hone ie0 rd b Hp) as [Hd _]; [by rewrite Eo|done]. }
  assert (Hout : ie_OutputID ie = output i).
  { rewrite Hie. cbn [with_loc ie_OutputID]. rewrite <-Eo. by apply (putting_output cf (storedItem i) (args (ri_meta i)) ie0 rd). }
  assert (Hbo : after_put (index s) bl (action i) (output i) b !! output i = Some b) by apply lookup_insert_eq.
  split; [done|]. split; [|split; [done|split; [|split; [|split]]]].
  - exists ie0, rd, ie, b. rewrite Hi, lookup_insert_eq. done.
  - intros c Hc. by rewrite Hi, lookup_insert_ne.
  - intros c ie1 Hc Hi1. apply (after_put_keeps s _ _ _ _ c); [done..|]. destruct Hb as [?|[? _]]; [by left|by right].
  - intros o x Ho Hx. by eapply after_put_others.
  - intros ie1 rd1 Hp1. assert (rd1 = rd) as -> by congruence. done.
Qed.

(** All items of a response are put. *)
Lemma puts_all items s bl s' :
  holds cf s bl ->
  Forall (fun i => writable i /\ measured i /\ good_id (output i) /\ oversized cf i = false) items ->
  NoDup (map (fun i => action i) items) -> one_content bl items ->
  (forall k n, pages_left (pool (outputs (fst (deliverItems (take k items) callback s)))) n) ->
  deliverItems items callback s = (s', None) ->
  exists bl', holds cf s' bl' /\ Forall (put_in s' bl') items /\
    forall c, c ∉ map (fun i => action i) items -> index s' !! c = index s !! c /\
      forall ie, index s !! c = Some ie -> bl' !! ie_OutputID ie = bl !! ie_OutputID ie.
Proof.
  intros Hh Hok. revert s bl Hh. induction Hok as [|i items (Hw & Hm & Hid & Hov) Hok IH]; intros s bl Hh Hnd Hone Hpg; cbn [deliverItems].
  { intros [= <-]. exists bl. split; [done|]. split; [constructor|done]. }
  cbn [map] in Hnd. apply NoDup_cons in Hnd as [Hni Hnd]. destruct Hone as [Hbl Hpair].
  assert (Hpg1 := fun k => Hpg (S k)). cbn [take deliverItems] in Hpg1.
  rewrite callback_put in * by done.
  destruct (putOne cf s (storedItem i) (args (ri_meta i))) as [s1 [[]|]] eqn:Eput; [|done].
  destruct (put_one s bl i s1 Hh Hid Hov (Hpg 0%nat) (Hbl i ltac:(set_solver)) Eput)
    as (bl1 & b & Hh1 & Hput & Hb & Hkeep & Hkept & Hsub & Hdel).
  assert (Hone1 : one_content bl1 items).
  { split; [|intros; eapply (Hpair i0 j); eauto; set_solver].
    intros j Hj ie rd x Hp Hx. destruct (storedItem_meta j) as (_ & Eo & _). rewrite Eo in Hx.
    destruct (decide (output j = output i)) as [E|E].
    - destruct Hput as (ie0 & rd0 & _ & _ & Hp0 & _). rewrite E in Hx. assert (x = b) as -> by congruence.
      apply (Hpair i j ie0 rd0); [set_solver..|done|done|done|by apply (Hdel ie0)].
    - apply (Hbl j); [set_solver|done|]. rewrite Eo. by apply Hsub. }
  intros Hd. destruct (IH s1 bl1 Hh1 Hnd Hone1 Hpg1 Hd) as (bl' & Hh' & Hall & Hrest).
  exists bl'. split; [done|]. split; [constructor; [|done]|].
  - destruct Hput as (ie0 & rd & ie & x & Hp & Hie & Hi & Ho & Hx & Hdx). destruct (Hrest (action i) Hni) as [E1 E2].
    exists ie0, rd, ie, x. rewrite E1. split_and!; try done. rewrite <-Ho, (E2 ie Hi), Ho. done.
  - intros c Hc. cbn [map] in Hc. apply not_elem_of_cons in Hc as [Hci Hc]. destruct (Hrest c Hc) as [E1 E2].
    rewrite <-(Hkeep c Hci). split; [done|]. intros ie Hie. rewrite (E2 ie Hie). apply (Hkept c ie Hci). by rewrite <-Hkeep.
Qed.
End putting.

(** ** What the client puts *)

Section client_puts.
Context `{Zstd} `{JSON (list bytes)} `{JSON (list ResponseMeta)} `{JSON PreloadRequest} `{SliceSort}.
Context (cf : Config) (Hdir : abs_dir (cf_dir cf)).

Abbreviation action i := (ri_ActionID (ri_meta i)).
Abbreviation output i := (ri_OutputID (ri_meta i)).

(** An item with the plain body [c], as the proxy uploads it. *)
Definition plain (i : ResponseItem) (c : bytes) : Prop :=
  ri_IsCompressed (ri_meta i) = false /\ ri_Size (ri_meta i) = blen c /\ ri_WireSize (ri_meta i) = blen c /\
  ri_body i = Some (Ok (fromBytes c)).

Lemma compressed_meta i c :
  plain i c -> let p := compressedForPut i in
  action p = action i /\ output p = output i /\ ri_Size (ri_meta p) = blen c /\ 0 <= ri_WireSize (ri_meta p).
Proof.
  intros (Hc & Hs & Hw & Hb). assert (Hn := blen_nonneg c). cbv zeta. unfold compressedForPut. rewrite Hs.
  destruct (blen c <? MinCompressionSize) eqn:El; [by rewrite Hw|]. go_bool. unfold MinCompressionSize in El.
  unfold ItemCompressedBodyReader, ItemWireBodyReader, noBody. rewrite Hs, Hw, Hb, Hc, (proj2 (Z.eqb_neq _ _)) by lia.
  cbn. split_and!; try done. apply blen_nonneg.
Qed.

(** The item that reaches the store decodes to the body. *)
Lemma stored_readable open i c :
  plain i c -> measured (compressedForPut i) ->
  exists rd, ItemUncompressedBodyReader (storedItem open (compressedForPut i)) = Ok rd /\ delivers rd c.
Proof.
  intros (Hc & Hs & Hw & Hb) Hm. assert (Hn := blen_nonneg c). unfold compressedForPut in *. rewrite Hs in *.
  destruct (blen c <? MinCompressionSize) eqn:El; go_bool.
  - unfold storedItem. rewrite Hs. destruct (Z.eqb_spec (blen c) 0) as [E|E].
    + exists None. split; [|by destruct c]. unfold ItemUncompressedBodyReader, ItemWireBodyReader, noBody.
      rewrite prepared_meta. cbn [ri_meta]. by rewrite Hs, Hw, E.
    + exists (Some (fromBytes c)). split; [|done].
      assert (Hit : ItemWriteTo i = Ok c).
      { unfold ItemWriteTo, ItemWireBodyReader, noBody. rewrite Hs, Hw, Hb, (proj2 (Z.eqb_neq _ _)) by lia. cbn [andb].
        rewrite (proj2 (Z.ltb_ge _ _)) by lia. unfold ReadFull. cbn [fromBytes st_data]. rewrite Z.leb_refl.
        unfold blen. by rewrite Nat2Z.id, firstn_all. }
      rewrite Hit. unfold ItemUncompressedBodyReader, ItemWireBodyReader, noBody. cbn [ri_meta with_wire ri_Size ri_WireSize ri_IsCompressed ri_body].
      by rewrite Hs, Hw, Hc, (proj2 (Z.eqb_neq _ _)) by lia.
  - unfold MinCompressionSize in El. unfold ItemCompressedBodyReader, ItemWireBodyReader, noBody in *.
    rewrite Hs, Hw, Hb, Hc, (proj2 (Z.eqb_neq (blen c) 0)) in * by lia.
    cbn [andb ReadAll fromBytes st_err st_data ItemSetBodyReader ri_meta] in *.
    unfold measured in Hm. cbn [ri_meta ri_Size ri_WireSize ItemSetBodyReader] in Hm.
    set (p := ItemSetBodyReader _ _). unfold storedItem. unfold p at 1. cbn [ItemSetBodyReader ri_meta ri_Size]. rewrite (proj2 (Z.eqb_neq (blen c) 0)) by lia.
    assert (Hit : ItemWriteTo p = Ok (EncodeZstd c)).
    { unfold ItemWriteTo, ItemWireBodyReader, noBody, p. cbn [ItemSetBodyReader ri_meta ri_Size ri_WireSize ri_body].
      rewrite (proj2 (Z.eqb_neq (blen c) 0)) by lia. cbn [andb]. rewrite (proj2 (Z.ltb_ge _ _)) by apply blen_nonneg.
      unfold ReadFull. cbn [fromBytes st_data]. rewrite Z.leb_refl. unfold blen. by rewrite Nat2Z.id, firstn_all. }
    rewrite Hit. exists (Some (fromBytes c)). split; [|done]. apply compressed_readable; [done| |apply zstdReader_Encode].
    unfold noBody, p. cbn [with_wire ri_Size ri_meta ItemSetBodyReader]. by rewrite ?Hs, (proj2 (Z.eqb_neq (blen c) 0)) by lia.
Qed.

(** What the client could send it can announce. *)
Lemma naive_sent items rd :
  ResponseReaderNaive items = Ok rd -> Forall (fun i => 0 <= ri_Size (ri_meta i)) items ->
  Forall writable items /\ Forall measured items /\ ResponseWriteTo items = Ok (st_data rd).
Proof.
  intros Hn Hs. unfold ResponseReaderNaive in Hn. destruct (ResponseContentLength items) as [cl|] eqn:El; [|done].
  destruct (ResponseWriteTo items) as [out|] eqn:Eo; [|done]. destruct (negb _) eqn:Ec; [done|]. injection Hn as <-.
  rewrite (ResponseContentLength_parts items out Eo) in El. injection El as <-. go_bool.
  assert (Ht : total_unsent items = 0) by lia. split; [|split; [|done]].
  - unfold ResponseWriteTo in Eo. destruct (Marshal _); [|done]. destruct (checkedJSONLength _); [|done].
    destruct (writeItemBodies items) as [bs|] eqn:Eb; [|done]. clear -Eb. revert bs Eb.
    induction items as [|i items IH]; intros bs Eb; [constructor|]. cbn [writeItemBodies] in Eb.
    destruct (ItemWriteTo i) as [b|] eqn:Ei; [|done]. destruct (writeItemBodies items) as [bs'|]; [|done].
    constructor; [by exists b|by eapply IH].
  - clear -Ht Hs. assert (Hp : forall l : list ResponseItem, Forall (fun i => 0 <= ri_Size (ri_meta i)) l -> 0 <= total_unsent l).
    { induction 1 as [|i l Hi Hl IH]; [done|]. change (0 <= unsent (ri_meta i) + total_unsent l). unfold unsent. destruct (_ =? 0); lia. }
    revert Ht. induction Hs as [|i items Hi Hs IH]; [constructor|]. intros Ht. specialize (Hp items Hs).
    change (unsent (ri_meta i) + total_unsent items = 0) in Ht. unfold unsent in Ht.
    destruct (Z.eqb_spec (ri_WireSize (ri_meta i)) 0) as [E|E]; (constructor; [intros ?; lia|apply IH; lia]).
Qed.

(** What was put is got: the entry of a put serves the body that reached the store. *)
Lemma got_readable open args s bl i c :
  holds cf s bl -> oversized cf i = false ->
  ri_Size (ri_meta i) = blen c -> 0 <= ri_WireSize (ri_meta i) ->
  (ri_Size (ri_meta i) = 0 -> ri_WireSize (ri_meta i) = 0) ->
  (exists rd, ItemUncompressedBodyReader (storedItem open i) = Ok rd /\ delivers rd c) ->
  put_in cf open args s bl i ->
  exists rd, ItemUncompressedBodyReader (gotItem cf s bl (action i)) = Ok rd /\ delivers rd c.
Proof.
  intros Hh Hov Hs Hw Hm Hrd (ie0 & rd & ie & b & Hp & Hie & Hi & Ho & Hb & Hd).
  destruct (storedItem_meta open i) as (_ & _ & Es & Ew).
  assert (Hl : blen b = entryStoredSize ie).
  { destruct (proj2 Hh _ ie Hi) as (b' & Hb' & Hl & _). rewrite Ho in Hb'. by assert (b' = b) as -> by congruence. }
  assert (Hsz : ie_Size ie = blen c).
  { rewrite Hie. cbn [with_loc ie_Size]. rewrite <-Hs, <-Es. clear -Hp. unfold putting, bodyReaderForPut, compressNowBodyReader in Hp.
    repeat (case_match; simplify_eq/=; try done);
      repeat match type of Hp with context [match ?x with _ => _ end] => destruct x; simplify_eq/= end; done. }
  destruct (putting_readable cf (storedItem open i) (args (ri_meta i)) ie0 rd b c
    (mkResponseMeta (action i) false (ie_OutputID ie) (ie_Size ie) (Some (ie_TimeMicro ie)) (ie_Compressed ie =? 1) (ie_WireSize ie) []))
    as (rd' & Hr & Hc); try done.
  - rewrite Hl, Hie. by rewrite entryStoredSize_with_loc.
  - rewrite Es, Hs. apply blen_nonneg.
  - by rewrite Ew.
  - by rewrite Hie.
  - by rewrite Hie.
  - by rewrite Hie.
  - unfold gotItem, answerMeta, hit. rewrite Hi. unfold oversized in Hov. rewrite Hs, <-Hsz in Hov. rewrite Hov, Ho, Hb.
    revert Hr. unfold ItemUncompressedBodyReader, ItemWireBodyReader, noBody. cbn [ri_meta ri_body sentMeta ri_Size ri_WireSize ri_IsCompressed].
    destruct (Z.eqb_spec (ie_Size ie) 0) as [E|E]; cbn [andb]; [|intros Hr; by exists rd'].
    assert (c = []) as -> by (destruct c; [done|]; unfold blen in Hsz; simpl in Hsz; lia). intros _.
    exists None. split; [|done]. assert (Hz : entryStoredSize ie = 0); [|by rewrite Hz].
    rewrite Hie, entryStoredSize_with_loc. rewrite Hsz in E. rewrite <-Hs in E. specialize (Hm E). unfold entryStoredSize.
    assert (Hw0 : ie_WireSize ie0 = 0 /\ ie_Size ie0 = 0); [|by destruct Hw0 as [-> ->]].
    rewrite <-Es in E. rewrite <-Ew in Hm. clear -Hp E Hm. unfold putting, bodyReaderForPut in Hp. rewrite E, Hm in Hp.
    change (MinCompressionSize <=? 0) with false in Hp. rewrite andb_false_r in Hp.
    destruct (ri_IsCompressed _); [destruct (negb _)|].
    + destruct (ItemUncompressedBodyReader _); [|done]. by injection Hp as <- _.
    + destruct (ItemWireBodyReader _); [|done]. by injection Hp as <- _.
    + destruct (ItemUncompressedBodyReader _); [|done]. by injection Hp as <- _.
Qed.

Context (ce : CacheEnv).
Abbreviation server := (serveCache cf ce).
Abbreviation ids values := (map (fun i => ri_ActionID (ri_meta i)) values).

Lemma direct_answer w c w' r :
  serveCache cf ce w c = (w', Ok r) -> (re_status r = 200 \/ re_status r = 204 \/ re_status r = 400 \/ re_status r = 500) ->
  roundTrip server w c = (w', Ok r).
Proof.
  intros E Hr. apply roundTrip_answered; [done|]. unfold isGatewayError.
  destruct Hr as [->|[->|[->| ->]]]; done.
Qed.

(** The client's [Get] at the server. *)
Lemma get_direct w bl actions :
  holds cf (cs_store w) bl -> sized (cs_store w) -> json_ok actions -> carries (map (answerMeta cf (cs_store w)) actions) ->
  exists s', ClientGet server w actions = (mkCacheServer s' (cs_files w), (map (gotItem cf (cs_store w) bl) actions, Ok tt)) /\
    holds cf s' bl /\ s' = fst (Get cf (cs_store w) (imap (fun k a => (a, ce_clock ce k)) actions)).
Proof.
  intros Hh Hz Hj Hc. destruct (Unmarshal_Marshal _ Hj) as (j & Ej & _ & Hu). unfold ClientGet. rewrite Ej.
  destruct (serveGet_ok cf Hdir (cs_store w) bl (ce_clock ce) actions j Hh Hz Hu Hc) as (s' & out & E & Hr & Hh' & _ & Hs').
  rewrite (direct_answer w _ (mkCacheServer s' (cs_files w)) (okBody (fromBytes out))).
  - exists s'. cbn [checkStatus]. unfold checkStatus. cbn [re_status okBody Z.eqb Pos.eqb re_body]. rewrite Hr. done.
  - unfold serveCache. cbn [c_path c_body]. rewrite bool_decide_eq_true_2, E by done. done.
  - by left.
Qed.

Lemma head_direct w bl actions :
  holds cf (cs_store w) bl -> sized (cs_store w) -> json_ok actions -> json_ok (map (answerMeta cf (cs_store w)) actions) ->
  exists s', head server w actions = (mkCacheServer s' (cs_files w), Ok (map (answerMeta cf (cs_store w)) actions)) /\
    holds cf s' bl /\ outputs s' = outputs (cs_store w) /\
    s' = fst (Get cf (cs_store w) (imap (fun k a => (a, ce_clock ce k)) actions)).
Proof.
  intros Hh Hz Hj Hc. destruct (Unmarshal_Marshal _ Hj) as (j & Ej & _ & Hu). unfold head. rewrite Ej.
  destruct (serveHead_ok cf Hdir (cs_store w) bl (ce_clock ce) actions j Hh Hz Hu Hc) as (s' & out & E & Hr & Hh' & Ho & Hs').
  rewrite (direct_answer w _ (mkCacheServer s' (cs_files w)) (okBody (fromBytes out))).
  - exists s'. unfold checkStatus. cbn [re_status okBody Z.eqb Pos.eqb re_body ReadAll fromBytes st_err st_data]. by rewrite Hr.
  - unfold serveCache. cbn [c_path c_body]. rewrite bool_decide_eq_false_2, bool_decide_eq_true_2, E by done. done.
  - by left.
Qed.

(** The items that the server does not have. *)
Definition missing (s : Store) (values : list ResponseItem) : list ResponseItem :=
  filter (fun i => hit cf s (action i) = None) values.

Lemma missing_filter s values :
  Forall (fun i => action i <> []) values ->
  filter (fun i => action i ∉ map ri_ActionID (filter (fun m => ri_Miss m = false /\ ri_ActionID m <> [])
    (map (answerMeta cf s) (ids values)))) values = missing s values.
Proof.
  intros Hne. unfold missing. apply Proxy.filter_ext_in. intros i Hi. rewrite Forall_forall in Hne.
  assert (Ha : forall a, ri_ActionID (answerMeta cf s a) = a) by (intros a; unfold answerMeta; by destruct (hit cf s a)).
  split.
  - intros Hn. destruct (hit cf s (action i)) as [ie|] eqn:E; [|done]. exfalso. apply Hn.
    apply list_elem_of_fmap. exists (answerMeta cf s (action i)). split; [by rewrite Ha|].
    apply list_elem_of_filter. split; [split; [unfold answerMeta; by rewrite E|rewrite Ha; by apply Hne]|].
    apply list_elem_of_fmap. exists (action i). split; [done|]. by apply (list_elem_of_fmap_2 (fun i => action i)).
  - intros E (m & Em & [[Hm _] Hin]%list_elem_of_filter)%list_elem_of_fmap.
    apply list_elem_of_fmap in Hin as (a & -> & _). rewrite Ha in Em. subst a. unfold answerMeta in Hm. by rewrite E in Hm.
Qed.

Abbreviation prepared s values := (map compressedForPut (missing s values)).

(** The client's [Put] at the server is a put of the items that are missing. *)
Lemma put_direct w bl values w' :
  holds cf (cs_store w) bl -> sized (cs_store w) ->
  Forall (fun i => action i <> []) values ->
  Forall (fun i => 0 <= ri_Size (ri_meta (compressedForPut i))) values ->
  json_ok (ids values) -> json_ok (map (answerMeta cf (cs_store w)) (ids values)) ->
  json_ok (map ri_meta (prepared (cs_store w) values)) ->
  ClientPut server w values = (w', Ok tt) ->
  let s1 := fst (Get cf (cs_store w) (imap (fun k a => (a, ce_clock ce k)) (ids values))) in
  holds cf s1 bl /\ cs_files w' = cs_files w /\
  Forall writable (prepared (cs_store w) values) /\ Forall measured (prepared (cs_store w) values) /\
  deliverItems (prepared (cs_store w) values) (putCallback cf (ce_disk ce) (ce_put ce)) s1 = (cs_store w', None).
Proof.
  intros Hh Hz Hne Hs Hj1 Hj2 Hj3 Hput. unfold ClientPut, filterPutItems in Hput.
  destruct (head_direct w bl (ids values) Hh Hz Hj1 Hj2) as (s1 & Eh & Hh1 & _ & Hs1). rewrite Eh in Hput.
  rewrite missing_filter in Hput by done. cbv zeta. rewrite <-Hs1.
  destruct (ResponseReaderNaive _) as [rd|] eqn:En; [|done].
  destruct (naive_sent _ _ En) as (Hw & Hm & Ho).
  { apply Forall_forall. intros p (i & -> & [_ Hi]%list_elem_of_filter)%list_elem_of_fmap. rewrite Forall_forall in Hs. by apply Hs. }
  split; [done|]. unfold servePut in Hput.
  destruct (serveCache cf ce (mkCacheServer s1 (cs_files w)) (mkCall #"/put" ∅ (st_data rd) true)) as [w2 [res|e]] eqn:Es.
  2: { unfold serveCache in Es. do 2 rewrite bool_decide_eq_false_2 in Es by done. by rewrite bool_decide_eq_true_2 in Es by done. }
  assert (Hres : re_status res = 204 \/ re_status res = 500).
  { unfold serveCache in Es. do 2 rewrite bool_decide_eq_false_2 in Es by done. rewrite bool_decide_eq_true_2 in Es by done.
    injection Es as _ <-. unfold servePut. destruct (ResponseReaderFrom _ _ _) as [? []]; [by left|by right]. }
  rewrite (direct_answer _ _ w2 res) in Hput; [|done|tauto].
  unfold checkStatus in Hput. destruct (re_status res =? 204) eqn:E2; [|done]. injection Hput as <-.
  unfold serveCache in Es. do 2 rewrite bool_decide_eq_false_2 in Es by done. rewrite bool_decide_eq_true_2 in Es by done.
  injection Es as <- <-. cbn [cs_store cs_files c_body] in *. split; [done|]. split; [done|]. split; [done|].
  unfold servePut, fromBytes in E2 |- *. rewrite <-(app_nil_r (st_data rd)) in E2 |- *.
  rewrite (Response_roundtrip _ _ _ _ _ _ Hj3 Ho) in E2 |- *.
  destruct (deliverItems _ _ _) as [s2 [e|]]; [done|]. done.
Qed.
End client_puts.

(** ** Put, then get *)

Section round.
Context `{Zstd} `{JSON (list bytes)} `{JSON (list ResponseMeta)} `{JSON PreloadRequest} `{SliceSort}.
Context (cf : Config) (Hdir : abs_dir (cf_dir cf)).

Abbreviation action i := (ri_ActionID (ri_meta i)).
Abbreviation output i := (ri_OutputID (ri_meta i)).
Abbreviation ids values := (map (fun i => ri_ActionID (ri_meta i)) values).

Lemma gotItem_same s s' bl bl' a :
  index s' !! a = index s !! a ->
  (forall ie, index s !! a = Some ie -> bl' !! ie_OutputID ie = bl !! ie_OutputID ie) ->
  gotItem cf s' bl' a = gotItem cf s bl a.
Proof.
  intros Hi Hb. unfold gotItem, answerMeta, hit. rewrite Hi. destruct (index s !! a) as [ie|] eqn:E; [|done].
  destruct (_ && _); [done|]. by rewrite (Hb ie).
Qed.

Lemma put_in_sized open args s bl i ie :
  0 <= ri_WireSize (ri_meta i) -> put_in cf open args s bl i -> index s !! action i = Some ie -> 0 <= ie_WireSize ie.
Proof.
  intros Hw (ie0 & rd & ie' & b & Hp & Hie & Hi & _) Hi'. assert (ie' = ie) as -> by congruence. rewrite Hie. cbn [with_loc ie_WireSize].
  destruct (storedItem_meta open i) as (_ & _ & _ & Ew). rewrite <-Ew in Hw. clear -Hp Hw.
  unfold putting, bodyReaderForPut, compressNowBodyReader in Hp.
  repeat (case_match; simplify_eq/=; try done; try lia);
    repeat match type of Hp with context [match ?x with _ => _ end] => destruct x; simplify_eq/= end; try lia; apply blen_nonneg.
Qed.

(** What a batch of puts is to mean: plain bodies, good ids, no action twice. *)
Record uploadable (values : list ResponseItem) : Prop := {
  up_plain i : i ∈ values -> exists c, plain i c;
  up_id i : i ∈ values -> good_id (output i) /\ action i <> [];
  up_size i : i ∈ values -> oversized cf i = false;
  up_NoDup : NoDup (ids values);
}.

(** The client and the server understand each other about the batch. *)
Record understood (s : Store) (values : list ResponseItem) : Prop := {
  un_ids : json_ok (ids values);
  un_head : json_ok (map (answerMeta cf s) (ids values));
  un_put : json_ok (map ri_meta (map compressedForPut (missing cf s values)));
}.

Lemma prepared_props s values p :
  uploadable values -> p ∈ map compressedForPut (missing cf s values) ->
  exists i c, i ∈ missing cf s values /\ p = compressedForPut i /\ plain i c /\
    action p = action i /\ output p = output i /\ ri_Size (ri_meta p) = blen c /\ 0 <= ri_WireSize (ri_meta p) /\
    good_id (output p) /\ oversized cf p = false.
Proof.
  intros Hu (i & -> & Hi)%list_elem_of_fmap. assert (Hv := Hi). apply list_elem_of_filter in Hv as [_ Hv].
  destruct (up_plain _ Hu i Hv) as (c & Hc). destruct (compressed_meta i c Hc) as (E1 & E2 & E3 & E4).
  exists i, c. rewrite E1, E2. split_and!; try done; [apply (up_id _ Hu i Hv)|].
  unfold oversized. rewrite E3. destruct Hc as (_ & <- & _). exact (up_size _ Hu i Hv).
Qed.

Lemma prepared_ids s values :
  uploadable values -> ids (map compressedForPut (missing cf s values)) = ids (missing cf s values).
Proof.
  intros Hu. rewrite map_map. apply map_ext_in. intros i Hi. apply list_elem_of_In, list_elem_of_filter in Hi as [_ Hi].
  destruct (up_plain _ Hu i Hi) as (c & Hc). apply (compressed_meta i c Hc).
Qed.

(** What the store is after the client's put. *)
Lemma stored_after_put ce w bl values w' :
  holds cf (cs_store w) bl -> sized (cs_store w) -> uploadable values -> understood (cs_store w) values ->
  let prepared := map compressedForPut (missing cf (cs_store w) values) in
  let s1 := fst (Get cf (cs_store w) (imap (fun k a => (a, ce_clock ce k)) (ids values))) in
  one_content cf (ce_disk ce) (ce_put ce) bl prepared ->
  (forall k n, pages_left (pool (outputs (fst (deliverItems (take k prepared) (putCallback cf (ce_disk ce) (ce_put ce)) s1)))) n) ->
  ClientPut (serveCache cf ce) w values = (w', Ok tt) ->
  exists bl', holds cf (cs_store w') bl' /\ sized (cs_store w') /\
    (forall i c, i ∈ missing cf (cs_store w) values -> plain i c ->
       exists rd, ItemUncompressedBodyReader (gotItem cf (cs_store w') bl' (action i)) = Ok rd /\ delivers rd c) /\
    forall a, a ∉ ids (missing cf (cs_store w) values) -> gotItem cf (cs_store w') bl' a = gotItem cf (cs_store w) bl a.
Proof.
  intros Hh Hz Hu Hun prepared s1 Hone Hpg Hput.
  destruct (put_direct cf Hdir ce w bl values w' Hh Hz) as (Hh1 & _ & Hw & Hm & Hd); try done.
  { apply Forall_forall. intros i Hi. by apply (up_id _ Hu). }
  { apply Forall_forall. intros i Hi. destruct (up_plain _ Hu i Hi) as (c & Hc).
    destruct (compressed_meta i c Hc) as (_ & _ & -> & _). apply blen_nonneg. }
  { apply Hun. } { apply Hun. } { apply Hun. }
  fold prepared in Hw, Hm, Hd. fold s1 in Hh1, Hd. destruct (Get_keeps cf (cs_store w) (imap (fun k a => (a, ce_clock ce k)) (ids values))) as (Hg1 & _ & Hg3).
  fold s1 in Hg1, Hg3.
  destruct (puts_all cf Hdir (ce_disk ce) (ce_put ce) prepared s1 bl (cs_store w') Hh1) as (bl' & Hh' & Hall & Hrest); try done.
  { apply Forall_forall. intros p Hp. rewrite Forall_forall in Hw, Hm.
    destruct (prepared_props _ _ p Hu Hp) as (i & c & _ & _ & _ & _ & _ & _ & _ & Hid & Hov). auto. }
  { unfold prepared. rewrite prepared_ids by done. eapply sublist_NoDup; [apply (up_NoDup _ Hu)|].
    by apply (fmap_sublist (fun i => action i)), sublist_filter. }
  rewrite Forall_forall in Hall. exists bl'. split; [done|]. split; [|split].
  - intros c ie Hc. destruct (decide (c ∈ ids prepared)) as [(p & -> & Hp)%list_elem_of_fmap|Hn].
    + destruct (prepared_props _ _ p Hu Hp) as (i & x & _ & _ & _ & _ & _ & _ & Hw0 & _). by apply (put_in_sized _ _ _ _ p ie Hw0 (Hall p Hp)).
    + destruct (Hrest c Hn) as [E _]. rewrite E in Hc. by apply (Hg3 Hz c).
  - intros i c Hi Hc. set (p := compressedForPut i). assert (Hp : p ∈ prepared) by (by apply list_elem_of_fmap_2).
    destruct (compressed_meta i c Hc) as (Ea & _ & Es & Ew). fold p in Ea, Es, Ew. rewrite <-Ea.
    rewrite Forall_forall in Hm. destruct (prepared_props _ _ p Hu Hp) as (_ & _ & _ & _ & _ & _ & _ & _ & _ & _ & Hov).
    apply (got_readable cf (ce_disk ce) (ce_put ce) _ bl' p c); try done; [|by apply stored_readable, Hm|by apply Hall].
    rewrite Es. intros E0. unfold p, compressedForPut. destruct Hc as (_ & -> & Hwi & _). rewrite E0. cbn. by rewrite Hwi.
  - intros a Ha. rewrite <-Hg1. unfold prepared in Hrest. rewrite prepared_ids in Hrest by done.
    destruct (Hrest a Ha) as [E1 E2]. by apply gotItem_same.
Qed.

(** C3: what is put over HTTP is got over HTTP.  After a put of a batch of plain
    bodies that ended well, a get of an action that the server did not have answers
    with a body that decodes to the one that was put -- whatever was compressed on the
    way, in the pool or in a file -- and a get of any other action answers what it
    would have answered before.  The batch names no action twice and nothing in it is
    over the server's size limit, which drops silently ([uploadable]); an output that the
    server already has, or that is twice in the batch, is put with the very bytes that
    are stored, in the same encoding ([one_content]; LocalServe's
    [shared_output_other_encoding] is what happens otherwise); the pool has page numbers
    left, and what client and server say to one another can be encoded. *)
Theorem put_over_http_is_got ce ce' w bl values w' (a : bytes)
    (Hh : holds cf (cs_store w) bl) (Hz : sized (cs_store w))
    (Hu : uploadable values) (Hun : understood (cs_store w) values)
    (Hone : one_content cf (ce_disk ce) (ce_put ce) bl (map compressedForPut (missing cf (cs_store w) values)))
    (Hpages : forall k n, pages_left (pool (outputs (fst (deliverItems (take k (map compressedForPut (missing cf (cs_store w) values))) (putCallback cf (ce_disk ce) (ce_put ce))
       (fst (Get cf (cs_store w) (imap (fun k a => (a, ce_clock ce k)) (ids values)))))))) n)
    (Hput : ClientPut (serveCache cf ce) w values = (w', Ok tt))
    (Ha : json_ok [a]) (Hc : carries [answerMeta cf (cs_store w') a]) :
  exists w2 item, ClientGet (serveCache cf ce') w' [a] = (w2, ([item], Ok tt)) /\
    (forall i c, i ∈ missing cf (cs_store w) values -> action i = a -> plain i c ->
       exists rd, ItemUncompressedBodyReader item = Ok rd /\ delivers rd c) /\
    (a ∉ ids (missing cf (cs_store w) values) -> item = gotItem cf (cs_store w) bl a).
Proof.
  destruct (stored_after_put ce w bl values w' Hh Hz Hu Hun Hone Hpages Hput) as (bl' & Hh' & Hz' & Hnew & Hold).
  destruct (get_direct cf Hdir ce' w' bl' [a] Hh' Hz' Ha Hc) as (s2 & E & _). eexists _, _. split; [exact E|]. split.
  - intros i c Hi <- Hp. by apply Hnew.
  - intros Hn. by apply Hold.
Qed.
End round.

(** ** The upstream of the proxy *)

Section upstream.
Context `{Zstd} `{JSON (list bytes)} `{JSON (list ResponseMeta)} `{JSON PreloadRequest} `{SliceSort}.
Context (cf : Config).

Abbreviation action i := (ri_ActionID (ri_meta i)).

(** A read that succeeds on the front of a stream reads what the whole has there. *)
Lemma ReadFull_front (a b : bytes) k e h rd :
  ReadFull (mkStream (take k (a ++ b)) e) (blen a) = Ok (h, rd) ->
  h = a /\ exists e', rd = mkStream (take (k - length a) b) e'.
Proof.
  unfold ReadFull. cbn [st_data st_err]. unfold blen. rewrite Nat2Z.id.
  destruct (Z.of_nat (length a) <=? Z.of_nat (length (take k (a ++ b)))) eqn:E; go_bool.
  2: { intros Hx. repeat case_match; done. }
  intros [= <- <-]. rewrite length_take in E. assert (Hk : (length a <= k)%nat) by lia.
  rewrite take_take, Nat.min_l, take_app_length by lia. split; [done|]. exists e.
  by rewrite take_app_ge, drop_app_length by lia.
Qed.

(** Whatever arrives of a response, its items are the first of those it announces. *)
Lemma receive_front metas j bs k e items r :
  Marshal metas = Ok j -> Unmarshal j = Ok metas -> blen j <= MaxInt32 ->
  receiveAll (mkStream (take k (putInt32 (blen j) ++ j ++ bs)) e) = (items, r) ->
  map ri_meta items `prefix_of` metas /\ (r = Ok tt -> map ri_meta items = metas).
Proof.
  intros Ej Hu Hl. unfold receiveAll, ResponseReaderFrom. assert (Hn := blen_nonneg j). unfold MaxInt32 in Hl.
  change 4 with (blen (putInt32 (blen j))).
  destruct (ReadFull _ _) as [[h rd]|err] eqn:E1; [|intros [= <- <-]; split; [apply prefix_nil|done]].
  apply ReadFull_front in E1 as [-> [e1 ->]]. rewrite getInt32_putInt32, (proj2 (Z.ltb_ge _ _)) by lia.
  destruct (ReadFull _ _) as [[h rd]|err] eqn:E2; [|intros [= <- <-]; split; [apply prefix_nil|done]].
  apply ReadFull_front in E2 as [-> [e2 ->]]. rewrite Hu.
  assert (Hp := receive_prefix_bodies metas (mkStream (take (k - length (putInt32 (blen j)) - length j) bs) e2) []
    (blen (putInt32 (blen j)) + blen j)).
  destruct (readItemBodies _ _ _ _ _) as [items' [n|err]]; destruct Hp as (front & E & Hf & Hall); intros [= <- <-]; rewrite E; simpl.
  - split; [done|]. intros _. by apply (Hall n).
  - split; [done|done].
Qed.

(** The metadata of the answer, whatever state the store is in. *)
Lemma Get_actions s req : map (fun i => action i) (snd (Get cf s req)) = map fst req.
Proof.
  unfold Get. revert s. induction req as [|[a now] req IH]; intros s; [done|]. cbn [get].
  assert (Ha : action (snd (getOne cf s a now)) = a).
  { unfold getOne. destruct (index s !! a); [|done]. destruct (_ && _); [done|]. cbn [snd]. unfold responseItem. by destruct (negb _). }
  destruct (getOne cf s a now) as [s1 item]. cbn [snd] in Ha. specialize (IH s1). destruct (get cf s1 req) as [s2 items].
  cbn [snd map fst] in *. by rewrite Ha, IH.
Qed.

Lemma Get_outputs s req : outputs (fst (Get cf s req)) = outputs s.
Proof.
  unfold Get. revert s. induction req as [|[a now] req IH]; intros s; [done|]. cbn [get].
  assert (Ho : outputs (fst (getOne cf s a now)) = outputs s).
  { unfold getOne. destruct (index s !! a); [|done]. by destruct (_ && _). }
  destruct (getOne cf s a now) as [s1 item]. specialize (IH s1). destruct (get cf s1 req) as [s2 items]. cbn [fst] in *. congruence.
Qed.

(** What is received of the items of a response, in any state of their bodies. *)
Lemma respond_front l items r :
  carries (map ri_meta l) ->
  (if re_status (respondItems l) =? 200 then receiveAll (re_body (respondItems l)) else ([], Err (EMsg "status"))) = (items, r) ->
  map ri_meta items `prefix_of` map ri_meta l /\ (r = Ok tt -> map ri_meta items = map ri_meta l).
Proof.
  intros [Hj Hl]. destruct (Unmarshal_Marshal _ Hj) as (j & Ej & _ & Hu). specialize (Hl j Ej).
  unfold respondItems. destruct (ResponseContentLength l) as [cl|]; cbn [re_status okBody statusOnly Z.eqb Pos.eqb].
  2: { intros [= <- <-]. split; [apply prefix_nil|done]. }
  unfold writtenResponse, checkedJSONLength, announced. rewrite Ej, (proj2 (Z.ltb_ge _ _)) by done.
  destruct (writtenBodies l) as [bs e]. cbn [fst re_body]. by apply receive_front.
Qed.

(** C5: the HTTP upstream keeps the promise that the proxy's theorems rest on.  Whatever
    the state of the server's store -- files missing, bodies short -- the client's get of
    a batch streams no action twice and none that was not asked, in the order asked; and
    it streams all of them when it ends well. *)
Theorem http_upstream_is_polite ce w b asked w' items r
    (Hasked : asked ≡ₚ batchActions (bt_reqs b)) (Hnone : bt_answered b = [])
    (Hj : json_ok asked)
    (Hmetas : carries (map (fun i => ri_meta (servedItem (openFile (outputs (cs_store w))) i))
       (snd (Get cf (cs_store w) (imap (fun k a => (a, ce_clock ce k)) asked)))))
    (Hget : ClientGet (serveCache cf ce) w asked = (w', (items, r))) :
  streams b items /\ (r = Ok tt -> map (fun i => action i) items = asked).
Proof.
  assert (Hpre : map (fun i => action i) items `prefix_of` asked /\ (r = Ok tt -> map (fun i => action i) items = asked)).
  - destruct (Unmarshal_Marshal _ Hj) as (j & Ej & _ & Hu). unfold ClientGet in Hget. rewrite Ej in Hget.
    set (req := imap _ asked) in *.
    assert (Ho := Get_outputs (cs_store w) req). assert (Hids := Get_actions (cs_store w) req).
    destruct (Get cf (cs_store w) req) as [s1 l] eqn:Eg. cbn [fst snd] in *.
    set (sent := map (servedItem (openFile (outputs (cs_store w)))) l).
    assert (Hms : map ri_meta sent = map (fun i => ri_meta (servedItem (openFile (outputs (cs_store w))) i)) l) by apply map_map.
    rewrite <-Hms in Hmetas.
    rewrite (direct_answer cf ce w _ (mkCacheServer s1 (cs_files w)) (respondItems sent)) in Hget.
    + assert (Hrf := respond_front sent items r Hmetas). unfold checkStatus in Hget.
      assert (Hact : map ri_ActionID (map ri_meta sent) = asked).
      { rewrite Hms, map_map. change (map _ l) with (map (fun i => action i) l). rewrite Hids. unfold req.
        clear. generalize (ce_clock ce). induction asked as [|a l IH]; intros c; [done|]. cbn [imap map fst]. f_equal. apply IH. }
      rewrite <-Hact, <-map_map. destruct Hrf as [Hp Hall].
      { destruct (re_status (respondItems sent) =? 200); congruence. }
      split; [|intros Hr; by rewrite (Hall Hr)]. destruct Hp as [rest Hp]. rewrite Hp, map_app. by apply prefix_app_r.
    + unfold serveCache. cbn [c_path c_body cs_store]. rewrite bool_decide_eq_true_2 by done. unfold serveGet.
      rewrite Hu. fold req. by rewrite Eg, Ho.
    + unfold respondItems. destruct (ResponseContentLength sent); [by left|by right; right; right].
  - destruct Hpre as [Hp Hall]. split; [|done].
    assert (Hnd : NoDup asked) by (rewrite Hasked; apply NoDup_unseen).
    destruct Hp as [rest Hp]. rewrite Hp in Hnd. apply NoDup_app in Hnd as (Hnd & _). split; [done|].
    intros a Ha. rewrite Hnone. split; [|set_solver]. rewrite <-Hasked, Hp. apply elem_of_app. by left.
Qed.
End upstream.

(** ** Posted actions come with the next preload *)

Section posted.
Context `{Zstd} `{JSON (list bytes)} `{JSON (list ResponseMeta)} `{JSON PreloadRequest} `{SliceSort}.
Context (cf : Config) (Hdir : abs_dir (cf_dir cf)).

(** The lines of a post's body. *)
Lemma split_join l : l <> [] -> Forall line_ok l -> split_on newline (Join l [newline]) = l.
Proof.
  intros Hne Hl. induction Hl as [|x [|y l] Hx Hl IH]; [done| |].
  - assert (E := split_on_no_sep newline x (ln_line _ Hx)). exact E.
  - change (Join (x :: y :: l) [newline]) with (x ++ newline :: Join (y :: l) [newline]).
    rewrite split_on_app by apply Hx. by rewrite IH.
Qed.

Lemma readActionIDs_joined l : Forall line_ok l -> readActionIDs (Join l [newline]) = Ok (unseen ∅ l).
Proof.
  intros Hl. unfold readActionIDs, ScanLines. destruct (decide (l = [])) as [->|Hne]; [done|].
  assert (Hr : raw_lines (Join l [newline]) = l).
  { unfold raw_lines. rewrite split_join by done. destruct (last l) as [[|c x]|] eqn:El; try done.
    apply last_Some_elem_of in El. rewrite Forall_forall in Hl. by destruct (ln_ne _ (Hl _ El)). }
  rewrite Hr, scan_tokens_lines by done. f_equal. f_equal.
  assert (E : map TrimSpace l = l).
  { clear -Hl. induction Hl as [|x l Hx Hl IH]; [done|]. cbn [map]. by rewrite (ln_trim _ Hx), IH. }
  rewrite E. apply filter_all. intros x Hx. rewrite Forall_forall in Hl. apply (ln_ne _ (Hl x Hx)).
Qed.

Lemma cacheUsedQuery_params commit changesID b replace :
  let q := cacheUsedQuery commit changesID b replace in
  getParam q #"commit" = commit /\ getParam q #"changes-id" = changesID /\ getParam q #"build-type" = b /\
  bool_decide (getParam q #"replace-changes" = #"1") = replace.
Proof.
  cbv zeta. unfold cacheUsedQuery. set (q := setText _ _ _).
  assert (Hq : getParam q #"commit" = commit /\ getParam q #"changes-id" = changesID /\ getParam q #"build-type" = b /\
    getParam q #"replace-changes" = []).
  { unfold q. rewrite !get_setText, !same_key, !other_key by (intros E; vm_compute in E; discriminate E).
    change (getParam ∅ _) with ([] : bytes). destruct commit, changesID, b; done. }
  destruct Hq as (H1' & H2' & H3' & H4'). destruct replace; [|by rewrite H1', H2', H3', H4'].
  unfold getParam in *. rewrite lookup_insert_eq, !lookup_insert_ne by done. by rewrite H1', H2', H3'.
Qed.

(** A post over HTTP is a post to the store. *)
Lemma post_direct ce w commit changesID b actionIDs replace w' :
  Forall line_ok actionIDs -> TrimSpace commit = commit -> TrimSpace changesID = changesID -> TrimSpace b = b ->
  commit <> [] -> ClientPostCacheUsed (serveCache cf ce) w commit changesID b actionIDs replace = (w', Ok tt) ->
  exists fs', PostCacheUsed cf (ce_manifests ce) (cs_files w) commit changesID b (unseen ∅ actionIDs) replace = (fs', Ok tt) /\
    w' = mkCacheServer (cs_store w) fs'.
Proof.
  intros Hl Hc Hch Hb Hne. unfold ClientPostCacheUsed. rewrite (bool_decide_eq_false_2 (commit = [])) by done. cbn [andb].
  set (q := cacheUsedQuery _ _ _ _). destruct (cacheUsedQuery_params commit changesID b replace) as (E1 & E2 & E3 & E4). fold q in E1, E2, E3, E4.
  assert (Es : serveCache cf ce w (mkCall #"/cache-used" q (Join actionIDs [newline]) true) =
    match PostCacheUsed cf (ce_manifests ce) (cs_files w) commit changesID b (unseen ∅ actionIDs) replace with
    | (fs, Err e) => (mkCacheServer (cs_store w) fs, Ok (statusOnly (errorStatus e)))
    | (fs, Ok _) => (mkCacheServer (cs_store w) fs, Ok (statusOnly 204))
    end).
  { unfold serveCache. cbn [c_path c_query c_body]. do 4 rewrite bool_decide_eq_false_2 by done. rewrite bool_decide_eq_true_2 by done.
    unfold serveCacheUsed. rewrite E1, E2, E3, E4, Hc, Hch, Hb, (bool_decide_eq_false_2 (commit = [])) by done. cbn [andb].
    rewrite readActionIDs_joined by done. by destruct (PostCacheUsed _ _ _ _ _ _ _ _) as [fs [u|e]]. }
  destruct (PostCacheUsed cf (ce_manifests ce) (cs_files w) commit changesID b (unseen ∅ actionIDs) replace) as [fs [[]|e]];
    rewrite (direct_answer cf ce _ _ _ _ Es); cbn [re_status statusOnly checkStatus]; try tauto.
  - intros [= <-]. by exists fs.
  - unfold errorStatus, checkStatus. cbn [re_status]. by destruct (isManifestValidationError e).
  - unfold errorStatus. destruct (isManifestValidationError e); tauto.
Qed.

(** The items that a preload finds, as the server reads them, and what its budget for
    the build type leaves of them. *)
Definition foundItems (s : Store) (items : list ResponseItem) : list ResponseItem :=
  map (servedItem (openFile (outputs s))) items.

Definition budgetOf (ce : CacheEnv) (req : PreloadRequest) : Z := maxPreloadTotalBytesFor (ce_settings ce) (pl_BuildType req).

Definition budgeted (ce : CacheEnv) (s : Store) (req : PreloadRequest) (items : list ResponseItem) : list ResponseItem :=
  trimToPreloadBudget (foundItems s items) (budgetOf ce req).

(** A preload over HTTP. *)
Lemma preload_direct ce w bl req s' items :
  holds cf (cs_store w) bl -> sized (cs_store w) -> range_of (index (cs_store w)) (ce_range ce (index (cs_store w))) ->
  json_ok req ->
  Preload cf (ce_manifests ce) (cs_files w) (ce_range ce) (cs_store w) req = (s', Ok items) ->
  is_Some (match PreloadSources cf (ce_sources ce) (cs_files w) req with Ok l => Some l | Err _ => None end) ->
  carries (map ri_meta (budgeted ce s' req items)) ->
  ClientPreload (serveCache cf ce) w req =
    (mkCacheServer s' (cs_files w), (map arrived (budgeted ce s' req items), Ok tt)).
Proof.
  intros Hh Hz Hr Hj Hpre Hsrc Hc. destruct (Unmarshal_Marshal _ Hj) as (j & Ej & _ & Hu). unfold ClientPreload. rewrite Ej.
  destruct (Preload_ok cf Hdir _ _ _ _ bl req s' items Hh Hr Hpre) as (-> & sel & _ & Hitems & _).
  set (s := cs_store w) in *. set (sent := budgeted ce s req items) in *.
  assert (Hsent : Forall (fun i => writable i /\ measured i) sent).
  { apply Forall_forall. intros x Hx. assert (Hsub := trim_sublist (foundItems s items) (budgetOf ce req)).
    fold (budgeted ce s req items) sent in Hsub. eapply sublist_subseteq in Hx; [|exact Hsub].
    apply list_elem_of_fmap in Hx as (i & -> & Hi). rewrite Hitems in Hi.
    apply list_elem_of_fmap in Hi as ([a ie] & -> & [_ Hin]%list_elem_of_filter). apply (entries_in_spec _ _ Hr) in Hin.
    destruct (proj2 Hh a ie Hin) as (b & Hb & _). destruct (entry_sent cf Hdir s bl a ie b Hh Hz Hin Hb) as (_ & H1' & H2' & _). done. }
  destruct Hc as [Hc1 Hc2].
  destruct (respond_whole sent) as (out & Ew & Er); try done; try (eapply Forall_impl; [exact Hsent|]; simpl; tauto).
  destruct Hsrc as [l Hsrc]. destruct (PreloadSources cf (ce_sources ce) (cs_files w) req) as [srcs|] eqn:Esrc; [|done].
  assert (Es : exists header, serveCache cf ce w (mkCall #"/preload" ∅ j true) =
    (mkCacheServer s (cs_files w), Ok (mkResponse 200 header (fromBytes out)))).
  { unfold serveCache. cbn [c_path c_body]. do 3 rewrite bool_decide_eq_false_2 by done.
    rewrite bool_decide_eq_true_2 by done. unfold servePreload, preloadAnswer. fold s. rewrite Hu, Esrc, Hpre.
    fold (foundItems s items) (budgetOf ce req) (budgeted ce s req items) sent. rewrite Er. by eexists. }
  destruct Es as [header Es]. rewrite (direct_answer cf ce _ _ _ _ Es) by (by left).
  unfold checkStatus. cbn [re_status re_body Z.eqb Pos.eqb].
  by rewrite (receive_whole sent); try done; try (eapply Forall_impl; [exact Hsent|]; simpl; tauto).
Qed.

(** The item of an action as the client gets it with its bytes. *)
Definition preloadedItem (a : bytes) (ie : indexEntry) (b : bytes) : ResponseItem :=
  mkResponseItem (sentMeta a ie) (if ie_Size ie =? 0 then None else Some (Ok (fromBytes b))).

(** C4: what one build used, the next one gets, over HTTP.  After a client's post of the
    actions that its build used, a preload for the same commit and build type that the
    server can answer -- it reads its manifests and no entry it lists is broken -- finds
    every one of those actions that the store holds and the request admits, with the
    stored bytes, and leaves the store as it was.  The client gets what the server's
    preload budget for the build type leaves of what was found: all of it when no
    budget is set or when all of it fits. *)
Theorem posted_over_http_is_preloaded ce ce' w w1 bl commit changesID b actionIDs replace p l req s' items
    (Hh : holds cf (cs_store w) bl) (Hz : sized (cs_store w))
    (Hr : range_of (index (cs_store w)) (ce_range ce' (index (cs_store w))))
    (He : reads (ce_manifests ce)) (He' : reads (ce_manifests ce'))
    (Hids : Forall line_ok actionIDs) (Hl : Forall line_ok l)
    (Hc : TrimSpace commit = commit /\ commit <> []) (Hch : TrimSpace changesID = changesID /\ undotted changesID)
    (Hb : TrimSpace b = b) (Hp : commitManifestPath cf commit b = Ok p) (Hf : lists (cs_files w) p l)
    (Hpost : ClientPostCacheUsed (serveCache cf ce) w commit changesID b actionIDs replace = (w1, Ok tt))
    (Hreq : pl_Commit req = commit /\ pl_BuildType req = b) (Hj : json_ok req)
    (Hsrc : exists srcs, PreloadSources cf (ce_sources ce') (cs_files w1) req = Ok srcs)
    (Hpre : Preload cf (ce_manifests ce') (cs_files w1) (ce_range ce') (cs_store w1) req = (s', Ok items))
    (Hcar : carries (map ri_meta (budgeted ce' s' req items))) :
  exists got found, ClientPreload (serveCache cf ce') w1 req = (w1, (got, Ok tt)) /\ cs_store w1 = cs_store w /\
    got = map arrived (trimToPreloadBudget found (budgetOf ce' req)) /\
    forall a ie, a ∈ actionIDs -> index (cs_store w) !! a = Some ie -> wireSizeOf ie <= maxPreload req ->
      exists x, bl !! ie_OutputID ie = Some x /\ preloadedItem a ie x ∈ map arrived found /\
        (budgetOf ce' req <= 0 \/ totalSize found <= budgetOf ce' req -> preloadedItem a ie x ∈ got).
Proof.
  destruct Hc as [Hc Hne], Hch as [Hch Hu].
  destruct (post_direct ce w commit changesID b actionIDs replace w1 Hids Hc Hch Hb Hne Hpost) as (fs' & Hp1 & ->).
  cbn [cs_store cs_files] in *.
  assert (Hids' : Forall line_ok (unseen ∅ actionIDs)) by (by apply unseen_lines).
  destruct (posted_are_preloaded cf Hdir (ce_manifests ce) (ce_manifests ce') (cs_files w) fs' commit changesID b (unseen ∅ actionIDs)
    replace p l (ce_range ce') (cs_store w) bl req s' items) as [-> Hall]; try done; rewrite ?Hc, ?Hch; try done.
  destruct Hsrc as [srcs Hsrc].
  eexists _, (foundItems (cs_store w) items). split; [|split; [done|split; [reflexivity|]]].
  - rewrite (preload_direct ce' (mkCacheServer (cs_store w) fs') bl req (cs_store w) items); try done.
    cbn [cs_files]. rewrite Hsrc. by eexists.
  - intros a ie Ha Hi Hm. destruct (Hall a ie) as (item & x & Hin & Hx & Hp2); [|done|done|].
    { apply elem_of_unseen. set_solver. }
    exists x. split; [done|].
    assert (Hgot : preloadedItem a ie x ∈ map arrived (foundItems (cs_store w) items)); [|split; [done|]; intros Hfit; by rewrite trim_fits].
    assert (Hitem : item = responseItem cf (outputs (cs_store w)) a ie).
    { destruct (Preload_ok cf Hdir _ _ _ _ bl req _ items Hh Hr Hpre) as (_ & sel & _ & Hitems & _). rewrite Hitems in Hin.
      apply list_elem_of_fmap in Hin as ([a' ie'] & -> & [_ Hin]%list_elem_of_filter). apply (entries_in_spec _ _ Hr) in Hin.
      assert (Hmeta := f_equal (fun i => ri_ActionID (ri_meta i)) Hp2). cbn [fst snd] in *.
      assert (Ha' : a' = a).
      { rewrite prepared_meta in Hmeta. revert Hmeta. unfold responseItem. by destruct (negb _). }
      subst a'. by assert (ie' = ie) as -> by congruence. }
    apply list_elem_of_fmap. exists (servedItem (openFile (outputs (cs_store w))) item). rewrite Hitem in *.
    split; [|by apply list_elem_of_fmap_2].
    destruct (entry_sent cf Hdir (cs_store w) bl a ie x Hh Hz Hi Hx) as (_ & _ & _ & ->). done.
Qed.
End posted.

(** ** An item of size zero *)

(** What the handler passes on as it came: an item of size zero with a path and a wire
    size has the store read that file of the server.  Any client that may put can have
    any file of a known length stored, and then get it. *)
Lemma put_stores_a_server_file `{Zstd} `{JSON (list ResponseMeta)} cf open args s bl s' a o path x y out :
  let i := mkResponseItem (mkResponseMeta a false o 0 None true (blen x) path) (Some (Ok (fromBytes y))) in
  abs_dir (cf_dir cf) -> holds cf s bl -> cf_compress cf = true -> good_id o -> bl !! o = None ->
  (forall n, pages_left (pool (outputs s)) n) ->
  path <> [] -> open path = Ok (fromBytes x) -> 0 < blen x -> blen y = blen x ->
  json_ok [ri_meta i] -> ResponseWriteTo [i] = Ok out ->
  servePut cf open args s (fromBytes out) = (s', statusOnly 204) ->
  exists ie, index s' !! a = Some ie /\
    served cf (outputs s') a ie = mkResponseItem (served_meta cf a ie) (Some (Ok (fromBytes x))).
Proof.
  intros i Hd Hh Hc Hid Hn Hleft Hp Ho Hx Hy Hj Hout. unfold servePut, fromBytes. rewrite <-(app_nil_r out).
  rewrite (Response_roundtrip [i] out) by done. cbn [deliverItems].
  assert (Hi : ItemPrepareBodyReader (mkResponseItem (ri_meta i) None) open = mkResponseItem (ri_meta i) (Some (Ok (fromBytes x)))).
  { unfold ItemPrepareBodyReader. cbn [ri_body ri_meta i ri_DiskPath]. by rewrite bool_decide_eq_false_2, Ho. }
  unfold putCallback. cbn [ri_meta i ri_Size Z.eqb negb PutAll]. change (mkResponseMeta _ _ _ _ _ _ _ _) with (ri_meta i). rewrite Hi.
  set (j := mkResponseItem (ri_meta i) (Some (Ok (fromBytes x)))).
  destruct (putOne cf s j (args (ri_meta i))) as [s1 [[]|]] eqn:Eput; [|done]. intros [= <-].
  assert (Hp1 : putting cf j (args (ri_meta i)) = Ok (with_compressed (newEntry j (pa_now (args (ri_meta i)))) (blen x), Some (fromBytes x))).
  { unfold putting, bodyReaderForPut. rewrite Hc. cbn [j i ri_meta ri_IsCompressed negb]. unfold ItemWireBodyReader, noBody.
    cbn [j i ri_meta ri_Size ri_WireSize ri_body]. by rewrite (proj2 (Z.eqb_neq (blen x) 0)) by lia. }
  destruct (local_putOne_spec cf s bl j (args (ri_meta i)) s1 (Ok tt) Hd Hh Hid) as [[Hov _]|(ie0 & rd & ie & b & Hpt & Hie & Hb & Hix & Hh')]; try done.
  - intros ie rd b _ Hb. cbn [j i ri_meta ri_OutputID] in Hb. congruence.
  - unfold oversized in Hov. cbn [j i ri_meta ri_Size] in Hov. apply andb_true_iff in Hov as [H1' H2']. go_bool. lia.
  - assert (rd = Some (fromBytes x) /\ ie0 = with_compressed (newEntry j (pa_now (args (ri_meta i)))) (blen x)) as [-> ->] by (split; congruence).
    assert (b = x) as ->.
    { destruct Hb as [Hb|[_ Hb]]; [cbn [j i ri_meta ri_OutputID] in Hb; congruence|]. by injection Hb. }
    exists ie. rewrite Hix, lookup_insert_eq. split; [done|].
    apply (served_stored cf s1 _ a ie x Hd Hh'); [by rewrite Hix, lookup_insert_eq|].
    rewrite Hie. cbn [with_loc with_compressed newEntry ie_OutputID]. apply lookup_insert_eq.
Qed.

(** ** Witnesses *)

(** A value of a table is found by going through it. *)
Ltac in_table := repeat (first [apply list_elem_of_here | apply list_elem_of_further]).

Section witnesses.
Let Z0 := magicZstd.
Let S0 := stable_slice_sort.
Local Existing Instance Z0.
Local Existing Instance S0.

Definition upItem : ResponseItem :=
  mkResponseItem (mkResponseMeta #"a1" false #"out" 9 None false 9 []) (Some (Ok (fromBytes #"ninebytes"))).
Definition gotEntry : indexEntry := mkEntry #"out" 9 5 5 0 0 0 0.

Let L0 : JSON (list bytes) := tableJSON [[ #"a1" ]].
Let R0 : JSON (list ResponseMeta) := tableJSON [[missMeta #"a1"]; [ri_meta upItem]; [sentMeta #"a1" gotEntry]].
Let P0 : JSON PreloadRequest := tableJSON [preloadAbc].
Local Existing Instance L0.
Local Existing Instance R0.
Local Existing Instance P0.

Definition cacheEnv (now : Z) : CacheEnv :=
  mkCacheEnv (fun k => now + Z.of_nat k) (fun _ => exampleArgs) (fun _ => Err ENotExist) (calm now) (calm now) (fun _ => [ #"a1" ])
    (mkHandler [] (mkSettings ∅ ∅) None).
Definition emptyCache : CacheServer := mkCacheServer emptyStore ∅.
Definition filledCache : CacheServer := mkCacheServer nineStore ∅.

Lemma up_uploadable : uploadable (exampleConfig false) [upItem].
Proof.
  split.
  - intros i ->%list_elem_of_singleton. exists #"ninebytes". done.
  - intros i ->%list_elem_of_singleton. split; [exact example_id|discriminate].
  - intros i ->%list_elem_of_singleton. reflexivity.
  - apply NoDup_singleton.
Qed.

Lemma put_over_http_is_got_witness :
  let '(w', r) := ClientPut (serveCache (exampleConfig false) (cacheEnv 4)) emptyCache [upItem] in
  r = Ok tt /\ exists w2 item rd, ClientGet (serveCache (exampleConfig false) (cacheEnv 8)) w' [ #"a1" ] = (w2, ([item], Ok tt)) /\
    ItemUncompressedBodyReader item = Ok rd /\ delivers rd #"ninebytes".
Proof.
  destruct (ClientPut _ emptyCache [upItem]) as [w' r] eqn:E.
  assert (Er : r = Ok tt) by (change r with (snd (w', r)); rewrite <-E; vm_compute; reflexivity). subst r. split; [done|].
  assert (Em : missing (exampleConfig false) (cs_store emptyCache) [upItem] = [upItem]) by (vm_compute; reflexivity).
  destruct (put_over_http_is_got (exampleConfig false) (example_dir false) (cacheEnv 4) (cacheEnv 8) emptyCache ∅ [upItem] w' #"a1")
    as (w2 & item & H1 & H2 & _).
  - exact (empty_holds false).
  - intros a ie Ha. change (index (cs_store emptyCache)) with (∅ : gmap bytes indexEntry) in Ha. by rewrite lookup_empty in Ha.
  - exact up_uploadable.
  - split; rewrite ?Em; in_table.
  - rewrite Em. split.
    + intros i _ ie rd b _ Hb. by rewrite lookup_empty in Hb.
    + intros i j ie rd ie' rd' b ->%list_elem_of_singleton ->%list_elem_of_singleton _ Hp Hp' Hd.
      assert (rd' = rd /\ ie' = ie) as [-> ->] by (split; congruence). split; [done|].
      vm_compute in Hp. injection Hp as <- <-. vm_compute in Hd. injection Hd as <-. reflexivity.
  - rewrite Em. intros [|k]; apply pages_left_decide; [vm_compute; reflexivity|]. cbn [map take]. rewrite take_nil. vm_compute. reflexivity.
  - exact E.
  - in_table.
  - assert (Ea : [answerMeta (exampleConfig false) (cs_store w') #"a1"] = [sentMeta #"a1" gotEntry]).
    { change w' with (fst (w', @Ok unit tt)). rewrite <-E. vm_compute. reflexivity. }
    rewrite Ea. split; [in_table|]. intros j Hj. vm_compute in Hj. injection Hj as <-. vm_compute. discriminate.
  - destruct (H2 upItem #"ninebytes") as (rd & H3 & H4); [rewrite Em; by apply list_elem_of_singleton|done|done|].
    exists w2, item, rd. done.
Defined.

Lemma http_upstream_is_polite_witness :
  let b := mkBatch [Proxy.mkRequest 1 CmdGet #"a1" [] 0 None] None [] in
  let '(w', (items, r)) := ClientGet (serveCache (exampleConfig false) (cacheEnv 4)) filledCache [ #"a1" ] in
  streams b items /\ map (fun i => ri_ActionID (ri_meta i)) items = [ #"a1" ].
Proof.
  intros b. destruct (ClientGet _ filledCache [ #"a1" ]) as [w' [items r]] eqn:E.
  destruct (http_upstream_is_polite (exampleConfig false) (cacheEnv 4) filledCache b [ #"a1" ] w' items r) as [H1 H2].
  - vm_compute. reflexivity.
  - reflexivity.
  - apply list_elem_of_here.
  - split; [in_table|]. intros j Hj. vm_compute in Hj. injection Hj as <-. vm_compute. discriminate.
  - exact E.
  - split; [exact H1|]. apply H2. change r with (snd (items, r)). change (items, r) with (snd (w', (items, r))). rewrite <-E. vm_compute. reflexivity.
Defined.

Lemma posted_over_http_is_preloaded_witness :
  let '(w1, r) := ClientPostCacheUsed (serveCache (exampleConfig false) (cacheEnv 1)) filledCache #"abc" #"7" [] [ #"a1" ] false in
  r = Ok tt /\ exists got, ClientPreload (serveCache (exampleConfig false) (cacheEnv 2)) w1 preloadAbc = (w1, (got, Ok tt)) /\
    preloadedItem #"a1" gotEntry #"ninebytes" ∈ got.
Proof.
  destruct (ClientPostCacheUsed _ filledCache _ _ _ _ _) as [w1 r] eqn:E.
  assert (Er : r = Ok tt) by (change r with (snd (w1, r)); rewrite <-E; vm_compute; reflexivity). subst r. split; [done|].
  assert (Hm : match snd (Preload (exampleConfig false) (calm 2) (cs_files w1) (fun _ => [ #"a1" ]) nineStore preloadAbc) with
    | Ok items => map (fun i => ri_meta (servedItem (openFile (outputs nineStore)) i)) items | Err _ => [] end = [sentMeta #"a1" gotEntry]).
  { change (cs_files w1) with (cs_files (fst (w1, @Ok unit tt))). rewrite <-E. vm_compute. reflexivity. }
  assert (Es : cs_store w1 = nineStore).
  { destruct (post_direct (exampleConfig false) (cacheEnv 1) filledCache #"abc" #"7" [] [ #"a1" ] false w1 a1_line) as (fs & _ & ->);
      [vm_compute; reflexivity..|discriminate|exact E|reflexivity]. }
  destruct (Preload (exampleConfig false) (calm 2) (cs_files w1) (fun _ => [ #"a1" ]) nineStore preloadAbc) as [s' [items|e]] eqn:Ep; [|done].
  cbn [snd] in Hm. assert (s' = nineStore) as -> by (by destruct (Preload_ok _ (example_dir false) _ _ _ _ _ _ _ _ nine_stored nine_range Ep)).
  assert (Hsrc : exists srcs, PreloadSources (exampleConfig false) (calm 2) (cs_files w1) preloadAbc = Ok srcs).
  { change (cs_files w1) with (cs_files (fst (w1, @Ok unit tt))). rewrite <-E. eexists. vm_compute. reflexivity. }
  destruct (posted_over_http_is_preloaded (exampleConfig false) (example_dir false) (cacheEnv 1) (cacheEnv 2) filledCache w1
    {[ #"out" := #"ninebytes" ]} #"abc" #"7" [] [ #"a1" ] false #"/srv/cache/manifests/default/ab/abc" [] preloadAbc nineStore items)
    as (got & found & H1 & _ & _ & H2).
  - exact nine_stored.
  - intros a ie Ha. cbn [cs_store filledCache] in Ha. assert (Ei : index nineStore = {[ #"a1" := gotEntry ]}) by (vm_compute; reflexivity).
    rewrite Ei in Ha. apply lookup_singleton_Some in Ha as [_ <-]. vm_compute. discriminate.
  - exact nine_range.
  - apply calm_reads.
  - apply calm_reads.
  - apply a1_line.
  - constructor.
  - split; [vm_compute; reflexivity|discriminate].
  - split; [vm_compute; reflexivity|vm_compute; discriminate].
  - vm_compute. reflexivity.
  - vm_compute. reflexivity.
  - apply absent_lists.
  - exact E.
  - split; reflexivity.
  - apply list_elem_of_here.
  - exact Hsrc.
  - rewrite Es. exact Ep.
  - unfold budgeted. rewrite trim_fits by (left; vm_compute; discriminate). unfold foundItems. rewrite map_map, Hm.
    split; [in_table|]. intros j Hj. vm_compute in Hj. injection Hj as <-. vm_compute. discriminate.
  - exists got. split; [exact H1|]. destruct (H2 #"a1" gotEntry) as (x & Hx & _ & Hin).
    + apply list_elem_of_here.
    + vm_compute. reflexivity.
    + vm_compute. discriminate.
    + rewrite lookup_singleton_eq in Hx. injection Hx as <-. apply Hin. left. vm_compute. discriminate.
Defined.
End witnesses.
