(* ===== verification/NativeSave.v ===== *)
(** A save from end to end: src/internal/local/native_cache.go collects the fresh files
    of a GOCACHE directory, src/internal/http/client.go asks the server which it has
    and uploads the others in chunks, and src/internal/http/save_cache.go stores them.
    The client runs over any network; the last part connects it to the handlers
    directly. *)
From S2P Require Import Prelude.
From S2P Require Import GoStrings.
From S2P Require Import GoPath.
From S2P Require Import RecordPool.
From S2P Require Import Wire.
From S2P Require Import HttpNet.
From S2P Require Import GoCacheStore.
From S2P Require Import GoCacheOpen.
From S2P Require Import ManifestPaths.
From S2P Require Import Manifests.
From S2P Require Import GoCacheRestore.
From S2P Require Import ClientFiles.
From S2P Require Import NativeRestore.
From S2P Require Import SaveSessions.

(** ** Numbers of the upload *)

Definition headerSaveMaxFileBytes : bytes := #"X-Gocacheprog-Save-Max-File-Bytes".

(** The limit a response of the start declares; a number that is none is logged. *)
Definition declaredMaxFileBytes (r : Response) : Z :=
  let v := TrimSpace (getHeader r headerSaveMaxFileBytes) in
  if bool_decide (v = []) then 0 else match ParseInt v with Ok n => n | Err _ => 0 end.

Definition saveCacheQuery (req : Request) (uploadID : bytes) : Query :=
  setText #"upload-id" uploadID (gocacheQuery req).

Definition DefaultSaveCacheChunkBytes : Z := 900 * 1024.
Definition saveCacheMaxRetries : nat := 3.

Definition chunkBytes (saveCacheMaxRequestBytes : Z) : Z :=
  if saveCacheMaxRequestBytes <=? 0 then DefaultSaveCacheChunkBytes else saveCacheMaxRequestBytes.

(** ** The stream of a save *)

Section writer.
Context `{Zstd} `{JSON FileMeta}.

(** [prepareSaveCacheItem]: larger bodies are compressed here. *)
Definition prepareSaveCacheItem (item : FileItem) : result FileItem :=
  let m := fi_meta item in
  if fi_Size m <? MinCompressionSize then
    Ok (mkFileItem (mkFileMeta (fi_Path m) (fi_Size m) (fi_ModTime m) (fi_Mode m) (fi_IsCompressed m)
          (if fi_WireSize m =? 0 then fi_Size m else fi_WireSize m) (fi_DiskPath m)) (fi_body item))
  else
    match CompressedBodyReader item with
    | Err e => Err e
    | Ok None => Err (EPanic "nil reader")
    | Ok (Some rd) =>
        let? data := ReadAll rd in
        Ok (mkFileItem (mkFileMeta (fi_Path m) (fi_Size m) (fi_ModTime m) (fi_Mode m) true (blen data) (fi_DiskPath m))
              (Some (Ok (fromBytes data))))
    end.

Definition wireBodySize (item : FileItem) : Z :=
  if 0 <? fi_WireSize (fi_meta item) then fi_WireSize (fi_meta item) else fi_Size (fi_meta item).

Definition countItem (sourceBytes : Z) (item : FileItem) (st : TransferStats) : TransferStats :=
  mkStats (ts_Files st + 1) (ts_CompressedBytes st + wireBodySize item) (ts_UncompressedBytes st + sourceBytes).

(** The goroutine that writes the stream into the pipe: the bytes, the error it closes
    the pipe with, and what it counted. *)
Fixpoint writerStream (serverMaxFileBytes : Z) (items : list FileItem) (st : TransferStats)
    : bytes * option goerr * TransferStats :=
  match items with
  | [] => (CloseStream, None, st)
  | item :: items =>
      if (0 <? serverMaxFileBytes) && (serverMaxFileBytes <? fi_Size (fi_meta item))
      then writerStream serverMaxFileBytes items st
      else match prepareSaveCacheItem item with
      | Err e => ([], Some e, st)
      | Ok prepared =>
          let st := countItem (fi_Size (fi_meta item)) prepared st in
          match writeItemTo prepared with
          | (b, Some e) => (b, Some e, st)
          | (b, None) =>
              let '(bs, e, st) := writerStream serverMaxFileBytes items st in (b ++ bs, e, st)
          end
      end
  end.
End writer.

(** ** The client *)

Section client.
Context {W : Type} (net : W -> Call -> W * result Response).

Definition startSaveCache (w : W) (req : Request) (uploadID : bytes) : W * result Z :=
  match roundTrip net w (mkCall #"/save-cache-start" (saveCacheQuery req uploadID) [] true) with
  | (w, Err e) => (w, Err e)
  | (w, Ok res) => (w, let? _ := checkStatus res 204 in Ok (declaredMaxFileBytes res))
  end.

Definition saveCacheChunk (w : W) (req : Request) (uploadID chunk : bytes) : W * result unit :=
  match roundTrip net w (mkCall #"/save-cache-chunk" (saveCacheQuery req uploadID) chunk true) with
  | (w, Err e) => (w, Err e)
  | (w, Ok res) => (w, checkStatus res 204)
  end.

Definition postSaveCacheControl (w : W) (req : Request) (uploadID path : bytes) : W * result unit :=
  match roundTrip net w (mkCall path (saveCacheQuery req uploadID) [] true) with
  | (w, Err e) => (w, Err e)
  | (w, Ok res) => (w, checkStatus res 204)
  end.

Definition finalizeSaveCache (w : W) (req : Request) (uploadID : bytes) : W * result unit :=
  postSaveCacheControl w req uploadID #"/save-cache-finalize".

(** A failed abort is only logged. *)
Definition abortSaveCache (w : W) (req : Request) (uploadID : bytes) : W :=
  fst (postSaveCacheControl w req uploadID #"/save-cache-abort").

(** The loop that reads the pipe, a buffer at a time: [io.ReadFull] gives a full
    buffer, or what is left and an error.  The length of the stream is enough fuel. *)
Fixpoint sendLoop (fuel : nat) (size : Z) (req : Request) (uploadID : bytes) (w : W) (pipe : stream)
    : W * result unit :=
  match fuel with
  | O => (w, Err (EMsg "out of fuel"))
  | S fuel =>
      let full := size <=? blen (st_data pipe) in
      let chunk := if full then take (Z.to_nat size) (st_data pipe) else st_data pipe in
      let sent := if bool_decide (chunk = []) then (w, Ok tt) else saveCacheChunk w req uploadID chunk in
      match sent with
      | (w, Err e) => (abortSaveCache w req uploadID, Err e)
      | (w, Ok _) =>
          if full then
            sendLoop fuel size req uploadID w (mkStream (drop (Z.to_nat size) (st_data pipe)) (st_err pipe))
          else match st_err pipe with
          | None => (w, Ok tt)
          | Some e =>
              if bool_decide (e = EEOF \/ e = EMsg "unexpected EOF") then (w, Ok tt)
              else (abortSaveCache w req uploadID, Err e)
          end
      end
  end.

Definition sendAll (size : Z) (req : Request) (uploadID : bytes) (w : W) (pipe : stream) : W * result unit :=
  sendLoop (S (length (st_data pipe))) size req uploadID w pipe.

Context `{Zstd} `{JSON FileMeta} `{JSON (list bytes)} (saveCacheMaxRequestBytes : Z).

Definition saveCacheOnce (w : W) (req : Request) (items : list FileItem) (uploadID : bytes)
    : W * result TransferStats :=
  match startSaveCache w req uploadID with
  | (w, Err e) => (w, Err e)
  | (w, Ok serverMaxFileBytes) =>
      let '(data, writerErr, stats) := writerStream serverMaxFileBytes items no_stats in
      match sendAll (chunkBytes saveCacheMaxRequestBytes) req uploadID w (mkStream data writerErr) with
      | (w, Err e) => (w, Err e)
      | (w, Ok _) =>
          match writerErr with
          | Some e => (abortSaveCache w req uploadID, Err e)
          | None =>
              match finalizeSaveCache w req uploadID with
              | (w, Err e) => (abortSaveCache w req uploadID, Err e)
              | (w, Ok _) => (w, Ok stats)
              end
          end
      end
  end.

(** The attempts that are left, each with an upload id of its own. *)
Fixpoint saveAttempts (retries attempt : nat) (ids : nat -> bytes) (w : W) (req : Request) (items : list FileItem)
    : W * result TransferStats :=
  match saveCacheOnce w req items (ids attempt) with
  | (w, Ok stats) => (w, Ok stats)
  | (w, Err e) =>
      match retries with
      | O => (w, Err e)
      | S retries => saveAttempts retries (S attempt) ids w req items
      end
  end.

(** [Client.SaveCache]. *)
Definition ClientSaveCache (ids : nat -> bytes) (w : W) (req : Request) (items : list FileItem)
    : W * result TransferStats :=
  match items with
  | [] => (w, Ok no_stats)
  | _ => saveAttempts saveCacheMaxRetries 1 ids w req items
  end.

(** [Client.ExistingPaths]. *)
Definition ClientExistingPaths (w : W) (req : Request) (paths : list bytes) : W * result (list bytes) :=
  match Marshal paths with
  | Err e => (w, Err e)
  | Ok body =>
      match roundTrip net w (mkCall #"/save-cache-has" (gocacheQuery req) body true) with
      | (w, Err e) => (w, Err e)
      | (w, Ok res) => (w, let? _ := checkStatus res 200 in let? b := ReadAll (re_body res) in Unmarshal b)
      end
  end.

(** ** The end of a job *)

(** [reportExistingAndDedupe]; [order] is an order in which Go ranges over the set. *)
Definition reportExistingAndDedupe (order : gset bytes -> list bytes) (w : W) (req : Request)
    (restoredPaths : gset bytes) (items : list FileItem) : W * (list FileItem * Z) :=
  if bool_decide (items = []) && bool_decide (restoredPaths = ∅) then (w, (items, 0))
  else
    match ClientExistingPaths w req (order restoredPaths ++ map pathOf items) with
    | (w, Err _) => (w, (items, 0))
    | (w, Ok existing) =>
        if bool_decide (existing = []) then (w, (items, 0))
        else
          let deduped := filter (fun i => pathOf i ∉ existing) items in
          (w, (deduped, Z.of_nat (length items) - Z.of_nat (length deduped)))
    end.

Record SaveSkipStats := mkSkips {
  sk_ExistingSkipped : Z;
  sk_Considered : Z;
  sk_LargeSkipped : Z * Z;
}.

Definition no_skips : SaveSkipStats := mkSkips 0 0 (0, 0).

(** Whether a collected file is a candidate: not excluded by its name, and modified at
    or after [since] when that is given. *)
Definition isFresh (since : option Z) (exclude : option (bytes -> bool)) (item : FileItem) : bool :=
  negb (from_option (fun f => f (Base (fi_DiskPath (fi_meta item)))) false exclude) &&
  match since with
  | None => true
  | Some t => match fi_ModTime (fi_meta item) with None => false | Some m => t <=? m end
  end.

(** [SaveFreshNativeCache]; the files are opened when they are sent: [open] gives their
    content by their path on disk. *)
Definition SaveFreshNativeCache (env : WalkEnv) (order : gset bytes -> list bytes) (ids : nat -> bytes)
    (open : bytes -> result stream) (cacheDir : bytes) (d : Dir) (w : W) (req : Request) (maxFileBytes : Z)
    (since : option Z) (exclude : option (bytes -> bool)) : W * (SaveSkipStats * result TransferStats) :=
  let restored := match ReadRestoredPaths d with
                  | Err e => if bool_decide (e = ENotExist) then Ok ∅ else Err e
                  | r => r
                  end in
  match restored with
  | Err e => (w, (no_skips, Err e))
  | Ok restoredPaths =>
      match CollectFilesToSave env cacheDir restoredPaths maxFileBytes d with
      | Err e => (w, (no_skips, Err e))
      | Ok (collected, skippedLarge) =>
          let fresh := filter (fun i => isFresh since exclude i = true) collected in
          let '(w, (items, existingSkipped)) := reportExistingAndDedupe order w req restoredPaths fresh in
          let skips := mkSkips existingSkipped (Z.of_nat (length fresh)) skippedLarge in
          if bool_decide (items = []) then (w, (skips, Ok no_stats))
          else let '(w, res) := ClientSaveCache ids w req (map (fun i => PrepareBodyReader i open) items) in
               (w, (skips, res))
      end
  end.
End client.

(** ** The client at the handlers *)

Section direct.
Context `{Zstd} `{JSON FileMeta} `{JSON (list bytes)} (cf : Config) (se : SaveEnv).

(** What a reply is to the client: a handler that hangs is the client's timeout. *)
Definition respond (r : reply) (header : gmap bytes bytes) : result Response :=
  match r with
  | NoContent => Ok (mkResponse 204 header (fromBytes []))
  | StatusError code => Ok (mkResponse code ∅ (fromBytes []))
  | Hung => Err (EMsg "timeout awaiting response headers")
  end.

Definition startHeader : gmap bytes bytes :=
  if 0 <? startMaxFileBytes cf then {[ headerSaveMaxFileBytes := FormatInt (startMaxFileBytes cf) ]} else ∅.

(** The routes of a save, with the handlers' reading of the query and the body. *)
Definition serveSave (u : Uploads) (c : Call) : Uploads * result Response :=
  let uploadID := getParam (c_query c) #"upload-id" in
  let req := parseGOCACHERequest (c_query c) in
  if bool_decide (c_path c = #"/save-cache-start") then
    let '(u, r) := StartSaveCache u uploadID req in (u, respond r startHeader)
  else if bool_decide (c_path c = #"/save-cache-chunk") then
    let '(u, r) := SaveCacheChunk cf se u uploadID (fromBytes (c_body c)) in (u, respond r ∅)
  else if bool_decide (c_path c = #"/save-cache-finalize") then
    let '(u, r) := FinalizeSaveCache cf se u uploadID in (u, respond r ∅)
  else if bool_decide (c_path c = #"/save-cache-abort") then
    let '(u, r) := AbortSaveCache cf se u uploadID in (u, respond r ∅)
  else if bool_decide (c_path c = #"/save-cache-has") then
    match Unmarshal (c_body c) with
    | Err _ => (u, Ok (mkResponse 400 ∅ (fromBytes [])))
    | Ok paths =>
        let '(sv, existing) := SaveCacheHas cf se (up_server u) req paths in
        (mkUploads sv (saveSessions u),
         Ok (mkResponse 200 ∅ (fromBytes match Marshal existing with Ok b => b | Err _ => [] end)))
    end
  else (u, Ok (mkResponse 404 ∅ (fromBytes []))).
End direct.

(** ** The reader's account of the bytes *)

Section accounting.
Context `{Zstd} `{JSON FileMeta} (cf : Config) (se : SaveEnv).

Lemma ReadFull_consumed rd n b rd' :
  0 <= n -> ReadFull rd n = Ok (b, rd') -> blen (st_data rd) = n + blen (st_data rd').
Proof. intros Hn E. assert (Hl := ReadFull_rest rd n b rd' Hn E). unfold blen. lia. Qed.

Lemma readItemBody_consumed {S} rd w (read : stream -> S -> S * option goerr) s s' rd' n :
  0 <= w -> readItemBody rd w read s = (s', Ok (rd', n)) -> blen (st_data rd) = n + blen (st_data rd').
Proof.
  intros Hw. unfold readItemBody, LimitReader. destruct (read _ s) as [s1 [e|]]; [done|].
  destruct (w <=? blen (st_data rd)) eqn:E; go_bool; cbn [st_err st_data fromBytes].
  - assert (Hl : blen (take (Z.to_nat w) (st_data rd)) = w) by (unfold blen in *; rewrite length_take; lia).
    rewrite Hl, Z.eqb_refl. cbn [negb]. intros [= <- <- <-]. cbn [st_data]. unfold blen in *. rewrite length_drop. lia.
  - destruct (st_err rd); [done|]. by rewrite (proj2 (Z.eqb_neq _ _)) by lia.
Qed.

(** The count of a round is what it took from the stream. *)
Lemma readStreamItem_consumed {S} rd (read : FileMeta -> option stream -> S -> S * option goerr) s s' rd' n :
  readStreamItem rd read s = (s', Ok (Some rd', n)) -> blen (st_data rd) = n + blen (st_data rd').
Proof.
  unfold readStreamItem. destruct (ReadFull rd 4) as [[head rd1]|e] eqn:E1; [|by destruct e].
  apply ReadFull_consumed in E1; [|lia]. destruct (getInt32 head =? 0); [done|].
  destruct (getInt32 head <? 0) eqn:En; [done|]. go_bool.
  destruct (ReadFull rd1 _) as [[j rd2]|] eqn:E2; [|done]. apply ReadFull_consumed in E2; [|done].
  destruct (Unmarshal j) as [item|]; [|done]. destruct (0 <? wireLen item) eqn:Ew; go_bool.
  - destruct (readItemBody _ _ _ _) as [s1 [[rd3 k]|]] eqn:E3; [|done]. intros [= <- <- <-].
    apply readItemBody_consumed in E3; lia.
  - destruct (read item None s) as [s1 [e|]]; [done|]. intros [= <- <- <-]. lia.
Qed.

Definition addCount {S} (k : Z) (x : S * result Z) : S * result Z :=
  match x with (s, Ok n) => (s, Ok (k + n)) | _ => x end.

Lemma addCount_add {S} a b (x : S * result Z) : addCount a (addCount b x) = addCount (a + b) x.
Proof. destruct x as [s [k|e]]; simpl; [do 2 f_equal; lia|done]. Qed.

Lemma ReadStream_step {S} rd (read : FileMeta -> option stream -> S -> S * option goerr) s :
  ReadStream rd read s =
  match readStreamItem rd read s with
  | (s, Err e) => (s, Err e)
  | (s, Ok (None, n)) => (s, Ok n)
  | (s, Ok (Some rd, n)) => addCount n (ReadStream rd read s)
  end.
Proof.
  unfold ReadStream at 1. cbn [readStreamLoop].
  destruct (readStreamItem rd read s) as [s' [[[rd'|] n]|e]] eqn:E; [|by rewrite Z.add_0_l|done].
  apply readStreamItem_rest in E. rewrite readStreamLoop_total, (readStreamLoop_fuel _ _ (Datatypes.S (length (st_data rd')))) by lia.
  unfold ReadStream, addCount. destruct (readStreamLoop _ _ _ _ _) as [s2 [k|]]; [|done]. by do 2 f_equal.
Qed.

(** What the waiting reader and the pump come to, with the count of the bytes. *)
Lemma pump_counts fuel buf s s' r :
  (length buf < fuel)%nat -> pump cf se fuel buf s = (s', r) ->
  forall more e, ReadStream (mkStream (buf ++ more) e) (saveCallback cf se) s =
    match r with
    | Waiting buf' => addCount (blen buf - blen buf') (ReadStream (mkStream (buf' ++ more) e) (saveCallback cf se) s')
    | Returned (Ok _) rest => (s', Ok (blen buf - blen rest))
    | Returned (Err x) _ => (s', Err x)
    end.
Proof.
  revert buf s. induction fuel as [|fuel IH]; intros buf s Hf; [lia|]. cbn [pump].
  destruct (frameEnd buf) as [fe|] eqn:Efe.
  2: { intros [= <- <-] more e. rewrite Z.sub_diag. unfold addCount. by destruct (ReadStream _ _ _) as [? []]. }
  destruct (readStreamItem (fromBytes buf) _ s) as [s1 [[[rd|] n]|e1]] eqn:Er.
  - assert (Hlt := readStreamItem_rest _ _ _ _ _ _ Er). assert (Hn := readStreamItem_consumed _ _ _ _ _ _ Er).
    cbn [fromBytes st_data] in Hlt, Hn. intros Hp more e. apply IH with (more := more) (e := e) in Hp; [|lia].
    rewrite ReadStream_step, (frame_read_alone cf se buf fe more e s Efe), Er, Hp.
    destruct r as [buf'|[u|x] rest]; [|cbn [addCount]; do 2 f_equal; lia|done].
    rewrite addCount_add. f_equal. lia.
  - intros [= <- <-] more e. rewrite ReadStream_step, (frame_read_alone cf se buf fe more e s Efe), Er.
    do 2 f_equal. assert (Hb := frameEnd_bounds buf fe Efe). unfold frameEnd in Efe. unfold readStreamItem in Er.
    destruct (ReadFull (fromBytes buf) 4) as [[head rd1]|e0] eqn:E1.
    2: { unfold ReadFull in E1. cbn [st_data fromBytes] in E1. rewrite (proj2 (Z.leb_le _ _)) in E1 by lia. done. }
    assert (head = take 4 buf) as ->.
    { unfold ReadFull in E1. cbn [st_data fromBytes] in E1. rewrite (proj2 (Z.leb_le _ _)) in E1 by lia. by injection E1 as <- _. }
    rewrite (proj2 (Z.ltb_ge (blen buf) 4)) in Efe by lia.
    destruct (getInt32 (take 4 buf) =? 0) eqn:E0.
    + go_bool. rewrite E0 in Efe. injection Efe as <-. injection Er as _ <-. unfold blen in *. rewrite length_drop. lia.
    + destruct (getInt32 (take 4 buf) <? 0); [done|]. destruct (ReadFull rd1 _) as [[j rd2]|]; [|done].
      destruct (Unmarshal j) as [item|]; [|done]. destruct (0 <? wireLen item).
      * destruct (readItemBody _ _ _ _) as [? [[? ?]|]]; done.
      * destruct (saveCallback cf se item None s) as [? [?|]]; done.
  - intros [= <- <-] more e. by rewrite ReadStream_step, (frame_read_alone cf se buf fe more e s Efe), Er.
Qed.

(** A session that waits for exactly [data]. *)
Definition expects (sv : Server) (s : saveCacheSession) (data : bytes) : Prop :=
  ss_done s = None /\
  exists s', ReadStream (mkStream (ss_buf s ++ data) None) (saveCallback cf se) (sv_store sv, ss_paths s) =
    (s', Ok (blen (ss_buf s ++ data))).

(** A chunk of what is expected is taken whole; the reader then expects the rest, or it
    has returned and nothing is left. *)
Lemma feed_expected sv s b data sv' s' left :
  expects sv s (b ++ data) -> feed cf se sv s b = (sv', s', left) ->
  left = [] /\ (expects sv' s' data \/ data = [] /\ is_Some (ss_done s')).
Proof.
  intros (Hd & st' & Hr). unfold feed. rewrite Hd.
  destruct (pump _ _ _ _ _) as [[st paths] rd] eqn:Ep.
  assert (Hc := pump_counts _ _ _ _ _ (Nat.lt_succ_diag_r _) Ep data None). rewrite app_assoc, Hc in Hr.
  destruct rd as [buf'|[[]|x] rest]; [| |done].
  - intros [= <- <- <-]. split; [done|]. left. split; [done|]. cbn [ss_buf sv_store ss_paths].
    destruct (ReadStream _ _ _) as [s2 [k|]]; [|done]. cbn [addCount] in Hr. injection Hr as <- Hk. exists s2.
    rewrite !blen_app' in Hk. do 2 f_equal. rewrite blen_app'. lia.
  - destruct (endOfStream _ _ _ _ _ _ _) as [sv1 r1]. intros [= <- <- <-]. injection Hr as _ Hk.
    rewrite !blen_app' in Hk. assert (H1 := blen_nonneg rest). assert (H2 := blen_nonneg data).
    assert (rest = []) as -> by (destruct rest; [done|unfold blen in *; simpl in *; lia]).
    assert (data = []) as -> by (destruct data; [done|unfold blen in *; simpl in *; lia]).
    split; [done|]. right. split; [done|]. cbn [ss_done]. eauto.
Qed.
End accounting.

(** ** The upload *)

Section upload.
Context `{Zstd} `{JSON FileMeta} `{JSON (list bytes)} (cf : Config) (se : SaveEnv).

Lemma direct_roundTrip u c :
  (c_path c = #"/save-cache-start" \/ c_path c = #"/save-cache-chunk" \/ c_path c = #"/save-cache-finalize") ->
  roundTrip (serveSave cf se) u c = serveSave cf se u c.
Proof.
  intros Hp. unfold roundTrip. destruct (serveSave cf se u c) as [u' [res|e]] eqn:E; [|done].
  assert (Hg : isGatewayError res = false); [|by rewrite Hg].
  assert (Hr : forall r hdr, respond r hdr = Ok res -> (forall n, r = StatusError n -> n = 400 \/ n = 409 \/ n = 500) ->
    isGatewayError res = false).
  { intros [|n|] hdr; [intros [= <-]; done| |done]. intros [= <-] Hn. by destruct (Hn n eq_refl) as [->|[->| ->]]. }
  unfold serveSave in E. destruct Hp as [Hp|[Hp|Hp]]; rewrite Hp in E.
  - rewrite bool_decide_eq_true_2 in E by done. destruct (StartSaveCache _ _ _) as [u1 r] eqn:Es. injection E as _ E. apply (Hr _ _ E). intros n ->.
    unfold StartSaveCache in Es. destruct (bool_decide _); [injection Es as _ <-; lia|].
    destruct (saveSessions u !! _); [injection Es as _ <-; lia|done].
  - rewrite bool_decide_eq_false_2, bool_decide_eq_true_2 in E by done.
    destruct (SaveCacheChunk _ _ _ _ _) as [u1 r] eqn:Es. injection E as _ E. apply (Hr _ _ E). intros n ->.
    unfold SaveCacheChunk in Es. destruct (lookupSaveSession _ _); [|injection Es as _ <-; lia].
    destruct (feed _ _ _ _ _) as [[? ?] [|]]; [|done]. cbn [st_err fromBytes] in Es. done.
  - do 2 rewrite bool_decide_eq_false_2 in E by done. rewrite bool_decide_eq_true_2 in E by done.
    destruct (FinalizeSaveCache _ _ _ _) as [u1 r] eqn:Es. injection E as _ E. apply (Hr _ _ E). intros n ->.
    unfold FinalizeSaveCache in Es. destruct (lookupSaveSession _ _); [|injection Es as _ <-; lia].
    destruct (closeWriter _ _ _ _ _) as [? []]; [done|]. injection Es as _ <-. lia.
Qed.

Lemma upload_param req id : getParam (saveCacheQuery req id) #"upload-id" = id.
Proof.
  unfold saveCacheQuery, gocacheQuery. rewrite !get_setText, !get_setLimit, !get_setText, same_key.
  rewrite !other_key by (intros E; vm_compute in E; discriminate E). change (getParam ∅ _) with ([] : bytes).
  by destruct id.
Qed.

Lemma upload_request req id : parseGOCACHERequest (saveCacheQuery req id) = parseGOCACHERequest (gocacheQuery req).
Proof.
  unfold parseGOCACHERequest, getLimit, saveCacheQuery.
  by rewrite !get_setText, !other_key by (intros E; vm_compute in E; discriminate E).
Qed.

Lemma declared_start r : re_header r = startHeader cf -> cf_maxFileBytes cf < 2 ^ 63 -> declaredMaxFileBytes r = startMaxFileBytes cf.
Proof.
  intros Hh Hm. unfold declaredMaxFileBytes, getHeader. rewrite Hh. unfold startHeader, startMaxFileBytes.
  destruct (0 <? cf_maxFileBytes cf) eqn:E; [|done]. rewrite E, lookup_singleton_eq. cbn [default from_option id]. go_bool.
  rewrite FormatInt_trimmed, ParseInt_FormatInt by lia. rewrite bool_decide_eq_false_2; [done|].
  intros Ef. assert (Hp := ParseInt_FormatInt (cf_maxFileBytes cf) ltac:(lia)). by rewrite Ef in Hp.
Qed.

(** A chunk of what the session expects is answered at once. *)
Lemma chunk_direct u req id s c data :
  id <> [] -> saveSessions u !! id = Some s -> expects cf se (up_server u) s (c ++ data) ->
  exists u' s', saveCacheChunk (serveSave cf se) u req id c = (u', Ok tt) /\
    u' = fst (SaveCacheChunk cf se u id (fromBytes c)) /\
    saveSessions u' = <[id := s']> (saveSessions u) /\
    (forall more e, outcome cf se (up_server u) s (c ++ more) e = outcome cf se (up_server u') s' more e) /\
    (expects cf se (up_server u') s' data \/ data = []).
Proof.
  intros Hid Hs Hx. unfold saveCacheChunk. rewrite direct_roundTrip by auto.
  unfold serveSave. cbn [c_query c_path c_body]. rewrite upload_param.
  rewrite bool_decide_eq_false_2, bool_decide_eq_true_2 by done.
  unfold SaveCacheChunk, lookupSaveSession. rewrite bool_decide_eq_false_2, Hs by done. cbn [st_data st_err fromBytes].
  destruct (feed _ _ _ _ _) as [[sv' s'] left] eqn:Ef.
  destruct (feed_expected cf se _ _ _ _ _ _ _ Hx Ef) as [-> Hn]. apply feed_outcome in Ef as (Ho & _).
  eexists _, _. split; [reflexivity|]. split; [reflexivity|]. cbn [fst saveSessions up_server]. split; [reflexivity|].
  split; [exact Ho|]. destruct Hn as [(Hd & Hn)|[-> _]]; [left; by split|by right].
Qed.

(** The whole stream goes through, whatever the size of the buffer. *)
Lemma sendLoop_direct fuel size u req id s data :
  0 < size -> id <> [] -> saveSessions u !! id = Some s ->
  (expects cf se (up_server u) s data \/ data = []) -> (length data < fuel)%nat ->
  exists u' s', sendLoop (serveSave cf se) fuel size req id u (fromBytes data) = (u', Ok tt) /\
    saveSessions u' = <[id := s']> (saveSessions u) /\
    forall e, outcome cf se (up_server u) s data e = outcome cf se (up_server u') s' [] e.
Proof.
  intros Hsz Hid. revert u s data. induction fuel as [|fuel IH]; intros u s data Hs Hx Hf; [lia|].
  cbn [sendLoop st_data st_err fromBytes]. destruct (size <=? blen data) eqn:Efull; go_bool.
  - set (c := take (Z.to_nat size) data). set (data' := drop (Z.to_nat size) data).
    assert (Hcd : data = c ++ data') by (unfold c, data'; by rewrite take_drop).
    assert (Hc : c <> []).
    { intros Ec. apply (f_equal length) in Ec. unfold c, blen in *. rewrite length_take in Ec. simpl in Ec. lia. }
    rewrite bool_decide_eq_false_2 by done.
    destruct Hx as [Hx| ->]; [|unfold blen in Efull; simpl in Efull; lia].
    rewrite Hcd in Hx. destruct (chunk_direct u req id s c data' Hid Hs Hx) as (u1 & s1 & -> & _ & Hs1 & Ho & Hx1).
    destruct (IH u1 s1 data') as (u2 & s2 & E & Hs2 & Ho2).
    + by rewrite Hs1, lookup_insert_eq.
    + done.
    + unfold data'. rewrite length_drop. unfold blen in Efull. lia.
    + exists u2, s2. split; [exact E|]. split; [by rewrite Hs2, Hs1, insert_insert_eq|].
      intros e. by rewrite Hcd, Ho, Ho2.
  - case_bool_decide as Hd.
    + subst data. exists u, s. split; [done|]. split; [by rewrite insert_id|]. done.
    + destruct Hx as [Hx|Hx]; [|done]. rewrite <-(app_nil_r data) in Hx.
      destruct (chunk_direct u req id s data [] Hid Hs Hx) as (u1 & s1 & -> & _ & Hs1 & Ho & _).
      exists u1, s1. split; [done|]. split; [done|]. intros e. by rewrite <-(app_nil_r data), Ho.
Qed.

(** What the writer makes: the frames of the prepared items the server's limit lets
    through, and the end marker. *)
Lemma writerStream_ok limit items st data stats :
  writerStream limit items st = (data, None, stats) ->
  exists prepared out, Forall2 (fun i p => prepareSaveCacheItem i = Ok p)
      (filter (fun i => (0 <? limit) && (limit <? fi_Size (fi_meta i)) = false) items) prepared /\
    writeItems prepared = Ok out /\ data = out ++ CloseStream.
Proof.
  revert st data stats. induction items as [|i items IH]; intros st data stats; cbn [writerStream].
  { intros [= <- _]. exists [], []. repeat split. constructor. }
  destruct ((0 <? limit) && (limit <? fi_Size (fi_meta i))) eqn:El.
  { intros Hw. rewrite filter_cons_False by (by rewrite El). by eapply IH. }
  destruct (prepareSaveCacheItem i) as [p|] eqn:Ep; [|done].
  destruct (writeItemTo p) as [b [e|]] eqn:Ew; [done|].
  destruct (writerStream _ _ _) as [[bs [e|]] st'] eqn:E; [done|]. intros [= <- <-].
  destruct (IH _ _ _ E) as (prepared & out & Hf & Ho & ->). exists (p :: prepared), (b ++ out).
  rewrite filter_cons_True by done. split; [by constructor|]. cbn [writeItems]. rewrite Ho.
  split; [|by rewrite app_assoc]. unfold writeItemTo in Ew. unfold WriteItem.
  destruct (Marshal _) as [j|]; [|done]. destruct (checkedJSONLength j); [|done].
  destruct (WriteTo p); [|done]. by injection Ew as <-.
Qed.

(** The items the client sends: those within the limit that the server names at the start. *)
Definition serverTakes (i : FileItem) : bool := negb ((0 <? startMaxFileBytes cf) && (startMaxFileBytes cf <? fi_Size (fi_meta i))).

(** The upload of a batch is one save of its stream. *)
Lemma upload_direct max u req id items data stats sv :
  cf_maxFileBytes cf < 2 ^ 63 -> id <> [] -> saveSessions u !! id = None ->
  writerStream (startMaxFileBytes cf) items no_stats = (data, None, stats) ->
  (forall i p, i ∈ items -> serverTakes i = true -> prepareSaveCacheItem i = Ok p -> sendable p) ->
  SaveCache cf se (up_server u) (parseGOCACHERequest (gocacheQuery req)) (fromBytes data) = (sv, 204) ->
  saveCacheOnce (serveSave cf se) max u req items id = (mkUploads sv (saveSessions u), Ok stats).
Proof.
  intros Hm Hid Hnew Hw Hsend Hsave. unfold saveCacheOnce, startSaveCache. rewrite direct_roundTrip by auto.
  unfold serveSave at 1. cbn [c_query c_path]. rewrite upload_param, upload_request.
  rewrite bool_decide_eq_true_2 by done. unfold StartSaveCache. rewrite bool_decide_eq_false_2, Hnew by done.
  cbn [respond]. unfold checkStatus. cbn [re_status Z.eqb Pos.eqb].
  rewrite declared_start by done. rewrite Hw.
  set (rq := parseGOCACHERequest _) in *. set (s0 := mkSession rq [] [] None 0 0). set (u0 := mkUploads _ _).
  destruct (writerStream_ok _ _ _ _ _ Hw) as (prepared & out & Hf & Hout & Hdata).
  assert (Hs : Forall sendable prepared).
  { apply Forall_forall. intros p Hp. apply list_elem_of_lookup in Hp as [k Hk].
    destruct (Forall2_lookup_r _ _ _ _ _ Hf Hk) as (i & Hi & Hpr). apply list_elem_of_lookup_2, list_elem_of_filter in Hi as [Ht Hi].
    apply (Hsend i p); [done| |done]. unfold serverTakes. by rewrite Ht. }
  assert (Hx : expects cf se (up_server u0) s0 data).
  { split; [done|]. cbn [ss_buf ss_paths s0 up_server u0 app]. unfold SaveCache, processSaveCacheStream, fromBytes in Hsave.
    rewrite Hdata in Hsave |- *. rewrite <-(app_nil_r CloseStream), (ReadStream_frames prepared out) in Hsave |- * by done.
    rewrite app_nil_r, blen_app' in *. change (blen CloseStream) with 4.
    destruct (deliver _ _ _) as [[st paths] [e|]]; [done|]. eauto. }
  unfold sendAll. destruct (sendLoop_direct (S (length data)) (chunkBytes max) u0 req id s0 data) as (u1 & s1 & E & Hs1 & Ho).
  - unfold chunkBytes, DefaultSaveCacheChunkBytes. destruct (max <=? 0) eqn:E; go_bool; lia.
  - done.
  - apply lookup_insert_eq.
  - by left.
  - lia.
  - cbn [st_data]. unfold fromBytes in E. rewrite E. unfold finalizeSaveCache, postSaveCacheControl.
    rewrite direct_roundTrip by auto. unfold serveSave at 1. cbn [c_query c_path]. rewrite upload_param.
    do 2 rewrite bool_decide_eq_false_2 by done. rewrite bool_decide_eq_true_2 by done.
    unfold FinalizeSaveCache, lookupSaveSession. rewrite bool_decide_eq_false_2, Hs1, lookup_insert_eq by done.
    rewrite closeWriter_outcome, <-Ho. unfold SaveCache, fromBytes in Hsave. rewrite process_outcome in Hsave.
    fold s0 in Hsave. cbn [up_server u0]. destruct (outcome _ _ _ _ _ _) as [sv1 [[]|e]]; [|done]. injection Hsave as ->.
    cbn [respond]. unfold checkStatus. cbn [re_status Z.eqb Pos.eqb].
    do 2 f_equal. cbn [saveSessions u0]. rewrite insert_insert_eq, delete_insert_id by done. done.
Qed.
End upload.

(** ** What a stream of new objects makes of the store *)

Section storing.
Context `{Zstd} `{JSON FileMeta} (cf : Config) (se : SaveEnv).

(** The store has [p] with a body that a client decodes to [x]. *)
Definition stored_as (a : Contents) (p x : bytes) : Prop :=
  exists ie b, a !! p = Some (ie, b) /\ wireContent (responseMeta cf p ie) b = Ok x.

(** The item as the handler's callback hands it to the store. *)
Definition arrived (i : FileItem) : FileItem :=
  match received i with
  | Some rd => SetBodyReader (mkFileItem (fi_meta i) None) (Ok rd)
  | None => PrepareBodyReader (mkFileItem (fi_meta i) None) (se_open se)
  end.

Lemma arrived_meta i : fi_meta (arrived i) = fi_meta i.
Proof. unfold arrived, PrepareBodyReader. destruct (received i); [done|]. cbn [fi_body fi_meta]. by case_bool_decide. Qed.

Lemma arrived_body i x :
  sendable i -> decodes i x -> exists rd, UncompressedBodyReader (arrived i) = Ok rd /\ delivers rd x.
Proof.
  intros (_ & Hs & Hw) (b & Hb & Hx). assert (Hl := WriteTo_length i b Hs Hw Hb).
  unfold UncompressedBodyReader, bodyOf. rewrite arrived_meta. unfold wireContent in Hx.
  destruct ((fi_Size (fi_meta i) =? 0) && (fi_WireSize (fi_meta i) =? 0)) eqn:E0.
  - exists None. split; [done|]. go_bool. unfold wireLen in *. rewrite H1, H2 in *. simpl in Hl, Hx.
    rewrite andb_false_r in Hx. injection Hx as <-. by destruct b.
  - assert (Hp : 0 < wireLen (fi_meta i)).
    { unfold wireLen. apply andb_false_iff in E0. destruct (fi_WireSize (fi_meta i) =? 0) eqn:Ew; go_bool; [|lia].
      destruct E0 as [E0|E0]; [go_bool; lia|done]. }
    unfold arrived, received. rewrite (proj2 (Z.ltb_lt _ _)), Hb by done. cbn [SetBodyReader fi_body].
    rewrite (proj2 (Z.ltb_lt _ _)), andb_true_r in Hx by done.
    destruct (fi_IsCompressed (fi_meta i)).
    + destruct (zstdReader (fromBytes b)) as [rd|]; [|done]. by exists (Some rd).
    + injection Hx as <-. by exists (Some (fromBytes b)).
Qed.

(** What the callback does for an item that is sent with its body. *)
Lemma saveCallback_arrived i st paths :
  sendable i -> (exists b, WriteTo i = Ok b) -> oversized cf i = false ->
  saveCallback cf se (fi_meta i) (received i) (st, paths) =
  match SaveItem cf st (arrived i) (se_put se (fi_meta i)) with
  | (st, Err e) => ((st, paths), Some e)
  | (st, Ok _) => ((st, paths ++ [pathOf i]), None)
  end.
Proof.
  intros (_ & Hs & Hw) [b Hb] Ho. unfold saveCallback.
  assert (Hn : negb (fi_Size (fi_meta i) =? 0) && bool_decide (received i = None) = false).
  { unfold received, wireLen. destruct (fi_Size (fi_meta i) =? 0) eqn:E; [done|]. go_bool. cbn [negb andb].
    rewrite Hb. destruct (fi_WireSize (fi_meta i) =? 0) eqn:Ew; go_bool; rewrite (proj2 (Z.ltb_lt _ _)) by lia;
      by rewrite bool_decide_eq_false_2. }
  rewrite Hn. unfold oversized in Ho. rewrite Ho. unfold arrived. by destruct (received i).
Qed.

Lemma saving_sizes s i args ie0 rd :
  saving cf s i args ie0 rd -> 0 <= fi_Size (fi_meta i) -> 0 <= fi_WireSize (fi_meta i) ->
  0 <= ie_Size ie0 /\ 0 <= ie_WireSize ie0.
Proof.
  intros Hs Hsz Hw. destruct (bodyReaderForPut_entry _ _ _ _ _ Hs) as (_ & _ & E & _). split; [by rewrite E|].
  unfold saving, bodyReaderForPut, compressNowBodyReader in Hs.
  repeat case_match; simplify_eq/=; try lia; apply blen_nonneg.
Qed.

(** The stored body decodes to what the item came with. *)
Lemma saving_stored s i args ie0 rd b x ie :
  saving cf s i args ie0 rd -> delivers rd b -> blen b = entryStoredSize ie0 ->
  0 <= fi_Size (fi_meta i) -> 0 <= fi_WireSize (fi_meta i) ->
  (exists rd0, UncompressedBodyReader i = Ok rd0 /\ delivers rd0 x) ->
  (ie = ie0 \/ exists l, IsZero l = false /\ ie = with_loc ie0 l) ->
  wireContent (responseMeta cf (pathOf i) ie) b = Ok x.
Proof.
  intros Hs Hb Hl Hsz Hwz Hu Hie. destruct (saving_sizes s i args ie0 rd Hs Hsz Hwz) as [Hp1 Hp2].
  destruct (saving_uncompressed cf s i args ie0 rd b x (pathOf i) None 0 [] Hs Hb Hl Hsz Hwz Hu) as (rd' & Hr & Hx).
  assert (E : ie_Size ie = ie_Size ie0 /\ ie_WireSize ie = ie_WireSize ie0 /\ ie_Compressed ie = ie_Compressed ie0).
  { destruct Hie as [->|(l & _ & ->)]; done. }
  destruct E as (E1 & E2 & E3). unfold wireContent, responseMeta, wireLen. cbn [fi_IsCompressed fi_WireSize fi_Size].
  rewrite E1, E2, E3. unfold UncompressedBodyReader, bodyOf in Hr.
  cbn [fi_meta fi_body fi_Size fi_WireSize fi_IsCompressed] in Hr. unfold entryStoredSize in Hl.
  destruct (ie_WireSize ie0 =? 0) eqn:Ew.
  - go_bool. rewrite Ew in Hl. rewrite andb_diag in Hr. destruct (ie_Size ie0 =? 0) eqn:Es; go_bool.
    + rewrite Es in *. injection Hr as <-. simpl in Hl. rewrite andb_false_r. simpl in Hx. subst x.
      by destruct b.
    + rewrite (proj2 (Z.ltb_lt 0 (ie_Size ie0))), andb_true_r by lia.
      destruct (ie_Compressed ie0 =? 1).
      * destruct (zstdReader (fromBytes b)) as [r|]; [|done]. by injection Hr as <-.
      * by injection Hr as <-.
  - rewrite Ew, andb_false_r in Hr. rewrite Ew. go_bool.
    rewrite (proj2 (Z.ltb_lt 0 (ie_WireSize ie0))), andb_true_r by lia.
    destruct (ie_Compressed ie0 =? 1).
    + destruct (zstdReader (fromBytes b)) as [r|]; [|done]. by injection Hr as <-.
    + by injection Hr as <-.
Qed.

(** The pool does not run out of page numbers, of which it has 2^32 for a size. *)
Definition pages_last (st : Store) (paths : list bytes) (items : list FileItem) : Prop :=
  forall k n, pages_left (pool (deliver (take k items) (saveCallback cf se) (st, paths)).1.1) n.

(** Items under new paths are all stored, and nothing else is touched. *)
Lemma deliver_stored items ct st paths a st' paths' :
  cfg_ok cf -> repr cf st a ->
  Forall (fun i => rel_clean (pathOf i) /\ sendable i /\ decodes i (ct (pathOf i)) /\ oversized cf i = false) items ->
  NoDup (map pathOf items) -> (forall p, p ∈ map pathOf items -> ~ held a p) -> pages_last st paths items ->
  deliver items (saveCallback cf se) (st, paths) = ((st', paths'), None) ->
  paths' = paths ++ map pathOf items /\
  exists a', repr cf st' a' /\ (forall p, p ∉ map pathOf items -> a' !! p = a !! p) /\
    forall p, p ∈ map pathOf items -> stored_as a' p (ct p).
Proof.
  intros Hc. revert st paths a. induction items as [|i items IH]; intros st paths a Hr Hok Hnd Hnew Hpg; cbn [deliver map].
  { intros [= <- <-]. rewrite app_nil_r. split; [done|]. exists a. split; [done|]. split; [done|]. set_solver. }
  apply Forall_cons in Hok as [(Hp & Hs & Hx & Ho) Hok]. cbn [map] in Hnd. apply NoDup_cons in Hnd as [Hni Hnd].
  assert (Hi0 : index st !! pathOf i = None).
  { rewrite (lookup_index cf st a) by apply Hr. destruct (a !! pathOf i) as [x|] eqn:E; [|done].
    exfalso. apply (Hnew (pathOf i)); [cbn [map]; set_solver|by exists x]. }
  assert (Hb : exists b, WriteTo i = Ok b) by (destruct Hx as (b & ? & _); eauto).
  assert (Hpt := Hpg 1%nat). cbn [take deliver] in Hpt.
  rewrite saveCallback_arrived in Hpt |- * by done.
  destruct (SaveItem cf st (arrived i) (se_put se (fi_meta i))) as [st1 [[]|e]] eqn:Es; [|done].
  assert (Hm := arrived_meta i). assert (Hpath : fi_Path (fi_meta (arrived i)) = pathOf i) by (by rewrite Hm).
  assert (Ea : exists ie b, repr cf st1 (<[pathOf i := (ie, b)]> a) /\
    wireContent (responseMeta cf (pathOf i) ie) b = Ok (ct (pathOf i))).
  { apply (putOne_spec cf st a) in Es as [[E _]|(ie0 & rd & ie & b & Hsv & Hd & Hl & Hie & Hr')].
    - unfold oversized in E, Ho. rewrite Hm in E. congruence.
    - exists ie, b. rewrite Hpath in Hr'. split; [done|]. rewrite <-Hpath. assert (Hs0 := Hs). destruct Hs0 as (_ & Hs1 & Hs2).
      eapply saving_stored; [exact Hsv|exact Hd|exact Hl| | |rewrite Hpath; by apply arrived_body|exact Hie]; by rewrite Hm.
    - done.
    - done.
    - by rewrite Hpath.
    - intros n. apply (Hpg 0%nat n).
    - intros ex ie rd. by rewrite Hpath, Hi0.
    - intros ex ie rd. by rewrite Hpath, Hi0. }
  destruct Ea as (ie & b & Hr1 & Hw). intros Hdel.
  destruct (IH st1 (paths ++ [pathOf i]) (<[pathOf i := (ie, b)]> a)) as (-> & a' & Hr' & Hother & Hst); try done.
  - intros p Hp' [x [[<- _]|[_ Hx']]%lookup_insert_Some]; [done|]. apply (Hnew p); [cbn [map]; set_solver|by exists x].
  - intros k n. specialize (Hpg (S k) n). cbn [take deliver] in Hpg. rewrite saveCallback_arrived, Es in Hpg by done. done.
  - rewrite <-app_assoc. split; [done|]. exists a'. split; [done|]. split.
    + intros p Hp'. rewrite Hother by set_solver. apply lookup_insert_ne. set_solver.
    + intros p [->|Hp']%elem_of_cons; [|by apply Hst]. exists ie, b. split; [|done].
      rewrite Hother by done. apply lookup_insert_eq.
Qed.
End storing.

(** ** A job's fresh files *)

Section job.
Context `{Zstd} `{JSON FileMeta} `{JSON (list bytes)} (cf : Config) (se : SaveEnv).

(** A file of the directory, prepared for the wire, still stands for its content. *)
Lemma prepared_decodes cacheDir p data mode mt open i b :
  open (JoinPath [cacheDir; p]) = Ok (fromBytes data) ->
  prepareSaveCacheItem (PrepareBodyReader (itemOf cacheDir p data mode mt) open) = Ok i -> WriteTo i = Ok b ->
  decodes i data /\ pathOf i = p /\ fi_Size (fi_meta i) = blen data /\ 0 <= fi_WireSize (fi_meta i).
Proof.
  intros Ho Hp Hb. assert (Hn := blen_nonneg data). unfold prepareSaveCacheItem in Hp.
  rewrite PrepareBodyReader_meta in Hp. cbn [itemOf fi_meta fi_Size] in Hp.
  assert (Hbody : fi_body (PrepareBodyReader (itemOf cacheDir p data mode mt) open) = None \/
    fi_body (PrepareBodyReader (itemOf cacheDir p data mode mt) open) = Some (Ok (fromBytes data))).
  { unfold PrepareBodyReader, itemOf. cbn [fi_body fi_meta fi_DiskPath]. case_bool_decide; [by left|right].
    cbn [fi_body]. by rewrite Ho. }
  assert (Hread : ReadFull (fromBytes data) (blen data) = Ok (data, fromBytes [])).
  { unfold ReadFull. cbn [st_data fromBytes st_err]. rewrite (proj2 (Z.leb_le _ _)) by lia.
    unfold blen. by rewrite Nat2Z.id, firstn_all, skipn_all. }
  destruct (blen data <? MinCompressionSize) eqn:El.
  - injection Hp as <-. cbn [pathOf fi_meta fi_Path fi_Size fi_WireSize].
    assert (Hw : (if blen data =? 0 then blen data else blen data) = blen data) by (by destruct (blen data =? 0)).
    cbn [itemOf fi_meta fi_WireSize] in Hb |- *. rewrite Hw in Hb |- *. split; [|split; [done|split; [done|exact Hn]]]. exists b. split; [exact Hb|].
    unfold wireContent. cbn [fi_meta fi_IsCompressed andb]. f_equal.
    unfold WriteTo, WireBodyReader, bodyOf in Hb. cbn [fi_meta fi_Size fi_WireSize fi_body itemOf] in Hb.
    rewrite andb_diag in Hb. destruct (blen data =? 0) eqn:E0; go_bool.
    { injection Hb as <-. by destruct data. }
    destruct Hbody as [Eb|Eb]; rewrite Eb in Hb; [done|]. unfold wireLen in Hb. cbn [fi_WireSize fi_Size] in Hb.
    rewrite (proj2 (Z.eqb_neq _ _)), (proj2 (Z.ltb_ge _ _)), Hread in Hb by lia. by injection Hb.
  - go_bool. unfold MinCompressionSize in El. unfold CompressedBodyReader, bodyOf in Hp.
    rewrite PrepareBodyReader_meta in Hp. cbn [itemOf fi_meta fi_Size fi_WireSize fi_IsCompressed] in Hp.
    rewrite (proj2 (Z.eqb_neq (blen data) 0)) in Hp by lia. cbn [andb] in Hp.
    destruct Hbody as [Eb|Eb]; rewrite Eb in Hp; [done|]. cbn [ReadAll fromBytes st_err st_data] in Hp.
    injection Hp as <-. cbn [pathOf fi_meta fi_Path fi_Size fi_WireSize]. assert (He := blen_nonneg (EncodeZstd data)).
    split; [|split; [done|split; [done|exact He]]]. exists b. split; [done|]. unfold WriteTo, WireBodyReader, bodyOf, wireLen in Hb.
    cbn [fi_meta fi_Size fi_WireSize fi_body] in Hb.
    rewrite (proj2 (Z.eqb_neq (blen data) 0)) in Hb by lia. cbn [andb] in Hb.
    unfold wireContent, wireLen. cbn [fi_meta fi_IsCompressed fi_WireSize fi_Size].
    destruct (blen (EncodeZstd data) =? 0) eqn:E0; go_bool.
    + rewrite (proj2 (Z.ltb_ge _ _)) in Hb by lia. unfold ReadFull in Hb. cbn [st_data fromBytes st_err] in Hb.
      rewrite (proj2 (Z.leb_gt _ _)) in Hb by lia. by case_bool_decide.
    + rewrite (proj2 (Z.ltb_ge _ _)) in Hb by lia. unfold ReadFull in Hb. cbn [st_data fromBytes st_err] in Hb.
      rewrite Z.leb_refl in Hb. injection Hb as <-.
      assert (Ht : take (Z.to_nat (blen (EncodeZstd data))) (EncodeZstd data) = EncodeZstd data)
        by (unfold blen; by rewrite Nat2Z.id, firstn_all).
      rewrite Ht.
      rewrite (proj2 (Z.ltb_lt 0 _)) by lia. cbn [andb]. by rewrite zstdReader_Encode.
Qed.

(** The server says which of the paths it holds, and notes them for the request. *)
Lemma existing_direct u req paths sv existing b b' :
  Marshal paths = Ok b -> Unmarshal b = Ok paths -> Marshal existing = Ok b' -> Unmarshal b' = Ok existing ->
  SaveCacheHas cf se (up_server u) (parseGOCACHERequest (gocacheQuery req)) paths = (sv, existing) ->
  ClientExistingPaths (serveSave cf se) u req paths = (mkUploads sv (saveSessions u), Ok existing).
Proof.
  intros Hb Hu Hb' Hu' Hh. unfold ClientExistingPaths. rewrite Hb. unfold roundTrip, serveSave at 1. cbn [c_path c_query c_body].
  do 4 rewrite bool_decide_eq_false_2 by done. rewrite bool_decide_eq_true_2, Hu, Hh, Hb' by done.
  cbn [isGatewayError re_status Z.eqb Pos.eqb orb negb checkStatus]. unfold checkStatus. cbn [re_status Z.eqb Pos.eqb re_body].
  cbn [ReadAll fromBytes st_err st_data]. by rewrite Hu'.
Qed.

Lemma written_bodies prepared out i :
  writeItems prepared = Ok out -> i ∈ prepared -> exists b, WriteTo i = Ok b.
Proof.
  revert out. induction prepared as [|x l IH]; intros out; [set_solver|]. cbn [writeItems].
  destruct (WriteItem x) as [f|] eqn:Ef; [|done]. destruct (writeItems l) as [o|]; [|done]. intros _ [->|Hi]%elem_of_cons; [|by eapply IH].
  unfold WriteItem in Ef. destruct (Marshal _); [|done]. destruct (checkedJSONLength _); [|done].
  destruct (WriteTo x); [eauto|done].
Qed.
End job.

(** ** The claims *)

Section claims.
Context `{Zstd} `{JSON FileMeta} `{JSON (list bytes)} (cf : Config) (se : SaveEnv).

(** C6: an upload is one save, whatever the size of the client's buffer.  When the
    server accepts the stream of the batch in one request, the client's upload of it --
    start, chunks, finalize -- ends well with its counts, leaves the store and the
    manifests of that one request, and no session. *)
Theorem client_upload_is_one_save max u req id items data stats sv
    (Hmax : cf_maxFileBytes cf < 2 ^ 63) (Hid : id <> []) (Hnew : saveSessions u !! id = None)
    (Hw : writerStream (startMaxFileBytes cf) items no_stats = (data, None, stats))
    (Hsend : forall i p, i ∈ items -> prepareSaveCacheItem i = Ok p -> sendable p)
    (Hsave : SaveCache cf se (up_server u) (parseGOCACHERequest (gocacheQuery req)) (fromBytes data) = (sv, 204)) :
  saveCacheOnce (serveSave cf se) max u req items id = (mkUploads sv (saveSessions u), Ok stats).
Proof. apply (upload_direct cf se max u req id items data stats sv); try done. intros i p Hi _. by apply Hsend. Qed.

(** The files of the directory that are new to the server, as the client sends them. *)
Definition newItems (open : bytes -> result stream) (existing : list bytes) (fresh : list FileItem) : list FileItem :=
  map (fun i => PrepareBodyReader i open) (filter (fun i => pathOf i ∉ existing) fresh).

(** ... and those of them that the server takes. *)
Definition sentItems (open : bytes -> result stream) (existing : list bytes) (fresh : list FileItem) : list FileItem :=
  filter (fun i => serverTakes cf i = true) (newItems open existing fresh).

Lemma newItems_paths open existing fresh : map pathOf (newItems open existing fresh) = map pathOf (filter (fun i => pathOf i ∉ existing) fresh).
Proof. unfold newItems. rewrite map_map. apply map_ext. intros i. unfold pathOf. by rewrite PrepareBodyReader_meta. Qed.

(** The files the job may save: modified since a time, and not of an excluded name. *)
Context (since : option Z) (exclude : option (bytes -> bool)).

(** What is known of a job: its directory [d] with what the walk collects, the clean
    store of the server, a request without faults on the way. *)
Record calm_job (a : Contents) (u : Uploads) (d : Dir) (cacheDir : bytes) (open : bytes -> result stream)
    (order : gset bytes -> list bytes) (maxFileBytes : Z) (restored : gset bytes) (fresh : list FileItem) (large : Z * Z) : Prop := {
  cj_cfg : cfg_ok cf;
  cj_env : env_ok (se_env se);
  cj_repr : repr cf (sv_store (up_server u)) a;
  cj_held p : held a p -> listable p;
  cj_limit : cf_maxFileBytes cf < 2 ^ 63;
  cj_dir p n : d !! p = Some n -> listable p;
  cj_open p data mode mt : d !! p = Some (Regular data mode mt) -> open (JoinPath [cacheDir; p]) = Ok (fromBytes data);
  cj_list : ReadRestoredPaths d = Ok restored \/ (ReadRestoredPaths d = Err ENotExist /\ restored = ∅);
  cj_restored p : p ∈ restored -> listable p;
  cj_order s : order s ≡ₚ elements s;
  cj_collect : exists collected, CollectFilesToSave calmWalk cacheDir restored maxFileBytes d = Ok (collected, large) /\
    fresh = filter (fun i => isFresh since exclude i = true) collected;
}.

Lemma job_named a u d cacheDir open order mx restored fresh large :
  calm_job a u d cacheDir open order mx restored fresh large -> named d.
Proof. intros Hj p n Hp. by apply listable_clean, (cj_dir _ _ _ _ _ _ _ _ _ _ Hj p n). Qed.

(** The collected files, and no path twice. *)
Lemma job_fresh a u d cacheDir open order mx restored fresh large i :
  calm_job a u d cacheDir open order mx restored fresh large ->
  (i ∈ fresh <-> exists p data mode mt, d !! p = Some (Regular data mode mt) /\ is_marker p = false /\
    fits mx data = true /\ (p ∉ restored) /\ i = itemOf cacheDir p data mode mt /\ isFresh since exclude i = true).
Proof.
  intros Hj. destruct (cj_collect _ _ _ _ _ _ _ _ _ _ Hj) as (collected & Hc & ->).
  rewrite CollectFilesToSave_spec in Hc by (by eapply job_named). injection Hc as <- _.
  rewrite list_elem_of_filter, elem_of_collected. split.
  - intros [Hf (p & data & mode & mt & H1' & H2' & H3' & H4' & ->)]. by exists p, data, mode, mt.
  - intros (p & data & mode & mt & H1' & H2' & H3' & H4' & -> & Hf). split; [done|]. by exists p, data, mode, mt.
Qed.

Lemma job_paths_NoDup a u d cacheDir open order mx restored fresh large :
  calm_job a u d cacheDir open order mx restored fresh large -> NoDup (map pathOf fresh).
Proof.
  intros Hj. destruct (cj_collect _ _ _ _ _ _ _ _ _ _ Hj) as (collected & Hc & ->).
  rewrite CollectFilesToSave_spec in Hc by (by eapply job_named). injection Hc as <- _.
  eapply sublist_NoDup; [|apply (fmap_sublist pathOf), sublist_filter].
  assert (Hn : NoDup (walk d).*1).
  { unfold walk. rewrite stable_sort_perm. apply NoDup_fst_map_to_list. }
  clear Hj. induction (walk d) as [|e es IH]; [constructor|]. cbn [fmap list_fmap] in Hn. apply NoDup_cons in Hn as [He Hn].
  cbn [omap list_omap]. destruct (takes cacheDir restored mx e) as [i|] eqn:Et; [|exact (IH Hn)].
  cbn [map]. constructor; [|exact (IH Hn)].
  apply takes_Some in Et as (data & mode & mt & _ & _ & _ & _ & ->). intros Hin.
  apply list_elem_of_fmap in Hin as (j & Ej & (x & Hx & Hj')%list_elem_of_omap).
  apply takes_Some in Hj' as (data' & mode' & mt' & _ & _ & _ & _ & ->). apply He.
  change (e.1 = x.1) in Ej. rewrite Ej. apply list_elem_of_fmap. by exists x.
Qed.

(** The items that go out: their paths are new, distinct and listable. *)
Lemma new_prepared a u d cacheDir open order mx restored fresh large prepared out :
  calm_job a u d cacheDir open order mx restored fresh large ->
  let existing := ExistingPaths cf (sv_store (up_server u)) (order restored ++ map pathOf fresh) in
  Forall2 (fun i p => prepareSaveCacheItem i = Ok p) (sentItems open existing fresh) prepared ->
  (forall i p, i ∈ sentItems open existing fresh -> prepareSaveCacheItem i = Ok p -> json_ok (fi_meta p)) ->
  writeItems prepared = Ok out ->
  map pathOf prepared = map pathOf (sentItems open existing fresh) /\
  (forall i p, i ∈ sentItems open existing fresh -> prepareSaveCacheItem i = Ok p -> p ∈ prepared -> sendable p) /\
  Forall (fun i => rel_clean (pathOf i) /\ sendable i /\
    (exists x mode mt, d !! pathOf i = Some (Regular x mode mt) /\ decodes i x) /\ oversized cf i = false) prepared.
Proof.
  intros Hj existing Hf Hm Hout.
  assert (Hone : forall i p, i ∈ sentItems open existing fresh -> prepareSaveCacheItem i = Ok p -> (exists b, WriteTo p = Ok b) ->
    pathOf p = pathOf i /\ sendable p /\ rel_clean (pathOf p) /\
    (exists x mode mt, d !! pathOf p = Some (Regular x mode mt) /\ decodes p x) /\ oversized cf p = false).
  { intros i p Hi Hp [b Hb]. assert (Hjs := Hm i p Hi Hp). apply list_elem_of_filter in Hi as [Htk Hi]. unfold newItems in Hi.
    apply list_elem_of_fmap in Hi as (j & -> & [_ Hfr]%list_elem_of_filter).
    apply (job_fresh _ _ _ _ _ _ _ _ _ _ _ Hj) in Hfr as (q & x & mode & mt & Hd & _ & _ & _ & -> & _).
    destruct (prepared_decodes cacheDir q x mode mt open p b (cj_open _ _ _ _ _ _ _ _ _ _ Hj q x mode mt Hd) Hp Hb)
      as (Hdec & Hpath & Hsz & Hwz).
    split; [unfold pathOf at 2; by rewrite PrepareBodyReader_meta|]. split.
    - split; [done|]. split; [rewrite Hsz; apply blen_nonneg|done].
    - rewrite Hpath. split; [by eapply (cj_dir _ _ _ _ _ _ _ _ _ _ Hj q)|]. split; [eauto 6|].
      unfold serverTakes, startMaxFileBytes in Htk. rewrite PrepareBodyReader_meta in Htk. unfold oversized. rewrite Hsz.
      cbn [itemOf fi_meta fi_Size] in Htk. destruct (0 <? cf_maxFileBytes cf) eqn:E0; [|done]. rewrite E0 in Htk. by apply negb_true_iff in Htk. }
  assert (Hmap : map pathOf prepared = map pathOf (sentItems open existing fresh)).
  { clear Hm. revert prepared out Hf Hout. induction (sentItems open existing fresh) as [|i l IH]; intros prepared out Hf Hout.
    - by apply Forall2_nil_inv_l in Hf as ->.
    - apply Forall2_cons_inv_l in Hf as (p & ps & Hp & Hps & ->). cbn [map].
      assert (Hb : exists b, WriteTo p = Ok b) by (eapply written_bodies; [exact Hout|set_solver]).
      destruct (Hone i p) as [-> _]; [set_solver|done|done|]. f_equal.
      cbn [writeItems] in Hout. destruct (WriteItem p); [|done]. destruct (writeItems ps) as [o|] eqn:Eo; [|done].
      apply (IH ltac:(intros; apply Hone; set_solver) ps o); done. }
  split; [done|split].
  - intros i p Hi Hp Hin. apply (Hone i p); [done|done|]. by eapply written_bodies.
  - apply Forall_forall. intros p Hp. apply list_elem_of_lookup in Hp as [k Hk].
    destruct (Forall2_lookup_r _ _ _ _ _ Hf Hk) as (i & Hi & Hpr). apply list_elem_of_lookup_2 in Hi, Hk.
    destruct (Hone i p Hi Hpr) as (_ & Hs & Hc & Hx & Ho); [by eapply written_bodies|]. done.
Qed.

Lemma first_attempt {W} (net : W -> Call -> W * result Response) max ids w req items w' stats :
  items <> [] -> saveCacheOnce net max w req items (ids 1%nat) = (w', Ok stats) ->
  ClientSaveCache net max ids w req items = (w', Ok stats).
Proof. intros Hi E. unfold ClientSaveCache. destruct items; [done|]. cbn [saveAttempts saveCacheMaxRetries]. by rewrite E. Qed.

(** The request as the server reads it, what the client asks about, and the answer. *)
Definition servedAs (req : Request) : Request := parseGOCACHERequest (gocacheQuery req).
Definition askedPaths (order : gset bytes -> list bytes) (restored : gset bytes) (fresh : list FileItem) : list bytes :=
  order restored ++ map pathOf fresh.
Definition alreadyThere (u : Uploads) (order : gset bytes -> list bytes) (restored : gset bytes) (fresh : list FileItem) : list bytes :=
  ExistingPaths cf (sv_store (up_server u)) (askedPaths order restored fresh).

Lemma server_fits cacheDir p x mode mt : serverTakes cf (itemOf cacheDir p x mode mt) = true <-> fits (cf_maxFileBytes cf) x = true.
Proof.
  unfold serverTakes, startMaxFileBytes, fits. cbn [itemOf fi_meta fi_Size].
  destruct (Z.ltb_spec 0 (cf_maxFileBytes cf)) as [E|E]; [|done]. by rewrite (proj2 (Z.ltb_lt _ _) E).
Qed.

Section one_job.
Context (max : Z) (a : Contents) (u : Uploads) (d : Dir) (cacheDir : bytes) (open : bytes -> result stream).
Context (order : gset bytes -> list bytes) (ids : nat -> bytes) (mx : Z) (restored : gset bytes) (fresh : list FileItem).
Context (large : Z * Z) (req : Request) (mp : bytes) (sv1 sv2 : Server) (data : bytes) (stats : TransferStats) (b b' : bytes).
Abbreviation rq := (servedAs req).
Abbreviation paths := (askedPaths order restored fresh).
Abbreviation existing := (alreadyThere u order restored fresh).
Abbreviation news := (filter (fun i => pathOf i ∉ existing) fresh).
Context (Hj : calm_job a u d cacheDir open order mx restored fresh large).
Context (Hid : ids 1%nat <> []) (Hses : saveSessions u !! ids 1%nat = None).
Context (Hmp : resolveCommitManifestPath cf (rq_Commit rq) (rq_BuildType rq) = Ok mp).
Context (Hjson : Marshal paths = Ok b /\ Unmarshal b = Ok paths /\ Marshal existing = Ok b' /\ Unmarshal b' = Ok existing).
Context (Hmerge : (if bool_decide (paths = []) then (up_server u, Ok tt) else MergeSavedPaths cf (se_env se) (up_server u) rq existing) = (sv1, Ok tt)).
Context (Hw : writerStream (startMaxFileBytes cf) (newItems open existing fresh) no_stats = (data, None, stats)).
Context (Hmeta : forall i p, i ∈ sentItems open existing fresh -> prepareSaveCacheItem i = Ok p -> json_ok (fi_meta p)).
Context (Hpages : forall prepared, Forall2 (fun i p => prepareSaveCacheItem i = Ok p) (sentItems open existing fresh) prepared ->
  pages_last cf se (sv_store sv1) [] prepared).
Context (Hsave : (if bool_decide (newItems open existing fresh = []) then (sv1, 204) else SaveCache cf se sv1 rq (fromBytes data)) = (sv2, 204)).

(** What the stream of the job is. *)
Lemma job_stream :
  exists prepared out, writeItems prepared = Ok out /\ data = out ++ CloseStream /\
    Forall2 (fun i p => prepareSaveCacheItem i = Ok p) (sentItems open existing fresh) prepared /\
    map pathOf prepared = map pathOf (sentItems open existing fresh) /\ NoDup (map pathOf prepared) /\
    (forall i p, i ∈ sentItems open existing fresh -> prepareSaveCacheItem i = Ok p -> sendable p) /\
    Forall (fun i => rel_clean (pathOf i) /\ sendable i /\
      (exists x mode mt, d !! pathOf i = Some (Regular x mode mt) /\ decodes i x) /\ oversized cf i = false) prepared.
Proof.
  destruct (writerStream_ok _ _ _ _ _ Hw) as (prepared & out & Hf & Hout & Hdata).
  assert (Hsent : filter (fun i => (0 <? startMaxFileBytes cf) && (startMaxFileBytes cf <? fi_Size (fi_meta i)) = false) (newItems open existing fresh) =
      sentItems open existing fresh).
  { unfold sentItems. apply list_filter_iff. intros i. unfold serverTakes. by rewrite negb_true_iff. }
  rewrite Hsent in Hf.
  destruct (new_prepared a u d cacheDir open order mx restored fresh large prepared out Hj Hf Hmeta Hout) as (Hpaths & Hsend & Hok).
  exists prepared, out. split; [done|]. split; [done|]. split; [done|]. split; [done|]. split; [|split; [|done]].
  - rewrite Hpaths. assert (Hn := job_paths_NoDup _ _ _ _ _ _ _ _ _ _ Hj).
    apply (sublist_NoDup _ (map pathOf (newItems open existing fresh))); [|by apply (fmap_sublist pathOf), sublist_filter].
    rewrite newItems_paths. eapply sublist_NoDup; [exact Hn|]. by apply (fmap_sublist pathOf), sublist_filter.
  - intros i p Hi Hp. apply (Hsend i p Hi Hp). apply list_elem_of_lookup in Hi as [k' Hi].
    destruct (Forall2_lookup_l _ _ _ _ _ Hf Hi) as (p' & Hp' & E). assert (p' = p) as -> by congruence.
    by eapply list_elem_of_lookup_2.
Qed.

(** The upload, when there is something to send. *)
Lemma job_upload w : w = mkUploads sv1 (saveSessions u) ->
  (if bool_decide (news = []) then (w, Ok no_stats) else ClientSaveCache (serveSave cf se) max ids w req (newItems open existing fresh)) =
  (mkUploads sv2 (saveSessions u), Ok stats).
Proof.
  intros ->. assert (Hn : news = [] <-> newItems open existing fresh = []) by (unfold newItems; by destruct news).
  destruct (bool_decide_reflect (news = [])) as [E|E].
  - rewrite bool_decide_eq_true_2 in Hsave by tauto. injection Hsave as <-. rewrite (proj1 Hn E) in Hw. by injection Hw as _ <-.
  - rewrite bool_decide_eq_false_2 in Hsave by tauto. destruct job_stream as (_ & _ & _ & _ & _ & _ & _ & Hsend & _).
    apply first_attempt; [tauto|].
    apply (upload_direct cf se max (mkUploads sv1 (saveSessions u)) req (ids 1%nat) (newItems open existing fresh) data stats sv2); try done; [by apply (cj_limit _ _ _ _ _ _ _ _ _ _ Hj)|].
    intros i p Hi Ht. apply Hsend. by apply list_elem_of_filter.
Qed.

(** What the client does. *)
Lemma job_client :
  exists skips, SaveFreshNativeCache (serveSave cf se) max calmWalk order ids open cacheDir d u req mx since exclude =
    (mkUploads sv2 (saveSessions u), (skips, Ok stats)).
Proof.
  destruct Hjson as (Hb1 & Hb2 & Hb3 & Hb4). unfold SaveFreshNativeCache.
  assert (Hlist : match ReadRestoredPaths d with Err e => if bool_decide (e = ENotExist) then Ok ∅ else Err e | r => r end = Ok restored)
    by (by destruct (cj_list _ _ _ _ _ _ _ _ _ _ Hj) as [->|[-> ->]]).
  destruct (cj_collect _ _ _ _ _ _ _ _ _ _ Hj) as (collected & Hcol & Hfr).
  rewrite Hlist, Hcol, <-Hfr. unfold reportExistingAndDedupe.
  assert (Hp : paths = [] <-> fresh = [] /\ restored = ∅).
  { unfold askedPaths. assert (Ho := cj_order _ _ _ _ _ _ _ _ _ _ Hj restored). split.
    - intros [E1 E2]%app_nil. split; [by destruct fresh|]. rewrite E1 in Ho. apply Permutation_nil_l in Ho.
      apply leibniz_equiv, elements_empty_inv. by rewrite <-Ho.
    - intros [-> E]. rewrite E, elements_empty in Ho. apply Permutation_nil_r in Ho. by rewrite E, Ho. }
  assert (Hone : forall w its k, w = mkUploads sv1 (saveSessions u) -> its = news -> exists skips,
    (let skips := mkSkips k (Z.of_nat (length fresh)) large in
     if bool_decide (its = []) then (w, (skips, Ok no_stats))
     else let '(w, res) := ClientSaveCache (serveSave cf se) max ids w req (map (fun i => PrepareBodyReader i open) its) in (w, (skips, res)))
    = (mkUploads sv2 (saveSessions u), (skips, Ok stats))).
  { intros w its k Ew ->. cbv zeta. assert (Hu := job_upload w Ew). unfold newItems in Hu.
    destruct (bool_decide (news = [])); [by injection Hu as -> ->; eexists|]. rewrite Hu. by eexists. }
  destruct (bool_decide (fresh = []) && bool_decide (restored = ∅)) eqn:Enone.
  - apply andb_true_iff in Enone as [E1%bool_decide_eq_true E2%bool_decide_eq_true]. rewrite bool_decide_eq_true_2 in Hmerge by tauto.
    injection Hmerge as <-. apply Hone; [by destruct u|by rewrite E1].
  - assert (Hne : paths <> []).
    { intros [E1 E2]%Hp. by rewrite !bool_decide_eq_true_2 in Enone. }
    rewrite bool_decide_eq_false_2 in Hmerge by done.
    rewrite (existing_direct cf se u req paths sv1 existing b b') by
      (done || (unfold SaveCacheHas; unfold servedAs, alreadyThere in Hmerge; by rewrite Hmerge)).
    destruct (bool_decide_reflect (existing = [])) as [Eex|Eex]; [|by apply Hone].
    apply Hone; [done|]. symmetry. apply filter_all. intros i _. rewrite Eex. set_solver.
Qed.

(** The paths of what is sent: of files that the server has not, within its limit. *)
Lemma sent_path prepared p : map pathOf prepared = map pathOf (sentItems open existing fresh) ->
  p ∈ map pathOf prepared <-> exists i, p = pathOf i /\ (pathOf i ∉ existing) /\ i ∈ fresh /\ serverTakes cf i = true.
Proof.
  intros ->. unfold sentItems, newItems. rewrite list_elem_of_fmap.
  assert (Ep : forall i, pathOf (PrepareBodyReader i open) = pathOf i) by (intros i; unfold pathOf; by rewrite PrepareBodyReader_meta).
  assert (Et : forall i, serverTakes cf (PrepareBodyReader i open) = serverTakes cf i) by (intros i; unfold serverTakes; by rewrite PrepareBodyReader_meta).
  split.
  - intros (j & -> & [Ht (i & -> & [Hni Hi]%list_elem_of_filter)%list_elem_of_fmap]%list_elem_of_filter). exists i. by rewrite Ep, <-Et.
  - intros (i & -> & Hni & Hi & Ht). exists (PrepareBodyReader i open). rewrite Ep. split; [done|].
    apply list_elem_of_filter. split; [by rewrite Et|]. apply list_elem_of_fmap. exists i. split; [done|]. by apply list_elem_of_filter.
Qed.

(** The question merges what the server has into the manifest. *)
Lemma job_asked p : (p ∈ existing) <-> (p ∈ paths) /\ held a p.
Proof. apply ExistingPaths_spec, (cj_repr _ _ _ _ _ _ _ _ _ _ Hj). Qed.

Lemma job_manifest : request_id rq KCommit <> [] /\ manifestPathOf cf KCommit (request_id rq KCommit) (rq_BuildType rq) = Ok mp.
Proof.
  unfold resolveCommitManifestPath in Hmp. split; [|by destruct (bool_decide _)].
  intros E. change (rq_Commit rq = []) in E. by rewrite E in Hmp.
Qed.

Lemma job_merged :
  sv_store sv1 = sv_store (up_server u) /\
  (forall p, p ∈ existing -> p ∈ contents (sv_store (up_server u)) (sv_files sv1) mp).
Proof.
  assert (Hr := cj_repr _ _ _ _ _ _ _ _ _ _ Hj). assert (Hl := cj_held _ _ _ _ _ _ _ _ _ _ Hj).
  destruct (bool_decide_reflect (paths = [])) as [E|_].
  { injection Hmerge as <-. split; [done|]. intros p [Hp _]%job_asked. rewrite E in Hp. by apply elem_of_nil in Hp. }
  destruct (MergeSavedPaths_spec cf (se_env se) (up_server u) rq existing a sv1) as (Est & Hm1 & _); try done.
  - apply (cj_cfg _ _ _ _ _ _ _ _ _ _ Hj).
  - apply (cj_env _ _ _ _ _ _ _ _ _ _ Hj).
  - intros q Hq. by apply Hl, (repr_indexed cf (sv_store (up_server u)) a).
  - apply Forall_forall. intros p Hp. by apply Hl, job_asked.
  - split; [done|]. rewrite Est in Hm1. intros p Hp.
    apply (Hm1 KCommit mp p); [apply job_manifest|apply job_manifest| |by right].
    apply (repr_indexed cf _ a); [done|]. by apply job_asked.
Qed.

(** The upload stores the new files and lists them. *)
Lemma job_saved :
  exists prepared a', map pathOf prepared = map pathOf (sentItems open existing fresh) /\ repr cf (sv_store sv2) a' /\
    (forall p, p ∉ map pathOf prepared -> a' !! p = a !! p) /\
    (forall p, p ∈ map pathOf prepared -> stored_as cf a' p (match d !! p with Some (Regular x _ _) => x | _ => [] end)) /\
    (forall p, held a' p -> p ∈ contents (sv_store sv2) (sv_files sv1) mp \/ (p ∈ map pathOf prepared) ->
       p ∈ contents (sv_store sv2) (sv_files sv2) mp).
Proof.
  destruct job_stream as (prepared & out & Hout & Hdata & Hf & Hpaths & Hnd & Hsend & Hok). exists prepared.
  assert (Hc := cj_cfg _ _ _ _ _ _ _ _ _ _ Hj). assert (He := cj_env _ _ _ _ _ _ _ _ _ _ Hj).
  assert (Hr := cj_repr _ _ _ _ _ _ _ _ _ _ Hj). assert (Hl := cj_held _ _ _ _ _ _ _ _ _ _ Hj).
  destruct job_merged as [Est _]. assert (Hpg := Hpages prepared Hf). rewrite Est in Hpg.
  destruct (bool_decide_reflect (newItems open existing fresh = [])) as [E|_].
  { injection Hsave as <-. assert (Hno : sentItems open existing fresh = []) by (unfold sentItems; by rewrite E). rewrite Hno in Hpaths.
    exists a. rewrite Hpaths, Hno, Est. split; [done|]. split; [done|]. split; [done|]. split; [set_solver|]. intros p _ [Hin|Hin]; [done|set_solver]. }
  unfold SaveCache, processSaveCacheStream, fromBytes in Hsave. rewrite Hdata, <-(app_nil_r CloseStream) in Hsave.
  rewrite (ReadStream_frames prepared out) in Hsave by (done || (eapply Forall_impl; [exact Hok|]; simpl; tauto)).
  rewrite Est in Hsave. set (ct := fun p => match d !! p with Some (Regular x _ _) => x | _ => [] end).
  destruct (deliver _ _ _) as [[st' paths'] [e|]] eqn:Edel; [done|]. cbn [forget endOfStream] in Hsave.
  assert (Hnew : forall p, p ∈ map pathOf prepared -> ~ held a p).
  { intros p Hp Ha. apply sent_path in Hp as (i & -> & Hni & Hfi & _); [|done].
    apply Hni, job_asked. split; [|done]. apply elem_of_app. right. by apply list_elem_of_fmap_2. }
  destruct (deliver_stored cf se prepared ct (sv_store (up_server u)) [] a st' paths') as (-> & a' & Hr' & Hother & Hst); try done.
  { eapply Forall_impl; [exact Hok|]. intros i (H1' & H2' & (x & mode & mt & Hd & Hx) & H4). split_and!; try done.
    unfold ct. by rewrite Hd. }
  cbn [app] in Hsave. destruct (MergeSavedPaths cf (se_env se) (mkServer st' (sv_files sv1)) rq (map pathOf prepared)) as [sv3 [[]|]] eqn:Em; [|done].
  injection Hsave as ->. exists a'.
  assert (Hdl : forall p, p ∈ map pathOf prepared -> listable p).
  { intros p (i & -> & Hi)%list_elem_of_fmap. rewrite Forall_forall in Hok. destruct (Hok i Hi) as (_ & _ & (x & mode & mt & Hd & _) & _).
    by apply (cj_dir _ _ _ _ _ _ _ _ _ _ Hj _ _ Hd). }
  assert (Hl' : forall p, held a' p -> listable p).
  { intros p Hp. destruct (decide (p ∈ map pathOf prepared)) as [Hin|Hin]; [by apply Hdl|]. unfold held in Hp. rewrite Hother in Hp by done. by apply Hl. }
  destruct (MergeSavedPaths_spec cf (se_env se) (mkServer st' (sv_files sv1)) rq (map pathOf prepared) a' sv2 Hc He Hr') as (Est2 & Hm2 & _).
  { intros q Hq. by apply Hl', (repr_indexed cf st' a'). }
  { apply Forall_forall, Hdl. }
  { exact Em. }
  cbn [sv_store sv_files] in Est2, Hm2. rewrite Est2 in Hm2 |- *. split_and!; try done.
  intros p Hp Hin. apply (Hm2 KCommit mp p); [apply job_manifest|apply job_manifest| |exact Hin].
  by apply (repr_indexed cf st' a').
Qed.

(** What the server makes of it. *)
Lemma job_store :
  exists a', repr cf (sv_store sv2) a' /\
    (forall p x mode mt, d !! p = Some (Regular x mode mt) -> is_marker p = false -> fits mx x = true -> (p ∉ restored) ->
       isFresh since exclude (itemOf cacheDir p x mode mt) = true ->
       (held a p \/ fits (cf_maxFileBytes cf) x = true -> held a' p /\ p ∈ contents (sv_store sv2) (sv_files sv2) mp) /\
       (~ held a p -> if fits (cf_maxFileBytes cf) x then stored_as cf a' p x else ~ held a' p)) /\
    (forall p, p ∈ restored -> held a p -> held a' p /\ p ∈ contents (sv_store sv2) (sv_files sv2) mp).
Proof.
  destruct job_saved as (prepared & a' & Hpaths & Hr' & Hother & Hst & Hlisted). destruct job_merged as [_ Hm1].
  assert (Hr := cj_repr _ _ _ _ _ _ _ _ _ _ Hj).
  assert (Hkept : forall p, p ∈ existing -> held a' p /\ p ∈ contents (sv_store sv2) (sv_files sv2) mp).
  { intros p Hp. apply job_asked in Hp as Hx. destruct Hx as [_ Hx].
    assert (Hh : held a' p).
    { unfold held. rewrite Hother; [exact Hx|]. intros (i & -> & Hni & _)%sent_path; done. }
    split; [done|]. apply Hlisted; [done|]. left. apply (contents_index (sv_store (up_server u))); [| |by apply Hm1].
    - by apply (repr_indexed cf _ a).
    - by apply (repr_indexed cf _ a'). }
  exists a'. split; [exact Hr'|]. split.
  - intros p x mode mt Hd Hmk Hfit Hnr Hfresh.
    assert (Hfr : itemOf cacheDir p x mode mt ∈ fresh) by (apply (job_fresh _ _ _ _ _ _ _ _ _ _ _ Hj); by exists p, x, mode, mt).
    assert (Hin : held a p <-> p ∈ existing).
    { rewrite job_asked. split; [|tauto]. intros Ha. split; [|done]. apply elem_of_app. right. apply list_elem_of_fmap. by eexists; split; [|exact Hfr]. }
    assert (Hpr : p ∈ map pathOf prepared <-> (p ∉ existing) /\ fits (cf_maxFileBytes cf) x = true).
    { rewrite sent_path by done. rewrite <-(server_fits cacheDir p x mode mt). split.
      - intros (i & -> & Hni & Hi & Ht). split; [done|]. apply (job_fresh _ _ _ _ _ _ _ _ _ _ _ Hj) in Hi as (q & y & mo & ti & Hq & _ & _ & _ & -> & _).
        change (pathOf (itemOf cacheDir q y mo ti)) with q in *. rewrite Hq in Hd. by injection Hd as -> -> ->.
      - intros [Hni Ht]. by exists (itemOf cacheDir p x mode mt). }
    assert (Hst' : (p ∉ existing) -> fits (cf_maxFileBytes cf) x = true -> stored_as cf a' p x).
    { intros Hni Ht. assert (Hs := Hst p (proj2 Hpr (conj Hni Ht))). by rewrite Hd in Hs. }
    split.
    + intros Hor. destruct (decide (p ∈ existing)) as [Hex|Hex]; [by apply Hkept|]. destruct Hor as [Ha|Ht]; [by apply Hin in Ha|].
      assert (Hh : held a' p) by (destruct (Hst' Hex Ht) as (ie & y & E & _); by exists (ie, y)).
      split; [done|]. apply Hlisted; [done|]. right. by apply Hpr.
    + intros Hna. assert (Hex : p ∉ existing) by tauto. destruct (fits (cf_maxFileBytes cf) x) eqn:Ef; [by apply Hst'|].
      unfold held. rewrite Hother; [done|]. intros [_ ?]%Hpr. done.
  - intros p Hp Ha. apply Hkept, job_asked. split; [|done].
    apply elem_of_app. left. rewrite (cj_order _ _ _ _ _ _ _ _ _ _ Hj). by apply elem_of_elements.
Qed.

(** C2: what a job made is saved, up to the size limits.  At the end of a job the client
    collects the files of its directory that were not restored -- all, or those modified
    since the job began and not of an excluded name -- that are within the job's own
    limit, leaves out what the server has, and uploads the rest, if there is any, without
    those above the limit of the server.  Assumed are files that are read as they were
    collected, names that fit the lines of a manifest, a JSON codec that takes the
    requests, page numbers left in the server's record pool, and that the server answers
    the question and the upload with success: a failed write on its side is an error to
    the client.  Then every collected file that the server had, or that is within its
    limit, is held and listed in the manifest of the job's commit, and a file it had not
    is stored with its content when it is within the limit and not stored otherwise;
    every restored path that the server still has is held and listed too. *)
Theorem fresh_files_are_saved :
  exists skips a',
    SaveFreshNativeCache (serveSave cf se) max calmWalk order ids open cacheDir d u req mx since exclude =
      (mkUploads sv2 (saveSessions u), (skips, Ok stats)) /\
    repr cf (sv_store sv2) a' /\
    (forall p x mode mt, d !! p = Some (Regular x mode mt) -> is_marker p = false -> fits mx x = true -> (p ∉ restored) ->
       isFresh since exclude (itemOf cacheDir p x mode mt) = true ->
       (held a p \/ fits (cf_maxFileBytes cf) x = true -> held a' p /\ p ∈ contents (sv_store sv2) (sv_files sv2) mp) /\
       (~ held a p -> if fits (cf_maxFileBytes cf) x then stored_as cf a' p x else ~ held a' p)) /\
    (forall p, p ∈ restored -> held a p -> held a' p /\ p ∈ contents (sv_store sv2) (sv_files sv2) mp).
Proof. destruct job_client as [skips Hc]. destruct job_store as (a' & H1' & H2' & H3'). by exists skips, a'. Qed.
End one_job.
End claims.

(** ** Examples *)

Section witnesses.
Let Z0 := magicZstd.
Local Existing Instance Z0.

Lemma client_upload_is_one_save_witness :
  let J := nineJSON in let L := tableJSON ([] : list (list bytes)) in
  let '(u, r) := @saveCacheOnce _ (@serveSave Z0 J L tightConfig exampleSave) Z0 J 5 emptyUploads exampleRequest [nineItem] #"7" in
  r = Ok (mkStats 1 9 9) /\ is_Some (index (sv_store (up_server u)) !! #"aa/x").
Proof.
  intros J L. destruct (SaveCache (H0 := J) tightConfig exampleSave emptyServer (servedAs exampleRequest) (fromBytes nineStream)) as [sv st] eqn:E.
  assert (Est : st = 204) by (change st with (snd (sv, st)); rewrite <-E; vm_compute; reflexivity). subst st.
  rewrite (client_upload_is_one_save (H0 := J) (H1 := L) tightConfig exampleSave 5 emptyUploads exampleRequest #"7" [nineItem] nineStream
    (mkStats 1 9 9) sv).
  - split; [reflexivity|]. cbn [up_server]. change sv with (fst (sv, 204)). rewrite <-E. vm_compute. eauto.
  - reflexivity.
  - discriminate.
  - reflexivity.
  - vm_compute. reflexivity.
  - intros i p ->%list_elem_of_singleton Hp. vm_compute in Hp. injection Hp as <-.
    split; [apply list_elem_of_here|split; vm_compute; discriminate].
  - exact E.
Defined.

(** A job that restored [aa/x] and made [bb/y], at a server that holds [aa/x]. *)
Definition jobDir : Dir :=
  {[ restoredPathsListName := Regular (#"aa/x" ++ [newline]) 384 3;
     #"aa/x" := Regular #"ninebytes" 420 3; #"bb/y" := Regular #"four" 420 6 ]}.
Definition jobOpen (p : bytes) : result stream :=
  if bool_decide (p = #"/c/aa/x") then Ok (fromBytes #"ninebytes")
  else if bool_decide (p = #"/c/bb/y") then Ok (fromBytes #"four")
  else if bool_decide (p = #"/c/.gocacheprog-restored-paths") then Ok (fromBytes (#"aa/x" ++ [newline])) else Err ENotExist.
Definition jobFresh : list FileItem := [itemOf #"/c" #"bb/y" #"four" 420 6].
Definition jobUploads : Uploads := mkUploads (nineServer ∅) ∅.

Let J1 : JSON FileMeta := tableJSON [fi_meta (itemOf #"/c" #"bb/y" #"four" 420 6)].
Let L1 : JSON (list bytes) := tableJSON [ [ #"aa/x"; #"bb/y" ]; [ #"aa/x" ] ].
Local Existing Instance J1.
Local Existing Instance L1.

Definition askedServer : Server := fst (MergeSavedPaths tightConfig (calm 5) (nineServer ∅) (servedAs exampleRequest) [ #"aa/x" ]).
Definition jobContents : Contents := {[ #"aa/x" := (nineEntry, #"ninebytes") ]}.
Definition jobStream : bytes :=
  match writeItems (map (fun i => PrepareBodyReader i jobOpen) jobFresh) with Ok b => b ++ CloseStream | Err _ => [] end.

Lemma job_listable p n : jobDir !! p = Some n -> listable p.
Proof.
  unfold jobDir. intros [[<- _]|[_ [[<- _]|[_ [<- _]%lookup_singleton_Some]]%lookup_insert_Some]]%lookup_insert_Some.
  - split; [|vm_compute; reflexivity| |vm_compute; reflexivity].
    + exists [restoredPathsListName]. split; [done|]. split; [|done]. repeat constructor; apply proper_decide; vm_compute; reflexivity.
    + apply (bool_decide_eq_true_1 (newline ∉ restoredPathsListName)). vm_compute. reflexivity.
  - apply nine_listable.
  - split; [|vm_compute; reflexivity| |vm_compute; reflexivity].
    + exists [ #"bb"; #"y" ]. split; [done|]. split; [|done]. repeat constructor; apply proper_decide; vm_compute; reflexivity.
    + apply (bool_decide_eq_true_1 (newline ∉ #"bb/y")). vm_compute. reflexivity.
Qed.

Definition jobOrder : gset bytes -> list bytes := elements.
Definition jobRestored : gset bytes := {[ #"aa/x" ]}.

Lemma job_calm : calm_job tightConfig exampleSave (Some 5) None jobContents jobUploads jobDir #"/c" jobOpen jobOrder 0 jobRestored jobFresh (0, 0).
Proof.
  split.
  - exact example_cfg_ok.
  - exact (calm_ok 5).
  - exact tight_repr.
  - unfold jobContents. intros p [x [<- _]%lookup_singleton_Some]. apply nine_listable.
  - reflexivity.
  - exact job_listable.
  - intros p data mode mt. unfold jobDir.
    intros [[<- [= <- <- <-]]|[_ [[<- [= <- <- <-]]|[_ [<- [= <- <- <-]]%lookup_singleton_Some]]%lookup_insert_Some]]%lookup_insert_Some;
      vm_compute; reflexivity.
  - left. vm_compute. reflexivity.
  - intros p ->%elem_of_singleton. apply nine_listable.
  - done.
  - exists jobFresh. split; vm_compute; reflexivity.
Qed.

Lemma fresh_files_are_saved_witness :
  exists u stats skips, @SaveFreshNativeCache _ (@serveSave Z0 J1 L1 tightConfig exampleSave) Z0 J1 L1 0 calmWalk jobOrder
      (fun _ => #"7") jobOpen #"/c" jobDir jobUploads exampleRequest 0 (Some 5) None = (u, (skips, Ok stats)) /\
    #"bb/y" ∈ contents (sv_store (up_server u)) (sv_files (up_server u)) oldManifest /\
    #"aa/x" ∈ contents (sv_store (up_server u)) (sv_files (up_server u)) oldManifest.
Proof.
  destruct (SaveCache tightConfig exampleSave askedServer (servedAs exampleRequest) (fromBytes jobStream)) as [sv2 st] eqn:E.
  assert (Est : st = 204) by (change st with (snd (sv2, st)); rewrite <-E; vm_compute; reflexivity). subst st.
  assert (Eex : alreadyThere tightConfig jobUploads jobOrder jobRestored jobFresh = [ #"aa/x" ]) by (vm_compute; reflexivity).
  destruct (fresh_files_are_saved tightConfig exampleSave (Some 5) None 0 jobContents jobUploads jobDir #"/c" jobOpen jobOrder (fun _ => #"7") 0
    jobRestored jobFresh (0, 0) exampleRequest oldManifest askedServer sv2 jobStream (mkStats 1 4 4) #"0" #"1") as (skips & a' & H1 & _ & H2 & H3).
  - exact job_calm.
  - discriminate.
  - reflexivity.
  - vm_compute. reflexivity.
  - rewrite Eex. split_and!; vm_compute; reflexivity.
  - rewrite Eex. unfold askedServer. destruct (MergeSavedPaths _ _ _ _ _) as [sv r] eqn:Em. simpl. f_equal.
    change r with (snd (sv, r)). rewrite <-Em. vm_compute. reflexivity.
  - rewrite Eex. vm_compute. reflexivity.
  - rewrite Eex. intros i p Hi Hp. change (sentItems _ _ _ _) with (map (fun i => PrepareBodyReader i jobOpen) jobFresh) in Hi.
    apply list_elem_of_singleton in Hi as ->. vm_compute in Hp. injection Hp as <-. apply list_elem_of_here.
  - rewrite Eex. intros prepared Hf. change (sentItems _ _ _ _) with (map (fun i => PrepareBodyReader i jobOpen) jobFresh) in Hf.
    apply Forall2_cons_inv_l in Hf as (p & ps & Hp & ->%Forall2_nil_inv_l & ->). vm_compute in Hp. injection Hp as <-.
    intros [|k]; apply pages_left_decide; [vm_compute; reflexivity|]. cbn [take]. rewrite take_nil. vm_compute. reflexivity.
  - exact E.
  - exists (mkUploads sv2 ∅), (mkStats 1 4 4), skips. split; [exact H1|]. split.
    + destruct (H2 #"bb/y" #"four" 420 6) as [H4 _]; [reflexivity|vm_compute; reflexivity|vm_compute; reflexivity| |vm_compute; reflexivity|by apply H4; right].
      apply (bool_decide_eq_true_1 (#"bb/y" ∉ jobRestored)). vm_compute. reflexivity.
    + apply H3; [by apply elem_of_singleton|]. exists (nineEntry, #"ninebytes"). reflexivity.
Defined.
End witnesses.
