(* ===== verification/Server.v ===== *)
(** The whole server: every route of src/internal/http/handler.go with its handler, over
    the one state they share -- the sessions, the two stores, the settings, the manifests
    beside the stores and the uploads in progress -- and what a request through
    [ServeHTTP] leaves of it. *)
From S2P Require Import Prelude.
From S2P Require Import GoStrings.
From S2P Require Import GoPath.
From S2P Require Import Wire.
From S2P Require Import HttpNet.
From S2P Require CacheWire.
From S2P Require Settings.
From S2P Require GoCacheStore.
From S2P Require GoCacheOpen.
From S2P Require LocalStore.
From S2P Require LocalServe.
From S2P Require Import ManifestPaths.
From S2P Require Import Manifests.
From S2P Require LocalManifests.
From S2P Require Import GoCacheRestore.
From S2P Require Import NativeRestore.
From S2P Require SaveSessions.
From S2P Require Import HttpServer.
From S2P Require StatusPage.
From S2P Require HttpSession.
From S2P Require Admin.
From S2P Require HttpCache.
From S2P Require NativeSave.

(** ** The state and the request *)

Abbreviation TheServer := (HttpServer LocalStore.Store GoCacheStore.Store).

(** What the handlers keep beside the sessions and the stores. *)
Record Rest := mkRest {
  rt_settings : Settings.Handler;
  rt_actionFiles : Files;             (* the manifests of the action cache *)
  rt_objectFiles : Files;             (* the manifests of the objects *)
  rt_uploads : gmap bytes SaveSessions.saveCacheSession;
  rt_preloads : StatusPage.PreloadCounters;
}.

(** What one request meets: clocks, the faults of the disk, the durations it takes, and
    the orders in which Go ranges over a map. *)
Record RequestEnv := mkRequestEnv {
  ev_now : Z;
  ev_clock : nat -> Z;
  ev_put : CacheWire.ResponseMeta -> LocalStore.putArgs;
  ev_open : bytes -> result stream;
  ev_sources : Env;
  ev_manifests : Env;
  ev_save : SaveSessions.SaveEnv;
  ev_settingsFault : option goerr;
  ev_duration : Z;
  ev_heap : Z;
}.

Section server.
Context `{Zstd} `{SliceSort} `{JSON (list bytes)} `{JSON (list CacheWire.ResponseMeta)} `{JSON LocalManifests.PreloadRequest}.
Context `{JSON FileMeta} `{JSON ClearStats} `{JSON InspectStats} `{JSON (list KeyInspection)} `{JSON Admin.IntegrityReport}.
Context `{JSON Settings.serverSettings} `{JSON (gmap bytes Z)} `{JSON HttpSession.Extras} `{JSON StatusPage.StatusReport}.
Context (lcf : LocalStore.Config) (range : gmap bytes LocalStore.indexEntry -> list bytes).
Context (gcf : GoCacheStore.Config) (order : gset bytes -> list bytes) (moduleVersion : bytes).

Abbreviation outcome := (TheServer * Rest * list sessionEvent * handled)%type.

Definition done (h : TheServer) (rest : Rest) (r : Response) : outcome := (h, rest, [], Answered r).

Definition set_action (h : TheServer) (s : LocalStore.Store) : TheServer :=
  set_stores h (mkStores (Some s) (gocacheStore (hs_stores h))).

(** The object store with its manifests, as the handlers of the native cache have it. *)
Definition objects (h : TheServer) (rest : Rest) : option Server :=
  (fun s => mkServer s (rt_objectFiles rest)) <$> gocacheStore (hs_stores h).

Definition set_objects (h : TheServer) (sv : option Server) : TheServer :=
  set_stores h (mkStores (store (hs_stores h)) (sv_store <$> sv)).

Definition set_rest (rest : Rest) (sv : option Server) : Rest :=
  mkRest (rt_settings rest) (rt_actionFiles rest) (default (rt_objectFiles rest) (sv_files <$> sv)) (rt_uploads rest) (rt_preloads rest).

Definition unsupported (h : TheServer) (rest : Rest) : outcome := done h rest (errorPage 501).

(** A call of a method of a store that there is not. *)
Definition nilStore : bytes := #"runtime error: invalid memory address or nil pointer dereference".

(** ** The handlers *)

(** [Handler.Get] and [Handler.Head]. *)
Definition routeGet (serve : LocalStore.Store -> bytes -> LocalStore.Store * Response) (h : TheServer) (rest : Rest) (body : bytes) : outcome :=
  match store (hs_stores h) with
  | Some s => let '(s, r) := serve s body in done (set_action h s) rest r
  | None =>
      match Unmarshal (A := list bytes) body with
      | Err _ => done h rest (errorPage 400)
      | Ok _ => (h, rest, [], Panicked nilStore)
      end
  end.

(** [Handler.Put]; without a store it panics at the first item that reaches it. *)
Definition reaches (m : CacheWire.ResponseMeta) (body : option stream) (reached : bool) : bool * option goerr :=
  if negb (CacheWire.ri_Size m =? 0) && bool_decide (body = None) then (reached, Some (EMsg "empty body"))
  else (true, Some (EMsg "panic")).

Definition routePut (ev : RequestEnv) (h : TheServer) (rest : Rest) (body : stream) : outcome :=
  match store (hs_stores h) with
  | Some s => let '(s, r) := HttpCache.servePut lcf (ev_open ev) (ev_put ev) s body in done (set_action h s) rest r
  | None =>
      match CacheWire.ResponseReaderFrom body reaches false with
      | (true, _) => (h, rest, [], Panicked nilStore)
      | (false, Err _) => done h rest (errorPage 500)
      | (false, Ok _) => done h rest (errorPage 204)
      end
  end.

(** [Handler.Preload]: it is counted, and recorded with the session when it is sent. *)
Definition countPreload (c : StatusPage.PreloadCounters) : StatusPage.PreloadCounters :=
  StatusPage.mkPreloads (StatusPage.pc_inFlight c) (StatusPage.pc_started c + 1) (StatusPage.pc_completed c + 1) (StatusPage.pc_limit c).

Definition routePreload (ev : RequestEnv) (sid : bytes) (h : TheServer) (rest : Rest) (body : bytes) : outcome :=
  let rest := mkRest (rt_settings rest) (rt_actionFiles rest) (rt_objectFiles rest) (rt_uploads rest) (countPreload (rt_preloads rest)) in
  match store (hs_stores h) with
  | None => done h rest (errorPage match Unmarshal (A := LocalManifests.PreloadRequest) body with Err _ => 400 | Ok _ => 501 end)
  | Some s =>
      let args := HttpCache.preloadAnswer lcf (rt_settings rest) (ev_sources ev) (ev_manifests ev) (rt_actionFiles rest) range s body in
      let '(s, r) := HttpCache.servePreload lcf (rt_settings rest) (ev_sources ev) (ev_manifests ev) (rt_actionFiles rest) range s body in
      let h := set_action h s in
      match snd args with
      | inl _ => done h rest r
      | inr (sources, items) =>
          match CacheWire.ResponseContentLength items with
          | Err _ => done h rest r
          | Ok n => done (set_sessions h (recordSessionPreload (hs_sessions h) sid n (ev_duration ev) (Join sources #","))) rest r
          end
      end
  end.

(** [Handler.CacheUsed]; the keys are looked at before the store. *)
Definition routeCacheUsed (ev : RequestEnv) (h : TheServer) (rest : Rest) (q : Query) (body : bytes) : outcome :=
  match store (hs_stores h) with
  | None =>
      if bool_decide (TrimSpace (getParam q #"commit") = []) && bool_decide (TrimSpace (getParam q #"changes-id") = [])
      then done h rest (errorPage 400) else unsupported h rest
  | Some _ =>
      let '(fs, r) := HttpCache.serveCacheUsed lcf (ev_manifests ev) (rt_actionFiles rest) q body in
      done h (mkRest (rt_settings rest) fs (rt_objectFiles rest) (rt_uploads rest) (rt_preloads rest)) r
  end.

(** [Handler.RestoreCache]: recorded with the session when the stream was closed. *)
Definition restored (ev : RequestEnv) (settings : Settings.Handler) (sv : Server) (q : Query) : option (list bytes) :=
  let req := withDefaults settings (parseGOCACHERequest q) in
  match RestoreSources gcf (ev_sources ev) sv req with
  | (sv, Ok (s :: l)) => match Restore gcf (ev_manifests ev) sv req with (_, Ok _) => Some (s :: l) | _ => None end
  | _ => None
  end.

Definition routeRestore (ev : RequestEnv) (sid : bytes) (h : TheServer) (rest : Rest) (q : Query) : outcome :=
  match objects h rest with
  | None => unsupported h rest
  | Some sv =>
      let '(sv', r) := HandleRestoreCache gcf (rt_settings rest) (ev_sources ev) (ev_manifests ev) sv q in
      let h := set_objects h (Some sv') in
      let h := match restored ev (rt_settings rest) sv q with
               | Some sources => set_sessions h (recordSessionPreload (hs_sessions h) sid (blen (http_body r)) (ev_duration ev) (Join sources #","))
               | None => h
               end in
      done h (set_rest rest (Some sv')) (mkResponse (http_status r) ∅ (fromBytes (http_body r)))
  end.

(** The handlers of a save. *)
Definition routeSave (ev : RequestEnv) (sid : bytes) (h : TheServer) (rest : Rest) (c : Call) : outcome :=
  match objects h rest with
  | None => unsupported h rest
  | Some sv =>
      if bool_decide (c_path c = #"/save-cache") then
        let '(sv, status) := SaveSessions.SaveCache gcf (ev_save ev) sv (parseGOCACHERequest (c_query c)) (fromBytes (c_body c)) in
        done (set_objects h (Some sv)) (set_rest rest (Some sv)) (errorPage status)
      else
        let '(u, r) := NativeSave.serveSave gcf (ev_save ev) (SaveSessions.mkUploads sv (rt_uploads rest)) c in
        let sv := SaveSessions.up_server u in
        let rest' := mkRest (rt_settings rest) (rt_actionFiles rest) (sv_files sv) (SaveSessions.saveSessions u) (rt_preloads rest) in
        let h := set_objects h (Some sv) in
        match r with
        | Err _ => (h, rest', [], Hangs)
        | Ok res =>
            let finalized := bool_decide (c_path c = #"/save-cache-finalize") && (re_status res =? 204) in
            match (if finalized then rt_uploads rest !! getParam (c_query c) #"upload-id" else None) with
            | Some s => done (set_sessions h (recordSessionFinalize (hs_sessions h) sid (SaveSessions.ss_bytes s) (ev_duration ev))) rest' res
            | None => done h rest' res
            end
        end
  end.

(** What an operator asks. *)
Definition routeAdmin (ev : RequestEnv) (h : TheServer) (rest : Rest) (c : Call) : outcome :=
  if bool_decide (c_path c = #"/clear") then
    let '(g, r) := Admin.ClearCache gcf (ev_manifests ev) order (objects h rest) (c_query c) in done (set_objects h g) (set_rest rest g) r
  else if bool_decide (c_path c = #"/inspect") then
    let '(g, r) := Admin.InspectCache gcf (ev_manifests ev) order (objects h rest) (c_query c) in done (set_objects h g) (set_rest rest g) r
  else if bool_decide (c_path c = #"/inspect-keys") then
    done h rest (Admin.serveInspectKeys gcf (ev_manifests ev) (objects h rest) (c_query c) (c_body c))
  else
    let '(s, r) := Admin.serveIntegrityCheck lcf range (store (hs_stores h)) (c_query c) in
    done (set_stores h (mkStores s (gocacheStore (hs_stores h)))) rest r.

Definition routeSettings (k : Settings.setting) (ev : RequestEnv) (method : Settings.Method) (h : TheServer) (rest : Rest) (q : Query) : outcome :=
  let '(st, r) := Settings.buildTypeInt64Settings k (rt_settings rest) method (getParam q #"build-type") (getParam q #"bytes") (ev_settingsFault ev) in
  done h (mkRest st (rt_actionFiles rest) (rt_objectFiles rest) (rt_uploads rest) (rt_preloads rest))
    match r with
    | Settings.Values m => Admin.jsonReply m 200
    | Settings.NoContent => errorPage 204
    | Settings.StatusError code => errorPage code
    end.

(** [serveSessionDone]. *)
Definition routeSessionDone (ev : RequestEnv) (sid : bytes) (h : TheServer) (rest : Rest) (body : bytes) : outcome :=
  let extra := if bool_decide (body = []) then None
               else Some match Unmarshal (A := HttpSession.Extras) body with Ok _ => Ok body | Err e => Err e end in
  let '(sessions, e, status) := serveSessionDone (hs_sessions h) sid (ev_now ev) extra in
  (set_sessions h sessions, rest, option_list e, Answered (errorPage status)).

Definition routeStatus (ev : RequestEnv) (h : TheServer) (rest : Rest) : outcome :=
  done h rest (Admin.jsonReply
    (@StatusPage.Status _ _ (StatusPage.actionAdmin lcf range) (StatusPage.objectAdmin gcf) (ev_heap ev) (rt_preloads rest) h) 200).

(** The handler of a path. *)
Definition serveRoute (ev : RequestEnv) (sid : bytes) (method : Settings.Method) (c : Call) (path : bytes) (h : TheServer) (rest : Rest) : outcome :=
  let c := mkCall path (c_query c) (c_body c) (c_replayable c) in
  if bool_decide (path = #"/version") then done h rest (HttpSession.serveVersion moduleVersion)
  else if bool_decide (path = #"/status") then routeStatus ev h rest
  else if bool_decide (path = #"/session-done") then routeSessionDone ev sid h rest (c_body c)
  else if bool_decide (path = #"/preload") then routePreload ev sid h rest (c_body c)
  else if bool_decide (path = #"/cache-used") then routeCacheUsed ev h rest (c_query c) (c_body c)
  else if bool_decide (path = #"/restore-cache") then routeRestore ev sid h rest (c_query c)
  else if bool_decide (path ∈ [ #"/clear"; #"/inspect"; #"/inspect-keys"; #"/integrity-check"]) then routeAdmin ev h rest c
  else if bool_decide (path ∈ [ #"/save-cache-has"; #"/save-cache"; #"/save-cache-chunk"; #"/save-cache-start"; #"/save-cache-finalize";
                                #"/save-cache-abort"]) then routeSave ev sid h rest c
  else if bool_decide (path = #"/put") then routePut ev h rest (fromBytes (c_body c))
  else if bool_decide (path = #"/get") then routeGet (HttpCache.serveGet lcf (ev_clock ev)) h rest (c_body c)
  else if bool_decide (path = #"/head") then routeGet (HttpCache.serveHead lcf (ev_clock ev)) h rest (c_body c)
  else if bool_decide (path = #"/settings/max-preload-total-bytes") then
    routeSettings Settings.MaxPreloadTotalBytes ev method h rest (c_query c)
  else routeSettings Settings.MaxFileBytes ev method h rest (c_query c).

(** A request to the server. *)
Definition serve (ev : RequestEnv) (h : TheServer) (rest : Rest) (r : HttpRequest) (method : Settings.Method) (c : Call)
    : TheServer * Rest * list sessionEvent * option Response :=
  serveBoth lcf range gcf (ev_now ev) h rest r (serveRoute ev (hd_SessionID (hr_headers r)) method c).
End server.

(** ** What a request leaves *)

Section keeping.
Context `{Zstd} `{SliceSort} `{JSON (list bytes)} `{JSON (list CacheWire.ResponseMeta)} `{JSON LocalManifests.PreloadRequest}.
Context `{JSON FileMeta} `{JSON ClearStats} `{JSON InspectStats} `{JSON (list KeyInspection)} `{JSON Admin.IntegrityReport}.
Context `{JSON Settings.serverSettings} `{JSON (gmap bytes Z)} `{JSON HttpSession.Extras} `{JSON StatusPage.StatusReport}.
Context (lcf : LocalStore.Config) (range : gmap bytes LocalStore.indexEntry -> list bytes).
Context (gcf : GoCacheStore.Config) (order : gset bytes -> list bytes) (moduleVersion : bytes).
Context (Hdir : abs_dir (LocalStore.cf_dir lcf)) (Hrange : forall idx, range_of idx (range idx)).
Context (Hcfg : GoCacheStore.cfg_ok gcf) (Horder : ranges order).



(** *** The object store *)









(** *** The action store *)




(** *** The routes *)


Abbreviation both_ok := (both_hold_at lcf gcf listable).


















End keeping.

(** ** Example *)

(** A codec of no value at all. *)
Program Definition noJSON {A} : JSON A := {|
  Marshal := fun _ => Err (EMsg "unsupported value");
  Unmarshal := fun _ => Err (EMsg "invalid character");
  json_ok := fun _ => False;
|}.
Next Obligation. done. Qed.

Section witness.
Let Z0 := magicZstd.
Let S0 := stable_slice_sort.
Let L0 : JSON (list bytes) := tableJSON [[ #"a1" ]].
Let R0 : JSON (list CacheWire.ResponseMeta) := noJSON.
Let P0 : JSON LocalManifests.PreloadRequest := noJSON.
Let F0 : JSON FileMeta := noJSON.
Let C0 : JSON ClearStats := noJSON.
Let I0 : JSON InspectStats := noJSON.
Let K0 : JSON (list KeyInspection) := noJSON.
Let G0 : JSON Admin.IntegrityReport := noJSON.
Let T0 : JSON Settings.serverSettings := noJSON.
Let M0 : JSON (gmap bytes Z) := noJSON.
Let E0 : JSON HttpSession.Extras := noJSON.
Let W0 : JSON StatusPage.StatusReport := noJSON.
Local Existing Instance Z0.
Local Existing Instance S0.
Local Existing Instance L0.
Local Existing Instance R0.
Local Existing Instance P0.
Local Existing Instance F0.
Local Existing Instance C0.
Local Existing Instance I0.
Local Existing Instance K0.
Local Existing Instance G0.
Local Existing Instance T0.
Local Existing Instance M0.
Local Existing Instance E0.
Local Existing Instance W0.


End witness.
