(* ===== verification/GithubActions.v ===== *)
(** A continuous-integration job around the caches: src/internal/local/github_actions.go.
    The first step of a job reads one connection string, derives what the job is about
    from its environment, prepares the cache of one of four modes and leaves what the
    last step needs in the file $GITHUB_ENV; the last step saves what the job made. *)
From S2P Require Import Prelude.
From S2P Require Import GoStrings.
From S2P Require Import GoPath.
From S2P Require Import Wire.
From S2P Require Import HttpNet.
From S2P Require Import ManifestPaths.
From S2P Require Import Manifests.
From S2P Require Import ClientFiles.
From S2P Require Import NativeRestore.
From S2P Require Import NativeSave.
From S2P Require Import GoCacheRestore.
From S2P Require Import Timestamps.
From S2P Require Import GocacheStats.
From S2P Require HttpServer.
From S2P Require Import HttpSession.

(** ** The connection string *)

(** What net/url makes of the string: its query, and the URL without it. *)
Record ParsedURL := mkURL { url_Query : gmap bytes (list bytes); url_plain : bytes }.

Definition qGet (q : gmap bytes (list bytes)) (k : bytes) : bytes :=
  match q !! k with Some (v :: _) => v | _ => [] end.
Definition qHas (q : gmap bytes (list bytes)) (k : bytes) : bool := bool_decide (is_Some (q !! k)).

(** [strconv.ParseBool]. *)
Definition ParseBool (s : bytes) : result bool :=
  if bool_decide (s ∈ [ #"1"; #"t"; #"T"; #"true"; #"TRUE"; #"True" ]) then Ok true
  else if bool_decide (s ∈ [ #"0"; #"f"; #"F"; #"false"; #"FALSE"; #"False" ]) then Ok false
  else Err (EMsg "invalid syntax").

Definition defaultGithubActionsPreloadSize : Z := 3000000.
Definition maxFileBytesUnset : Z := -1.

Record githubActionsConfig := mkConfig {
  gc_remoteURL : bytes;
  gc_authToken : bytes;
  gc_cacheDir : bytes;
  gc_buildType : bytes;
  gc_mode : bytes;
  gc_canonicalize : bytes;
  gc_maxFileBytes : Z;
  gc_maxCacheBytes : Z;
  gc_skipPreload : bool;
  gc_fallbackRemote : bool;
  gc_reportFiles : gmap bytes bytes;
  gc_testcacheKeys : bytes;
}.

(** An optional parameter: what is not there, or empty, is the default. *)
Definition optional {A : Type} (q : gmap bytes (list bytes)) (k : bytes) (parse : bytes -> result A) (dflt : A) : result A :=
  let v := qGet q k in if bool_decide (v = []) then Ok dflt else parse v.

Definition reportPrefix : bytes := #"report_".

(** [parseReportFileParams]; an empty map is the nil map here. *)
Definition parseReportFileParams (q : gmap bytes (list bytes)) : gmap bytes bytes :=
  list_to_map (omap (fun kv : bytes * list bytes =>
    if HasPrefix kv.1 reportPrefix then
      let name := TrimPrefix kv.1 reportPrefix in
      if bool_decide (name = []) then None
      else match kv.2 with [] => None | v :: _ => Some (name, v) end
    else None) (map_to_list q)).

Definition parseGithubActionsDSN (urlParse : bytes -> result ParsedURL) (dsn : bytes) : result githubActionsConfig :=
  let? u := urlParse dsn in
  let q := url_Query u in
  let mode := if bool_decide (qGet q #"mode" = []) then #"shim" else qGet q #"mode" in
  let? maxFileBytes := optional q #"max_file_bytes" ParseInt maxFileBytesUnset in
  let? maxCacheBytes := optional q #"max_cache_bytes" ParseInt 0 in
  let? skipPreload := optional q #"skip_preload" ParseBool false in
  let? fallbackRemote := optional q #"fallback_remote" ParseBool false in
  let canonicalize :=
    if qHas q #"canonicalize_timestamps" then
      let c := qGet q #"canonicalize_timestamps" in if bool_decide (c = []) then #"." else c
    else #"." in
  let? skipCanonicalize := optional q #"skip_canonicalize_timestamps" ParseBool false in
  Ok (mkConfig (url_plain u) (qGet q #"auth") (qGet q #"cache_dir") (qGet q #"build_type") mode
        (if skipCanonicalize then [] else canonicalize) maxFileBytes maxCacheBytes skipPreload fallbackRemote
        (parseReportFileParams q) (qGet q #"testcache_keys")).

(** ** What the job is about *)

Definition build_char (c : ascii) : bool := ManifestPaths.key_char c.

(** [invalidBuildTypeChar.ReplaceAllString(s, "-")]: a run of other characters becomes
    one dash; [inRun] says that one is under way. *)
Fixpoint dashRuns (inRun : bool) (s : bytes) : bytes :=
  match s with
  | [] => []
  | c :: s =>
      if build_char c then c :: dashRuns false s
      else if inRun then dashRuns true s else "-"%char :: dashRuns true s
  end.

Definition repoScopedBuildType (environ : gmap bytes bytes) (buildType : bytes) : bytes :=
  let repo := dashRuns false (Getenv environ #"GITHUB_REPOSITORY") in
  if bool_decide (repo = []) then buildType
  else if bool_decide (buildType = []) then repo
  else repo ++ #"-" ++ buildType.

Record ghPullRequestEvent := mkPullRequest { pr_Number : Z; pr_BaseSHA : bytes; pr_HeadSHA : bytes }.
Record ghEvent := mkEvent { ev_PullRequest : option ghPullRequestEvent }.

(** Commit, base commit and changes-id. *)
Record JobContext := mkContext { cx_commit : bytes; cx_baseCommit : bytes; cx_changesID : bytes }.

Definition githubContext `{JSON ghEvent} (environ : gmap bytes bytes) (readFile : bytes -> result bytes) : result JobContext :=
  let eventName := Getenv environ #"GITHUB_EVENT_NAME" in
  if negb (bool_decide (eventName = #"pull_request")) && negb (bool_decide (eventName = #"pull_request_target")) then
    Ok (mkContext (Getenv environ #"GITHUB_SHA") [] [])
  else
    let eventPath := Getenv environ #"GITHUB_EVENT_PATH" in
    if bool_decide (eventPath = []) then Err (EMsg "GITHUB_EVENT_PATH is not set")
    else
      let? data := readFile eventPath in
      let? event := Unmarshal data in
      match ev_PullRequest event with
      | None => Err (EMsg "event payload is missing the pull_request field")
      | Some pr =>
          let repo := Getenv environ #"GITHUB_REPOSITORY" in
          Ok (mkContext (pr_HeadSHA pr) (pr_BaseSHA pr) (repo ++ #"#" ++ FormatInt (pr_Number pr)))
      end.

Definition GithubActionsJobURL (environ : gmap bytes bytes) : bytes :=
  let serverURL := Getenv environ #"GITHUB_SERVER_URL" in
  let repo := Getenv environ #"GITHUB_REPOSITORY" in
  let runID := Getenv environ #"GITHUB_RUN_ID" in
  if bool_decide (serverURL = []) || bool_decide (repo = []) || bool_decide (runID = []) then []
  else serverURL ++ #"/" ++ repo ++ #"/actions/runs/" ++ runID.

Definition flagArg (name v : bytes) : list bytes := if bool_decide (v = []) then [] else [name; v].

Definition commonScopeArgs (cfg : githubActionsConfig) (cx : JobContext) (sessionID : bytes) : list bytes :=
  flagArg #"-auth-token" (gc_authToken cfg) ++ flagArg #"-commit" (cx_commit cx) ++
  flagArg #"-changes-id" (cx_changesID cx) ++ flagArg #"-build-type" (gc_buildType cfg) ++
  flagArg #"-base-commit" (cx_baseCommit cx) ++ flagArg #"-session-id" sessionID.

(** Arguments with spaces are not quoted. *)
Definition shellJoin (bin : bytes) (args : list bytes) : bytes := Join (bin :: args) #" ".

Definition sessionIDOf (pid now : Z) : bytes := FormatInt pid ++ #"-" ++ FormatInt now.

(** ** The environment between the steps *)

Definition envGHAMode : bytes := #"GOCACHEPROG_GHA_MODE".
Definition envGHASocket : bytes := #"GOCACHEPROG_GHA_SOCKET".
Definition envGHAAuth : bytes := #"GOCACHEPROG_GHA_AUTH".
Definition envGHAPIDFile : bytes := #"GOCACHEPROG_GHA_PID_FILE".
Definition envGHALogFile : bytes := #"GOCACHEPROG_GHA_LOG_FILE".
Definition envGHACacheDir : bytes := #"GOCACHEPROG_GHA_CACHE_DIR".
Definition envGHARemoteURL : bytes := #"GOCACHEPROG_GHA_REMOTE_URL".
Definition envGHACommit : bytes := #"GOCACHEPROG_GHA_COMMIT".
Definition envGHAChangesID : bytes := #"GOCACHEPROG_GHA_CHANGES_ID".
Definition envGHABuildType : bytes := #"GOCACHEPROG_GHA_BUILD_TYPE".
Definition envGHABaseCommit : bytes := #"GOCACHEPROG_GHA_BASE_COMMIT".
Definition envGHAMaxFileBytes : bytes := #"GOCACHEPROG_GHA_MAX_FILE_BYTES".
Definition envGHARestoreStats : bytes := #"GOCACHEPROG_GHA_RESTORE_STATS".
Definition envGHAInitTime : bytes := #"GOCACHEPROG_GHA_INIT_TIME".
Definition envGHAMaxCacheBytes : bytes := #"GOCACHEPROG_GHA_MAX_CACHE_BYTES".
Definition envGHALocalFallback : bytes := #"GOCACHEPROG_GHA_LOCAL_FALLBACK".
Definition envGHASessionID : bytes := #"GOCACHEPROG_GHA_SESSION_ID".
Definition envGHAReportFiles : bytes := #"GOCACHEPROG_GHA_REPORT_FILES".
Definition envGHATestcacheKeys : bytes := #"GOCACHEPROG_GHA_TESTCACHE_KEYS".

Abbreviation Vars := (gmap bytes bytes).

Definition setReportFilesEnv `{JSON (gmap bytes bytes)} (env : Vars) (reportFiles : gmap bytes bytes) : Vars :=
  if bool_decide (reportFiles = ∅) then env
  else match Marshal reportFiles with
  | Err _ => env
  | Ok reportFilesJSON => <[envGHAReportFiles := reportFilesJSON]> env
  end.

Definition envLine (kv : bytes * bytes) : bytes := kv.1 ++ #"=" ++ kv.2 ++ [newline].

(** What the host does to the writes of [setGitHubEnv], and the order in which Go ranges
    over the map. *)
Record EnvFile := mkEnvFile {
  ef_open : option goerr;
  ef_write : bytes -> option goerr;
  ef_range : Vars -> list (bytes * bytes);
}.

Fixpoint writeVars (ef : EnvFile) (file : bytes) (vars : list (bytes * bytes)) : bytes * result unit :=
  match vars with
  | [] => (file, Ok tt)
  | kv :: vars =>
      match ef_write ef kv.1 with
      | Some e => (file, Err e)
      | None => writeVars ef (file ++ envLine kv) vars
      end
  end.

(** [setGitHubEnv]: the file it appends to, before and after. *)
Definition setGitHubEnv (ef : EnvFile) (environ : Vars) (file : bytes) (vars : Vars) : bytes * result unit :=
  if bool_decide (Getenv environ #"GITHUB_ENV" = []) then (file, Err (EMsg "GITHUB_ENV environment variable is not set"))
  else match ef_open ef with
  | Some e => (file, Err e)
  | None => writeVars ef file (ef_range ef vars)
  end.

(** ** The first step *)

(** A job's step: the server and the processes, the cache directory on disk, and the
    file named by $GITHUB_ENV. *)
Record Step (W : Type) := mkStep { sp_world : W; sp_dir : Dir; sp_env : bytes }.
Arguments mkStep {W}.
Arguments sp_world {W}.
Arguments sp_dir {W}.
Arguments sp_env {W}.

(** The host of a step: what it reads, and where its writes fail. *)
Record Host := mkHost {
  ho_env : HostEnv;
  ho_readFile : bytes -> result bytes;
  ho_tempDir : bytes;
  ho_executable : result bytes;
  ho_pid : Z;
  ho_now : Z;
  ho_mkdir : option goerr;
  ho_logFile : option goerr;
  ho_pidFile : option goerr;
  ho_dir : DirEnv;
  ho_walk : WalkEnv;
  ho_loadStats : option goerr;
  ho_envFile : EnvFile;
}.

Abbreviation environ ho := (he_environ (ho_env ho)).

(** What the host and the network do to the world: processes run to their end, a daemon
    that is started, the wait for its socket, and a request to the server at a URL. *)
Record Outside (W : Type) := mkOutside {
  out_run : bytes -> list bytes -> W -> W * option goerr;
  out_start : bytes -> list bytes -> W -> W * result Z;
  out_waitSocket : bytes -> W -> W * option goerr;
  out_net : bytes -> Header -> W -> Call -> W * result Response;
}.
Arguments out_run {W}.
Arguments out_start {W}.
Arguments out_waitSocket {W}.
Arguments out_net {W}.

Definition resolveHelperCacheDir (he : HostEnv) (dir : bytes) : result bytes :=
  if negb (bool_decide (dir = [])) then resolveAbsPath he dir
  else let? userCacheDir := he_userCache he in Ok (JoinPath [userCacheDir; #"gocacheprog"]).

Definition remoteClientMaxRetries : nat := 3.

Section modes.
Context {W : Type} (out : Outside W) (ho : Host) (moduleVersion : bytes).
Context `{RFC3339} `{Zstd} `{JSON FileMeta} `{JSON TransferStats} `{JSON (gmap bytes bytes)} `{JSON (gmap bytes Z)}.
Context `{JSON localGocacheStats}.

(** [http.NewClientWithSession] at a URL. *)
Definition dial (remoteURL authToken : bytes) (info : option SessionInfo) (w : W) : W * result Client :=
  NewClientWithSession (out_net out (TrimSuffix remoteURL #"/")) moduleVersion w authToken info.

Definition netOf (remoteURL : bytes) (c : Client) : W -> Call -> W * result Response :=
  clientNet (out_net out (TrimSuffix remoteURL #"/")) c.

(** [newRemoteClientWithRetry], with the retries that are left. *)
Fixpoint connectAttempts (retries : nat) (remoteURL authToken : bytes) (info : option SessionInfo) (w : W) : W * result Client :=
  match dial remoteURL authToken info w with
  | (w, Ok client) => (w, Ok client)
  | (w, Err e) =>
      match retries with
      | O => (w, Err e)
      | S retries => connectAttempts retries remoteURL authToken info w
      end
  end.

Definition newRemoteClientWithRetry : bytes -> bytes -> option SessionInfo -> W -> W * result Client :=
  connectAttempts remoteClientMaxRetries.

Definition resolveMaxFileBytesDefault (remoteURL authToken buildType : bytes) (w : W) : W * Z :=
  match dial remoteURL authToken None w with
  | (w, Err _) => (w, defaultGithubActionsPreloadSize)
  | (w, Ok client) =>
      match MaxFileBytesFor (out_net out (TrimSuffix remoteURL #"/")) client w buildType with
      | (w, Err _) => (w, defaultGithubActionsPreloadSize)
      | (w, Ok bytes) => (w, if bytes <=? 0 then defaultGithubActionsPreloadSize else bytes)
      end
  end.

(** [RestoreNativeCache] over the connection. *)
Definition restoreNative (remoteURL : bytes) (client : Client) (w : W) (d : Dir) (req : Request) (startedAt : Z)
    : W * (Dir * result TransferStats) :=
  match roundTrip (netOf remoteURL client) w (mkCall #"/restore-cache" (gocacheQuery req) [] true) with
  | (w, Err e) => (w, RestoreNativeCache (ho_dir ho) d (Err e) startedAt)
  | (w, Ok res) => (w, RestoreNativeCache (ho_dir ho) d (Ok (re_status res, re_body res)) startedAt)
  end.

(** A failed preload is logged. *)
Definition runPreloadOnly (self cacheDir : bytes) (cfg : githubActionsConfig) (cx : JobContext) (sessionID : bytes) (w : W) : W :=
  if gc_skipPreload cfg then w
  else fst (out_run out self ([ #"-cache-dir"; cacheDir; #"-remote-url"; gc_remoteURL cfg; #"-preload-only";
                                #"-max-file-bytes"; FormatInt (gc_maxFileBytes cfg) ] ++ commonScopeArgs cfg cx sessionID) w).

Definition leaveEnv (s : Step W) (w : W) (d : Dir) (env : Vars) : Step W * result unit :=
  let '(file, r) := setGitHubEnv (ho_envFile ho) (environ ho) (sp_env s) env in (mkStep w d file, r).

Definition helperArgs (cfg : githubActionsConfig) (cx : JobContext) (cacheDir sessionID : bytes) (quiet : list bytes) : list bytes :=
  [ #"-cache-dir"; cacheDir; #"-remote-url"; gc_remoteURL cfg; #"-skip-preload" ] ++ quiet ++
  [ #"-max-file-bytes"; FormatInt (gc_maxFileBytes cfg) ] ++ commonScopeArgs cfg cx sessionID.

Definition initDirectMode (self : bytes) (cfg : githubActionsConfig) (cx : JobContext) (sessionID : bytes) (initStartedAt : Z)
    (s : Step W) : Step W * result unit :=
  match resolveHelperCacheDir (ho_env ho) (gc_cacheDir cfg), ho_mkdir ho with
  | Err e, _ | Ok _, Some e => (s, Err e)
  | Ok cacheDir, None =>
      let w := runPreloadOnly self cacheDir cfg cx sessionID (sp_world s) in
      let env := list_to_map [
        (#"GOCACHEPROG", shellJoin self (helperArgs cfg cx cacheDir sessionID [ #"-quiet" ]));
        (envGHAMode, #"direct"); (envGHACacheDir, cacheDir); (envGHARemoteURL, gc_remoteURL cfg);
        (envGHAAuth, gc_authToken cfg); (envGHASessionID, sessionID); (envGHAInitTime, FormatTime initStartedAt)] in
      leaveEnv s w (sp_dir s) (setReportFilesEnv env (gc_reportFiles cfg))
  end.

Definition initShimMode (self : bytes) (cfg : githubActionsConfig) (cx : JobContext) (sessionID : bytes) (initStartedAt : Z)
    (s : Step W) : Step W * result unit :=
  match resolveHelperCacheDir (ho_env ho) (gc_cacheDir cfg), ho_mkdir ho with
  | Err e, _ | Ok _, Some e => (s, Err e)
  | Ok cacheDir, None =>
      let w := runPreloadOnly self cacheDir cfg cx sessionID (sp_world s) in
      let socket := JoinPath [ho_tempDir ho; #"gocacheprog.sock"] in
      let pidFile := JoinPath [ho_tempDir ho; #"gocacheprog.pid"] in
      let logFile := JoinPath [ho_tempDir ho; #"gocacheprog-daemon.log"] in
      let s1 w := mkStep w (sp_dir s) (sp_env s) in
      match ho_logFile ho with
      | Some e => (s1 w, Err e)
      | None =>
          match out_start out self (#"-http" :: (#"unix://" ++ socket) :: helperArgs cfg cx cacheDir sessionID []) w with
          | (w, Err e) => (s1 w, Err e)
          | (w, Ok _) =>
              match ho_pidFile ho with
              | Some e => (s1 w, Err e)
              | None =>
                  match out_waitSocket out socket w with
                  | (w, Some e) => (s1 w, Err e)
                  | (w, None) =>
                      let clientArgs := [ #"-remote-url"; #"unix://" ++ socket; #"-quiet" ] ++
                                        flagArg #"-auth-token" (gc_authToken cfg) in
                      let env := list_to_map [
                        (#"GOCACHEPROG", shellJoin self clientArgs); (envGHAMode, #"shim"); (envGHASocket, socket);
                        (envGHAAuth, gc_authToken cfg); (envGHAPIDFile, pidFile); (envGHALogFile, logFile);
                        (envGHARemoteURL, gc_remoteURL cfg); (envGHASessionID, sessionID);
                        (envGHAInitTime, FormatTime initStartedAt)] in
                      leaveEnv s w (sp_dir s) (setReportFilesEnv env (gc_reportFiles cfg))
                  end
              end
          end
      end
  end.

Definition jobRequest (cfg : githubActionsConfig) (cx : JobContext) : Request :=
  mkRequest (cx_commit cx) (cx_changesID cx) (gc_buildType cfg) (cx_baseCommit cx) [] (gc_maxFileBytes cfg) 0.

(** The session of a connection. *)
Definition jobSession (sessionID cacheDir : bytes) (startedAt : Z) (req : Request) : SessionInfo :=
  mkSessionInfo sessionID (Some startedAt) (ho_pid ho) cacheDir (GithubActionsJobURL (environ ho))
    (Some (mkParams (rq_Commit req) [] (rq_ChangesID req) (rq_BuildType req) (rq_BaseCommit req))).

Definition setNonEmpty (k v : bytes) (env : Vars) : Vars := if bool_decide (v = []) then env else <[k := v]> env.

(** What the last step needs in gocache mode. *)
Definition gocacheVars (cfg : githubActionsConfig) (cx : JobContext) (cacheDir sessionID restoreStatsJSON : bytes) (initStartedAt : Z)
    : Vars :=
  setReportFilesEnv (setNonEmpty envGHATestcacheKeys (gc_testcacheKeys cfg) (list_to_map [
    (#"GOCACHE", cacheDir); (envGHAMode, #"gocache"); (envGHACacheDir, cacheDir); (envGHARemoteURL, gc_remoteURL cfg);
    (envGHAAuth, gc_authToken cfg); (envGHACommit, cx_commit cx); (envGHAChangesID, cx_changesID cx);
    (envGHABuildType, gc_buildType cfg); (envGHABaseCommit, cx_baseCommit cx);
    (envGHAMaxFileBytes, FormatInt (gc_maxFileBytes cfg)); (envGHARestoreStats, restoreStatsJSON);
    (envGHAInitTime, FormatTime initStartedAt); (envGHASessionID, sessionID)])) (gc_reportFiles cfg).

(** A remote that fails is a cold cache. *)
Definition initGocacheMode (cfg : githubActionsConfig) (cx : JobContext) (sessionID : bytes) (initStartedAt : Z)
    (s : Step W) : Step W * result unit :=
  match ResolveNativeCacheDir (ho_env ho) (gc_cacheDir cfg), ho_mkdir ho with
  | Err e, _ | Ok _, Some e => (s, Err e)
  | Ok cacheDir, None =>
      let req := jobRequest cfg cx in
      let '(w, d, restoreStats) :=
        match newRemoteClientWithRetry (gc_remoteURL cfg) (gc_authToken cfg)
                (Some (jobSession sessionID cacheDir (ho_now ho) req)) (sp_world s) with
        | (w, Err _) => (w, sp_dir s, no_stats)
        | (w, Ok client) =>
            let '(w, (d, r)) := restoreNative (gc_remoteURL cfg) client w (sp_dir s) req (ho_now ho) in
            (w, d, match r with Ok st => st | Err _ => no_stats end)
        end in
      match Marshal restoreStats with
      | Err e => (mkStep w d (sp_env s), Err e)
      | Ok restoreStatsJSON => leaveEnv s w d (gocacheVars cfg cx cacheDir sessionID restoreStatsJSON initStartedAt)
      end
  end.

(** [initLocalGocacheFallbackRestore]: the world, the directory, and the variables. *)
Definition initLocalGocacheFallbackRestore (cfg : githubActionsConfig) (cx : JobContext) (sessionID cacheDir : bytes)
    (stats : localGocacheStats) (initStartedAt : Z) (env : Vars) (w : W) (d : Dir) : W * Dir * result Vars :=
  if bool_decide (is_Some (default ∅ (BuildTypes stats) !! localGocacheStatsBuildTypeKey (gc_buildType cfg))) then (w, d, Ok env)
  else if bool_decide (gc_remoteURL cfg = []) then (w, d, Err (EMsg "fallback_remote requires a remote URL in the DSN"))
  else
    let req := jobRequest cfg cx in
    match newRemoteClientWithRetry (gc_remoteURL cfg) (gc_authToken cfg)
            (Some (jobSession sessionID cacheDir initStartedAt req)) w with
    | (w, Err _) => (w, d, Ok env)
    | (w, Ok client) =>
        match restoreNative (gc_remoteURL cfg) client w d req initStartedAt with
        | (w, (d, Err _)) => (w, d, Ok env)
        | (w, (d, Ok _)) =>
            let env := <[envGHALocalFallback := #"1"]> (<[envGHARemoteURL := gc_remoteURL cfg]>
                       (<[envGHAAuth := gc_authToken cfg]> (<[envGHASessionID := sessionID]>
                       (<[envGHACommit := cx_commit cx]> (<[envGHAChangesID := cx_changesID cx]>
                       (<[envGHABaseCommit := cx_baseCommit cx]>
                       (<[envGHAMaxFileBytes := FormatInt (gc_maxFileBytes cfg)]> env))))))) in
            (w, d, Ok (setReportFilesEnv env (gc_reportFiles cfg)))
        end
    end.

Definition initLocalGocacheMode (cfg : githubActionsConfig) (cx : JobContext) (sessionID : bytes) (initStartedAt : Z)
    (s : Step W) : Step W * result unit :=
  match ResolveNativeCacheDir (ho_env ho) (gc_cacheDir cfg), ho_mkdir ho with
  | Err e, _ | Ok _, Some e => (s, Err e)
  | Ok cacheDir, None =>
      let stats := match loadLocalGocacheStats (ho_loadStats ho) (sp_dir s) with
                   | Ok stats => stats
                   | Err _ => mkLocalStats (Some ∅)
                   end in
      let env := list_to_map [
        (#"GOCACHE", cacheDir); (envGHAMode, #"local-gocache"); (envGHACacheDir, cacheDir);
        (envGHABuildType, gc_buildType cfg); (envGHAInitTime, FormatTime initStartedAt)] in
      let env := if 0 <? gc_maxCacheBytes cfg then <[envGHAMaxCacheBytes := FormatInt (gc_maxCacheBytes cfg)]> env else env in
      if gc_fallbackRemote cfg then
        match initLocalGocacheFallbackRestore cfg cx sessionID cacheDir stats initStartedAt env (sp_world s) (sp_dir s) with
        | (w, d, Err e) => (mkStep w d (sp_env s), Err e)
        | (w, d, Ok env) => leaveEnv s w d env
        end
      else leaveEnv s (sp_world s) (sp_dir s) env
  end.
End modes.

(** *** The whole step *)

Definition withScope (environ : Vars) (cfg : githubActionsConfig) : githubActionsConfig :=
  mkConfig (gc_remoteURL cfg) (gc_authToken cfg) (gc_cacheDir cfg) (repoScopedBuildType environ (gc_buildType cfg))
    (gc_mode cfg) (gc_canonicalize cfg) (gc_maxFileBytes cfg) (gc_maxCacheBytes cfg) (gc_skipPreload cfg)
    (gc_fallbackRemote cfg) (gc_reportFiles cfg) (gc_testcacheKeys cfg).

Definition withMaxFileBytes (n : Z) (cfg : githubActionsConfig) : githubActionsConfig :=
  mkConfig (gc_remoteURL cfg) (gc_authToken cfg) (gc_cacheDir cfg) (gc_buildType cfg)
    (gc_mode cfg) (gc_canonicalize cfg) n (gc_maxCacheBytes cfg) (gc_skipPreload cfg)
    (gc_fallbackRemote cfg) (gc_reportFiles cfg) (gc_testcacheKeys cfg).

Section init.
Context {W : Type} (out : Outside W) (ho : Host) (moduleVersion : bytes) (urlParse : bytes -> result ParsedURL).
Context `{RFC3339} `{Zstd} `{JSON FileMeta} `{JSON TransferStats} `{JSON (gmap bytes bytes)} `{JSON (gmap bytes Z)}.
Context `{JSON localGocacheStats} `{JSON ghEvent} `{SHA1} `{SliceSort}.

(** The limit of the job: what the string says, or the server's for the build type. *)
Definition resolveConfig (cfg : githubActionsConfig) (w : W) : W * githubActionsConfig :=
  let cfg := withScope (environ ho) cfg in
  if gc_maxFileBytes cfg =? maxFileBytesUnset then
    let '(w, n) := resolveMaxFileBytesDefault out moduleVersion (gc_remoteURL cfg) (gc_authToken cfg) (gc_buildType cfg) w in
    (w, withMaxFileBytes n cfg)
  else (w, cfg).

(** [GithubActionsInit] on the files of the checkout and the step. *)
Definition GithubActionsInit (flt : Faults) (initStartedAt : Z) (dsn : bytes) (fs : FS) (s : Step W) : FS * Step W * result unit :=
  match parseGithubActionsDSN urlParse dsn with
  | Err e => (fs, s, Err e)
  | Ok cfg =>
      let '(w, cfg) := resolveConfig cfg (sp_world s) in
      let s := mkStep w (sp_dir s) (sp_env s) in
      let '(fs, timed) := if bool_decide (gc_canonicalize cfg = []) then (fs, Ok (0, 0))
                          else CanonicalizeTimestamps flt (he_cwd (ho_env ho)) fs (gc_canonicalize cfg) in
      match timed, githubContext (environ ho) (ho_readFile ho), ho_executable ho with
      | Err e, _, _ | Ok _, Err e, _ | Ok _, Ok _, Err e => (fs, s, Err e)
      | Ok _, Ok cx, Ok self =>
          let sessionID := sessionIDOf (ho_pid ho) initStartedAt in
          let '(s, r) :=
            if bool_decide (gc_mode cfg = #"direct") then initDirectMode out ho self cfg cx sessionID initStartedAt s
            else if bool_decide (gc_mode cfg = #"shim") then initShimMode out ho self cfg cx sessionID initStartedAt s
            else if bool_decide (gc_mode cfg = #"gocache") then
              initGocacheMode out ho moduleVersion cfg cx sessionID initStartedAt s
            else if bool_decide (gc_mode cfg = #"local-gocache") then
              initLocalGocacheMode out ho moduleVersion cfg cx sessionID initStartedAt s
            else (s, Err (EMsg "unsupported mode")) in
          (fs, s, r)
      end
  end.
End init.

(** ** The last step *)

(** The final report of a proxy. *)
Record StatsSummary := mkSummary {
  ss_Hits : Z; ss_Misses : Z; ss_Puts : Z; ss_HitRate : bytes; ss_Invocations : Z; ss_RoundTrips : Z;
  ss_BytesRead : bytes; ss_BytesWritten : bytes; ss_GetTotalTime : bytes; ss_GetCount : bytes;
  ss_PreloadedBytes : bytes; ss_TotalTime : bytes; ss_ForcedCloses : Z;
}.

Definition no_summary : StatsSummary := mkSummary 0 0 0 [] 0 0 [] [] [] [] [] [] 0.

(** Its fields as JSON has them: those marked omitempty are left out when empty. *)
Definition textField (k v : bytes) : list (bytes * jsonValue) := if bool_decide (v = []) then [] else [(k, JText v)].
Definition numberField (k : bytes) (n : Z) : list (bytes * jsonValue) := if n =? 0 then [] else [(k, JNumber n)].

Definition flatten (s : StatsSummary) : Extras :=
  list_to_map ([(#"hits", JNumber (ss_Hits s)); (#"misses", JNumber (ss_Misses s)); (#"puts", JNumber (ss_Puts s));
                (#"hit_rate", JText (ss_HitRate s))] ++
               numberField #"invocations" (ss_Invocations s) ++ numberField #"round_trips" (ss_RoundTrips s) ++
               textField #"bytes_read" (ss_BytesRead s) ++ textField #"bytes_written" (ss_BytesWritten s) ++
               textField #"get_total_time" (ss_GetTotalTime s) ++ textField #"get_count" (ss_GetCount s) ++
               textField #"preloaded_bytes" (ss_PreloadedBytes s) ++ textField #"total_time" (ss_TotalTime s) ++
               numberField #"forced_closes" (ss_ForcedCloses s)).

(** The daemon, to the last step: stopping it over its socket, signalling it by its
    process file, and removing a file. *)
Record Daemon (W : Type) := mkDaemon {
  dm_stop : bytes -> bytes -> W -> W * result StatsSummary;
  dm_kill : bytes -> W -> W;
  dm_remove : bytes -> W -> W;
}.
Arguments dm_stop {W}.
Arguments dm_kill {W}.
Arguments dm_remove {W}.

(** The keys that a package's tests hit and missed in the go command's cache. *)
Record testcachePkgKeys := mkPkgKeys { tk_Hits : list bytes; tk_Misses : list bytes }.

#[export] Instance KeyInspection_eq_dec : EqDecision KeyInspection.
Proof. solve_decision. Defined.
#[export] Instance testcachePkgKeys_eq_dec : EqDecision testcachePkgKeys.
Proof. solve_decision. Defined.

(** The request of the last step, from the variables of the first. *)
Definition savedMaxFileBytes (e : Vars) : Z := match ParseInt (Getenv e envGHAMaxFileBytes) with Ok n => n | Err _ => 0 end.
Definition savedRequest (e : Vars) (buildType : bytes) : Request :=
  mkRequest (Getenv e envGHACommit) (Getenv e envGHAChangesID) buildType (Getenv e envGHABaseCommit) []
    (savedMaxFileBytes e) 0.

Section done.
Context {W : Type} (out : Outside W) (dm : Daemon W) (ho : Host) (moduleVersion : bytes).
Context `{RFC3339} `{Zstd} `{JSON FileMeta} `{JSON (list bytes)} `{JSON (gmap bytes bytes)} `{JSON Extras} `{SliceSort}.
Context `{JSON localGocacheStats} `{JSON (gmap bytes testcachePkgKeys)} `{JSON (list KeyInspection)}.
(** What the code takes from the standard library and the host: [time.Duration.String],
    [json.Valid], orders of sets and maps, the ids of the uploads, and the opened files. *)
Context (DurationString : Z -> bytes) (jsonValid : bytes -> bool).
Context (order : gset bytes -> list bytes) (rangeKeys : gmap bytes testcachePkgKeys -> list bytes).
Context (ids : nat -> bytes) (open : bytes -> result stream).

Abbreviation env := (environ ho).

Definition elapsedSinceInit : option Z :=
  let raw := Getenv env envGHAInitTime in
  if bool_decide (raw = []) then None
  else match ParseTime raw with Ok t => Some (ho_now ho - t) | Err _ => None end.

Definition reportFileValue (data : bytes) : jsonValue := if jsonValid data then JInline data else JText data.

(** [collectReportExtras]: a file that cannot be read is left out. *)
Definition collectReportExtras : Extras :=
  let raw := Getenv env envGHAReportFiles in
  if bool_decide (raw = []) then ∅
  else match Unmarshal (A := gmap bytes bytes) raw with
  | Err _ => ∅
  | Ok files => omap (fun path => match ho_readFile ho path with Ok data => Some (reportFileValue data) | Err _ => None end) files
  end.

(** [maps.Copy]: the later fields win. *)
Definition sessionExtras (mode : bytes) (stats : StatsSummary) : Extras :=
  collectReportExtras ∪ (flatten stats ∪ {[ #"mode" := JText mode ]}).

Definition markRemoteSessionDone (remoteURL auth sessionID : bytes) (extra : Extras) (w : W) : W :=
  if bool_decide (remoteURL = []) || bool_decide (sessionID = []) then w
  else match dial out moduleVersion remoteURL auth (Some (mkSessionInfo sessionID None 0 [] [] None)) w with
  | (w, Err _) => w
  | (w, Ok client) => fst (MarkSessionDone (out_net out (TrimSuffix remoteURL #"/")) client w extra)
  end.

(** [CountShimForcedCloses] at the daemon's socket: the lines of the marker, which is
    removed. *)
Definition countForcedCloses (socket : bytes) (w : W) : W * Z :=
  let path := socket ++ #".forced-closes" in
  match ho_readFile ho path with
  | Err _ | Ok [] => (w, 0)
  | Ok data => (dm_remove dm path w, Z.of_nat (length (split_on newline (TrimSpace data))))
  end.

Definition withRun (forced : Z) (elapsed : option Z) (s : StatsSummary) : StatsSummary :=
  mkSummary (ss_Hits s) (ss_Misses s) (ss_Puts s) (ss_HitRate s) (ss_Invocations s) (ss_RoundTrips s) (ss_BytesRead s)
    (ss_BytesWritten s) (ss_GetTotalTime s) (ss_GetCount s) (ss_PreloadedBytes s)
    (match elapsed with Some t => DurationString t | None => ss_TotalTime s end) forced.

Definition doneShimMode (w : W) : W * result unit :=
  let socket := Getenv env envGHASocket in
  let auth := Getenv env envGHAAuth in
  let markDone extra w := markRemoteSessionDone (Getenv env envGHARemoteURL) auth (Getenv env envGHASessionID) extra w in
  if bool_decide (socket = []) then (w, Err (EMsg "GOCACHEPROG_GHA_SOCKET is not set"))
  else match dm_stop dm socket auth w with
  | (w, Err _) =>
      let pidFile := Getenv env envGHAPIDFile in
      let w := if bool_decide (pidFile = []) then w else dm_kill dm pidFile w in
      (markDone (sessionExtras #"shim" no_summary) w, Ok tt)
  | (w, Ok stats) =>
      let '(w, forced) := countForcedCloses socket w in
      (markDone (sessionExtras #"shim" (withRun forced elapsedSinceInit stats)) w, Ok tt)
  end.

(** The distinct missed keys, in the order in which Go ranges over the packages. *)
Definition missedKeys (pkgKeys : gmap bytes testcachePkgKeys) : list bytes :=
  unseen ∅ (concat (map (fun pkg => from_option tk_Misses [] (pkgKeys !! pkg)) (rangeKeys pkgKeys))).

(** [investigateTestcacheKeys]: one question to the server, for the log. *)
Definition investigateTestcacheKeys (remoteURL : bytes) (client : Client) (req : Request) (w : W) : W :=
  let path := Getenv env envGHATestcacheKeys in
  if bool_decide (path = []) then w
  else match ho_readFile ho path with
  | Err _ => w
  | Ok data =>
      match Unmarshal (A := gmap bytes testcachePkgKeys) data with
      | Err _ => w
      | Ok pkgKeys =>
          let missKeys := missedKeys pkgKeys in
          if bool_decide (missKeys = []) then w
          else fst (ClientInspectKeys (A := KeyInspection) (out_net out (TrimSuffix remoteURL #"/")) client w req missKeys)
      end
  end.

Definition sinceInit : option Z := match ParseTime (Getenv env envGHAInitTime) with Ok t => Some t | Err _ => None end.

Definition saveFresh (remoteURL : bytes) (client : Client) (cacheDir : bytes) (d : Dir) (w : W) (req : Request)
    (since : option Z) (exclude : option (bytes -> bool)) : W * (SaveSkipStats * result TransferStats) :=
  SaveFreshNativeCache (netOf out remoteURL client) DefaultSaveCacheChunkBytes (ho_walk ho) order ids open cacheDir d w req
    (rq_MaxFileBytes req) since exclude.

(** What the job reports of a save. *)
Definition saveExtras (skips : SaveSkipStats) : Extras :=
  collectReportExtras ∪ list_to_map [
    (#"mode", JText #"gocache"); (#"save_skipped_existing", JNumber (sk_ExistingSkipped skips));
    (#"save_considered", JNumber (sk_Considered skips)); (#"save_skipped_large_count", JNumber (fst (sk_LargeSkipped skips)));
    (#"save_skipped_large_bytes", JNumber (snd (sk_LargeSkipped skips)))].

Definition doneGocacheMode (d : Dir) (w : W) : W * result unit :=
  let cacheDir := Getenv env envGHACacheDir in
  let remoteURL := Getenv env envGHARemoteURL in
  let auth := Getenv env envGHAAuth in
  if bool_decide (cacheDir = []) || bool_decide (remoteURL = []) then (w, Err (EMsg "GOCACHEPROG_GHA_CACHE_DIR is not set"))
  else
    let req := savedRequest env (Getenv env envGHABuildType) in
    let sessionID := let sid := Getenv env envGHASessionID in
                     if bool_decide (sid = []) then sessionIDOf (ho_pid ho) (ho_now ho) else sid in
    match newRemoteClientWithRetry out moduleVersion remoteURL auth (Some (jobSession ho sessionID cacheDir (ho_now ho) req)) w with
    | (w, Err _) => (w, Ok tt)
    | (w, Ok client) =>
        let w := investigateTestcacheKeys remoteURL client req w in
        let '(w, (skips, _)) := saveFresh remoteURL client cacheDir d w req sinceInit None in
        (fst (MarkSessionDone (out_net out (TrimSuffix remoteURL #"/")) client w (saveExtras skips)), Ok tt)
    end.

Definition doneLocalGocacheFallbackUpload (cacheDir buildType : bytes) (d : Dir) (w : W) : W :=
  let remoteURL := Getenv env envGHARemoteURL in
  if bool_decide (remoteURL = []) then w
  else match ParseTime (Getenv env envGHAInitTime) with
  | Err _ => w
  | Ok since =>
      let req := savedRequest env buildType in
      let sessionID := sessionIDOf (ho_pid ho) (ho_now ho) in
      match newRemoteClientWithRetry out moduleVersion remoteURL (Getenv env envGHAAuth)
              (Some (jobSession ho sessionID cacheDir (ho_now ho) req)) w with
      | (w, Err _) => w
      | (w, Ok client) => fst (saveFresh remoteURL client cacheDir d w req (Some since) (Some isLocalGocacheProtectedFile))
      end
  end.

(** What the last step meets on the disk: other entries than files, the umask, and the
    faults of the statistics and of removing. *)
Record LocalDone := mkLocalDone {
  ld_lstat : bytes -> Z * Z;
  ld_umask : Z;
  ld_saveStats : option listFault;
  ld_rm : bytes -> option goerr;
}.

Definition doneLocalGocacheMode (ld : LocalDone) (d : Dir) (w : W) : Dir * W * result unit :=
  let cacheDir := Getenv env envGHACacheDir in
  if bool_decide (cacheDir = []) then (d, w, Ok tt)
  else
    let buildType := Getenv env envGHABuildType in
    let d := fst (recordLocalGocacheUsage (ld_umask ld) (ho_pid ho) d buildType (ho_now ho) (ho_loadStats ho) (ld_saveStats ld)) in
    let fallback := bool_decide (Getenv env envGHALocalFallback = #"1") in
    let w := if fallback then doneLocalGocacheFallbackUpload cacheDir buildType d w else w in
    let '(d, files, bytes) :=
      match scanCacheDir (ld_lstat ld) (ho_walk ho) d with
      | Err _ => (d, 0, 0)
      | Ok entries =>
          (match ParseInt (Getenv env envGHAMaxCacheBytes) with
           | Ok maxCacheBytes => if 0 <? maxCacheBytes then evictOldestUntilFits (ld_rm ld) d entries maxCacheBytes else d
           | Err _ => d
           end, Z.of_nat (length entries), sizes entries)
      end in
    let w := if fallback then
               let extra := <[ #"local_cache_bytes" := JNumber bytes ]> (<[ #"local_cache_files" := JNumber files ]>
                              (sessionExtras #"local-gocache" no_summary)) in
               markRemoteSessionDone (Getenv env envGHARemoteURL) (Getenv env envGHAAuth) (Getenv env envGHASessionID) extra w
             else w in
    (d, w, Ok tt).
End done.

(** ** Lemmas *)

(** *** The file between the steps *)

(** A host that can write its environment file. *)
Record calmEnvFile (ef : EnvFile) (environ : Vars) : Prop := {
  ce_named : Getenv environ #"GITHUB_ENV" <> [];
  ce_open : ef_open ef = None;
  ce_write k : ef_write ef k = None;
  ce_range m : ef_range ef m ≡ₚ map_to_list m;
}.

Definition envText (vars : list (bytes * bytes)) : bytes := concat (map envLine vars).

Lemma writeVars_calm ef file vars : (forall k, ef_write ef k = None) -> writeVars ef file vars = (file ++ envText vars, Ok tt).
Proof.
  intros Hw. revert file. induction vars as [|kv vars IH]; intros file; cbn [writeVars]; [by rewrite app_nil_r|].
  rewrite Hw, IH. unfold envText. cbn [map concat]. by rewrite app_assoc.
Qed.

Lemma setGitHubEnv_calm ef environ file vars :
  calmEnvFile ef environ -> setGitHubEnv ef environ file vars = (file ++ envText (ef_range ef vars), Ok tt).
Proof.
  intros [Hn Ho Hw _]. unfold setGitHubEnv. rewrite bool_decide_eq_false_2, Ho by done. by apply writeVars_calm.
Qed.

(** What the runner makes of the file for the steps that follow: a line [key=value] sets
    a variable. *)
Record plain_var (kv : bytes * bytes) : Prop := {
  pv_named : kv.1 <> [];
  pv_key : ("="%char ∉ kv.1) /\ (newline ∉ kv.1) /\ ("<"%char ∉ kv.1);
  pv_value : newline ∉ kv.2;
}.

Class Runner := {
  readEnvFile : bytes -> Vars;
  readEnvFile_text l : NoDup l.*1 -> Forall plain_var l -> readEnvFile (envText l) = list_to_map l;
}.

Definition plain_vars (vars : Vars) : Prop := forall k v, vars !! k = Some v -> plain_var (k, v).

Lemma env_reaches_next_step `{Runner} ef environ vars file :
  calmEnvFile ef environ -> plain_vars vars -> setGitHubEnv ef environ [] vars = (file, Ok tt) -> readEnvFile file = vars.
Proof.
  intros Hc Hp. rewrite setGitHubEnv_calm by done. intros [= <-]. assert (Hr := ce_range _ _ Hc vars).
  rewrite readEnvFile_text.
  - rewrite (list_to_map_proper _ (map_to_list vars)); [apply list_to_map_to_list| |done].
    rewrite Hr. apply NoDup_fst_map_to_list.
  - rewrite Hr. apply NoDup_fst_map_to_list.
  - rewrite Hr. apply Forall_forall. intros [k v] Hkv%elem_of_map_to_list. by apply Hp.
Qed.

(** *** A step succeeds whatever the network does *)

Section proofs.
Context {W : Type} (out : Outside W) (ho : Host) (moduleVersion : bytes).
Context `{RFC3339} `{Zstd} `{JSON FileMeta} `{JSON TransferStats} `{JSON (gmap bytes bytes)}.
Context `{JSON localGocacheStats}.

Lemma leaveEnv_calm (s : Step W) w d env :
  calmEnvFile (ho_envFile ho) (environ ho) ->
  leaveEnv ho s w d env = (mkStep w d (sp_env s ++ envText (ef_range (ho_envFile ho) env)), Ok tt).
Proof. intros Hc. unfold leaveEnv. by rewrite setGitHubEnv_calm. Qed.

(** The variables that gocache mode leaves, whatever was restored. *)
Lemma initGocacheMode_ends cfg cx sid t (s : Step W) cacheDir :
  ResolveNativeCacheDir (ho_env ho) (gc_cacheDir cfg) = Ok cacheDir -> ho_mkdir ho = None ->
  calmEnvFile (ho_envFile ho) (environ ho) -> (forall st : TransferStats, exists b, Marshal st = Ok b) ->
  exists w d (st : TransferStats) json, Marshal st = Ok json /\
    initGocacheMode out ho moduleVersion cfg cx sid t s =
      leaveEnv ho s w d (gocacheVars cfg cx cacheDir sid json t).
Proof.
  intros Hd Hm Hc Hj. unfold initGocacheMode. rewrite Hd, Hm.
  set (x := match newRemoteClientWithRetry _ _ _ _ _ _ with (w, Err _) => _ | (w, Ok client) => _ end).
  destruct x as [[w d] st]. destruct (Hj st) as [json Ej]. rewrite Ej. by exists w, d, st, json.
Qed.
End proofs.

(** *** Reading the variables back *)

Lemma setNonEmpty_other m k v k' : k <> k' -> setNonEmpty k v m !! k' = m !! k'.
Proof. intros Hk. unfold setNonEmpty. case_bool_decide; [done|]. by apply lookup_insert_ne. Qed.

Lemma setReportFilesEnv_other `{JSON (gmap bytes bytes)} m files k :
  k <> envGHAReportFiles -> setReportFilesEnv m files !! k = m !! k.
Proof.
  intros Hk. unfold setReportFilesEnv. case_bool_decide; [done|]. destruct (Marshal files); [|done].
  by apply lookup_insert_ne.
Qed.

Lemma Getenv_union m m' k v : m !! k = Some v -> Getenv (m ∪ m') k = v.
Proof. intros Hk. unfold Getenv. by rewrite (lookup_union_Some_l m m' k v). Qed.

Ltac other_key := let E := fresh in intros E; vm_compute in E; discriminate E.

(** Look a constant name up in a list of variables. *)
Ltac read_var :=
  cbn [list_to_map foldr fst snd];
  repeat first [rewrite lookup_insert_eq; reflexivity | rewrite lookup_insert_ne by other_key].

Section reading.
Context `{RFC3339} `{JSON (gmap bytes bytes)}.

Lemma gocacheVars_get cfg cx cacheDir sid json t :
  let vars := gocacheVars cfg cx cacheDir sid json t in
  (vars !! envGHACacheDir = Some cacheDir /\ vars !! envGHARemoteURL = Some (gc_remoteURL cfg) /\
   vars !! envGHAAuth = Some (gc_authToken cfg) /\ vars !! envGHASessionID = Some sid /\
   vars !! envGHAInitTime = Some (FormatTime t)) /\
  (vars !! envGHACommit = Some (cx_commit cx) /\ vars !! envGHAChangesID = Some (cx_changesID cx) /\
   vars !! envGHABuildType = Some (gc_buildType cfg) /\ vars !! envGHABaseCommit = Some (cx_baseCommit cx) /\
   vars !! envGHAMaxFileBytes = Some (FormatInt (gc_maxFileBytes cfg))).
Proof.
  intros vars. subst vars. unfold gocacheVars.
  split_and!; rewrite setReportFilesEnv_other, setNonEmpty_other by other_key; read_var.
Qed.
End reading.

(** The variables of the next step: those of the file, over the runner's own. *)
Definition nextEnviron `{Runner} (file : bytes) (base : Vars) : Vars := readEnvFile file ∪ base.

Lemma Getenv_next `{Runner} file vars base k v :
  readEnvFile file = vars -> vars !! k = Some v -> Getenv (nextEnviron file base) k = v.
Proof. intros <- Hk. by apply Getenv_union. Qed.

(** *** The limit that the server answers *)

Section limit.
Context `{RFC3339} `{JSON Extras} `{JSON (gmap bytes Z)} (ver : bytes) (now : Z) (limits : Settings.Handler).
Context (out : Outside SessionServer).

(** The server is at a URL. *)
Definition served_at (url : bytes) : Prop := forall h w c, out_net out (TrimSuffix url #"/") h w c = serveSession ver now limits h w c.

Definition lets_in (w : SessionServer) (tok : bytes) : bool :=
  HttpServer.authorized (sv_auth w) (headerOf (setAuthHeader ∅ tok) headerAuthorization).

Lemma anonymous_read tok :
  headerOf (handshakeHeader ver tok None) headerAuthorization = headerOf (setAuthHeader ∅ tok) headerAuthorization /\
  HttpServer.hd_SessionID (headersOf (handshakeHeader ver tok None)) = [].
Proof.
  unfold headersOf, handshakeHeader, setSessionHeaders. cbn [HttpServer.hd_SessionID].
  rewrite !headerOf_insert, (headerOf_auth _ _ headerSessionID), (bool_decide_eq_false_2 (headerClientVersion = headerAuthorization)),
    (bool_decide_eq_false_2 (headerClientVersion = headerSessionID)), (bool_decide_eq_false_2 (headerAuthorization = headerSessionID))
    by other_key. done.
Qed.

Lemma touch_nobody m r t : HttpServer.hd_SessionID r = [] -> HttpServer.touchSession m r t = (m, None).
Proof. intros E. unfold HttpServer.touchSession. by rewrite E, bool_decide_eq_true_2. Qed.

Lemma same_server (w : SessionServer) : mkSessionServer (sv_auth w) (sv_sessions w) (logEvent (sv_log w) None) = w.
Proof. by destruct w. Qed.

Lemma dial_anonymous url tok w :
  served_at url -> dial out ver url tok None w =
    (w, if lets_in w tok then Ok (mkClient tok []) else Err (EMsg "authentication failed")).
Proof.
  intros Hs. destruct (anonymous_read tok) as [Ha Hn]. unfold dial, NewClientWithSession. unfold lets_in.
  destruct (HttpServer.authorized _ _) eqn:Eg.
  - erewrite roundTrip_answered; [|rewrite Hs; unfold serveSession; rewrite Ha, Eg, touch_nobody, same_server by (exact Hn || done); reflexivity|reflexivity].
    assert (Hp : HasPrefix (#"gocacheprog " ++ ver) #"gocacheprog " = true) by apply HasPrefix_app.
    unfold serveVersion, checkStatus. cbn -[HasPrefix app list_ascii_of_string]. by rewrite Hp.
  - erewrite roundTrip_answered; [|rewrite Hs; unfold serveSession; rewrite Ha, Eg; reflexivity|reflexivity]. done.
Qed.

Lemma limit_answered url tok w bt :
  served_at url -> lets_in w tok = true -> json_ok (Settings.snapshot Settings.MaxFileBytes limits) ->
  MaxFileBytesFor (out_net out (TrimSuffix url #"/")) (mkClient tok []) w bt = (w, Ok (Settings.maxFileBytesFor limits bt)).
Proof.
  intros Hs Hg Hj. destruct (Unmarshal_Marshal _ Hj) as (b & Eb & _ & Eu). destruct (later_read tok []) as (Hh & Ha & _).
  unfold MaxFileBytesFor. unfold lets_in in Hg.
  assert (En : clientNet (out_net out (TrimSuffix url #"/")) (mkClient tok []) w (mkCall #"/settings/max-file-bytes" ∅ [] true) =
    (w, Ok (mkResponse 200 ∅ (fromBytes b)))).
  { unfold clientNet. rewrite Hs. unfold serveSession. rewrite Ha, Hg, Hh, touch_nobody, same_server by done. cbn [negb c_path].
    rewrite (bool_decide_eq_false_2 (_ = #"/version")), (bool_decide_eq_false_2 (_ = #"/session-done")) by other_key.
    rewrite (bool_decide_eq_true_2 (_ = #"/settings/max-file-bytes")) by reflexivity. by rewrite Eb. }
  rewrite (roundTrip_answered _ _ _ _ _ En) by done. unfold checkStatus. cbn [re_status re_body Z.eqb Pos.eqb fromBytes ReadAll st_err st_data].
  by rewrite Eu.
Qed.

(** What the first step makes of the limit of its string. *)
Lemma resolved_limit ho cfg w w' cfg' :
  served_at (gc_remoteURL cfg) -> json_ok (Settings.snapshot Settings.MaxFileBytes limits) ->
  resolveConfig out ho ver cfg w = (w', cfg') ->
  w' = w /\ gc_buildType cfg' = repoScopedBuildType (environ ho) (gc_buildType cfg) /\
  gc_maxFileBytes cfg' =
    if gc_maxFileBytes cfg =? maxFileBytesUnset then
      let n := Settings.maxFileBytesFor limits (gc_buildType cfg') in
      if lets_in w (gc_authToken cfg) && (0 <? n) then n else defaultGithubActionsPreloadSize
    else gc_maxFileBytes cfg.
Proof.
  intros Hs Hj. unfold resolveConfig. cbn [withScope gc_maxFileBytes gc_remoteURL gc_authToken gc_buildType].
  destruct (gc_maxFileBytes cfg =? maxFileBytesUnset); [|by intros [= <- <-]].
  unfold resolveMaxFileBytesDefault. rewrite dial_anonymous by done. destruct (lets_in w (gc_authToken cfg)) eqn:Eg.
  - rewrite limit_answered by done. intros [= <- <-]. split; [done|]. split; [done|]. cbn.
    destruct (Z.leb_spec (Settings.maxFileBytesFor limits (repoScopedBuildType (environ ho) (gc_buildType cfg))) 0);
      [rewrite (proj2 (Z.ltb_ge _ _)) by lia|rewrite (proj2 (Z.ltb_lt _ _)) by lia]; done.
  - intros [= <- <-]. done.
Qed.
End limit.

(** ** The claims *)

Section claims.
Context {W : Type} (out : Outside W) (dm : Daemon W) (ho : Host) (moduleVersion : bytes).
Context `{RFC3339} `{Zstd} `{JSON FileMeta} `{JSON TransferStats} `{JSON (gmap bytes bytes)} `{JSON (list bytes)}.
Context `{JSON Extras} `{SliceSort} `{JSON localGocacheStats} `{JSON (gmap bytes testcachePkgKeys)} `{JSON (list KeyInspection)}.
Context (DurationString : Z -> bytes) (jsonValid : bytes -> bool).
Context (order : gset bytes -> list bytes) (rangeKeys : gmap bytes testcachePkgKeys -> list bytes).
Context (ids : nat -> bytes) (open : bytes -> result stream).

(** C9: in the modes without a daemon the cache fails no job.  Whatever the server
    answers, and if it does not answer at all -- a connection that is refused, a restore
    that breaks off, an upload that is turned down -- the first and the last step of a
    job in gocache mode end without an error, as long as the host finds the directory
    and can write the environment file; so do those of local-gocache mode, if a server is
    named where one may be asked.  In the default mode, with a daemon, a server that
    cannot be reached does fail the first step: the daemon does not start. *)
Theorem a_broken_remote_fails_no_job cfg cx sid t (s : Step W) d w ld cacheDir
    (Hdir : ResolveNativeCacheDir (ho_env ho) (gc_cacheDir cfg) = Ok cacheDir) (Hmk : ho_mkdir ho = None)
    (Hfile : calmEnvFile (ho_envFile ho) (environ ho))
    (Hstats : forall st : TransferStats, exists b, Marshal st = Ok b) :
  (exists s', initGocacheMode out ho moduleVersion cfg cx sid t s = (s', Ok tt)) /\
  (gc_fallbackRemote cfg = false \/ gc_remoteURL cfg <> [] ->
   exists s', initLocalGocacheMode out ho moduleVersion cfg cx sid t s = (s', Ok tt)) /\
  (Getenv (environ ho) envGHACacheDir <> [] -> Getenv (environ ho) envGHARemoteURL <> [] ->
   exists w', doneGocacheMode out ho moduleVersion jsonValid order rangeKeys ids open d w = (w', Ok tt)) /\
  (exists d' w', doneLocalGocacheMode out ho moduleVersion jsonValid order ids open ld d w = (d', w', Ok tt)).
Proof.
  split_and!.
  - destruct (initGocacheMode_ends out ho moduleVersion cfg cx sid t s cacheDir) as (w1 & d1 & st & json & _ & ->); [done..|].
    rewrite leaveEnv_calm by done. eauto.
  - intros Hr. unfold initLocalGocacheMode. rewrite Hdir, Hmk. cbv zeta.
    destruct (gc_fallbackRemote cfg) eqn:Ef; [|rewrite leaveEnv_calm by done; eauto].
    destruct Hr as [Hr|Hr]; [done|].
    destruct (initLocalGocacheFallbackRestore _ _ _ _ _ _ _ _ _ _ _ _) as [[w1 d1] [env|e]] eqn:E.
    + rewrite leaveEnv_calm by done. eauto.
    + exfalso. unfold initLocalGocacheFallbackRestore in E. case_bool_decide; [done|]. rewrite bool_decide_eq_false_2 in E by done.
      destruct (newRemoteClientWithRetry _ _ _ _ _ _) as [w2 [c|]]; [|done].
      by destruct (restoreNative _ _ _ _ _ _ _ _) as [w3 [d3 [|]]].
  - intros Hc Hr. unfold doneGocacheMode. rewrite !bool_decide_eq_false_2 by done. cbn [orb].
    destruct (newRemoteClientWithRetry _ _ _ _ _ _) as [w1 [c|]]; [|eauto].
    destruct (saveFresh _ _ _ _ _ _ _ _ _ _ _) as [w2 [sk r]]. eauto.
  - unfold doneLocalGocacheMode. case_bool_decide; [eauto|].
    destruct (match scanCacheDir _ _ _ with Ok _ => _ | Err _ => _ end) as [[d1 f] b]. eauto.
Qed.

(** C1: the last step of a job knows what the first was about.  The variables that the
    first step leaves in gocache mode -- one line each -- come back to the last step,
    through the runner's reading of the file, as what they were: it connects to the
    same server with the same token and session, saves the same directory for the same
    commit, change, build type, base and limit, and takes for fresh what was modified
    since the time the first step began. *)
Theorem last_step_knows_the_first `{Runner} ho2 base cfg cx sid t (s s' : Step W) d w cacheDir
    (Hdir : ResolveNativeCacheDir (ho_env ho) (gc_cacheDir cfg) = Ok cacheDir) (Hmk : ho_mkdir ho = None)
    (Hfile : calmEnvFile (ho_envFile ho) (environ ho)) (Hempty : sp_env s = [])
    (Hstats : forall st : TransferStats, exists b, Marshal st = Ok b)
    (Hlines : forall (st : TransferStats) json, Marshal st = Ok json -> plain_vars (gocacheVars cfg cx cacheDir sid json t))
    (Hset : cacheDir <> [] /\ gc_remoteURL cfg <> [] /\ sid <> []) (Ht : time_ok t)
    (Hlimit : - 2 ^ 63 <= gc_maxFileBytes cfg < 2 ^ 63)
    (Hinit : initGocacheMode out ho moduleVersion cfg cx sid t s = (s', Ok tt))
    (Henv : environ ho2 = nextEnviron (sp_env s') base) :
  doneGocacheMode out ho2 moduleVersion jsonValid order rangeKeys ids open d w =
    match newRemoteClientWithRetry out moduleVersion (gc_remoteURL cfg) (gc_authToken cfg)
            (Some (jobSession ho2 sid cacheDir (ho_now ho2) (jobRequest cfg cx))) w with
    | (w, Err _) => (w, Ok tt)
    | (w, Ok client) =>
        let w := investigateTestcacheKeys out ho2 rangeKeys (gc_remoteURL cfg) client (jobRequest cfg cx) w in
        let '(w, (skips, _)) :=
          saveFresh out ho2 order ids open (gc_remoteURL cfg) client cacheDir d w (jobRequest cfg cx) (Some t) None in
        (fst (MarkSessionDone (out_net out (TrimSuffix (gc_remoteURL cfg) #"/")) client w (saveExtras ho2 jsonValid skips)), Ok tt)
    end.
Proof.
  destruct (initGocacheMode_ends out ho moduleVersion cfg cx sid t s cacheDir Hdir Hmk Hfile Hstats) as (w1 & d1 & st & json & Ej & Ei).
  rewrite Ei in Hinit. unfold leaveEnv in Hinit. rewrite Hempty in Hinit.
  destruct (setGitHubEnv _ _ _ _) as [file r] eqn:Ef. injection Hinit as <- ->. cbn [sp_env] in Henv.
  assert (Hread := env_reaches_next_step _ _ _ file Hfile (Hlines st json Ej) Ef).
  destruct (gocacheVars_get cfg cx cacheDir sid json t) as [(G1 & G2 & G3 & G4 & G5) (G6 & G7 & G8 & G9 & G10)].
  assert (Hget : forall k v, gocacheVars cfg cx cacheDir sid json t !! k = Some v -> Getenv (environ ho2) k = v).
  { intros k v Hk. rewrite Henv. by apply (Getenv_next _ _ base k v Hread). }
  apply Hget in G1, G2, G3, G4, G5, G6, G7, G8, G9, G10. destruct Hset as (N1 & N2 & N3).
  assert (Ereq : savedRequest (environ ho2) (Getenv (environ ho2) envGHABuildType) = jobRequest cfg cx).
  { unfold savedRequest, savedMaxFileBytes. by rewrite G6, G7, G8, G9, G10, ParseInt_FormatInt by done. }
  assert (Esince : sinceInit ho2 = Some t) by (unfold sinceInit; by rewrite G5, ParseTime_FormatTime).
  unfold doneGocacheMode. rewrite Ereq, Esince, G1, G2, G3, G4. by rewrite !bool_decide_eq_false_2.
Qed.
End claims.

(** C27: the limit that a job's restore runs under.  A limit above zero in the connection
    string is the one that the server applies to what it restores for the job.  Without
    one it is the server's limit for the job's build type, if the server can be asked
    and has one, and three million otherwise.  A limit of zero or below, other than the
    -1 that stands for none, does not lift the limit: the server then applies its own.
    So the value of the connection string does not always win. *)
Theorem the_limit_of_a_job `{RFC3339} `{JSON Extras} `{JSON (gmap bytes Z)} ver now limits out ho cfg cfg' w w' cx
    (Hs : served_at ver now limits out (gc_remoteURL cfg)) (Hj : json_ok (Settings.snapshot Settings.MaxFileBytes limits))
    (Hrun : resolveConfig out ho ver cfg w = (w', cfg')) (Hplain : plain_request (jobRequest cfg' cx)) :
  let applied := rq_MaxFileBytes (servedRequest limits (jobRequest cfg' cx)) in
  let servers := Settings.maxFileBytesFor limits (gc_buildType cfg') in
  (0 < gc_maxFileBytes cfg -> applied = gc_maxFileBytes cfg) /\
  (gc_maxFileBytes cfg = maxFileBytesUnset -> lets_in w (gc_authToken cfg) = true -> 0 < servers -> applied = servers) /\
  (gc_maxFileBytes cfg = maxFileBytesUnset -> lets_in w (gc_authToken cfg) = false \/ servers <= 0 ->
   applied = defaultGithubActionsPreloadSize) /\
  (gc_maxFileBytes cfg <= 0 -> gc_maxFileBytes cfg <> maxFileBytesUnset -> applied = servers).
Proof.
  destruct (resolved_limit ver now limits out ho cfg w w' cfg' Hs Hj Hrun) as (_ & _ & El). cbv zeta in El |- *.
  assert (Ea : rq_MaxFileBytes (servedRequest limits (jobRequest cfg' cx)) =
    if Z.max 0 (gc_maxFileBytes cfg') <=? 0 then Settings.maxFileBytesFor limits (gc_buildType cfg') else gc_maxFileBytes cfg').
  { unfold servedRequest. rewrite request_roundtrip by done. unfold withDefaults. cbn.
    destruct (Z.leb_spec (Z.max 0 (gc_maxFileBytes cfg')) 0); [done|lia]. }
  rewrite Ea. clear Ea. unfold maxFileBytesUnset, defaultGithubActionsPreloadSize in *.
  set (servers := Settings.maxFileBytesFor limits (gc_buildType cfg')) in *. split_and!.
  - intros Hn. rewrite (proj2 (Z.eqb_neq _ _)) in El by lia. rewrite El. destruct (Z.leb_spec (Z.max 0 (gc_maxFileBytes cfg)) 0); lia.
  - intros Hn Hg Hp. rewrite Hn, Hg, (proj2 (Z.ltb_lt _ _)) in El by lia. cbn in El. rewrite El.
    destruct (Z.leb_spec (Z.max 0 servers) 0); lia.
  - intros Hn Hg. assert (Ef : lets_in w (gc_authToken cfg) && (0 <? servers) = false).
    { destruct Hg as [->|Hg]; [done|]. by rewrite (proj2 (Z.ltb_ge _ _)), andb_false_r. }
    rewrite Hn, Ef in El. cbn in El. by rewrite El.
  - intros Hn Hne. rewrite (proj2 (Z.eqb_neq _ _)) in El by lia. rewrite El.
    destruct (Z.leb_spec (Z.max 0 (gc_maxFileBytes cfg)) 0); lia.
Qed.

(** *** Build types and repositories *)

Lemma key_char_graphic c : ManifestPaths.key_char c = true -> graphic c = true.
Proof. destruct c as [[] [] [] [] [] [] [] []]; vm_compute; congruence. Qed.

Lemma dashRuns_chars inRun s : forallb ManifestPaths.key_char (dashRuns inRun s) = true.
Proof.
  revert inRun. induction s as [|c s IH]; intros inRun; [done|]. cbn [dashRuns]. unfold build_char.
  destruct (ManifestPaths.key_char c) eqn:E; [cbn [forallb]; by rewrite E, IH|]. destruct inRun; [done|]. cbn [forallb]. by rewrite IH.
Qed.

Lemma dashRuns_length inRun s : (length (dashRuns inRun s) <= length s)%nat.
Proof.
  revert inRun. induction s as [|c s IH]; intros inRun; [done|]. cbn [dashRuns length].
  destruct (build_char c); [|destruct inRun]; cbn [length]; specialize (IH true) as H1; specialize (IH false) as H2; lia.
Qed.

(** A repository as the runner names it: the owner's name begins with a letter or digit. *)
Definition repository (environ : Vars) (r : bytes) : Prop :=
  Getenv environ #"GITHUB_REPOSITORY" = r /\ exists c r', r = c :: r' /\ ManifestPaths.is_alnum c = true.

Lemma scoped_name environ r bt :
  repository environ r -> forallb ManifestPaths.key_char bt = true ->
  exists c n, dashRuns false r = c :: n /\ ManifestPaths.is_alnum c = true /\
    repoScopedBuildType environ bt = (c :: n) ++ (if bool_decide (bt = []) then [] else #"-" ++ bt).
Proof.
  intros [Hr (c & r' & -> & Hc)] Hbt. exists c, (dashRuns false r').
  assert (Ed : dashRuns false (c :: r') = c :: dashRuns false r').
  { cbn [dashRuns]. unfold build_char, ManifestPaths.key_char. by rewrite Hc. }
  split; [done|]. split; [done|]. unfold repoScopedBuildType. rewrite Hr, Ed, bool_decide_eq_false_2 by done.
  case_bool_decide; [by rewrite app_nil_r|done].
Qed.

(** C36: every repository has a scope of its own on the server.  For a repository named
    as the runner names it and a build type of letters, digits, dots, dashes and
    underscores, within the server's length, the scoped build type is one the server
    accepts; and two repositories share the manifests of a build type only if their
    names are the same up to the characters that become dashes. *)
Theorem repositories_have_scopes_of_their_own e1 e2 r1 r2 bt
    (H1 : repository e1 r1) (H2 : repository e2 r2) (Hbt : forallb ManifestPaths.key_char bt = true)
    (L1 : blen r1 + 1 + blen bt <= ManifestPaths.maxManifestKeyLen) (L2 : blen r2 + 1 + blen bt <= ManifestPaths.maxManifestKeyLen) :
  exists d1 d2,
    ManifestPaths.manifestScopeDir (repoScopedBuildType e1 bt) = Ok d1 /\
    ManifestPaths.manifestScopeDir (repoScopedBuildType e2 bt) = Ok d2 /\
    (d1 = d2 <-> dashRuns false r1 = dashRuns false r2).
Proof.
  assert (Hone : forall e r, repository e r -> blen r + 1 + blen bt <= ManifestPaths.maxManifestKeyLen ->
    ManifestPaths.manifestScopeDir (repoScopedBuildType e bt) =
      Ok (#"buildtype-" ++ dashRuns false r ++ (if bool_decide (bt = []) then [] else #"-" ++ bt))).
  { intros e r Hr Hl. destruct (scoped_name e r bt Hr Hbt) as (c & n & Ed & Hc & ->).
    assert (Hk : forallb ManifestPaths.key_char ((c :: n) ++ (if bool_decide (bt = []) then [] else #"-" ++ bt)) = true).
    { rewrite forallb_app, <-Ed, dashRuns_chars. case_bool_decide; [done|]. cbn. exact Hbt. }
    assert (Hg : TrimSpace ((c :: n) ++ (if bool_decide (bt = []) then [] else #"-" ++ bt)) =
                 (c :: n) ++ (if bool_decide (bt = []) then [] else #"-" ++ bt)).
    { apply TrimSpace_graphic. apply forallb_forall. intros x Hx. rewrite forallb_forall in Hk. by apply key_char_graphic, Hk. }
    unfold ManifestPaths.manifestScopeDir. rewrite Hg, bool_decide_eq_false_2 by done.
    assert (Hlen := dashRuns_length false r). rewrite Ed in Hlen |- *. unfold blen, ManifestPaths.maxManifestKeyLen in *.
    assert (Hb : (length (if bool_decide (bt = []) then [] else #"-" ++ bt) <= S (length bt))%nat) by (case_bool_decide; simpl; lia).
    rewrite (proj2 (Z.ltb_ge _ _)) by (rewrite length_app; lia).
    unfold ManifestPaths.validScopedKeyName. cbn [app forallb] in Hk |- *.
    apply andb_true_iff in Hk as [_ ->]. rewrite Hc. done. }
  eexists _, _. split; [by apply Hone|]. split; [by apply Hone|]. split; [|by intros ->].
  intros E. apply app_inv_head in E. by apply app_inv_tail in E.
Qed.

(** Repository and build type together do not tell scopes apart. *)
Lemma scopes_can_collide :
  repoScopedBuildType {[ #"GITHUB_REPOSITORY" := #"o/tools" ]} #"race-unit" =
  repoScopedBuildType {[ #"GITHUB_REPOSITORY" := #"o/tools-race" ]} #"unit".
Proof. vm_compute. reflexivity. Qed.

(** C35: a job on a directory that its runner keeps.  Without a remote the last step asks
    no server; it counts the job -- what it stored is what is read back, after the
    eviction too -- and leaves the directory within its limit, unless nothing is left
    that may be evicted and can be removed. *)
Theorem local_job_leaves_a_bounded_directory {W : Type} `{RFC3339} `{Zstd} `{JSON FileMeta} `{JSON (gmap bytes bytes)} `{JSON (list bytes)}
    `{JSON Extras} `{SliceSort} `{JSON localGocacheStats} (out : Outside W) ho ver jsonValid order ids open ld d w stats n
    (Hset : Getenv (environ ho) envGHACacheDir <> []) (Hlocal : Getenv (environ ho) envGHALocalFallback <> #"1")
    (Hwalk : ho_walk ho = calmWalk) (Hread : ho_loadStats ho = None) (Hwrite : ld_saveStats ld = None)
    (Hload : loadLocalGocacheStats None d = Ok stats)
    (Hjson : json_ok (counted (Getenv (environ ho) envGHABuildType) (ho_now ho) stats))
    (Hrange : forall e, default ∅ (BuildTypes stats) !! localGocacheStatsBuildTypeKey (Getenv (environ ho) envGHABuildType) = Some e ->
       0 <= us_Count e < 2 ^ 63 - 1)
    (Hmax : ParseInt (Getenv (environ ho) envGHAMaxCacheBytes) = Ok n) (Hpos : 0 < n) :
  exists d' entries, doneLocalGocacheMode out ho ver jsonValid order ids open ld d w = (d', w, Ok tt) /\
    loadLocalGocacheStats None d' = Ok (counted (Getenv (environ ho) envGHABuildType) (ho_now ho) stats) /\
    scanCacheDir (ld_lstat ld) calmWalk d' = Ok entries /\
    (sizes entries <= n \/
     forall p, is_Some (d' !! p) -> isLocalGocacheProtectedFile (Base p) = true \/ removes (ld_rm ld) p = false).
Proof.
  destruct (usage_recorded (ld_umask ld) (ho_pid ho) d (Getenv (environ ho) envGHABuildType) (ho_now ho) stats Hload Hjson Hrange)
    as (d1 & types & entry & E1 & E2 & _).
  assert (Ec : mkLocalStats (Some types) = counted (Getenv (environ ho) envGHABuildType) (ho_now ho) stats).
  { unfold recordLocalGocacheUsage in E1. rewrite Hload in E1. by destruct (saveLocalGocacheStats _ _ _ _ _ _) as [? []]; simplify_eq. }
  rewrite Ec in E2. unfold doneLocalGocacheMode. rewrite (bool_decide_eq_false_2 (_ = [])) by done.
  rewrite (bool_decide_eq_false_2 (_ = #"1")) by done. rewrite Hread, Hwrite, E1, Hwalk, Hmax. cbn [fst].
  rewrite scan_calm, (proj2 (Z.ltb_lt 0 n)) by done.
  set (d' := evictOldestUntilFits (ld_rm ld) d1 _ n). exists d', (map (entryOf (ld_lstat ld)) (walk d')).
  split; [done|]. rewrite scan_calm, scan_size.
  destruct (Z.leb_spec (dirSize (ld_lstat ld) d1) n) as [Hfit|Hover].
  - assert (d' = d1) as ->.
    { unfold d', evictOldestUntilFits. rewrite scan_size, (proj2 (Z.leb_gt n 0)), (proj2 (Z.leb_le _ n)) by lia. done. }
    auto.
  - destruct (evicted_parts (ld_lstat ld) (ld_rm ld) d1 n d') as (dn & rest & _ & Hgone & Hkept & Hend & _); [done..|].
    split; [|split; [done|]].
    + assert (Es : d' !! localGocacheStatsFilename = d1 !! localGocacheStatsFilename).
      { destruct (d' !! localGocacheStatsFilename) as [x|] eqn:Ed; [by apply Hkept in Ed as [-> _]|].
        destruct (d1 !! localGocacheStatsFilename) as [x|] eqn:Ed1; [|done].
        destruct (Hgone _ Ed (ex_intro _ x Ed1)) as [Hp _]. vm_compute in Hp. discriminate Hp. }
      unfold loadLocalGocacheStats in E2 |- *. by rewrite Es.
    + destruct Hend as [->|Hend]; [right|left; assert (Ht := evictionTarget_le n Hpos); lia].
      intros p [x Hx]. destruct (Hkept p x Hx) as [_ Hr]. destruct (isLocalGocacheProtectedFile (Base p)); [by left|].
      destruct (removes (ld_rm ld) p); [|by right]. specialize (Hr eq_refl eq_refl). set_solver.
Qed.

(** ** Examples *)

(** A runner that reads its environment file line by line. *)
Fixpoint cutVar (s : bytes) : option (bytes * bytes) :=
  match s with
  | [] => None
  | c :: s =>
      if bool_decide (c = "="%char) then Some ([], s)
      else match cutVar s with Some (k, v) => Some (c :: k, v) | None => None end
  end.

Lemma cutVar_line k v : ("="%char ∉ k) -> cutVar (k ++ #"=" ++ v) = Some (k, v).
Proof.
  induction k as [|c k IH]; intros Hk; [done|]. apply not_elem_of_cons in Hk as [Hc Hk]. cbn [app cutVar].
  rewrite bool_decide_eq_false_2 by congruence. by rewrite IH.
Qed.

Definition readLines (f : bytes) : Vars := list_to_map (omap cutVar (split_on newline f)).

Lemma readLines_text l : NoDup l.*1 -> Forall plain_var l -> readLines (envText l) = list_to_map l.
Proof.
  intros _ Hl. unfold readLines. f_equal. induction Hl as [|[k v] l [Hn (He & Hnk & _) Hv] Hl IH]; [done|].
  unfold envText. cbn [map concat]. unfold envLine at 1. cbn [fst snd] in *.
  assert (E : (k ++ #"=" ++ v ++ [newline]) ++ concat (map envLine l) = (k ++ #"=" ++ v) ++ newline :: envText l).
  { by rewrite <-!app_assoc. }
  rewrite E, split_on_app.
  - cbn [omap list_omap]. rewrite cutVar_line by done. by rewrite IH.
  - rewrite !not_elem_of_app. split_and!; [done| |done].
    intros Hx. apply (bool_decide_eq_true_2 _) in Hx. vm_compute in Hx. discriminate Hx.
Qed.

Definition lineRunner : Runner := {| readEnvFile := readLines; readEnvFile_text := readLines_text |}.

Lemma FormatInt_free c n : is_digit c = false -> c <> "-"%char -> c ∉ FormatInt n.
Proof.
  intros Hd Hm. assert (Hi : forall k, 0 <= k -> c ∉ itoa k).
  { intros k Hk Hc. destruct (itoa_digits k Hk) as [Hf _]. rewrite forallb_forall in Hf.
    apply list_elem_of_In in Hc. rewrite (Hf c Hc) in Hd. done. }
  unfold FormatInt. destruct (n <? 0) eqn:E; [|apply Hi; apply Z.ltb_ge in E; lia].
  apply Z.ltb_lt in E. intros [->|Hc]%elem_of_cons; [done|]. revert Hc. apply Hi. lia.
Qed.

(** The counts of a transfer as three numbers. *)
Definition countsText (st : TransferStats) : bytes :=
  FormatInt (ts_Files st) ++ ","%char :: FormatInt (ts_CompressedBytes st) ++ ","%char :: FormatInt (ts_UncompressedBytes st).

Definition countsRead (b : bytes) : result TransferStats :=
  match map ParseInt (split_on ","%char b) with
  | [Ok x; Ok y; Ok z] => Ok (mkStats x y z)
  | _ => Err (EMsg "invalid character")
  end.

Definition counts_ok (st : TransferStats) : Prop :=
  - 2 ^ 63 <= ts_Files st < 2 ^ 63 /\ - 2 ^ 63 <= ts_CompressedBytes st < 2 ^ 63 /\ - 2 ^ 63 <= ts_UncompressedBytes st < 2 ^ 63.

Lemma counts_roundtrip st : counts_ok st -> exists b, Ok (countsText st) = Ok b /\ b <> [] /\ countsRead b = Ok st.
Proof.
  destruct st as [x y z]. intros (H1 & H2 & H3). cbn [ts_Files ts_CompressedBytes ts_UncompressedBytes] in *.
  assert (Hf : forall n, ","%char ∉ FormatInt n) by (intros n; by apply FormatInt_free).
  eexists. split; [done|]. unfold countsText, countsRead. cbn [ts_Files ts_CompressedBytes ts_UncompressedBytes].
  split; [intros E; destruct (FormatInt x); discriminate E|].
  rewrite !split_on_app, split_on_no_sep by apply Hf. cbn [map]. by rewrite !ParseInt_FormatInt.
Qed.

Definition countsJSON : JSON TransferStats :=
  {| Marshal st := Ok (countsText st); Unmarshal := countsRead; json_ok := counts_ok; Unmarshal_Marshal := counts_roundtrip |}.

Section witnesses.
Let T0 := digitTimes.
Let Z0 := magicZstd.
Let S0 := stable_slice_sort.
Let R0 := lineRunner.
Let J0 : JSON FileMeta := tableJSON [].
Let J1 := countsJSON.
Let J2 : JSON (gmap bytes bytes) := tableJSON [].
Let J3 : JSON (list bytes) := tableJSON [].
Let J4 : JSON Extras := tableJSON [].
Let J5 : JSON localGocacheStats := tableJSON [counted #"unit" 50 (mkLocalStats (Some ∅))].
Let J8 : JSON (gmap bytes Z) := tableJSON [Settings.snapshot Settings.MaxFileBytes (Settings.mkHandler [] (Settings.mkSettings ∅ ∅) None)].

(** A network in which nobody answers. *)
Definition deadOut : Outside unit :=
  mkOutside unit (fun _ _ w => (w, None)) (fun _ _ w => (w, Ok 1)) (fun _ w => (w, None)) (fun _ _ w _ => (w, Err (EMsg "refused"))).

Definition exampleHost (environ : Vars) : Host :=
  mkHost (mkHostEnv environ (Ok #"/w") (Ok #"/home") (Ok #"/home/.cache")) (fun _ => Err ENotExist) #"/tmp" (Ok #"/bin/g") 7 50
    None None None (calmDir 18 50) calmWalk None (mkEnvFile None (fun _ => None) map_to_list).

Definition exampleConfig (n : Z) : githubActionsConfig :=
  mkConfig #"http://s/" #"tok" #"/c" #"unit" #"gocache" [] n 0 false false ∅ [].
Definition exampleContext : JobContext := mkContext #"c1" #"c0" #"o/r#7".
Definition firstEnviron : Vars := {[ #"GITHUB_ENV" := #"/env" ]}.

Lemma example_envFile environ : Getenv environ #"GITHUB_ENV" <> [] -> calmEnvFile (ho_envFile (exampleHost environ)) environ.
Proof. intros Hn. by split. Qed.

Definition secondEnviron : Vars := {[ #"GITHUB_ENV" := #"/env"; envGHACacheDir := #"/c"; envGHARemoteURL := #"http://s/" ]}.

Let J6 : JSON (gmap bytes testcachePkgKeys) := tableJSON [].
Let J7 : JSON (list KeyInspection) := tableJSON [].

Lemma example_stats (st : TransferStats) : exists b, @Marshal _ J1 st = Ok b.
Proof. by eexists. Qed.

Lemma a_broken_remote_fails_no_job_witness :
  (exists s', @initGocacheMode _ deadOut (exampleHost secondEnviron) #"v" T0 Z0 J0 J1 J2 (exampleConfig 5) exampleContext #"7-50" 50
     (mkStep tt ∅ []) = (s', Ok tt)) /\
  exists w', @doneGocacheMode _ deadOut (exampleHost secondEnviron) #"v" T0 Z0 J0 J3 J2 J4 J6 J7 (fun _ => false) elements
     (fun m => (map_to_list m).*1) (fun _ => #"u") (fun _ => Err ENotExist) ∅ tt = (w', Ok tt).
Proof.
  destruct (@a_broken_remote_fails_no_job _ deadOut (exampleHost secondEnviron) #"v" T0 Z0 J0 J1 J2 J3 J4 S0 J5 J6 J7 (fun _ => false) elements
    (fun m => (map_to_list m).*1) (fun _ => #"u") (fun _ => Err ENotExist) (exampleConfig 5) exampleContext #"7-50" 50 (mkStep tt ∅ []) ∅ tt
    (mkLocalDone (fun _ => (0, 0)) 18 None (fun _ => None)) #"/c") as (H1 & _ & H3 & _).
  - vm_compute. reflexivity.
  - reflexivity.
  - apply example_envFile. vm_compute. discriminate.
  - apply example_stats.
  - split; [exact H1|]. apply H3; vm_compute; discriminate.
Defined.

Lemma plain_vars_insert (k v : bytes) (m : Vars) : plain_var (k, v) -> plain_vars m -> plain_vars (<[k := v]> m).
Proof. intros Hk Hm k' v' [[<- <-]|[_ Hl]]%lookup_insert_Some; [done|by apply Hm]. Qed.

Lemma plain_var_check (k v : bytes) :
  bool_decide (k <> [] /\ ("="%char ∉ k) /\ (newline ∉ k) /\ ("<"%char ∉ k)) = true -> (newline ∉ v) -> plain_var (k, v).
Proof. intros (H1 & H2 & H3 & H4)%bool_decide_eq_true Hv. by split. Qed.

Lemma example_plain (st : TransferStats) json :
  @Marshal _ J1 st = Ok json -> plain_vars (@gocacheVars T0 J2 (exampleConfig 5) exampleContext #"/c" #"7-50" json 50).
Proof.
  intros [= <-]. unfold gocacheVars, setReportFilesEnv. rewrite bool_decide_eq_true_2 by done.
  unfold setNonEmpty. rewrite bool_decide_eq_true_2 by done. cbn [list_to_map foldr fst snd].
  assert (Hf : forall n, newline ∉ FormatInt n) by (intros n; by apply FormatInt_free).
  repeat (apply plain_vars_insert; [apply plain_var_check; [vm_compute; reflexivity|]|]).
  all: try (apply (bool_decide_eq_true_1 _); vm_compute; reflexivity).
  - unfold countsText. repeat (rewrite not_elem_of_app || rewrite not_elem_of_cons || split); first [apply Hf | unfold newline; discriminate].
  - intros k v Hk. by rewrite lookup_empty in Hk.
Qed.

Definition firstStep : Step unit * result unit :=
  @initGocacheMode _ deadOut (exampleHost firstEnviron) #"v" T0 Z0 J0 J1 J2 (exampleConfig 5) exampleContext #"7-50" 50 (mkStep tt ∅ []).

Definition lastHost : Host := exampleHost (@nextEnviron R0 (sp_env firstStep.1) firstEnviron).

Lemma last_step_knows_the_first_witness :
  firstStep.2 = Ok tt /\
  @doneGocacheMode _ deadOut lastHost #"v" T0 Z0 J0 J3 J2 J4 J6 J7 (fun _ => false) elements
     (fun m => (map_to_list m).*1) (fun _ => #"u") (fun _ => Err ENotExist) ∅ tt = (tt, Ok tt).
Proof.
  assert (E : firstStep.2 = Ok tt) by (vm_compute; reflexivity). split; [exact E|].
  rewrite (@last_step_knows_the_first _ deadOut (exampleHost firstEnviron) #"v" T0 Z0 J0 J1 J2 J3 J4 J6 J7 (fun _ => false) elements
    (fun m => (map_to_list m).*1) (fun _ => #"u") (fun _ => Err ENotExist) R0 lastHost firstEnviron (exampleConfig 5) exampleContext #"7-50" 50
    (mkStep tt ∅ []) firstStep.1 ∅ tt #"/c").
  - reflexivity.
  - vm_compute. reflexivity.
  - reflexivity.
  - apply example_envFile. vm_compute. discriminate.
  - reflexivity.
  - apply example_stats.
  - apply example_plain.
  - repeat split; discriminate.
  - vm_compute. split; [discriminate|reflexivity].
  - vm_compute. split; [discriminate|reflexivity].
  - change (firstStep = (firstStep.1, Ok tt)). rewrite <-E. apply surjective_pairing.
  - reflexivity.
Defined.

Definition openServer : SessionServer := mkSessionServer (HttpServer.mkAuth [] []) ∅ [].
Definition plainLimits : Settings.Handler := Settings.mkHandler [] (Settings.mkSettings ∅ ∅) None.
Definition serverOut : Outside SessionServer :=
  mkOutside _ (fun _ _ w => (w, None)) (fun _ _ w => (w, Ok 1)) (fun _ w => (w, None))
    (fun _ h w c => @serveSession J4 J8 #"v" 60 plainLimits h w c).

Lemma the_limit_of_a_job_witness :
  let '(w', cfg') := @resolveConfig _ serverOut (exampleHost firstEnviron) #"v" T0 J8 (exampleConfig (-1)) openServer in
  rq_MaxFileBytes (servedRequest plainLimits (jobRequest cfg' exampleContext)) = 3000000.
Proof.
  destruct (@resolveConfig _ serverOut (exampleHost firstEnviron) #"v" T0 J8 (exampleConfig (-1)) openServer) as [w' cfg'] eqn:E.
  destruct (@the_limit_of_a_job T0 J4 J8 #"v" 60 plainLimits serverOut (exampleHost firstEnviron) (exampleConfig (-1)) cfg' openServer w' exampleContext)
    as (_ & _ & H3 & _).
  - done.
  - apply list_elem_of_here.
  - exact E.
  - assert (E2 : cfg' = snd (w', cfg')) by done. rewrite E2, <-E. split; vm_compute; reflexivity.
  - apply H3; [reflexivity|]. right. assert (E2 : cfg' = snd (w', cfg')) by done. rewrite E2, <-E. vm_compute. discriminate.
Defined.

Lemma repositories_have_scopes_of_their_own_witness :
  exists d1 d2,
    ManifestPaths.manifestScopeDir (repoScopedBuildType {[ #"GITHUB_REPOSITORY" := #"o/a b" ]} #"unit") = Ok d1 /\
    ManifestPaths.manifestScopeDir (repoScopedBuildType {[ #"GITHUB_REPOSITORY" := #"o/c" ]} #"unit") = Ok d2 /\ d1 <> d2.
Proof.
  destruct (repositories_have_scopes_of_their_own {[ #"GITHUB_REPOSITORY" := #"o/a b" ]} {[ #"GITHUB_REPOSITORY" := #"o/c" ]}
    #"o/a b" #"o/c" #"unit") as (d1 & d2 & E1 & E2 & E).
  - split; [reflexivity|]. by exists "o"%char, #"/a b".
  - split; [reflexivity|]. by exists "o"%char, #"/c".
  - reflexivity.
  - vm_compute. discriminate.
  - vm_compute. discriminate.
  - exists d1, d2. split; [exact E1|]. split; [exact E2|]. intros Ed%E. vm_compute in Ed. discriminate Ed.
Defined.

Definition localEnviron : Vars :=
  {[ envGHACacheDir := #"/c"; envGHABuildType := #"unit"; envGHAMaxCacheBytes := #"10" ]}.

Lemma local_job_leaves_a_bounded_directory_witness :
  exists d' entries,
    @doneLocalGocacheMode _ deadOut (exampleHost localEnviron) #"v" T0 Z0 J0 J3 J2 J4 S0 J5 (fun _ => false) elements (fun _ => #"u")
      (fun _ => Err ENotExist) (mkLocalDone (fun _ => (0, 0)) 18 None (fun _ => None)) grownDir tt = (d', tt, Ok tt) /\
    scanCacheDir (fun _ => (0, 0)) calmWalk d' = Ok entries /\ d' !! #"aa/old" = None.
Proof.
  destruct (@local_job_leaves_a_bounded_directory _ T0 Z0 J0 J2 J3 J4 S0 J5 deadOut (exampleHost localEnviron) #"v" (fun _ => false) elements
    (fun _ => #"u") (fun _ => Err ENotExist) (mkLocalDone (fun _ => (0, 0)) 18 None (fun _ => None)) grownDir tt (mkLocalStats (Some ∅)) 10)
    as (d' & entries & E1 & _ & E3 & _).
  - vm_compute. discriminate.
  - vm_compute. discriminate.
  - reflexivity.
  - reflexivity.
  - reflexivity.
  - vm_compute. reflexivity.
  - apply list_elem_of_here.
  - intros e He. vm_compute in He. discriminate He.
  - vm_compute. reflexivity.
  - reflexivity.
  - exists d', entries. split; [exact E1|]. split; [exact E3|].
    apply (f_equal (fun x => fst (fst x))) in E1. cbn [fst] in E1. rewrite <-E1. vm_compute. reflexivity.
Defined.
End witnesses.
