(* ===== verification/ProxyStats.v ===== *)
(** The statistics of src/internal/local/proxy.go and src/internal/http/client.go: what
    the proxy and its upstream report of themselves, the summary of a run, and its text.
    The counters are those of the machine in Proxy.v; the theorem says that they add up,
    whatever the schedule. *)
From S2P Require Import Prelude.
From S2P Require Import GoStrings.
From S2P Require Import Wire.
From S2P Require Import CacheWire.
From S2P Require Import LocalStore.
From S2P Require Import LocalServe.
From S2P Require Import Proxy.
From S2P Require Import ProxyServe.
From S2P Require Import Float64.
From S2P Require Import ByteSizes.
From S2P Require Import GithubActions.

(** ** The proxy *)

(** [preloadUsageStats]: the actions that were preloaded, and those of them that were hit. *)
Definition preloadUsageStats (p : Proxy) : Z * Z := (Z.of_nat (size (px_preloaded p)), Z.of_nat (size (px_usedPreloaded p))).

(** [Proxy.Stats]. *)
Definition proxyStats (p : Proxy) : gmap bytes bytes :=
  let s := px_stats p in
  let '(preloadedItems, preloadUsed) := preloadUsageStats p in
  let preloadUnused := preloadedItems - preloadUsed in
  list_to_map [
    (#"lookups", FormatInt (st_lookups s));
    (#"hits", FormatInt (st_hits s));
    (#"hit_rate", percent (st_hits s) (st_lookups s));
    (#"preload_hits", FormatInt (st_preloadHits s));
    (#"preload_hit_rate", percent (st_preloadHits s) (st_lookups s));
    (#"preloaded_items", FormatInt preloadedItems);
    (#"preload_used", FormatInt preloadUsed);
    (#"preload_unused", FormatInt preloadUnused);
    (#"preload_unused_rate", percentInt preloadUnused preloadedItems);
    (#"regular_hits", FormatInt (st_regularHits s));
    (#"regular_hit_rate", percent (st_regularHits s) (st_lookups s));
    (#"misses", FormatInt (st_misses s));
    (#"miss_rate", percent (st_misses s) (st_lookups s));
    (#"puts", FormatInt (st_puts s));
    (#"putsExist", FormatInt (st_putsExist s));
    (#"skipped_puts", FormatInt (st_skippedPuts s))].

(** A field of an upstream's statistics; one that is not there is empty. *)
Definition statOf (st : gmap bytes bytes) (k : bytes) : bytes := default [] (st !! k).

(** [Proxy.StatsSummary], with the statistics of an upstream that has some. *)
Definition proxySummary (upstream : option (gmap bytes bytes)) (p : Proxy) : StatsSummary :=
  let s := px_stats p in
  let st := default ∅ upstream in
  mkSummary (st_hits s) (st_misses s) (st_puts s) (percent (st_hits s) (st_hits s + st_misses s)) 0 (st_batches s)
    (statOf st #"bytes_read") (statOf st #"bytes_written") (statOf st #"get_total_time") (statOf st #"get_cnt")
    (statOf st #"preload_bytes") [] 0.

(** [StatsSummary.String]. *)
Definition when (b : bool) (s : bytes) : bytes := if b then s else [].
Definition nonEmpty (s : bytes) : bool := negb (bool_decide (s = [])).

Definition summaryString (s : StatsSummary) : bytes :=
  #"hits=" ++ FormatInt (ss_Hits s) ++ #" misses=" ++ FormatInt (ss_Misses s) ++ #" puts=" ++ FormatInt (ss_Puts s) ++
  #" hit_rate=" ++ ss_HitRate s ++
  when (0 <? ss_Invocations s) (#" invocations=" ++ FormatInt (ss_Invocations s)) ++
  when (nonEmpty (ss_BytesRead s) || nonEmpty (ss_BytesWritten s))
    (#" bytes_read=" ++ ss_BytesRead s ++ #" bytes_written=" ++ ss_BytesWritten s) ++
  when (0 <? ss_RoundTrips s) (#" round_trips=" ++ FormatInt (ss_RoundTrips s)) ++
  when (0 <? ss_ForcedCloses s) (#" forced_closes=" ++ FormatInt (ss_ForcedCloses s)) ++
  when (nonEmpty (ss_GetTotalTime s)) (#" round_trip_time=" ++ ss_GetTotalTime s) ++
  when (nonEmpty (ss_TotalTime s)) (#" total_time=" ++ ss_TotalTime s).

(** The lines of a map in the order of its keys, for [PrintStats]. *)
Definition statLine (st : gmap bytes bytes) (k : bytes) : bytes := #" " ++ k ++ #": " ++ statOf st k.
Definition statLines (st : gmap bytes bytes) (ks : list bytes) : bytes := concat (map (statLine st) (stable_sort bytes_lt ks)).

(** [Proxy.PrintStats]: the proxy, its upstream if that has statistics, the disk. *)
Definition printStats (upstream : option (gmap bytes bytes)) (disk : gmap bytes bytes) (p : Proxy) : bytes :=
  statLines (proxyStats p) (map fst (map_to_list (proxyStats p))) ++
  match upstream with
  | Some st => newline :: #"upstream:" ++ statLines st (filter (fun k => k <> #"preloaded") (map fst (map_to_list st)))
  | None => []
  end ++
  newline :: #"disk:" ++ statLines disk (map fst (map_to_list disk)).

(** ** The client *)

(** The counters of a client; the latencies are estimated by a library, and come as the
    texts of their percentiles. *)
Record ClientCounters := mkCounters {
  cc_bytesRead : Z;
  cc_bytesWritten : Z;
  cc_preloadBytes : Z;
  cc_preloadItems : Z;
  cc_getCnt : Z;
  cc_getReqCnt : Z;
  cc_putCnt : Z;
  cc_getTotalNs : Z;
  cc_preloadSources : bytes;
  cc_preloadQueueWait : bytes;
  cc_preloadPrepareTime : bytes;
  cc_preloadTotalTime : bytes;
}.

(** [Client.Stats]. *)
Definition clientStats (DurationString : Z -> bytes) (get95 put95 : bytes) (c : ClientCounters) : gmap bytes bytes :=
  list_to_map [
    (#"bytes_read", byteSize (cc_bytesRead c));
    (#"bytes_written", byteSize (cc_bytesWritten c));
    (#"preload_bytes", byteSize (cc_preloadBytes c));
    (#"preload_sources", cc_preloadSources c);
    (#"preload_queue_wait", cc_preloadQueueWait c);
    (#"preload_prepare_time", cc_preloadPrepareTime c);
    (#"preload_total_time", cc_preloadTotalTime c);
    (#"preloaded", FormatInt (cc_preloadItems c));
    (#"get_95%", get95 ++ #"ms");
    (#"get_cnt", FormatInt (cc_getCnt c));
    (#"get_req_cnt", FormatInt (cc_getReqCnt c));
    (#"get_total_time", DurationString (cc_getTotalNs c));
    (#"put_95%", put95 ++ #"ms");
    (#"put_cnt", FormatInt (cc_putCnt c))].

(** ** The counters add up *)

(** The answers that are errors. *)
Definition failedAnswers (rs : list Response) : list Response := filter (fun r => rs_Err r <> None) rs.

(** Every hit is of one kind; a counted answer is an answer; those that are not counted
    are errors; and only what was preloaded was hit as preloaded. *)
Record counted (p : Proxy) : Prop := {
  ct_kinds : st_hits (px_stats p) = st_preloadHits (px_stats p) + st_regularHits (px_stats p);
  ct_answers : st_hits (px_stats p) + st_misses (px_stats p) <= Z.of_nat (length (px_resps p)) <=
    st_hits (px_stats p) + st_misses (px_stats p) + Z.of_nat (length (failedAnswers (px_resps p)));
  ct_preloaded : px_usedPreloaded p ⊆ px_preloaded p;
  ct_nonneg : 0 <= st_hits (px_stats p) /\ 0 <= st_misses (px_stats p);
}.

(** The same answers and counts. *)
Lemma counted_same p q :
  st_hits (px_stats q) = st_hits (px_stats p) -> st_misses (px_stats q) = st_misses (px_stats p) ->
  st_preloadHits (px_stats q) = st_preloadHits (px_stats p) -> st_regularHits (px_stats q) = st_regularHits (px_stats p) ->
  px_resps q = px_resps p -> px_usedPreloaded q = px_usedPreloaded p -> px_preloaded q = px_preloaded p -> counted p -> counted q.
Proof. intros E1 E2 E3 E4 E5 E6 E7 [H1 H2 H3 H4]. by split; rewrite ?E1, ?E2, ?E3, ?E4, ?E5, ?E6, ?E7. Qed.

(** Some answers more, all but the errors of them counted. *)
Lemma counted_more p q (rs : list Response) (h m : Z) :
  counted p -> px_resps q = px_resps p ++ rs ->
  st_hits (px_stats q) = st_hits (px_stats p) + h -> st_misses (px_stats q) = st_misses (px_stats p) + m ->
  st_hits (px_stats q) = st_preloadHits (px_stats q) + st_regularHits (px_stats q) ->
  px_usedPreloaded q ⊆ px_preloaded q ->
  0 <= h -> 0 <= m -> h + m <= Z.of_nat (length rs) <= h + m + Z.of_nat (length (failedAnswers rs)) -> counted q.
Proof.
  intros [H1 H2 H3 H4] Er Eh Em Hk Hu Hh Hm Hc. split; [done| |done|lia].
  rewrite Er, Eh, Em. unfold failedAnswers in *. rewrite filter_app, !length_app. lia.
Qed.

Lemma length_respondAll reqs a rs : length (respondAll reqs a rs) = length (reqsByAction reqs a).
Proof. apply length_map. Qed.

Lemma respondAll_failed reqs a rs : rs_Err rs <> None -> failedAnswers (respondAll reqs a rs) = respondAll reqs a rs.
Proof. intros Hr. apply filter_all. by intros x (r & -> & _)%list_elem_of_fmap. Qed.

Lemma recordHitKind_counts p a :
  px_resps (recordHitKind p a) = px_resps p /\ st_hits (px_stats (recordHitKind p a)) = st_hits (px_stats p) /\
  st_misses (px_stats (recordHitKind p a)) = st_misses (px_stats p) /\
  st_preloadHits (px_stats (recordHitKind p a)) + st_regularHits (px_stats (recordHitKind p a)) =
    st_preloadHits (px_stats p) + st_regularHits (px_stats p) + 1 /\
  (px_usedPreloaded p ⊆ px_preloaded p -> px_usedPreloaded (recordHitKind p a) ⊆ px_preloaded (recordHitKind p a)).
Proof.
  unfold recordHitKind. case_bool_decide as Ha; cbn; split_and!; try lia; try done. case_bool_decide; [done|]. set_solver.
Qed.

Section counting.
Context `{Zstd} (cf : Config) (pp : ProxyParams).

#[local] Hint Resolve ct_preloaded : core.

Lemma lookup_counted p req now total p' : counted p -> Lookup cf pp true p req now total = Some p' -> counted p'.
Proof.
  intros Hc. unfold Lookup. set (q := recordUsedActionID p (rq_ActionID req)).
  assert (Hq : counted q) by (subst q; unfold recordUsedActionID; case_bool_decide; [done|]; by apply (counted_same p)).
  clearbody q. cbn [negb]. destruct (shouldSkipRemoteGet _ _).
  - destruct (Get cf _ req now) as [d rs]. destruct (rs_Miss rs); intros [= <-]; assert (Hk := ct_kinds _ Hq).
    + apply (counted_more q _ [rs] 0 1 Hq); cbn; try done; try lia. apply Hq.
    + destruct (recordHitKind_counts (add_stats (set_disk (add_stats q 0 1 0 0 0 0 0 0 0 0) d) 0 0 1 0 0 0 0 0 0 0) (rq_ActionID req))
        as (E1 & E2 & E3 & E4 & E5).
      apply (counted_more q _ [rs] 1 0 Hq); cbn -[recordHitKind] in *; rewrite ?E1, ?E2, ?E3; try lia; [done|apply E5, Hq].
  - destruct (_ || _); [done|]. intros [= <-]. apply (counted_same q); cbn; (lia || done).
Qed.

Lemma recv_counted p now p' : counted p -> resolveRecv cf p now = Some p' -> counted p'.
Proof.
  intros Hc. unfold resolveRecv. destruct (px_phase p); [|done..]. destruct (px_lookup p) as [|req q].
  { destruct (px_closed p); [|done]. intros [= <-]. by apply (counted_same p). }
  destruct (rq_ID req =? 0); [intros [= <-]; by apply (counted_same p)|].
  destruct (Get cf _ req now) as [d rs]. destruct (rs_Miss rs); intros [= <-]; [by apply (counted_same p)|].
  destruct (recordHitKind_counts (add_stats (set_disk (set_lookup p q) d) 0 0 1 0 0 0 0 0 0 0) (rq_ActionID req))
    as (E1 & E2 & E3 & E4 & E5). assert (Hk := ct_kinds _ Hc).
  apply (counted_more p _ [rs] 1 0 Hc); cbn -[recordHitKind] in *; rewrite ?E1, ?E2, ?E3; try lia; [done|apply E5, Hc].
Qed.

Lemma callback_counted p i a p' : counted p -> batchCallback cf p i a = Some p' -> px_panicked p' = false -> counted p'.
Proof.
  intros Hc. unfold batchCallback. destruct (px_running p !! i) as [[reqs [[|item items]|] ans]|]; try done. assert (Hk := ct_kinds _ Hc).
  set (q := set_resolver _ _ _ _). assert (Hq : counted q) by (by apply (counted_same p)).
  destruct (ri_Miss _).
  { intros [= <-] _. apply (counted_more p _ (respondAll reqs (ri_ActionID (ri_meta item)) missResponse) 0
      (Z.of_nat (length (reqsByAction reqs (ri_ActionID (ri_meta item)))))); cbn; try done; try lia; [apply Hc|]. rewrite length_respondAll. lia. }
  destruct (match ItemUncompressedBodyReader item with Err _ => _ | Ok _ => _ end) as [b|e].
  - destruct (reqsByAction reqs (ri_ActionID (ri_meta item))) as [|req l] eqn:El; [by intros [= <-]|].
    destruct (putOne cf _ _ b a) as [d rs]. intros [= <-] _.
    apply (counted_more p _ (respondAll reqs (ri_ActionID (ri_meta item)) rs) (Z.of_nat (length (req :: l))) 0 Hc);
      cbn -[length]; try done; simpl length; try lia; [apply Hc|]. rewrite length_respondAll, El. simpl length. lia.
  - intros [= <-] _. apply (counted_more p _ (respondAll reqs (ri_ActionID (ri_meta item)) (errResponse 0 e)) 0 0 Hc); cbn; try done; try lia; [apply Hc|].
    rewrite respondAll_failed by done. lia.
Qed.

Lemma finish_counted p i order p' : counted p -> batchFinish true p i order = Some p' -> counted p'.
Proof.
  intros Hc. unfold batchFinish. destruct (px_running p !! i) as [[reqs [[|item items]|] ans]|]; try done. assert (Hk := ct_kinds _ Hc).
  destruct (_ && _); [|done]. set (rs := mjoin _). intros [= <-].
  apply (counted_more p _ rs 0 (Z.of_nat (length rs)) Hc); cbn; try done; try lia. apply Hc.
Qed.

Lemma step_counted p e p' : counted p -> step cf pp true p e = Some p' -> px_panicked p' = false -> counted p'.
Proof.
  intros Hc. unfold step. destruct (px_panicked p); [done|].
  destruct e as [req now total|req body a|now| | |i items|i a|i order|now|].
  - intros Hs _. by eapply lookup_counted.
  - intros Hs _. unfold Put in Hs. destruct (Get cf _ req _) as [d rs]. destruct (negb _).
    + injection Hs as <-. apply (counted_same p); cbn; (lia || done).
    + destruct (putOne cf _ req body a) as [d' rs']. destruct (_ || _); [done|]. injection Hs as <-.
      apply (counted_same p); cbn; (lia || done).
  - intros Hs _. by eapply recv_counted.
  - unfold resolveTick. destruct (px_phase p), (px_batch p); try done. intros [= <-] _. by apply (counted_same p).
  - unfold dispatchBatch. destruct (px_phase p); try done. destruct (_ <? _); [|done]. intros [= <-] _. by apply (counted_same p).
  - unfold batchAsk. destruct (px_running p !! i) as [[reqs [?|] ans]|]; try done. intros [= <-] _.
    apply (counted_same p); cbn; (lia || done).
  - by apply callback_counted.
  - intros Hs _. by eapply finish_counted.
  - intros Hs _. unfold consumePut in Hs. destruct (px_consumed p); [done|]. destruct (px_put p) as [|req q].
    + destruct (px_closed p); [|done]. injection Hs as <-. by apply (counted_same p).
    + destruct (Get cf _ req now) as [d rs].
      destruct (_ && _); [injection Hs as <-|destruct (_ || _); injection Hs as <-]; apply (counted_same p); cbn; (lia || done).
  - destruct (px_closed p); [done|]. intros [= <-] _. by apply (counted_same p).
Qed.

Lemma run_counted p es p' :
  proxy_ok true p [] \/ (exists ids, proxy_ok true p ids) -> counted p -> polite_run cf pp true p es -> run cf pp true p es = Some p' -> counted p'.
Proof.
  intros Hok. assert (Hx : exists ids, proxy_ok true p ids) by (destruct Hok; eauto). clear Hok. destruct Hx as [ids Hok].
  revert p ids Hok. induction es as [|e es IH]; intros p ids Hok Hc; simpl; [by intros _ [= <-]|].
  intros [Hp Hes]. destruct (step cf pp true p e) as [p1|] eqn:E; [|done]. intros Hr.
  assert (Hok1 := step_ok cf pp true p ids e p1 Hok Hp E).
  eapply (IH p1 _ Hok1); [|by apply Hes|done]. eapply step_counted; [done|exact E|]. apply (pk_calm _ _ _ Hok1).
Qed.

(** The counter of the lookups. *)
Lemma step_lookups p e p' : step cf pp true p e = Some p' ->
  st_lookups (px_stats p') = st_lookups (px_stats p) + Z.of_nat (length (asked_of e)).
Proof.
  assert (Hk : forall q a, st_lookups (px_stats (recordHitKind q a)) = st_lookups (px_stats q)).
  { intros q a. unfold recordHitKind. case_bool_decide; cbn; lia. }
  unfold step. destruct (px_panicked p); [done|].
  destruct e as [req now total|req body a|now| | |i items|i a|i order|now|]; cbn [asked_of length].
  - unfold Lookup, recordUsedActionID. cbn [negb].
    destruct (bool_decide _), (shouldSkipRemoteGet _ _); try destruct (Get cf _ req now) as [d rs]; try destruct (rs_Miss rs);
      try destruct (_ || _); intros Hs; try done; injection Hs as <-; cbn -[recordHitKind]; rewrite ?Hk; cbn; lia.
  - unfold Put. destruct (Get cf _ req _) as [d rs]. destruct (negb _); [intros [= <-]; cbn; lia|].
    destruct (putOne cf _ req body a) as [d' rs']. destruct (_ || _); [done|]. intros [= <-]. cbn. lia.
  - unfold resolveRecv. destruct (px_phase p); try done. destruct (px_lookup p) as [|req q]; [destruct (px_closed p); [|done]; intros [= <-]; cbn; lia|].
    destruct (rq_ID req =? 0); [intros [= <-]; cbn; lia|]. destruct (Get cf _ req now) as [d rs].
    destruct (rs_Miss rs); intros [= <-]; cbn -[recordHitKind]; rewrite ?Hk; cbn; lia.
  - unfold resolveTick. destruct (px_phase p), (px_batch p); try done. intros [= <-]. cbn. lia.
  - unfold dispatchBatch. destruct (px_phase p); try done. destruct (_ <? _); [|done]. intros [= <-]. cbn. lia.
  - unfold batchAsk. destruct (px_running p !! i) as [[reqs [?|] ans]|]; try done. intros [= <-]. cbn. lia.
  - unfold batchCallback. destruct (px_running p !! i) as [[reqs [[|item items]|] ans]|]; try done.
    destruct (ri_Miss _); [intros [= <-]; cbn; lia|].
    destruct (match ItemUncompressedBodyReader item with Err _ => _ | Ok _ => _ end) as [b|e]; [|intros [= <-]; cbn; lia].
    destruct (reqsByAction reqs _) as [|req l]; [intros [= <-]; cbn; lia|]. destruct (putOne cf _ _ b a) as [d rs]. intros [= <-]. cbn. lia.
  - unfold batchFinish. destruct (px_running p !! i) as [[reqs [[|item items]|] ans]|]; try done.
    destruct (_ && _); [|done]. intros [= <-]. cbn. lia.
  - unfold consumePut. destruct (px_consumed p); [done|]. destruct (px_put p) as [|req q].
    + destruct (px_closed p); [|done]. intros [= <-]. cbn. lia.
    + destruct (Get cf _ req now) as [d rs]. destruct (_ && _); [intros [= <-]; cbn; lia|]. destruct (_ || _); intros [= <-]; cbn; lia.
  - destruct (px_closed p); [done|]. intros [= <-]. cbn. lia.
Qed.

Lemma run_lookups p es p' : run cf pp true p es = Some p' ->
  st_lookups (px_stats p') = st_lookups (px_stats p) + Z.of_nat (length (es ≫= asked_of)).
Proof.
  revert p. induction es as [|e es IH]; intros p; simpl; [intros [= <-]; lia|].
  destruct (step cf pp true p e) as [p1|] eqn:E; [|done]. intros Hr. rewrite (IH p1 Hr), (step_lookups p e p1 E).
  rewrite length_app. unfold mbind. lia.
Qed.

Lemma counted_new d : counted (newProxy d).
Proof. split; cbn; (lia || done). Qed.

(** C19: the statistics add up.  Whatever the schedule and the answers of the upstream,
    every lookup is counted once; a hit is a hit of one kind; the hits, the misses and
    the requests that wait are the lookups, but for answers that are errors; and no
    action is hit as preloaded that was not.  So when nothing waits and nothing failed,
    the hit rate that the proxy and the summary of its run report is the share of the
    lookups that were hits, to the nearest tenth of a percent. *)
Theorem statistics_add_up d es p upstream
    (Hpolite : polite_run cf pp true (newProxy d) es) (Hrun : run cf pp true (newProxy d) es = Some p) :
  let s := px_stats p in
  let waiting := Z.of_nat (length (pending p)) in
  let failed := Z.of_nat (length (failedAnswers (px_resps p))) in
  st_lookups s = Z.of_nat (length (es ≫= asked_of)) /\
  st_hits s = st_preloadHits s + st_regularHits s /\
  st_hits s + st_misses s + waiting <= st_lookups s <= st_hits s + st_misses s + waiting + failed /\
  0 <= snd (preloadUsageStats p) <= fst (preloadUsageStats p) /\
  (waiting = 0 -> failed = 0 -> 0 < st_lookups s < 2 ^ 40 ->
   exists t, proxyStats p !! #"hit_rate" = Some (showTenths false t ++ #"%") /\
     ss_HitRate (proxySummary upstream p) = showTenths false t ++ #"%" /\
     0 <= t <= 1000 /\ 2 * Z.abs (t * st_lookups s - 1000 * st_hits s) <= st_lookups s).
Proof.
  assert (Hok := run_ok cf pp true _ [] es p (proxy_ok_init true d) Hpolite Hrun).
  destruct (run_counted (newProxy d) es p (or_introl (proxy_ok_init true d)) (counted_new d) Hpolite Hrun) as [H1 H2 H3 [H4 H5]].
  assert (Hl := run_lookups _ _ _ Hrun). cbn [px_stats newProxy st_lookups] in Hl. rewrite Z.add_0_l in Hl.
  assert (Hlen := Permutation_length (pk_ids _ _ _ Hok)). cbn [app] in Hlen.
  rewrite length_app, length_map in Hlen. unfold answered in Hlen. rewrite length_map in Hlen.
  intros s waiting failed. subst s waiting failed. split; [done|]. split; [done|]. split; [lia|]. split.
  - cbn [preloadUsageStats fst snd]. apply subseteq_size in H3. lia.
  - intros Hw Hf Hrange. assert (E : st_hits (px_stats p) + st_misses (px_stats p) = st_lookups (px_stats p)) by lia.
    destruct (percent_close (st_hits (px_stats p)) (st_lookups (px_stats p)) ltac:(lia) ltac:(lia)) as (t & Ht & Ht1 & Ht2).
    exists t. split; [|split; [|done]].
    + unfold proxyStats. destruct (preloadUsageStats p) as [n m]. rewrite <-Ht. reflexivity.
    + unfold proxySummary. cbn [ss_HitRate]. by rewrite E.
Qed.
End counting.

(** ** Examples *)

Definition exampleRun : option Proxy := run (H := magicZstd) diskConfig exampleParams true (newProxy emptyStore) exampleSession.

Lemma exampleRun_counts :
  (run (H := magicZstd) diskConfig exampleParams true (newProxy emptyStore) exampleSession ≫= fun p => Some (length (pending p), length (failedAnswers (px_resps p)), st_lookups (px_stats p), st_hits (px_stats p))) =
    Some (0%nat, 0%nat, 3, 2).
Proof. vm_compute. reflexivity. Qed.

Lemma statistics_add_up_witness :
  exists p t, run (H := magicZstd) diskConfig exampleParams true (newProxy emptyStore) exampleSession = Some p /\ ss_HitRate (proxySummary None p) = showTenths false t ++ #"%" /\ 2 * Z.abs (t * 3 - 1000 * 2) <= 3.
Proof.
  destruct (ran (run (H := magicZstd) diskConfig exampleParams true (newProxy emptyStore) exampleSession)) as [p Hp];
    [vm_compute; reflexivity|].
  assert (Hf := exampleRun_counts). rewrite Hp in Hf. simpl in Hf. injection Hf as F1 F2 F3 F4.
  destruct (statistics_add_up (H := magicZstd) diskConfig exampleParams emptyStore exampleSession p None) as (_ & _ & _ & _ & Hr); [|exact Hp|].
  { apply polite_runb_ok. vm_compute. reflexivity. }
  rewrite F1, F2, F3, F4 in Hr. destruct Hr as (t & _ & H1 & _ & H2); [reflexivity|reflexivity|lia|].
  exists p, t. split; [exact Hp|]. split; [exact H1|exact H2].
Defined.

Example example_summary : (fun p => summaryString (proxySummary None p)) <$> exampleRun =
  Some #"hits=2 misses=1 puts=1 hit_rate=66.7% round_trips=1".
Proof. vm_compute. reflexivity. Qed.
