(* ===== verification/JobEnd.v ===== *)
(** The end of a job in direct mode, of src/internal/local/github_actions.go: every run of
    the go command's helper appends its summary to a file, the last step reads the file
    back, adds the summaries up and reports them with the session; and which last step a
    job takes. *)
From S2P Require Import Prelude.
From S2P Require Import GoStrings.
From S2P Require Import GoPath.
From S2P Require Import AppendLog.
From S2P Require Import Wire.
From S2P Require Import HttpNet.
From S2P Require Import Manifests.
From S2P Require Import ClientFiles.
From S2P Require Import GoCacheRestore.
From S2P Require Import GocacheStats.
From S2P Require Import HttpSession.
From S2P Require Import ByteSizes.
From S2P Require Import GithubActions.
From S2P Require Import ProxyStats.

(** ** The summaries of the runs *)

Definition quietRunStatsFilename : bytes := #".gocacheprog-run-stats.jsonl".

Record directRunRecord := mkRunRecord { dr_Summary : StatsSummary; dr_ParentPID : Z; dr_ParentCmd : bytes }.

#[export] Instance StatsSummary_eq_dec : EqDecision StatsSummary.
Proof. solve_decision. Defined.
#[export] Instance directRunRecord_eq_dec : EqDecision directRunRecord.
Proof. solve_decision. Defined.

(** [parentCommandLine]: the arguments of the parent end in NUL bytes. *)
Definition nul : ascii := ascii_of_nat 0.
Fixpoint dropNuls (s : bytes) : bytes := match s with c :: t => if bool_decide (c = nul) then dropNuls t else s | [] => [] end.
Definition parentCommandLine (readFile : bytes -> result bytes) (ppid : Z) : bytes :=
  match readFile (#"/proc/" ++ FormatInt ppid ++ #"/cmdline") with
  | Err _ => []
  | Ok data => Join (split_on nul (reverse (dropNuls (reverse data)))) #" "
  end.

(** Durations as text. *)
Class Durations := {
  DurationString : Z -> bytes;
  ParseDuration : bytes -> result Z;
  ParseDuration_String d : - 2 ^ 63 <= d < 2 ^ 63 -> ParseDuration (DurationString d) = Ok d;
  DurationString_some d : DurationString d <> [];
}.

Section runs.
Context `{JSON directRunRecord}.

(** [AppendQuietRunStats], with what the process sees of its parent. *)
Definition AppendQuietRunStats (readFile : bytes -> result bytes) (ppid : Z) (af : AppendFaults) (file : option bytes)
    (dir : bytes) (summary : StatsSummary) : option bytes * result unit :=
  if bool_decide (dir = []) then (file, Ok tt)
  else match Marshal (mkRunRecord summary ppid (parentCommandLine readFile ppid)) with
       | Err e => (file, Err e)
       | Ok data => appendFile af file (data ++ [newline])
       end.

(** The records of the file; a line that is no record is skipped. *)
Definition readRecords (data : bytes) : list directRunRecord :=
  omap (fun line => if bool_decide (line = []) then None
                    else match Unmarshal (A := directRunRecord) line with Ok r => Some r | Err _ => None end)
    (split_on newline (TrimSpace data)).
End runs.

(** ** Adding up *)

Section sums.
Context `{Durations} `{FloatHost}.

(** The sums of [sumStatsSummaries], each an [int64], and whether any size was read. *)
Record sums := mkSums {
  sm_hits : Z; sm_misses : Z; sm_puts : Z; sm_roundTrips : Z; sm_time : Z; sm_read : Z; sm_written : Z; sm_haveBytes : bool }.

Definition addText (parse : bytes -> result Z) (text : bytes) (n : Z) : Z :=
  if bool_decide (text = []) then n else match parse text with Ok m => i64 (n + m) | Err _ => n end.
Definition isRead (parse : bytes -> result Z) (text : bytes) : bool :=
  negb (bool_decide (text = [])) && match parse text with Ok _ => true | Err _ => false end.

Definition addSummary (a : sums) (s : StatsSummary) : sums :=
  mkSums (i64 (sm_hits a + ss_Hits s)) (i64 (sm_misses a + ss_Misses s)) (i64 (sm_puts a + ss_Puts s))
    (i64 (sm_roundTrips a + ss_RoundTrips s)) (addText ParseDuration (ss_GetTotalTime s) (sm_time a))
    (addText parseByteSize (ss_BytesRead s) (sm_read a)) (addText parseByteSize (ss_BytesWritten s) (sm_written a))
    (sm_haveBytes a || isRead parseByteSize (ss_BytesRead s) || isRead parseByteSize (ss_BytesWritten s)).

Definition sumStatsSummaries (summaries : list StatsSummary) : StatsSummary :=
  let a := foldl addSummary (mkSums 0 0 0 0 0 0 0 false) summaries in
  mkSummary (sm_hits a) (sm_misses a) (sm_puts a) (percent (sm_hits a) (i64 (sm_hits a + sm_misses a))) 0 (sm_roundTrips a)
    (if sm_haveBytes a then formatByteSize (sm_read a) else []) (if sm_haveBytes a then formatByteSize (sm_written a) else [])
    (if 0 <? sm_time a then DurationString (sm_time a) else []) [] [] [] 0.

(** [logParentCommandBreakdown]: how many runs each command made, most first. *)
Definition parentKey (r : directRunRecord) : bytes :=
  if bool_decide (dr_ParentCmd r = []) then #"(unknown, parent_pid=" ++ FormatInt (dr_ParentPID r) ++ #")" else dr_ParentCmd r.
Definition parentLess (a b : bytes * Z) : bool :=
  if negb (a.2 =? b.2) then b.2 <? a.2 else bytes_lt a.1 b.1.
Definition countParent (m : gmap bytes Z) (r : directRunRecord) : gmap bytes Z := <[parentKey r := default 0 (m !! parentKey r) + 1]> m.
Definition parentCounts (records : list directRunRecord) : gmap bytes Z := foldl countParent ∅ records.
Definition logParentCommandBreakdown (records : list directRunRecord) : list (bytes * Z) :=
  stable_sort parentLess (map_to_list (parentCounts records)).

(** The summary of the job: of one run as it is, of more their sum; the total time is set
    when the start of the job is known. *)
Definition withTotalTime (elapsed : option Z) (s : StatsSummary) : StatsSummary :=
  match elapsed with
  | None => s
  | Some t => mkSummary (ss_Hits s) (ss_Misses s) (ss_Puts s) (ss_HitRate s) (ss_Invocations s) (ss_RoundTrips s) (ss_BytesRead s)
                (ss_BytesWritten s) (ss_GetTotalTime s) (ss_GetCount s) (ss_PreloadedBytes s) (DurationString t) (ss_ForcedCloses s)
  end.

Definition finalSummary (elapsed : option Z) (records : list directRunRecord) : StatsSummary :=
  match records with
  | [] => no_summary
  | [r] => withTotalTime elapsed (dr_Summary r)
  | _ => withTotalTime elapsed (sumStatsSummaries (map dr_Summary records))
  end.
End sums.

(** ** The last step *)

Section last_step.
Context {W : Type} (out : Outside W) (dm : Daemon W) (ho : Host) (moduleVersion : bytes).
Context `{Durations} `{FloatHost} `{JSON directRunRecord}.
Context `{RFC3339} `{Zstd} `{JSON FileMeta} `{JSON (list bytes)} `{JSON (gmap bytes bytes)} `{JSON Extras} `{SliceSort}.
Context `{JSON localGocacheStats} `{JSON (gmap bytes testcachePkgKeys)} `{JSON (list KeyInspection)}.
Context (jsonValid : bytes -> bool) (order : gset bytes -> list bytes).
Context (rangeKeys : gmap bytes testcachePkgKeys -> list bytes) (ids : nat -> bytes) (open : bytes -> result stream).

Abbreviation env := (environ ho).
Abbreviation extrasOf := (sessionExtras ho jsonValid #"direct").
Abbreviation markDone := (markRemoteSessionDone out moduleVersion (Getenv env envGHARemoteURL) (Getenv env envGHAAuth) (Getenv env envGHASessionID)).

(** [doneDirectMode]; a file of no runs is no error, and the file is removed. *)
Definition doneDirectMode (w : W) : W * result unit :=
  let cacheDir := Getenv env envGHACacheDir in
  if bool_decide (cacheDir = []) then (w, Ok tt)
  else
    let statsPath := JoinPath [cacheDir; quietRunStatsFilename] in
    match ho_readFile ho statsPath with
    | Err e => if isNotExist e then (markDone (extrasOf no_summary) w, Ok tt) else (w, Err e)
    | Ok data =>
        let final := finalSummary (elapsedSinceInit ho) (readRecords data) in
        (dm_remove dm statsPath (markDone (extrasOf final) w), Ok tt)
    end.

(** [GithubActionsDone]: the mode that the first step left. *)
Definition GithubActionsDone (ld : LocalDone) (d : Dir) (w : W) : Dir * W * result unit :=
  let mode := Getenv env envGHAMode in
  if bool_decide (mode = #"direct") then let '(w, r) := doneDirectMode w in (d, w, r)
  else if bool_decide (mode = #"shim") then
    let '(w, r) := doneShimMode out dm ho moduleVersion DurationString jsonValid w in (d, w, r)
  else if bool_decide (mode = #"gocache") then
    let '(w, r) := doneGocacheMode out ho moduleVersion jsonValid order rangeKeys ids open d w in (d, w, r)
  else if bool_decide (mode = #"local-gocache") then
    doneLocalGocacheMode out ho moduleVersion jsonValid order ids open ld d w
  else if bool_decide (mode = []) then (d, w, Err (EMsg "GOCACHEPROG_GHA_MODE is not set"))
  else (d, w, Err (EMsg "unknown mode")).
End last_step.

(** ** The daemon's process *)

(** [waitForShimSocket]: dialling every 200 milliseconds until the deadline; [clock n] is
    the time before the [n]-th attempt, a connection that opens is closed, and the last
    error is what is returned when none did. *)
Fixpoint waitLoop (fuel n : nat) (clock : nat -> Z) (deadline : Z) (dial : nat -> result (option goerr)) (lastErr : option goerr)
    : option goerr :=
  match fuel with
  | O => lastErr
  | S fuel =>
      if clock n <? deadline then
        match dial n with
        | Ok closeErr => closeErr
        | Err e => waitLoop fuel (S n) clock deadline dial (Some e)
        end
      else lastErr
  end.

Definition waitPause : Z := 200000000.
Definition waitForShimSocket (clock : nat -> Z) (timeout : Z) (dial : nat -> result (option goerr)) : option goerr :=
  waitLoop (S (Z.to_nat (timeout / waitPause))) 0 clock (clock 0%nat + timeout) dial None.

(** [killByPIDFile]: the process whose id the file has is sent a signal; whatever goes
    wrong is logged. *)
Definition killByPIDFile {W} (readFile : bytes -> result bytes) (find : Z -> option goerr) (signal : Z -> W -> W) (pidFile : bytes) (w : W) : W :=
  match readFile pidFile with
  | Err _ => w
  | Ok data =>
      match ParseInt (TrimSpace data) with
      | Err _ => w
      | Ok pid => match find pid with Some _ => w | None => signal pid w end
      end
  end.

(** [tailFile]: the end of the daemon's log. *)
Definition tailFile (readFile : bytes -> result bytes) (path : bytes) (maxBytes : Z) : bytes :=
  match readFile path with
  | Err _ => #"(could not read log)"
  | Ok data => if maxBytes <? blen data then drop (Z.to_nat (blen data - maxBytes)) data else data
  end.

(** ** Lemmas *)

(** The attempts are enough: after them the deadline has passed. *)
Lemma waitLoop_fuel clock deadline dial k n fuel lastErr :
  (forall i, clock i + waitPause <= clock (S i)) -> deadline <= clock (n + fuel)%nat ->
  waitLoop (fuel + k) n clock deadline dial lastErr = waitLoop fuel n clock deadline dial lastErr.
Proof.
  intros Hc. revert n lastErr. induction fuel as [|fuel IH]; intros n lastErr Hd; cbn [waitLoop Nat.add].
  - rewrite Nat.add_0_r in Hd. destruct k; [done|]. cbn [waitLoop]. by rewrite (proj2 (Z.ltb_ge _ _)).
  - destruct (clock n <? deadline); [|done]. destruct (dial n); [done|]. apply IH. by rewrite Nat.add_succ_comm.
Qed.

Lemma wait_enough clock timeout dial k :
  (forall i, clock i + waitPause <= clock (S i)) -> 0 <= timeout ->
  waitLoop (S (Z.to_nat (timeout / waitPause)) + k) 0 clock (clock 0%nat + timeout) dial None = waitForShimSocket clock timeout dial.
Proof.
  intros Hc Ht. apply waitLoop_fuel; [done|]. cbn [Nat.add].
  assert (Hn : forall i, clock 0%nat + Z.of_nat i * waitPause <= clock i).
  { induction i as [|i IH]; [lia|]. specialize (Hc i). lia. }
  specialize (Hn (S (Z.to_nat (timeout / waitPause)))). rewrite Nat2Z.inj_succ, Z2Nat.id in Hn by (by apply Z.div_pos).
  assert (Hm := Z.mod_pos_bound timeout waitPause ltac:(done)). assert (Hdm := Z.div_mod timeout waitPause ltac:(done)). lia.
Qed.

(** A line that begins and ends with a graphic character keeps all but what follows it. *)
Lemma trim_left_graphic spaces n c s : forallb wide spaces = true -> graphic c = true -> trim_left spaces n (c :: s) = c :: s.
Proof. intros Hsp Hc. destruct n as [|n]; [done|]. cbn [trim_left]. by rewrite drop_graphic. Qed.

Lemma TrimSpace_text c s d : graphic c = true -> graphic d = true -> TrimSpace ((c :: s) ++ [d; newline]) = (c :: s) ++ [d].
Proof.
  intros Hc Hd. unfold TrimSpace. rewrite <-app_comm_cons, trim_left_graphic by done. cbv zeta.
  rewrite app_comm_cons, reverse_app. change (reverse [d; newline]) with [newline; d]. cbn [app length].
  rewrite length_app, Nat.add_comm. cbn [length Nat.add trim_left].
  change (drop_space (map reverse wide_spaces) (newline :: d :: reverse (c :: s))) with (Some (d :: reverse (c :: s))). cbv iota.
  rewrite (drop_graphic _ d) by done. change (d :: reverse (c :: s)) with ([d] ++ reverse (c :: s)).
  by rewrite reverse_app, reverse_involutive.
Qed.

Section lines.
Context `{JSON directRunRecord}.

(** What encoding/json writes of a record: one line, in braces. *)
Definition one_line (b : bytes) : Prop := (newline ∉ b) /\ exists m, b = "{"%char :: m ++ ["}"%char].
Context (Hline : forall (r : directRunRecord) b, Marshal r = Ok b -> one_line b).

(** The lines without the last newline. *)
Lemma linesOf_trimmed bs b : Forall one_line bs -> one_line b -> TrimSpace (linesOf (bs ++ [b])) = linesOf bs ++ b.
Proof.
  intros Hbs [_ [m ->]]. rewrite linesOf_snoc. assert (Hl : linesOf bs = [] \/ exists t, linesOf bs = "{"%char :: t).
  { destruct bs as [|b bs]; [by left|]. right. apply Forall_cons in Hbs as [[_ [m' ->]] _]. eexists. reflexivity. }
  replace (linesOf bs ++ ("{"%char :: m ++ ["}"%char]) ++ [newline]) with ((linesOf bs ++ "{"%char :: m) ++ ["}"%char; newline])
    by (cbn [app]; by rewrite <-!app_assoc).
  replace (linesOf bs ++ "{"%char :: m ++ ["}"%char]) with ((linesOf bs ++ "{"%char :: m) ++ ["}"%char]) by (by rewrite <-app_assoc).
  destruct Hl as [->|[t ->]]; cbn [app]; by apply TrimSpace_text.
Qed.

Lemma split_run_lines bs b : Forall one_line bs -> one_line b -> split_on newline (linesOf bs ++ b) = bs ++ [b].
Proof.
  intros Hbs [Hb _]. induction Hbs as [|c bs [Hc _] _ IH]; cbn [linesOf map concat app]; [by apply split_on_no_sep|].
  rewrite <-!app_assoc. cbn [app]. rewrite split_on_app by done. f_equal. exact IH.
Qed.

(** The file of some records is read as the records. *)
Lemma read_written bs rs : rs <> [] -> Forall2 (fun r b => Marshal r = Ok b /\ Unmarshal (A := directRunRecord) b = Ok r) rs bs ->
  readRecords (linesOf bs) = rs.
Proof.
  intros Hne Hf. assert (Hbs : Forall one_line bs).
  { apply Forall_forall. intros b Hb. apply list_elem_of_lookup in Hb as [k Hk].
    destruct (Forall2_lookup_r _ _ _ _ _ Hf Hk) as (r & _ & Hr & _). by apply (Hline r). }
  assert (Hsnoc : exists bs' b, bs = bs' ++ [b]).
  { destruct bs as [|b bs] using rev_ind; [apply Forall2_nil_inv_r in Hf; done|eauto]. }
  destruct Hsnoc as (bs' & b & ->). apply Forall_app in Hbs as [Hbs Hb]. apply Forall_cons in Hb as [Hb _].
  unfold readRecords. rewrite (linesOf_trimmed bs' b Hbs Hb), (split_run_lines bs' b Hbs Hb). clear Hne Hbs Hb.
  assert (Hne : forall r x, Marshal r = Ok x -> x <> []) by (intros r x Hx; destruct (Hline r x Hx) as [_ [m ->]]; done).
  induction Hf as [|r x rs xs [Hm Hu] _ IH]; [done|]. cbn [omap list_omap].
  rewrite bool_decide_eq_false_2 by (by eapply Hne). rewrite Hu. by f_equal.
Qed.
End lines.

(** *** Sums *)

Definition total {A} (f : A -> Z) (l : list A) : Z := foldr (fun x n => f x + n) 0 l.

Lemma total_app {A} (f : A -> Z) l k : total f (l ++ k) = total f l + total f k.
Proof. unfold total. induction l as [|x l IH]; cbn [foldr app]; lia. Qed.

Lemma total_nonneg {A} (f : A -> Z) l : (forall x, x ∈ l -> 0 <= f x) -> 0 <= total f l.
Proof.
  unfold total. induction l as [|x l IH]; intros Hf; cbn [foldr]; [lia|].
  assert (0 <= f x) by (apply Hf, list_elem_of_here). assert (0 <= foldr (fun x n => f x + n) 0 l); [|lia].
  apply IH. intros y Hy. by apply Hf, list_elem_of_further.
Qed.

(** One field of the sums, from the end of the list: nothing wraps while the total fits. *)
Lemma fold_field {A} (proj : sums -> Z) (f : A -> Z) (add : sums -> A -> sums) l a :
  (forall a x, x ∈ l -> proj (add a x) = i64 (proj a + f x)) -> (forall x, x ∈ l -> 0 <= f x) ->
  0 <= proj a -> proj a + total f l < 2 ^ 63 -> proj (foldl add a l) = proj a + total f l.
Proof.
  revert a. unfold total. induction l as [|x l IH]; intros a Hadd Hf Ha Hb; cbn [foldl foldr] in *; [lia|].
  assert (Hx : 0 <= f x) by (apply Hf, list_elem_of_here).
  assert (Hl : 0 <= total f l) by (apply total_nonneg; intros y Hy; by apply Hf, list_elem_of_further). unfold total in Hl.
  assert (E : proj (add a x) = proj a + f x) by (rewrite Hadd by apply list_elem_of_here; apply i64_id; lia).
  rewrite IH; rewrite ?E; try lia.
  - intros b y Hy. by apply Hadd, list_elem_of_further.
  - intros y Hy. by apply Hf, list_elem_of_further.
Qed.

Section reports.
Context `{Durations} `{FloatHost}.

(** A run: its proxy and the client of its upstream. *)
Record Run := mkRun { rn_proxy : Proxy.Proxy; rn_client : ClientCounters; rn_get95 : bytes; rn_put95 : bytes }.

Definition runSummary (r : Run) : StatsSummary :=
  proxySummary (Some (clientStats DurationString (rn_get95 r) (rn_put95 r) (rn_client r))) (rn_proxy r).

Definition rn_hits (r : Run) : Z := Proxy.st_hits (Proxy.px_stats (rn_proxy r)).
Definition rn_misses (r : Run) : Z := Proxy.st_misses (Proxy.px_stats (rn_proxy r)).
Definition rn_puts (r : Run) : Z := Proxy.st_puts (Proxy.px_stats (rn_proxy r)).
Definition rn_batches (r : Run) : Z := Proxy.st_batches (Proxy.px_stats (rn_proxy r)).
Definition rn_read (r : Run) : Z := cc_bytesRead (rn_client r).
Definition rn_written (r : Run) : Z := cc_bytesWritten (rn_client r).
Definition rn_time (r : Run) : Z := cc_getTotalNs (rn_client r).

(** A run whose counters are no machine's worry. *)
Record plausible (r : Run) : Prop := {
  pl_counts : 0 <= rn_hits r /\ 0 <= rn_misses r /\ 0 <= rn_puts r /\ 0 <= rn_batches r /\ 0 <= rn_time r < 2 ^ 63;
  pl_read : 0 <= rn_read r < 2 ^ 50;
  pl_written : 0 <= rn_written r < 2 ^ 50;
}.

Lemma runSummary_fields r :
  ss_Hits (runSummary r) = rn_hits r /\ ss_Misses (runSummary r) = rn_misses r /\ ss_Puts (runSummary r) = rn_puts r /\
  ss_RoundTrips (runSummary r) = rn_batches r /\ ss_HitRate (runSummary r) = percent (rn_hits r) (rn_hits r + rn_misses r) /\
  ss_BytesRead (runSummary r) = byteSize (rn_read r) /\ ss_BytesWritten (runSummary r) = byteSize (rn_written r) /\
  ss_GetTotalTime (runSummary r) = DurationString (rn_time r).
Proof. split_and!; reflexivity. Qed.

(** The total time is the only field that the last step sets. *)
Lemma withTotalTime_fields elapsed s : let s' := withTotalTime elapsed s in
  ss_Hits s' = ss_Hits s /\ ss_Misses s' = ss_Misses s /\ ss_Puts s' = ss_Puts s /\ ss_RoundTrips s' = ss_RoundTrips s /\
  ss_HitRate s' = ss_HitRate s /\ ss_GetTotalTime s' = ss_GetTotalTime s /\ ss_BytesRead s' = ss_BytesRead s /\ ss_BytesWritten s' = ss_BytesWritten s.
Proof. by destruct elapsed. Qed.

(** What is read back of a size. *)
Definition readBack (n : Z) : Z := match parseByteSize (byteSize n) with Ok r => r | Err _ => 0 end.

Lemma readBack_close n : 0 <= n < 2 ^ 50 ->
  parseByteSize (byteSize n) = Ok (readBack n) /\ 0 <= readBack n < 2 ^ 51 /\ 20 * Z.abs (readBack n - n) <= unitOf n + 30.
Proof.
  intros Hn. destruct (read_back_close n Hn) as (r & Hr & H1 & H2). unfold readBack. rewrite Hr. split; [done|]. split; [|done].
  assert (unitOf n <= 2 ^ 40) by (unfold unitOf; repeat case_match; lia). lia.
Qed.

Lemma byteSize_some n : byteSize n <> [].
Proof. unfold byteSize. repeat case_match; simplify_eq; intros [_ E]%app_eq_nil; discriminate E. Qed.

Lemma addText_read n a : 0 <= n < 2 ^ 50 -> addText parseByteSize (byteSize n) a = i64 (a + readBack n).
Proof. intros Hn. unfold addText. rewrite bool_decide_eq_false_2 by apply byteSize_some. by rewrite (proj1 (readBack_close n Hn)). Qed.

Lemma addText_time d a : - 2 ^ 63 <= d < 2 ^ 63 -> addText ParseDuration (DurationString d) a = i64 (a + d).
Proof. intros Hd. unfold addText. rewrite bool_decide_eq_false_2 by apply DurationString_some. by rewrite ParseDuration_String. Qed.

Lemma total_map {A B} (g : A -> B) (f : B -> Z) l : total f (map g l) = total (fun x => f (g x)) l.
Proof. induction l; cbn; [done|]. unfold total in *. cbn. by rewrite IHl. Qed.

Lemma total_close {A} (f g u : A -> Z) l : (forall x, x ∈ l -> 20 * Z.abs (f x - g x) <= u x) -> 20 * Z.abs (total f l - total g l) <= total u l.
Proof.
  unfold total. induction l as [|x l IH]; intros Hc; cbn [foldr]; [lia|]. assert (Hx := Hc x (list_elem_of_here x l)).
  assert (20 * Z.abs (foldr (fun x n => f x + n) 0 l - foldr (fun x n => g x + n) 0 l) <= foldr (fun x n => u x + n) 0 l); [|lia].
  apply IH. intros y Hy. by apply Hc, list_elem_of_further.
Qed.

Lemma total_bound {A} (f : A -> Z) l b : 0 <= b -> (forall x, x ∈ l -> f x <= b) -> total f l <= b * Z.of_nat (length l).
Proof.
  intros Hb. unfold total. induction l as [|x l IH]; intros Hf; cbn [foldr length]; [lia|]. assert (Hx := Hf x (list_elem_of_here x l)).
  assert (foldr (fun x n => f x + n) 0 l <= b * Z.of_nat (length l)); [|lia]. apply IH. intros y Hy. by apply Hf, list_elem_of_further.
Qed.

Lemma foldl_map {A B C} (f : C -> B -> C) (g : A -> B) l c : foldl f c (map g l) = foldl (fun c x => f c (g x)) c l.
Proof. revert c. induction l as [|x l IH]; intros c; [done|]. apply IH. Qed.

(** How far the sum of sizes may be off. *)
Definition slack (f : Run -> Z) (r : Run) : Z := unitOf (f r) + 30.

(** The runs of a job that a few thousand commands make. *)
Record plausible_job (runs : list Run) : Prop := {
  pj_runs : Forall plausible runs;
  pj_many : Z.of_nat (length runs) < 2 ^ 12;
  pj_lookups : total rn_hits runs + total rn_misses runs < 2 ^ 63;
  pj_puts : total rn_puts runs < 2 ^ 63;
  pj_batches : total rn_batches runs < 2 ^ 63;
  pj_time : total rn_time runs < 2 ^ 63;
}.

(** The sums of the summaries are the sums of the counters, sizes up to their rounding. *)
Lemma sums_of_runs runs (Hp : plausible_job runs) :
  let a := foldl addSummary (mkSums 0 0 0 0 0 0 0 false) (map runSummary runs) in
  sm_hits a = total rn_hits runs /\ sm_misses a = total rn_misses runs /\ sm_puts a = total rn_puts runs /\
  sm_roundTrips a = total rn_batches runs /\ sm_time a = total rn_time runs /\
  sm_read a = total (fun r => readBack (rn_read r)) runs /\ sm_written a = total (fun r => readBack (rn_written r)) runs.
Proof.
  intros a. destruct Hp as [Hr Hm Hl Hpu Hba Hti]. rewrite Forall_forall in Hr.
  assert (Hfold : forall proj (g : Run -> Z), (forall b r, plausible r -> proj (addSummary b (runSummary r)) = i64 (proj b + g r)) ->
    (forall r, r ∈ runs -> 0 <= g r) -> proj (mkSums 0 0 0 0 0 0 0 false) = 0 -> total g runs < 2 ^ 63 -> proj a = total g runs).
  { intros proj g H1 H2 H3 H4. unfold a. rewrite foldl_map. rewrite (fold_field proj g); rewrite ?H3; try done; try lia.
    intros b r Hx. apply H1. by apply Hr. }
  assert (Hc := fun r Hx => pl_counts r (Hr r Hx)).
  assert (Hh0 := total_nonneg rn_hits runs ltac:(intros x Hx; apply (Hc x Hx))).
  assert (Hm0 := total_nonneg rn_misses runs ltac:(intros x Hx; apply (Hc x Hx))).
  assert (Hsize : forall f, (forall r, r ∈ runs -> 0 <= f r < 2 ^ 50) -> total (fun r => readBack (f r)) runs < 2 ^ 63 /\
    (forall r, r ∈ runs -> 0 <= readBack (f r))).
  { intros f Hf. split; [|intros r Hx; apply (readBack_close (f r) (Hf r Hx))]. eapply Z.le_lt_trans; [apply (total_bound _ _ (2 ^ 51)); [lia|]|lia].
    intros x Hx. destruct (readBack_close (f x) (Hf x Hx)) as (_ & ? & _). lia. }
  destruct (Hsize rn_read (fun r Hx => pl_read r (Hr r Hx))) as [Hrd Hrd0].
  destruct (Hsize rn_written (fun r Hx => pl_written r (Hr r Hx))) as [Hwr Hwr0].
  split_and!; apply Hfold; try done; try lia; try (intros r Hx; apply (Hc r Hx)).
  - intros b r Hx. apply addText_time. destruct (pl_counts r Hx) as (_ & _ & _ & _ & ?). lia.
  - intros b r Hx. by apply addText_read, pl_read.
  - intros b r Hx. by apply addText_read, pl_written.
Qed.

Lemma have_bytes r runs a : Forall plausible (r :: runs) -> sm_haveBytes (foldl addSummary a (map runSummary (r :: runs))) = true.
Proof.
  intros [Hr _]%Forall_cons. cbn [map foldl].
  assert (Ha : sm_haveBytes (addSummary a (runSummary r)) = true).
  { unfold addSummary. cbn [sm_haveBytes]. destruct (runSummary_fields r) as (_ & _ & _ & _ & _ & -> & _). unfold isRead.
    rewrite bool_decide_eq_false_2 by apply byteSize_some. rewrite (proj1 (readBack_close _ (pl_read r Hr))). cbn. by rewrite orb_true_r. }
  revert Ha. generalize (addSummary a (runSummary r)). clear Hr a. induction (map runSummary runs) as [|s l IH]; intros a Ha; [done|].
  cbn [foldl]. apply IH. unfold addSummary. cbn [sm_haveBytes]. by rewrite Ha.
Qed.
End reports.

(** *** The job's report *)

Section claims.
Context {W : Type} (out : Outside W) (dm : Daemon W) (ho : Host) (moduleVersion : bytes).
Context `{Durations} `{FloatHost} `{JSON directRunRecord} `{RFC3339} `{JSON (gmap bytes bytes)} `{JSON Extras} (jsonValid : bytes -> bool).
Context (readProc : bytes -> result bytes).

(** The file after some runs, each with its parent. *)
Definition record_of (r : Run * Z) : directRunRecord := mkRunRecord (runSummary r.1) r.2 (parentCommandLine readProc r.2).
Definition appended (dir : bytes) (runs : list (Run * Z)) : option bytes :=
  foldl (fun file r => fst (AppendQuietRunStats readProc r.2 noAppendFaults file dir (runSummary r.1))) None runs.

Lemma appended_lines dir runs : dir <> [] -> runs <> [] -> Forall (fun r => json_ok (record_of r)) runs ->
  exists bs, appended dir runs = Some (linesOf bs) /\
    Forall2 (fun r b => Marshal r = Ok b /\ Unmarshal (A := directRunRecord) b = Ok r) (map record_of runs) bs.
Proof.
  intros Hd Hne Hj. induction runs as [|r runs IH] using rev_ind; [done|].
  apply Forall_app in Hj as [Hj Hr]. apply Forall_cons in Hr as [Hr _].
  destruct (Unmarshal_Marshal _ Hr) as (b & Hb & _ & Hu).
  assert (Hold : exists bs, default [] (appended dir runs) = linesOf bs /\
    Forall2 (fun r b => Marshal r = Ok b /\ Unmarshal (A := directRunRecord) b = Ok r) (map record_of runs) bs).
  { destruct runs as [|r' runs]; [exists []; split; [done|constructor]|]. destruct (IH ltac:(done) Hj) as (bs & E & Hf).
    exists bs. by rewrite E. }
  destruct Hold as (bs & E & Hf). exists (bs ++ [b]). split.
  - assert (Es : appended dir (runs ++ [r]) = fst (AppendQuietRunStats readProc r.2 noAppendFaults (appended dir runs) dir (runSummary r.1)))
      by (unfold appended; by rewrite foldl_app).
    rewrite Es. unfold AppendQuietRunStats. rewrite bool_decide_eq_false_2 by done.
    fold (record_of r). rewrite Hb. unfold appendFile. cbn [af_open af_write noAppendFaults fst]. by rewrite E, linesOf_snoc.
  - rewrite map_app. apply Forall2_app; [done|]. constructor; [done|constructor].
Qed.

(** C20: a job in direct mode reports what its runs did.  Every run of the helper appends
    its summary, from the counters of its proxy and its client; the last step reads them
    back, ends the session with their sum, and removes the file: hits, misses, puts and
    round trips are the sums of the counters, the hit rate is that of the sums, the times
    add up, and the bytes that were read and written are the sums of what the clients
    counted, each size to a twentieth of the unit it was written in. *)
Theorem direct_mode_reports_all_runs (runs : list (Run * Z)) (w : W)
    (Hline : forall (r : directRunRecord) b, Marshal r = Ok b -> one_line b)
    (Hdir : Getenv (environ ho) envGHACacheDir <> []) (Hne : runs <> [])
    (Hjson : Forall (fun r => json_ok (record_of r)) runs) (Hjob : plausible_job (map fst runs))
    (Hfile : forall data, appended (Getenv (environ ho) envGHACacheDir) runs = Some data ->
       ho_readFile ho (JoinPath [Getenv (environ ho) envGHACacheDir; quietRunStatsFilename]) = Ok data) :
  let rs := map fst runs in
  exists final read written,
    doneDirectMode out dm ho moduleVersion jsonValid w =
      (dm_remove dm (JoinPath [Getenv (environ ho) envGHACacheDir; quietRunStatsFilename])
         (markRemoteSessionDone out moduleVersion (Getenv (environ ho) envGHARemoteURL) (Getenv (environ ho) envGHAAuth)
            (Getenv (environ ho) envGHASessionID) (sessionExtras ho jsonValid #"direct" final) w), Ok tt) /\
    ss_Hits final = total rn_hits rs /\ ss_Misses final = total rn_misses rs /\ ss_Puts final = total rn_puts rs /\
    ss_RoundTrips final = total rn_batches rs /\ ss_HitRate final = percent (total rn_hits rs) (total rn_hits rs + total rn_misses rs) /\
    (0 < total rn_time rs -> ss_GetTotalTime final = DurationString (total rn_time rs)) /\
    ss_BytesRead final = formatByteSize read /\ 20 * Z.abs (read - total rn_read rs) <= total (slack rn_read) rs /\
    ss_BytesWritten final = formatByteSize written /\ 20 * Z.abs (written - total rn_written rs) <= total (slack rn_written) rs.
Proof.
  intros rs. destruct (appended_lines _ runs Hdir Hne Hjson) as (bs & Happ & Hbs).
  assert (Hrec : readRecords (linesOf bs) = map record_of runs) by (eapply read_written; [exact Hline| |exact Hbs]; by destruct runs).
  unfold doneDirectMode. rewrite bool_decide_eq_false_2, (Hfile _ Happ), Hrec by done.
  assert (Hall := pj_runs _ Hjob). fold rs in Hall, Hjob. rewrite Forall_forall in Hall.
  assert (Hclose : forall f, (forall r, r ∈ rs -> 0 <= f r < 2 ^ 50) ->
    20 * Z.abs (total (fun r => readBack (f r)) rs - total f rs) <= total (slack f) rs).
  { intros f Hf. apply total_close. intros r Hr. by apply readBack_close, Hf. }
  assert (Hrd := Hclose rn_read (fun r Hr => pl_read r (Hall r Hr))).
  assert (Hwr := Hclose rn_written (fun r Hr => pl_written r (Hall r Hr))).
  destruct runs as [|r [|r2 rest]]; [done| |].
  - (* one run: its own summary *)
    cbn [map finalSummary record_of dr_Summary]. exists (withTotalTime (elapsedSinceInit ho) (runSummary r.1)), (rn_read r.1), (rn_written r.1).
    split; [done|]. assert (Hr : plausible r.1) by (apply Hall, list_elem_of_here).
    assert (Hu : forall n, 0 <= unitOf n) by (intros n; unfold unitOf; repeat case_match; lia).
    destruct (withTotalTime_fields (elapsedSinceInit ho) (runSummary r.1)) as (-> & -> & -> & -> & -> & -> & -> & ->). subst rs. unfold total, slack. cbn [map foldr]. rewrite !Z.add_0_r, !Z.sub_diag.
    assert (Hu1 := Hu (rn_read r.1)). assert (Hu2 := Hu (rn_written r.1)).
    split_and!; try reflexivity; try lia; [symmetry; apply formatByteSize_is_byteSize|symmetry; apply formatByteSize_is_byteSize]; destruct (pl_read _ Hr), (pl_written _ Hr); lia.
  - (* more: their sum *)
    set (all := r :: r2 :: rest) in *.
    assert (Efinal : finalSummary (elapsedSinceInit ho) (map record_of all) = withTotalTime (elapsedSinceInit ho) (sumStatsSummaries (map runSummary rs))).
    { subst all rs. cbn [map finalSummary]. do 2 f_equal. cbn [map record_of dr_Summary fst]. do 2 f_equal. rewrite !map_map. done. }
    rewrite Efinal. destruct (sums_of_runs rs Hjob) as (E1 & E2 & E3 & E4 & E5 & E6 & E7).
    assert (Hh : sm_haveBytes (foldl addSummary (mkSums 0 0 0 0 0 0 0 false) (map runSummary rs)) = true) by (by apply have_bytes, (pj_runs _ Hjob)).
    eexists _, (total (fun r => readBack (rn_read r)) rs), (total (fun r => readBack (rn_written r)) rs). split; [reflexivity|].
    destruct (withTotalTime_fields (elapsedSinceInit ho) (sumStatsSummaries (map runSummary rs))) as (-> & -> & -> & -> & -> & -> & -> & ->).
    unfold sumStatsSummaries. cbn [ss_Hits ss_Misses ss_Puts ss_RoundTrips ss_HitRate ss_GetTotalTime ss_BytesRead ss_BytesWritten].
    rewrite E1, E2, E3, E4, E5, E6, E7, Hh.
    assert (Hpos : 0 <= total rn_hits rs /\ 0 <= total rn_misses rs) by (split; apply total_nonneg; intros x Hx; apply (pl_counts _ (Hall x Hx))).
    rewrite i64_id by (assert (Hlk := pj_lookups _ Hjob); lia).
    split_and!; try done. intros Ht. by rewrite (proj2 (Z.ltb_lt _ _)).
Qed.
End claims.

(** ** Examples *)

Section witnesses.
Program Definition digitDurations : Durations := {| DurationString := FormatInt; ParseDuration := ParseInt |}.
Next Obligation. intros d Hd. by apply ParseInt_FormatInt. Qed.
Next Obligation. intros d. unfold FormatInt. case_match eqn:E; [done|]. apply Z.ltb_ge in E. by destruct (itoa_digits d E). Qed.

Definition exampleCounters (read ns : Z) : ClientCounters := mkCounters read 100 0 0 1 1 0 ns [] [] [] [].
Definition exampleProxy (hits misses : Z) : Proxy.Proxy :=
  Proxy.add_stats (Proxy.newProxy LocalServe.emptyStore) 0 (hits + misses) hits 0 hits misses 1 0 0 0.
Definition twoRuns : list (Run * Z) :=
  [(mkRun (exampleProxy 2 1) (exampleCounters 1500000 1000) #"3" #"4", 11); (mkRun (exampleProxy 5 0) (exampleCounters 70 500) #"3" #"4", 12)].
Definition noProc : bytes -> result bytes := fun _ => Err ENotExist.

(** The records in braces, by their place in a list. *)
Program Definition bracesJSON (l : list directRunRecord) : JSON directRunRecord := {|
  Marshal r := match list_find (eq r) l with
               | Some (i, _) => Ok ("{"%char :: itoa (Z.of_nat i) ++ ["}"%char])
               | None => Err (EMsg "unsupported value")
               end;
  Unmarshal b := match list_find (fun i => b = "{"%char :: itoa (Z.of_nat i) ++ ["}"%char]) (seq 0 (length l)) with
                 | Some (_, i) => match l !! i with Some r => Ok r | None => Err (EMsg "invalid character") end
                 | None => Err (EMsg "invalid character")
                 end;
  json_ok r := r ∈ l;
|}.
Next Obligation.
  intros l r Hr. cbn. destruct (list_find (eq r) l) as [[i x]|] eqn:E.
  - apply list_find_Some in E as (Hi & <- & _). eexists. split; [done|]. split; [done|].
    destruct (list_find _ (seq 0 (length l))) as [[k j]|] eqn:F.
    + apply list_find_Some in F as (Hj & Ej & _). assert (Ei : itoa (Z.of_nat i) = itoa (Z.of_nat j)) by exact (proj1 (app_inj_tail _ _ _ _ (f_equal tail Ej))).
      assert (Z.of_nat i = Z.of_nat j) as Eij%Nat2Z.inj; [|by rewrite <-Eij, Hi].
      assert (H1 := parse_itoa (Z.of_nat i) ltac:(lia)). assert (H2 := parse_itoa (Z.of_nat j) ltac:(lia)). rewrite Ei, H2 in H1. by injection H1.
    + apply list_find_None in F. rewrite Forall_forall in F. destruct (F i); [|done].
      apply list_elem_of_In, in_seq. apply lookup_lt_Some in Hi. lia.
  - apply list_find_None in E. rewrite Forall_forall in E. by destruct (E r Hr).
Qed.

Lemma braces_line l r b : Marshal (JSON := bracesJSON l) r = Ok b -> one_line b.
Proof.
  cbn. destruct (list_find _ l) as [[i x]|]; [|done]. intros [= <-]. split; [|by eexists].
  assert (H1 := FormatInt_free newline (Z.of_nat i) ltac:(done) ltac:(done)). unfold FormatInt in H1. rewrite (proj2 (Z.ltb_ge _ _)) in H1 by lia.
  rewrite not_elem_of_cons, not_elem_of_app. split; [done|]. split; [done|]. rewrite list_elem_of_singleton. done.
Qed.

Definition twoRecords : list directRunRecord := map (@record_of digitDurations noProc) twoRuns.
Let J : JSON directRunRecord := bracesJSON twoRecords.
Let X : JSON (gmap bytes bytes) := tableJSON [].
Let Y : JSON Extras := tableJSON [].
Definition directEnviron : Vars := {[ envGHACacheDir := #"/c"; envGHAMode := #"direct" ]}.
Definition directHost (data : bytes) : Host :=
  let h := exampleHost directEnviron in
  mkHost (ho_env h) (fun p => if bool_decide (p = #"/c/.gocacheprog-run-stats.jsonl") then Ok data else Err ENotExist) (ho_tempDir h)
    (ho_executable h) (ho_pid h) (ho_now h) (ho_mkdir h) (ho_logFile h) (ho_pidFile h) (ho_dir h) (ho_walk h) (ho_loadStats h) (ho_envFile h).
Definition noDaemon : Daemon unit := mkDaemon unit (fun _ _ w => (w, Err (EMsg "no daemon"))) (fun _ w => w) (fun _ w => w).
Let file : option bytes := @appended digitDurations J noProc #"/c" twoRuns.

Lemma direct_mode_reports_all_runs_witness :
  exists final read written, ss_Hits final = 7 /\ ss_Misses final = 1 /\ ss_HitRate final = #"87.5%" /\ ss_GetTotalTime final = #"1500" /\
    ss_BytesRead final = formatByteSize read /\ 20 * Z.abs (read - 1500070) <= 1048636 /\
    ss_BytesWritten final = formatByteSize written /\ 20 * Z.abs (written - 200) <= 60 /\
    snd (@doneDirectMode unit deadOut noDaemon (directHost (default [] file)) #"v" digitDurations amd64 J digitTimes X Y (fun _ => false) tt) = Ok tt.
Proof.
  destruct (@direct_mode_reports_all_runs unit deadOut noDaemon (directHost (default [] file)) #"v" digitDurations amd64 J digitTimes X Y (fun _ => false)
    noProc twoRuns tt (@braces_line twoRecords)) as (final & read & written & E & H1 & H2 & _ & _ & H5 & H6 & H7 & H8 & H9 & H10).
  - vm_compute. discriminate.
  - discriminate.
  - apply Forall_forall. intros r Hr. apply (list_elem_of_fmap_2 (@record_of digitDurations noProc)). exact Hr.
  - split; [|vm_compute; reflexivity..]. repeat constructor; vm_compute; congruence.
  - intros data Hd. vm_compute in Hd. injection Hd as <-. vm_compute. reflexivity.
  - exists final, read, written. rewrite E, H1, H2, H5, (H6 ltac:(reflexivity)), H7, H9. do 4 (split; [vm_compute; reflexivity|]).
    split; [reflexivity|]. split; [exact H8|]. split; [reflexivity|]. split; [exact H10|reflexivity].
Defined.
End witnesses.
