(* ===== verification/HashDiff.v ===== *)
(** Comparing what two builds hashed: src/cmd/gocachehashdiff/main.go.  The go command
    logs every input of its cache keys; the tool reads such logs, hides what differs in
    every run, and prints what changed between two of them. *)
From S2P Require Import Prelude.
From S2P Require Import GoStrings.
From S2P Require Import GoPath.
From S2P Require Import ManifestPaths.
From S2P Require Import Timestamps.

(** ** More of Go's strings and fmt *)

(** [strings.ReplaceAll] for a pattern that is not empty; [skip] bytes of a match are
    still to be passed over. *)
Fixpoint replaceFrom (skip : nat) (s old new : bytes) : bytes :=
  match s, skip with
  | [], _ => []
  | _ :: s, S skip => replaceFrom skip s old new
  | c :: s', O =>
      if HasPrefix s old then new ++ replaceFrom (length old - 1) s' old new else c :: replaceFrom 0 s' old new
  end.

Definition ReplaceAll (s old new : bytes) : bytes := replaceFrom 0 s old new.

(** [strings.LastIndexByte]. *)
Definition LastIndexByte (s : bytes) (c : ascii) : option nat :=
  match list_find (fun x => x = c) (reverse s) with
  | Some (i, _) => Some (length s - 1 - i)%nat
  | None => None
  end.

(** A line of the output, and a number in a column of six. *)
Definition line (s : bytes) : bytes := s ++ [newline].
Definition column6 (n : Z) : bytes := let d := FormatInt n in replicate (6 - length d) " "%char ++ d.

Definition sortStrings (l : list bytes) : list bytes := stable_sort bytes_lt l.

(** ** Reading a log *)

Record entry := mkHashEntry { en_Kind : bytes; en_Payload : bytes; en_Package : bytes }.

Fixpoint dropDigits (s : bytes) : bytes :=
  match s with
  | c :: s' => if is_digit c then dropDigits s' else s
  | [] => []
  end.

Definition scrubGoBuildDir (s : bytes) : bytes :=
  let s := ReplaceAll s #"/var/folders/" #"/TMPROOT/" in
  let s := ReplaceAll s #"/tmp/go-build" #"/TMPROOT/go-build" in
  match Index s #"go-build" with
  | Some i => take i s ++ #"go-build<id>" ++ dropDigits (drop (i + 8) s)
  | None => s
  end.

Definition scrubTmpDir (s : bytes) : bytes := if Contains s #"/var/folders/" then #"/TMPROOT/" else s.

Definition normalizePayload (kind payload : bytes) : bytes :=
  let payload := TrimSpace payload in
  if bool_decide (kind = #"open") || bool_decide (kind = #"stat") then scrubGoBuildDir payload
  else if bool_decide (kind = #"getenv") then scrubTmpDir payload
  else if bool_decide (kind = #"testInputs") || bool_decide (kind = #"testcache") then scrubTmpDir (scrubGoBuildDir payload)
  else payload.

Definition parseTestCacheEntry (l : bytes) : option entry :=
  if negb (HasPrefix l #"testcache: ") then None
  else
    let '(pkg, payload, ok) := Cut (TrimPrefix l #"testcache: ") #": " in
    if negb ok || bool_decide (pkg = []) || bool_decide (payload = []) then None
    else Some (mkHashEntry #"testcache" (normalizePayload #"testcache" payload) pkg).

(** [strconv.Unquote], which the package is given. *)
Class Unquoting := { Quote : bytes -> bytes; Unquote : bytes -> option bytes; Unquote_Quote s : Unquote (Quote s) = Some s }.

Definition parseEntry `{Unquoting} (l : bytes) : option entry :=
  match parseTestCacheEntry l with
  | Some e => Some e
  | None =>
      if negb (HasPrefix l #"HASH[") || negb (Contains l #"]: ") then None
      else match Index l #"]" with
      | None => None
      | Some closeIdx =>
          let kind := drop 5 (take closeIdx l) in
          let prefix := #"HASH[" ++ kind ++ #"]: " in
          if negb (HasPrefix l prefix) then None
          else
            let payload := TrimPrefix l prefix in
            let payload := match Unquote payload with
                           | Some unquoted => TrimSuffix unquoted [newline]
                           | None => payload
                           end in
            Some (mkHashEntry kind (normalizePayload kind payload) [])
      end
  end.

Definition focusKinds : list bytes :=
  [ #"moduleIndex"; #"open"; #"stat"; #"testInputs"; #"getenv"; #"testcache"; #"testResult" ].

Definition allowByFocus (kind focus : bytes) : bool :=
  if bool_decide (focus = #"inputs") then bool_decide (kind ∈ focusKinds) else true.

Definition wanted (wantKind focus : bytes) (e : entry) : bool :=
  allowByFocus (en_Kind e) focus && (bool_decide (wantKind = #"all") || bool_decide (en_Kind e = wantKind)).

(** The longest line the scanner takes. *)
Definition maxLine : Z := 16 * 1024 * 1024.

Definition parseEntries `{Unquoting} (file : result bytes) (wantKind focus : bytes) : result (list entry) :=
  let? data := file in
  let '(ls, tooLong) := ScanLines maxLine data in
  if tooLong : bool then Err (EMsg "bufio.Scanner: token too long")
  else Ok (filter (fun e => wanted wantKind focus e = true) (omap parseEntry ls)).

(** ** What an entry says *)

Definition parseModuleIndexFile (payload : bytes) : option bytes :=
  let rest := TrimPrefix payload #"file " in
  match Cut rest #" " with
  | (p, _, true) => Some p
  | _ => None
  end.

(** A file among the inputs of a module index. *)
Definition moduleFile (e : entry) : option bytes :=
  if bool_decide (en_Kind e = #"moduleIndex") && HasPrefix (en_Payload e) #"file " then parseModuleIndexFile (en_Payload e) else None.

Definition parseTestInputStat (payload : bytes) : option (bytes * bytes) :=
  if negb (HasPrefix payload #"stat ") then None
  else
    let rest := TrimPrefix payload #"stat " in
    match LastIndexByte rest " "%char with
    | Some (S n) => Some (take (S n) rest, drop (S (S n)) rest)
    | _ => None
    end.

(** A file among the inputs of a test, with its hash. *)
Definition testInput (e : entry) : option (bytes * bytes) :=
  if bool_decide (en_Kind e = #"testInputs") then parseTestInputStat (en_Payload e) else None.

Definition relLocal (moduleRoot path : bytes) : option bytes :=
  match Rel moduleRoot path with
  | Ok rel => if negb (bool_decide (rel = #".")) && negb (HasPrefix rel #"..") then Some rel else None
  | Err _ => None
  end.

Definition isRepoLocalPath (path moduleRoot : bytes) : bool :=
  if bool_decide (moduleRoot = []) then false
  else if IsAbs path then bool_decide (is_Some (relLocal moduleRoot path)) else true.

Definition tooNewPrefix : bytes := #"input file ".
Definition tooNewSuffix : bytes := #": file used as input is too new".

Definition parseTestCacheReason (moduleRoot : bytes) (e : entry) : option bytes :=
  if negb (bool_decide (en_Kind e = #"testcache")) then None
  else if HasPrefix (en_Payload e) #"input list not found:" then Some #"input list not found"
  else if HasPrefix (en_Payload e) tooNewPrefix && HasSuffix (en_Payload e) tooNewSuffix then
    let path := TrimSuffix (TrimPrefix (en_Payload e) tooNewPrefix) tooNewSuffix in
    let path := if isRepoLocalPath path moduleRoot then default path (relLocal moduleRoot path) else path in
    Some (#"input file too new: " ++ path)
  else None.

Definition countPayloadPrefix (entries : list entry) (kind prefix : bytes) : Z :=
  Z.of_nat (length (filter (fun e => en_Kind e = kind /\ HasPrefix (en_Payload e) prefix = true) entries)).

(** [addSet], over all entries: the values of every key. *)
Definition addSet (m : gmap bytes (gset bytes)) (kv : bytes * bytes) : gmap bytes (gset bytes) :=
  <[kv.1 := default ∅ (m !! kv.1) ∪ {[ kv.2 ]}]> m.

Definition collectTestCacheReasons (moduleRoot : bytes) (entries : list entry) : gmap bytes (gset bytes) :=
  foldl addSet ∅ (omap (fun e => pair (en_Package e) <$> parseTestCacheReason moduleRoot e) entries).

Definition collectTestInputs (entries : list entry) : gmap bytes (gset bytes) := foldl addSet ∅ (omap testInput entries).

(** [m[k]++]. *)
Definition increment (m : gmap bytes Z) (k : bytes) : gmap bytes Z := <[k := default 0 (m !! k) + 1]> m.

Definition countAll (ks : list bytes) : gmap bytes Z := foldl increment ∅ ks.

Definition nul : ascii := ascii_of_nat 0.
Definition entryKey (e : entry) : bytes := en_Kind e ++ nul :: en_Payload e.

Definition countEntries (entries : list entry) : gmap bytes Z := countAll (map entryKey entries).

(** ** Small tools *)

(** Duplicates are neighbours once the values are sorted. *)
Fixpoint dropRepeats (prev : bytes) (l : list bytes) : list bytes :=
  match l with
  | [] => []
  | v :: l => if bool_decide (v = prev) then dropRepeats prev l else v :: dropRepeats v l
  end.

Definition uniqSorted (values : list bytes) : list bytes :=
  match sortStrings values with
  | [] => []
  | v :: l => v :: dropRepeats v l
  end.

Definition setKeys (s : gset bytes) : list bytes := sortStrings (elements s).
Definition mapKeys {A : Type} (m : gmap bytes A) : list bytes := sortStrings (elements (dom m)).

(** [equalSet], where the nil set is the empty one. *)
Definition equalSet (a b : gset bytes) : bool :=
  if (size a =? 0)%nat && (size b =? 0)%nat then true
  else if negb (size a =? size b)%nat then false
  else forallb (fun k => bool_decide (k ∈ b)) (elements a).

Definition valuesOf (m : gmap bytes (gset bytes)) (k : bytes) : gset bytes := default ∅ (m !! k).

Definition changedReasonPackages (a b : gmap bytes (gset bytes)) : list bytes :=
  sortStrings (filter (fun k => equalSet (valuesOf a k) (valuesOf b k) = false) (elements (dom a ∪ dom b))).

Definition diffReasonSets (a b : gset bytes) : list bytes * list bytes :=
  (sortStrings (filter (fun k => k ∉ a) (elements b)), sortStrings (filter (fun k => k ∉ b) (elements a))).

(** Rows by falling count, then by key. *)
Definition rowBefore (x y : bytes * Z) : bool := if x.2 =? y.2 then bytes_lt x.1 y.1 else y.2 <? x.2.
Definition sortedCountMap `{SliceSort} (m : gmap bytes Z) : list (bytes * Z) := sort_slice rowBefore (map_to_list m).

(** A list under a bullet, cut at [n]. *)
Definition bullets (indent : bytes) (n : nat) (l : list bytes) : bytes := concat (map (fun p => line (indent ++ p)) (take n l)).
Definition number (n : nat) : bytes := FormatInt (Z.of_nat n).

(** ** One log *)

(** [heading] names the input; its list follows the count and [what], cut at [n]. *)
Definition listed (heading none what : bytes) (n : nat) (l : list bytes) : bytes :=
  if bool_decide (l = []) then line (heading ++ none)
  else line (heading ++ number (length l) ++ what) ++ bullets #"  - " n l.

Definition headModuleIndex : bytes := #"- `moduleIndex`: ".
Definition headTestInputs : bytes := #"- `testInputs`: ".
Definition headTestCache : bytes := #"- `testcache`: ".
Definition headEnv : bytes := #"- `env`: ".

Definition localFiles (moduleRoot : bytes) (l : list bytes) : list bytes :=
  uniqSorted (filter (fun p => isRepoLocalPath p moduleRoot = true) l).

Definition printSingleLogModuleIndexFiles (moduleRoot : bytes) (entries : list entry) : bytes :=
  listed headModuleIndex #"no repo-local file inputs" #" repo-local file inputs" 10 (localFiles moduleRoot (omap moduleFile entries)).

Definition printSingleLogTestInputStats (moduleRoot : bytes) (entries : list entry) : bytes :=
  listed headTestInputs #"no repo-local stat inputs" #" repo-local stat inputs" 10
    (localFiles moduleRoot (map fst (omap testInput entries))).

Definition printSingleLogTestCache (moduleRoot : bytes) (entries : list entry) : bytes :=
  let byPkg := collectTestCacheReasons moduleRoot entries in
  let pkgs := mapKeys byPkg in
  if bool_decide (pkgs = []) then line (headTestCache ++ #"no actionable package miss reasons")
  else line (headTestCache ++ number (length pkgs) ++ #" package(s) with actionable miss reasons") ++
       concat (map (fun pkg => line (#"  - " ++ pkg) ++ bullets #"    * " 3 (setKeys (valuesOf byPkg pkg))) (take 5 pkgs)).

(** The environment variables that show in a log. *)
Definition envSignals (entries : list entry) : list bytes :=
  let seen input payload := (0 <? countPayloadPrefix entries #"testInputs" input) || (0 <? countPayloadPrefix entries #"getenv" payload) in
  (if seen #"env GODEBUG" #"gocachehash=1" then [ #"GODEBUG" ] else []) ++
  (if seen #"env GOTMPDIR" #"/TMPROOT/" then [ #"GOTMPDIR" ] else []) ++
  (if seen #"env TMPDIR" #"/TMPROOT/" then [ #"TMPDIR" ] else []).

Definition printSingleLogEnv (entries : list entry) : bytes :=
  let found := envSignals entries in
  if bool_decide (found = []) then line (headEnv ++ #"no interesting env signals") else line (headEnv ++ Join found #", ").

Definition kindTable `{SliceSort} (m : gmap bytes Z) : bytes :=
  concat (map (fun row => line (column6 row.2 ++ #" " ++ row.1)) (sortedCountMap m)).

Definition printSummary `{SliceSort} (path moduleRoot kind focus : bytes) (entries : list entry) (verbose : bool) : bytes :=
  line (#"log: " ++ path) ++ line (#"kind: " ++ kind) ++ line (#"focus: " ++ focus) ++ line (#"lines: " ++ number (length entries)) ++
  line [] ++ line #"Actionable summary:" ++
  printSingleLogModuleIndexFiles moduleRoot entries ++ printSingleLogTestInputStats moduleRoot entries ++
  printSingleLogTestCache moduleRoot entries ++ printSingleLogEnv entries ++
  (if verbose then
     line [] ++ line #"Kinds:" ++ kindTable (countAll (map en_Kind entries)) ++
     line [] ++ line #"Sample:" ++ concat (map (fun e => line (#"[" ++ en_Kind e ++ #"] " ++ en_Payload e)) (take 20 entries))
   else []).

(** ** Two logs *)

(** The keys whose values differ, those of [a] first. *)
Definition changedKeys {A : Type} (same : A -> option A -> bool) (a b : gmap bytes A) : list bytes :=
  sortStrings (filter (fun p => match a !! p with Some v => same v (b !! p) | None => true end = false) (elements (dom a)) ++
               filter (fun p => p ∉ dom a) (elements (dom b))).

Definition changedModuleFiles (a b : list entry) : list bytes :=
  changedKeys (fun n m => n =? default 0 m) (countAll (omap moduleFile a)) (countAll (omap moduleFile b)).

Definition printModuleIndexFiles (a b : list entry) : bytes :=
  listed headModuleIndex #"no file-list changes" #" file-list changes" 10 (changedModuleFiles a b).

Definition changedTestInputs (a b : list entry) : list bytes :=
  changedKeys (fun s t => equalSet s (default ∅ t)) (collectTestInputs a) (collectTestInputs b).

Definition printTestInputStatChanges (a b : list entry) : bytes :=
  listed headTestInputs #"no file stat input changes" #" file stat input changes" 10 (changedTestInputs a b).

Definition printTestCacheChanges (moduleRoot : bytes) (a b : list entry) : bytes :=
  let am := collectTestCacheReasons moduleRoot a in
  let bm := collectTestCacheReasons moduleRoot b in
  let changed := changedReasonPackages am bm in
  if bool_decide (changed = []) then line (headTestCache ++ #"no actionable package reason changes")
  else line (headTestCache ++ number (length changed) ++ #" package reason changes") ++
       concat (map (fun pkg =>
         let '(added, removed) := diffReasonSets (valuesOf am pkg) (valuesOf bm pkg) in
         line (#"  - " ++ pkg) ++ bullets #"    + " 2 added ++ bullets #"    - " 2 removed) (take 5 changed)).

Definition interesting : list bytes := [ #"env GODEBUG"; #"env GOTMPDIR"; #"env TMPDIR" ].

Definition changedEnv (a b : list entry) : list bytes :=
  filter (fun prefix =>
    negb (countPayloadPrefix a #"testInputs" prefix =? countPayloadPrefix b #"testInputs" prefix) ||
    negb (countPayloadPrefix a #"getenv" (TrimPrefix prefix #"env ") =? countPayloadPrefix b #"getenv" (TrimPrefix prefix #"env "))
    = true) interesting.

Definition printEnvChanges (a b : list entry) : bytes :=
  let changed := changedEnv a b in
  if bool_decide (changed = []) then line (headEnv ++ #"no interesting env churn")
  else line (headEnv ++ #"changed signals") ++ bullets #"  - " (length changed) changed.

Definition printActionableSummary (moduleRoot : bytes) (a b : list entry) : bytes :=
  line [] ++ line #"Actionable summary:" ++ printModuleIndexFiles a b ++ printTestInputStatChanges a b ++
  printTestCacheChanges moduleRoot a b ++ printEnvChanges a b.

(** The loop over the keys: the changes by kind, how many are printed, and the output. *)
Record diffState := mkDiff { df_kindChanges : gmap bytes Z; df_printed : Z; df_out : bytes }.

Definition changeText (kind payload : bytes) (ac bc : Z) : bytes :=
  if ac =? 0 then line [] ++ line (#"ADDED [" ++ kind ++ #"] x" ++ FormatInt bc) ++ line (#"  + " ++ payload)
  else if bc =? 0 then line [] ++ line (#"REMOVED [" ++ kind ++ #"] x" ++ FormatInt ac) ++ line (#"  - " ++ payload)
  else line [] ++ line (#"COUNT CHANGED [" ++ kind ++ #"] " ++ FormatInt ac ++ #" -> " ++ FormatInt bc) ++ line (#"  = " ++ payload).

Definition diffStep (am bm : gmap bytes Z) (limit : Z) (st : diffState) (k : bytes) : diffState :=
  let ac := default 0 (am !! k) in
  let bc := default 0 (bm !! k) in
  if ac =? bc then st
  else
    let '(kind, payload, _) := Cut k [nul] in
    let kindChanges := <[kind := default 0 (df_kindChanges st !! kind) + Z.abs (ac - bc)]> (df_kindChanges st) in
    if limit <=? df_printed st then mkDiff kindChanges (df_printed st) (df_out st)
    else mkDiff kindChanges (df_printed st + 1) (df_out st ++ changeText kind payload ac bc).

Definition diffLoop (am bm : gmap bytes Z) (limit : Z) : diffState :=
  foldl (diffStep am bm limit) (mkDiff ∅ 0 []) (sortStrings (elements (dom am ∪ dom bm))).

Definition printDiff `{SliceSort} (aName bName kind focus moduleRoot : bytes) (a b : list entry) (limit : Z) : bytes :=
  let st := diffLoop (countEntries a) (countEntries b) limit in
  line (#"compare kind=" ++ kind ++ #" focus=" ++ focus) ++ line (#"a: " ++ aName) ++ line (#"b: " ++ bName) ++
  printActionableSummary moduleRoot a b ++ df_out st ++
  (if bool_decide (df_kindChanges st = ∅) then line [] ++ line #"no relevant changes"
   else line [] ++ line #"Changed by kind:" ++ kindTable (df_kindChanges st) ++
        (if limit <=? df_printed st then line [] ++ line (#"output truncated at " ++ FormatInt limit ++ #" changed lines") else [])).

(** ** The tool *)

Record Flags := mkFlags { fl_kind : bytes; fl_focus : bytes; fl_moduleRoot : bytes; fl_limit : Z; fl_verbose : bool; fl_args : list bytes }.

Definition run `{Unquoting} `{SliceSort} (cwd : result bytes) (readFile : bytes -> result bytes) (f : Flags) : result bytes :=
  let parse path := parseEntries (readFile path) (fl_kind f) (fl_focus f) in
  let root := if bool_decide (fl_moduleRoot f = []) then cwd else Ok (fl_moduleRoot f) in
  let abs root := Abs cwd root in
  match fl_args f with
  | [one] =>
      let? root := root in
      let? root := abs root in
      let? a := parse one in
      Ok (printSummary one root (fl_kind f) (fl_focus f) a (fl_verbose f))
  | [one; other] =>
      let? root := root in
      let? root := abs root in
      let? a := parse one in
      let? b := parse other in
      Ok (printDiff one other (fl_kind f) (fl_focus f) root a b (fl_limit f))
  | _ => Err (EMsg "usage: gocachehashdiff [flags] <log-a> [log-b]")
  end.

(** ** Lemmas *)

Lemma elem_of_sortStrings l x : x ∈ sortStrings l <-> x ∈ l.
Proof. unfold sortStrings. by rewrite stable_sort_perm. Qed.

Lemma NoDup_sortStrings l : NoDup l -> NoDup (sortStrings l).
Proof. unfold sortStrings. by rewrite stable_sort_perm. Qed.

(** *** Counting *)

(** How often a value occurs. *)
Definition times {A : Type} `{EqDecision A} (x : A) (l : list A) : Z := Z.of_nat (length (filter (fun y => y = x) l)).

Lemma times_cons {A : Type} `{EqDecision A} (x y : A) l : times x (y :: l) = (if decide (y = x) then 1 else 0) + times x l.
Proof. unfold times. rewrite filter_cons. destruct (decide (y = x)); cbn [length]; lia. Qed.

Lemma times_app {A : Type} `{EqDecision A} (x : A) l k : times x (l ++ k) = times x l + times x k.
Proof. unfold times. rewrite filter_app, length_app. lia. Qed.

Lemma times_pos {A : Type} `{EqDecision A} (x : A) l : x ∈ l <-> 0 < times x l.
Proof.
  induction l as [|y l IH]; [unfold times; cbn; split; [intros []%not_elem_of_nil|lia]|].
  rewrite times_cons, elem_of_cons, IH. assert (0 <= times x l) by (unfold times; lia).
  destruct (decide (y = x)) as [->|Hn]; split; [lia|auto|intros [->|?]; [done|lia]|intros; right; lia].
Qed.

Lemma times_zero {A : Type} `{EqDecision A} (x : A) l : (x ∉ l) -> times x l = 0.
Proof. rewrite times_pos. unfold times. lia. Qed.

Lemma times_perm {A : Type} `{EqDecision A} (l k : list A) : l ≡ₚ k <-> forall x, times x l = times x k.
Proof.
  split; [intros Hp x; unfold times; by rewrite Hp|].
  revert k. induction l as [|x l IH]; intros k Hk.
  - destruct k as [|y k]; [done|]. specialize (Hk y). rewrite times_cons, decide_True in Hk by done.
    unfold times in Hk. cbn [filter length] in Hk. change (filter _ []) with (@nil A) in Hk. cbn [length] in Hk. lia.
  - assert (Hx : x ∈ k).
    { rewrite times_pos, <-Hk, times_cons, decide_True by done. assert (0 <= times x l) by (unfold times; lia). lia. }
    apply list_elem_of_split in Hx as (k1 & k2 & ->). rewrite <-Permutation_middle. apply Permutation_skip, IH. intros z.
    specialize (Hk z). rewrite !times_app, !times_cons in Hk. rewrite times_app. repeat case_decide; lia.
Qed.

Lemma increments m l k : default 0 (foldl increment m l !! k) = default 0 (m !! k) + times k l.
Proof.
  revert m. induction l as [|x l IH]; intros m; [unfold times; cbn; lia|].
  cbn [foldl]. rewrite IH, times_cons. unfold increment.
  destruct (decide (x = k)) as [->|Hn]; [rewrite lookup_insert_eq|rewrite lookup_insert_ne by done]; cbn [from_option]; unfold id; lia.
Qed.

Lemma increments_dom m l : dom (foldl increment m l) = dom m ∪ list_to_set l.
Proof.
  revert m. induction l as [|x l IH]; intros m; [cbn; set_solver|].
  cbn [foldl]. rewrite IH. unfold increment. rewrite dom_insert_L. cbn. set_solver.
Qed.

Lemma countAll_times l k : default 0 (countAll l !! k) = times k l.
Proof. unfold countAll. rewrite increments, lookup_empty. done. Qed.

Lemma elem_of_countAll l k : k ∈ dom (countAll l) <-> k ∈ l.
Proof. unfold countAll. rewrite increments_dom, dom_empty_L. set_solver. Qed.

(** *** Keys *)

Lemma Cut_byte (c : ascii) s t : (c ∉ s) -> Cut (s ++ c :: t) [c] = (s, t, true).
Proof.
  intros Hc. assert (Hi : Index (s ++ c :: t) [c] = Some (length s)).
  { induction s as [|x s IH]; cbn [app Index HasPrefix length].
    - by rewrite bool_decide_eq_true_2.
    - apply not_elem_of_cons in Hc as [Hx Hs]. rewrite bool_decide_eq_false_2 by done. cbn [andb]. by rewrite IH. }
  unfold Cut. rewrite Hi, take_app_length. cbn [length]. by rewrite <-drop_drop, drop_app_length.
Qed.

(** The kind and payload of an entry, which its key is made of. *)
Definition said (e : entry) : bytes * bytes := (en_Kind e, en_Payload e).
Definition keyOf (x : bytes * bytes) : bytes := x.1 ++ nul :: x.2.

Lemma entryKeys l : map entryKey l = map keyOf (map said l).
Proof. by rewrite map_map. Qed.

Lemma keyOf_inj x y : (nul ∉ x.1) -> (nul ∉ y.1) -> keyOf x = keyOf y -> x = y.
Proof.
  intros Hx Hy E. assert (Ec : Cut (keyOf x) [nul] = Cut (keyOf y) [nul]) by (by rewrite E).
  unfold keyOf in Ec. rewrite !Cut_byte in Ec by done. destruct x, y. cbn in *. congruence.
Qed.

Lemma times_key x l : (nul ∉ x.1) -> Forall (fun y => nul ∉ y.1) l -> times (keyOf x) (map keyOf l) = times x l.
Proof.
  intros Hx. induction 1 as [|y l Hy _ IH]; [done|]. cbn [map]. rewrite !times_cons, IH.
  destruct (decide (y = x)) as [->|Hn]; [by rewrite decide_True|].
  rewrite decide_False; [done|]. intros E. apply Hn. by apply keyOf_inj.
Qed.

(** *** The loop over the keys *)

(** The kind and the payload of a key. *)
Definition decode (k : bytes) : bytes * bytes := (fst (fst (Cut k [nul])), snd (fst (Cut k [nul]))).

Lemma decode_keyOf x : (nul ∉ x.1) -> decode (keyOf x) = x.
Proof. intros Hx. unfold decode, keyOf. rewrite Cut_byte by done. by destruct x. Qed.

Section loop.
Context (am bm : gmap bytes Z) (limit : Z).

Definition differs (k : bytes) : Prop := default 0 (am !! k) <> default 0 (bm !! k).
#[export] Instance differs_dec k : Decision (differs k) := _.

Definition addKind (m : gmap bytes Z) (k : bytes) : gmap bytes Z :=
  <[(decode k).1 := default 0 (m !! (decode k).1) + Z.abs (default 0 (am !! k) - default 0 (bm !! k))]> m.

Definition keyText (k : bytes) : bytes := changeText (decode k).1 (decode k).2 (default 0 (am !! k)) (default 0 (bm !! k)).

(** All differences are counted, the first of them are printed. *)
Lemma diffLoop_run ks st :
  foldl (diffStep am bm limit) st ks =
    mkDiff (foldl addKind (df_kindChanges st) (filter differs ks))
      (Z.max (df_printed st) (Z.min limit (df_printed st + Z.of_nat (length (filter differs ks)))))
      (df_out st ++ concat (map keyText (take (Z.to_nat (limit - df_printed st)) (filter differs ks)))).
Proof.
  revert st. induction ks as [|k ks IH]; intros [m p o].
  - cbn [foldl]. change (filter differs []) with (@nil bytes). cbn [foldl length df_kindChanges df_printed df_out].
    rewrite firstn_nil. cbn [map concat]. rewrite app_nil_r. f_equal. lia.
  - cbn [foldl]. rewrite IH, filter_cons. unfold diffStep. cbn [df_kindChanges df_printed df_out].
    destruct (decide (differs k)) as [Hd|Hs]; unfold differs in *.
    + rewrite (proj2 (Z.eqb_neq _ _)) by done. destruct (Cut k [nul]) as [[kind payload] ok] eqn:Ek.
      assert (Edec : decode k = (kind, payload)) by (unfold decode; by rewrite Ek).
      destruct (Z.leb_spec limit p) as [Hle|Hgt]; cbn [df_kindChanges df_printed df_out foldl length].
      * replace (Z.to_nat (limit - p)) with 0%nat by lia. cbn [take map concat]. f_equal; [|lia].
        unfold addKind. by rewrite Edec.
      * replace (Z.to_nat (limit - p)) with (S (Z.to_nat (limit - (p + 1)))) by lia. cbn [take map concat].
        rewrite <-app_assoc. f_equal; [|lia|]; unfold addKind, keyText; by rewrite Edec.
    + assert (Es : default 0 (am !! k) = default 0 (bm !! k)) by (destruct (decide (default 0 (am !! k) = default 0 (bm !! k))); [done|exfalso; auto]).
      by rewrite (proj2 (Z.eqb_eq _ _)).
Qed.

Definition amountOf (ks : list bytes) : Z :=
  foldr (fun k t => Z.abs (default 0 (am !! k) - default 0 (bm !! k)) + t) 0 ks.

Lemma amountOf_cons k ks : amountOf (k :: ks) = Z.abs (default 0 (am !! k) - default 0 (bm !! k)) + amountOf ks.
Proof. done. Qed.

Lemma addKinds m ks kind :
  default 0 (foldl addKind m ks !! kind) = default 0 (m !! kind) + amountOf (filter (fun k => (decode k).1 = kind) ks) /\
  (kind ∈ dom (foldl addKind m ks) <-> kind ∈ dom m \/ kind ∈ map (fun k => (decode k).1) ks).
Proof.
  revert m. induction ks as [|k ks IH]; intros m; [cbn; split; [lia|set_solver]|].
  cbn [foldl]. destruct (IH (addKind m k)) as [-> ->]. rewrite filter_cons. cbn [map].
  unfold addKind at 1 2. rewrite dom_insert_L. split; [|set_solver].
  destruct (decide _) as [E|Hn]; [rewrite amountOf_cons, E, lookup_insert_eq|rewrite lookup_insert_ne by done]; cbn [from_option]; unfold id; lia.
Qed.
End loop.

(** *** The bytes of a line are those of the log *)

Lemma elem_of_part (c : ascii) n (s : bytes) : c ∈ take n s \/ c ∈ drop n s -> c ∈ s.
Proof. rewrite <-elem_of_app. by rewrite take_drop. Qed.

Lemma split_on_bytes sep s l c : l ∈ split_on sep s -> c ∈ l -> c ∈ s.
Proof.
  revert l. induction s as [|x s IH]; intros l; cbn [split_on].
  - intros ->%list_elem_of_singleton Hc. done.
  - destruct (bool_decide (x = sep)).
    + intros [->|Hl]%elem_of_cons Hc; [by apply not_elem_of_nil in Hc|]. right. by apply (IH l).
    + destruct (split_on sep s) as [|l0 ls].
      * intros ->%list_elem_of_singleton Hc. apply list_elem_of_singleton in Hc as ->. left.
      * intros [->|Hl]%elem_of_cons Hc.
        -- apply elem_of_cons in Hc as [->|Hc]; [left|]. right. apply (IH l0); [left|done].
        -- right. apply (IH l); [by right|done].
Qed.

Lemma scan_tokens_bytes max ls t c : t ∈ fst (scan_tokens max ls) -> c ∈ t -> exists l, l ∈ ls /\ c ∈ l.
Proof.
  induction ls as [|l ls IH]; cbn [scan_tokens]; [intros []%not_elem_of_nil|].
  destruct (blen l <? max); [|intros []%not_elem_of_nil].
  destruct (scan_tokens max ls) as [ts e]. cbn [fst] in *. intros [->|Ht]%elem_of_cons Hc.
  - exists l. split; [left|]. unfold dropCR in Hc. destruct (last l); [|done].
    case_bool_decide; [|done]. eapply elem_of_part. by left.
  - destruct (IH Ht Hc) as (k & Hk & Hkc). exists k. split; [by right|done].
Qed.

Lemma ScanLines_bytes max s t c : t ∈ fst (ScanLines max s) -> c ∈ t -> c ∈ s.
Proof.
  intros Ht Hc. destruct (scan_tokens_bytes _ _ _ _ Ht Hc) as (l & Hl & Hlc).
  apply (split_on_bytes newline s l c); [|done]. unfold raw_lines in Hl.
  destruct (last (split_on newline s)) as [[|]|]; try done. apply elem_of_take in Hl as (i & Hi & _). apply list_elem_of_lookup. by exists i.
Qed.

Lemma parsed_kind `{Unquoting} l e c : parseEntry l = Some e -> c ∈ en_Kind e -> c ∈ l \/ c ∈ #"testcache".
Proof.
  unfold parseEntry. destruct (parseTestCacheEntry l) as [e'|] eqn:Et.
  - intros [= <-] Hc. right. unfold parseTestCacheEntry in Et. destruct (negb _); [done|].
    destruct (Cut _ _) as [[pkg payload] ok]. destruct (_ || _); [done|]. by injection Et as <-.
  - destruct (_ || _); [done|]. destruct (Index l #"]") as [i|]; [|done]. destruct (negb _); [done|].
    intros [= <-]. cbn [en_Kind]. intros Hc. left.
    apply (elem_of_part c i). left. apply (elem_of_part c 5). by right.
Qed.

(** A log without NUL bytes has none in its kinds. *)
Lemma parsed_kinds `{Unquoting} data kind focus es :
  parseEntries (Ok data) kind focus = Ok es -> (nul ∉ data) -> Forall (fun e => nul ∉ en_Kind e) es.
Proof.
  unfold parseEntries. cbn. destruct (ScanLines maxLine data) as [ls tooLong] eqn:Es.
  destruct tooLong; [done|]. intros [= <-] Hn. apply Forall_forall. intros e [_ He]%list_elem_of_filter Hc.
  apply list_elem_of_omap in He as (l & Hl & He). destruct (parsed_kind l e nul He Hc) as [Hin|Hin].
  - apply Hn. apply (ScanLines_bytes maxLine data l); [by rewrite Es|done].
  - revert Hin. apply (bool_decide_eq_false_1 (nul ∈ #"testcache")). vm_compute. reflexivity.
Qed.

(** *** The changes between two logs *)

Section changes.
Context (a b : list entry).
Context (Ha : Forall (fun e => nul ∉ en_Kind e) a) (Hb : Forall (fun e => nul ∉ en_Kind e) b).

Abbreviation inA := (fun x : bytes * bytes => times x (map said a)).
Abbreviation inB := (fun x : bytes * bytes => times x (map said b)).

Definition allKeys : list bytes := sortStrings (elements (dom (countEntries a) ∪ dom (countEntries b))).

(** The kinds and payloads that occur more often in one log, in the order of their keys. *)
Definition changes : list (bytes * bytes) := map decode (filter (differs (countEntries a) (countEntries b)) allKeys).

Lemma said_free (l : list entry) : Forall (fun e => nul ∉ en_Kind e) l -> Forall (fun x => nul ∉ x.1) (map said l).
Proof. intros Hl. by apply Forall_map. Qed.

Lemma count_said l x : Forall (fun e => nul ∉ en_Kind e) l -> (nul ∉ x.1) -> default 0 (countEntries l !! keyOf x) = times x (map said l).
Proof.
  intros Hl Hx. unfold countEntries. rewrite countAll_times, entryKeys. apply times_key; [done|by apply said_free].
Qed.

Lemma elem_of_allKeys k : k ∈ allKeys <-> exists x, k = keyOf x /\ (x ∈ map said a \/ x ∈ map said b).
Proof.
  unfold allKeys, countEntries. rewrite elem_of_sortStrings, elem_of_elements, elem_of_union, !elem_of_countAll, !entryKeys.
  rewrite !list_elem_of_fmap. firstorder.
Qed.

Lemma listed_free x : x ∈ map said a \/ x ∈ map said b -> nul ∉ x.1.
Proof. apply said_free in Ha as Ha', Hb as Hb'. rewrite Forall_forall in Ha', Hb'. intros [?|?]; auto. Qed.

Lemma changed_keys : filter (differs (countEntries a) (countEntries b)) allKeys = map keyOf changes.
Proof.
  unfold changes. rewrite map_map. symmetry. erewrite map_ext_in; [apply map_id|]. intros k Hk%list_elem_of_In.
  apply list_elem_of_filter in Hk as [_ Hk]. apply elem_of_allKeys in Hk as (x & -> & Hx). rewrite decode_keyOf; [done|by apply listed_free].
Qed.

Lemma elem_of_changes x : x ∈ changes <-> inA x <> inB x.
Proof.
  unfold changes. rewrite list_elem_of_fmap. split.
  - intros (k & -> & [Hd Hk]%list_elem_of_filter). apply elem_of_allKeys in Hk as (x & -> & Hx).
    assert (Hf := listed_free x Hx). rewrite decode_keyOf by done. unfold differs in Hd. by rewrite !count_said in Hd.
  - intros Hn. assert (Hx : x ∈ map said a \/ x ∈ map said b).
    { destruct (decide (x ∈ map said a)); [by left|]. right. apply times_pos. rewrite times_zero in Hn by done. unfold times in *. lia. }
    assert (Hf := listed_free x Hx). exists (keyOf x). rewrite decode_keyOf by done. split; [done|].
    apply list_elem_of_filter. split; [unfold differs; by rewrite !count_said|]. apply elem_of_allKeys. eauto.
Qed.

Lemma changes_keys_unique : NoDup (map keyOf changes).
Proof. rewrite <-changed_keys. apply NoDup_filter, NoDup_sortStrings, NoDup_elements. Qed.

Lemma changes_unique : NoDup changes.
Proof. eapply NoDup_fmap_1, changes_keys_unique. Qed.

Lemma ordered_filter {A : Type} (less : A -> A -> bool) `{!StrictWeak less} (P : A -> Prop) `{!forall x, Decision (P x)} l :
  ordered_by less l -> ordered_by less (filter P l).
Proof.
  induction l as [|x l IH]; intros Hl; [done|]. apply ordered_by_cons in Hl as [Hx Hl]. rewrite filter_cons.
  destruct (decide (P x)); [|by apply IH]. apply ordered_by_cons. split; [|by apply IH].
  rewrite Forall_forall in Hx |- *. intros y [_ Hy]%list_elem_of_filter. by apply Hx.
Qed.

Lemma changes_ordered : ordered_by bytes_lt (map keyOf changes).
Proof. rewrite <-changed_keys. apply ordered_filter; [apply _|]. apply stable_sort_ordered. apply _. Qed.

Lemma no_changes : changes = [] <-> map said a ≡ₚ map said b.
Proof.
  rewrite times_perm. split.
  - intros E x. destruct (decide (inA x = inB x)) as [|Hn]; [done|]. apply elem_of_changes in Hn. rewrite E in Hn. by apply not_elem_of_nil in Hn.
  - intros Ht. destruct changes as [|x l] eqn:E; [done|]. exfalso.
    assert (Hx : x ∈ changes) by (rewrite E; left). apply elem_of_changes in Hx. auto.
Qed.

(** How many entries of a kind one log has and the other has not. *)
Definition amount (kind : bytes) : Z :=
  foldr (fun x t => Z.abs (inA x - inB x) + t) 0 (filter (fun x => x.1 = kind) changes).

Lemma diffLoop_changes limit :
  exists kinds, diffLoop (countEntries a) (countEntries b) limit =
      mkDiff kinds (Z.max 0 (Z.min limit (Z.of_nat (length changes))))
        (concat (map (fun x => changeText x.1 x.2 (inA x) (inB x)) (take (Z.to_nat limit) changes))) /\
    (forall kind, default 0 (kinds !! kind) = amount kind) /\ (kinds = ∅ <-> changes = []).
Proof.
  assert (Hfree : forall x, x ∈ changes -> nul ∉ x.1).
  { intros x Hx%elem_of_changes. apply listed_free. destruct (decide (x ∈ map said a)); [by left|]. right. apply times_pos.
    rewrite times_zero in Hx by done. unfold times in *. lia. }
  unfold diffLoop. rewrite diffLoop_run. cbn [df_kindChanges df_printed df_out app]. fold allKeys. rewrite changed_keys, Z.sub_0_r.
  rewrite length_map, firstn_map, map_map. eexists. split; [f_equal|].
  - f_equal. apply map_ext_in. intros x Hx%list_elem_of_In.
    assert (Hin : x ∈ changes) by (apply elem_of_take in Hx as (i & Hi & _); apply list_elem_of_lookup; by exists i).
    unfold keyText. rewrite decode_keyOf, !count_said by auto. done.
  - split.
    + intros kind. destruct (addKinds (countEntries a) (countEntries b) ∅ (map keyOf changes) kind) as [-> _].
      rewrite lookup_empty. cbn [from_option]. unfold id, amount, amountOf. rewrite Z.add_0_l.
      clear -Hfree Ha Hb. induction changes as [|x l IH]; [done|]. cbn [map]. rewrite !filter_cons, decode_keyOf by (apply Hfree; left).
      destruct (decide (x.1 = kind)); [cbn [foldr]; rewrite !count_said by (done || (apply Hfree; left))|]; rewrite IH; try done; intros y Hy; apply Hfree; by right.
    + split.
      * intros E. destruct changes as [|x l] eqn:El; [done|]. exfalso.
        destruct (addKinds (countEntries a) (countEntries b) ∅ (map keyOf (x :: l)) x.1) as [_ Hd]. rewrite E, dom_empty_L in Hd.
        apply (not_elem_of_empty (C := gset bytes) x.1). apply Hd. right. cbn [map]. rewrite decode_keyOf by (apply Hfree; left). left.
      * by intros ->.
Qed.
End changes.

(** *** Sets and their changes *)

Lemma equalSet_spec s t : equalSet s t = true <-> s = t.
Proof.
  unfold equalSet. destruct (Nat.eqb_spec (size s) 0) as [Hs|Hs], (Nat.eqb_spec (size t) 0) as [Ht|Ht]; cbn [andb negb].
  - apply size_empty_inv in Hs, Ht. split; [|done]. intros _. set_solver.
  - rewrite (proj2 (Nat.eqb_neq _ _)) by lia. split; [done|]. intros ->. done.
  - rewrite (proj2 (Nat.eqb_neq _ _)) by lia. split; [done|]. intros ->. done.
  - destruct (Nat.eqb_spec (size s) (size t)) as [E|Hn]; cbn [negb]; [|split; [done|by intros ->]].
    rewrite forallb_forall. split.
    + intros Hall. apply set_subseteq_size_eq; [|lia]. intros k Hk%elem_of_elements%list_elem_of_In.
      by apply Hall, bool_decide_eq_true_1 in Hk.
    + intros -> k Hk%list_elem_of_In%elem_of_elements. by apply bool_decide_eq_true_2.
Qed.

Lemma addSets m l k v : v ∈ valuesOf (foldl addSet m l) k <-> v ∈ valuesOf m k \/ (k, v) ∈ l.
Proof.
  revert m. induction l as [|[k' v'] l IH]; intros m; cbn [foldl]; [set_solver|]. rewrite IH, elem_of_cons. clear IH.
  unfold valuesOf, addSet. cbn [fst snd]. destruct (decide (k' = k)) as [->|Hn].
  - rewrite lookup_insert_eq. cbn [from_option]. unfold id. rewrite elem_of_union, elem_of_singleton.
    split; [intros [[?| ->]|?]; auto|intros [?|[[= ->]|?]]; auto].
  - rewrite lookup_insert_ne by done. split; [intros [?|?]; auto|intros [?|[[= -> ->]|?]]; auto; done].
Qed.

Lemma addSets_dom m l k : k ∈ dom (foldl addSet m l) <-> k ∈ dom m \/ k ∈ map fst l.
Proof.
  revert m. induction l as [|[k' v'] l IH]; intros m; cbn [foldl]; [set_solver|]. rewrite IH. unfold addSet. cbn [fst map].
  rewrite dom_insert_L, elem_of_union, elem_of_singleton, elem_of_cons. intuition.
Qed.

Lemma elem_of_changedKeys {A : Type} (same : A -> option A -> bool) (a b : gmap bytes A) p :
  p ∈ changedKeys same a b <-> (exists v, a !! p = Some v /\ same v (b !! p) = false) \/ a !! p = None /\ is_Some (b !! p).
Proof.
  unfold changedKeys. rewrite elem_of_sortStrings, elem_of_app, !list_elem_of_filter, !elem_of_elements, !elem_of_dom.
  destruct (a !! p) as [v|]; split.
  - intros [[Hs _]|[Hn _]]; [left; eauto|destruct Hn; by eexists].
  - intros [(v' & [= <-] & Hs)|[Hn _]]; [left; split; [done|by eexists]|done].
  - intros [[Hs _]|[_ Hb]]; [done|by right].
  - intros [(v' & Hv & _)|[_ Hb]]; [done|right]. split; [by intros [? ?]|done].
Qed.

Lemma changedModuleFiles_spec a b p :
  p ∈ changedModuleFiles a b <-> times p (omap moduleFile a) <> times p (omap moduleFile b).
Proof.
  unfold changedModuleFiles. rewrite elem_of_changedKeys. rewrite <-!countAll_times.
  assert (Hp : forall l, countAll l !! p = None \/ exists n, countAll l !! p = Some n /\ 0 < n).
  { intros l. destruct (countAll l !! p) as [n|] eqn:En; [right|by left]. exists n. split; [done|].
    assert (Ht := countAll_times l p). rewrite En in Ht. cbn in Ht. rewrite Ht. apply times_pos, elem_of_countAll, elem_of_dom. by eexists. }
  destruct (Hp (omap moduleFile a)) as [->|(n & -> & Hn)], (Hp (omap moduleFile b)) as [->|(m & -> & Hm)]; cbn [from_option]; unfold id; split.
  - intros [(? & ? & _)|[_ [? ?]]]; done.
  - done.
  - intros _. lia.
  - intros _. right. split; [done|by eexists].
  - intros _. lia.
  - intros _. left. exists n. split; [done|]. apply Z.eqb_neq. cbn. lia.
  - intros [(v & [= <-] & E%Z.eqb_neq)|[? _]]; [|done]. exact E.
  - intros E. left. exists n. split; [done|]. by apply Z.eqb_neq.
Qed.

Lemma changedTestInputs_spec a b p :
  p ∈ changedTestInputs a b <-> exists h, ~ ((p, h) ∈ omap testInput a <-> (p, h) ∈ omap testInput b).
Proof.
  unfold changedTestInputs. rewrite elem_of_changedKeys.
  assert (Hv : forall l h, h ∈ valuesOf (collectTestInputs l) p <-> (p, h) ∈ omap testInput l).
  { intros l h. unfold collectTestInputs. rewrite addSets. unfold valuesOf at 1. rewrite lookup_empty. set_solver. }
  assert (Hne : forall l, collectTestInputs l !! p = None \/ exists s, collectTestInputs l !! p = Some s /\ s <> ∅).
  { intros l. destruct (collectTestInputs l !! p) as [s|] eqn:Es; [right|by left]. exists s. split; [done|]. intros ->.
    assert (Hd : p ∈ dom (collectTestInputs l)) by (rewrite elem_of_dom; by eexists).
    unfold collectTestInputs in Hd. apply addSets_dom in Hd as [Hd|Hd]; [set_solver|].
    apply list_elem_of_fmap in Hd as ([p' h] & Ep & Hd). cbn [fst] in Ep. subst p'. apply Hv in Hd. unfold valuesOf in Hd. rewrite Es in Hd. by apply not_elem_of_empty in Hd. }
  setoid_rewrite <-Hv. unfold valuesOf.
  assert (Hdiff : forall s t : gset bytes, s <> t <-> exists h, ~ (h ∈ s <-> h ∈ t)).
  { intros s t. split; [|intros (h & Hh) ->; by apply Hh].
    intros Hst. destruct (set_choose_or_empty ((s ∖ t) ∪ (t ∖ s))) as [[h Hh]|He].
    - exists h. apply elem_of_union in Hh as [[? ?]%elem_of_difference|[? ?]%elem_of_difference]; intuition.
    - destruct Hst. apply set_eq. intros h. destruct (decide (h ∈ s)), (decide (h ∈ t)); set_solver. }
  rewrite <-Hdiff. destruct (Hne a) as [->|(s & -> & Hs)], (Hne b) as [->|(t & -> & Ht)]; cbn [from_option]; unfold id; split.
  - intros [(? & ? & _)|[_ [? ?]]]; done.
  - done.
  - intros _. done.
  - intros _. right. split; [done|by eexists].
  - intros _. done.
  - intros _. left. exists s. split; [done|]. apply not_true_is_false. by rewrite equalSet_spec.
  - intros [(v & [= <-] & E)|[? _]]; [|done]. intros ->. by rewrite (proj2 (equalSet_spec t t)) in E.
  - intros E. left. exists s. split; [done|]. apply not_true_is_false. by rewrite equalSet_spec.
Qed.

(** *** What differs in every run *)

Lemma HasPrefix_stop (c : ascii) x y p : (c ∉ p) -> HasPrefix (x ++ c :: y) p = HasPrefix x p.
Proof.
  revert x. induction p as [|o p IH]; intros x Hc; [by destruct x|]. apply not_elem_of_cons in Hc as [Ho Hc].
  destruct x as [|x0 x]; cbn [app HasPrefix]; [by rewrite bool_decide_eq_false_2|by rewrite IH].
Qed.

Lemma HasPrefix_length x p : HasPrefix x p = true -> (length p <= length x)%nat.
Proof. intros (t & ->)%HasPrefix_spec. rewrite length_app. lia. Qed.

(** No match of a pattern reaches over a byte that is not in it. *)
Lemma replaceFrom_stop (c : ascii) old new x y skip :
  (c ∉ old) -> old <> [] -> (skip <= length x)%nat ->
  replaceFrom skip (x ++ c :: y) old new = replaceFrom skip x old new ++ c :: replaceFrom 0 y old new.
Proof.
  intros Hc Ho. revert skip. induction x as [|x0 x IH]; intros skip Hs; cbn [length] in Hs.
  - replace skip with 0%nat by lia. cbn [app replaceFrom]. destruct old as [|o old]; [done|]. cbn [HasPrefix].
    apply not_elem_of_cons in Hc as [Hn _]. by rewrite bool_decide_eq_false_2.
  - destruct skip as [|skip]; cbn [app replaceFrom]; [|apply IH; lia].
    change (HasPrefix (x0 :: x ++ c :: y) old) with (HasPrefix ((x0 :: x) ++ c :: y) old). rewrite (HasPrefix_stop c (x0 :: x) y old Hc). destruct (HasPrefix (x0 :: x) old) eqn:E.
    + apply HasPrefix_length in E. cbn [length] in E. rewrite IH by lia. by rewrite app_assoc.
    + by rewrite IH by lia.
Qed.

Lemma ReplaceAll_digits old new x d y :
  Forall (fun c => is_digit c = false) old -> old <> [] -> Forall (fun c => is_digit c = true) d -> d <> [] ->
  ReplaceAll (x ++ d ++ y) old new = ReplaceAll x old new ++ d ++ ReplaceAll y old new.
Proof.
  intros Hold Ho Hd Hne. assert (Hstop : forall c, is_digit c = true -> c ∉ old).
  { intros c Hc Hin. rewrite Forall_forall in Hold. rewrite (Hold c Hin) in Hc. done. }
  destruct d as [|c d]; [done|]. clear Hne. revert x c Hd. induction d as [|c' d IH]; intros x c Hd; apply Forall_cons in Hd as [Hc Hd].
  - cbn [app]. apply replaceFrom_stop; [by apply Hstop|done|lia].
  - cbn [app]. unfold ReplaceAll at 1. rewrite replaceFrom_stop by (try apply Hstop; done || lia).
    specialize (IH [] c' Hd). unfold ReplaceAll at 1 in IH. cbn [app] in IH. by rewrite IH.
Qed.

Lemma Index_stop (c : ascii) x y p i : (c ∉ p) -> Index x p = Some i -> Index (x ++ c :: y) p = Some i.
Proof.
  intros Hc. revert i. induction x as [|x0 x IH]; intros i; cbn [app Index].
  - destruct (HasPrefix [] p) eqn:E; [|done]. intros [= <-].
    change (HasPrefix (c :: y) p) with (HasPrefix ([] ++ c :: y) p). by rewrite (HasPrefix_stop c [] y p Hc), E.
  - change (HasPrefix (x0 :: x ++ c :: y) p) with (HasPrefix ((x0 :: x) ++ c :: y) p).
    rewrite (HasPrefix_stop c (x0 :: x) y p Hc). destruct (HasPrefix (x0 :: x) p); [done|].
    destruct (Index x p) as [j|] eqn:E; [|done]. intros [= <-]. by rewrite (IH j).
Qed.

Definition scrubRoots (s : bytes) : bytes :=
  ReplaceAll (ReplaceAll s #"/var/folders/" #"/TMPROOT/") #"/tmp/go-build" #"/TMPROOT/go-build".

(** The text ends with its first build directory's name. *)
Definition ends_in_build_dir (x : bytes) : Prop := Index (scrubRoots x) #"go-build" = Some (length (scrubRoots x) - 8)%nat.

Lemma scrubGoBuildDir_digits x d y :
  ends_in_build_dir x -> Forall (fun c => is_digit c = true) d -> d <> [] ->
  scrubGoBuildDir (x ++ d ++ y) = take (length (scrubRoots x) - 8) (scrubRoots x) ++ #"go-build<id>" ++ dropDigits (scrubRoots y).
Proof.
  intros Hx Hd Hne. assert (Hfree : forall s, forallb (fun c => negb (is_digit c)) s = true -> Forall (fun c => is_digit c = false) s).
  { intros s Hs. rewrite forallb_forall in Hs. apply Forall_forall. intros c Hc%list_elem_of_In. by apply negb_true_iff, Hs. }
  unfold scrubGoBuildDir. rewrite !ReplaceAll_digits by (done || (apply Hfree; reflexivity)).
  fold (scrubRoots x). fold (scrubRoots y).
  assert (Hlen : (8 <= length (scrubRoots x))%nat).
  { unfold ends_in_build_dir in Hx. remember (scrubRoots x) as X. clear -Hx. revert Hx. generalize (length X - 8)%nat. induction X as [|c X IH]; intros i; cbn [Index].
    - done.
    - destruct (HasPrefix (c :: X) #"go-build") eqn:E; [intros _; by apply HasPrefix_length in E|].
      destruct (Index X #"go-build") as [j|] eqn:Ej; [|done]. intros _. cbn [length]. assert (8 <= length X)%nat by (by apply (IH j)). lia. }
  assert (Hi : Index (scrubRoots x ++ d ++ scrubRoots y) #"go-build" = Some (length (scrubRoots x) - 8)%nat).
  { destruct d as [|c d]; [done|]. cbn [app]. apply Index_stop; [|done]. apply Forall_cons in Hd as [Hc _].
    assert (Hg := Hfree #"go-build" eq_refl). rewrite Forall_forall in Hg. intros Hin. rewrite (Hg c Hin) in Hc. done. }
  rewrite Hi. rewrite take_app_le by lia. f_equal. f_equal.
  replace (length (scrubRoots x) - 8 + 8)%nat with (length (scrubRoots x)) by lia. rewrite drop_app_length.
  clear -Hd. induction Hd as [|c d Hc _ IH]; [done|]. cbn [app dropDigits]. by rewrite Hc.
Qed.

(** *** A line of the go command's log *)

Lemma TrimPrefix_app' p s : TrimPrefix (p ++ s) p = s.
Proof. unfold TrimPrefix. by rewrite HasPrefix_app, drop_app_length. Qed.

Lemma TrimSuffix_app' p s : TrimSuffix (p ++ s) s = p.
Proof.
  unfold TrimSuffix, HasSuffix. rewrite reverse_app, HasPrefix_app, length_app.
  replace (length p + length s - length s)%nat with (length p) by lia. apply take_app_length.
Qed.

Lemma Index_byte (c : ascii) s t : (c ∉ s) -> Index (s ++ c :: t) [c] = Some (length s).
Proof.
  intros Hc. induction s as [|x s IH]; cbn [app Index HasPrefix length]; [by rewrite bool_decide_eq_true_2|].
  apply not_elem_of_cons in Hc as [Hx Hs]. rewrite bool_decide_eq_false_2 by done. cbn [andb]. by rewrite IH.
Qed.

Lemma Contains_app x p y : Contains (x ++ p ++ y) p = true.
Proof.
  unfold Contains. assert (Hi : exists i, Index (x ++ p ++ y) p = Some i); [|by destruct Hi as [i ->]].
  induction x as [|c x IH]; cbn [app].
  - destruct (p ++ y) as [|c t] eqn:E; cbn [Index]; rewrite <-E, HasPrefix_app; eauto.
  - cbn [Index]. destruct (HasPrefix _ p); [eauto|]. destruct IH as [i ->]. eexists. reflexivity.
Qed.

(** What [fmt.Fprintf(os.Stderr, "HASH[%s]: %q\n", ...)] writes for a line of input. *)
Definition logLine `{Unquoting} (kind payload : bytes) : bytes := #"HASH[" ++ kind ++ #"]: " ++ Quote (payload ++ [newline]).

Lemma parse_logged `{Unquoting} kind payload :
  ("]"%char ∉ kind) -> parseEntry (logLine kind payload) = Some (mkHashEntry kind (normalizePayload kind payload) []).
Proof.
  intros Hk. unfold parseEntry, logLine. set (q := Quote (payload ++ [newline])).
  assert (parseTestCacheEntry (#"HASH[" ++ kind ++ #"]: " ++ q) = None) as -> by reflexivity.
  rewrite HasPrefix_app. replace (#"HASH[" ++ kind ++ #"]: " ++ q) with ((#"HASH[" ++ kind) ++ #"]: " ++ q) by (by rewrite <-app_assoc).
  rewrite Contains_app. cbn [negb orb].
  assert (Hi : Index ((#"HASH[" ++ kind) ++ #"]: " ++ q) #"]" = Some (5 + length kind)%nat).
  { change (#"]: " ++ q) with ("]"%char :: #": " ++ q). rewrite (Index_byte "]"%char (#"HASH[" ++ kind)).
    - by rewrite length_app.
    - rewrite not_elem_of_app. split; [|done]. apply (bool_decide_eq_false_1 _). vm_compute. reflexivity. }
  rewrite Hi. replace (5 + length kind)%nat with (length (#"HASH[" ++ kind)) by (by rewrite length_app).
  rewrite take_app_length. change (drop 5 (#"HASH[" ++ kind)) with kind.
  replace ((#"HASH[" ++ kind) ++ #"]: " ++ q) with ((#"HASH[" ++ kind ++ #"]: ") ++ q) by (by rewrite <-!app_assoc).
  rewrite HasPrefix_app, TrimPrefix_app'. cbn [negb]. unfold q. by rewrite Unquote_Quote, TrimSuffix_app'.
Qed.

(** ** Theorems *)

(** C38: the comparison by kind and payload is exact.  For two logs without NUL bytes it
    prints, in the order of their keys and up to the limit, every kind and payload that
    one log has more often than the other, with both counts, and nothing else; it says
    that there are no changes exactly when the logs have the same kinds with the same
    payloads, as often and in any order; and the counts by kind are those of all changes,
    printed or not.  The package that an entry of the test cache names is not part of
    what is compared ([packages_are_not_compared]): logs that differ in it alone have
    no changes here, whatever the summary above says of them. *)
Theorem diff_is_exact `{Unquoting} `{SliceSort} cwd readFile f one other d1 d2 text
    (Hargs : fl_args f = [one; other]) (Hone : readFile one = Ok d1) (Hother : readFile other = Ok d2)
    (Hn1 : nul ∉ d1) (Hn2 : nul ∉ d2) (Hrun : run cwd readFile f = Ok text) :
  exists root a b xs kinds,
    parseEntries (Ok d1) (fl_kind f) (fl_focus f) = Ok a /\ parseEntries (Ok d2) (fl_kind f) (fl_focus f) = Ok b /\
    NoDup xs /\ (forall x, x ∈ xs <-> times x (map said a) <> times x (map said b)) /\ ordered_by bytes_lt (map keyOf xs) /\
    (xs = [] <-> map said a ≡ₚ map said b) /\
    (forall kind, default 0 (kinds !! kind) =
       foldr (fun x t => Z.abs (times x (map said a) - times x (map said b)) + t) 0 (filter (fun x => x.1 = kind) xs)) /\
    text = line (#"compare kind=" ++ fl_kind f ++ #" focus=" ++ fl_focus f) ++ line (#"a: " ++ one) ++ line (#"b: " ++ other) ++
      printActionableSummary root a b ++
      concat (map (fun x => changeText x.1 x.2 (times x (map said a)) (times x (map said b))) (take (Z.to_nat (fl_limit f)) xs)) ++
      (if bool_decide (xs = []) then line [] ++ line #"no relevant changes"
       else line [] ++ line #"Changed by kind:" ++ kindTable kinds ++
            (if fl_limit f <=? Z.of_nat (length xs)
             then line [] ++ line (#"output truncated at " ++ FormatInt (fl_limit f) ++ #" changed lines") else [])).
Proof.
  unfold run in Hrun. rewrite Hargs in Hrun.
  destruct (if bool_decide (fl_moduleRoot f = []) then cwd else _) as [root0|e]; [|done].
  cbn beta iota in Hrun. destruct (Abs cwd root0) as [root|e]; [|done]. rewrite Hone, Hother in Hrun.
  destruct (parseEntries (Ok d1) _ _) as [a|e] eqn:Ea; [|done]. destruct (parseEntries (Ok d2) _ _) as [b|e] eqn:Eb; [|done].
  assert (Ha := parsed_kinds d1 _ _ a Ea Hn1). assert (Hb := parsed_kinds d2 _ _ b Eb Hn2).
  injection Hrun as <-. destruct (diffLoop_changes a b Ha Hb (fl_limit f)) as (kinds & El & Hk & Hz).
  exists root, a, b, (changes a b), kinds. split; [done|]. split; [done|]. split; [by apply changes_unique|].
  split; [intros x; by apply elem_of_changes|]. split; [by apply changes_ordered|]. split; [by apply no_changes|].
  split; [exact Hk|]. unfold printDiff. rewrite El. cbn [df_out df_kindChanges df_printed].
  do 5 f_equal. rewrite (bool_decide_ext _ _ Hz). destruct (bool_decide_reflect (changes a b = [])) as [|Hne]; [done|].
  do 3 f_equal. assert (0 < length (changes a b))%nat by (destruct (changes a b); [done|cbn; lia]).
  assert (El2 : (fl_limit f <=? Z.max 0 (Z.min (fl_limit f) (Z.of_nat (length (changes a b))))) = (fl_limit f <=? Z.of_nat (length (changes a b)))).
  { apply eq_true_iff_eq. rewrite !Z.leb_le. lia. }
  by rewrite El2.
Qed.

(** What every run names differently does not show.  The temporary directory in
    which the go command builds has a number of its own in every run; wherever a log
    names the first such directory of a line, its entry is the same for any number. *)
Theorem build_directories_do_not_show `{Unquoting} kind x d d' y
    (Hkind : kind ∈ [ #"open"; #"stat" ]) (Hx : ends_in_build_dir x)
    (Hd : Forall (fun c => is_digit c = true) d /\ d <> []) (Hd' : Forall (fun c => is_digit c = true) d' /\ d' <> [])
    (Hg : forallb graphic (x ++ y) = true) :
  exists p, parseEntry (logLine kind (x ++ d ++ y)) = Some (mkHashEntry kind p []) /\
    parseEntry (logLine kind (x ++ d' ++ y)) = Some (mkHashEntry kind p []) /\
    p = take (length (scrubRoots x) - 8) (scrubRoots x) ++ #"go-build<id>" ++ dropDigits (scrubRoots y).
Proof.
  assert (Hfree : "]"%char ∉ kind).
  { apply elem_of_cons in Hkind as [->|[->|[]%not_elem_of_nil]%elem_of_cons]; apply (bool_decide_eq_false_1 _); vm_compute; reflexivity. }
  assert (Hall : forall n, Forall (fun c => is_digit c = true) n -> n <> [] ->
    normalizePayload kind (x ++ n ++ y) = take (length (scrubRoots x) - 8) (scrubRoots x) ++ #"go-build<id>" ++ dropDigits (scrubRoots y)).
  { intros n Hn Hne. unfold normalizePayload. rewrite TrimSpace_graphic.
    - rewrite scrubGoBuildDir_digits by done.
      apply elem_of_cons in Hkind as [->|[->|[]%not_elem_of_nil]%elem_of_cons]; reflexivity.
    - rewrite !forallb_app in *. apply andb_prop in Hg as [-> ->]. rewrite andb_true_r. cbn [andb]. apply forallb_forall.
      intros c Hc%list_elem_of_In. rewrite Forall_forall in Hn. by apply digit_graphic, Hn. }
  eexists. rewrite !parse_logged by done. rewrite !Hall by naive_solver. split; [done|]. split; done.
Qed.

(** ** Witnesses *)

(** Quoting by a mark at the front, for the examples. *)
Definition markQuotes : Unquoting :=
  {| Quote s := "'"%char :: s; Unquote s := match s with c :: s => if bool_decide (c = "'"%char) then Some s else None | [] => None end;
     Unquote_Quote s := eq_refl |}.

Definition logA : bytes :=
  @logLine markQuotes #"open" #"/tmp/go-build12/b001/x.go" ++ [newline] ++ #"testcache: p/q: input list not found: 1" ++ [newline] ++ #"noise".
Definition logB : bytes :=
  @logLine markQuotes #"open" #"/tmp/go-build777/b001/x.go" ++ [newline] ++ @logLine markQuotes #"getenv" #"HOME".
Definition exampleFlags (limit : Z) : Flags := mkFlags #"all" #"inputs" #"/m" limit false [ #"a"; #"b" ].
Definition readLogs (path : bytes) : result bytes := if bool_decide (path = #"a") then Ok logA else Ok logB.

Lemma diff_is_exact_witness :
  exists text (xs : list (bytes * bytes)), @run markQuotes stable_slice_sort (Ok #"/m") readLogs (exampleFlags 5) = Ok text /\ NoDup xs /\
    (xs = [] <-> [(#"open", #"/TMPROOT/go-build<id>/b001/x.go"); (#"testcache", #"input list not found: 1")] ≡ₚ
                 [(#"open", #"/TMPROOT/go-build<id>/b001/x.go"); (#"getenv", #"HOME")]).
Proof.
  destruct (@run markQuotes stable_slice_sort (Ok #"/m") readLogs (exampleFlags 5)) as [text|e] eqn:E; [|vm_compute in E; discriminate E].
  destruct (@diff_is_exact markQuotes stable_slice_sort (Ok #"/m") readLogs (exampleFlags 5) #"a" #"b" logA logB text)
    as (root & a & b & xs & kinds & Ea & Eb & H1 & _ & _ & H2 & _); [reflexivity|reflexivity|reflexivity| | |exact E|].
  - apply (bool_decide_eq_false_1 _). vm_compute. reflexivity.
  - apply (bool_decide_eq_false_1 _). vm_compute. reflexivity.
  - exists text, xs. split; [done|]. split; [exact H1|].
    vm_compute in Ea, Eb. injection Ea as <-. injection Eb as <-. exact H2.
Defined.

Lemma build_directories_do_not_show_witness :
  exists p, @parseEntry markQuotes (@logLine markQuotes #"open" (#"/tmp/go-build" ++ #"12" ++ #"/b001/x.go")) = Some (mkHashEntry #"open" p []) /\
    @parseEntry markQuotes (@logLine markQuotes #"open" (#"/tmp/go-build" ++ #"777" ++ #"/b001/x.go")) = Some (mkHashEntry #"open" p []).
Proof.
  destruct (@build_directories_do_not_show markQuotes #"open" #"/tmp/go-build" #"12" #"777" #"/b001/x.go") as (p & H1 & H2 & _).
  - left.
  - vm_compute. reflexivity.
  - split; [repeat constructor|done].
  - split; [repeat constructor|done].
  - vm_compute. reflexivity.
  - exists p. split; [exact H1|exact H2].
Defined.

(** ** Outside the assumptions *)

(** Only the first directory of a line loses its number. *)
Lemma second_directory_shows :
  normalizePayload #"stat" #"/tmp/go-build1/a /tmp/go-build2/b" <> normalizePayload #"stat" #"/tmp/go-build1/a /tmp/go-build3/b".
Proof. vm_compute. discriminate. Qed.

(** In the lines of a test's inputs the temporary directory of macOS is renamed before it
    is looked for, and so never hidden. *)
Lemma renamed_before_hidden :
  normalizePayload #"testInputs" #"env TMPDIR=/var/folders/ab/T" = #"env TMPDIR=/TMPROOT/ab/T" /\
  normalizePayload #"getenv" #"/var/folders/ab/T" = #"/TMPROOT/".
Proof. vm_compute. split; reflexivity. Qed.

(** A file whose name begins with two dots counts as outside its repository. *)
Lemma dotted_file_is_not_local : isRepoLocalPath #"/m/..cache" #"/m" = false /\ isRepoLocalPath #"/m/.cache" #"/m" = true.
Proof. vm_compute. split; reflexivity. Qed.

(** The package of a missed test is not part of what is compared. *)
Lemma packages_are_not_compared :
  said <$> parseTestCacheEntry #"testcache: p: input list not found: 1" = said <$> parseTestCacheEntry #"testcache: q: input list not found: 1".
Proof. vm_compute. reflexivity. Qed.
