(* ===== verification/Cli.v ===== *)
(** The command line: src/cli/cli.go.  Which of its modes a command line chooses and with
    what, the addresses of a server, the native mode that restores or saves a GOCACHE,
    and the recent lines a daemon keeps for the one who stops it. *)
From S2P Require Import Prelude.
From S2P Require Import GoStrings.
From S2P Require Import GoPath.
From S2P Require Import Wire.
From S2P Require Import CacheWire.
From S2P Require Import HttpNet.
From S2P Require Import Manifests.
From S2P Require Import ClientFiles.
From S2P Require Import NativeRestore.
From S2P Require Import NativeSave.
From S2P Require Import GocacheStats.
From S2P Require Import HttpSession.
From S2P Require Import GithubActions.

(** ** Addresses *)

Definition isUnixListen (listen : bytes) : bool := HasPrefix listen #"unix://".

(** [strings.LastIndexByte] and [bytes.IndexByte]. *)
Definition IndexByte (s : bytes) (c : ascii) : option nat := fst <$> list_find (fun x => x = c) s.
Definition LastIndexByte (s : bytes) (c : ascii) : option nat := (fun i => (length s - 1 - i)%nat) <$> IndexByte (reverse s) c.

Definition missingPort : bytes := #"missing port in address".
Definition tooManyColons : bytes := #"too many colons in address".

(** [net.SplitHostPort]: the host and the port, or the text of its error. *)
Definition SplitHostPort (hostport : bytes) : (bytes * bytes) + bytes :=
  match LastIndexByte hostport ":"%char with
  | None => inr missingPort
  | Some i =>
      let tail j k host :=
        if bool_decide (is_Some (IndexByte (drop j hostport) "["%char)) then inr #"unexpected '[' in address"
        else if bool_decide (is_Some (IndexByte (drop k hostport) "]"%char)) then inr #"unexpected ']' in address"
        else inl (host, drop (S i) hostport) in
      if bool_decide (head hostport = Some "["%char) then
        match IndexByte hostport "]"%char with
        | None => inr #"missing ']' in address"
        | Some close =>
            if (S close =? length hostport)%nat then inr missingPort
            else if (S close =? i)%nat then tail 1%nat (S close) (drop 1 (take close hostport))
            else if bool_decide (hostport !! S close = Some ":"%char) then inr tooManyColons else inr missingPort
        end
      else
        let host := take i hostport in
        if bool_decide (":"%char ∈ host) then inr tooManyColons else tail 0%nat 0%nat host
  end.

(** [net.JoinHostPort]. *)
Definition JoinHostPort (host port : bytes) : bytes :=
  if bool_decide (":"%char ∈ host) then #"[" ++ host ++ #"]:" ++ port else host ++ #":" ++ port.

Definition colons (s : bytes) : nat := length (filter (fun c => c = ":"%char) s).

(** The network and the port; the code goes by the text of the error. *)
Definition listenPort (listen : bytes) : result (bytes * bytes) :=
  if bool_decide (listen = []) then Ok ([], [])
  else if isUnixListen listen then Ok (#"unix", [])
  else match SplitHostPort listen with
  | inl (_, port) => Ok (#"tcp", port)
  | inr e =>
      if Contains e missingPort then Err (EMsg "missing port in address")
      else if (colons listen =? 1)%nat && HasPrefix listen #":" then Ok (#"tcp", TrimPrefix listen #":")
      else if (1 <? colons listen)%nat && negb (HasPrefix listen #"[") then Err (EMsg "invalid address")
      else match SplitHostPort (JoinHostPort listen []) with
      | inl (_, port) => Ok (#"tcp", port)
      | inr _ => Err (EMsg "invalid address")
      end
  end.

(** The three flags of a server as it will use them. *)
Record Listen := mkListen { li_http : bytes; li_https : bytes; li_host : bytes }.

Definition orDefault (v dflt : bytes) : bytes := if bool_decide (v = []) then dflt else v.

Definition normalizeServerFlags (l : Listen) : result Listen :=
  if bool_decide (li_host l = []) then
    if bool_decide (li_https l = []) then Ok l else Err (EMsg "-https requires -https-host")
  else if isUnixListen (li_http l) then Err (EMsg "-https-host cannot be combined with unix -http")
  else
    let http := orDefault (li_http l) #":80" in
    let? httpAddr := listenPort http in
    if negb (bool_decide (fst httpAddr = #"tcp")) then Err (EMsg "-https-host requires TCP -http")
    else if negb (bool_decide (snd httpAddr = #"80")) then Err (EMsg "-https-host requires -http on port 80")
    else
      let https := orDefault (li_https l) #":443" in
      let? httpsAddr := listenPort https in
      if negb (bool_decide (fst httpsAddr = #"tcp")) then Err (EMsg "-https must be a TCP address")
      else Ok (mkListen http https (li_host l)).


(** ** The choice of a mode *)

(** The flags that choose; the others go to the mode as they are. *)
Record Flags := mkFlags {
  fl_dir : bytes;
  fl_listen : Listen;
  fl_stop : bytes;
  fl_remoteURL : bytes;
  fl_authToken : bytes;
  fl_preloadOnly : bool;
  fl_restoreCache : bool;
  fl_saveCache : bool;
  fl_maxFileBytes : Z;
  fl_maxPreloadTotalBytes : Z;
  fl_saveCacheMaxFileBytes : Z;
  fl_saveCacheChunkBytes : Z;
  fl_jobStartUnix : Z;
  fl_canonicalize : bytes;
  fl_githubActionsInit : bytes;
  fl_githubActionsDone : bool;
  fl_version : bool;
}.



(** ** The native mode *)

Section native.
Context {W : Type} (out : Outside W) (ho : Host) (moduleVersion : bytes).
Context `{RFC3339} `{Zstd} `{JSON FileMeta} `{JSON (list bytes)}.
Context (order : gset bytes -> list bytes) (ids : nat -> bytes) (open : bytes -> result stream).

Definition nativeRequest (params : SessionParams) (f : Flags) (maxFileBytes : Z) : Request :=
  mkRequest (SessionCommit params) (SessionChangesID params) (SessionBuildType params) (SessionBaseCommit params) (SessionParentCommit params)
    maxFileBytes (fl_maxPreloadTotalBytes f).

(** Since when files are the job's own: as told, or as the restore has left it. *)
Definition jobStart (f : Flags) (d : Dir) : option Z :=
  if negb (fl_jobStartUnix f =? 0) then Some (fl_jobStartUnix f)
  else match ReadJobStartMarker d with Ok marker => Some marker | Err _ => None end.

(** [runNativeGOCACHEMode]. *)
Definition runNativeGOCACHEMode (f : Flags) (auth : bytes) (maxFileBytes startedAt : Z) (params : SessionParams) (d : Dir) (w : W)
    : W * Dir * result unit :=
  if fl_restoreCache f && fl_saveCache f then (w, d, Err (EMsg "-restore-cache and -save-cache are mutually exclusive"))
  else if negb (bool_decide (li_http (fl_listen f) = [])) then (w, d, Err (EMsg "native GOCACHE batch mode cannot be combined with -http"))
  else if bool_decide (fl_remoteURL f = []) then (w, d, Err (EMsg "native GOCACHE batch mode requires -remote-url"))
  else match ResolveNativeCacheDir (ho_env ho) (fl_dir f), ho_mkdir ho with
  | Err e, _ | Ok _, Some e => (w, d, Err e)
  | Ok cacheDir, None =>
      let info := mkSessionInfo (sessionIDOf (ho_pid ho) startedAt) (Some startedAt) (ho_pid ho) cacheDir
                    (GithubActionsJobURL (he_environ (ho_env ho))) (Some params) in
      match dial out moduleVersion (fl_remoteURL f) auth (Some info) w with
      | (w, Err e) => (w, d, Err e)
      | (w, Ok client) =>
          let req := nativeRequest params f maxFileBytes in
          if fl_restoreCache f then
            let '(w, (d, r)) := restoreNative out ho (fl_remoteURL f) client w d req startedAt in
            (w, d, match r with Ok _ => Ok tt | Err e => Err e end)
          else
            let '(w, (_, r)) := SaveFreshNativeCache (netOf out (fl_remoteURL f) client) (fl_saveCacheChunkBytes f) (ho_walk ho) order ids
                                  open cacheDir d w req maxFileBytes (jobStart f d) None in
            (w, d, match r with Ok _ => Ok tt | Err e => Err e end)
      end
  end.
End native.

(** ** The recent lines of a daemon *)

Record recentLogf := mkRecent { rl_limit : nat; rl_lines : list bytes }.

Definition newRecentLogf (limit : nat) : recentLogf := mkRecent limit [].

Definition Logf (r : recentLogf) (line : bytes) : recentLogf :=
  let lines := rl_lines r ++ [line] in
  mkRecent (rl_limit r) (if (rl_limit r <? length lines)%nat then drop (length lines - rl_limit r) lines else lines).

Definition Lines (r : recentLogf) : list bytes := rl_lines r.

(** ** Lemmas *)

(** What a server may be given. *)
Definition servable (l : Listen) : Prop :=
  if decide (li_host l = []) then li_https l = []
  else listenPort (li_http l) = Ok (#"tcp", #"80") /\ exists port, listenPort (li_https l) = Ok (#"tcp", port).

Lemma orDefault_set v dflt : v <> [] -> orDefault v dflt = v.
Proof. intros Hv. unfold orDefault. by rewrite bool_decide_eq_false_2. Qed.

Lemma orDefault_nonempty v dflt : dflt <> [] -> orDefault v dflt <> [].
Proof. intros Hd. unfold orDefault. by destruct (bool_decide_reflect (v = [])). Qed.

Lemma normalized l l' :
  normalizeServerFlags l = Ok l' ->
  servable l' /\ li_host l' = li_host l /\ (li_host l = [] -> l' = l) /\ (li_host l <> [] -> li_http l' <> [] /\ li_https l' <> []).
Proof.
  unfold normalizeServerFlags, servable. destruct (bool_decide_reflect (li_host l = [])) as [Eh|Hh].
  - destruct (bool_decide_reflect (li_https l = [])) as [Es|]; [|done]. intros [= <-]. rewrite decide_True by done. done.
  - destruct (isUnixListen (li_http l)); [done|].
    destruct (listenPort (orDefault (li_http l) _)) as [[n p]|] eqn:E1; [|done]. cbn [fst snd].
    destruct (bool_decide_reflect (n = #"tcp")) as [->|]; [|done]. destruct (bool_decide_reflect (p = #"80")) as [->|]; [|done]. cbn [negb].
    destruct (listenPort (orDefault (li_https l) _)) as [[n p]|] eqn:E2; [|done]. cbn [fst].
    destruct (bool_decide_reflect (n = #"tcp")) as [->|]; [|done]. intros [= <-]. cbn [li_host li_http li_https].
    rewrite decide_False by done. split; [eauto|]. split; [done|]. split; [done|].
    intros _. split; by apply orDefault_nonempty.
Qed.

(** Flags that were normalised once stay as they are. *)
Lemma normalized_again l l' : normalizeServerFlags l = Ok l' -> normalizeServerFlags l' = Ok l'.
Proof.
  intros E. destruct (normalized l l' E) as (Hs & Eh & Hsame & Hset). destruct (decide (li_host l = [])) as [Hn|Hn].
  - by rewrite (Hsame Hn) in *.
  - destruct (Hset Hn) as [Hp Hq]. rewrite <-Eh in Hn. unfold servable in Hs. rewrite decide_False in Hs by done.
    destruct Hs as (E1 & port & E2). unfold normalizeServerFlags. rewrite bool_decide_eq_false_2 by done.
    destruct (isUnixListen (li_http l')) eqn:Eu.
    + unfold listenPort in E1. rewrite bool_decide_eq_false_2, Eu in E1 by done. discriminate E1.
    + rewrite !orDefault_set, E1 by done. cbn [fst snd]. rewrite !bool_decide_eq_true_2 by done. cbn [negb].
      rewrite E2. cbn [fst]. rewrite bool_decide_eq_true_2 by done. by destruct l'.
Qed.

(** A restore that ends well leaves the time it began at. *)
Lemma restore_leaves_marker `{Zstd} `{JSON FileMeta} de d res startedAt d' st :
  - 2 ^ 63 <= startedAt < 2 ^ 63 -> RestoreNativeCache de d res startedAt = (d', Ok st) -> ReadJobStartMarker d' = Ok startedAt.
Proof.
  intros Hr. unfold RestoreNativeCache. destruct (RestoreCache _ _ _) as [[d1 paths] [stats|e]]; [|done].
  destruct (WriteRestoredPaths _ _ _ _ _) as [d2 [[]|e]]; [|done]. unfold WriteJobStartMarker.
  destruct (de_marker de) as [[]|]; [done..|]. intros [= <- _].
  destruct (WriteFile_lookup (de_umask de) (de_now de) jobStartMarkerName (FormatInt startedAt) d2) as [m Hm].
  unfold ReadJobStartMarker. rewrite Hm, FormatInt_trimmed. by apply ParseInt_FormatInt.
Qed.

Lemma lines_kept r l : (length (rl_lines r) <= rl_limit r)%nat ->
  rl_lines (foldl Logf r l) = drop (length (rl_lines r ++ l) - rl_limit r) (rl_lines r ++ l).
Proof.
  revert r. induction l as [|x l IH]; intros r Hr; cbn [foldl].
  - rewrite app_nil_r. replace (length (rl_lines r) - rl_limit r)%nat with 0%nat by lia. done.
  - rewrite IH; unfold Logf; cbn [rl_limit rl_lines].
    + destruct (Nat.ltb_spec (rl_limit r) (length (rl_lines r ++ [x]))) as [Hlt|Hge].
      * rewrite length_app in *. cbn [length] in *. replace (rl_lines r ++ x :: l) with ((rl_lines r ++ [x]) ++ l) by (by rewrite <-app_assoc).
        rewrite <-(drop_app_le (rl_lines r ++ [x]) l) by (rewrite length_app; cbn [length]; lia). rewrite drop_drop, length_drop, !length_app. cbn [length]. f_equal. lia.
      * by rewrite <-app_assoc.
    + destruct (Nat.ltb_spec (rl_limit r) (length (rl_lines r ++ [x]))); rewrite ?length_drop; rewrite length_app in *; cbn [length] in *; lia.
Qed.

(** The one who stops a daemon sees its last lines. *)
Lemma recent_lines limit l : Lines (foldl Logf (newRecentLogf limit) l) = drop (length l - limit) l.
Proof. apply (lines_kept (newRecentLogf limit) l). cbn. lia. Qed.

(** A save that is told no time counts from the restore before it, as long as the marker
    stays in the directory. *)
Lemma save_counts_from_restore {W : Type} `{RFC3339} `{Zstd} `{JSON FileMeta} `{JSON (list bytes)} (out : Outside W) ho ver order ids open
    f auth n startedAt params d w w' d' f2 d2 :
  - 2 ^ 63 <= startedAt < 2 ^ 63 -> fl_restoreCache f = true ->
  runNativeGOCACHEMode out ho ver order ids open f auth n startedAt params d w = (w', d', Ok tt) ->
  d2 !! jobStartMarkerName = d' !! jobStartMarkerName -> fl_jobStartUnix f2 = 0 -> jobStart f2 d2 = Some startedAt.
Proof.
  intros Hr Hf Hrun Hm Hz. unfold runNativeGOCACHEMode in Hrun. rewrite Hf in Hrun.
  destruct (true && _); [done|]. destruct (negb _); [done|]. destruct (bool_decide _); [done|].
  destruct (ResolveNativeCacheDir _ _) as [cacheDir|]; [|done]. destruct (ho_mkdir ho); [done|].
  destruct (dial _ _ _ _ _ _) as [w1 [client|e]]; [|done].
  destruct (restoreNative _ _ _ _ _ _ _ _) as [w2 [d1 [st|e]]] eqn:E; [|done]. injection Hrun as <- <-.
  assert (Hmark : ReadJobStartMarker d1 = Ok startedAt).
  { unfold restoreNative in E. destruct (roundTrip _ _ _) as [w3 [res|e]]; [|done].
    injection E as _ E. eapply restore_leaves_marker; [exact Hr|exact E]. }
  unfold jobStart. rewrite Hz. cbn [Z.eqb negb]. unfold ReadJobStartMarker in Hmark |- *. by rewrite Hm, Hmark.
Qed.

(** ** Theorems *)


Lemma orDefault_nil dflt : orDefault [] dflt = dflt.
Proof. reflexivity. Qed.













(** ** Examples *)

Example addresses :
  listenPort #"127.0.0.1:80" = Ok (#"tcp", #"80") /\ listenPort #"[::1]:443" = Ok (#"tcp", #"443") /\
  listenPort #"::1:443" = Err (EMsg "invalid address") /\ listenPort #"localhost" = Err (EMsg "missing port in address") /\
  listenPort #"unix:///run/s" = Ok (#"unix", []).
Proof. vm_compute. auto 6. Qed.
