(* ===== verification/ShimServe.v ===== *)
(** The life of the shim daemon: src/internal/local/shim.go ([Serve], [shutdown],
    [ReplyStop], [StopShimServer], the marker of forced closes) and [runDaemon] of
    src/cli/cli.go.  The sessions themselves are in [Shim]. *)
From S2P Require Import Prelude.
From S2P Require Import GoStrings.
From S2P Require Import GoPath.
From S2P Require Import GithubActions.

(** ** Addresses *)

Definition listenNetworkAndAddr (listen : bytes) : bytes * bytes :=
  if HasPrefix listen #"unix://" then (#"unix", TrimPrefix listen #"unix://") else (#"tcp", listen).

(** [urlHost] is net/url's parser with the host it finds. *)
Definition shimNetworkAndAddr (urlHost : bytes -> result bytes) (remoteURL : bytes) : result (bytes * bytes) :=
  if HasPrefix remoteURL #"unix://" then Ok (#"unix", TrimPrefix remoteURL #"unix://")
  else if Contains remoteURL #"://" then let? host := urlHost remoteURL in Ok (#"tcp", host)
  else Ok (#"tcp", remoteURL).

(** ** The marker of forced closes *)

Definition shimForcedCloseSuffix : bytes := #".forced-closes".

Definition shimForcedCloseMarkerPath (urlHost : bytes -> result bytes) (remoteURL : bytes) : result bytes :=
  let? na := shimNetworkAndAddr urlHost remoteURL in Ok (snd na ++ shimForcedCloseSuffix).

(** The files next to the socket, with the errors of opening, writing and removing. *)
Record MarkerFaults := mkMarkerFaults { mf_open : option goerr; mf_write : option goerr; mf_read : option goerr; mf_remove : option goerr }.

Definition RecordShimForcedClose (urlHost : bytes -> result bytes) (flt : MarkerFaults) (remoteURL : bytes) (files : gmap bytes bytes)
    : gmap bytes bytes :=
  match shimForcedCloseMarkerPath urlHost remoteURL, mf_open flt with
  | Err _, _ | Ok _, Some _ => files
  | Ok path, None =>
      let old := default [] (files !! path) in
      match mf_write flt with
      | Some _ => <[path := old]> files
      | None => <[path := old ++ "1"%char :: [newline]]> files
      end
  end.

Definition CountShimForcedCloses (urlHost : bytes -> result bytes) (flt : MarkerFaults) (remoteURL : bytes) (files : gmap bytes bytes)
    : gmap bytes bytes * Z :=
  match shimForcedCloseMarkerPath urlHost remoteURL with
  | Err _ => (files, 0)
  | Ok path =>
      match mf_read flt, files !! path with
      | None, Some ((_ :: _) as data) =>
          (match mf_remove flt with Some _ => files | None => delete path files end,
           Z.of_nat (length (split_on newline (TrimSpace data))))
      | _, _ => (files, 0)
      end
  end.

(** ** Stopping, from outside *)

Record ShimStopResponse := mkStopResponse { sr_Lines : list bytes; sr_Stats : StatsSummary; sr_Err : bytes }.

(** [StopShimServer]: [ask] dials, sends the hello and reads the answer. *)
Definition StopShimServer {W : Type} (urlHost : bytes -> result bytes) (ask : bytes -> bytes -> bytes -> W -> W * result ShimStopResponse)
    (remoteURL authToken : bytes) (w : W) : W * (ShimStopResponse * option goerr) :=
  let none := mkStopResponse [] no_summary [] in
  match shimNetworkAndAddr urlHost remoteURL with
  | Err e => (w, (none, Some e))
  | Ok (network, addr) =>
      match ask network addr authToken w with
      | (w, Err e) => (w, (none, Some e))
      | (w, Ok resp) => (w, (resp, if bool_decide (sr_Err resp = []) then None else Some (EMsg "stop failed")))
      end
  end.

(** ** The daemon *)

(** What [Serve] returns: [ErrStopRequested], or the end for another reason. *)
Inductive ServeResult := StopRequested | Ended (r : option goerr).

(** A connection that asked to stop: it waits for the reply; it was refused; it has its
    answer still to write; it has written it. *)
Inductive StopPhase := Asked | Refused | Told (resp : ShimStopResponse) | Finished (resp : ShimStopResponse).

(** [Serve] selects; [shutdown] waits for the connections; [Serve] has returned; [ReplyStop]
    waits for the connection it told; [runDaemon] has returned. *)
Inductive ServePhase :=
  | Selecting
  | ShuttingDown (stop : bool)
  | Returned (r : ServeResult)
  | Replying (i : nat) (r : option goerr)
  | Exited (r : option goerr).

Record Daemon := mkDaemon {
  dn_phase : ServePhase;
  dn_stopReqCh : option nat;
  dn_stopReply : option nat;
  dn_stops : list StopPhase;
  dn_sessions : nat;
  dn_sessionsSeen : Z;
  dn_panicked : bool;
}.

Definition newDaemon : Daemon := mkDaemon Selecting None None [] 0 0 false.

Definition set_phase (d : Daemon) (p : ServePhase) : Daemon :=
  mkDaemon p (dn_stopReqCh d) (dn_stopReply d) (dn_stops d) (dn_sessions d) (dn_sessionsSeen d) (dn_panicked d).
Definition set_sessions (d : Daemon) (n : nat) (seen : Z) : Daemon :=
  mkDaemon (dn_phase d) (dn_stopReqCh d) (dn_stopReply d) (dn_stops d) n seen (dn_panicked d).
Definition set_stops (d : Daemon) (l : list StopPhase) : Daemon :=
  mkDaemon (dn_phase d) (dn_stopReqCh d) (dn_stopReply d) l (dn_sessions d) (dn_sessionsSeen d) (dn_panicked d).

Inductive LEvent :=
  | LSession (admitted : bool)
  | LSessionEnd
  | LStop
  | LSignal
  | LTake
  | LFail (e : goerr)
  | LDrained
  | LFinish (lines : list bytes) (stats : StatsSummary) (closeErr : option (goerr * bytes))
  | LTell (i : nat)
  | LExit.

(** A stop hello that was let in: the request goes into the channel, which holds one; when
    that is full the connection gets an error of its own.  Its [doneCh] is closed then. *)
Definition serveStop (d : Daemon) : Daemon :=
  match dn_stopReqCh d with
  | None => mkDaemon (dn_phase d) (Some (length (dn_stops d))) (dn_stopReply d) (dn_stops d ++ [Asked]) (dn_sessions d) (dn_sessionsSeen d)
              (dn_panicked d)
  | Some _ => set_stops d (dn_stops d ++ [Refused])
  end.

(** The connection writes what it got and closes its [doneCh]: for one that was refused,
    a second time. *)
Definition tellStop (d : Daemon) (i : nat) : option Daemon :=
  match dn_stops d !! i with
  | Some (Told resp) => Some (set_stops d (<[i := Finished resp]> (dn_stops d)))
  | Some Refused => Some (mkDaemon (dn_phase d) (dn_stopReqCh d) (dn_stopReply d) (dn_stops d) (dn_sessions d) (dn_sessionsSeen d) true)
  | _ => None
  end.

(** A case of the select of [Serve]. *)
Definition selectCase (d : Daemon) (e : LEvent) : option Daemon :=
  match dn_phase d, e with
  | Selecting, LSignal => Some (set_phase d (ShuttingDown false))
  | Selecting, LTake =>
      match dn_stopReqCh d with
      | None => None
      | Some i => Some (mkDaemon (ShuttingDown true) None (Some i) (dn_stops d) (dn_sessions d) (dn_sessionsSeen d) (dn_panicked d))
      end
  | Selecting, LFail e => Some (set_phase d (Returned (Ended (Some e))))
  | _, _ => None
  end.

(** The end of [shutdown]. *)
Definition drained (d : Daemon) : option Daemon :=
  match dn_phase d, dn_sessions d with
  | ShuttingDown stop, O => Some (set_phase d (Returned (if stop then StopRequested else Ended None)))
  | _, _ => None
  end.

Definition withInvocations (n : Z) (s : StatsSummary) : StatsSummary :=
  mkSummary (ss_Hits s) (ss_Misses s) (ss_Puts s) (ss_HitRate s) n (ss_RoundTrips s) (ss_BytesRead s) (ss_BytesWritten s)
    (ss_GetTotalTime s) (ss_GetCount s) (ss_PreloadedBytes s) (ss_TotalTime s) (ss_ForcedCloses s).

(** [runDaemon] after [Serve], with what closing the proxy gave, up to the wait of
    [ReplyStop]. *)
Definition finish (d : Daemon) (lines : list bytes) (stats : StatsSummary) (closeErr : option (goerr * bytes)) : option Daemon :=
  match dn_phase d with
  | Returned StopRequested =>
      let resp := mkStopResponse lines (withInvocations (dn_sessionsSeen d) stats)
                    (match closeErr with Some (_, text) => #"close daemon proxy: " ++ text | None => [] end) in
      match dn_stopReply d with
      | None => Some (set_phase d (Exited (fst <$> closeErr)))
      | Some i => Some (mkDaemon (Replying i (fst <$> closeErr)) (dn_stopReqCh d) None (<[i := Told resp]> (dn_stops d)) (dn_sessions d)
                          (dn_sessionsSeen d) (dn_panicked d))
      end
  | Returned (Ended r) => Some (set_phase d (Exited (match r with Some e => Some e | None => fst <$> closeErr end)))
  | _ => None
  end.

Definition exit (d : Daemon) : option Daemon :=
  match dn_phase d with
  | Replying i r => match dn_stops d !! i with Some (Finished _) => Some (set_phase d (Exited r)) | _ => None end
  | _ => None
  end.

Definition is_exited (p : ServePhase) : bool := match p with Exited _ => true | _ => false end.

(** One atomic action; a process that has ended does nothing. *)
Definition daemon_step (d : Daemon) (e : LEvent) : option Daemon :=
  if dn_panicked d || is_exited (dn_phase d) then None
  else match e with
  | LSession admitted =>
      match dn_phase d with
      | Selecting => Some (set_sessions d (S (dn_sessions d)) (if admitted then dn_sessionsSeen d + 1 else dn_sessionsSeen d))
      | _ => None
      end
  | LSessionEnd => match dn_sessions d with O => None | S n => Some (set_sessions d n (dn_sessionsSeen d)) end
  | LStop => Some (serveStop d)
  | LSignal | LTake | LFail _ => selectCase d e
  | LDrained => drained d
  | LFinish lines stats closeErr => finish d lines stats closeErr
  | LTell i => tellStop d i
  | LExit => exit d
  end.

Fixpoint daemon_run (d : Daemon) (es : list LEvent) : option Daemon :=
  match es with
  | [] => Some d
  | e :: es => match daemon_step d e with Some d => daemon_run d es | None => None end
  end.

(** ** What holds in every run *)

Definition told (d : Daemon) (i : nat) (resp : ShimStopResponse) : Prop :=
  dn_stops d !! i = Some (Told resp) \/ dn_stops d !! i = Some (Finished resp).

Record daemon_ok (d : Daemon) : Prop := {
  dk_buffer i : dn_stopReqCh d = Some i -> dn_stops d !! i = Some Asked;
  dk_reply i : dn_stopReply d = Some i -> dn_stops d !! i = Some Asked /\ dn_stopReqCh d <> Some i;
  dk_stopping : dn_phase d = ShuttingDown true \/ dn_phase d = Returned StopRequested <-> is_Some (dn_stopReply d);
  dk_told i resp : told d i resp ->
    ((exists r, dn_phase d = Replying i r) \/ (exists r, dn_phase d = Exited r /\ dn_stops d !! i = Some (Finished resp))) /\
    ss_Invocations (sr_Stats resp) = dn_sessionsSeen d;
  dk_one i j resp resp' : told d i resp -> told d j resp' -> i = j;
  dk_replying i r : dn_phase d = Replying i r -> exists resp, told d i resp;
  dk_sessions : (dn_phase d = Returned StopRequested \/ (exists i r, dn_phase d = Replying i r) \/ (exists i resp, told d i resp)) ->
    dn_sessions d = 0%nat;
}.

Lemma newDaemon_ok : daemon_ok newDaemon.
Proof.
  split; unfold told; cbn; try done; unfold is_Some; naive_solver.
Qed.

(** A new connection changes nothing for those before it. *)
Lemma told_app d x i resp : (x = Asked \/ x = Refused) -> told (set_stops d (dn_stops d ++ [x])) i resp <-> told d i resp.
Proof.
  intros Hx. unfold told. cbn [dn_stops set_stops]. rewrite !lookup_app_Some, !list_lookup_singleton_Some.
  split; [intros [[?|(_ & _ & ->)]|[?|(_ & _ & ->)]]|intros [?|?]]; try tauto; destruct Hx; done.
Qed.

(** A step that only touches the phase and the sessions, away from a stop. *)
Lemma quiet_ok d p n seen :
  daemon_ok d -> dn_phase d = Selecting ->
  (p = Selecting \/ p = ShuttingDown false \/ exists r, p = Returned (Ended r)) ->
  daemon_ok (set_sessions (set_phase d p) n seen).
Proof.
  intros [K1 K2 K3 K4 K5 K6 K7] Hp Hq.
  assert (Hnone : forall i resp, ~ told d i resp).
  { intros i resp Ht. destruct (K4 i resp Ht) as [[[r E]|(r & E & _)] _]; rewrite Hp in E; done. }
  assert (Hr : dn_stopReply d = None).
  { destruct (dn_stopReply d) as [i|] eqn:E; [|done]. destruct K3 as [_ K3]. rewrite Hp in K3. destruct K3; [by eexists|done|done]. }
  split; unfold told in *; cbn [set_sessions set_phase dn_phase dn_stopReqCh dn_stopReply dn_stops dn_sessions dn_sessionsSeen]; try done.
  - rewrite Hr. split; [destruct Hq as [->|[->|[r ->]]]; intros [?|?]; done|intros [? ?]; done].
  - intros i resp Ht. by destruct (Hnone i resp).
  - intros i r E. destruct Hq as [->|[->|[r' ->]]]; done.
  - intros [E|[(i & r & E)|(i & resp & Ht)]]; [| |by destruct (Hnone i resp)]; destruct Hq as [->|[->|[r' ->]]]; done.
Qed.

Lemma stop_ok d : daemon_ok d -> daemon_ok (serveStop d).
Proof.
  intros [K1 K2 K3 K4 K5 K6 K7]. unfold serveStop. destruct (dn_stopReqCh d) as [b|] eqn:Eb.
  - assert (Ht := told_app d Refused). specialize (K1 b eq_refl).
    split; cbn [set_stops dn_phase dn_stopReqCh dn_stopReply dn_stops dn_sessions dn_sessionsSeen]; rewrite ?Eb.
    + intros i [= <-]. by apply lookup_app_l_Some.
    + intros i E. destruct (K2 i E) as [H1 H2]. split; [by apply lookup_app_l_Some|done].
    + exact K3.
    + intros i resp Hi. apply Ht in Hi; [|by right]. destruct (K4 i resp Hi) as [[?|(r & E & Hf)] Hs]; split; try done; [by left|].
      right. exists r. split; [done|]. by apply lookup_app_l_Some.
    + intros i j r r' Hi Hj. apply Ht in Hi, Hj; try (by right). by eapply K5.
    + intros i r E. destruct (K6 i r E) as [resp Hi]. exists resp. apply Ht; [by right|done].
    + intros [E|[E|(i & resp & Hi)]]; apply K7; [by left|by right; left|]. apply Ht in Hi; [|by right]. right. right. eauto.
  - assert (Ht := told_app d Asked).
    assert (Hsame : forall i resp, told (mkDaemon (dn_phase d) (Some (length (dn_stops d))) (dn_stopReply d) (dn_stops d ++ [Asked]) (dn_sessions d)
       (dn_sessionsSeen d) (dn_panicked d)) i resp <-> told d i resp) by (intros i resp; rewrite <-(Ht i resp (or_introl eq_refl)); done).
    split; cbn [dn_phase dn_stopReqCh dn_stopReply dn_stops dn_sessions dn_sessionsSeen].
    + intros i [= <-]. rewrite lookup_app_r, Nat.sub_diag by lia. done.
    + intros i E. destruct (K2 i E) as [H1 _]. split; [by apply lookup_app_l_Some|]. intros [= <-]. apply lookup_lt_Some in H1. lia.
    + exact K3.
    + intros i resp Hi. apply Hsame in Hi. destruct (K4 i resp Hi) as [[?|(r & E & Hf)] Hs]; split; try done; [by left|].
      right. exists r. split; [done|]. by apply lookup_app_l_Some.
    + intros i j r r' Hi Hj. apply Hsame in Hi, Hj. by eapply K5.
    + intros i r E. destruct (K6 i r E) as [resp Hi]. exists resp. by apply Hsame.
    + intros [E|[E|(i & resp & Hi)]]; apply K7; [by left|by right; left|]. apply Hsame in Hi. right. right. eauto.
Qed.

Lemma take_ok d i :
  daemon_ok d -> dn_phase d = Selecting -> dn_stopReqCh d = Some i ->
  daemon_ok (mkDaemon (ShuttingDown true) None (Some i) (dn_stops d) (dn_sessions d) (dn_sessionsSeen d) (dn_panicked d)).
Proof.
  intros [K1 K2 K3 K4 K5 K6 K7] Hp Hb.
  assert (Hnone : forall j resp, ~ told d j resp).
  { intros j resp Ht. destruct (K4 j resp Ht) as [[[r E]|(r & E & _)] _]; rewrite Hp in E; done. }
  split; unfold told in *; cbn [dn_phase dn_stopReqCh dn_stopReply dn_stops dn_sessions dn_sessionsSeen]; try done.
  - intros j [= <-]. split; [by apply K1|done].
  - split; [by eexists|by left].
  - intros j resp Ht. by destruct (Hnone j resp).
  - intros [E|[(j & r & E)|(j & resp & Ht)]]; [done..|by destruct (Hnone j resp)].
Qed.

Lemma drained_ok d d' : daemon_ok d -> drained d = Some d' -> daemon_ok d'.
Proof.
  intros [K1 K2 K3 K4 K5 K6 K7] E. unfold drained in E. destruct (dn_phase d) as [|stop| | |] eqn:Ep; try done.
  destruct (dn_sessions d) as [|n] eqn:Es; [|done]. injection E as <-.
  assert (Hnone : forall j resp, ~ told d j resp).
  { intros j resp Ht. destruct (K4 j resp Ht) as [[[r E]|(r & E & _)] _]; done. }
  split; unfold told in *; cbn [set_phase dn_phase dn_stopReqCh dn_stopReply dn_stops dn_sessions dn_sessionsSeen]; try done.
  - destruct stop.
    + rewrite <-K3. split; auto.
    + rewrite <-K3. split; intros [?|?]; done.
  - intros j resp Ht. by destruct (Hnone j resp).
Qed.

Lemma finish_ok d lines stats closeErr d' : daemon_ok d -> finish d lines stats closeErr = Some d' -> daemon_ok d'.
Proof.
  intros [K1 K2 K3 K4 K5 K6 K7] E. unfold finish in E. destruct (dn_phase d) as [| |[|r]| |] eqn:Ep; try done.
  - assert (Hnone : forall j resp, ~ told d j resp).
    { intros j resp Ht. destruct (K4 j resp Ht) as [[[r E1]|(r & E1 & _)] _]; done. }
    destruct (dn_stopReply d) as [i|] eqn:Er.
    + injection E as <-. destruct (K2 i eq_refl) as [Hi Hbi]. unfold told in *.
      assert (Hlt := lookup_lt_Some _ _ _ Hi).
      set (resp0 := mkStopResponse _ _ _).
      assert (Honly : forall j x, <[i := Told resp0]> (dn_stops d) !! j = Some (Told x) \/ <[i := Told resp0]> (dn_stops d) !! j = Some (Finished x) -> j = i /\ x = resp0).
      { intros j x Hj. destruct (decide (j = i)) as [->|Hn].
        - rewrite list_lookup_insert_eq in Hj by done. destruct Hj as [[= <-]|]; done.
        - rewrite list_lookup_insert_ne in Hj by done. by destruct (Hnone j x). }
      split; unfold told; cbn [dn_phase dn_stopReqCh dn_stopReply dn_stops dn_sessions dn_sessionsSeen]; try done.
      * intros j Hj. rewrite list_lookup_insert_ne by congruence. by apply K1.
      * split; [intros [?|?]; done|intros [? ?]; done].
      * intros j x Hj. destruct (Honly j x Hj) as [-> ->]. split; [left; by eexists|done].
      * intros j k x y Hj Hk. destruct (Honly j x Hj) as [-> _], (Honly k y Hk) as [-> _]. done.
      * intros j r [= <- <-]. exists resp0. left. by rewrite list_lookup_insert_eq.
      * intros _. apply K7. by left.
    + injection E as <-. destruct K3 as [K3 _]. destruct (K3 (or_intror eq_refl)) as [? ?]. done.
  - injection E as <-.
    assert (Hnone : forall j resp, ~ told d j resp).
    { intros j resp Ht. destruct (K4 j resp Ht) as [[[q E1]|(q & E1 & _)] _]; done. }
    split; unfold told in *; cbn [set_phase dn_phase dn_stopReqCh dn_stopReply dn_stops dn_sessions dn_sessionsSeen]; try done.
    + rewrite <-K3. split; intros [?|?]; done.
    + intros j resp Ht. by destruct (Hnone j resp).
    + intros [?|[(j & q & ?)|(j & resp & Ht)]]; [done..|by destruct (Hnone j resp)].
Qed.

Lemma tell_ok d i d' : daemon_ok d -> tellStop d i = Some d' -> daemon_ok d'.
Proof.
  intros [K1 K2 K3 K4 K5 K6 K7] E. unfold tellStop in E. destruct (dn_stops d !! i) as [[| |resp|]|] eqn:Ei; try done; injection E as <-.
  - by split.
  - assert (Hlt := lookup_lt_Some _ _ _ Ei).
    assert (Hsame : forall j x, told (set_stops d (<[i := Finished resp]> (dn_stops d))) j x <-> told d j x).
    { intros j x. unfold told. cbn [set_stops dn_stops]. destruct (decide (j = i)) as [->|Hn]; [|by rewrite list_lookup_insert_ne].
      rewrite list_lookup_insert_eq, Ei by done. split; intros [|]; naive_solver. }
    split; cbn [set_stops dn_phase dn_stopReqCh dn_stopReply dn_stops dn_sessions dn_sessionsSeen].
    + intros j Hj. apply K1 in Hj. rewrite list_lookup_insert_ne by congruence. done.
    + intros j Hj. destruct (K2 j Hj) as [H1 H2]. split; [|done]. rewrite list_lookup_insert_ne by congruence. done.
    + exact K3.
    + intros j x Hj. apply Hsame in Hj. assert (Hij := K5 i j resp x (or_introl Ei) Hj). subst j. destruct (K4 i x Hj) as [[?|(r & E & Hf)] Hs]; [by split; [left|]|]. congruence.
    + intros j k x y Hj Hk. apply Hsame in Hj, Hk. by eapply K5.
    + intros j r E. destruct (K6 j r E) as [x Hx]. exists x. by apply Hsame.
    + intros [E|[E|(j & x & Hj)]]; apply K7; [by left|by right; left|]. apply Hsame in Hj. right. right. eauto.
Qed.

Lemma exit_ok d d' : daemon_ok d -> exit d = Some d' -> daemon_ok d'.
Proof.
  intros [K1 K2 K3 K4 K5 K6 K7] E. unfold exit in E. destruct (dn_phase d) as [| | |i r|] eqn:Ep; try done.
  destruct (dn_stops d !! i) as [[| | |resp]|] eqn:Ei; try done. injection E as <-.
  split; unfold told in *; cbn [set_phase dn_phase dn_stopReqCh dn_stopReply dn_stops dn_sessions dn_sessionsSeen]; try done.
  - rewrite <-K3. split; intros [?|?]; done.
  - intros j x Hj. destruct (K4 j x Hj) as [_ Hs]. split; [|done]. right. exists r. split; [done|].
    assert (Hij := K5 i j resp x (or_intror Ei) Hj). subst j. destruct Hj; congruence.
  - intros _. apply K7. right. left. eauto.
Qed.

Lemma daemon_step_ok d e d' : daemon_ok d -> daemon_step d e = Some d' -> daemon_ok d'.
Proof.
  intros Hok E. unfold daemon_step in E. destruct (dn_panicked d || is_exited (dn_phase d)); [done|].
  destruct e as [admitted| | | | |e| |lines stats closeErr|i|].
  - destruct (dn_phase d) eqn:Ep; try done. injection E as <-.
    replace (set_sessions d _ _) with (set_sessions (set_phase d Selecting) (S (dn_sessions d)) (if admitted then dn_sessionsSeen d + 1 else dn_sessionsSeen d))
      by (unfold set_sessions, set_phase; by rewrite Ep).
    apply quiet_ok; auto.
  - destruct (dn_sessions d) as [|n] eqn:En; [done|]. injection E as <-. destruct Hok as [K1 K2 K3 K4 K5 K6 K7].
    split; try done. intros Hz. specialize (K7 Hz). congruence.
  - injection E as <-. by apply stop_ok.
  - unfold selectCase in E. destruct (dn_phase d) eqn:Ep; try done. injection E as <-.
    apply (quiet_ok d (ShuttingDown false) (dn_sessions d) (dn_sessionsSeen d)); auto.
  - unfold selectCase in E. destruct (dn_phase d) eqn:Ep; try done. destruct (dn_stopReqCh d) as [i|] eqn:Eb; [|done].
    injection E as <-. by apply take_ok.
  - unfold selectCase in E. destruct (dn_phase d) eqn:Ep; try done. injection E as <-.
    apply (quiet_ok d (Returned (Ended (Some e))) (dn_sessions d) (dn_sessionsSeen d)); eauto.
  - by eapply drained_ok.
  - by eapply finish_ok.
  - by eapply tell_ok.
  - by eapply exit_ok.
Qed.

Lemma daemon_run_ok d es d' : daemon_ok d -> daemon_run d es = Some d' -> daemon_ok d'.
Proof.
  revert d. induction es as [|e es IH]; intros d Hok; cbn [daemon_run]; [by intros [= <-]|].
  destruct (daemon_step d e) as [d1|] eqn:E; [|done]. apply IH. by eapply daemon_step_ok.
Qed.

(** The sessions that were let in. *)
Definition admitted_in (es : list LEvent) : Z := foldr (fun e n => match e with LSession true => 1 + n | _ => n end) 0 es.

Lemma step_seen d e d' : daemon_step d e = Some d' -> dn_sessionsSeen d' = dn_sessionsSeen d + admitted_in [e].
Proof.
  unfold daemon_step, admitted_in. cbn [foldr].
  destruct (dn_panicked d || is_exited (dn_phase d)); [done|].
  destruct e as [[]| | | | |e| |lines stats closeErr|i|].
  - destruct (dn_phase d); try done. intros [= <-]. cbn. lia.
  - destruct (dn_phase d); try done. intros [= <-]. cbn. lia.
  - destruct (dn_sessions d); [done|]. intros [= <-]. cbn. lia.
  - intros [= <-]. unfold serveStop. destruct (dn_stopReqCh d); cbn; lia.
  - unfold selectCase. destruct (dn_phase d); try done. intros [= <-]. cbn. lia.
  - unfold selectCase. destruct (dn_phase d); try done. destruct (dn_stopReqCh d); [|done]. intros [= <-]. cbn. lia.
  - unfold selectCase. destruct (dn_phase d); try done. intros [= <-]. cbn. lia.
  - unfold drained. destruct (dn_phase d); try done. destruct (dn_sessions d); [|done]. intros [= <-]. cbn. lia.
  - unfold finish. destruct (dn_phase d) as [| |[|r]| |]; try done; [|intros [= <-]; cbn; lia].
    destruct (dn_stopReply d); intros [= <-]; cbn; lia.
  - unfold tellStop. destruct (dn_stops d !! i) as [[]|]; try done; intros [= <-]; cbn; lia.
  - unfold exit. destruct (dn_phase d); try done. destruct (dn_stops d !! i) as [[]|]; try done. intros [= <-]. cbn. lia.
Qed.

Lemma run_seen d es d' : daemon_run d es = Some d' -> dn_sessionsSeen d' = dn_sessionsSeen d + admitted_in es.
Proof.
  revert d. induction es as [|e es IH]; intros d; cbn [daemon_run]; [intros [= <-]; unfold admitted_in; cbn; lia|].
  destruct (daemon_step d e) as [d1|] eqn:E; [|done]. intros Hr. rewrite (IH d1 Hr), (step_seen d e d1 E).
  unfold admitted_in. cbn [foldr]. destruct e as [[]| | | | |?| |? ? ?|?|]; lia.
Qed.

(** *** It ends *)

(** What the daemon does by itself once it no longer serves. *)
Definition daemon_internal (e : LEvent) : bool :=
  match e with LSessionEnd | LDrained | LFinish _ _ _ | LTell _ | LExit => true | _ => false end.

Definition tellable (x : StopPhase) : bool := match x with Told _ => true | _ => false end.

Definition toTell (l : list StopPhase) : nat := foldr (fun x n => if tellable x then S n else n) 0%nat l.

Definition daemon_left (d : Daemon) : nat :=
  dn_sessions d + toTell (dn_stops d) + (if dn_panicked d then 0 else 1) +
  match dn_phase d with Selecting => 8 | ShuttingDown _ => 6 | Returned _ => 4 | Replying _ _ => 2 | Exited _ => 0 end.

Lemma tellable_insert (l : list StopPhase) i x y :
  l !! i = Some x ->
  (toTell (<[i := y]> l) + (if tellable x then 1 else 0) = toTell l + (if tellable y then 1 else 0))%nat.
Proof.
  revert i. induction l as [|z l IH]; intros [|i]; cbn [lookup]; try done.
  - intros [= ->]. change (<[0%nat := y]> (x :: l)) with (y :: l). unfold toTell. cbn [foldr]. destruct (tellable x), (tellable y); lia.
  - intros Hi. specialize (IH i Hi). change (<[S i := y]> (z :: l)) with (z :: <[i := y]> l). unfold toTell in *. cbn [foldr].
    destruct (tellable z); lia.
Qed.

Lemma internal_down d e d' : daemon_ok d -> daemon_internal e = true -> daemon_step d e = Some d' -> (daemon_left d' < daemon_left d)%nat.
Proof.
  intros Hok Hi. unfold daemon_step. destruct (dn_panicked d) eqn:Epan; [done|]. destruct (is_exited (dn_phase d)) eqn:Eex; [done|]. cbn [orb].
  unfold daemon_left. rewrite Epan. destruct e as [?| | | | |?| |lines stats closeErr|i|]; try done.
  - destruct (dn_sessions d) as [|n] eqn:En; [done|]. intros [= <-]. cbn [set_sessions dn_sessions dn_stops dn_panicked dn_phase]. rewrite Epan. lia.
  - unfold drained. destruct (dn_phase d); try done. destruct (dn_sessions d) eqn:En; [|done]. intros [= <-]. cbn [set_phase dn_sessions dn_stops dn_panicked dn_phase]. rewrite Epan, En. destruct stop; lia.
  - unfold finish. destruct (dn_phase d) as [| |[|r]| |] eqn:Ep; try done; [|intros [= <-]; cbn [set_phase dn_sessions dn_stops dn_panicked dn_phase]; rewrite Epan; lia].
    destruct (dn_stopReply d) as [i|] eqn:Er; intros [= <-]; cbn [set_phase dn_sessions dn_stops dn_panicked dn_phase]; rewrite Epan; [|lia].
    destruct (dk_reply d Hok i Er) as [Ha _]. match goal with |- context [<[i := Told ?r]> _] => pose proof (tellable_insert (dn_stops d) i Asked (Told r) Ha) as Ht end.
    cbn [tellable] in Ht. lia.
  - unfold tellStop. destruct (dn_stops d !! i) as [[| |resp|]|] eqn:Es; try done; intros [= <-]; cbn [set_stops dn_sessions dn_stops dn_panicked dn_phase]; rewrite ?Epan.
    + lia.
    + pose proof (tellable_insert (dn_stops d) i (Told resp) (Finished resp) Es) as Ht. cbn [tellable] in Ht. lia.
  - unfold exit. destruct (dn_phase d) as [| | |i r|] eqn:Ep; try done. destruct (dn_stops d !! i) as [[]|]; try done. intros [= <-].
    cbn [set_phase dn_sessions dn_stops dn_panicked dn_phase]. rewrite Epan. lia.
Qed.

Lemma internal_enabled d :
  daemon_ok d -> dn_phase d <> Selecting -> dn_panicked d = false -> is_exited (dn_phase d) = false ->
  exists e d', daemon_internal e = true /\ daemon_step d e = Some d'.
Proof.
  intros Hok Hs Hp Hx. unfold daemon_step. destruct (dn_phase d) as [|stop|[|r]|i r|] eqn:Ep; try done.
  - destruct (dn_sessions d) as [|n] eqn:En.
    + exists LDrained. rewrite Hp. cbn [orb is_exited]. unfold drained. rewrite Ep, En. eauto.
    + exists LSessionEnd. rewrite Hp. cbn [orb is_exited]. eauto.
  - exists (LFinish [] no_summary None). rewrite Hp. cbn [orb is_exited]. unfold finish. rewrite Ep. destruct (dn_stopReply d); eauto.
  - exists (LFinish [] no_summary None). rewrite Hp. cbn [orb is_exited]. unfold finish. rewrite Ep. eauto.
  - destruct (dk_replying d Hok i r Ep) as [resp [Ht|Ht]].
    + exists (LTell i). rewrite Hp. cbn [orb is_exited]. unfold tellStop. rewrite Ht. eauto.
    + exists LExit. rewrite Hp. cbn [orb is_exited]. unfold exit. rewrite Ep, Ht. eauto.
Qed.

Lemma phase_leaves d e d' : dn_phase d <> Selecting -> daemon_step d e = Some d' -> dn_phase d' <> Selecting.
Proof.
  intros Hp. unfold daemon_step. destruct (dn_panicked d || is_exited (dn_phase d)); [done|].
  destruct e as [?| | | | |?| |lines stats closeErr|i|]; unfold selectCase, drained, finish, tellStop, exit, serveStop.
  all: repeat match goal with |- context [match ?x with _ => _ end] => destruct x eqn:?; try done end.
  all: intros [= <-]; cbn [set_phase set_sessions set_stops dn_phase]; congruence.
Qed.

(** *** The marker counts *)

Definition noMarkerFaults : MarkerFaults := mkMarkerFaults None None None None.

Fixpoint marks (n : nat) : bytes := match n with O => [] | S n => "1"%char :: newline :: marks n end.

Lemma marks_snoc n : marks n ++ ["1"%char; newline] = marks (S n).
Proof. induction n as [|n IH]; [done|]. cbn [marks app] in *. by rewrite IH. Qed.

Lemma marks_trimmed n : marks (S n) = Join (replicate (S n) ["1"%char]) [newline] ++ [newline].
Proof. induction n as [|n IH]; [done|]. change (marks (S (S n))) with ("1"%char :: newline :: marks (S n)). rewrite IH. done. Qed.

Lemma drop_space_rev x s : drop_space (map reverse wide_spaces) (newline :: x :: s) = Some (x :: s).
Proof. done. Qed.

Lemma marks_TrimSpace n : TrimSpace (marks (S n)) = Join (replicate (S n) ["1"%char]) [newline].
Proof.
  rewrite marks_trimmed. set (body := Join (replicate (S n) ["1"%char]) [newline]).
  assert (Hl : exists t, body = "1"%char :: t) by (subst body; destruct n; cbn; eauto).
  assert (Hr : exists t, reverse body = "1"%char :: t).
  { subst body. clear Hl. induction n as [|n [t IH]]; [by exists []|].
    change (Join (replicate (S (S n)) ["1"%char]) [newline]) with (["1"%char; newline] ++ Join (replicate (S n) ["1"%char]) [newline]).
    rewrite reverse_app, IH. cbn [app]. eauto. }
  destruct Hl as [t Ht], Hr as [u Hu]. unfold TrimSpace.
  assert (El : trim_left wide_spaces (length (body ++ [newline])) (body ++ [newline]) = body ++ [newline]) by (by rewrite Ht).
  rewrite El, reverse_app, length_app. cbn [reverse rev_append app length]. rewrite Nat.add_1_r. cbn [trim_left].
  change (reverse [newline]) with [newline]. cbn [app]. rewrite Hu, drop_space_rev.
  assert (Es : trim_left (map reverse wide_spaces) (length body) ("1"%char :: u) = "1"%char :: u) by (destruct (length body); done).
  rewrite Es, <-Hu. apply reverse_involutive.
Qed.

Lemma marks_count n : length (split_on newline (TrimSpace (marks (S n)))) = S n.
Proof.
  rewrite marks_TrimSpace. induction n as [|n IH]; [done|].
  change (Join (replicate (S (S n)) ["1"%char]) [newline]) with (["1"%char] ++ newline :: Join (replicate (S n) ["1"%char]) [newline]).
  rewrite split_on_app; [cbn [length]; by rewrite IH|]. apply (bool_decide_eq_false_1 _). vm_compute. reflexivity.
Qed.

(** Forced closes, one after the other. *)
Fixpoint recordTimes (urlHost : bytes -> result bytes) (url : bytes) (n : nat) (files : gmap bytes bytes) : gmap bytes bytes :=
  match n with O => files | S n => RecordShimForcedClose urlHost noMarkerFaults url (recordTimes urlHost url n files) end.

(** Every forced close that was recorded is counted, once. *)
Lemma forced_closes_are_counted urlHost url path n files :
  shimForcedCloseMarkerPath urlHost url = Ok path -> files !! path = None ->
  CountShimForcedCloses urlHost noMarkerFaults url (recordTimes urlHost url (S n) files) = (files, Z.of_nat (S n)).
Proof.
  intros Hp Hn. assert (Hr : recordTimes urlHost url (S n) files = <[path := marks (S n)]> files).
  { induction n as [|n IH].
    - cbn [recordTimes]. unfold RecordShimForcedClose. rewrite Hp. cbn [mf_open mf_write noMarkerFaults]. by rewrite Hn.
    - change (recordTimes urlHost url (S (S n)) files) with (RecordShimForcedClose urlHost noMarkerFaults url (recordTimes urlHost url (S n) files)).
      rewrite IH. unfold RecordShimForcedClose. rewrite Hp. cbn [mf_open mf_write noMarkerFaults].
      rewrite lookup_insert_eq. cbn [from_option]. unfold id. by rewrite insert_insert_eq, marks_snoc. }
  unfold CountShimForcedCloses. rewrite Hp, Hr, lookup_insert_eq. cbn [mf_read mf_remove noMarkerFaults marks].
  change ("1"%char :: newline :: marks n) with (marks (S n)). rewrite marks_count, delete_insert_id by done. done.
Qed.

(** ** Theorems *)

(** C24: one request stops the daemon and hears of it last.  In every run at most one of
    the connections that ask to stop gets the daemon's report; it gets it when no session
    is left, it tells how many sessions were let in from the first to the last, and the
    process ends only after it was written, with the error of closing the proxy if there
    was one. *)
Theorem stop_is_answered_last es d i resp
    (Hrun : daemon_run newDaemon es = Some d) (Htold : told d i resp) :
  dn_sessions d = 0%nat /\ ss_Invocations (sr_Stats resp) = admitted_in es /\
  (forall j resp', told d j resp' -> j = i /\ resp' = resp) /\
  (forall r, dn_phase d = Exited r -> dn_stops d !! i = Some (Finished resp)).
Proof.
  assert (Hok := daemon_run_ok _ _ _ newDaemon_ok Hrun). assert (Hseen := run_seen _ _ _ Hrun).
  destruct (dk_told d Hok i resp Htold) as [Hphase Hinv]. split; [apply (dk_sessions d Hok); eauto|].
  split; [rewrite Hinv, Hseen; done|]. split.
  - intros j resp' Hj. assert (j = i) as -> by (by eapply dk_one). split; [done|]. destruct Htold, Hj; congruence.
  - intros r E. destruct Hphase as [[q Eq]|(q & _ & Hf)]; [congruence|done].
Qed.

(** C25: a daemon that no longer serves ends.  From any state of any run in which [Serve]
    has left its select, the daemon makes boundedly many steps of its own, and as long as
    it has not ended there is one that it can make. *)
Theorem stopped_daemon_ends es d
    (Hrun : daemon_run newDaemon es = Some d) (Hleft : dn_phase d <> Selecting) :
  forall es' d', Forall (fun e => daemon_internal e = true) es' -> daemon_run d es' = Some d' ->
    (length es' <= daemon_left d)%nat /\
    (is_exited (dn_phase d') = true \/ dn_panicked d' = true \/ exists e d'', daemon_internal e = true /\ daemon_step d' e = Some d'').
Proof.
  assert (Hok := daemon_run_ok _ _ _ newDaemon_ok Hrun). clear Hrun. intros es'. revert d Hok Hleft.
  induction es' as [|e es' IH]; intros d Hok Hleft d' Hint; cbn [daemon_run length].
  - intros [= <-]. split; [lia|]. destruct (dn_panicked d) eqn:Ep; [auto|]. destruct (is_exited (dn_phase d)) eqn:Ex; [auto|].
    right. right. by apply internal_enabled.
  - apply Forall_cons in Hint as [He Hint]. destruct (daemon_step d e) as [d1|] eqn:E; [|done]. intros Hr.
    destruct (IH d1 (daemon_step_ok d e d1 Hok E) (phase_leaves d e d1 Hleft E) d' Hint Hr) as [Hl Hend]. split; [|exact Hend].
    assert (Hd := internal_down d e d1 Hok He E). lia.
Qed.

(** ** Witnesses *)

Definition exampleStop : list LEvent := [LSession true; LSession true; LStop; LSessionEnd; LTake; LStop; LSessionEnd; LDrained; LFinish [ #"bye" ] no_summary None].

Lemma stop_is_answered_last_witness :
  exists d resp, daemon_run newDaemon exampleStop = Some d /\ ss_Invocations (sr_Stats resp) = 2 /\ dn_sessions d = 0%nat /\
    forall r, dn_phase d = Exited r -> dn_stops d !! 0%nat = Some (Finished resp).
Proof.
  destruct (daemon_run newDaemon exampleStop) as [d|] eqn:E; [|vm_compute in E; discriminate E].
  destruct (stop_is_answered_last exampleStop d 0 (mkStopResponse [ #"bye" ] (withInvocations 2 no_summary) [])) as (H1 & H2 & _ & H4).
  - exact E.
  - vm_compute in E. injection E as <-. left. reflexivity.
  - eexists d, _. split; [done|]. split; [exact H2|]. split; [exact H1|exact H4].
Defined.

Lemma stopped_daemon_ends_witness :
  exists d, daemon_run newDaemon exampleStop = Some d /\
    forall d', daemon_run d [LTell 0; LExit] = Some d' -> (2 <= daemon_left d)%nat.
Proof.
  destruct (daemon_run newDaemon exampleStop) as [d|] eqn:E; [|vm_compute in E; discriminate E].
  exists d. split; [done|]. intros d' Hr. destruct (stopped_daemon_ends exampleStop d) with (es' := [LTell 0; LExit]) (d' := d') as [H1 _].
  - exact E.
  - vm_compute in E. injection E as <-. discriminate.
  - repeat constructor.
  - exact Hr.
  - exact H1.
Defined.

(** ** Outside the assumptions *)

(** A stop that is refused because another one is in the channel is answered with an
    error, and then closes its channel a second time, which ends the process: here the
    third of three, while the sessions are still being waited for. *)
Lemma refused_stop_crashes :
  dn_panicked <$> daemon_run newDaemon [LSession true; LStop; LTake; LStop; LStop; LTell 2] = Some true.
Proof. vm_compute. reflexivity. Qed.
