(* ===== verification/Relay.v ===== *)
(** The helper that a go command starts when a daemon serves the build: [ShimClient] and
    [ProcessShimSession] of src/internal/local/shim.go, and many of them at the daemon of
    [Shim], each with its connection.  The helper's goroutines are interleaved action by
    action: the loop over the requests, the copy of the responses, the reader of the
    connection. *)
From S2P Require Import Prelude.
From S2P Require Import GoStrings.
From S2P Require Import Wire.
From S2P Require Import CacheWire.
From S2P Require Import LocalStore.
From S2P Require Import LocalServe.
From S2P Require Import Proxy.
From S2P Require Import ProxyServe.
From S2P Require Import Shim.
From S2P Require Import App.
From S2P Require ShimServe.

(** ** The client *)

(** A call of [Do]: it waits, it has its response, or its channel was closed. *)
Inductive Call := CallWaits | CallDone (rs : Response) | CallClosed.

(** The channel of responses, the calls of [Do] with the ids they wait for, and whether
    [readResponses] has returned. *)
Record ShimClient := mkShimClient {
  sc_resps : list Response;
  sc_waiters : gmap Z nat;
  sc_calls : list Call;
  sc_ended : bool;
}.

Definition newShimClient : ShimClient := mkShimClient [] ∅ [] false.

Definition respsCapacity : nat := 100.

(** [readResponses], on one response; [None]: the channel is full. *)
Definition readResponse (c : ShimClient) (resp : Response) : option ShimClient :=
  if sc_ended c then None
  else match sc_waiters c !! rs_ID resp with
  | Some n => Some (mkShimClient (sc_resps c) (delete (rs_ID resp) (sc_waiters c)) (<[n := CallDone resp]> (sc_calls c)) false)
  | None => if (length (sc_resps c) <? respsCapacity)%nat then Some (mkShimClient (sc_resps c ++ [resp]) (sc_waiters c) (sc_calls c) false)
            else None
  end.

(** ... and when the connection gives no more: every call that waits is closed. *)
Definition readEnd (c : ShimClient) : option ShimClient :=
  if sc_ended c then None
  else Some (mkShimClient (sc_resps c) ∅ (foldl (fun calls n => <[n := CallClosed]> calls) (sc_calls c) (map snd (map_to_list (sc_waiters c)))) true).

(** [Do]: the call is registered, [Send] is tried, and the call waits. *)
Definition doRegister (c : ShimClient) (req : Request) : ShimClient :=
  mkShimClient (sc_resps c) (<[rq_ID req := length (sc_calls c)]> (sc_waiters c)) (sc_calls c ++ [CallWaits]) (sc_ended c).
Definition doUnsent (c : ShimClient) (req : Request) : ShimClient :=
  mkShimClient (sc_resps c) (delete (rq_ID req) (sc_waiters c)) (sc_calls c) (sc_ended c).
Definition doResult (c : ShimClient) (n : nat) : option (result Response) :=
  match sc_calls c !! n with
  | Some (CallDone rs) => Some (Ok rs)
  | Some CallClosed => Some (Err EEOF)
  | _ => None
  end.

(** The dialing of [NewShimClient]: each attempt with the time it ended at. *)
Fixpoint dialLoop (deadline : Z) (attempts : list (Z * result unit)) : option (result unit) :=
  match attempts with
  | [] => None
  | (_, Ok _) :: _ => Some (Ok tt)
  | (now, Err e) :: attempts => if deadline <? now then Some (Err e) else dialLoop deadline attempts
  end.

Definition dialPatience : Z := 5 * 1000000000.

(** [NewShimClient]: [hello] is the writing of the hello, [closed] the close after it
    failed; [None]: it still dials. *)
Definition NewShimClient (urlHost : bytes -> result bytes) (remoteURL : bytes) (start : Z) (attempts : list (Z * result unit)) (hello closed : result unit)
    : option (result ShimClient) :=
  match ShimServe.shimNetworkAndAddr urlHost remoteURL with
  | Err e => Some (Err e)
  | Ok _ =>
      match dialLoop (start + dialPatience) attempts with
      | None => None
      | Some (Err e) => Some (Err e)
      | Some (Ok _) =>
          Some (match hello with
                | Ok _ => Ok newShimClient
                | Err e => match closed with Err e' => Err e' | Ok _ => Err e end
                end)
      end
  end.

(** ** The relay *)

(** The goroutine that copies responses: at the channel, with what it found in flight
    when the channel was closed, returned. *)
Inductive CopyPhase := Copying | Ending (inFlight : bool) | Copied.

(** The loop over the requests: at the decoder, in [Send], at the look at [errCh], in
    the wait of a close. *)
Inductive MainPhase := Reading | Sending (req : Request) (body : bytes) | Checking | Closing.

(** [inFlight] and the wait group count together; [errCh] has room for one value, and
    one is sent at most. *)
Record Relay := mkRelay {
  rl_inFlight : Z;
  rl_sent : list (Request * bytes);
  rl_out : list Response;
  rl_errCh : option (option goerr);
  rl_copy : CopyPhase;
  rl_main : MainPhase;
}.

Definition newRelay : Relay := mkRelay 0 [] [] None Copying Reading.

Definition in_main (r : Relay) (ph : MainPhase) : Relay := mkRelay (rl_inFlight r) (rl_sent r) (rl_out r) (rl_errCh r) (rl_copy r) ph.

(** How the process ends. *)
Inductive RExit := Success | Failure (e : goerr) | Crash.

(** What the wait of a close selects. *)
Inductive CloseWait := WaitDone | WaitErr | WaitTimeout.

Definition ErrShimCloseTimeout : goerr := EMsg "shim close wait timed out".

Inductive REvent :=
  | RInput (i : Input)
  | RSend (sent : result unit)
  | RCheck
  | RClose (w : CloseWait) (closed : result unit)
  | RResponse (rs : Response) (wrote : result unit)
  | REnd
  | RReport.

(** [decodeShimBody]. *)
Definition decodeShimBody (req : Request) (body : result bytes) : result bytes :=
  match rq_Command req with CmdPut => readBody req body | _ => Ok [] end.

(** One round of the loop, up to [Send]. *)
Definition relayInput (r : Relay) (i : Input) : Relay * option RExit :=
  match in_request i with
  | Err e => (r, Some (Failure e))
  | Ok req =>
      match decodeShimBody req (in_body i) with
      | Err e => (r, Some (Failure e))
      | Ok body =>
          match rq_Command req with
          | CmdClose => (in_main r Closing, None)
          | _ => (mkRelay (rl_inFlight r + 1) (rl_sent r) (rl_out r) (rl_errCh r) (rl_copy r) (Sending req body), None)
          end
      end
  end.

(** [Send]; a request that failed to be sent was not. *)
Definition relaySend (r : Relay) (req : Request) (body : bytes) (sent : result unit) : Relay * option RExit :=
  match sent with
  | Err e => (mkRelay (rl_inFlight r - 1) (rl_sent r) (rl_out r) (rl_errCh r) (rl_copy r) Reading, Some (Failure e))
  | Ok _ => (mkRelay (rl_inFlight r) (rl_sent r ++ [(req, body)]) (rl_out r) (rl_errCh r) (rl_copy r) Checking, None)
  end.

Definition relayCheck (r : Relay) : Relay * option RExit :=
  match rl_errCh r with
  | None => (in_main r Reading, None)
  | Some (Some e) => (r, Some (Failure e))
  | Some None => (r, Some (Failure EEOF))
  end.

Definition relayClose (r : Relay) (w : CloseWait) (closed : result unit) : option (Relay * option RExit) :=
  let close := match closed with Ok _ => Success | Err e => Failure e end in
  match w with
  | WaitDone => if rl_inFlight r =? 0 then Some (r, Some close) else None
  | WaitErr =>
      match rl_errCh r with
      | None => None
      | Some None => Some (r, Some close)
      | Some (Some e) => Some (r, Some (Failure e))
      end
  | WaitTimeout => Some (r, Some (Failure ErrShimCloseTimeout))
  end.

(** One response: written to the go command, and counted; the wait group panics below
    zero. *)
Definition copyResponse (r : Relay) (rs : Response) (wrote : result unit) : Relay * option RExit :=
  match wrote with
  | Err e => (mkRelay (rl_inFlight r) (rl_sent r) (rl_out r) (Some (Some e)) Copied (rl_main r), None)
  | Ok _ =>
      if rl_inFlight r <=? 0 then (r, Some Crash)
      else (mkRelay (rl_inFlight r - 1) (rl_sent r) (rl_out r ++ [rs]) (rl_errCh r) Copying (rl_main r), None)
  end.

Definition copyEnd (r : Relay) : Relay :=
  mkRelay (rl_inFlight r) (rl_sent r) (rl_out r) (rl_errCh r) (Ending (0 <? rl_inFlight r)) (rl_main r).
Definition copyReport (r : Relay) (inFlight : bool) : Relay :=
  mkRelay (rl_inFlight r) (rl_sent r) (rl_out r) (Some (if inFlight then Some (EMsg "unexpected EOF") else None)) Copied (rl_main r).

Definition relay_step (r : Relay) (e : REvent) : option (Relay * option RExit) :=
  match e, rl_main r, rl_copy r with
  | RInput i, Reading, _ => Some (relayInput r i)
  | RSend sent, Sending req body, _ => Some (relaySend r req body sent)
  | RCheck, Checking, _ => Some (relayCheck r)
  | RClose w closed, Closing, _ => relayClose r w closed
  | RResponse rs wrote, _, Copying => Some (copyResponse r rs wrote)
  | REnd, _, Copying => Some (copyEnd r, None)
  | RReport, _, Ending b => Some (copyReport r b, None)
  | _, _, _ => None
  end.

(** [ProcessShimSession], as far as its events go. *)
Fixpoint ProcessShimSession (r : Relay) (es : list REvent) : option (Relay * option RExit) :=
  match es with
  | [] => Some (r, None)
  | e :: es =>
      match relay_step r e with
      | Some (r, None) => ProcessShimSession r es
      | Some (r, Some x) => match es with [] => Some (r, Some x) | _ => None end
      | None => None
      end
  end.

(** ** The helpers at the daemon *)

(** A helper: its session of the daemon, if it was let in, how many of its requests the
    daemon has read, how many of the responses written to its session it has read, and
    how it ended. *)
Record Helper := mkHelper {
  hp_relay : Relay;
  hp_client : ShimClient;
  hp_session : option nat;
  hp_received : nat;
  hp_delivered : nat;
  hp_exit : option RExit;
}.

Definition newHelper (session : option nat) : Helper := mkHelper newRelay newShimClient session 0 0 None.

(** What one helper does: the relay's own steps, the reader's, and the copy of the next
    response or of the end. *)
Inductive HEvent :=
  | HRelay (e : REvent)
  | HRead
  | HReadEnd
  | HCopy (wrote : result unit)
  | HCopyEnd.

Definition with_relay (hp : Helper) (c : ShimClient) (o : option (Relay * option RExit)) : option Helper :=
  match o with
  | Some (r, x) => Some (mkHelper r c (hp_session hp) (hp_received hp) (hp_delivered hp) x)
  | None => None
  end.
Definition with_client (hp : Helper) (n : nat) (o : option ShimClient) : option Helper :=
  match o with
  | Some c => Some (mkHelper (hp_relay hp) c (hp_session hp) (hp_received hp) n (hp_exit hp))
  | None => None
  end.

(** [written] is what the daemon has written to the session. *)
Definition helper_step (written : list Response) (hp : Helper) (e : HEvent) : option Helper :=
  let c := hp_client hp in
  match hp_exit hp, e with
  | Some _, _ => None
  | None, HRelay (RResponse _ _ | REnd) => None
  | None, HRelay e => with_relay hp c (relay_step (hp_relay hp) e)
  | None, HRead =>
      match written !! hp_delivered hp with
      | Some rs => with_client hp (S (hp_delivered hp)) (readResponse c rs)
      | None => None
      end
  | None, HReadEnd => with_client hp (hp_delivered hp) (readEnd c)
  | None, HCopy wrote =>
      match sc_resps c with
      | rs :: rest => with_relay hp (mkShimClient rest (sc_waiters c) (sc_calls c) (sc_ended c)) (relay_step (hp_relay hp) (RResponse rs wrote))
      | [] => None
      end
  | None, HCopyEnd =>
      match sc_resps c with
      | [] => if sc_ended c then with_relay hp c (relay_step (hp_relay hp) REnd) else None
      | _ => None
      end
  end.

Record World := mkWorld { w_daemon : ShimServer; w_helpers : list Helper }.

(** A helper is started, the daemon does something by itself, it reads the next request
    of a helper, a helper does something. *)
Inductive WEvent :=
  | WDial (h : shimHello) (ready : bool)
  | WDaemon (e : SEvent)
  | WReceive (k : nat) (a : putArgs) (wrote : bool)
  | WHelper (k : nat) (e : HEvent).

Definition writtenTo (d : ShimServer) (session : option nat) : list Response :=
  match session with
  | Some i => match sv_sessions d !! i with Some x => ss_out x | None => [] end
  | None => []
  end.

Definition read_one (hp : Helper) : Helper :=
  mkHelper (hp_relay hp) (hp_client hp) (hp_session hp) (S (hp_received hp)) (hp_delivered hp) (hp_exit hp).

(** The daemon's events that are neither a helper's hello nor a request. *)
Definition daemon_event (e : SEvent) : bool :=
  match e with SEnvelope _ _ _ _ _ => false | SHello h _ => sh_Stop h | _ => true end.

Section world.
Context `{Zstd} (cf : Config) (pp : ProxyParams) (up : bool).

(** The requests of a helper reach the daemon whole and in their order. *)
Definition receive (d : ShimServer) (hp : Helper) (a : putArgs) (wrote : bool) : option ShimServer :=
  match hp_session hp, rl_sent (hp_relay hp) !! hp_received hp with
  | Some i, Some (req, body) => serveEnvelope cf up d i req body a wrote
  | _, _ => None
  end.

Definition world_step (w : World) (e : WEvent) : option World :=
  let d := w_daemon w in
  match e with
  | WDial h ready =>
      if sh_Stop h then None
      else
        let '(d', r) := serveHello d h ready in
        let session := match r with None => Some (length (sv_sessions d)) | Some _ => None end in
        Some (mkWorld d' (w_helpers w ++ [newHelper session]))
  | WDaemon e =>
      if daemon_event e then match shim_step cf pp up d e with Some d' => Some (mkWorld d' (w_helpers w)) | None => None end
      else None
  | WReceive k a wrote =>
      match w_helpers w !! k with
      | Some hp => match receive d hp a wrote with
                   | Some d' => Some (mkWorld d' (<[k := read_one hp]> (w_helpers w)))
                   | None => None
                   end
      | None => None
      end
  | WHelper k e =>
      match w_helpers w !! k with
      | Some hp => match helper_step (writtenTo d (hp_session hp)) hp e with
                   | Some hp' => Some (mkWorld d (<[k := hp']> (w_helpers w)))
                   | None => None
                   end
      | None => None
      end
  end.

Fixpoint world_run (w : World) (es : list WEvent) : option World :=
  match es with
  | [] => Some w
  | e :: es => match world_step w e with Some w => world_run w es | None => None end
  end.

(** The upstream of the proxy streams what it was asked for. *)
Definition polite_world (w : World) (e : WEvent) : Prop :=
  match e with WDaemon e => polite_shim (w_daemon w) e | _ => True end.
Fixpoint polite_world_run (w : World) (es : list WEvent) : Prop :=
  match es with
  | [] => True
  | e :: es => polite_world w e /\ forall w', world_step w e = Some w' -> polite_world_run w' es
  end.
End world.

(** ** The daemon takes nothing back *)

Definition outs_grow (l l' : list shimSession) : Prop :=
  forall i x, l !! i = Some x -> exists x', l' !! i = Some x' /\ ss_out x `prefix_of` ss_out x'.

Lemma outs_grow_refl l : outs_grow l l.
Proof. intros i x Hx. by exists x. Qed.

Lemma outs_grow_alter l l' g j : (forall x, ss_out x `prefix_of` ss_out (g x)) -> outs_grow l l' -> outs_grow l (alter g j l').
Proof.
  intros Hg Hl i x Hx. destruct (Hl i x Hx) as (x' & Hx' & Hp). destruct (decide (j = i)) as [->|Hne].
  - exists (g x'). rewrite list_lookup_alter_eq, Hx'. split; [done|]. by trans (ss_out x').
  - exists x'. by rewrite list_lookup_alter_ne.
Qed.

Lemma written_grows rs wrote x : ss_out x `prefix_of` ss_out (writeResponse rs wrote x).
Proof. unfold writeResponse. destruct wrote; simpl; [by apply prefix_app_r|done]. Qed.

#[local] Hint Resolve outs_grow_refl written_grows : core.

Section steps.
Context `{Zstd} (cf : Config) (pp : ProxyParams) (up : bool).

Lemma envelope_grows s i req body a wrote s' : serveEnvelope cf up s i req body a wrote = Some s' -> outs_grow (sv_sessions s) (sv_sessions s').
Proof.
  unfold serveEnvelope. destruct (ss_phase <$> _) as [[]|]; try done. destruct (rq_Command req); cbn [sv_proxy set_nextID].
  - destruct (px_panicked _); [done|]. destruct (Put _ _ _ _ _ _) as [[p rs]|]; [|done].
    destruct wrote; intros [= <-]; simpl; repeat (apply outs_grow_alter; [intros x; simpl; auto; by apply prefix_app_r|]); auto.
  - intros [= <-]. by apply outs_grow_alter.
  - intros [= <-]. by apply outs_grow_alter.
  - intros [= <-]. by apply outs_grow_alter.
Qed.

Lemma hello_grows s h ready : outs_grow (sv_sessions s) (sv_sessions (fst (serveHello s h ready))).
Proof.
  unfold serveHello. destruct (_ && _); [done|]. destruct (sh_Stop h); [by destruct (sv_stopReq s)|].
  intros i x Hx. exists x. simpl. split; [by apply lookup_app_l_Some|done].
Qed.

Lemma step_grows s e s' : shim_step cf pp up s e = Some s' -> outs_grow (sv_sessions s) (sv_sessions s').
Proof.
  destruct e as [h ready|i req body a wrote|i now total|i|wrote|e|]; simpl.
  - assert (Hh := hello_grows s h ready). destruct (serveHello s h ready) as [s1 [[]|]]; try done; by intros [= <-].
  - apply envelope_grows.
  - unfold serveForward. destruct (ss_phase <$> _) as [[]|]; try done. destruct (step _ _ _ _ _); [|done]. intros [= <-]. by apply outs_grow_alter.
  - unfold serveBroken. destruct (ss_phase <$> _) as [[]|]; try done. intros [= <-]. by apply outs_grow_alter.
  - unfold dispatchResponse. destruct (_ !! sv_taken s); [|done]. cbn [sv_waiters set_taken].
    destruct (sv_waiters s !! _); intros [= <-]; simpl; [apply outs_grow_alter|]; auto.
  - intros E. destruct e; try done; (destruct (step _ _ _ _ _); [|done]); by injection E as <-.
  - destruct (sv_stopReq s); [|done]. by intros [= <-].
Qed.

Lemma writtenTo_grows d d' session : outs_grow (sv_sessions d) (sv_sessions d') ->
  writtenTo d session `prefix_of` writtenTo d' session.
Proof.
  intros Hg. destruct session as [i|]; simpl; [|done]. destruct (sv_sessions d !! i) as [x|] eqn:Hx; [|apply prefix_nil].
  by destruct (Hg i x Hx) as (x' & -> & Hp).
Qed.
End steps.

(** ** A helper *)

(** A request is being sent and is counted already. *)
Definition sending (r : Relay) : Z := match rl_main r with Sending _ _ => 1 | _ => 0 end.

(** What holds of a helper, its daemon having written [written] to its session. *)
Record helper_ok (written : list Response) (hp : Helper) : Prop := {
  ho_count : Z.of_nat (length (rl_sent (hp_relay hp))) + sending (hp_relay hp) = rl_inFlight (hp_relay hp) + Z.of_nat (length (rl_out (hp_relay hp)));
  ho_received : (hp_received hp <= length (rl_sent (hp_relay hp)))%nat;
  ho_delivered : (hp_delivered hp <= length written)%nat;
  ho_waiters : sc_waiters (hp_client hp) = ∅;
  ho_out : rl_out (hp_relay hp) `prefix_of` written;
  ho_copying : rl_copy (hp_relay hp) = Copying -> rl_out (hp_relay hp) ++ sc_resps (hp_client hp) = take (hp_delivered hp) written;
  ho_errCh : rl_copy (hp_relay hp) <> Copied -> rl_errCh (hp_relay hp) = None;
  ho_ended : (exists b, rl_copy (hp_relay hp) = Ending b) \/ rl_errCh (hp_relay hp) = Some None -> sc_ended (hp_client hp) = true;
  ho_success : hp_exit hp = Some Success -> rl_main (hp_relay hp) = Closing /\ (rl_inFlight (hp_relay hp) = 0 \/ rl_errCh (hp_relay hp) = Some None);
  ho_crash : hp_exit hp <> Some Crash;
}.

Lemma new_helper_ok written session : helper_ok written (newHelper session).
Proof.
  split; simpl; try done; try lia; [apply prefix_nil|]. by intros [[b E]|E].
Qed.

(** More is written to the session. *)
Lemma more_written written written' hp : written `prefix_of` written' -> helper_ok written hp -> helper_ok written' hp.
Proof.
  intros [l ->] []. split; try done.
  - rewrite length_app. lia.
  - by apply prefix_app_r.
  - intros Hc. rewrite take_app_le by done. auto.
Qed.

Lemma read_one_ok written hp : (hp_received hp < length (rl_sent (hp_relay hp)))%nat -> helper_ok written hp -> helper_ok written (read_one hp).
Proof. intros Hlt []. split; try done. Qed.

(** The steps of the loop over the requests. *)
Lemma main_step_ok written hp r x : helper_ok written hp -> hp_exit hp = None -> rl_out r = rl_out (hp_relay hp) ->
  rl_copy r = rl_copy (hp_relay hp) -> rl_errCh r = rl_errCh (hp_relay hp) -> (length (rl_sent (hp_relay hp)) <= length (rl_sent r))%nat ->
  Z.of_nat (length (rl_sent r)) + sending r = rl_inFlight r + Z.of_nat (length (rl_out r)) ->
  (x = Some Success -> rl_main r = Closing /\ (rl_inFlight r = 0 \/ rl_errCh r = Some None)) -> x <> Some Crash ->
  helper_ok written (mkHelper r (hp_client hp) (hp_session hp) (hp_received hp) (hp_delivered hp) x).
Proof.
  intros [] Hx E1 E2 E3 Hs Hc Hex Hcr. split; simpl; rewrite ?E1, ?E2, ?E3; try done; [|lia|]; by rewrite <-?E1, <-?E3.
Qed.

Lemma relay_main_ok written hp e r x : helper_ok written hp -> hp_exit hp = None ->
  (match e with RInput _ | RSend _ | RCheck | RClose _ _ => True | _ => False end) -> relay_step (hp_relay hp) e = Some (r, x) ->
  helper_ok written (mkHelper r (hp_client hp) (hp_session hp) (hp_received hp) (hp_delivered hp) x).
Proof.
  intros Hok Hx He E. assert (Hc := ho_count _ _ Hok). unfold sending in Hc.
  destruct e as [i|sent| |w closed| | |]; try done; clear He; simpl in E; destruct (rl_main (hp_relay hp)) eqn:Em; try done.
  - injection E as E. unfold relayInput in E. destruct (in_request i) as [req|]; [|injection E as <- <-; apply main_step_ok; rewrite ?Em; unfold sending; rewrite ?Em; try done; lia].
    destruct (decodeShimBody _ _); [|injection E as <- <-; apply main_step_ok; rewrite ?Em; unfold sending; rewrite ?Em; try done; lia].
    destruct (rq_Command req); injection E as <- <-; apply main_step_ok; unfold sending; simpl; try done; lia.
  - injection E as E. unfold relaySend in E. destruct sent; injection E as <- <-; apply main_step_ok; unfold sending; simpl; rewrite ?length_app; simpl; try done; lia.
  - injection E as E. unfold relayCheck in E. destruct (rl_errCh (hp_relay hp)) as [[e|]|]; injection E as <- <-; apply main_step_ok; unfold sending; simpl; rewrite ?Em; try done; lia.
  - unfold relayClose in E. destruct w.
    + destruct (Z.eqb_spec (rl_inFlight (hp_relay hp)) 0); [|done]. injection E as <- <-. apply main_step_ok; unfold sending; rewrite ?Em; try done; try lia; [auto|by destruct closed].
    + destruct (rl_errCh (hp_relay hp)) as [[e|]|] eqn:Ee; [| |done]; injection E as <- <-; apply main_step_ok; unfold sending; rewrite ?Em; try done; try lia; [auto|by destruct closed].
    + injection E as <- <-. apply main_step_ok; unfold sending; rewrite ?Em; try done; lia.
Qed.

(** The copy of a response, which is in the channel; there is a request in flight for it. *)
Lemma copied_ok written hp rs rest wrote hp' : helper_ok written hp -> (length written <= hp_received hp)%nat -> hp_exit hp = None ->
  sc_resps (hp_client hp) = rs :: rest ->
  with_relay hp (mkShimClient rest (sc_waiters (hp_client hp)) (sc_calls (hp_client hp)) (sc_ended (hp_client hp)))
    (relay_step (hp_relay hp) (RResponse rs wrote)) = Some hp' -> helper_ok written hp'.
Proof.
  intros Hok Hle Hx Er. destruct (rl_copy (hp_relay hp)) eqn:Ec;
    [|unfold with_relay; cbn; rewrite Ec; by destruct (rl_main (hp_relay hp))..].
  assert (E : relay_step (hp_relay hp) (RResponse rs wrote) = Some (copyResponse (hp_relay hp) rs wrote)).
  { cbn. rewrite Ec. by destruct (rl_main (hp_relay hp)). }
  rewrite E. clear E. assert (Hcp := ho_copying _ _ Hok Ec). rewrite Er in Hcp. unfold copyResponse, with_relay.
  assert (Hlen := f_equal length Hcp). rewrite length_app, length_take in Hlen. cbn [length] in Hlen.
  assert (Hs : 0 <= sending (hp_relay hp)) by (unfold sending; by case_match).
  assert (Hpre : (rl_out (hp_relay hp) ++ [rs]) `prefix_of` written).
  { exists (rest ++ drop (hp_delivered hp) written). by rewrite <-(take_drop (hp_delivered hp) written) at 1; rewrite <-Hcp, <-!app_assoc. }
  destruct Hok. destruct wrote as [u|e].
  - destruct (Z.leb_spec (rl_inFlight (hp_relay hp)) 0); [lia|]. intros [= <-]. split; simpl; try done.
    + rewrite length_app. unfold sending in *. simpl. lia.
    + intros _. by rewrite <-Hcp, <-app_assoc.
    + intros _. apply ho_errCh0. by rewrite Ec.
    + intros [[b Hb]|Hn]; [done|]. apply ho_ended0. by right.
  - intros [= <-]. split; simpl; try done. intros [[b Hb]|Hn]; done.
Qed.

(** The other goroutines; the daemon has written no more than it was sent. *)
Lemma helper_step_ok written hp e hp' : helper_ok written hp -> (length written <= hp_received hp)%nat ->
  helper_step written hp e = Some hp' -> helper_ok written hp'.
Proof.
  intros Hok Hle. unfold helper_step. destruct (hp_exit hp) eqn:Hx; [done|]. destruct e as [e| | |wrote|].
  - assert (Hm : (match e with RInput _ | RSend _ | RCheck | RClose _ _ => True | _ => False end) \/ e = RReport \/
      match e with RResponse _ _ | REnd => True | _ => False end) by (destruct e; tauto).
    destruct Hm as [Hm|[->|Hm]]; [| |by destruct e].
    + unfold with_relay. destruct (relay_step (hp_relay hp) e) as [[r x]|] eqn:E; [|by destruct e]. intros E'.
      assert (hp' = mkHelper r (hp_client hp) (hp_session hp) (hp_received hp) (hp_delivered hp) x) as -> by (by destruct e; simplify_eq/=).
      by apply (relay_main_ok _ _ e).
    + cbn. destruct (rl_main (hp_relay hp)) eqn:Em, (rl_copy (hp_relay hp)) as [|b|] eqn:Ec; try done; intros [= <-]; destruct Hok; split; simpl; try done;
        intros _; apply ho_ended0; left; by exists b.
  - destruct (written !! hp_delivered hp) as [rs|] eqn:Er; [|done]. unfold readResponse. destruct (sc_ended (hp_client hp)) eqn:Ee; [done|].
    rewrite (ho_waiters _ _ Hok), lookup_empty. destruct (_ <? _)%nat; [|done]. intros [= <-].
    assert (Hd := lookup_lt_Some _ _ _ Er). destruct Hok; split; simpl; try done.
    all: try by rewrite Hx.
    { intros Hc. by rewrite app_assoc, ho_copying0, (take_S_r _ _ rs). }
    intros Hb. specialize (ho_ended0 Hb). congruence.
  - unfold readEnd. destruct (sc_ended (hp_client hp)); [done|]. intros [= <-]. destruct Hok; split; simpl; try done; by rewrite Hx.
  - destruct (sc_resps (hp_client hp)) as [|rs rest] eqn:Er; [done|]. apply copied_ok; [done..|]. by rewrite Er.
  - destruct (sc_resps (hp_client hp)) eqn:Er; [|done]. destruct (sc_ended (hp_client hp)) eqn:Ee; [|done]. 
    assert (E : relay_step (hp_relay hp) REnd = match rl_copy (hp_relay hp) with Copying => Some (copyEnd (hp_relay hp), None) | _ => None end)
      by (cbn; by destruct (rl_main (hp_relay hp)), (rl_copy (hp_relay hp))).
    rewrite E. destruct (rl_copy (hp_relay hp)) eqn:Ec; [|done..]. intros [= <-].
    destruct Hok; split; simpl; try done. intros _. apply ho_errCh0. by rewrite Ec.
Qed.

(** ** All of them *)

(** The requests that the daemon answers: its other envelopes end the session. *)
Definition answerable (req : Request) : bool := match rq_Command req with CmdGet | CmdPut => true | _ => false end.

(** The ids that the daemon has read of a helper, to be answered. *)
Definition heard (hp : Helper) : list Z :=
  map rq_ID (filter (fun req => answerable req = true) (map fst (take (hp_received hp) (rl_sent (hp_relay hp))))).

Definition distinct_sessions (l : list Helper) : Prop :=
  forall k k' hp hp' i, l !! k = Some hp -> l !! k' = Some hp' -> hp_session hp = Some i -> hp_session hp' = Some i -> k = k'.

Record world_ok (up : bool) (w : World) (asked : nat -> list Z) : Prop := {
  wo_daemon : shim_ok up (w_daemon w) asked;
  wo_helper k hp : w_helpers w !! k = Some hp -> helper_ok (writtenTo (w_daemon w) (hp_session hp)) hp;
  wo_session k hp i : w_helpers w !! k = Some hp -> hp_session hp = Some i -> (i < length (sv_sessions (w_daemon w)))%nat /\ asked i = heard hp;
  wo_distinct : distinct_sessions (w_helpers w);
}.

Lemma heard_length hp : (length (heard hp) <= hp_received hp)%nat.
Proof.
  unfold heard. rewrite length_map. etrans; [apply length_filter|]. rewrite length_map, length_take. lia.
Qed.

(** What is written to a helper answers what was heard of it. *)
Lemma written_heard up w asked k hp : world_ok up w asked -> w_helpers w !! k = Some hp ->
  map rs_ID (writtenTo (w_daemon w) (hp_session hp)) ⊆+ heard hp.
Proof.
  intros Hw Hk. destruct (hp_session hp) as [i|] eqn:Es; [|apply submseteq_nil_l]. simpl.
  destruct (sv_sessions (w_daemon w) !! i) as [x|] eqn:Hx; [|apply submseteq_nil_l].
  destruct (wo_session _ _ _ Hw k hp i Hk Es) as [_ <-]. destruct (so_account _ _ _ (wo_daemon _ _ _ Hw) i x Hx) as [Ha _].
  etrans; [|exact Ha]. by apply submseteq_inserts_r.
Qed.

Lemma written_length up w asked k hp : world_ok up w asked -> w_helpers w !! k = Some hp ->
  (length (writtenTo (w_daemon w) (hp_session hp)) <= hp_received hp)%nat.
Proof.
  intros Hw Hk. assert (Hl := submseteq_length _ _ (written_heard up w asked k hp Hw Hk)). rewrite length_map in Hl.
  assert (Hh := heard_length hp). lia.
Qed.

(** The sent requests only grow, and what was heard stays. *)
Lemma heard_app hp hp' l : (hp_received hp <= length (rl_sent (hp_relay hp)))%nat -> hp_received hp' = hp_received hp ->
  rl_sent (hp_relay hp') = rl_sent (hp_relay hp) ++ l -> heard hp' = heard hp.
Proof. intros Hle E1 E2. unfold heard. by rewrite E1, E2, take_app_le. Qed.

Lemma relay_sent r e r' x : relay_step r e = Some (r', x) -> exists l, rl_sent r' = rl_sent r ++ l.
Proof.
  assert (Hno : exists l, rl_sent r = rl_sent r ++ l) by (exists []; by rewrite app_nil_r).
  destruct e as [i|sent| |w closed|rs wrote| |]; simpl; destruct (rl_main r), (rl_copy r); try done; try (by intros [= <- _]).
  all: try (unfold relayInput; destruct (in_request i) as [req|]; [|by intros [= <- _]]; destruct (decodeShimBody _ _); [|by intros [= <- _]];
    destruct (rq_Command req); by intros [= <- _]).
  all: try (unfold relaySend; destruct sent; intros [= <- _]; simpl; eauto; done).
  all: try (unfold relayCheck; destruct (rl_errCh r) as [[e|]|]; by intros [= <- _]).
  all: try (unfold relayClose; destruct w; [destruct (_ =? 0)|destruct (rl_errCh r) as [[e|]|]|]; try done; by intros [= <- _]).
  all: unfold copyResponse; destruct wrote; [destruct (_ <=? _)|]; by intros [= <- _].
Qed.

Lemma helper_sent written hp e hp' : helper_step written hp e = Some hp' ->
  hp_session hp' = hp_session hp /\ hp_received hp' = hp_received hp /\ exists l, rl_sent (hp_relay hp') = rl_sent (hp_relay hp) ++ l.
Proof.
  assert (Hno : exists l, rl_sent (hp_relay hp) = rl_sent (hp_relay hp) ++ l) by (exists []; by rewrite app_nil_r).
  assert (Hr : forall c e, with_relay hp c (relay_step (hp_relay hp) e) = Some hp' ->
    hp_session hp' = hp_session hp /\ hp_received hp' = hp_received hp /\ exists l, rl_sent (hp_relay hp') = rl_sent (hp_relay hp) ++ l).
  { intros c e0. unfold with_relay. destruct (relay_step _ _) as [[r x]|] eqn:E; [|done]. intros [= <-]. split; [done|]. split; [done|]. by eapply relay_sent. }
  unfold helper_step. destruct (hp_exit hp); [done|]. destruct e as [e| | |wrote|].
  - destruct e; try done; apply Hr.
  - destruct (written !! _); [|done]. unfold with_client. destruct (readResponse _ _); [|done]. by intros [= <-].
  - unfold with_client. destruct (readEnd _); [|done]. by intros [= <-].
  - destruct (sc_resps _); [done|]. apply Hr.
  - destruct (sc_resps _); [|done]. destruct (sc_ended _); [|done]. apply Hr.
Qed.

Lemma outs_grow_length l l' i : outs_grow l l' -> (i < length l)%nat -> (i < length l')%nat.
Proof.
  intros Hg Hi. destruct (lookup_lt_is_Some_2 l i Hi) as [x Hx]. destruct (Hg i x Hx) as (x' & Hx' & _). by apply lookup_lt_Some in Hx'.
Qed.

(** A step of the daemon that reads no request of a helper. *)
Lemma daemon_moves up w asked d' : world_ok up w asked -> shim_ok up d' asked -> outs_grow (sv_sessions (w_daemon w)) (sv_sessions d') ->
  world_ok up (mkWorld d' (w_helpers w)) asked.
Proof.
  intros Hw Hd Hg. split; simpl; [done| | |apply Hw].
  - intros k hp Hk. eapply more_written; [by apply writtenTo_grows|]. by apply (wo_helper _ _ _ Hw k).
  - intros k hp i Hk Hi. destruct (wo_session _ _ _ Hw k hp i Hk Hi) as [Hl Ha]. split; [by eapply outs_grow_length|done].
Qed.

Lemma distinct_insert (l : list Helper) k hp hp' : distinct_sessions l -> l !! k = Some hp -> hp_session hp' = hp_session hp ->
  distinct_sessions (<[k := hp']> l).
Proof.
  intros Hd Hk Es k1 k2 hp1 hp2 i H1 H2 E1 E2.
  assert (Hold : forall k0 hp0, <[k := hp']> l !! k0 = Some hp0 -> exists hp3, l !! k0 = Some hp3 /\ hp_session hp3 = hp_session hp0).
  { intros k0 hp0 [(<- & <- & _)|[_ H0]]%list_lookup_insert_Some; [by exists hp|by exists hp0]. }
  destruct (Hold _ _ H1) as (a & Ha & Ea). destruct (Hold _ _ H2) as (b & Hb & Eb). apply (Hd k1 k2 a b i); congruence.
Qed.

(** A step of one helper. *)
Lemma helper_moves up w asked k hp hp' : world_ok up w asked -> w_helpers w !! k = Some hp ->
  helper_ok (writtenTo (w_daemon w) (hp_session hp)) hp' -> hp_session hp' = hp_session hp -> heard hp' = heard hp ->
  world_ok up (mkWorld (w_daemon w) (<[k := hp']> (w_helpers w))) asked.
Proof.
  intros Hw Hk Hok Es Eh. split; simpl; [apply Hw| | |].
  - intros k' hp1 [(<- & <- & _)|[_ Hk']]%list_lookup_insert_Some; [by rewrite Es|]. by apply (wo_helper _ _ _ Hw k').
  - intros k' hp1 i [(<- & <- & _)|[_ Hk']]%list_lookup_insert_Some; [|by apply (wo_session _ _ _ Hw k')].
    rewrite Es, Eh. by apply (wo_session _ _ _ Hw k).
  - apply (distinct_insert _ k hp); [apply Hw|done..].
Qed.

Section worlds.
Context `{Zstd} (cf : Config) (pp : ProxyParams) (up : bool).

Lemma dial_ok w asked h ready w' : world_ok up w asked -> world_step cf pp up w (WDial h ready) = Some w' -> world_ok up w' asked.
Proof.
  intros Hw. simpl. destruct (sh_Stop h) eqn:Est; [done|].
  assert (Hd := hello_ok up (w_daemon w) asked h ready (wo_daemon _ _ _ Hw)). assert (Hg := hello_grows (w_daemon w) h ready).
  assert (Hs : snd (serveHello (w_daemon w) h ready) = None -> length (sv_sessions (fst (serveHello (w_daemon w) h ready))) = S (length (sv_sessions (w_daemon w)))).
  { unfold serveHello. destruct (_ && _); [done|]. rewrite Est. intros _. simpl. rewrite length_app. simpl. lia. }
  destruct (serveHello _ _ _) as [d' r]. cbn [fst snd] in *. intros [= <-].
  assert (Hw' := daemon_moves up w asked d' Hw Hd Hg).
  set (session := match r with None => _ | Some _ => None end).
  split; simpl; [done| | |].
  - intros k hp [[_ Hk]|[-> <-]]%lookup_snoc_Some; [by apply (wo_helper _ _ _ Hw' k)|]. apply new_helper_ok.
  - intros k hp i [[_ Hk]|[-> <-]]%lookup_snoc_Some; [by apply (wo_session _ _ _ Hw' k)|]. unfold session. simpl.
    destruct r; [done|]. intros [= <-]. split; [rewrite Hs by done; lia|]. apply (so_new _ _ _ (wo_daemon _ _ _ Hw)). lia.
  - assert (Hnew : forall k hp i, w_helpers w !! k = Some hp -> hp_session hp = Some i -> session <> Some i).
    { intros k hp i Hk Hi. destruct (wo_session _ _ _ Hw k hp i Hk Hi) as [Hl _]. unfold session. destruct r; [done|]. intros [= <-]. lia. }
    intros k k' hp hp' i [[_ Hk]|[-> <-]]%lookup_snoc_Some [[_ Hk']|[-> <-]]%lookup_snoc_Some E1 E2; [by apply (wo_distinct _ _ _ Hw k k' hp hp' i)| | |done].
    + by destruct (Hnew k hp i Hk E1).
    + by destruct (Hnew k' hp' i Hk' E2).
Qed.

Lemma receive_ok w asked k a wrote w' : world_ok up w asked -> world_step cf pp up w (WReceive k a wrote) = Some w' ->
  exists asked', world_ok up w' asked'.
Proof.
  intros Hw. simpl. destruct (w_helpers w !! k) as [hp|] eqn:Hk; [|done]. unfold receive.
  destruct (hp_session hp) as [i|] eqn:Es; [|done]. destruct (rl_sent (hp_relay hp) !! hp_received hp) as [[req body]|] eqn:Er; [|done].
  destruct (serveEnvelope _ _ _ _ _ _ _ _) as [d'|] eqn:E; [|done]. intros [= <-].
  set (e := SEnvelope i req body a wrote). set (asked' := fun j => asked j ++ asked_by j e). exists asked'.
  assert (Hd := envelope_ok cf up (w_daemon w) asked i req body a wrote d' (wo_daemon _ _ _ Hw) E). fold e asked' in Hd.
  assert (Hg := envelope_grows cf up _ _ _ _ _ _ _ E).
  assert (Hlt := lookup_lt_Some _ _ _ Er).
  assert (Hother : forall j, i <> j -> asked' j = asked j).
  { intros j Hj. unfold asked', e. simpl. rewrite decide_False by done. apply app_nil_r. }
  assert (Hself : asked' i = heard (read_one hp)).
  { unfold asked', e, heard. destruct (wo_session _ _ _ Hw k hp i Hk Es) as [_ ->]. unfold heard. simpl.
    rewrite decide_True, (take_S_r _ _ (req, body)), map_app, filter_app, map_app by done. f_equal. unfold answerable. simpl.
    destruct (rq_Command req) eqn:Ec; simpl; rewrite filter_cons; by rewrite Ec. }
  split; simpl; [done| | |].
  - intros k' hp1 [(<- & <- & _)|[_ Hk']]%list_lookup_insert_Some.
    + apply (more_written (writtenTo (w_daemon w) (hp_session hp))); [by apply writtenTo_grows|]. apply read_one_ok; [done|]. by apply (wo_helper _ _ _ Hw k).
    + eapply more_written; [by apply writtenTo_grows|]. by apply (wo_helper _ _ _ Hw k').
  - intros k' hp1 j [(<- & <- & _)|[Hne Hk']]%list_lookup_insert_Some.
    + simpl. rewrite Es. intros [= <-]. destruct (wo_session _ _ _ Hw k hp i Hk Es) as [Hl _]. split; [by eapply outs_grow_length|done].
    + intros Hj. destruct (wo_session _ _ _ Hw k' hp1 j Hk' Hj) as [Hl Ha]. split; [by eapply outs_grow_length|].
      rewrite Hother; [done|]. intros ->. by apply Hne, (wo_distinct _ _ _ Hw k k' hp hp1 j).
  - apply (distinct_insert _ k hp); [apply Hw|done..].
Qed.

Lemma world_step_ok w asked e w' : world_ok up w asked -> polite_world w e -> world_step cf pp up w e = Some w' -> exists asked', world_ok up w' asked'.
Proof.
  intros Hw He. destruct e as [h ready|e|k a wrote|k e].
  - intros E. exists asked. by eapply dial_ok.
  - simpl in He |- *. destruct (daemon_event e) eqn:Ed; [|done]. destruct (shim_step cf pp up (w_daemon w) e) as [d'|] eqn:E; [|done].
    intros [= <-]. exists asked. apply daemon_moves; [done| |by apply (step_grows cf pp up _ e)].
    assert (Hd := shim_step_ok cf pp up _ asked e d' (wo_daemon _ _ _ Hw) He E). apply (ok_ext up d' (fun j => asked j ++ asked_by j e)); [|done].
    intros j. destruct e; try done; apply app_nil_r.
  - by apply (receive_ok w asked).
  - simpl. destruct (w_helpers w !! k) as [hp|] eqn:Hk; [|done]. destruct (helper_step _ hp e) as [hp'|] eqn:E; [|done]. intros [= <-].
    exists asked. destruct (helper_sent _ _ _ _ E) as (E1 & E2 & l & E3). assert (Hok := wo_helper _ _ _ Hw k hp Hk).
    apply (helper_moves up w asked k hp); [done..| |done|by apply (heard_app hp hp' l); [apply Hok|..]].
    eapply helper_step_ok; [exact Hok|by apply (written_length up w asked k)|exact E].
Qed.

Lemma world_run_ok w asked es w' : world_ok up w asked -> polite_world_run cf pp up w es -> world_run cf pp up w es = Some w' -> exists asked', world_ok up w' asked'.
Proof.
  revert w asked. induction es as [|e es IH]; intros w asked Hw; simpl; [intros _ [= <-]; by exists asked|].
  intros [He Hes]. destruct (world_step cf pp up w e) as [w1|] eqn:E; [|done].
  destruct (world_step_ok w asked e w1 Hw He E) as [asked1 Hw1]. apply (IH w1 asked1); [done|by apply Hes].
Qed.

Lemma world_ok_init d tok : world_ok up (mkWorld (NewShimServer (newProxy d) tok) []) (fun _ => []).
Proof. split; [apply shim_ok_init|done..]. Qed.

(** What the go command of a helper asked for, as far as its helper sent it. *)
Definition sentIDs (hp : Helper) : list Z := map (fun s => rq_ID s.1) (rl_sent (hp_relay hp)).
Definition printedIDs (hp : Helper) : list Z := map rs_ID (rl_out (hp_relay hp)).

Lemma printed_among_sent w asked k hp : world_ok up w asked -> w_helpers w !! k = Some hp -> printedIDs hp ⊆+ sentIDs hp.
Proof.
  intros Hw Hk. trans (map rs_ID (writtenTo (w_daemon w) (hp_session hp))).
  { unfold printedIDs. destruct (ho_out _ _ (wo_helper _ _ _ Hw k hp Hk)) as [l ->]. rewrite map_app. by apply submseteq_inserts_r. }
  trans (heard hp); [by apply (written_heard up w asked k)|]. unfold heard, sentIDs.
  rewrite <-(map_map fst rq_ID). apply fmap_submseteq. etrans; [apply sublist_submseteq, sublist_filter|].
  apply fmap_submseteq. apply sublist_submseteq, sublist_take.
Qed.

(** C10: in daemon mode every go command gets its own answers.  However many helpers
    relay requests to one daemon, and however they, their connections, the daemon and its
    proxy are interleaved, what a helper has printed answers requests that its own go
    command sent, none more often than it was sent, and no response finds nothing in
    flight; a helper that succeeds while its connection is there has answered every one
    of them. *)
Theorem every_go_command_gets_its_answers d tok es w k hp
    (Hpolite : polite_world_run cf pp up (mkWorld (NewShimServer (newProxy d) tok) []) es)
    (Hrun : world_run cf pp up (mkWorld (NewShimServer (newProxy d) tok) []) es = Some w) (Hk : w_helpers w !! k = Some hp) :
  printedIDs hp ⊆+ sentIDs hp /\ hp_exit hp <> Some Crash /\
  (hp_exit hp = Some Success -> sc_ended (hp_client hp) = false -> printedIDs hp ≡ₚ sentIDs hp).
Proof.
  destruct (world_run_ok _ _ es w (world_ok_init d tok) Hpolite Hrun) as [asked Hw]. assert (Hok := wo_helper _ _ _ Hw k hp Hk).
  assert (Hsub := printed_among_sent w asked k hp Hw Hk). split; [done|]. split; [apply Hok|].
  intros Hx Hend. destruct (ho_success _ _ Hok Hx) as [Hm [Hz|Hn]]; [|rewrite (ho_ended _ _ Hok (or_intror Hn)) in Hend; done].
  assert (Hc := ho_count _ _ Hok). unfold sending in Hc. rewrite Hm in Hc.
  apply submseteq_length_Permutation; [done|]. unfold printedIDs, sentIDs. rewrite !length_map. lia.
Qed.
End worlds.

(** ** When the connection ends *)

(** A helper whose connection ended while a request was in flight does nothing until the
    go command sends something more: nobody reads what the copy has reported. *)
Lemma lost_connection_waits_for_input r e : rl_copy r = Copied -> rl_main r = Reading -> is_Some (relay_step r e) -> exists i, e = RInput i.
Proof.
  intros Hc Hm. unfold relay_step. rewrite Hc, Hm. destruct e as [i| | | | | |]; try (by intros [? ?]); intros _; by exists i.
Qed.

(** A request that is sent between the look of the copy at what is in flight and its
    report is never answered, and a close right after it succeeds. *)
Lemma close_can_miss_a_request : exists r, ProcessShimSession newRelay
    [REnd; RInput (getInput 1 #"a1"); RSend (Ok tt); RCheck; RReport; RInput closeInput; RClose WaitErr (Ok tt)] = Some (r, Some Success) /\
  rl_inFlight r = 1 /\ rl_out r = [].
Proof. eexists. split; [reflexivity|]. by split. Qed.

(** A call of [Do] that registers after the reader has returned waits for ever if its
    request is sent. *)
Lemma do_after_the_end c req rs : sc_ended c = true ->
  let c' := doRegister c req in doResult c' (length (sc_calls c)) = None /\ readResponse c' rs = None /\ readEnd c' = None.
Proof.
  intros He c'. unfold c', doResult, doRegister, readResponse, readEnd. simpl. rewrite He.
  by rewrite lookup_app_r, Nat.sub_diag by done.
Qed.

(** Dialing ends: with a tenth of a second between attempts, after at most 52 of them. *)
Lemma dialing_ends start attempts : (forall i now r, attempts !! i = Some (now, r) -> start + Z.of_nat i * 100000000 <= now) ->
  (52 <= length attempts)%nat -> exists r, dialLoop (start + dialPatience) attempts = Some r.
Proof.
  intros Ht Hl. destruct (lookup_lt_is_Some_2 attempts 51 ltac:(lia)) as [[now r] H51]. assert (Hlate := Ht _ _ _ H51). clear Ht Hl.
  assert (Hd : start + dialPatience < now) by (unfold dialPatience; lia). revert Hd. clear Hlate. revert H51. generalize 51%nat.
  induction attempts as [|[t x] attempts IH]; intros [|i] Hi Hd; simplify_eq/=.
  - destruct r; [by eexists|]. rewrite (proj2 (Z.ltb_lt _ _)) by done. by eexists.
  - destruct x; [by eexists|]. destruct (_ <? t); [by eexists|]. by apply (IH i).
Qed.

(** ** Witness *)

Definition polite_worldb (w : World) (e : WEvent) : bool :=
  match e with WDaemon e => polite_shimb (w_daemon w) e | _ => true end.

Fixpoint polite_world_runb `{Zstd} (cf : Config) (pp : ProxyParams) (up : bool) (w : World) (es : list WEvent) : bool :=
  match es with
  | [] => true
  | e :: es => polite_worldb w e && match world_step cf pp up w e with Some w' => polite_world_runb cf pp up w' es | None => true end
  end.

Lemma polite_world_runb_ok `{Zstd} cf pp up w es : polite_world_runb cf pp up w es = true -> polite_world_run cf pp up w es.
Proof.
  revert w. induction es as [|e es IH]; intros w; simpl; [done|]. intros [He Hes]%andb_true_iff.
  split; [|intros w' E; rewrite E in Hes; by apply IH]. destruct e as [| [] | |]; simpl in *; try done. by apply politeb_ok.
Qed.

(** Two go commands that use the same id for one action, and one of them puts another. *)
Definition asks (k : nat) (i : Input) : list WEvent := [WHelper k (HRelay (RInput i)); WHelper k (HRelay (RSend (Ok tt))); WHelper k (HRelay RCheck)].
Definition exampleBuild : list WEvent :=
  [WDial (mkHello #"secret" false) true; WDial (mkHello #" secret" false) true] ++
  asks 0 (getInput 1 #"a1") ++ asks 1 (getInput 1 #"a1") ++
  [WReceive 1 exampleArgs true; WReceive 0 exampleArgs true; WDaemon (SForward 0 5 None); WDaemon (SForward 1 5 None)] ++
  asks 1 (putInput 2 #"a2" #"out" #"ninebytes") ++ [WReceive 1 exampleArgs true] ++
  map WDaemon exampleAnswers ++
  [WHelper 1 HRead; WHelper 1 HRead; WHelper 1 (HCopy (Ok tt)); WHelper 1 (HRelay (RInput closeInput)); WHelper 1 (HCopy (Ok tt));
   WHelper 1 (HRelay (RClose WaitDone (Ok tt)))].

Lemma every_go_command_gets_its_answers_witness :
  exists w hp, world_run (H := magicZstd) diskConfig exampleParams true (mkWorld exampleShim []) exampleBuild = Some w /\
    w_helpers w !! 1%nat = Some hp /\ printedIDs hp ≡ₚ [1; 2].
Proof.
  destruct (ran (world_run (H := magicZstd) diskConfig exampleParams true (mkWorld exampleShim []) exampleBuild)) as [w Hw];
    [vm_compute; reflexivity|].
  assert (Ho : ((fun w => map (fun hp => (match hp_exit hp with Some Success => true | _ => false end, sc_ended (hp_client hp), sentIDs hp)) (w_helpers w)) <$>
      world_run (H := magicZstd) diskConfig exampleParams true (mkWorld exampleShim []) exampleBuild) = Some [(false, false, [1]); (true, false, [1; 2])])
    by (vm_compute; reflexivity).
  rewrite Hw in Ho. cbn [fmap option_fmap option_map] in Ho. injection Ho as Ho.
  destruct (w_helpers w !! 1%nat) as [hp|] eqn:Hk.
  2: { apply lookup_ge_None in Hk. apply (f_equal length) in Ho. rewrite length_map in Ho. simpl in Ho. lia. }
  exists w, hp. split; [exact Hw|]. split; [exact Hk|].
  apply (f_equal (fun l => l !! 1%nat)) in Ho. rewrite list_lookup_fmap, Hk in Ho. simpl in Ho. injection Ho as Hx He Hs. rewrite <-Hs.
  apply (every_go_command_gets_its_answers (H := magicZstd) diskConfig exampleParams true emptyStore #"secret" exampleBuild w 1 hp).
  - apply polite_world_runb_ok. vm_compute. reflexivity.
  - exact Hw.
  - exact Hk.
  - destruct (hp_exit hp) as [[| |]|]; [reflexivity|discriminate Hx..].
  - exact He.
Defined.
